(* ===== verification/_CoqProject ===== *)
-Q . S2P
Prelude.v
Nam2num.v
Ring.v
MbxRing.v
Resume.v
Kernel.v
KernelFacts.v
Queue.v
Sched.v
SchedFacts.v
Keeps.v
Tasks.v
Lxrt.v
Api.v
Sem.v
SemFacts.v
Mbx.v
MbxFacts.v
Poll.v
PollFacts.v
Registry.v
RegistryFacts.v
Heap.v
HeapFacts.v
HeapExt.v
HeapSafe.v
HeapRun.v
Tlsf.v
TlsfFacts.v
TlsfPool.v
TlsfHeap.v
Scb.v
ScbFacts.v
Shm.v
ShmFacts.v
Kvmem.v
KvmemFacts.v
ShmDev.v
ShmDevFacts.v
Fifo.v
Msg.v
MsgFacts.v
Named.v
NamedFacts.v
AllocFacts.v
Sig.v
Sys.v
SysFacts.v
Calls.v
CallsFacts.v
Intercept.v
InterceptFacts.v
Hal.v
HalFacts.v
FifoDev.v
FifoDevFacts.v
Srq.v
User.v
UserIpc.v
UserFifo.v
Entries.v
UserFacts.v
EntriesFacts.v
Ucall.v
UcallFacts.v
FifoUser.v
FifoUserFacts.v
Lock.v
LockFacts.v
Tsc.v
TscFacts.v
RegList.v
RegListFacts.v
Domain.v
DomainFacts.v
