(* ===== verification/Prelude.v ===== *)
(** * A verification development for RTAI

    RTAI adds hard real time tasks to a Linux kernel.  A scheduler of its own runs tasks
    by priority and by time (src/sched/sched.c with include/rtai_schedcore.h); tasks, some
    of them Linux processes, use semaphores, mailboxes, messages, FIFOs, shared memory and signals
    (src/ipc, src/sched/signal.c), have memory from heaps (src/malloc) and find objects by name (the
    registry in src/sched/api.c).  A process reaches all this by requests
    (src/sched/sys.c, include/rtai_lxrt.h).  Paths here are those below src/ of the repository.

    ** How the code is read

    - A call of the kernel runs under the global lock, so it is a function on the
      state; where it calls [rt_schedule()] other tasks run before it goes on.  What runs outside the lock goes
      access by access: the copies of the mailboxes, the lock-free buffers, the server of the Linux calls, the
      dispatcher of service requests, the synchronisation of the counters.
      [Resume.res] is what a call does up to its end or its next stop, with the rest of the
      call; [Resume.wp] is total correctness: the call does not follow a null pointer, does not run
      out of fuel, has the state in a given condition whenever it stops, and ends as it should whatever
      the others do within a given rely.  What the others may do is a hypothesis of a theorem
      ([R], [call_rely]); every theorem with such a hypothesis has an instance.
    - The state [Kernel.kst] has the control blocks by task, semaphores and mailboxes by
      identity, and the queues as lists.  The links of the code (next, prev, and the walks
      that look for a place) are in [Queue], which proves that they do what the lists do.
    - Larger states contain smaller ones: [Named.ext] adds the registry, the heap and the control blocks of
      messages to [kst]; [Sys.sys] adds what the requests of processes need; [Sig.sst] the
      tables of signals; [Intercept.ist] the rings of Linux calls and the kernel threads.  A call on the part is
      lifted with [Resume.within].
    - Integers are [Z]; where the code can leave the width, [u16], [u32], [u64], [i32] and [i64] write the wrap.
      A null pointer that is followed is [Fault]; a result is the value the code returns, error codes included.
    - Not in the source, so arguments: the time stamp counter and the calibration ([tunables]), addresses
      and contents of fresh memory, sizes of structures, Linux' own functions, handlers and services of
      other modules.

    ** Files

    - [Prelude]: tactics, machine integers, lists indexed by integers.  [Resume]: stopping calls and [wp].
    - [Nam2num] (include/rtai_nam2num.h), names as numbers.  [Ring], the theory of circular byte buffers, and
      [MbxRing] (src/ipc/mbx/mbx.c), the buffer of a mailbox.
    - [Kernel], [KernelFacts], [Queue]: control blocks, ready, timed and wait queues, priority passing
      (include/rtai_sched.h, rtai_schedcore.h, rtai_prinher.h).
    - [Sched], [SchedFacts] (src/sched/sched.c): the choice of a task, the timer, deferral, time conversion.
      [Keeps]: what scheduling leaves alone.  [Tasks]: creation, placement, deletion.  [Lxrt]: hard and soft
      real time.  [Api] (src/sched/api.c): services on tasks.
    - [Sem], [SemFacts] (src/ipc/sem/sem.c): semaphores, conditions, readers-writer locks, spinlocks.
      [Mbx], [MbxFacts]: mailbox services.  [Poll], [PollFacts] (sem.c, mbx.c): polling on several objects, and
      the services as they wake pollers; the other files have them as they are without polling.
      [Msg], [MsgFacts] (src/ipc/msg/msg.c): messages, calls, proxies.
      [Scb], [ScbFacts] (include/rtai_scb.h): lock-free buffers.
    - [Fifo] (src/ipc/fifos/fifos.c): the data path of a FIFO; [FifoDev], [FifoDevFacts]: its device file,
      its handlers and its names.
    - [Registry], [RegistryFacts] (src/sched/api.c): the hash tables of names; [RegList], [RegListFacts]: the
      variant without hashing, and that both are the same table.
    - The heap without TLSF (src/malloc/malloc.c): [Heap] the code, [HeapFacts] the lists threaded through its
      memory and its page map, [HeapExt] one extent, [HeapSafe] a list of extents, [HeapRun] a history of calls.
    - The heap with TLSF (same file): [Tlsf], [TlsfFacts], [TlsfPool], [TlsfHeap].
    - [Kvmem], [KvmemFacts] (src/ipc/shm/kvmem.c, extents and the global heap of malloc.c): memory from Linux.
    - [Shm], [ShmFacts] (src/ipc/shm/shm.c), with the interface [Allocator] and its laws, which [AllocFacts]
      proves of both heaps; [ShmDev], [ShmDevFacts]: the device of shm.c and what a process does with it
      (include/rtai_shm.h), against the interface [LinuxMm].
    - [Named], [NamedFacts]: objects by name and tasks by number.
    - [Sig] (src/sched/signal.c); [Sys], [SysFacts] (src/sched/sys.c): requests; [Calls], [CallsFacts]
      (include/rtai_lxrt.h, src/sched/api.c): the ring of Linux calls; [Intercept], [InterceptFacts] (src/sched/sched.c,
      sys.c): interception of Linux calls, traps and exits, kernel threads.
    - [Domain], [DomainFacts] (include/asm-x86/rtai_hal.h, src/sched/sched.c): the switches between Linux and
      real time, and interrupts.
    - [Lock], [LockFacts] (include/asm-x86/rtai_hal.h): the global lock, instruction by instruction.
    - [Hal], [HalFacts] (src/sched/rtai_hal.c): interrupts given to handlers, service requests, the timers.
      [Tsc], [TscFacts] (same file): the synchronisation of the time stamp counters.
    - What a process calls (the headers of include/): [Srq] service requests; [User], [UserIpc], [UserFifo] the
      functions that pack a request; [Entries] the lists of services the modules load; [EntriesFacts],
      [UserFacts] how the two meet; [Ucall], [UcallFacts] whole calls; [FifoUser], [FifoUserFacts] FIFOs.

    ** What is shown

    - The global lock: one processor holds it, with its interrupts off, and its calls do in any interleaving what
      their specification says; this is why the other files run a call as a function.
    - Linux and real time: whatever nests in an interrupt, the processor is in its mode again, Linux' stall word
      as it was, and a deferred schedule comes once, at the end.
    - Scheduling: after the head of [rt_schedule] the highest ready task runs and no due task
      waits; the timer is in time for the next task; the wake-up by time takes exactly the
      due prefix; a locked scheduler switches to nobody; time conversion loses less than a unit.
    - Priorities: passing a priority ends (its fuel is the number of links of the chain, [pass_fuel]) and makes
      no task of the chain lower; waiting in a priority queue keeps its order; the links refine the lists.
    - Semaphores: count and queue agree at every stop; a wait ends with the resource or an
      error; a signal wakes the first waiter; the timed wait the same.
    - Mailboxes and buffers: every byte in order, once, while both sides copy at the same time; the shared circular buffer without locks.
    - Polling: a poll leaves no element behind and counts its answers, whatever wakers and other pollers do
      between its sections, and what it counts on is what they do; it goes wrong when its time is over before it sleeps.
    - Messages: call, receive and return move through the phases of a protocol; the answer is the server's.
    - Memory: TLSF allocation and release keep a well-formed pool and refine a good fit; the blocks of the
      other heap stay apart, in the heap and with their contents through any history, and a request is refused only
      for want of room; buffers held never overlap; the global heap comes and goes without a page left behind;
      a mapping shows the pages of its chunk and no others; a process has the chunk it names.
    - Names: registration, search and release of names, in two implementations of one table; shared objects and
      shared memory live as long as they have users.
    - Processes: requests are decoded as they were encoded and reach the service that the function names, whatever
      the order in which modules are loaded; Linux calls are made in order and
      once, with the right status but for one cancelled while it is made; kernel threads that are asked for are started; the end of a
      process, where the code releases the wrong objects.
    - Time stamp counters: the two processors that compare theirs never wait for each other for ever, and end within
      half a round trip, or one and a half where no comparison gave 0.
    - FIFOs: their commands, four of which go wrong, and their names; service requests: each is served, on one processor at a time.

    ** Fuel

    Loops that follow a queue are bounded by its length ([pass_fuel], the probes of the registry by the size of
    the table, the walks by the lists, those of the heap by the pages of its extents).  Loops that wait for
    others ([soft_wait], retries of a take-over, the blocking mailbox loops, the turns of a server) have no
    bound in the code; they take fuel, and the theorems say how much is enough where they bound them: one turn for each byte sent or received, 64 turns for the
    requests of threads.

    ** Not modelled

    The stack exchange and the context switch (a switch is a stop), FPU state, the registers of the interrupt
    and timer chips, calibrate.c, the page tables of Linux (an interface), the files in /proc, the entry points of the modules, the loops of the
    kernel threads that wait for Linux, the floating point
    library (src/math) and the test programs. *)

From Stdlib Require Export ZArith ZifyBool Lia Bool.
From Stdlib Require Strings.Byte.
From stdpp Require Export base list numbers tactics decidable functions.


Declare Scope rtai_scope.
Delimit Scope rtai_scope with rtai.
Open Scope Z_scope.
Open Scope rtai_scope.

(** ** Automation *)

Create HintDb rtai.

(** Turn the boolean comparisons of the code into propositions. *)
Ltac zbool :=
  repeat match goal with
  | H : (_ && _)%bool = true |- _ => apply andb_true_iff in H; destruct H
  | H : (_ || _)%bool = false |- _ => apply orb_false_iff in H; destruct H
  | H : negb _ = true |- _ => apply negb_true_iff in H
  | H : negb _ = false |- _ => apply negb_false_iff in H
  | H : (_ <? _) = true |- _ => apply Z.ltb_lt in H
  | H : (_ <? _) = false |- _ => apply Z.ltb_ge in H
  | H : (_ <=? _) = true |- _ => apply Z.leb_le in H
  | H : (_ <=? _) = false |- _ => apply Z.leb_gt in H
  | H : (_ =? _) = true |- _ => apply Z.eqb_eq in H
  | H : (_ =? _) = false |- _ => apply Z.eqb_neq in H
  end.

(** Case analysis on the scrutinee of some [if] of the goal, innermost first. *)
Ltac zcase :=
  match goal with
  | |- context [if ?b then _ else _] =>
      lazymatch b with
      | context [if _ then _ else _] => fail
      | _ => let E := fresh "E" in destruct b eqn:E; zbool
      end
  end.

Ltac zcases := repeat zcase.

(** The same on a hypothesis. *)
Ltac zcase_in H :=
  match type of H with
  | context [if ?b then _ else _] =>
      lazymatch b with
      | context [if _ then _ else _] => fail
      | _ => let E := fresh "E" in destruct b eqn:E; zbool
      end
  end.

(** ** Machine integers *)

(** The value an unsigned [w]-bit object holds after it is assigned [z]. *)
Definition wrapu (w : Z) (z : Z) : Z := z mod 2 ^ w.

(** The value a two's complement [w]-bit object holds after it is assigned [z]. *)
Definition wraps (w : Z) (z : Z) : Z :=
  (z + 2 ^ (w - 1)) mod 2 ^ w - 2 ^ (w - 1).

Abbreviation u32 := (wrapu 32).
Abbreviation u64 := (wrapu 64).
Abbreviation i32 := (wraps 32).
Abbreviation i64 := (wraps 64).

Lemma wrapu_range w z : 0 <= w -> 0 <= wrapu w z < 2 ^ w.
Proof. intros Hw. apply Z.mod_pos_bound, Z.pow_pos_nonneg; lia. Qed.

Lemma wrapu_small w z : 0 <= z < 2 ^ w -> wrapu w z = z.
Proof. apply Z.mod_small. Qed.

Lemma wraps_range w z : 0 < w -> - 2 ^ (w - 1) <= wraps w z < 2 ^ (w - 1).
Proof.
  intros Hw. unfold wraps.
  assert (2 ^ w = 2 * 2 ^ (w - 1)) as Hp.
  { rewrite <- Z.pow_succ_r by lia. f_equal. lia. }
  pose proof (Z.mod_pos_bound (z + 2 ^ (w - 1)) (2 ^ w)
                (Z.pow_pos_nonneg 2 w eq_refl ltac:(lia))). lia.
Qed.

Lemma wraps_small w z :
  0 < w -> - 2 ^ (w - 1) <= z < 2 ^ (w - 1) -> wraps w z = z.
Proof.
  intros Hw Hz. unfold wraps.
  assert (2 ^ w = 2 * 2 ^ (w - 1)) as Hp.
  { rewrite <- Z.pow_succ_r by lia. f_equal. lia. }
  rewrite Z.mod_small; lia.
Qed.

(** ** Lists indexed by machine integers *)

Definition zlen {A} (l : list A) : Z := Z.of_nat (length l).
Definition ztake {A} (n : Z) (l : list A) : list A := take (Z.to_nat n) l.
Definition zdrop {A} (n : Z) (l : list A) : list A := drop (Z.to_nat n) l.

Abbreviation byte := Byte.byte.

#[export] Instance byte_inhabited : Inhabited byte := populate Byte.x00.
#[export] Instance byte_eq_dec : EqDecision byte := Byte.byte_eq_dec.

(** [buf[i]] for an index the code keeps in range. *)
Definition zget {A} `{Inhabited A} (l : list A) (i : Z) : A := l !!! Z.to_nat i.

Section zlist.
Context {A : Type} `{Inhabited A}.
Implicit Types l k : list A.

Lemma zlen_nonneg l : 0 <= zlen l.
Proof. unfold zlen. lia. Qed.

Lemma zlen_app l k : zlen (l ++ k) = zlen l + zlen k.
Proof. unfold zlen. rewrite length_app. lia. Qed.

Lemma zlen_ztake n l : zlen (ztake n l) = Z.max 0 (Z.min n (zlen l)).
Proof. unfold zlen, ztake. rewrite length_take. lia. Qed.

Lemma zlen_zdrop n l : zlen (zdrop n l) = Z.max 0 (zlen l - Z.max 0 n).
Proof. unfold zlen, zdrop. rewrite length_drop. lia. Qed.

Lemma ztake_zdrop n l : ztake n l ++ zdrop n l = l.
Proof. apply take_drop. Qed.

Lemma ztake_nonpos n l : n <= 0 -> ztake n l = [].
Proof. intros. unfold ztake. replace (Z.to_nat n) with 0%nat by lia. done. Qed.

Lemma zdrop_nonpos n l : n <= 0 -> zdrop n l = l.
Proof. intros. unfold zdrop. replace (Z.to_nat n) with 0%nat by lia. done. Qed.

Lemma ztake_all n l : zlen l <= n -> ztake n l = l.
Proof. unfold zlen, ztake. intros. apply take_ge. lia. Qed.

Lemma zdrop_all n l : zlen l <= n -> zdrop n l = [].
Proof. unfold zlen, zdrop. intros. apply drop_ge. lia. Qed.

Lemma ztake_ztake n m l : 0 <= n -> 0 <= m -> ztake n (ztake m l) = ztake (Z.min n m) l.
Proof. intros. unfold ztake. rewrite take_take. f_equal. lia. Qed.

Lemma zdrop_zdrop n m l : 0 <= n -> 0 <= m -> zdrop n (zdrop m l) = zdrop (n + m) l.
Proof. intros. unfold zdrop. rewrite drop_drop. f_equal. lia. Qed.

Lemma ztake_add n m l :
  0 <= n -> 0 <= m -> ztake (n + m) l = ztake n l ++ ztake m (zdrop n l).
Proof.
  intros. unfold ztake, zdrop.
  rewrite Z2Nat.inj_add by lia.
  by rewrite <- take_take_drop.
Qed.

Lemma ztake_app_le n l k : n <= zlen l -> ztake n (l ++ k) = ztake n l.
Proof. unfold zlen, ztake. intros. apply take_app_le. lia. Qed.

Lemma zdrop_app_le n l k : n <= zlen l -> zdrop n (l ++ k) = zdrop n l ++ k.
Proof. unfold zlen, zdrop. intros. apply drop_app_le. lia. Qed.

Lemma zdrop_app_ge n l k : zlen l <= n -> zdrop n (l ++ k) = zdrop (n - zlen l) k.
Proof. unfold zlen, zdrop. intros. rewrite drop_app_ge by lia. f_equal. lia. Qed.

Lemma ztake_app_len l k : ztake (zlen l) (l ++ k) = l.
Proof. unfold zlen, ztake. rewrite Nat2Z.id. by rewrite take_app_length. Qed.

Lemma zdrop_app_len l k : zdrop (zlen l) (l ++ k) = k.
Proof. unfold zlen, zdrop. rewrite Nat2Z.id. by rewrite drop_app_length. Qed.

(** Two lists of one length that agree at each index are equal. *)
Lemma zlist_eq l k :
  zlen l = zlen k -> (forall i, 0 <= i < zlen l -> zget l i = zget k i) -> l = k.
Proof.
  unfold zlen, zget. intros Hlen Hget.
  apply list_eq_same_length with (length k); [done|lia|].
  intros i x y Hi Hx Hy.
  specialize (Hget (Z.of_nat i) ltac:(lia)). rewrite Nat2Z.id in Hget.
  rewrite (list_lookup_total_correct _ _ _ Hx) in Hget.
  rewrite (list_lookup_total_correct _ _ _ Hy) in Hget. done.
Qed.

Lemma zget_app l k i :
  0 <= i -> zget (l ++ k) i = if i <? zlen l then zget l i else zget k (i - zlen l).
Proof.
  intros Hi. unfold zget, zlen. zcase.
  - apply lookup_total_app_l. lia.
  - rewrite lookup_total_app_r by lia. f_equal. lia.
Qed.

Lemma zget_ztake l n i : 0 <= i < n -> zget (ztake n l) i = zget l i.
Proof.
  intros Hi. unfold zget, ztake. rewrite lookup_total_take.
  case_decide; [done|lia].
Qed.

Lemma zget_zdrop l n i : 0 <= n -> 0 <= i -> zget (zdrop n l) i = zget l (n + i).
Proof.
  intros. unfold zget, zdrop. rewrite lookup_total_drop. f_equal. lia.
Qed.

End zlist.

Create Rewrite HintDb zlen.
#[export] Hint Rewrite @zlen_app @zlen_ztake @zlen_zdrop : zlen.
#[export] Hint Resolve zlen_nonneg : rtai.

(** ** Rings *)

Lemma slot_inj nr x y : 0 < nr -> x mod nr = y mod nr -> Z.abs (x - y) < nr -> x = y.
Proof.
  intros Hn E Hd. pose proof (Z.div_mod x nr ltac:(lia)). pose proof (Z.div_mod y nr ltac:(lia)).
  assert (x - y = nr * (x / nr - y / nr)) as Hq by lia.
  assert (x / nr - y / nr = 0) by nia. lia.
Qed.
