(* ===== verification/Nam2num.v ===== *)
(** * Object names (include/rtai_nam2num.h)

    [nam2num] packs a name of up to six characters into a base-40 number,
    [num2nam] unpacks it into a caller's buffer.  A C string is the list of its
    characters up to the terminating zero; the buffer [num2nam] writes is a list
    of at least seven characters.  The [ctype] classification is that of the
    seven-bit characters. *)

From S2P Require Import Prelude.

Definition MAX_NAM2NUM : Z := 4096000003.

(** ** The C code *)

Definition islower (c : Z) : bool := (97 <=? c) && (c <=? 122).
Definition isupper (c : Z) : bool := (65 <=? c) && (c <=? 90).
Definition isdigit (c : Z) : bool := (48 <=? c) && (c <=? 57).

(** The base-40 digit of a character: the [if] chain in the loop of [nam2num]. *)
Definition nam2num_digit (c : Z) : Z :=
  if islower c then c + (10 - 97)
  else if isupper c then c + (10 - 65)
  else if isdigit c then c - 48
  else if c =? 95 then 36 else if c =? 64 then 37 else if c =? 46 then 38 else 39.

(** [for (i = 0; i < 6; i++)], the pointer [name + i] being the list's tail. *)
Fixpoint nam2num_loop (n : nat) (name : list Z) (retval : Z) (i : Z) : Z * Z :=
  match n, name with
  | S n', c :: name' =>
      if c =? 0 then (retval, i)
      else nam2num_loop n' name' (u64 (retval * 40 + nam2num_digit c)) (i + 1)
  | _, _ => (retval, i)
  end.

Definition nam2num (name : list Z) : Z :=
  let '(retval, i) := nam2num_loop 6 name 0 0 in
  if 0 <? i then u64 (retval + 2) else 0xFFFFFFFF.

(** The character of a base-40 digit: the body of the first loop of [num2nam]. *)
Definition num2nam_char (c : Z) : Z :=
  if c <? 36 then (if 9 <? c then c + 65 - 10 else c + 48)
  else if c =? 36 then 95 else if c =? 37 then 64 else if c =? 38 then 46 else 36.

(** [while (num && i >= 0)]: at most six turns, [i] runs from 5 down. *)
Fixpoint num2nam_loop (n : nat) (num i : Z) (name : list Z) : Z * list Z :=
  match n with
  | O => (i, name)
  | S n' =>
      if negb (num =? 0) && (0 <=? i) then
        let q := i32 (num / 40) in
        let c := i32 (num - q * 40) in
        num2nam_loop n' (u64 q) (i - 1) (<[Z.to_nat i := num2nam_char c]> name)
      else (i, name)
  end.

(** [for (k = 0; i < 5; k++) name[k] = name[++i];] returns [k] and the buffer. *)
Fixpoint num2nam_shift (n : nat) (k i : Z) (name : list Z) : Z * list Z :=
  match n with
  | O => (k, name)
  | S n' =>
      if i <? 5 then
        num2nam_shift n' (k + 1) (i + 1)
          (<[Z.to_nat k := name !!! Z.to_nat (i + 1)]> name)
      else (k, name)
  end.

Definition num2nam (num : Z) (name : list Z) : list Z :=
  if MAX_NAM2NUM <=? num then [124; 110; 117; 108; 108; 124; 0] ++ drop 7 name
  else
    let '(i, name1) := num2nam_loop 6 (u64 (num - 2)) 5 name in
    let '(k, name2) := num2nam_shift 6 0 i name1 in
    <[Z.to_nat k := 0]> name2.

(** The C string a buffer holds: its characters before the first zero. *)
Fixpoint c_string (name : list Z) : list Z :=
  match name with
  | [] => []
  | c :: r => if c =? 0 then [] else c :: c_string r
  end.

(** ** Specification: base-40 numerals *)

(** The number a digit sequence denotes, the most significant digit first. *)
Fixpoint num_of (acc : Z) (ds : list Z) : Z :=
  match ds with
  | [] => acc
  | d :: r => num_of (acc * 40 + d) r
  end.

(** The digits of a number without leading zeros. *)
Fixpoint digits (n : nat) (num : Z) : list Z :=
  match n with
  | O => []
  | S n' => if num =? 0 then [] else digits n' (num / 40) ++ [num mod 40]
  end.

Fixpoint strip0 (ds : list Z) : list Z :=
  match ds with
  | [] => []
  | d :: r => if d =? 0 then strip0 r else d :: r
  end.

(** How the pair of functions normalises a character: upper case, and [$] for
    every character outside the alphabet. *)
Definition canon (c : Z) : Z := num2nam_char (nam2num_digit c).

Definition name_char (c : Z) : Prop := 1 <= c <= 127.
Definition digit40 (d : Z) : Prop := 0 <= d < 40.

(** ** Helper lemmas *)

Lemma nam2num_digit_range c : name_char c -> digit40 (nam2num_digit c).
Proof.
  unfold name_char, digit40, nam2num_digit, islower, isupper, isdigit.
  intros Hc. zcases; lia.
Qed.

Lemma num2nam_char_digit d : digit40 d -> nam2num_digit (num2nam_char d) = d.
Proof.
  unfold digit40. intros Hd.
  assert (In d (map Z.of_nat (seq 0 40))) as Hin.
  { replace d with (Z.of_nat (Z.to_nat d)) by lia.
    apply in_map, in_seq. lia. }
  revert d Hin Hd. simpl.
  intros d Hin _. repeat (destruct Hin as [<-|Hin]; [reflexivity|]). done.
Qed.

Lemma num2nam_char_range d : digit40 d -> name_char (num2nam_char d).
Proof. unfold digit40, name_char, num2nam_char. intros. zcases; lia. Qed.

Lemma num_of_app acc ds es : num_of acc (ds ++ es) = num_of (num_of acc ds) es.
Proof. revert acc. induction ds as [|d ds IH]; intros acc; simpl; auto. Qed.

Lemma num_of_bounds acc ds :
  0 <= acc -> Forall digit40 ds ->
  acc * 40 ^ zlen ds <= num_of acc ds < (acc + 1) * 40 ^ zlen ds.
Proof.
  unfold zlen, digit40. intros Hacc Hds. revert acc Hacc.
  induction Hds as [|d ds Hd _ IH]; intros acc Hacc; [simpl; lia|].
  specialize (IH (acc * 40 + d) ltac:(lia)).
  cbn [length num_of]. rewrite Nat2Z.inj_succ, Z.pow_succ_r by lia. nia.
Qed.

Lemma num_of_digits n num :
  0 <= num < 40 ^ Z.of_nat n -> num_of 0 (digits n num) = num.
Proof.
  revert num. induction n as [|n IH]; intros num Hnum; [simpl in *; lia|].
  rewrite Nat2Z.inj_succ, Z.pow_succ_r in Hnum by lia.
  cbn [digits]. zcase; [done|]. rewrite num_of_app, IH
    by (split; [apply Z.div_pos|apply Z.div_lt_upper_bound]; lia).
  simpl. pose proof (Z.div_mod num 40). lia.
Qed.

Lemma strip0_zero ds : Forall digit40 ds -> (strip0 ds = [] <-> num_of 0 ds = 0).
Proof.
  induction 1 as [|d ds Hd Hds IH]; [done|]. cbn [strip0 num_of].
  zcase; [by subst d|]. split; [done|]. intros Hz.
  unfold digit40 in Hd.
  pose proof (num_of_bounds d ds ltac:(lia) Hds).
  assert (0 < 40 ^ zlen ds) by (apply Z.pow_pos_nonneg; auto with rtai; lia).
  rewrite Z.add_0_l in Hz. nia.
Qed.

Lemma strip0_snoc ds d :
  strip0 (ds ++ [d]) = match strip0 ds with [] => strip0 [d] | s => s ++ [d] end.
Proof. induction ds as [|e ds IH]; simpl; [done|]. zcase; done. Qed.

Lemma digits_num_of n ds :
  (length ds <= n)%nat -> Forall digit40 ds -> digits n (num_of 0 ds) = strip0 ds.
Proof.
  revert ds. induction n as [|n IH]; intros ds Hlen Hds.
  { destruct ds; [done|simpl in Hlen; lia]. }
  destruct ds as [|d ds _] using rev_ind; [done|].
  apply Forall_app in Hds as [Hds Hd]. rewrite Forall_singleton in Hd.
  rewrite length_app in Hlen. simpl in Hlen.
  pose proof (num_of_bounds 0 ds ltac:(lia) Hds) as Hb. unfold digit40 in Hd.
  rewrite num_of_app, strip0_snoc. cbn [num_of digits].
  destruct (strip0 ds) as [|e s] eqn:Hs.
  - apply (strip0_zero _ Hds) in Hs. rewrite Hs, Z.mul_0_l, Z.add_0_l.
    cbn [strip0 app]. zcase; [done|]. rewrite Z.div_small, Z.mod_small by lia.
    by destruct n.
  - assert (num_of 0 ds <> 0).
    { intros Hz. apply (strip0_zero _ Hds) in Hz. congruence. }
    zcase; [lia|].
    rewrite Z.div_add_l, (Z.div_small d), Z.add_0_r, IH, Hs by (done || lia).
    rewrite Z.add_comm, Z.mod_add, Z.mod_small by lia. done.
Qed.

(** ** The loops compute the numeral functions *)

Lemma canon_digits name :
  Forall name_char name -> Forall digit40 (map nam2num_digit name).
Proof.
  intros Hn. rewrite Forall_map. eapply Forall_impl; [|exact Hn].
  intros c Hc. by apply nam2num_digit_range.
Qed.

Lemma nam2num_loop_spec n name retval i :
  Forall name_char name -> (length name <= n)%nat -> (n <= 6)%nat ->
  0 <= retval < 40 ^ (6 - Z.of_nat n) ->
  nam2num_loop n name retval i =
    (num_of retval (map nam2num_digit name), i + zlen name).
Proof.
  revert name retval i. induction n as [|n IH]; intros name retval i Hn Hlen H6 Hr.
  { destruct name; [|simpl in Hlen; lia]. unfold zlen. simpl. f_equal. lia. }
  destruct Hn as [|c name Hc Hn]; [unfold zlen; simpl; f_equal; lia|].
  pose proof (nam2num_digit_range c Hc) as Hd. unfold name_char, digit40 in *.
  assert (40 * 40 ^ (6 - Z.of_nat (S n)) = 40 ^ (6 - Z.of_nat n)) as Hp.
  { rewrite <- Z.pow_succ_r by lia. f_equal. lia. }
  assert (40 ^ (6 - Z.of_nat n) <= 40 ^ 6) by (apply Z.pow_le_mono_r; lia).
  change (40 ^ 6) with 4096000000 in *.
  cbn [nam2num_loop map num_of length] in *. zcase; [lia|].
  rewrite wrapu_small by (change (2 ^ 64) with 18446744073709551616; lia).
  rewrite IH by (done || lia). unfold zlen. cbn [length]. f_equal. lia.
Qed.

Lemma nam2num_spec name :
  Forall name_char name -> name <> [] -> (length name <= 6)%nat ->
  nam2num name = num_of 0 (map nam2num_digit name) + 2 /\
  0 <= num_of 0 (map nam2num_digit name) < 4096000000.
Proof.
  intros Hn Hne Hlen.
  pose proof (num_of_bounds 0 _ ltac:(lia) (canon_digits _ Hn)) as Hb.
  assert (40 ^ zlen (map nam2num_digit name) <= 40 ^ 6) as Hp.
  { apply Z.pow_le_mono_r; [lia|]. unfold zlen. rewrite length_map. lia. }
  change (40 ^ 6) with 4096000000 in Hp. split; [|lia].
  unfold nam2num. rewrite nam2num_loop_spec by (done || (simpl; lia)).
  destruct name; [done|]. unfold zlen. cbn [length].
  zcase; [|lia]. apply wrapu_small.
  change (2 ^ 64) with 18446744073709551616. lia.
Qed.

Lemma digits_length n num : (length (digits n num) <= n)%nat.
Proof.
  revert num. induction n as [|n IH]; intros num; [done|]. cbn [digits].
  zcase; [simpl; lia|]. rewrite length_app. specialize (IH (num / 40)). simpl. lia.
Qed.

Lemma num2nam_loop_spec n num name :
  (n <= 6)%nat -> (n <= length name)%nat -> 0 <= num < 40 ^ Z.of_nat n ->
  num2nam_loop n num (Z.of_nat n - 1) name =
    let ds := digits n num in
    (Z.of_nat n - 1 - zlen ds,
     take (n - length ds) name ++ map num2nam_char ds ++ drop n name).
Proof.
  revert num name. induction n as [|n IH]; intros num name H6 Hlen Hnum.
  { unfold zlen. simpl. rewrite drop_0. f_equal. }
  cbn [num2nam_loop digits].
  destruct (num =? 0) eqn:E0; zbool; cbn [negb andb].
  { unfold zlen. cbn [length map]. f_equal; [lia|].
    by rewrite Nat.sub_0_r, app_nil_l, take_drop. }
  assert ((0 <=? Z.of_nat (S n) - 1) = true) as -> by lia. cbn zeta.
  rewrite Nat2Z.inj_succ, Z.pow_succ_r in Hnum by lia.
  assert (40 ^ Z.of_nat n <= 40 ^ 5) by (apply Z.pow_le_mono_r; lia).
  change (40 ^ 5) with 102400000 in *.
  assert (0 <= num / 40 < 40 ^ Z.of_nat n) as Hq
    by (split; [apply Z.div_pos|apply Z.div_lt_upper_bound]; lia).
  pose proof (Z.div_mod num 40 ltac:(lia)). pose proof (Z.mod_pos_bound num 40 ltac:(lia)).
  rewrite (wraps_small 32 (num / 40)) by (change (2 ^ (32 - 1)) with 2147483648; lia).
  rewrite (wraps_small 32) by (change (2 ^ (32 - 1)) with 2147483648; lia).
  rewrite wrapu_small by (change (2 ^ 64) with 18446744073709551616; lia).
  replace (Z.of_nat (S n) - 1 - 1) with (Z.of_nat n - 1) by lia.
  replace (Z.to_nat (Z.of_nat (S n) - 1)) with n by lia.
  rewrite IH; [|lia|by rewrite length_insert; lia|lia]. cbn zeta.
  pose proof (digits_length n (num / 40)) as Hdl.
  unfold zlen. rewrite !length_app, map_app. cbn [length map].
  f_equal; [lia|].
  replace (S n - (length (digits n (num / 40)) + 1))%nat
    with (n - length (digits n (num / 40)))%nat by lia.
  rewrite take_insert_ge, <- !app_assoc by lia. do 2 f_equal.
  rewrite drop_insert_ge, Nat.sub_diag by lia.
  destruct (drop n name) as [|x l] eqn:Hx.
  { apply (f_equal length) in Hx. rewrite length_drop in Hx. simpl in Hx. lia. }
  rewrite <- Nat.add_1_r, <- drop_drop, Hx. simpl.
  rewrite drop_0. do 2 f_equal. rewrite (Z.mod_eq num 40) by lia. lia.
Qed.

(** Moving the characters of the top of the buffer to its start leaves them as
    the C string the buffer holds. *)
Lemma num2nam_shift_spec cs name :
  Forall name_char cs -> (length cs <= 6)%nat -> (7 <= length name)%nat ->
  let '(k, name') :=
    num2nam_shift 6 0 (5 - zlen cs) (take (6 - length cs) name ++ cs ++ drop 6 name) in
  c_string (<[Z.to_nat k := 0]> name') = cs.
Proof.
  intros Hcs Hlen Hname. unfold name_char in Hcs.
  do 7 (destruct name as [|? name]; [simpl in Hname; lia|]).
  destruct cs as [|? [|? [|? [|? [|? [|? [|? ?]]]]]]]; try (simpl in Hlen; lia);
  repeat match goal with H : Forall _ (_ :: _) |- _ => inversion_clear H end;
  cbv -[Z.eqb]; change (0 =? 0) with true;
  repeat match goal with
  | |- context [?c =? 0] => assert ((c =? 0) = false) as -> by lia
  end; done.
Qed.

(** What [num2nam] leaves in the buffer for a number of the name range. *)
Lemma num2nam_digits num name :
  2 <= num < 4096000002 -> (7 <= length name)%nat ->
  c_string (num2nam num name) = map num2nam_char (digits 6 (num - 2)).
Proof.
  intros Hnum Hlen. unfold num2nam, MAX_NAM2NUM. zcase; [lia|].
  rewrite wrapu_small by (change (2 ^ 64) with 18446744073709551616; lia).
  change 5 with (Z.of_nat 6 - 1) at 1.
  rewrite num2nam_loop_spec by (simpl; lia). cbn zeta.
  set (ds := digits 6 (num - 2)).
  assert (Forall digit40 ds) as Hds.
  { unfold ds. generalize (num - 2) as k, 6%nat as n. intros k n. revert k.
    induction n as [|n IH]; intros k; cbn [digits]; [constructor|]. zcase; [constructor|].
    apply Forall_app; split; [done|]. rewrite Forall_singleton.
    unfold digit40. apply Z.mod_pos_bound. lia. }
  pose proof (digits_length 6 (num - 2)) as Hdl. fold ds in Hdl.
  pose proof (num2nam_shift_spec (map num2nam_char ds) name) as Hs.
  rewrite length_map in Hs. unfold zlen in *. rewrite length_map in Hs.
  change (Z.of_nat 6 - 1) with 5.
  destruct (num2nam_shift _ _ _ _) as [k name2]. apply Hs; [|done..].
  rewrite Forall_map. eapply Forall_impl; [|exact Hds].
  intros d Hd. by apply num2nam_char_range.
Qed.

Lemma strip0_id d ds : d <> 0 -> strip0 (d :: ds) = d :: ds.
Proof. intros Hd. simpl. zcase; [lia|done]. Qed.

Lemma digits_name name :
  Forall name_char name -> (length name <= 6)%nat ->
  digits 6 (num_of 0 (map nam2num_digit name)) = strip0 (map nam2num_digit name).
Proof.
  intros Hn Hlen. apply digits_num_of; [by rewrite length_map|by apply canon_digits].
Qed.

(** The names the round trip is for: one to six characters, none a [0] digit in
    front. *)
Definition name_ok (name : list Z) : Prop :=
  Forall name_char name /\ (length name <= 6)%nat /\
  match name with [] => False | c :: _ => c <> 48 end.

(** * Properties *)

(** [num2nam] undoes [nam2num]: for every name of one to six characters that
    does not start with the digit 0, the buffer holds the name back, with its
    letters in upper case and every character outside the alphabet as [$]. *)
Theorem num2nam_nam2num name buf :
  name_ok name -> (7 <= length buf)%nat ->
  c_string (num2nam (nam2num name) buf) = map canon name.
Proof.
  intros (Hn & Hlen & Hz) Hbuf.
  destruct name as [|c name]; [done|].
  destruct (nam2num_spec (c :: name) Hn ltac:(done) Hlen) as [-> Hr].
  rewrite num2nam_digits by lia.
  rewrite Z.add_simpl_r, digits_name by done.
  cbn [map]. rewrite strip0_id; [by cbn; rewrite map_map|].
  apply Forall_cons_1 in Hn as [Hc _]. revert Hc Hz.
  unfold name_char, nam2num_digit, islower, isupper, isdigit. intros. zcases; lia.
Qed.


(** Every name of one to six characters gets a number of the range that
    [num2nam] unpacks: at least 2 and below [MAX_NAM2NUM], never the number
    0xFFFFFFFF that the empty name gets. *)
Theorem nam2num_range name :
  Forall name_char name -> name <> [] -> (length name <= 6)%nat ->
  2 <= nam2num name < MAX_NAM2NUM - 1 /\ nam2num name <> nam2num [].
Proof.
  intros Hn Hne Hlen. unfold MAX_NAM2NUM.
  destruct (nam2num_spec name Hn Hne Hlen) as [-> ?].
  split; [lia|]. change (nam2num []) with 4294967295. lia.
Qed.


(** Two names collide exactly when their normalised characters agree up to
    leading [0] digits: [nam2num] ignores case, identifies the characters outside
    its alphabet, and loses leading zeros, nothing else. *)
Theorem nam2num_collision a b :
  Forall name_char a -> a <> [] -> (length a <= 6)%nat ->
  Forall name_char b -> b <> [] -> (length b <= 6)%nat ->
  nam2num a = nam2num b <->
  strip0 (map nam2num_digit a) = strip0 (map nam2num_digit b).
Proof.
  intros Ha Ha0 Hal Hb Hb0 Hbl.
  destruct (nam2num_spec a Ha Ha0 Hal) as [-> _].
  destruct (nam2num_spec b Hb Hb0 Hbl) as [-> _].
  rewrite <- (digits_name a) by done.
  rewrite <- (digits_name b) by done.
  split; [intros He; f_equal; lia|].
  intros He. apply (f_equal (num_of 0)) in He.
  pose proof (nam2num_spec a Ha Ha0 Hal) as [_ ?].
  pose proof (nam2num_spec b Hb Hb0 Hbl) as [_ ?].
  change 4096000000 with (40 ^ Z.of_nat 6) in *.
  rewrite !num_of_digits in He by done. lia.
Qed.

(** The two registrable names "0A" and "a" have one number. *)
