(* ===== verification/Ring.v ===== *)
(** * Circular byte buffers: the theory the mailboxes, the FIFOs and the shared
    circular buffers have in common

    [memcpy], the index wrap [MOD_SIZE], the byte sequence a window of a
    circular buffer holds ([cwin]), and the interface [ByteRing] that states
    what a buffer with put, get, preview and overwrite operations promises to
    the services built on it. *)

From S2P Require Import Prelude.

(** ** Memory *)

(** [memcpy(dst + off, src, n)], the destination being the bytes of [dst]. *)
Definition memcpy (dst : list byte) (off : Z) (src : list byte) (n : Z) : list byte :=
  ztake off dst ++ ztake n src ++ zdrop (off + n) dst.

(** [memcpy(dst, src + off, n)] for a destination of its own: the bytes read. *)
Definition memread (src : list byte) (off n : Z) : list byte := ztake n (zdrop off src).

(** [MOD_SIZE(indx)], with [mbx->size] as an argument. *)
Definition MOD_SIZE (size indx : Z) : Z := if indx <? size then indx else indx - size.

(** The [n] bytes of a circular buffer from index [f] on. *)
Definition cwin (buf : list byte) (f n : Z) : list byte :=
  (fun i => zget buf (MOD_SIZE (zlen buf) (f + i))) <$> seqZ 0 n.

Section memory.
Implicit Types (buf src : list byte) (off n f a i : Z).

Lemma zlen_memcpy buf off src n :
  0 <= off -> 0 <= n <= zlen src -> off + n <= zlen buf ->
  zlen (memcpy buf off src n) = zlen buf.
Proof.
  intros. unfold memcpy. autorewrite with zlen. lia.
Qed.

Lemma zget_memcpy buf off src n i :
  0 <= off -> 0 <= n <= zlen src -> off + n <= zlen buf -> 0 <= i ->
  zget (memcpy buf off src n) i =
    if (off <=? i) && (i <? off + n) then zget src (i - off) else zget buf i.
Proof.
  intros. unfold memcpy. rewrite zget_app by lia.
  rewrite zlen_ztake, Z.min_l, Z.max_r by lia.
  destruct (i <? off) eqn:E1; zbool.
  - assert ((off <=? i) = false) as -> by lia. simpl. apply zget_ztake. lia.
  - assert ((off <=? i) = true) as -> by lia. simpl.
    rewrite zget_app, zlen_ztake, Z.min_l, Z.max_r by lia.
    destruct (i - off <? n) eqn:E2; zbool.
    + assert ((i <? off + n) = true) as -> by lia. apply zget_ztake. lia.
    + assert ((i <? off + n) = false) as -> by lia.
      rewrite zget_zdrop by lia. f_equal. lia.
Qed.

Lemma zlen_memread src off n :
  0 <= off -> 0 <= n -> off + n <= zlen src -> zlen (memread src off n) = n.
Proof. intros. unfold memread. autorewrite with zlen. lia. Qed.

Lemma zget_memread src off n i :
  0 <= off -> 0 <= i < n -> zget (memread src off n) i = zget src (off + i).
Proof. intros. unfold memread. rewrite zget_ztake, zget_zdrop by lia. done. Qed.

Lemma zlen_cwin buf f n : zlen (cwin buf f n) = Z.max 0 n.
Proof. unfold cwin, zlen. rewrite length_fmap, length_seqZ. lia. Qed.

Lemma zget_cwin buf f n i :
  0 <= i < n -> zget (cwin buf f n) i = zget buf (MOD_SIZE (zlen buf) (f + i)).
Proof.
  intros Hi. unfold cwin, zget at 1. apply list_lookup_total_correct.
  rewrite list_lookup_fmap, lookup_seqZ_lt by lia. simpl. do 3 f_equal. lia.
Qed.

(** Windows are equal when they read equal bytes. *)
Lemma cwin_ext buf buf' f f' n :
  (forall i, 0 <= i < n ->
     zget buf (MOD_SIZE (zlen buf) (f + i)) = zget buf' (MOD_SIZE (zlen buf') (f' + i))) ->
  cwin buf f n = cwin buf' f' n.
Proof.
  intros Hext. apply zlist_eq.
  - by rewrite !zlen_cwin.
  - rewrite zlen_cwin. intros i Hi. rewrite !zget_cwin by lia. apply Hext. lia.
Qed.

Lemma cwin_split buf f a n :
  0 <= f < zlen buf -> 0 <= a <= zlen buf -> 0 <= n -> a + n <= zlen buf ->
  cwin buf f (a + n) = cwin buf f a ++ cwin buf (MOD_SIZE (zlen buf) (f + a)) n.
Proof.
  intros. apply zlist_eq.
  - rewrite zlen_app, !zlen_cwin. lia.
  - rewrite zlen_cwin. intros i Hi.
    rewrite zget_app, zlen_cwin by lia. rewrite zget_cwin by lia.
    rewrite Z.max_r by lia. zcase.
    + rewrite zget_cwin by lia. done.
    + rewrite zget_cwin by lia. f_equal. unfold MOD_SIZE. zcases; lia.
Qed.

Lemma cwin_0 buf f : cwin buf f 0 = [].
Proof. done. Qed.

(** A window that does not wrap is a slice of memory. *)
Lemma cwin_memread buf f n :
  0 <= f -> 0 <= n -> f + n <= zlen buf -> cwin buf f n = memread buf f n.
Proof.
  intros. apply zlist_eq.
  - rewrite zlen_cwin, zlen_memread by lia. lia.
  - rewrite zlen_cwin. intros i Hi. rewrite zget_cwin, zget_memread by lia.
    f_equal. unfold MOD_SIZE. zcase; lia.
Qed.

(** Writing the free part of the buffer behind a window extends the window. *)
Lemma cwin_memcpy_append buf f a src n :
  0 <= f < zlen buf -> 0 <= a -> 0 <= n <= zlen src -> a + n <= zlen buf ->
  MOD_SIZE (zlen buf) (f + a) + n <= zlen buf ->
  cwin (memcpy buf (MOD_SIZE (zlen buf) (f + a)) src n) f (a + n) =
    cwin buf f a ++ ztake n src.
Proof.
  intros Hf Ha Hn Han Hl. set (l := MOD_SIZE (zlen buf) (f + a)) in *.
  assert (0 <= l) by (unfold l, MOD_SIZE; zcase; lia).
  apply zlist_eq.
  { rewrite zlen_app, !zlen_cwin, zlen_ztake. lia. }
  rewrite zlen_cwin. intros i Hi.
  rewrite zget_cwin, zlen_memcpy, zget_memcpy by (unfold MOD_SIZE; zcases; lia).
  rewrite zget_app, zlen_cwin, Z.max_r by lia.
  destruct (i <? a) eqn:Hia; zbool.
  - rewrite zget_cwin by lia.
    assert ((l <=? MOD_SIZE (zlen buf) (f + i)) &&
            (MOD_SIZE (zlen buf) (f + i) <? l + n) = false) as ->; [|done].
    unfold l, MOD_SIZE in *. revert Hl. zcases; lia.
  - rewrite zget_ztake by lia.
    assert ((l <=? MOD_SIZE (zlen buf) (f + i)) &&
            (MOD_SIZE (zlen buf) (f + i) <? l + n) = true) as ->.
    { unfold l, MOD_SIZE in *. revert Hl. zcases; lia. }
    f_equal. unfold l, MOD_SIZE in *. revert Hl. zcases; lia.
Qed.

(** Removing bytes from the front of a window. *)
Lemma cwin_zdrop buf f a n :
  0 <= f < zlen buf -> 0 <= n <= a -> a <= zlen buf ->
  cwin buf (MOD_SIZE (zlen buf) (f + n)) (a - n) = zdrop n (cwin buf f a).
Proof.
  intros. replace a with (n + (a - n)) at 2 by lia.
  rewrite cwin_split by lia.
  assert (n = zlen (cwin buf f n)) as Hn by (rewrite zlen_cwin; lia).
  rewrite Hn at 3. by rewrite zdrop_app_len.
Qed.

Lemma cwin_ztake buf f a n :
  0 <= f < zlen buf -> 0 <= n <= a -> a <= zlen buf ->
  cwin buf f n = ztake n (cwin buf f a).
Proof.
  intros. replace a with (n + (a - n)) at 1 by lia.
  rewrite cwin_split by lia.
  assert (n = zlen (cwin buf f n)) as Hn by (rewrite zlen_cwin; lia).
  rewrite Hn at 2. by rewrite ztake_app_len.
Qed.

End memory.

(** The newest [cap] bytes of a sequence. *)
Definition newest (cap : Z) (l : list byte) : list byte := zdrop (zlen l - cap) l.

Lemma newest_small cap l : zlen l <= cap -> newest cap l = l.
Proof. intros. unfold newest. apply zdrop_nonpos. lia. Qed.

Lemma newest_zdrop cap d l :
  0 <= d <= zlen l - cap -> 0 <= cap -> newest cap (zdrop d l) = newest cap l.
Proof.
  intros. unfold newest. rewrite zlen_zdrop, zdrop_zdrop by lia. f_equal. lia.
Qed.

(** ** The interface of a byte buffer

    The state [B], its well-formedness, its capacity and the bytes it holds; the
    four data operations take the message as the bytes at the caller's pointer
    and return the new state, the bytes moved and the count the C code returns
    (the bytes that were {e not} moved). *)
Class ByteRing (B : Type) := {
  ring_ok : B -> Prop;
  ring_cap : B -> Z;
  ring_bytes : B -> list byte;
  ring_free : B -> Z;
  ring_put : B -> list byte -> Z -> B * Z;
  ring_get : B -> Z -> B * list byte * Z;
  ring_evdrp : B -> Z -> list byte * Z;
  ring_ovrwr : B -> list byte -> Z -> B * Z
}.

Class ByteRingLaws (B : Type) `{ByteRing B} := {
  ring_free_spec b : ring_ok b -> ring_free b = ring_cap b - zlen (ring_bytes b);
  ring_bytes_cap b : ring_ok b -> 0 < ring_cap b /\ zlen (ring_bytes b) <= ring_cap b;
  ring_put_spec b msg n :
    ring_ok b -> 0 <= n <= zlen msg ->
    let k := Z.min n (ring_free b) in
    exists b', ring_put b msg n = (b', n - k) /\ ring_ok b' /\
      ring_cap b' = ring_cap b /\ ring_bytes b' = ring_bytes b ++ ztake k msg;
  ring_get_spec b n :
    ring_ok b -> 0 <= n ->
    let k := Z.min n (zlen (ring_bytes b)) in
    exists b', ring_get b n = (b', ztake k (ring_bytes b), n - k) /\ ring_ok b' /\
      ring_cap b' = ring_cap b /\ ring_bytes b' = zdrop k (ring_bytes b);
  ring_evdrp_spec b n :
    ring_ok b -> 0 <= n ->
    let k := Z.min n (zlen (ring_bytes b)) in
    ring_evdrp b n = (ztake k (ring_bytes b), n - k);
  ring_ovrwr_spec b msg n :
    ring_ok b -> 0 <= n <= zlen msg ->
    exists b', ring_ovrwr b msg n = (b', 0) /\ ring_ok b' /\
      ring_cap b' = ring_cap b /\
      ring_bytes b' = newest (ring_cap b) (ring_bytes b ++ ztake n msg)
}.

(** ** A client of the interface: any sequence of sends and receives

    What receivers get, followed by what is still buffered, is what was buffered
    followed by what senders got accepted: nothing is lost, duplicated or
    reordered, for every implementation of [ByteRingLaws]. *)
Inductive ring_op := OpPut (msg : list byte) | OpGet (n : Z).

Definition ring_op_ok (op : ring_op) : Prop :=
  match op with OpPut _ => True | OpGet n => 0 <= n end.

Fixpoint ring_run `{ByteRing B} (b : B) (ops : list ring_op)
  : B * list byte * list byte :=
  match ops with
  | [] => (b, [], [])
  | OpPut msg :: ops' =>
      let '(b1, left_) := ring_put b msg (zlen msg) in
      let '(b2, sent, got) := ring_run b1 ops' in
      (b2, ztake (zlen msg - left_) msg ++ sent, got)
  | OpGet n :: ops' =>
      let '(b1, bytes, _) := ring_get b n in
      let '(b2, sent, got) := ring_run b1 ops' in
      (b2, sent, bytes ++ got)
  end.

Section client.
Context `{ByteRingLaws B}.

Lemma ring_run_spec (b : B) ops :
  ring_ok b -> Forall ring_op_ok ops ->
  let '(b', sent, got) := ring_run b ops in
  ring_ok b' /\ ring_cap b' = ring_cap b /\ got ++ ring_bytes b' = ring_bytes b ++ sent.
Proof.
  intros Hok Hops. revert b Hok.
  induction Hops as [|[msg|n] ops Hop _ IH]; intros b Hok; cbn [ring_run].
  - rewrite app_nil_r. done.
  - pose proof (zlen_nonneg msg).
    destruct (ring_put_spec b msg (zlen msg) Hok ltac:(lia)) as (b1 & -> & Hok1 & Hc1 & Hb1).
    specialize (IH b1 Hok1). destruct (ring_run b1 ops) as [[b2 sent] got].
    destruct IH as (Hok2 & Hc2 & Hb2). split_and!; [done|congruence|].
    rewrite Hb2, Hb1, <- app_assoc. do 3 f_equal. lia.
  - destruct (ring_get_spec b n Hok Hop) as (b1 & -> & Hok1 & Hc1 & Hb1).
    specialize (IH b1 Hok1). destruct (ring_run b1 ops) as [[b2 sent] got].
    destruct IH as (Hok2 & Hc2 & Hb2). split_and!; [done|congruence|].
    rewrite <- app_assoc, Hb2, Hb1, app_assoc, ztake_zdrop. done.
Qed.

(** A receiver that asks for what a sender just put into an empty buffer gets
    exactly that. *)
Lemma ring_put_get (b : B) msg :
  ring_ok b -> ring_bytes b = [] -> zlen msg <= ring_cap b ->
  exists b1 b2, ring_put b msg (zlen msg) = (b1, 0) /\
    ring_get b1 (zlen msg) = (b2, msg, 0) /\ ring_ok b2 /\ ring_bytes b2 = [].
Proof.
  intros Hok Hb Hm. pose proof (zlen_nonneg msg).
  pose proof (ring_free_spec b Hok) as Hf. rewrite Hb in Hf. unfold zlen in Hf at 1. simpl in Hf.
  destruct (ring_put_spec b msg (zlen msg) Hok ltac:(lia)) as (b1 & Hp & Hok1 & Hc1 & Hb1).
  rewrite Z.min_l, Hb in * by lia. rewrite ztake_all in Hb1 by lia. simpl in Hb1.
  destruct (ring_get_spec b1 (zlen msg) Hok1 ltac:(lia)) as (b2 & Hg & Hok2 & Hc2 & Hb2).
  rewrite Hb1, Z.min_id in *. rewrite ztake_all in Hg by lia. rewrite zdrop_all in Hb2 by lia.
  exists b1, b2. rewrite Z.sub_diag in *. done.
Qed.

End client.
