(* ===== verification/MbxRing.v ===== *)
(** * Mailbox buffer (src/ipc/mbx/mbx.c, the data path)

    The circular buffer of an [MBX]: [mbxput], [mbxovrwrput], [mbxget] and
    [mbxevdrp], with the branch on [space] where the two branches differ.  The
    pointer [*msg] that the loops advance is the list of the bytes from it on;
    what a loop writes through [*msg] is a list it returns. *)

From S2P Require Import Prelude Ring.

(** The fields of [struct rt_mailbox] the data path uses. *)
Record mbxbuf := MkMbxbuf {
  size : Z;
  fbyte : Z;
  lbyte : Z;
  avbs : Z;
  frbs : Z;
  bufadr : list byte
}.

(** The buffer part of [rt_typed_mbx_init]: the storage comes from [rt_malloc]. *)
Definition mbxbuf_init (sz : Z) (mem : list byte) : mbxbuf :=
  {| size := sz; frbs := sz; fbyte := 0; lbyte := 0; avbs := 0; bufadr := mem |}.

(** The clamping of [tocpy] at the head of every loop: the bytes up to the end of
    the storage, at most [msg_size], at most [lim]. *)
Definition clamp (room msg_size lim : Z) : Z :=
  let tocpy := if msg_size <? room then msg_size else room in
  if lim <? tocpy then lim else tocpy.

(** One turn of the loop of [mbxput]; the new state and [tocpy]. *)
Definition mbxput_turn (mbx : mbxbuf) (msg : list byte) (msg_size : Z) : mbxbuf * Z :=
  let tocpy := clamp (size mbx - lbyte mbx) msg_size (frbs mbx) in
  ({| size := size mbx;
      fbyte := fbyte mbx;
      lbyte := MOD_SIZE (size mbx) (lbyte mbx + tocpy);
      avbs := avbs mbx + tocpy;
      frbs := frbs mbx - tocpy;
      bufadr := memcpy (bufadr mbx) (lbyte mbx) msg tocpy |}, tocpy).

Fixpoint mbxput_loop (n : nat) (mbx : mbxbuf) (msg : list byte) (msg_size : Z)
  : mbxbuf * list byte * Z :=
  match n with
  | O => (mbx, msg, msg_size)
  | S n' =>
      if (0 <? msg_size) && negb (frbs mbx =? 0) then
        let '(mbx', tocpy) := mbxput_turn mbx msg msg_size in
        mbxput_loop n' mbx' (zdrop tocpy msg) (msg_size - tocpy)
      else (mbx, msg, msg_size)
  end.

(** Every turn moves a byte or more, so [msg_size] turns are enough. *)
Definition mbxput (mbx : mbxbuf) (msg : list byte) (msg_size : Z) : mbxbuf * Z :=
  let '(mbx', _, rest) := mbxput_loop (S (Z.to_nat msg_size)) mbx msg msg_size in
  (mbx', rest).

(** One turn of the loop of [mbxget]; the bytes copied to [*msg]. *)
Definition mbxget_turn (mbx : mbxbuf) (msg_size : Z) : mbxbuf * list byte * Z :=
  let tocpy := clamp (size mbx - fbyte mbx) msg_size (avbs mbx) in
  ({| size := size mbx;
      fbyte := MOD_SIZE (size mbx) (fbyte mbx + tocpy);
      lbyte := lbyte mbx;
      avbs := avbs mbx - tocpy;
      frbs := frbs mbx + tocpy;
      bufadr := bufadr mbx |}, memread (bufadr mbx) (fbyte mbx) tocpy, tocpy).

Fixpoint mbxget_loop (n : nat) (mbx : mbxbuf) (msg_size : Z) (out : list byte)
  : mbxbuf * list byte * Z :=
  match n with
  | O => (mbx, out, msg_size)
  | S n' =>
      if (0 <? msg_size) && negb (avbs mbx =? 0) then
        let '(mbx', bytes, tocpy) := mbxget_turn mbx msg_size in
        mbxget_loop n' mbx' (msg_size - tocpy) (out ++ bytes)
      else (mbx, out, msg_size)
  end.

Definition mbxget (mbx : mbxbuf) (msg_size : Z) : mbxbuf * list byte * Z :=
  mbxget_loop (S (Z.to_nat msg_size)) mbx msg_size [].

(** [mbxevdrp]: the local copies of [fbyte] and [avbs] advance, the mailbox does
    not.  With [space = 0] the bytes are read at [mbx->fbyte], with [space <> 0]
    at the local [fbyte]. *)
Fixpoint mbxevdrp_loop (n : nat) (mbx : mbxbuf) (fb av msg_size : Z) (space : bool)
  (out : list byte) : list byte * Z :=
  match n with
  | O => (out, msg_size)
  | S n' =>
      if (0 <? msg_size) && negb (av =? 0) then
        let tocpy := clamp (size mbx - fb) msg_size av in
        let bytes := memread (bufadr mbx) (if space then fb else fbyte mbx) tocpy in
        mbxevdrp_loop n' mbx (MOD_SIZE (size mbx) (fb + tocpy)) (av - tocpy)
          (msg_size - tocpy) space (out ++ bytes)
      else (out, msg_size)
  end.

Definition mbxevdrp (mbx : mbxbuf) (msg_size : Z) (space : bool) : list byte * Z :=
  mbxevdrp_loop (S (Z.to_nat msg_size)) mbx (fbyte mbx) (avbs mbx) msg_size space [].

(** The inner loop of [mbxovrwrput]: drop the oldest bytes until [msg_size] fit. *)
Fixpoint mbxovrwr_drop (n : nat) (mbx : mbxbuf) (msg_size : Z) : mbxbuf :=
  match n with
  | O => mbx
  | S n' =>
      let k := msg_size - frbs mbx in
      if 0 <? k then
        let tocpy := clamp (size mbx - fbyte mbx) k (avbs mbx) in
        mbxovrwr_drop n'
          {| size := size mbx;
             fbyte := MOD_SIZE (size mbx) (fbyte mbx + tocpy);
             lbyte := lbyte mbx;
             avbs := avbs mbx - tocpy;
             frbs := frbs mbx + tocpy;
             bufadr := bufadr mbx |} msg_size
      else mbx
  end.

Fixpoint mbxovrwr_loop (n : nat) (mbx : mbxbuf) (msg : list byte) (msg_size : Z)
  : mbxbuf * Z :=
  match n with
  | O => (mbx, msg_size)
  | S n' =>
      if 0 <? msg_size then
        let '(mbx1, msg1, size1) :=
          if negb (frbs mbx =? 0) then
            let '(mbx', tocpy) := mbxput_turn mbx msg msg_size in
            (mbx', zdrop tocpy msg, msg_size - tocpy)
          else (mbx, msg, msg_size) in
        let mbx2 :=
          if negb (size1 =? 0) then mbxovrwr_drop (S (Z.to_nat size1)) mbx1 size1
          else mbx1 in
        mbxovrwr_loop n' mbx2 msg1 size1
      else (mbx, msg_size)
  end.

(** The message is cut to its last [size] bytes first; the code returns 0 when
    the loop ends.  A turn that finds no room drops first, so a message of [k]
    bytes takes at most [k + 1] turns. *)
Definition mbxovrwrput (mbx : mbxbuf) (msg : list byte) (msg_size : Z) : mbxbuf * Z :=
  let n := msg_size - size mbx in
  let '(msg1, size1) :=
    if 0 <? n then (zdrop n msg, msg_size - n) else (msg, msg_size) in
  let '(mbx', _) := mbxovrwr_loop (S (S (Z.to_nat size1))) mbx msg1 size1 in
  (mbx', 0).

(** ** Invariant and abstraction *)

Record mbx_ok (mbx : mbxbuf) : Prop := {
  ok_len : zlen (bufadr mbx) = size mbx;
  ok_size : 0 < size mbx;
  ok_fbyte : 0 <= fbyte mbx < size mbx;
  ok_avbs : 0 <= avbs mbx;
  ok_frbs : 0 <= frbs mbx;
  ok_sum : avbs mbx + frbs mbx = size mbx;
  ok_lbyte : lbyte mbx = MOD_SIZE (size mbx) (fbyte mbx + avbs mbx)
}.

(** The bytes the mailbox holds, the oldest first. *)
Definition mbx_bytes (mbx : mbxbuf) : list byte := cwin (bufadr mbx) (fbyte mbx) (avbs mbx).

Lemma mbxbuf_init_ok sz mem :
  0 < sz -> zlen mem = sz -> mbx_ok (mbxbuf_init sz mem) /\ mbx_bytes (mbxbuf_init sz mem) = [].
Proof.
  intros Hsz Hmem. split; [|done].
  constructor; simpl; unfold MOD_SIZE; try zcase; lia.
Qed.

Lemma zlen_mbx_bytes mbx : mbx_ok mbx -> zlen (mbx_bytes mbx) = avbs mbx.
Proof. intros []. unfold mbx_bytes. rewrite zlen_cwin. lia. Qed.

Lemma clamp_spec room msg_size lim : clamp room msg_size lim = Z.min (Z.min msg_size room) lim.
Proof. unfold clamp. zcases; lia. Qed.

#[local] Ltac ring_lia := unfold MOD_SIZE in *; repeat zcase; repeat split; lia.

Lemma mbxput_turn_spec mbx msg msg_size :
  mbx_ok mbx -> 0 < msg_size <= zlen msg -> frbs mbx <> 0 ->
  let '(mbx', k) := mbxput_turn mbx msg msg_size in
  0 < k <= msg_size /\ k <= frbs mbx /\ mbx_ok mbx' /\ size mbx' = size mbx /\
  frbs mbx' = frbs mbx - k /\ mbx_bytes mbx' = mbx_bytes mbx ++ ztake k msg.
Proof.
  intros [Hlen Hs Hf Ha Hfr Hsum Hl] Hmsg Hfree. unfold mbxput_turn.
  set (k := clamp _ _ _).
  assert (0 <= lbyte mbx < size mbx) by (rewrite Hl; ring_lia).
  assert (0 < k <= msg_size /\ k <= frbs mbx /\ lbyte mbx + k <= size mbx) as (Hk1 & Hk2 & Hk3)
    by (unfold k; rewrite clamp_spec; lia).
  do 2 (split; [done|]). split; [|split; [done|split; [done|]]].
  - constructor; simpl; try lia.
    + rewrite zlen_memcpy; lia.
    + rewrite Hl in Hk3 |- *. ring_lia.
  - unfold mbx_bytes. cbn [bufadr fbyte avbs].
    rewrite Hl, <- Hlen in Hk3. rewrite Hl, <- Hlen.
    apply cwin_memcpy_append; lia.
Qed.

Lemma mbxput_loop_spec n mbx msg msg_size :
  mbx_ok mbx -> 0 <= msg_size <= zlen msg -> (Z.to_nat msg_size < n)%nat ->
  exists mbx', let k := Z.min msg_size (frbs mbx) in
    mbxput_loop n mbx msg msg_size = (mbx', zdrop k msg, msg_size - k) /\
    mbx_ok mbx' /\ size mbx' = size mbx /\ mbx_bytes mbx' = mbx_bytes mbx ++ ztake k msg.
Proof.
  revert mbx msg msg_size. induction n as [|n IH]; intros mbx msg msg_size Hok Hm Hn; [lia|].
  cbn [mbxput_loop]. destruct (_ && _) eqn:E.
  - zbool. pose proof (mbxput_turn_spec mbx msg msg_size Hok ltac:(lia) ltac:(lia)) as Ht.
    destruct (mbxput_turn _ _ _) as [mbx1 k].
    destruct Ht as (Hk1 & Hk2 & Hok1 & Hs1 & Hf1 & Hb1).
    destruct (IH mbx1 (zdrop k msg) (msg_size - k) Hok1) as (mbx' & -> & Hok' & Hs' & Hb');
      [autorewrite with zlen; lia|lia|].
    exists mbx'. rewrite Hf1.
    replace (Z.min (msg_size - k) (frbs mbx - k)) with (Z.min msg_size (frbs mbx) - k) by lia.
    split_and!; [|done|congruence|].
    + rewrite zdrop_zdrop by lia. f_equal; [do 2 f_equal|]; lia.
    + rewrite Hb', Hb1, Hf1, <- app_assoc, <- ztake_add by lia. do 2 f_equal. lia.
  - exists mbx. assert (Z.min msg_size (frbs mbx) = 0) as ->.
    { destruct Hok. apply andb_false_iff in E as [E|E]; zbool; lia. }
    rewrite zdrop_nonpos, ztake_nonpos, app_nil_r, Z.sub_0_r by lia. done.
Qed.

Lemma mbxget_turn_spec mbx msg_size :
  mbx_ok mbx -> 0 < msg_size -> avbs mbx <> 0 ->
  let '(mbx', bytes, k) := mbxget_turn mbx msg_size in
  0 < k <= msg_size /\ k <= avbs mbx /\ mbx_ok mbx' /\ size mbx' = size mbx /\
  avbs mbx' = avbs mbx - k /\ bytes = ztake k (mbx_bytes mbx) /\
  mbx_bytes mbx' = zdrop k (mbx_bytes mbx).
Proof.
  intros [Hlen Hs Hf Ha Hfr Hsum Hl] Hmsg Hfree. unfold mbxget_turn.
  set (k := clamp _ _ _).
  assert (0 < k <= msg_size /\ k <= avbs mbx /\ fbyte mbx + k <= size mbx) as (Hk1 & Hk2 & Hk3)
    by (unfold k; rewrite clamp_spec; lia).
  do 2 (split; [done|]). split_and!; try done; unfold mbx_bytes; cbn [bufadr fbyte avbs].
  - constructor; simpl; try lia.
    + ring_lia.
    + rewrite Hl. ring_lia.
  - rewrite <- cwin_memread, <- cwin_ztake by lia. done.
  - rewrite <- Hlen. rewrite cwin_zdrop by lia. done.
Qed.

Lemma mbxget_loop_spec n mbx msg_size out :
  mbx_ok mbx -> 0 <= msg_size -> (Z.to_nat msg_size < n)%nat ->
  exists mbx', let k := Z.min msg_size (avbs mbx) in
    mbxget_loop n mbx msg_size out = (mbx', out ++ ztake k (mbx_bytes mbx), msg_size - k) /\
    mbx_ok mbx' /\ size mbx' = size mbx /\ mbx_bytes mbx' = zdrop k (mbx_bytes mbx).
Proof.
  revert mbx msg_size out. induction n as [|n IH]; intros mbx msg_size out Hok Hm Hn; [lia|].
  cbn [mbxget_loop]. destruct (_ && _) eqn:E.
  - zbool. pose proof (mbxget_turn_spec mbx msg_size Hok ltac:(lia) ltac:(lia)) as Ht.
    destruct (mbxget_turn _ _) as [[mbx1 bytes] k].
    destruct Ht as (Hk1 & Hk2 & Hok1 & Hs1 & Ha1 & Hout & Hb1).
    destruct (IH mbx1 (msg_size - k) (out ++ bytes) Hok1) as (mbx' & -> & Hok' & Hs' & Hb');
      [lia|lia|].
    exists mbx'. rewrite Ha1, Hb1, Hout in *.
    replace (Z.min (msg_size - k) (avbs mbx - k)) with (Z.min msg_size (avbs mbx) - k) in * by lia.
    split_and!; [|done|congruence|].
    + rewrite <- app_assoc, <- ztake_add by lia. f_equal; [do 3 f_equal|]; lia.
    + rewrite Hb', zdrop_zdrop by lia. f_equal. lia.
  - exists mbx. assert (Z.min msg_size (avbs mbx) = 0) as ->.
    { destruct Hok. apply andb_false_iff in E as [E|E]; zbool; lia. }
    rewrite zdrop_nonpos, ztake_nonpos, app_nil_r, Z.sub_0_r by lia. done.
Qed.

(** ** The preview *)

Lemma mbxevdrp_loop_nowrap n mbx fb av msg_size space out :
  mbx_ok mbx -> 0 <= fb < size mbx -> 0 <= av -> 0 <= msg_size -> (1 < n)%nat ->
  let k := Z.min msg_size av in
  k <= size mbx - fb ->
  mbxevdrp_loop n mbx fb av msg_size space out =
    (out ++ memread (bufadr mbx) (if space then fb else fbyte mbx) k, msg_size - k).
Proof.
  intros Hok Hfb Hav Hm Hn k Hk.
  destruct n as [|[|n]]; [lia..|]. cbn [mbxevdrp_loop].
  destruct ((0 <? msg_size) && negb (av =? 0)) eqn:E.
  - zbool. rewrite clamp_spec.
    replace (Z.min (Z.min msg_size (size mbx - fb)) av) with k by lia.
    assert ((0 <? msg_size - k) && negb (av - k =? 0) = false) as -> by lia. done.
  - assert (k = 0) as -> by lia.
    unfold memread. rewrite ztake_nonpos, app_nil_r by lia. f_equal. lia.
Qed.

(** The bytes a preview of [k] bytes delivers: it reads up to the end of the
    storage first and the rest in a second turn. *)
Definition evdrp_bytes (mbx : mbxbuf) (space : bool) (k : Z) : list byte :=
  let k1 := Z.min k (size mbx - fbyte mbx) in
  memread (bufadr mbx) (fbyte mbx) k1 ++
  memread (bufadr mbx) (if space then 0 else fbyte mbx) (k - k1).

Lemma mbxevdrp_bytes mbx msg_size space :
  mbx_ok mbx -> 0 <= msg_size ->
  let k := Z.min msg_size (avbs mbx) in
  mbxevdrp mbx msg_size space = (evdrp_bytes mbx space k, msg_size - k).
Proof.
  intros Hok Hm k. pose proof Hok as [Hlen Hs Hf Ha Hfr Hsum _].
  unfold mbxevdrp, evdrp_bytes. cbn zeta.
  destruct (decide (k <= size mbx - fbyte mbx)) as [Hk|Hk].
  - destruct (decide (msg_size = 0)) as [->|Hm0].
    + simpl. unfold memread. rewrite !ztake_nonpos by lia. f_equal. lia.
    + rewrite mbxevdrp_loop_nowrap by (done || lia). fold k.
      rewrite Z.min_l, Z.sub_diag by lia.
      unfold memread at 3. rewrite ztake_nonpos, app_nil_r by lia.
      destruct space; done.
  - cbn [mbxevdrp_loop]. assert ((0 <? msg_size) && negb (avbs mbx =? 0) = true) as -> by lia.
    rewrite clamp_spec.
    replace (Z.min (Z.min msg_size (size mbx - fbyte mbx)) (avbs mbx))
      with (size mbx - fbyte mbx) by lia.
    assert (MOD_SIZE (size mbx) (fbyte mbx + (size mbx - fbyte mbx)) = 0) as ->
      by (unfold MOD_SIZE; zcase; lia).
    rewrite mbxevdrp_loop_nowrap by (done || lia).
    replace (Z.min (msg_size - (size mbx - fbyte mbx)) (avbs mbx - (size mbx - fbyte mbx)))
      with (k - (size mbx - fbyte mbx)) by lia.
    replace (Z.min k (size mbx - fbyte mbx)) with (size mbx - fbyte mbx) by lia.
    rewrite app_nil_l. f_equal; [|lia]. by destruct space.
Qed.

Lemma evdrp_bytes_space mbx k :
  mbx_ok mbx -> 0 <= k <= avbs mbx -> evdrp_bytes mbx true k = ztake k (mbx_bytes mbx).
Proof.
  intros [Hlen Hs Hf Ha Hfr Hsum _] Hk. unfold evdrp_bytes, mbx_bytes. cbn zeta.
  rewrite <- cwin_ztake by lia.
  set (k1 := Z.min k (size mbx - fbyte mbx)).
  replace k with (k1 + (k - k1)) at 2 by lia.
  rewrite cwin_split by lia. f_equal; [by rewrite cwin_memread by lia|].
  destruct (decide (k - k1 = 0)) as [->|Hne].
  - unfold memread. rewrite ztake_nonpos by lia. done.
  - assert (MOD_SIZE (zlen (bufadr mbx)) (fbyte mbx + k1) = 0) as ->
      by (unfold MOD_SIZE; zcase; lia).
    rewrite cwin_memread by lia. done.
Qed.

(** ** The overwriting send *)

Lemma mbxovrwr_drop_spec n mbx msg_size :
  mbx_ok mbx -> 0 <= msg_size <= size mbx -> (Z.to_nat (msg_size - frbs mbx) < n)%nat ->
  let d := Z.max 0 (msg_size - frbs mbx) in
  let mbx' := mbxovrwr_drop n mbx msg_size in
  mbx_ok mbx' /\ size mbx' = size mbx /\ frbs mbx' = frbs mbx + d /\
  mbx_bytes mbx' = zdrop d (mbx_bytes mbx).
Proof.
  revert mbx. induction n as [|n IH]; intros mbx Hok Hm Hn d; [lia|].
  cbn [mbxovrwr_drop]. destruct (0 <? msg_size - frbs mbx) eqn:E; zbool.
  - pose proof Hok as [_ _ _ Ha Hfr Hsum _].
    pose proof (mbxget_turn_spec mbx (msg_size - frbs mbx) Hok ltac:(lia) ltac:(lia)) as Ht.
    unfold mbxget_turn in Ht.
    set (mbx1 := {| size := _ |}) in *. set (k := clamp _ _ _) in *.
    destruct Ht as (Hk1 & Hk2 & Hok1 & Hs1 & Ha1 & _ & Hb1).
    assert (frbs mbx1 = frbs mbx + k) as Hf1 by done.
    destruct (IH mbx1 Hok1 ltac:(lia) ltac:(lia)) as (Hok2 & Hs2 & Hf2 & Hb2).
    split_and!; [done|congruence|lia|].
    rewrite Hb2, Hb1, zdrop_zdrop by lia. f_equal. lia.
  - assert (d = 0) as -> by lia.
    rewrite zdrop_nonpos, Z.add_0_r by lia. split_and!; done.
Qed.

Lemma mbxovrwr_loop_spec n mbx msg msg_size :
  mbx_ok mbx -> 0 <= msg_size <= zlen msg -> msg_size <= size mbx ->
  (Z.to_nat msg_size + (if decide (frbs mbx = 0 /\ 0 < msg_size)%Z then 1 else 0) < n)%nat ->
  let '(mbx', _) := mbxovrwr_loop n mbx msg msg_size in
  mbx_ok mbx' /\ size mbx' = size mbx /\
  mbx_bytes mbx' = newest (size mbx) (mbx_bytes mbx ++ ztake msg_size msg).
Proof.
  revert mbx msg msg_size. induction n as [|n IH]; intros mbx msg msg_size Hok Hm Hs Hn; [lia|].
  cbn [mbxovrwr_loop]. pose proof Hok as [_ _ _ Ha Hfr Hsum _].
  destruct (0 <? msg_size) eqn:E; zbool.
  2:{ pose proof (zlen_mbx_bytes mbx Hok). split_and!; [done..|].
      by rewrite ztake_nonpos, app_nil_r, newest_small by lia. }
  set (turn := if negb (frbs mbx =? 0) then _ else _).
  assert (exists mbx1 msg1 size1, turn = (mbx1, msg1, size1) /\ mbx_ok mbx1 /\
    size mbx1 = size mbx /\ 0 <= size1 <= msg_size /\ size1 <= zlen msg1 /\
    (frbs mbx = 0 \/ size1 < msg_size) /\
    mbx_bytes mbx1 ++ ztake size1 msg1 = mbx_bytes mbx ++ ztake msg_size msg)
    as (mbx1 & msg1 & size1 & -> & Hok1 & Hs1 & Hsz & Hmsg & Hdec & Hall).
  { unfold turn. destruct (frbs mbx =? 0) eqn:Ef; zbool; cbn [negb].
    - exists mbx, msg, msg_size. split_and!; auto; lia.
    - pose proof (mbxput_turn_spec mbx msg msg_size Hok ltac:(lia) ltac:(lia)) as Ht.
      destruct (mbxput_turn _ _ _) as [mbx1 k].
      destruct Ht as (Hk1 & Hk2 & Hok1 & Hs1 & _ & Hb1).
      exists mbx1, (zdrop k msg), (msg_size - k).
      split_and!; try done; try lia.
      + rewrite zlen_zdrop. lia.
      + rewrite Hb1, <- app_assoc, <- ztake_add by lia. do 2 f_equal. lia. }
  cbn beta iota zeta.
  set (mbx2 := if negb (size1 =? 0) then _ else _).
  assert (mbx_ok mbx2 /\ size mbx2 = size mbx1 /\ (0 < size1 -> frbs mbx2 <> 0) /\
    newest (size mbx) (mbx_bytes mbx2 ++ ztake size1 msg1) =
    newest (size mbx) (mbx_bytes mbx1 ++ ztake size1 msg1)) as (Hok2 & Hs2 & Hf2 & Hb2).
  { unfold mbx2. destruct (size1 =? 0) eqn:Ez; zbool; cbn [negb].
    - split_and!; try done. lia.
    - pose proof Hok1 as [_ _ _ Ha1 Hfr1 Hsum1 _].
      destruct (mbxovrwr_drop_spec (S (Z.to_nat size1)) mbx1 size1 Hok1 ltac:(lia) ltac:(lia))
        as (Hok2 & Hs2 & Hf2 & Hb2).
      split_and!; [done..|lia|].
      rewrite Hb2. destruct (decide (size1 <= frbs mbx1)).
      { rewrite Z.max_l, zdrop_nonpos by lia. done. }
      pose proof (zlen_mbx_bytes mbx1 Hok1).
      rewrite <- zdrop_app_le by lia. apply newest_zdrop; [|lia].
      rewrite zlen_app, zlen_ztake. lia. }
  specialize (IH mbx2 msg1 size1 Hok2 ltac:(lia) ltac:(lia)).
  destruct (mbxovrwr_loop n mbx2 msg1 size1) as [mbx' r].
  destruct IH as (Hok' & Hs' & Hb').
  { revert Hn. repeat case_decide; lia. }
  split_and!; [done|congruence|]. rewrite Hb', Hs2, Hs1, Hb2. by f_equal.
Qed.

(** ** The mailbox buffer is a byte ring *)

#[export] Instance mbx_ring : ByteRing mbxbuf := {
  ring_ok := mbx_ok;
  ring_cap := size;
  ring_bytes := mbx_bytes;
  ring_free := frbs;
  ring_put := mbxput;
  ring_get := mbxget;
  ring_evdrp := fun b n => mbxevdrp b n true;
  ring_ovrwr := mbxovrwrput
}.

Lemma mbxovrwrput_spec mbx msg msg_size :
  mbx_ok mbx -> 0 <= msg_size <= zlen msg ->
  exists mbx', mbxovrwrput mbx msg msg_size = (mbx', 0) /\ mbx_ok mbx' /\
    size mbx' = size mbx /\
    mbx_bytes mbx' = newest (size mbx) (mbx_bytes mbx ++ ztake msg_size msg).
Proof.
  intros Hok Hm. pose proof Hok as [_ Hs _ Ha Hfr Hsum _]. unfold mbxovrwrput.
  set (cut := if 0 <? _ then _ else _).
  assert (exists msg1 size1, cut = (msg1, size1) /\ 0 <= size1 <= zlen msg1 /\
    size1 <= size mbx /\
    newest (size mbx) (mbx_bytes mbx ++ ztake size1 msg1) =
    newest (size mbx) (mbx_bytes mbx ++ ztake msg_size msg))
    as (msg1 & size1 & -> & Hm1 & Hs1 & Hnew).
  { unfold cut. zcase; [|eexists _, _; split_and!; try done; lia].
    eexists _, _. split_and!; [done|lia|autorewrite with zlen; lia|lia|].
    set (n := msg_size - size mbx) in *. replace msg_size with (n + (msg_size - n)) at 2 by lia.
    rewrite ztake_add, (app_assoc _ (ztake n msg)) by lia. unfold newest.
    rewrite !zlen_app, !zlen_ztake, zlen_zdrop.
    rewrite !zdrop_app_ge by (rewrite ?zlen_app, ?zlen_ztake; lia).
    rewrite !zlen_app, !zlen_ztake. f_equal. lia. }
  pose proof (mbxovrwr_loop_spec (S (S (Z.to_nat size1))) mbx msg1 size1 Hok
    ltac:(lia) Hs1 ltac:(case_decide; lia)) as Hl.
  destruct (mbxovrwr_loop _ _ _ _) as [mbx' r]. destruct Hl as (Hok' & Hs' & Hb').
  exists mbx'. rewrite Hb', Hnew. done.
Qed.

Lemma mbxput_spec mbx msg n :
  mbx_ok mbx -> 0 <= n <= zlen msg ->
  let k := Z.min n (frbs mbx) in
  exists mbx', mbxput mbx msg n = (mbx', n - k) /\ mbx_ok mbx' /\
    size mbx' = size mbx /\ mbx_bytes mbx' = mbx_bytes mbx ++ ztake k msg.
Proof.
  intros Hok Hn. unfold mbxput.
  destruct (mbxput_loop_spec (S (Z.to_nat n)) mbx msg n Hok Hn ltac:(lia))
    as (b' & -> & Hok' & Hs & Hb). eauto.
Qed.

Lemma mbxget_spec mbx n :
  mbx_ok mbx -> 0 <= n ->
  let k := Z.min n (avbs mbx) in
  exists mbx', mbxget mbx n = (mbx', ztake k (mbx_bytes mbx), n - k) /\ mbx_ok mbx' /\
    size mbx' = size mbx /\ mbx_bytes mbx' = zdrop k (mbx_bytes mbx).
Proof.
  intros Hok Hn.
  destruct (mbxget_loop_spec (S (Z.to_nat n)) mbx n [] Hok Hn ltac:(lia))
    as (b' & Hg & Hok' & Hs & Hb). eauto.
Qed.

#[export] Instance mbx_ring_laws : ByteRingLaws mbxbuf.
Proof.
  split; cbn [ring_ok ring_cap ring_bytes ring_free ring_put ring_get ring_evdrp ring_ovrwr
    mbx_ring].
  - intros b Hok. rewrite zlen_mbx_bytes by done. destruct Hok. lia.
  - intros b Hok. rewrite zlen_mbx_bytes by done. destruct Hok. lia.
  - apply mbxput_spec.
  - intros b n Hok Hn. rewrite zlen_mbx_bytes by done. by apply mbxget_spec.
  - intros b n Hok Hn. rewrite zlen_mbx_bytes, mbxevdrp_bytes by done. f_equal.
    apply evdrp_bytes_space; [done|]. destruct Hok. lia.
  - intros b msg n Hok Hn. by apply mbxovrwrput_spec.
Qed.

(** * Properties *)

(** C21 Any sequence of [mbxput] and [mbxget] calls on a well-formed mailbox keeps
    it well formed and of its size, and delivers the bytes first in, first out:
    what the receivers got followed by what the mailbox still holds is what it
    held followed by what the senders got accepted. *)
Theorem mbx_fifo_order mbx ops :
  mbx_ok mbx -> Forall ring_op_ok ops ->
  let '(mbx', sent, got) := ring_run mbx ops in
  mbx_ok mbx' /\ size mbx' = size mbx /\ got ++ mbx_bytes mbx' = mbx_bytes mbx ++ sent.
Proof. exact (ring_run_spec (H := mbx_ring) mbx ops). Qed.

Definition bytes_of (l : list Z) : list byte :=
  (fun z => default Byte.x00 (Byte.of_N (Z.to_N z))) <$> l.

Definition mbx_example : mbxbuf :=
  mbxbuf_init 4 (bytes_of [0; 0; 0; 0]).

Lemma mbx_example_ok : mbx_ok mbx_example.
Proof. by apply mbxbuf_init_ok. Qed.

Lemma mbx_fifo_order_witness :
  ring_run mbx_example
    [OpPut (bytes_of [1; 2; 3]); OpGet 2; OpPut (bytes_of [4; 5; 6; 7]); OpGet 3] =
    ({| size := 4; fbyte := 1; lbyte := 2; avbs := 1; frbs := 3;
        bufadr := bytes_of [5; 6; 3; 4] |},
     bytes_of [1; 2; 3; 4; 5; 6], bytes_of [1; 2; 3; 4; 5]) /\
  mbx_ok {| size := 4; fbyte := 1; lbyte := 2; avbs := 1; frbs := 3;
            bufadr := bytes_of [5; 6; 3; 4] |}.
Proof.
  set (ops := [OpPut (bytes_of [1; 2; 3]); OpGet 2; OpPut (bytes_of [4; 5; 6; 7]); OpGet 3]).
  set (mbx' := {| size := 4 |}).
  assert (ring_run mbx_example ops =
    (mbx', bytes_of [1; 2; 3; 4; 5; 6], bytes_of [1; 2; 3; 4; 5])) as E by (vm_compute; reflexivity).
  assert (Forall ring_op_ok ops) as Hops by (repeat constructor; simpl; lia).
  pose proof (mbx_fifo_order mbx_example ops mbx_example_ok Hops) as Hf.
  rewrite E in Hf. exact (conj E (proj1 Hf)).
Defined.

(** [mbxput] accepts exactly the bytes that fit: it returns [msg_size] less the
    free space (0 when all fit), appends that prefix of the message and keeps the
    mailbox well formed; [mbxget] symmetrically removes and delivers the oldest
    [min msg_size avbs] bytes. *)
Theorem mbxput_mbxget_spec mbx msg n m :
  mbx_ok mbx -> 0 <= n <= zlen msg -> 0 <= m ->
  (exists mbx', mbxput mbx msg n = (mbx', Z.max 0 (n - frbs mbx)) /\ mbx_ok mbx' /\
     mbx_bytes mbx' = mbx_bytes mbx ++ ztake (Z.min n (frbs mbx)) msg) /\
  (exists mbx', mbxget mbx m =
       (mbx', ztake (Z.min m (avbs mbx)) (mbx_bytes mbx), Z.max 0 (m - avbs mbx)) /\
     mbx_ok mbx' /\ mbx_bytes mbx' = zdrop (Z.min m (avbs mbx)) (mbx_bytes mbx)).
Proof.
  intros Hok Hn Hm. split.
  - destruct (mbxput_spec mbx msg n Hok Hn) as (mbx' & -> & Hok' & _ & Hb).
    exists mbx'. split_and!; [f_equal; lia|done..].
  - destruct (mbxget_spec mbx m Hok Hm) as (mbx' & -> & Hok' & _ & Hb).
    exists mbx'. split_and!; [f_equal; lia|done..].
Qed.


(** [mbxovrwrput] returns 0 and leaves the newest [size] bytes of the old
    contents followed by the message; it loses the oldest bytes only. *)
Theorem mbxovrwrput_newest mbx msg n :
  mbx_ok mbx -> 0 <= n <= zlen msg ->
  exists mbx', mbxovrwrput mbx msg n = (mbx', 0) /\ mbx_ok mbx' /\
    mbx_bytes mbx' = newest (size mbx) (mbx_bytes mbx ++ ztake n msg).
Proof.
  intros Hok Hn. destruct (mbxovrwrput_spec mbx msg n Hok Hn) as (mbx' & Hp & Hok' & _ & Hb).
  eauto.
Qed.


(** A preview from kernel space ([space] set) delivers the oldest bytes in order
    without removing them.  From user space it does so only while the message does
    not wrap: past the end of the storage the code reads from [mbx->fbyte] again
    instead of from index 0. *)
Theorem mbxevdrp_spec mbx n :
  mbx_ok mbx -> 0 <= n ->
  let k := Z.min n (avbs mbx) in
  let k1 := Z.min k (size mbx - fbyte mbx) in
  mbxevdrp mbx n true = (ztake k (mbx_bytes mbx), Z.max 0 (n - avbs mbx)) /\
  mbxevdrp mbx n false =
    (ztake k1 (mbx_bytes mbx) ++ memread (bufadr mbx) (fbyte mbx) (k - k1),
     Z.max 0 (n - avbs mbx)).
Proof.
  intros Hok Hn. cbn zeta. rewrite !mbxevdrp_bytes by done.
  pose proof Hok as [Hlen Hs Hf Ha Hfr Hsum _].
  split; (f_equal; [|lia]).
  - apply evdrp_bytes_space; [done|lia].
  - unfold evdrp_bytes, mbx_bytes. cbn zeta. f_equal.
    rewrite <- cwin_ztake, cwin_memread by lia. done.
Qed.

(** A mailbox of four bytes that holds 7, 8 across the end of its storage: the
    kernel preview reads 7, 8, the user preview reads 7, 7. *)
