(* ===== verification/Resume.v ===== *)
(** * Calls that may give up the processor.

    A service of the scheduler runs under the global lock, and may call
    [rt_schedule()] in the middle: other tasks run, and the call goes on when
    the scheduler picks its task again.  [res S A] is the behaviour of such a
    call on a state of type [S]: it is finished with a result, or it has
    stopped and holds the rest of its body, or it has dereferenced a null
    pointer.  [wp] is the total correctness of a call against a guarantee (what
    the call does to the state whenever it stops) and a rely (what the others
    may do before it goes on). *)

From S2P Require Import Prelude.

(** Why a call stops: [rt_schedule()] switches to another task; the code opens
    the global lock for a moment; the timer handler runs at this point; or
    the task goes to sleep in Linux' [schedule()]. *)
Inductive point := Resched | Unlocked | TimerNow | LinuxSleep.

Inductive res (S A : Type) : Type :=
| Done (a : A) (s : S)
| Stop (p : point) (s : S) (k : S -> res S A)
| Fault (s : S)
| NoFuel (s : S).
Arguments Done {S A} a s.
Arguments Stop {S A} p s k.
Arguments Fault {S A} s.
Arguments NoFuel {S A} s.

Section resume.
Context {S : Type}.
Implicit Types (s : S).

(** ** Sequencing *)

Fixpoint rbind {A B} (r : res S A) (f : A -> S -> res S B) : res S B :=
  match r with
  | Done a s => f a s
  | Stop p s k => Stop p s (fun s' => rbind (k s') f)
  | Fault s => Fault s
  | NoFuel s => NoFuel s
  end.

Definition stop (p : point) (s : S) : res S unit := Stop p s (fun s' => Done tt s').

(** ** Equality of behaviours

    Two calls behave the same when they stop at the same points in the same
    states and go on the same way from every state. *)
Fixpoint req {A} (r r' : res S A) : Prop :=
  match r, r' with
  | Done a s, Done a' s' => a = a' /\ s = s'
  | Stop p s k, Stop p' s' k' => p = p' /\ s = s' /\ forall t, req (k t) (k' t)
  | Fault s, Fault s' => s = s'
  | NoFuel s, NoFuel s' => s = s'
  | _, _ => False
  end.

Lemma req_refl {A} (r : res S A) : req r r.
Proof. induction r; simpl; auto. Qed.

Lemma req_sym {A} (r r' : res S A) : req r r' -> req r' r.
Proof.
  revert r'. induction r as [|p s k IH| |]; intros [] Hr; simpl in *; try done.
  - by destruct Hr as [-> ->].
  - destruct Hr as (-> & -> & Hr). auto.
Qed.

Lemma req_trans {A} (r r' r'' : res S A) : req r r' -> req r' r'' -> req r r''.
Proof.
  revert r' r''. induction r as [|? ? k IH| |]; intros [] [] H1 H2; simpl in *; try done.
  - by destruct H1 as [-> ->].
  - destruct H1 as (-> & -> & H1), H2 as (-> & -> & H2). eauto.
  - by subst.
  - by subst.
Qed.

#[global] Instance req_equivalence A : Equivalence (@req A).
Proof. split; [exact req_refl | exact req_sym | exact req_trans]. Qed.

#[global] Instance rbind_proper A B :
  Proper (req ==> pointwise_relation A (pointwise_relation S req) ==> req) (@rbind A B).
Proof.
  intros r r' Hr f f' Hf. revert r' Hr.
  induction r as [|? ? k IH| |]; intros [] Hr; simpl in *; try done; try by subst.
  - destruct Hr as [-> ->]. apply Hf.
  - destruct Hr as (-> & -> & Hr). auto.
Qed.

Lemma rbind_assoc {A B C} (r : res S A) (f : A -> S -> res S B) (g : B -> S -> res S C) :
  req (rbind (rbind r f) g) (rbind r (fun a s => rbind (f a s) g)).
Proof. induction r; simpl; auto. apply req_refl. Qed.

Lemma rbind_done {A} (r : res S A) : req (rbind r Done) r.
Proof. induction r; simpl; auto. Qed.

(** ** Total correctness between a guarantee and a rely *)

Section wp.
Context (G : S -> Prop) (R : S -> S -> Prop).

(** The call faults nowhere and runs out of no fuel; each state it stops in
    satisfies [G]; and whatever the others do within [R], it ends in [Q]. *)
Fixpoint wp {A} (r : res S A) (Q : A -> S -> Prop) : Prop :=
  match r with
  | Done a s => Q a s
  | Stop _ s k => G s /\ forall s', R s s' -> wp (k s') Q
  | Fault _ => False
  | NoFuel _ => False
  end.

Lemma wp_mono {A} (r : res S A) (Q Q' : A -> S -> Prop) :
  wp r Q -> (forall a s, Q a s -> Q' a s) -> wp r Q'.
Proof.
  intros H HQ. induction r as [|? ? k IH| |]; simpl in *; auto.
  destruct H as [? H]. split; auto.
Qed.

Lemma wp_rbind {A B} (r : res S A) (f : A -> S -> res S B) Q :
  wp (rbind r f) Q <-> wp r (fun a s => wp (f a s) Q).
Proof.
  induction r as [|? ? k IH| |]; simpl; try done.
  split; intros [? H]; (split; [done|]); intros s' Hs'; apply IH, H, Hs'.
Qed.

Lemma wp_stop p s (Q : unit -> S -> Prop) :
  wp (stop p s) Q <-> G s /\ forall s', R s s' -> Q tt s'.
Proof. done. Qed.

#[global] Instance wp_proper A :
  Proper (req ==> pointwise_relation A (pointwise_relation S iff) ==> iff) (@wp A).
Proof.
  intros r r' Hr Q Q' HQ. revert r' Hr.
  induction r as [|? ? k IH| |]; intros [] Hr; simpl in *; try done; try by subst.
  - destruct Hr as [-> ->]. apply HQ.
  - destruct Hr as (-> & -> & Hr).
    split; intros [? H]; (split; [done|]); intros s' Hs'; eapply IH; eauto.
Qed.
End wp.

(** A weaker guarantee and a stronger rely keep a correctness. *)
Lemma wp_weaken (G G' : S -> Prop) (R R' : S -> S -> Prop) {A} (r : res S A) Q :
  (forall s, G s -> G' s) -> (forall s s', R' s s' -> R s s') ->
  wp G R r Q -> wp G' R' r Q.
Proof.
  intros HG HR. induction r as [|? ? k IH| |]; simpl; auto.
  intros [? H]. split; auto.
Qed.

(** ** Running a call in a known environment

    [run n env r] lets the environment act [env] at every stop. *)
Fixpoint run (n : nat) {A} (env : nat -> S -> S) (r : res S A) : option (A * S) :=
  match r with
  | Done a s => Some (a, s)
  | Stop _ s k => match n with
                  | O => None
                  | Datatypes.S n' => run n' env (k (env n' s))
                  end
  | _ => None
  end.

(** A correct call that returns in some allowed environment returns as [Q] says. *)
Lemma wp_run G R {A} (r : res S A) Q n env :
  wp G R r Q -> (forall i s, R s (env i s)) ->
  match run n env r with Some (a, s) => Q a s | None => True end.
Proof.
  intros H Henv. revert r H. induction n as [|n IH]; intros [] H; simpl in *; auto.
  apply IH, H, Henv.
Qed.

End resume.

(** ** A call on a part of the state

    [get] and [put] are the part and its update; while the call has stopped anything may
    change. *)
Section within.
Context {S T : Type} (get : T -> S) (put : S -> T -> T).
Fixpoint within {A} (r : res S A) (t : T) : res T A :=
  match r with
  | Done a s => Done a (put s t)
  | Stop p s k => Stop p (put s t) (fun t' => within (k (get t')) t')
  | Fault s => Fault (put s t)
  | NoFuel s => NoFuel (put s t)
  end.

(** What is correct of the call is correct of the call on the part. *)
Lemma wp_within G R {A} (r : res S A) Q t :
  wp G R r Q -> (forall s t, get (put s t) = s) ->
  wp (fun t => G (get t)) (fun t t' => R (get t) (get t')) (within r t) (fun a t => Q a (get t)).
Proof.
  intros H Hgp. revert t. induction r as [a s|p s k IH|s|s]; intros t; cbn in *; try done.
  - by rewrite Hgp.
  - destruct H as [HG H]. rewrite Hgp. split; [done|]. intros t' Ht'. apply IH, H, Ht'.
Qed.

(** A call on the part is made of calls on the part. *)
Lemma within_put {A} (r : res S A) s t :
  (forall s s' t, put s (put s' t) = put s t) -> within r (put s t) = within r t.
Proof. intros Hpp. destruct r; cbn; by rewrite Hpp. Qed.

Lemma wp_within_bind G R {A B} (r : res S A) (f : A -> S -> res S B) Q t :
  (forall s t, get (put s t) = s) -> (forall s s' t, put s (put s' t) = put s t) ->
  wp G R (within r t) (fun a t => wp G R (within (f a (get t)) t) Q) ->
  wp G R (within (rbind r f) t) Q.
Proof.
  intros Hgp Hpp. revert t. induction r as [a s|p s k IH|s|s]; intros t; cbn; try done.
  - by rewrite Hgp, within_put.
  - intros [HG H]. split; [done|]. intros t' Ht'. by apply IH, H.
Qed.
End within.

Notation "'let*' ( a , s ) := e 'in' k" := (rbind e (fun a s => k))
  (at level 10, a name, s name, e at level 200, k at level 200) : rtai_scope.
Notation "'sched*' s := e 'in' k" := (rbind e (fun _ s => k))
  (at level 10, s name, e at level 200, k at level 200) : rtai_scope.
