(* ===== verification/Kernel.v ===== *)
(** * The state the scheduler and the services share.

    Task, semaphore and mailbox control blocks, the queues they are linked in,
    the per-processor scheduler data, and the operations of rtai_schedcore.h
    and rtai_prinher.h on them.  A circular list of control blocks is the list
    of its elements from [head.next] on; [Queue] proves that the pointer code
    does on the links what the list operations do here. *)

From S2P Require Import Prelude Resume MbxRing.

(** ** Addresses *)

(** Tasks: the Linux task of each processor, and the others. *)
Inductive tid := Linux (cpu : nat) | Tsk (n : nat).
(** Semaphores: free-standing ones and those inside a mailbox or a
    readers-writer lock. *)
Inductive semid := SemNULL | Sem (n : nat) | SndSem (mbx : nat) | RcvSem (mbx : nat)
  | WrMtx (rwl : nat) | WrSem (rwl : nat) | RdSem (rwl : nat).
(** Heads of queues of tasks. *)
Inductive qid := QSem (sem : semid) | QMsg (task : tid) | QRet (task : tid)
  | QSth (cpu : nat) | QPoll (task : tid).
(** The values of a [void *] field. *)
Inductive ptr := PInt (z : Z) | PTask (task : tid) | PQueue (q : qid) | PMbx (mbx : nat).
Abbreviation NULL := (PInt 0).

#[export] Instance tid_eq_dec : EqDecision tid.
Proof. solve_decision. Defined.
#[export] Instance semid_eq_dec : EqDecision semid.
Proof. solve_decision. Defined.
#[export] Instance qid_eq_dec : EqDecision qid.
Proof. solve_decision. Defined.
#[export] Instance ptr_eq_dec : EqDecision ptr.
Proof. solve_decision. Defined.
#[export] Instance tid_inhabited : Inhabited tid := populate (Linux 0).

(** [a == b] on addresses. *)
Abbreviation same := (fun a b => bool_decide (a = b)).

(** ** Constants of rtai_sched.h *)

Definition RT_SCHED_READY := 1.
Definition RT_SCHED_SUSPENDED := 2.
Definition RT_SCHED_DELAYED := 4.
Definition RT_SCHED_SEMAPHORE := 8.
Definition RT_SCHED_SEND := 16.
Definition RT_SCHED_RECEIVE := 32.
Definition RT_SCHED_RPC := 64.
Definition RT_SCHED_RETURN := 128.
Definition RT_SCHED_MBXSUSP := 256.
Definition RT_SCHED_SFTRDY := 512.
Definition RT_SCHED_POLL := 1024.

Definition RT_RWLINV := 11.
Definition RT_CHGPORTERR := 10.
Definition RT_CHGPORTOK := 9.
Definition RT_NETIMOUT := 8.
Definition RT_DEADLOK := 7.
Definition RT_PERM := 6.
Definition RT_OBJINV := 5.
Definition RT_OBJREM := 4.
Definition RT_TIMOUT := 3.
Definition RT_UNBLKD := 2.
Definition RT_TMROVRN := 1.
Abbreviation RTP_OBJREM := (PInt RT_OBJREM).
Abbreviation RTP_UNBLKD := (PInt RT_UNBLKD).
Abbreviation RTP_TIMOUT := (PInt RT_TIMOUT).
Definition RTE_BASE := 0x3FFFFF00.
Definition RTE_RWLINV := RTE_BASE + RT_RWLINV.
Definition RTE_DEADLOK := RTE_BASE + RT_DEADLOK.
Definition RTE_PERM := RTE_BASE + RT_PERM.
Definition RTE_OBJINV := RTE_BASE + RT_OBJINV.
Definition RTE_OBJREM := RTE_BASE + RT_OBJREM.
Definition RTE_TIMOUT := RTE_BASE + RT_TIMOUT.
Definition RTE_UNBLKD := RTE_BASE + RT_UNBLKD.
Definition RTE_TMROVRN := RTE_BASE + RT_TMROVRN.
Definition RTE_LOWERR := RTE_TMROVRN.

Definition RT_SCHED_LINUX_PRIORITY := 0x7fffFfff.
Definition RT_RESEM_SUSPDEL := - 0x7fffFfff.
Definition BASE_SOFT_PRIORITY := 1000000000.
Definition RTAI_TIME_LIMIT := 0x7000000000000000.
Definition RT_TASK_MAGIC := 0x9ad25f6f.
Definition RT_SEM_MAGIC := 0x3f83ebb.
Definition EINVAL := 22.
Definition ENOMEM := 12.
Definition ETIME := 62.

(** [p > RTP_HIGERR], for an address: not one of the small error codes. *)
Definition above_higerr (p : ptr) : bool :=
  match p with PInt z => RT_RWLINV <? z | _ => true end.
Definition is_null (p : ptr) : bool := bool_decide (p = NULL).
(** A pointer used as a task pointer. *)
Definition ptr_task (p : ptr) : option tid :=
  match p with PTask t => Some t | _ => None end.
Definition task_ptr (t : option tid) : ptr :=
  match t with Some t => PTask t | None => NULL end.

(** ** Control blocks *)

(** A message control block; [sbuf] and [rbuf] are addresses of buffers. *)
Record mcb_t := Mcb { sbuf : Z; sbytes : Z; rbuf : Z; rbytes : Z }.
(** The word a message is: a value, or the address of a control block, on the
    stack of a task or in its descriptor. *)
Inductive msgword := Word (z : Z) | McbStack (task : tid) | McbField (task : tid).
(** What a proxy keeps at the bottom of its stack. *)
Record proxy_t := MkProxy { receiver : tid; pmsg : Z; nmsgs : Z; nbytes : Z }.

Record RT_TASK := MkTask {
  magic : Z; state : Z; running : Z; runnable_on_cpus : nat;
  priority : Z; base_priority : Z; policy : Z; prio_passed_to : ptr;
  period : Z; resume_time : Z; periodic_resume_time : Z; yield_time : Z;
  rr_quantum : Z; rr_remaining : Z; suspdepth : Z; owndres : Z;
  blocked_on : ptr; msgq_task : ptr; retq_task : ptr; msg : msgword; signal : Z; lnxtsk : option Z; lnxstate : Z;
  retval : Z; unblocked : Z; is_hard : Z; force_soft : Z;
  uses_fpu : Z; resync_frame : Z; ExitHook : list (Z * Z * Z);
  mcb : mcb_t; stackmcb : mcb_t; proxy : option proxy_t; schedlat : Z; tasktid : Z;
  max_msg_size : Z * Z
}.

Record SEM := MkSem {
  semmagic : Z; semtype : Z; restype : Z; count : Z; owndby : ptr; qtype : Z
}.

(** The part of an MBX around its buffer; its two semaphores are [SndSem] and
    [RcvSem]. *)
Record MBX := MkMbx {
  mbxmagic : Z; waiting_task : option tid; mbxowndby : option tid; mbxbuffer : mbxbuf
}.
(** A spinlock of rtai_spl.h: its owner, its nesting and the saved flags. *)
Record SPL := MkSpl { splowndby : option tid; splcount : Z; splflags : Z }.

Record klist_t := MkKlist { kin : Z; kout : Z; ktask : Z -> option Z }.
Record rt_times_t := MkTimes {
  tick_time : Z; intr_time : Z; linux_time : Z; linux_tick : Z
}.
Record scheduling_t := MkScheduling { locked : Z; rqsted : Z }.

(** What the calibration and the configuration fix. *)
Record tunables := MkTun {
  clock_freq : Z; sched_latency : Z; setup_time_TIMER_CPUNIT : Z;
  oneshot_span : Z; satdelay : Z; TIMER_FREQ : Z;
  KernelLatency : Z; UserLatency : Z; online_cpus : nat; NR_CPUS : nat
}.

Record kst := MkKst {
  cpuid : nat;                        (* rtai_cpuid() *)
  tsc : Z;                            (* rtai_rdtsc() *)
  tasks : tid -> RT_TASK;
  sems : semid -> SEM;
  queues : qid -> list tid;           (* next, next->next, ... *)
  ready : nat -> list tid;            (* the rnext chain of each Linux task *)
  timed : nat -> list tid;            (* the tnext chain of each Linux task *)
  tasklist : nat -> list tid;         (* the next chain of each Linux task *)
  smp_current : nat -> tid;
  smp_time_h : nat -> Z;
  smp_half_tick : nat -> Z;
  smp_times : nat -> rt_times_t;
  shot_fired : nat -> Z;
  timer_delay : nat -> option Z;      (* rt_set_timer_delay *)
  scheduling : nat -> scheduling_t;
  tasks_per_cpu : nat -> Z;
  wake_up_srq : nat -> klist_t;
  wake_up_hts : nat -> klist_t;
  ipis : list Z;                      (* send_sched_ipi, newest first *)
  mbxs : nat -> MBX;
  spls : nat -> SPL;
  sthcount : nat -> Z;                (* sthsems[cpu].count *)
  umem : Z -> list byte;              (* the buffers messages are copied between *)
  exit_calls : list (Z * Z * Z);      (* exit handlers called: fun, arg1, arg2 *)
  frstk : list tid;                   (* tasks whose stack is pended to be freed *)
  fpu_task : nat -> tid;              (* rt_smp_fpu_task *)
  tskext : Z -> option tid;           (* the RT_TASK of a Linux task *)
  rt_pid : Z;
  tun : tunables
}.

(** ** Field updates *)

Definition eta_task (t : RT_TASK) : RT_TASK :=
  MkTask (magic t) (state t) (running t) (runnable_on_cpus t)
    (priority t) (base_priority t) (policy t) (prio_passed_to t)
    (period t) (resume_time t) (periodic_resume_time t) (yield_time t)
    (rr_quantum t) (rr_remaining t) (suspdepth t) (owndres t)
    (blocked_on t) (msgq_task t) (retq_task t) (msg t) (signal t) (lnxtsk t) (lnxstate t)
    (retval t) (unblocked t) (is_hard t) (force_soft t)
    (uses_fpu t) (resync_frame t) (ExitHook t)
    (mcb t) (stackmcb t) (proxy t) (schedlat t) (tasktid t) (max_msg_size t).
Definition eta_sem (m : SEM) : SEM :=
  MkSem (semmagic m) (semtype m) (restype m) (count m) (owndby m) (qtype m).
Definition eta_mbx (m : MBX) : MBX :=
  MkMbx (mbxmagic m) (waiting_task m) (mbxowndby m) (mbxbuffer m).
Definition eta_times (m : rt_times_t) : rt_times_t :=
  MkTimes (tick_time m) (intr_time m) (linux_time m) (linux_tick m).
Definition eta_kst (s : kst) : kst :=
  MkKst (cpuid s) (tsc s) (tasks s) (sems s) (queues s) (ready s) (timed s)
    (tasklist s) (smp_current s) (smp_time_h s) (smp_half_tick s) (smp_times s)
    (shot_fired s) (timer_delay s) (scheduling s) (tasks_per_cpu s)
    (wake_up_srq s) (wake_up_hts s) (ipis s) (mbxs s) (spls s) (sthcount s)
    (umem s) (exit_calls s) (frstk s) (fpu_task s) (tskext s) (rt_pid s) (tun s).

(** [setter eta f] is the function that replaces the field [f]. *)
Ltac setter eta f :=
  lazymatch type of f with
  | ?R -> ?F =>
      let v := fresh "v" in let r := fresh "r" in
      exact (fun (v : F) (r : R) =>
        ltac:(let b := eval cbv beta delta [eta] in (eta r) in
              let b' := eval pattern (f r) in b in
              lazymatch b' with
              | ?g _ => let t := eval cbv beta in (g v) in exact t
              end))
  end.

Definition set_magic := ltac:(setter eta_task magic).
Definition set_state := ltac:(setter eta_task state).
Definition set_running := ltac:(setter eta_task running).
Definition set_runnable_on_cpus := ltac:(setter eta_task runnable_on_cpus).
Definition set_priority := ltac:(setter eta_task priority).
Definition set_base_priority := ltac:(setter eta_task base_priority).
Definition set_policy := ltac:(setter eta_task policy).
Definition set_prio_passed_to := ltac:(setter eta_task prio_passed_to).
Definition set_period := ltac:(setter eta_task period).
Definition set_resume_time := ltac:(setter eta_task resume_time).
Definition set_periodic_resume_time := ltac:(setter eta_task periodic_resume_time).
Definition set_yield_time := ltac:(setter eta_task yield_time).
Definition set_rr_quantum := ltac:(setter eta_task rr_quantum).
Definition set_rr_remaining := ltac:(setter eta_task rr_remaining).
Definition set_suspdepth := ltac:(setter eta_task suspdepth).
Definition set_owndres := ltac:(setter eta_task owndres).
Definition set_blocked_on := ltac:(setter eta_task blocked_on).
Definition set_msg := ltac:(setter eta_task msg).
Definition set_signal := ltac:(setter eta_task signal).
Definition set_lnxtsk := ltac:(setter eta_task lnxtsk).
Definition set_lnxstate := ltac:(setter eta_task lnxstate).
Definition set_retval := ltac:(setter eta_task retval).
Definition set_unblocked := ltac:(setter eta_task unblocked).
Definition set_is_hard := ltac:(setter eta_task is_hard).
Definition set_force_soft := ltac:(setter eta_task force_soft).
Definition set_uses_fpu := ltac:(setter eta_task uses_fpu).
Definition set_resync_frame := ltac:(setter eta_task resync_frame).
Definition set_ExitHook := ltac:(setter eta_task ExitHook).
Definition set_mcb := ltac:(setter eta_task mcb).
Definition set_stackmcb := ltac:(setter eta_task stackmcb).
Definition set_proxy := ltac:(setter eta_task proxy).
Definition set_msgq_task := ltac:(setter eta_task msgq_task).
Definition set_retq_task := ltac:(setter eta_task retq_task).
Definition set_schedlat := ltac:(setter eta_task schedlat).
Definition set_tasktid := ltac:(setter eta_task tasktid).
Definition set_max_msg_size := ltac:(setter eta_task max_msg_size).

Definition set_mbxmagic := ltac:(setter eta_mbx mbxmagic).
Definition set_waiting_task := ltac:(setter eta_mbx waiting_task).
Definition set_mbxowndby := ltac:(setter eta_mbx mbxowndby).
Definition set_mbxbuffer := ltac:(setter eta_mbx mbxbuffer).
Definition set_tick_time := ltac:(setter eta_times tick_time).
Definition set_intr_time := ltac:(setter eta_times intr_time).
Definition set_linux_time := ltac:(setter eta_times linux_time).

Definition set_semmagic := ltac:(setter eta_sem semmagic).
Definition set_semtype := ltac:(setter eta_sem semtype).
Definition set_restype := ltac:(setter eta_sem restype).
Definition set_count := ltac:(setter eta_sem count).
Definition set_owndby := ltac:(setter eta_sem owndby).
Definition set_qtype := ltac:(setter eta_sem qtype).

Definition set_tasks := ltac:(setter eta_kst tasks).
Definition set_sems := ltac:(setter eta_kst sems).
Definition set_queues := ltac:(setter eta_kst queues).
Definition set_ready := ltac:(setter eta_kst ready).
Definition set_timed := ltac:(setter eta_kst timed).
Definition set_tasklist := ltac:(setter eta_kst tasklist).
Definition set_smp_current := ltac:(setter eta_kst smp_current).
Definition set_smp_time_h := ltac:(setter eta_kst smp_time_h).
Definition set_smp_half_tick := ltac:(setter eta_kst smp_half_tick).
Definition set_smp_times := ltac:(setter eta_kst smp_times).
Definition set_shot_fired := ltac:(setter eta_kst shot_fired).
Definition set_timer_delay := ltac:(setter eta_kst timer_delay).
Definition set_scheduling := ltac:(setter eta_kst scheduling).
Definition set_tasks_per_cpu := ltac:(setter eta_kst tasks_per_cpu).
Definition set_wake_up_srq := ltac:(setter eta_kst wake_up_srq).
Definition set_wake_up_hts := ltac:(setter eta_kst wake_up_hts).
Definition set_mbxs := ltac:(setter eta_kst mbxs).
Definition set_spls := ltac:(setter eta_kst spls).
Definition set_sthcount := ltac:(setter eta_kst sthcount).
Definition set_umem := ltac:(setter eta_kst umem).
Definition set_exit_calls := ltac:(setter eta_kst exit_calls).
Definition set_frstk := ltac:(setter eta_kst frstk).
Definition set_fpu_task := ltac:(setter eta_kst fpu_task).
Definition set_tskext := ltac:(setter eta_kst tskext).
Definition set_ipis := ltac:(setter eta_kst ipis).
Definition set_rt_pid := ltac:(setter eta_kst rt_pid).
Definition set_tsc := ltac:(setter eta_kst tsc).
Definition set_cpuid := ltac:(setter eta_kst cpuid).

(** Assignments to a field of a task, of a semaphore, to a queue or a chain. *)
Definition tset {V} (f : V -> RT_TASK -> RT_TASK) (t : tid) (v : V) (s : kst) : kst :=
  set_tasks (<[t := f v (tasks s t)]> (tasks s)) s.
Definition sset {V} (f : V -> SEM -> SEM) (m : semid) (v : V) (s : kst) : kst :=
  set_sems (<[m := f v (sems s m)]> (sems s)) s.
Definition mset {V} (f : V -> MBX -> MBX) (m : nat) (v : V) (s : kst) : kst :=
  set_mbxs (<[m := f v (mbxs s m)]> (mbxs s)) s.
Definition times_set (f : Z -> rt_times_t -> rt_times_t) (c : nat) (v : Z) (s : kst) : kst :=
  set_smp_times (<[c := f v (smp_times s c)]> (smp_times s)) s.
Definition qset (q : qid) (l : list tid) (s : kst) : kst :=
  set_queues (<[q := l]> (queues s)) s.
Definition rset (c : nat) (l : list tid) (s : kst) : kst :=
  set_ready (<[c := l]> (ready s)) s.
Definition dset (c : nat) (l : list tid) (s : kst) : kst :=
  set_timed (<[c := l]> (timed s)) s.

(** [RT_CURRENT]. *)
Definition rt_current (s : kst) : tid := smp_current s (cpuid s).
(** [(queue.next)->task] of a semaphore: the first waiter, null when there is none. *)
Definition first_task (q : qid) (s : kst) : option tid := head (queues s q).
(** The [task] field of the head of a queue. *)
Definition queue_task (q : qid) (s : kst) : ptr :=
  match q with QMsg t => msgq_task (tasks s t) | QRet t => retq_task (tasks s t) | _ => NULL end.
(** [(msg_queue.next)->task]: the first sender, or what the head holds. *)
Definition first_msg (t : tid) (s : kst) : ptr :=
  match queues s (QMsg t) with x :: _ => PTask x | [] => msgq_task (tasks s t) end.
(** [rt_smp_linux_task[cpu].rnext]. *)
Definition rhead (c : nat) (s : kst) : tid :=
  match ready s c with t :: _ => t | [] => Linux c end.

(** Bits of a [state] word. *)
Definition has (m : Z) (x : Z) : bool := negb (Z.land m x =? 0).
Definition clear (m : Z) (x : Z) : Z := Z.land m (Z.lnot x).

(** ** Positions in the circular lists *)

(** Unlink a control block from the chain it is in. *)
Definition unlink (t : tid) (l : list tid) : list tid := filter (fun x => x <> t) l.

(** The priority order of [enqueue_blocked]: after the waiters whose priority
    is no lower. *)
Fixpoint prio_insert (prio : tid -> Z) (t : tid) (l : list tid) : list tid :=
  match l with
  | [] => [t]
  | x :: l' => if prio x <=? prio t then x :: prio_insert prio t l' else t :: l
  end.

(** The walk of [enq_ready_task] on the chain that ends in the Linux task,
    which breaks as soon as the next priority is negative. *)
Fixpoint ready_insert (prio : tid -> Z) (t : tid) (l : list tid) : list tid :=
  match l with
  | [] => [t]
  | x :: l' =>
      if prio x <=? prio t then
        x :: match l' with
             | [] => [t]
             | y :: _ => if prio y <? 0 then t :: l' else ready_insert prio t l'
             end
      else t :: l
  end.

(** The walk of [enq_ready_edf_task]: after the deadline tasks that are due no later. *)
Fixpoint edf_insert (pol per : tid -> Z) (t : tid) (l : list tid) : list tid :=
  match l with
  | [] => [t]
  | x :: l' => if (pol x <? 0) && (per x <=? per t)
               then x :: edf_insert pol per t l' else t :: l
  end.

(** The walk of [enq_timed_task]: before the first task that resumes no earlier. *)
Fixpoint timed_insert (time : tid -> Z) (t : tid) (l : list tid) : list tid :=
  match l with
  | [] => [t]
  | x :: l' => if time x <? time t then x :: timed_insert time t l' else t :: l
  end.

(** ** rtai_schedcore.h *)

Definition MAX_WAKEUP_SRQ := 64.
Definition klist_put (v : Z) (k : klist_t) : klist_t :=
  MkKlist (u64 (kin k + 1)) (kout k)
    (<[Z.land (kin k) (MAX_WAKEUP_SRQ - 1) := Some v]> (ktask k)).

(** [pend_wake_up_srq(task->lnxtsk, cpu)]; a task with no Linux side stores a null. *)
Definition pend_wake_up_srq (lnx : option Z) (c : nat) (s : kst) : kst :=
  set_wake_up_srq (<[c := klist_put (default 0 lnx) (wake_up_srq s c)]> (wake_up_srq s)) s.
Definition TASK_SOFTREALTIME := 1.
Definition NON_RTAI_TASK_SUSPEND (t : tid) (s : kst) : kst := tset set_lnxstate t TASK_SOFTREALTIME s.
Definition NON_RTAI_TASK_RESUME (t : tid) (s : kst) : kst :=
  pend_wake_up_srq (lnxtsk (tasks s t)) (cpuid s) s.

Definition send_sched_ipi (dest : Z) (s : kst) : kst := set_ipis (dest :: ipis s) s.

Definition runlink (t : tid) (s : kst) : kst :=
  set_ready (fun c => unlink t (ready s c)) s.
Definition tunlink (t : tid) (s : kst) : kst :=
  set_timed (fun c => unlink t (timed s c)) s.
Definition qunlink (t : tid) (s : kst) : kst :=
  set_queues (fun q => unlink t (queues s q)) s.

Definition enq_ready_edf_task (t : tid) (s : kst) : kst :=
  let c := runnable_on_cpus (tasks s t) in
  rset c (edf_insert (fun x => policy (tasks s x)) (fun x => period (tasks s x)) t (ready s c)) s.

Definition enq_ready_task (t : tid) (s : kst) : kst :=
  if negb (is_hard (tasks s t) =? 0) then
    let c := runnable_on_cpus (tasks s t) in
    rset c (ready_insert (fun x => priority (tasks s x)) t (ready s c)) s
  else
    let s := tset set_state t (Z.lor (state (tasks s t)) RT_SCHED_SFTRDY) s in
    NON_RTAI_TASK_RESUME t s.

Definition renq_ready_task (t : tid) (prio : Z) (s : kst) : Z * kst :=
  if negb (priority (tasks s t) =? prio) then
    let s := tset set_priority t prio s in
    (1, if state (tasks s t) =? RT_SCHED_READY then enq_ready_task t (runlink t s) else s)
  else (0, s).

Definition rem_ready_current (t : tid) (s : kst) : kst :=
  let s := if is_hard (tasks s t) =? 0 then NON_RTAI_TASK_SUSPEND t s else s in
  runlink t s.

Definition rem_ready_task (t : tid) (s : kst) : kst :=
  if state (tasks s t) =? RT_SCHED_READY then rem_ready_current t s else s.

Definition enq_timed_task (t : tid) (s : kst) : kst :=
  let c := runnable_on_cpus (tasks s t) in
  dset c (timed_insert (fun x => resume_time (tasks s x)) t (timed s c)) s.

Definition rem_timed_task (t : tid) (s : kst) : kst :=
  if has (state (tasks s t)) RT_SCHED_DELAYED then tunlink t s else s.

(** The states a wake-up by time ends. *)
Definition WAKE_MASK : Z :=
  Z.lor RT_SCHED_DELAYED (Z.lor RT_SCHED_SUSPENDED (Z.lor RT_SCHED_SEMAPHORE
  (Z.lor RT_SCHED_RECEIVE (Z.lor RT_SCHED_SEND (Z.lor RT_SCHED_RPC
  (Z.lor RT_SCHED_RETURN (Z.lor RT_SCHED_MBXSUSP RT_SCHED_POLL))))))).

(** One turn of the loop of [wake_up_timed_tasks]. *)
Definition wake_up_timed (t : tid) (s : kst) : kst :=
  let s := if has (state (tasks s t)) RT_SCHED_SUSPENDED && (0 <? suspdepth (tasks s t))
           then tset set_suspdepth t 0 s else s in
  let s := tset set_state t (clear (state (tasks s t)) WAKE_MASK) s in
  if state (tasks s t) =? RT_SCHED_READY then
    if policy (tasks s t) <? 0 then enq_ready_edf_task t s else enq_ready_task t s
  else s.

(** The loop, on the chain of the processor; the Linux task at its end resumes
    at [RTAI_TIME_LIMIT]. *)
Fixpoint wake_up_loop (time_h : Z) (l : list tid) (s : kst) : list tid * kst :=
  match l with
  | [] => ([], s)
  | t :: l' => if resume_time (tasks s t) <=? time_h
               then wake_up_loop time_h l' (wake_up_timed t s) else (l, s)
  end.

Definition wake_up_timed_tasks (c : nat) (s : kst) : kst :=
  match timed s c with
  | [] => s
  | t :: l =>
      if resume_time (tasks s t) - schedlat (tasks s t) <=? smp_time_h s c then
        let '(l', s') := wake_up_loop (smp_time_h s c) l (wake_up_timed t s) in
        dset c l' s'
      else s
  end.

Definition enqueue_blocked (t : tid) (q : qid) (qt : Z) (s : kst) : kst :=
  let s := tset set_blocked_on t (PQueue q) s in
  qset q (if qt =? 0 then prio_insert (fun x => priority (tasks s x)) t (queues s q)
          else queues s q ++ [t]) s.

Definition dequeue_blocked (t : tid) (s : kst) : kst :=
  let s := tset set_prio_passed_to t NULL s in
  tset set_blocked_on t NULL (qunlink t s).

(** [task->rprev] and [task->rnext]: the neighbours in the chain of the task's
    processor, which the Linux task closes on both sides. *)
Fixpoint before (d t : tid) (l : list tid) : tid :=
  match l with
  | [] => d
  | x :: l' => if same x t then d else before x t l'
  end.
Fixpoint after (d t : tid) (l : list tid) : tid :=
  match l with
  | [] => d
  | x :: l' => if same x t then match l' with y :: _ => y | [] => d end else after d t l'
  end.
Definition rprev (t : tid) (s : kst) : tid :=
  let c := runnable_on_cpus (tasks s t) in before (Linux c) t (ready s c).
Definition rnext (t : tid) (s : kst) : tid :=
  let c := runnable_on_cpus (tasks s t) in after (Linux c) t (ready s c).

(** Requeue a ready task whose priority has changed; the result is the bit of
    its processor when the head of the ready chain has changed. *)
Definition reprio_ready (t : tid) (schedmap : Z) (s : kst) : Z * kst :=
  let prio := priority (tasks s t) in
  if (prio <? priority (tasks s (rprev t s))) || (priority (tasks s (rnext t s)) <? prio) then
    let c := runnable_on_cpus (tasks s t) in
    let rh := rhead c s in
    let s := enq_ready_task t (runlink t s) in
    (if same rh (rhead c s) then schedmap else Z.setbit schedmap (Z.land (Z.of_nat c) 0x1F), s)
  else (schedmap, s).

(** The queue in which a blocked task waits in priority order and passes its
    priority on: a resource semaphore's, a message queue or a return queue. *)
Definition inherits (t : tid) (s : kst) : option qid :=
  let st := state (tasks s t) in
  match blocked_on (tasks s t) with
  | PQueue q =>
      if (has st RT_SCHED_SEMAPHORE &&
          match q with QSem m => 0 <? semtype (sems s m) | _ => false end)
         || has st (Z.lor RT_SCHED_SEND (Z.lor RT_SCHED_RPC RT_SCHED_RETURN))
      then Some q else None
  | _ => None
  end.

(** The task to go on with: the owner of the semaphore, or the task in the
    head of the queue. *)
Definition holder (t : tid) (q : qid) (s : kst) : ptr :=
  if has (state (tasks s t)) RT_SCHED_SEMAPHORE then
    match q with QSem m => owndby (sems s m) | _ => NULL end
  else queue_task q s.

(** Move a waiter to the place of its new priority. *)
Definition requeue (t : tid) (q : qid) (s : kst) : kst :=
  let s := qunlink t s in
  qset q (prio_insert (fun x => priority (tasks s x)) t (queues s q)) s.
Definition is_first (t : tid) (q : qid) (s : kst) : bool :=
  match queues s q with x :: _ => same x t | [] => false end.

(** One turn of the loops of [pass_prio] and [rt_change_prio]: give task [t] the
    priority, put it in its place, and find the task to go on with; [None]
    leaves the loop. *)
Definition prio_turn (t : tid) (prio schedmap : Z) (s : kst) : option ptr * Z * kst :=
  let s := tset set_priority t prio s in
  if state (tasks s t) =? RT_SCHED_READY then
    let '(schedmap, s) := reprio_ready t schedmap s in (None, schedmap, s)
  else
    match inherits t s with
    | Some q =>
        let s := if is_first t q s then s else requeue t q s in
        (if is_first t q s then Some (holder t q s) else None, schedmap, s)
    | None => (Some (PTask t), schedmap, s)
    end.

Fixpoint pass_prio_loop (fuel : nat) (to : ptr) (prio : Z) (schedmap : Z) (s : kst) : res kst Z :=
  match to with
  | PTask t =>
      if prio <? priority (tasks s t) then
        match fuel with
        | O => NoFuel s
        | S fuel =>
            match prio_turn t prio schedmap s with
            | (Some to, schedmap, s) => pass_prio_loop fuel to prio schedmap s
            | (None, schedmap, s) => Done schedmap s
            end
        end
      else Done schedmap s
  | PInt 0 => Done schedmap s
  | _ => Fault s  (* not a task *)
  end.

(** One turn for each task there can be in a chain of waits. *)
Definition pass_fuel (s : kst) : nat :=
  S (sum_list_with (fun c => length (tasklist s c) + 1)%nat (seq 0 (NR_CPUS (tun s)))).

Definition pass_prio (to : ptr) (from : tid) (s : kst) : res kst Z :=
  pass_prio_loop (pass_fuel s) to (priority (tasks s from)) 0 s.

(** ** rtai_prinher.h, with inheritance by counting the owned resources *)

Definition enqueue_resqel (t : tid) (s : kst) : kst :=
  tset set_owndres t (owndres (tasks s t) + 1) s.

Definition _set_task_prio_from_resq (t : tid) (s : kst) : Z * kst :=
  let base := base_priority (tasks s t) in
  renq_ready_task t
    match queues s (QMsg t) with
    | x :: _ => if priority (tasks s x) <? base then priority (tasks s x) else base
    | [] => base
    end s.

Definition dequeue_resqel_reset_task_priority (t : tid) (s : kst) : Z * kst :=
  let n := owndres (tasks s t) - 1 in
  let s := tset set_owndres t n s in
  if n <=? 0 then _set_task_prio_from_resq t (tset set_owndres t 0 s) else (0, s).

Definition set_task_prio_from_resq (t : tid) (s : kst) : Z * kst :=
  if owndres (tasks s t) =? 0 then _set_task_prio_from_resq t s else (0, s).

Definition task_owns_sems (t : tid) (s : kst) : bool := negb (owndres (tasks s t) =? 0).
Definition task_owns_msgs (t : tid) (s : kst) : bool :=
  match queues s (QMsg t) with [] => false | _ => true end.
Definition task_owns_res (t : tid) (s : kst) : bool := task_owns_sems t s || task_owns_msgs t s.

(** ** Waking a waiter

    [task->state != RT_SCHED_READY && (task->state &= ~mask) == RT_SCHED_READY]
    with the enqueueing it guards; the result tells whether it was enqueued. *)
Definition unblock (mask : Z) (t : tid) (s : kst) : bool * kst :=
  if state (tasks s t) =? RT_SCHED_READY then (false, s)
  else
    let s := tset set_state t (clear (state (tasks s t)) mask) s in
    if state (tasks s t) =? RT_SCHED_READY then (true, enq_ready_task t s) else (false, s).
