(* ===== verification/KernelFacts.v ===== *)
(** * Lemmas and theorems on the task, queue and priority core.

    How the field updates read back, the order each insertion keeps, what the
    wake-up by time does, and the passing of a priority along a chain of
    waiting tasks. *)

From Stdlib Require Import Sorting.Sorted.
From S2P Require Import Prelude Resume MbxRing Kernel.
From stdpp Require Import list sets.
#[local] Open Scope Z_scope.

(** ** Reading updated states *)

(** Reduce the projections of a state built by the setters. *)
Ltac kred := cbn [tset sset mset qset rset dset times_set
  tasks sems queues ready timed tasklist smp_current cpuid tsc mbxs tun
  set_tasks set_sems set_queues set_ready set_timed set_mbxs set_ipis
  set_wake_up_srq set_smp_times set_smp_time_h smp_time_h smp_times] in *.

Section reads.
Context {V : Type} (f : V -> RT_TASK -> RT_TASK).

Lemma tset_same t v s : tasks (tset f t v s) t = f v (tasks s t).
Proof. apply fn_lookup_insert. Qed.
Lemma tset_other t u v s : t <> u -> tasks (tset f t v s) u = tasks s u.
Proof. apply fn_lookup_insert_ne. Qed.

(** A setter that leaves a field alone leaves it in every task. *)
Lemma tset_field {B} (g : RT_TASK -> B) t u v s :
  (forall r, g (f v r) = g r) -> g (tasks (tset f t v s) u) = g (tasks s u).
Proof.
  intros Hg. destruct (decide (t = u)) as [->|].
  - rewrite tset_same. apply Hg.
  - by rewrite tset_other.
Qed.
End reads.

Lemma sset_same {V} (f : V -> SEM -> SEM) m v s : sems (sset f m v s) m = f v (sems s m).
Proof. apply fn_lookup_insert. Qed.
Lemma sset_other {V} (f : V -> SEM -> SEM) m m' v s : m <> m' -> sems (sset f m v s) m' = sems s m'.
Proof. apply fn_lookup_insert_ne. Qed.
Lemma qset_same q l s : queues (qset q l s) q = l.
Proof. apply fn_lookup_insert. Qed.
Lemma qset_other q q' l s : q <> q' -> queues (qset q l s) q' = queues s q'.
Proof. apply fn_lookup_insert_ne. Qed.
Lemma rset_same c l s : ready (rset c l s) c = l.
Proof. apply fn_lookup_insert. Qed.
Lemma rset_other c c' l s : c <> c' -> ready (rset c l s) c' = ready s c'.
Proof. apply fn_lookup_insert_ne. Qed.
Lemma dset_same c l s : timed (dset c l s) c = l.
Proof. apply fn_lookup_insert. Qed.
Lemma dset_other c c' l s : c <> c' -> timed (dset c l s) c' = timed s c'.
Proof. apply fn_lookup_insert_ne. Qed.
Lemma mset_same {V} (f : V -> MBX -> MBX) m v s : mbxs (mset f m v s) m = f v (mbxs s m).
Proof. apply fn_lookup_insert. Qed.
Lemma mset_other {V} (f : V -> MBX -> MBX) m m' v s : m <> m' -> mbxs (mset f m v s) m' = mbxs s m'.
Proof. apply fn_lookup_insert_ne. Qed.

Create Rewrite HintDb kst.
#[export] Hint Rewrite @tset_same @sset_same @mset_same qset_same rset_same dset_same : kst.
#[export] Hint Rewrite @tset_other @sset_other @mset_other qset_other rset_other dset_other
  using (done || congruence) : kst.

(** The priority of each task, as the insertions read it. *)
Abbreviation prio := (fun s x => priority (tasks s x)).

(** ** Ordered chains *)

Section order.
Context {A : Type} (f : A -> Z).
Implicit Types l : list A.

Definition ordered l : Prop := StronglySorted (fun x y => f x <= f y) l.

Lemma ordered_cons x l : ordered (x :: l) <-> ordered l /\ forall y, y ∈ l -> f x <= f y.
Proof.
  split.
  - intros H. inversion H as [|? ? ? Hf]; subst. split; [done|].
    intros y Hy. rewrite list.Forall_forall in Hf. by apply Hf.
  - intros [H Hf]. constructor; [done|]. by apply list.Forall_forall.
Qed.

Lemma ordered_app l k :
  ordered (l ++ k) <-> ordered l /\ ordered k /\ forall x y, x ∈ l -> y ∈ k -> f x <= f y.
Proof.
  induction l as [|x l IH]; simpl.
  - split; [|tauto]. intros H. split; [constructor|]. split; [done|]. by intros ? ? ?%elem_of_nil.
  - rewrite !ordered_cons, IH. setoid_rewrite elem_of_app. setoid_rewrite elem_of_cons.
    split.
    + intros [(H1 & H2 & H3) H4]. split_and!; auto. intros y z [->|] Hz; auto.
    + intros ([H1 H2] & H3 & H4). split_and!; auto. intros y [|]; auto.
Qed.

Lemma ordered_filter P `{forall x, Decision (P x)} l : ordered l -> ordered (filter P l).
Proof.
  induction l as [|x l IH]; [done|]. rewrite ordered_cons. intros [Hl Hx].
  rewrite filter_cons. case_decide; [|by apply IH].
  apply ordered_cons. split; [by apply IH|]. intros y [_ Hy]%list_elem_of_filter. auto.
Qed.

Lemma ordered_ext g l : (forall x, x ∈ l -> f x = g x) ->
  ordered l <-> StronglySorted (fun x y => g x <= g y) l.
Proof.
  induction l as [|x l IH]; intros Hfg; [split; constructor|].
  setoid_rewrite elem_of_cons in Hfg.
  split; intros Hs; inversion Hs as [|? ? Hs' Hf]; subst; (constructor; [apply IH; auto|]);
    apply list.Forall_forall; intros y Hy; rewrite list.Forall_forall in Hf;
    pose proof (Hf y Hy) as Hxy; simpl in Hxy;
    pose proof (Hfg x (or_introl eq_refl)); pose proof (Hfg y (or_intror Hy)); lia.
Qed.
End order.

Lemma filter_iff_in {A} (P Q : A -> Prop) `{forall x, Decision (P x), forall x, Decision (Q x)} (l : list A) :
  (forall x, x ∈ l -> P x <-> Q x) -> filter P l = filter Q l.
Proof.
  induction l as [|x l IH]; intros Hpq; [done|]. rewrite !filter_cons, IH by set_solver.
  specialize (Hpq x ltac:(set_solver)). by repeat case_decide; try tauto.
Qed.

(** ** Where an insertion puts a task *)

Section insertions.
Context (f : tid -> Z) (t : tid).

(** [prio_insert] goes past the leading elements that are no greater. *)
Lemma prio_insert_split l : exists l1 l2,
  l = l1 ++ l2 /\ prio_insert f t l = l1 ++ t :: l2 /\
  (forall x, x ∈ l1 -> f x <= f t) /\
  match l2 with [] => True | y :: _ => f t < f y end.
Proof.
  induction l as [|x l IH]; simpl.
  - exists [], []. split_and!; try done. by intros ? ?%elem_of_nil.
  - zcase.
    + destruct IH as (l1 & l2 & -> & -> & H1 & H2). exists (x :: l1), l2.
      split_and!; try done. intros y [->|Hy]%elem_of_cons; auto.
    + exists [], (x :: l). split_and!; try done. by intros ? ?%elem_of_nil.
Qed.

(** On an ordered list that is behind every element as great as the new one,
    and before every greater one. *)
Lemma prio_insert_ordered l : ordered f l -> exists l1 l2,
  l = l1 ++ l2 /\ prio_insert f t l = l1 ++ t :: l2 /\
  (forall x, x ∈ l1 -> f x <= f t) /\ (forall x, x ∈ l2 -> f t < f x) /\
  ordered f (prio_insert f t l).
Proof.
  intros Hl. destruct (prio_insert_split l) as (l1 & l2 & -> & He & H1 & H2).
  exists l1, l2. apply ordered_app in Hl as (Ho1 & Ho2 & H12).
  assert (forall x, x ∈ l2 -> f t < f x) as Hgt.
  { destruct l2 as [|y l2]; [by intros ? ?%elem_of_nil|].
    apply ordered_cons in Ho2 as [_ Hy]. intros x [->|Hx]%elem_of_cons; [done|].
    specialize (Hy _ Hx). lia. }
  split_and!; try done. rewrite He. apply ordered_app. split_and!; [done| |].
  - apply ordered_cons. split; [done|]. intros y Hy. specialize (Hgt _ Hy). lia.
  - intros x y Hx [->|Hy]%elem_of_cons; auto.
Qed.

(** The walk of [enq_ready_task] stops early only at negative priorities, so on
    others it is the plain insertion. *)
Lemma ready_insert_prio l : (forall x, x ∈ l -> 0 <= f x) -> ready_insert f t l = prio_insert f t l.
Proof.
  induction l as [|x l IH]; simpl; intros Hf; [done|].
  zcase; [|done]. f_equal. destruct l as [|y l]; [done|].
  assert (0 <= f y) by (apply Hf; set_solver).
  rewrite (proj2 (Z.ltb_ge (f y) 0)) by lia. apply IH. set_solver.
Qed.

Lemma timed_insert_split l : exists l1 l2,
  l = l1 ++ l2 /\ timed_insert f t l = l1 ++ t :: l2 /\
  (forall x, x ∈ l1 -> f x < f t) /\
  match l2 with [] => True | y :: _ => f t <= f y end.
Proof.
  induction l as [|x l IH]; simpl.
  - exists [], []. split_and!; try done. by intros ? ?%elem_of_nil.
  - zcase.
    + destruct IH as (l1 & l2 & -> & -> & H1 & H2). exists (x :: l1), l2.
      split_and!; try done. intros y [->|Hy]%elem_of_cons; auto.
    + exists [], (x :: l). split_and!; try done. by intros ? ?%elem_of_nil.
Qed.

Lemma timed_insert_ordered l : ordered f l -> ordered f (timed_insert f t l).
Proof.
  intros Hl. destruct (timed_insert_split l) as (l1 & l2 & -> & -> & H1 & H2).
  apply ordered_app in Hl as (Ho1 & Ho2 & H12).
  apply ordered_app. split_and!; [done| |].
  - apply ordered_cons. split; [done|]. destruct l2 as [|y l2]; [by intros ? ?%elem_of_nil|].
    apply ordered_cons in Ho2 as [_ Hy]. intros x [->|Hx]%elem_of_cons; [done|].
    specialize (Hy _ Hx). lia.
  - intros x y Hx [->|Hy]%elem_of_cons; [|auto]. specialize (H1 _ Hx). lia.
Qed.

Lemma edf_insert_split (pol per : tid -> Z) l : exists l1 l2,
  l = l1 ++ l2 /\ edf_insert pol per t l = l1 ++ t :: l2 /\
  (forall x, x ∈ l1 -> pol x < 0 /\ per x <= per t) /\
  match l2 with [] => True | y :: _ => pol y < 0 -> per t < per y end.
Proof.
  induction l as [|x l IH]; simpl.
  - exists [], []. split_and!; try done. by intros ? ?%elem_of_nil.
  - destruct ((pol x <? 0) && (per x <=? per t)) eqn:E.
    + destruct IH as (l1 & l2 & -> & -> & H1 & H2). exists (x :: l1), l2.
      split_and!; try done. intros y [->|Hy]%elem_of_cons; [lia|auto].
    + exists [], (x :: l). split_and!; try done; [by intros ? ?%elem_of_nil|lia].
Qed.
End insertions.

(** An insertion splits the list and puts the task between the parts. *)
Lemma insert_perm (l l1 l2 : list tid) t : l = l1 ++ l2 -> l1 ++ t :: l2 ≡ₚ t :: l.
Proof. intros ->. by rewrite Permutation_middle. Qed.

Lemma prio_insert_perm f t l : prio_insert f t l ≡ₚ t :: l.
Proof. destruct (prio_insert_split f t l) as (l1 & l2 & Hl & -> & _). by apply insert_perm. Qed.
Lemma timed_insert_perm f t l : timed_insert f t l ≡ₚ t :: l.
Proof. destruct (timed_insert_split f t l) as (l1 & l2 & Hl & -> & _). by apply insert_perm. Qed.
Lemma edf_insert_perm pol per t l : edf_insert pol per t l ≡ₚ t :: l.
Proof. destruct (edf_insert_split t pol per l) as (l1 & l2 & Hl & -> & _). by apply insert_perm. Qed.
Lemma ready_insert_perm f t l : ready_insert f t l ≡ₚ t :: l.
Proof.
  induction l as [|x l IH]; simpl; [done|]. zcase; [|done].
  destruct l as [|y l]; [by apply perm_swap|]. zcase; [by apply perm_swap|].
  rewrite IH. apply perm_swap.
Qed.

Lemma ready_insert_ext f g t l : (forall x, f x = g x) -> ready_insert f t l = ready_insert g t l.
Proof.
  intros Hfg. induction l as [|x l IH]; simpl; [done|]. rewrite !Hfg, IH.
  destruct l as [|y l]; [done|]. by rewrite Hfg.
Qed.
Lemma prio_insert_ext f g t l : (forall x, f x = g x) -> prio_insert f t l = prio_insert g t l.
Proof. intros Hfg. induction l as [|x l IH]; simpl; [done|]. by rewrite !Hfg, IH. Qed.

Lemma elem_of_ready_insert f t x l : x ∈ ready_insert f t l <-> x = t \/ x ∈ l.
Proof. by rewrite ready_insert_perm, elem_of_cons. Qed.
Lemma elem_of_prio_insert f t x l : x ∈ prio_insert f t l <-> x = t \/ x ∈ l.
Proof. by rewrite prio_insert_perm, elem_of_cons. Qed.
Lemma elem_of_timed_insert f t x l : x ∈ timed_insert f t l <-> x = t \/ x ∈ l.
Proof. by rewrite timed_insert_perm, elem_of_cons. Qed.

Lemma unlink_notin t l : t ∉ l -> unlink t l = l.
Proof.
  induction l as [|x l IH]; [done|]. rewrite not_elem_of_cons. intros [? ?].
  unfold unlink. rewrite filter_cons_True by congruence. f_equal. by apply IH.
Qed.
Lemma elem_of_unlink t x l : x ∈ unlink t l <-> x <> t /\ x ∈ l.
Proof. unfold unlink. by rewrite list_elem_of_filter. Qed.
Lemma unlink_app t l k : unlink t (l ++ k) = unlink t l ++ unlink t k.
Proof. apply filter_app. Qed.
Lemma unlink_head t l : t ∉ l -> unlink t (t :: l) = l.
Proof. intros. unfold unlink. rewrite filter_cons_False by tauto. by apply unlink_notin. Qed.
Lemma unlink_nodup t l : NoDup l -> NoDup (unlink t l).
Proof. apply NoDup_filter. Qed.
Lemma unlink_length t l : NoDup l -> t ∈ l -> S (length (unlink t l)) = length l.
Proof.
  induction l as [|x l IH]; [by intros _ ?%elem_of_nil|].
  rewrite NoDup_cons. intros [Hx Hl] Ht. destruct (decide (x = t)) as [->|Hne].
  - rewrite unlink_head; done.
  - unfold unlink. rewrite filter_cons_True by done. simpl. f_equal. apply IH; [done|].
    apply elem_of_cons in Ht as [?|?]; [congruence|done].
Qed.

(** ** Enqueueing *)

Lemma enq_ready_hard t s :
  is_hard (tasks s t) <> 0 ->
  enq_ready_task t s =
    rset (runnable_on_cpus (tasks s t))
      (ready_insert (prio s) t (ready s (runnable_on_cpus (tasks s t)))) s.
Proof. intros Hh. unfold enq_ready_task. by rewrite (proj2 (Z.eqb_neq _ _) Hh). Qed.

(** The chains of a processor as the scheduler relies on them: each task once,
    in priority order and in time order, on its own processor. *)
Record ready_ok (c : nat) (s : kst) : Prop := {
  ready_nodup : NoDup (ready s c);
  ready_ordered : ordered (prio s) (ready s c);
  ready_elem : forall x, x ∈ ready s c ->
    0 <= priority (tasks s x) /\ runnable_on_cpus (tasks s x) = c /\
    state (tasks s x) = RT_SCHED_READY
}.
Record timed_ok (c : nat) (s : kst) : Prop := {
  timed_nodup : NoDup (timed s c);
  timed_ordered : ordered (fun x => resume_time (tasks s x)) (timed s c);
  timed_elem : forall x, x ∈ timed s c ->
    0 <= priority (tasks s x) /\ runnable_on_cpus (tasks s x) = c /\
    state (tasks s x) <> RT_SCHED_READY /\ 0 <= schedlat (tasks s x)
}.

(** The order of a chain depends on the priorities of its elements only. *)
Lemma ordered_prio_ext s s' l :
  (forall x, x ∈ l -> priority (tasks s x) = priority (tasks s' x)) ->
  ordered (prio s) l -> ordered (prio s') l.
Proof. intros H. apply (ordered_ext _ _ _ H). Qed.

(** Putting a ready hard task in its place keeps the chain as it should be. *)
Lemma enq_ready_ok c t s :
  ready_ok c s -> runnable_on_cpus (tasks s t) = c -> is_hard (tasks s t) <> 0 ->
  0 <= priority (tasks s t) -> state (tasks s t) = RT_SCHED_READY ->
  t ∉ ready s c -> ready_ok c (enq_ready_task t s).
Proof.
  intros [] Hc Hh Hp Hst Ht. rewrite enq_ready_hard by done. rewrite Hc.
  assert (ready_insert (prio s) t (ready s c) = prio_insert (prio s) t (ready s c)) as Hi.
  { apply ready_insert_prio. intros x Hx. by apply ready_elem0. }
  split.
  - rewrite rset_same, ready_insert_perm, NoDup_cons. done.
  - rewrite rset_same, Hi. by destruct (prio_insert_ordered (prio s) t (ready s c)) as (?&?&?&?&?&?&?).
  - intros x. rewrite rset_same, elem_of_ready_insert.
    intros [->|Hx]; [done|by apply ready_elem0].
Qed.

(** ** Waking by time *)

(** What a wake-up does to the descriptor. *)
Definition woken_task (r : RT_TASK) : RT_TASK :=
  let r := if has (state r) RT_SCHED_SUSPENDED && (0 <? suspdepth r)
           then set_suspdepth 0 r else r in
  set_state (clear (state r) WAKE_MASK) r.

Lemma wake_up_timed_task t s : is_hard (tasks s t) <> 0 ->
  tasks (wake_up_timed t s) t = woken_task (tasks s t).
Proof.
  intros Hh. unfold wake_up_timed, woken_task.
  destruct (has _ _ && _); autorewrite with kst; zcases;
    rewrite ?enq_ready_hard by (by autorewrite with kst);
    cbn; by rewrite ?fn_lookup_insert.
Qed.

Lemma wake_up_timed_other t s u : t <> u -> is_hard (tasks s t) <> 0 ->
  tasks (wake_up_timed t s) u = tasks s u.
Proof.
  intros Hu Hh. unfold wake_up_timed.
  destruct (has _ _ && _); autorewrite with kst; zcases;
    rewrite ?enq_ready_hard by (by autorewrite with kst);
    cbn; by rewrite ?fn_lookup_insert_ne.
Qed.

Lemma woken_task_field {B} (g : RT_TASK -> B) r :
  (forall v r, g (set_suspdepth v r) = g r) -> (forall v r, g (set_state v r) = g r) ->
  g (woken_task r) = g r.
Proof. intros H1 H2. unfold woken_task. rewrite H2. by zcases; rewrite ?H1. Qed.
Lemma woken_task_state r : state (woken_task r) = clear (state r) WAKE_MASK.
Proof. unfold woken_task. by zcases. Qed.

(** Waking one task: it joins the ready chain when nothing else keeps it. *)
Definition wakes (s : kst) (x : tid) : Prop := clear (state (tasks s x)) WAKE_MASK = RT_SCHED_READY.
#[export] Instance wakes_dec s x : Decision (wakes s x).
Proof. unfold wakes. apply _. Defined.

(** The tasks the code wakes here are hard ones, under a fixed priority policy. *)
Definition hard_fixed (c : nat) (s : kst) (x : tid) : Prop :=
  is_hard (tasks s x) <> 0 /\ 0 <= policy (tasks s x) /\
  0 <= priority (tasks s x) /\ runnable_on_cpus (tasks s x) = c.

Lemma wake_up_timed_ready c t s : hard_fixed c s t ->
  ready (wake_up_timed t s) c =
    if decide (wakes s t) then ready_insert (prio s) t (ready s c) else ready s c.
Proof.
  intros (Hh & Hpol & _ & Hc). unfold wake_up_timed, wakes.
  rewrite (proj2 (Z.ltb_ge (policy _) 0)) by
    (destruct (has _ _ && _); autorewrite with kst; cbn; lia).
  destruct (has _ _ && _); autorewrite with kst; cbn [state set_state set_suspdepth];
    (destruct (_ =? RT_SCHED_READY) eqn:E; zbool;
     [rewrite decide_True by done|rewrite decide_False by done; done]);
    rewrite enq_ready_hard by (by autorewrite with kst); autorewrite with kst;
    cbn [runnable_on_cpus set_state set_suspdepth]; rewrite Hc, rset_same;
    apply ready_insert_ext; intros x;
    rewrite !(tset_field _ priority) by done; done.
Qed.

Lemma wake_up_timed_chains t s : is_hard (tasks s t) <> 0 ->
  timed (wake_up_timed t s) = timed s /\ queues (wake_up_timed t s) = queues s.
Proof.
  intros Hh. unfold wake_up_timed, enq_ready_edf_task.
  destruct (has _ _ && _); zcases;
    rewrite ?enq_ready_hard by (by autorewrite with kst); done.
Qed.

(** One wake-up keeps the ready chain as it should be. *)
Lemma wake_up_timed_ok c t s :
  ready_ok c s -> hard_fixed c s t -> t ∉ ready s c -> ready_ok c (wake_up_timed t s).
Proof.
  intros [Hn Ho He] Ht Hin. pose proof Ht as (Hh & _ & Hp & Hc).
  pose proof (wake_up_timed_ready _ _ _ Ht) as Hr.
  assert (forall x, x <> t -> tasks (wake_up_timed t s) x = tasks s x) as Hot.
  { intros. by apply wake_up_timed_other. }
  assert (forall x, priority (tasks (wake_up_timed t s) x) = priority (tasks s x)) as Hpr.
  { intros x. destruct (decide (x = t)) as [->|]; [|by rewrite Hot].
    rewrite wake_up_timed_task by done. by apply woken_task_field. }
  assert (forall l, ordered (prio s) l -> ordered (prio (wake_up_timed t s)) l) as Hord.
  { intros l. apply ordered_prio_ext. by intros; rewrite Hpr. }
  case_decide as Hw; (split; rewrite Hr).
  - by rewrite ready_insert_perm, NoDup_cons.
  - apply Hord. rewrite ready_insert_prio by (by intros x Hx; apply He).
    by destruct (prio_insert_ordered (prio s) t (ready s c)) as (?&?&?&?&?&?&?).
  - intros x. rewrite elem_of_ready_insert. intros [->|Hx].
    + rewrite Hpr, wake_up_timed_task, woken_task_state by done.
      by rewrite (woken_task_field runnable_on_cpus).
    + rewrite Hot by (by intros ->). by apply He.
  - done.
  - by apply Hord.
  - intros x Hx. rewrite Hot by (by intros ->). by apply He.
Qed.

(** The loop wakes a prefix of the chain: all that is due. *)
Lemma wake_up_loop_fold h l s :
  (forall x, x ∈ l -> is_hard (tasks s x) <> 0) -> NoDup l ->
  exists w rest, l = w ++ rest /\
    wake_up_loop h l s = (rest, foldl (fun s t => wake_up_timed t s) s w) /\
    (forall x, x ∈ w -> resume_time (tasks s x) <= h) /\
    match rest with [] => True | y :: _ => h < resume_time (tasks s y) end.
Proof.
  revert s. induction l as [|t l IH]; simpl; intros s Hh Hn.
  - exists [], []. split_and!; try done. by intros ? ?%elem_of_nil.
  - apply NoDup_cons in Hn as [Ht Hn]. zcase.
    + assert (forall x, x ∈ l -> tasks (wake_up_timed t s) x = tasks s x) as Hot.
      { intros x Hx. apply wake_up_timed_other; [by intros ->|]. apply Hh. set_solver. }
      destruct (IH (wake_up_timed t s)) as (w & rest & -> & Hl & Hw & Hr); [|done|].
      { intros x Hx. rewrite Hot by done. apply Hh. set_solver. }
      exists (t :: w), rest. split_and!; [done|done| |].
      * intros x [->|Hx]%elem_of_cons; [done|]. rewrite <- Hot by set_solver. auto.
      * destruct rest; [done|]. by rewrite <- Hot by set_solver.
    + exists [], (t :: l). split_and!; try done. by intros ? ?%elem_of_nil.
Qed.

(** What waking the tasks [w], one after the other, does. *)
Lemma wake_fold c w s :
  ready_ok c s -> NoDup w ->
  (forall x, x ∈ w -> hard_fixed c s x /\ x ∉ ready s c) ->
  let s' := foldl (fun s t => wake_up_timed t s) s w in
  ready_ok c s' /\
  ready s' c ≡ₚ filter (wakes s) w ++ ready s c /\
  timed s' = timed s /\ queues s' = queues s /\
  (forall x, x ∈ w -> tasks s' x = woken_task (tasks s x)) /\
  (forall x, x ∉ w -> tasks s' x = tasks s x).
Proof.
  revert s. induction w as [|t w IH]; simpl; intros s Hok Hn Hw.
  - split_and!; try done. by intros ? ?%elem_of_nil.
  - apply NoDup_cons in Hn as [Ht Hn].
    destruct (Hw t) as [Htf Htr]; [set_solver|]. pose proof Htf as (Hh & _).
    pose proof (wake_up_timed_ready _ _ _ Htf) as Hr.
    assert (forall x, x <> t -> tasks (wake_up_timed t s) x = tasks s x) as Hot.
    { intros. by apply wake_up_timed_other. }
    destruct (wake_up_timed_chains t s Hh) as [Htm Hq].
    destruct (IH (wake_up_timed t s)) as (H1 & H2 & H3 & H4 & H5 & H6).
    { by apply wake_up_timed_ok. }
    { done. }
    { intros x Hx. assert (x <> t) by (by intros ->).
      destruct (Hw x) as [Hxf Hxr]; [set_solver|]. unfold hard_fixed. rewrite Hot by done.
      split; [done|]. rewrite Hr. case_decide; [|done].
      rewrite elem_of_ready_insert. naive_solver. }
    split_and!; [done| |by rewrite H3|by rewrite H4| |].
    + rewrite H2, Hr. assert (filter (wakes (wake_up_timed t s)) w = filter (wakes s) w) as ->.
      { apply filter_iff_in. intros x Hx. unfold wakes. by rewrite Hot by (by intros ->). }
      rewrite filter_cons. case_decide; [|done].
      rewrite ready_insert_perm. by rewrite <- Permutation_middle.
    + intros x [->|Hx]%elem_of_cons; [by rewrite H6, wake_up_timed_task|].
      by rewrite H5, Hot by (done || by intros ->).
    + intros x Hx. rewrite H6, Hot; set_solver.
Qed.

Lemma wake_up_timed_tasks_ok c s :
  ready_ok c s -> timed_ok c s ->
  (forall x, x ∈ timed s c -> is_hard (tasks s x) <> 0 /\ 0 <= policy (tasks s x)) ->
  let s' := wake_up_timed_tasks c s in
  exists w, timed s c = w ++ timed s' c /\
    (forall x, x ∈ w ->
       resume_time (tasks s x) - schedlat (tasks s x) <= smp_time_h s c /\
       tasks s' x = woken_task (tasks s x)) /\
    (forall x, x ∈ timed s' c -> smp_time_h s c < resume_time (tasks s' x)) /\
    ready s' c ≡ₚ filter (wakes s) w ++ ready s c /\
    ready_ok c s' /\ timed_ok c s'.
Proof.
  intros Hr [Tn To Te] Hh. unfold wake_up_timed_tasks.
  destruct (timed s c) as [|t l] eqn:El.
  { exists []. rewrite El. split_and!; try done; try (by intros ? ?%elem_of_nil).
    split; rewrite El; done. }
  pose proof To as To'. apply ordered_cons in To as [Tol Tot]. zcase.
  2:{ exists []. rewrite El. destruct (Te t) as (_ & _ & _ & Hl); [set_solver|].
      split_and!; try done; try (by intros ? ?%elem_of_nil); [|by split; rewrite El].
      intros x [->|Hx]%elem_of_cons; [lia|]. specialize (Tot _ Hx). lia. }
  apply NoDup_cons in Tn as [Ht Tn].
  assert (is_hard (tasks s t) <> 0) as Hht by (apply Hh; set_solver).
  assert (forall x, x ∈ l -> tasks (wake_up_timed t s) x = tasks s x) as Hot.
  { intros x Hx. apply wake_up_timed_other; [by intros ->|done]. }
  destruct (wake_up_loop_fold (smp_time_h s c) l (wake_up_timed t s))
    as (w & rest & -> & -> & Hw & Hrest); [|done|].
  { intros x Hx. rewrite Hot by done. apply Hh. set_solver. }
  change (foldl _ (wake_up_timed t s) w)
    with (foldl (fun s t => wake_up_timed t s) s (t :: w)).
  destruct (wake_fold c (t :: w) s) as (F1 & F2 & F3 & F4 & F5 & F6); [done| | |].
  { apply NoDup_cons. apply NoDup_app in Tn as (? & _). set_solver. }
  { intros x Hx. assert (x ∈ t :: w ++ rest) as Hx' by set_solver.
    destruct (Te x Hx') as (? & ? & Hst & _), (Hh x Hx'). split; [done|].
    intros Hin. by apply Hst, Hr. }
  set (s1 := foldl _ s (t :: w)) in *. exists (t :: w). rewrite dset_same.
  assert (forall x, x ∈ rest -> tasks s1 x = tasks s x) as Hrs.
  { intros x Hx. apply F6. apply NoDup_app in Tn as (_ & Hd & _). set_solver. }
  assert (forall x, x ∈ rest -> smp_time_h s c < resume_time (tasks s x)) as Hdue.
  { destruct rest as [|y rest]; [by intros ? ?%elem_of_nil|].
    rewrite Hot in Hrest by set_solver.
    apply ordered_app in Tol as (_ & Hy & _). apply ordered_cons in Hy as [_ Hy].
    intros x [->|Hx]%elem_of_cons; [done|]. specialize (Hy _ Hx). lia. }
  split_and!; [done| |intros x Hx; cbn; rewrite Hrs by done; auto|done|by destruct F1|].
  - intros x Hx. split; [|by apply F5]. destruct (Te x) as (_ & _ & _ & ?); [set_solver|].
    apply elem_of_cons in Hx as [->|Hx]; [done|].
    specialize (Hw _ Hx). rewrite Hot in Hw by set_solver. lia.
  - apply NoDup_app in Tn as (_ & _ & Hnr). apply ordered_app in Tol as (_ & Hor & _).
    split; rewrite dset_same; [done| |].
    + revert Hor. apply ordered_ext. intros x Hx. cbn. by rewrite Hrs.
    + intros x Hx. cbn. rewrite Hrs by done. apply Te. set_solver.
Qed.

(**  The wake-up by time, on chains in order, of hard tasks under fixed
    priorities: it takes from the timed chain exactly a prefix [w], in which
    every task is due (the first one up to its latency); no task that is left
    is due; each task of [w] has its waiting states cleared, and is in the
    ready chain when nothing else keeps it; both chains stay in order. *)
Theorem wake_up_timed_tasks_spec c s :
  ready_ok c s -> timed_ok c s ->
  (forall x, x ∈ timed s c -> is_hard (tasks s x) <> 0 /\ 0 <= policy (tasks s x)) ->
  let s' := wake_up_timed_tasks c s in
  exists w, timed s c = w ++ timed s' c /\
    (forall x, x ∈ w ->
       resume_time (tasks s x) - schedlat (tasks s x) <= smp_time_h s c /\
       tasks s' x = woken_task (tasks s x)) /\
    (forall x, x ∈ timed s' c -> smp_time_h s c < resume_time (tasks s' x)) /\
    ready s' c ≡ₚ filter (wakes s) w ++ ready s c /\
    ready_ok c s' /\ timed_ok c s'.
Proof. apply wake_up_timed_tasks_ok. Qed.

(** ** Queues of waiters *)

(**  A task that blocks in a priority queue is put behind every waiter of
    its priority or a higher one and before every waiter of a lower one, so
    equals are served in the order they came; the queue stays in order, other
    queues are as they were, and the task remembers what it is blocked on. *)
Theorem enqueue_blocked_order t q s :
  ordered (prio s) (queues s q) ->
  let s' := enqueue_blocked t q 0 s in
  exists l1 l2, queues s q = l1 ++ l2 /\ queues s' q = l1 ++ t :: l2 /\
    (forall x, x ∈ l1 -> priority (tasks s x) <= priority (tasks s t)) /\
    (forall x, x ∈ l2 -> priority (tasks s t) < priority (tasks s x)) /\
    ordered (prio s') (queues s' q) /\
    (forall q', q' <> q -> queues s' q' = queues s q') /\
    blocked_on (tasks s' t) = PQueue q.
Proof.
  intros Ho. unfold enqueue_blocked. rewrite Z.eqb_refl, qset_same.
  rewrite (prio_insert_ext _ (prio s)) by (intros; by apply (tset_field _ priority)).
  destruct (prio_insert_ordered (prio s) t _ Ho) as (l1 & l2 & H1 & H2 & H3 & H4 & H5).
  exists l1, l2. split_and!; try done.
  - revert H5. apply ordered_prio_ext. intros x _. symmetry. by apply (tset_field _ priority).
  - intros q' Hq. by rewrite qset_other.
  - cbn. by rewrite fn_lookup_insert.
Qed.

(** A waiter is in one queue, the one it is blocked on, and its holder is a
    task that exists or nobody. *)
Definition waits_ok (U : list tid) (s : kst) : Prop :=
  forall t q, t ∈ U -> inherits t s = Some q ->
    t ∈ queues s q /\ NoDup (queues s q) /\ (forall q', q' <> q -> t ∉ queues s q') /\
    (holder t q s = NULL \/ exists u, u ∈ U /\ holder t q s = PTask u).

(** A queue all of whose waiters pass their priority on, in order. *)
Definition inherit_queue (q : qid) (s : kst) : Prop :=
  ordered (prio s) (queues s q) /\ forall x, x ∈ queues s q -> inherits x s = Some q.

(** What the decisions of [pass_prio] read besides queues and priorities. *)
Record same_waits (s s' : kst) : Prop := {
  sw_sems : sems s' = sems s;
  sw_state : forall x, state (tasks s' x) = state (tasks s x);
  sw_blocked : forall x, blocked_on (tasks s' x) = blocked_on (tasks s x);
  sw_msgq : forall x, msgq_task (tasks s' x) = msgq_task (tasks s x);
  sw_retq : forall x, retq_task (tasks s' x) = retq_task (tasks s x)
}.

Lemma same_waits_inherits s s' t : same_waits s s' -> inherits t s' = inherits t s.
Proof. intros [H1 H2 H3 _ _]. unfold inherits. by rewrite H1, H2, H3. Qed.
Lemma same_waits_holder s s' t q : same_waits s s' -> holder t q s' = holder t q s.
Proof.
  intros [H1 H2 H3 H4 H5]. unfold holder, queue_task. rewrite H1, H2.
  by destruct q; rewrite ?H4, ?H5.
Qed.
Lemma same_waits_trans s s' s'' : same_waits s s' -> same_waits s' s'' -> same_waits s s''.
Proof. intros [] []. split; [congruence|..]; intros x; congruence. Qed.
Lemma same_waits_prio t p s : same_waits s (tset set_priority t p s).
Proof.
  split; [done|..]; intros x.
  - by apply (tset_field _ state).
  - by apply (tset_field _ blocked_on).
  - by apply (tset_field _ msgq_task).
  - by apply (tset_field _ retq_task).
Qed.

(** Raising the priority of a waiter and moving it to its place. *)
Definition raise (t : tid) (q : qid) (p : Z) (s : kst) : kst :=
  let s := tset set_priority t p s in if is_first t q s then s else requeue t q s.

Lemma raise_waits t q p s : same_waits s (raise t q p s).
Proof.
  unfold raise. zcases; [apply same_waits_prio|].
  eapply same_waits_trans; [apply (same_waits_prio t p)|done].
Qed.

Lemma raise_prio t q p s x :
  priority (tasks (raise t q p s) x) = if decide (x = t) then p else priority (tasks s x).
Proof.
  assert (tasks (raise t q p s) = tasks (tset set_priority t p s)) as ->.
  { unfold raise. by zcases. }
  case_decide as Hx; [subst; by rewrite tset_same|by rewrite tset_other].
Qed.

Lemma raise_queues t q p s :
  t ∈ queues s q -> NoDup (queues s q) -> (forall q', q' <> q -> t ∉ queues s q') ->
  forall q', queues (raise t q p s) q' ≡ₚ queues s q'.
Proof.
  intros Ht Hn Hq q'. unfold raise. destruct (is_first _ _ _); [done|].
  unfold requeue. destruct (decide (q' = q)) as [->|Hne].
  - rewrite qset_same, prio_insert_perm.
    change (queues (qunlink t _) q) with (unlink t (queues s q)).
    apply list_elem_of_split in Ht as (l1 & l2 & Hl). rewrite Hl in Hn |- *.
    apply NoDup_app in Hn as (_ & H1 & H2). apply NoDup_cons in H2 as [H2 _].
    rewrite unlink_app, unlink_head, unlink_notin by set_solver. by rewrite Permutation_middle.
  - rewrite qset_other by done. change (unlink t (queues s q') ≡ₚ queues s q').
    by rewrite unlink_notin by auto.
Qed.

Lemma raise_ordered t q p s :
  p < priority (tasks s t) -> ordered (prio s) (queues s q) -> NoDup (queues s q) ->
  ordered (prio (raise t q p s)) (queues (raise t q p s) q).
Proof.
  intros Hp Ho Hn.
  assert (forall l, t ∉ l -> ordered (prio s) l -> ordered (prio (raise t q p s)) l) as Hot.
  { intros l Hl. apply ordered_prio_ext. intros x Hx. rewrite raise_prio.
    case_decide; [by subst|done]. }
  destruct (is_first t q (tset set_priority t p s)) eqn:E.
  - unfold is_first in E. cbn in E. destruct (queues s q) as [|x l] eqn:El; [done|].
    apply bool_decide_eq_true in E as ->. apply NoDup_cons in Hn as [Htl Hn].
    apply ordered_cons in Ho as [Ho Hx].
    assert (queues (raise t q p s) q = t :: l) as ->.
    { unfold raise, is_first. cbn. rewrite El. by rewrite bool_decide_eq_true_2. }
    apply ordered_cons. split; [by apply Hot|]. intros y Hy.
    rewrite !raise_prio, decide_True by done. rewrite decide_False by (by intros ->).
    specialize (Hx _ Hy). lia.
  - assert (queues (raise t q p s) q = prio_insert (prio (raise t q p s)) t (unlink t (queues s q))) as ->.
    { unfold raise. rewrite E. unfold requeue. by rewrite qset_same. }
    destruct (prio_insert_ordered (prio (raise t q p s)) t (unlink t (queues s q)))
      as (?&?&?&?&?&?&?); [|done].
    apply Hot; [rewrite elem_of_unlink; tauto|]. by apply ordered_filter.
Qed.

(** A turn of the loop on a waiter that passes its priority on. *)
Lemma prio_turn_waiter t q p map s :
  state (tasks s t) <> RT_SCHED_READY -> inherits t s = Some q ->
  prio_turn t p map s =
    (if is_first t q (raise t q p s) then Some (holder t q s) else None, map, raise t q p s).
Proof.
  intros Hst Hi. unfold prio_turn.
  rewrite (sw_state _ _ (same_waits_prio t p s)), (proj2 (Z.eqb_neq _ _) Hst).
  rewrite (same_waits_inherits _ _ _ (same_waits_prio t p s)), Hi. fold (raise t q p s).
  by rewrite (same_waits_holder _ _ _ _ (raise_waits t q p s)).
Qed.

Lemma reprio_ready_frame t map s :
  let s' := (reprio_ready t map s).2 in
  sems s' = sems s /\ queues s' = queues s /\
  (forall x, priority (tasks s' x) = priority (tasks s x)) /\
  (forall x, blocked_on (tasks s' x) = blocked_on (tasks s x)).
Proof.
  unfold reprio_ready, enq_ready_task. zcases; simpl; try done;
    split_and!; try done; intros x.
  all: first [ exact (tset_field set_state priority t x _ (runlink t s) (fun _ => eq_refl))
             | exact (tset_field set_state blocked_on t x _ (runlink t s) (fun _ => eq_refl)) ].
Qed.

(** The tasks of [U] whose priority is lower than [p]. *)
Definition lower (p : Z) (U : list tid) (s : kst) : list tid :=
  filter (fun x => p < priority (tasks s x)) U.

Lemma lower_raise t q p U s :
  t ∈ U -> p < priority (tasks s t) -> (length (lower p U (raise t q p s)) < length (lower p U s))%nat.
Proof.
  intros Ht Hp. unfold lower. induction U as [|x U IH]; [by apply elem_of_nil in Ht|].
  rewrite !filter_cons, raise_prio.
  assert (length (filter (fun x => (p < priority (tasks (raise t q p s) x))%Z) U)
          <= length (filter (fun x => (p < priority (tasks s x))%Z) U))%nat as Hle.
  { clear. induction U as [|x U IH]; [done|]. rewrite !filter_cons, raise_prio.
    repeat case_decide; simpl; lia. }
  destruct (decide (x = t)) as [->|Hne].
  - rewrite decide_False, (decide_True (P := p < _)) by lia. simpl. lia.
  - apply elem_of_cons in Ht as [?|Ht]; [congruence|]. specialize (IH Ht).
    case_decide; simpl; lia.
Qed.

(** What a passing of the priority [p] does between [s] and [s']. *)
Record passed (p : Z) (s s' : kst) : Prop := {
  passed_sems : sems s' = sems s;
  passed_blocked : forall x, blocked_on (tasks s' x) = blocked_on (tasks s x);
  passed_perm : forall q, queues s' q ≡ₚ queues s q;
  passed_ordered : forall q, inherit_queue q s -> ordered (prio s') (queues s' q);
  passed_prio : forall x, priority (tasks s' x) = priority (tasks s x) \/
    (priority (tasks s' x) = p /\ p < priority (tasks s x))
}.

Lemma waits_ok_raise U t q p s :
  waits_ok U s -> t ∈ U -> inherits t s = Some q -> waits_ok U (raise t q p s).
Proof.
  intros Hw Ht Hi x q' Hx. pose proof (raise_waits t q p s) as Hsw.
  rewrite (same_waits_inherits _ _ _ Hsw), (same_waits_holder _ _ _ _ Hsw). intros Hi'.
  destruct (Hw _ _ Ht Hi) as (T1 & T2 & T3 & _), (Hw _ _ Hx Hi') as (X1 & X2 & X3 & X4).
  pose proof (raise_queues _ _ p _ T1 T2 T3) as Hp.
  split_and!; [by rewrite Hp|by rewrite Hp| |done].
  intros q'' Hq. rewrite Hp. auto.
Qed.

Lemma passed_raise t q p s :
  p < priority (tasks s t) -> t ∈ queues s q -> NoDup (queues s q) ->
  (forall q', q' <> q -> t ∉ queues s q') -> inherits t s = Some q ->
  passed p s (raise t q p s) /\
  (forall q', inherit_queue q' s -> inherit_queue q' (raise t q p s)).
Proof.
  intros Hp Ht Hn Hq Hi. pose proof (raise_queues _ _ p _ Ht Hn Hq) as Hperm.
  assert (forall q', inherit_queue q' s -> ordered (prio (raise t q p s)) (queues (raise t q p s) q')) as Hord.
  { intros q' [Ho _]. destruct (decide (q' = q)) as [->|Hne]; [by apply raise_ordered|].
    assert (queues (raise t q p s) q' = queues s q') as ->.
    { unfold raise, requeue. zcases; [done|]. rewrite qset_other by done.
      by apply unlink_notin, Hq. }
    revert Ho. apply ordered_prio_ext. intros x Hx. rewrite raise_prio.
    case_decide; [subst; by apply Hq in Hx|done]. }
  split; [split; try done|].
  - by apply raise_waits.
  - by apply raise_waits.
  - intros x. rewrite raise_prio. case_decide; [subst; by right|by left].
  - intros q' Hq'. split; [by apply Hord|]. intros x. rewrite Hperm.
    rewrite (same_waits_inherits _ _ _ (raise_waits t q p s)). apply Hq'.
Qed.

Lemma passed_trans p s s1 s' :
  passed p s s1 -> (forall q, inherit_queue q s -> inherit_queue q s1) ->
  passed p s1 s' -> passed p s s'.
Proof.
  intros [S1 B1 P1 O1 R1] Hq [S2 B2 P2 O2 R2]. split.
  - by rewrite S2.
  - intros x. by rewrite B2.
  - intros q. by rewrite P2.
  - auto.
  - intros x. destruct (R1 x), (R2 x); intuition lia.
Qed.

(** Along the chain, nobody is left holding up a waiter with a lower priority. *)
Definition chain_raised (p : Z) (s s' : kst) : Prop :=
  forall x q u, priority (tasks s' x) <> priority (tasks s x) ->
    state (tasks s x) <> RT_SCHED_READY -> inherits x s = Some q ->
    is_first x q s' = true -> holder x q s = PTask u -> priority (tasks s' u) <= p.

Lemma passed_refl_prio t p s :
  state (tasks s t) = RT_SCHED_READY \/ inherits t s = None ->
  p < priority (tasks s t) -> forall s', sems s' = sems s -> queues s' = queues s ->
  (forall x, priority (tasks s' x) = priority (tasks (tset set_priority t p s) x)) ->
  (forall x, blocked_on (tasks s' x) = blocked_on (tasks s x)) ->
  passed p s s' /\ chain_raised p s s'.
Proof.
  intros Ht Hp s' Hs' Hqs Hpr Hbl.
  assert (inherits t s = None) as Hi.
  { destruct Ht as [Hst|Hi]; [|done]. unfold inherits. rewrite Hst. simpl.
    by destruct (blocked_on _); rewrite ?andb_false_l. }
  assert (forall x, priority (tasks s' x) = if decide (x = t) then p else priority (tasks s x)) as Hx.
  { intros x. rewrite Hpr. case_decide; [subst; by rewrite tset_same|by rewrite tset_other]. }
  split; [split; [done|done| | |]|].
  - intros q. by rewrite Hqs.
  - intros q Hin. rewrite Hqs. pose proof Hin as [Ho _]. revert Ho. apply ordered_prio_ext.
    intros x Hx'. rewrite Hx. case_decide; [subst|done].
    destruct Hin as [_ Hin]. by rewrite (Hin _ Hx') in Hi.
  - intros x. rewrite Hx. case_decide; [subst; by right|by left].
  - intros x q u Hc Hst Hix. rewrite Hx in Hc. case_decide; [subst; congruence|done].
Qed.

(** With a turn of fuel for each task of a lower priority, the loop ends. *)
Lemma pass_prio_loop_spec fuel U p map s to :
  waits_ok U s -> (to = NULL \/ exists u, u ∈ U /\ to = PTask u) ->
  (length (lower p U s) <= fuel)%nat ->
  exists map' s', pass_prio_loop fuel to p map s = Done map' s' /\
    passed p s s' /\ chain_raised p s s' /\
    (forall u, to = PTask u -> priority (tasks s' u) <= p).
Proof.
  assert (forall f to map s, (to = NULL \/ exists u, to = PTask u /\ priority (tasks s u) <= p) ->
    pass_prio_loop f to p map s = Done map s) as Hend.
  { intros f to' map' s' [->|(u & -> & Hu)]; destruct f; simpl; try done;
      by rewrite (proj2 (Z.ltb_ge _ _) Hu). }
  assert (forall s, passed p s s /\ chain_raised p s s) as Hrefl.
  { intros s0. split; [split; try done; auto; by intros q []|by intros x]. }
  revert map s to. induction fuel as [|fuel IH]; intros map s to Hw Hto Hf.
  all: destruct Hto as [->|(t & Ht & ->)]; [exists map, s; rewrite Hend by auto; naive_solver|].
  all: destruct (decide (p < priority (tasks s t))) as [Hp|Hp];
    [|exists map, s; rewrite Hend by (right; exists t; split; [done|lia]); split_and!;
      [done|apply Hrefl|apply Hrefl|intros u [= <-]; lia]].
  { exfalso. assert (t ∈ lower p U s) as Hin by (by apply list_elem_of_filter).
    destruct (lower p U s); [by apply elem_of_nil in Hin|simpl in Hf; lia]. }
  simpl. rewrite (proj2 (Z.ltb_lt _ _) Hp).
  destruct (decide (state (tasks s t) = RT_SCHED_READY)) as [Hst|Hst];
    [|destruct (inherits t s) as [q|] eqn:Hi].
  - destruct (prio_turn t p map s) as [[o map'] s'] eqn:Et.
    unfold prio_turn in Et. rewrite (sw_state _ _ (same_waits_prio t p s)), Hst in Et. simpl in Et.
    pose proof (reprio_ready_frame t map (tset set_priority t p s)) as (F1 & F2 & F3 & F4).
    destruct (reprio_ready t map _) as [m1 s1]. injection Et as <- <- <-. cbn [snd] in F1, F2, F3, F4.
    exists m1, s1. destruct (passed_refl_prio t p s (or_introl Hst) Hp s1 F1 F2 F3).
    { intros x. rewrite F4. by apply (tset_field _ blocked_on). }
    split_and!; try done. intros u [= <-]. rewrite F3, tset_same. done.
  - destruct (Hw _ _ Ht Hi) as (T1 & T2 & T3 & T4).
    rewrite (prio_turn_waiter _ _ _ _ _ Hst Hi).
    destruct (passed_raise t q p s Hp T1 T2 T3 Hi) as [Hpa Hqa].
    destruct (is_first t q (raise t q p s)) eqn:Ef.
    + destruct (IH map (raise t q p s) (holder t q s)) as (m' & s' & -> & I1 & I2 & I3).
      { by apply waits_ok_raise. }
      { destruct T4 as [|(u & ? & ?)]; eauto. }
      { pose proof (lower_raise t q p U s Ht Hp). lia. }
      exists m', s'. split_and!; [done|by eapply passed_trans| |].
      * intros x q' u Hc Hx Hi' Hfx Hh. destruct (decide (x = t)) as [->|Hne].
        { rewrite Hi in Hi'. injection Hi' as <-. by apply I3. }
        apply (I2 x q'); try done.
        { by rewrite raise_prio, decide_False. }
        { by rewrite (sw_state _ _ (raise_waits t q p s)). }
        { by rewrite (same_waits_inherits _ _ _ (raise_waits t q p s)). }
        { by rewrite (same_waits_holder _ _ _ _ (raise_waits t q p s)). }
      * intros u [= <-]. pose proof (passed_prio _ _ _ I1 t) as Hpt.
        rewrite raise_prio, decide_True in Hpt by done. lia.
    + exists map, (raise t q p s). split_and!; [done|done| |].
      * intros x q' u Hc Hx Hi' Hfx Hh. rewrite raise_prio in Hc.
        case_decide; [subst|done]. rewrite Hi in Hi'. injection Hi' as <-. congruence.
      * intros u [= <-]. rewrite raise_prio, decide_True; done.
  - assert (prio_turn t p map s = (Some (PTask t), map, tset set_priority t p s)) as ->.
    { unfold prio_turn. rewrite (sw_state _ _ (same_waits_prio t p s)), (proj2 (Z.eqb_neq _ _) Hst).
      by rewrite (same_waits_inherits _ _ _ (same_waits_prio t p s)), Hi. }
    rewrite Hend by (right; exists t; by rewrite tset_same).
    exists map, (tset set_priority t p s).
    destruct (passed_refl_prio t p s (or_intror Hi) Hp (tset set_priority t p s)); try done.
    { intros x. by apply (tset_field _ blocked_on). }
    split_and!; try done. intros u [= <-]. by rewrite tset_same.
Qed.

(** The tasks of the system: those in the task lists and the Linux tasks. *)
Definition all_tasks (s : kst) : list tid :=
  concat (map (fun c => Linux c :: tasklist s c) (seq 0 (NR_CPUS (tun s)))).

Lemma pass_fuel_enough p s : (length (lower p (all_tasks s) s) <= pass_fuel s)%nat.
Proof.
  etrans; [apply length_filter|]. unfold pass_fuel, all_tasks.
  induction (seq 0 _) as [|c l IH]; simpl; [lia|]. rewrite length_app. lia.
Qed.

Lemma pass_prio_ok to from s :
  waits_ok (all_tasks s) s ->
  (to = NULL \/ exists u, u ∈ all_tasks s /\ to = PTask u) ->
  let p := priority (tasks s from) in
  exists map s', pass_prio to from s = Done map s' /\
    (forall u, to = PTask u -> priority (tasks s' u) <= p) /\
    passed p s s' /\ chain_raised p s s'.
Proof.
  intros Hw Hto p.
  destruct (pass_prio_loop_spec (pass_fuel s) (all_tasks s) p 0 s to Hw Hto (pass_fuel_enough p s))
    as (m & s' & H1 & H2 & H3 & H4).
  by exists m, s'.
Qed.

(** C2.  Priority inheritance.  When every waiter is in the queue it is
    blocked on and every holder is a task of the system, [pass_prio] always
    returns, and then: the task it was called for is no lower than the caller;
    every priority is as it was or has been raised to the caller's; each queue
    has the same waiters, and a queue of inheriting waiters that was in order
    is in order again; and whoever holds what a raised waiter at the head of
    its queue waits for is no lower than the caller either. *)
Theorem pass_prio_spec to from s :
  waits_ok (all_tasks s) s ->
  (to = NULL \/ exists u, u ∈ all_tasks s /\ to = PTask u) ->
  let p := priority (tasks s from) in
  exists map s', pass_prio to from s = Done map s' /\
    (forall u, to = PTask u -> priority (tasks s' u) <= p) /\
    passed p s s' /\ chain_raised p s s'.
Proof. apply pass_prio_ok. Qed.

(** ** Concrete states

    A machine with one processor and idle tasks, from which the instances of
    the theorems are built. *)

Definition idle_task : RT_TASK :=
  MkTask RT_TASK_MAGIC RT_SCHED_READY 0 0 0 0 0 NULL 0 RTAI_TIME_LIMIT RTAI_TIME_LIMIT 0 0 0 0 0
    NULL NULL NULL (Word 0) 0 None 0 0 0 1 0 0 0 [] (Mcb 0 0 0 0) (Mcb 0 0 0 0) None 0 0 (0, 0).
Definition linux_task : RT_TASK :=
  set_priority RT_SCHED_LINUX_PRIORITY (set_is_hard 0 (set_lnxtsk (Some 1) idle_task)).
Definition free_sem : SEM := MkSem 0 0 0 0 NULL 0.
Definition idle_kst : kst :=
  MkKst 0 1000 (fun t => match t with Linux _ => linux_task | _ => idle_task end)
    (fun _ => free_sem)
    (fun _ => []) (fun _ => []) (fun _ => []) (fun _ => []) Linux (fun _ => 0) (fun _ => 0)
    (fun _ => MkTimes 0 RTAI_TIME_LIMIT RTAI_TIME_LIMIT 0) (fun _ => 0) (fun _ => None)
    (fun _ => MkScheduling 0 0) (fun _ => 0)
    (fun _ => MkKlist 0 0 (fun _ => None)) (fun _ => MkKlist 0 0 (fun _ => None)) []
    (fun _ => MkMbx 0 None None (MkMbxbuf 0 0 0 0 0 []))
    (fun _ => MkSpl None 0 0) (fun _ => 0) (fun _ => []) [] [] Linux (fun _ => None) 0
    (MkTun 1000000000 10 5 2000000000 2000000000 1000000000 0 0 1 1).

(** Tasks [Tsk n] of the given priorities, states and times. *)
Definition with_tasks (l : list (nat * (RT_TASK -> RT_TASK))) (s : kst) : kst :=
  foldl (fun s p => set_tasks (<[Tsk p.1 := p.2 (tasks s (Tsk p.1))]> (tasks s)) s) s l.

(** Two waiters of priority 5, and one of priority 7, when another of 5 comes. *)
Definition ex_queue : kst :=
  qset (QSem (Sem 0)) [Tsk 1; Tsk 2; Tsk 3]
    (with_tasks [(1%nat, set_priority 5); (2%nat, set_priority 5); (3%nat, set_priority 7);
                 (4%nat, set_priority 5)] idle_kst).

(** Decide a closed statement on lists of tasks. *)
Ltac list_goal :=
  repeat match goal with
  | |- _ /\ _ => split
  | |- forall x, x ∈ [] -> _ => let H := fresh in intros ? H; by apply elem_of_nil in H
  | |- forall x, x ∈ _ :: _ -> _ =>
      let x := fresh "x" in let H := fresh in
      intros x H; apply elem_of_cons in H as [->|H]; [|revert x H]
  | |- StronglySorted _ [] => apply SSorted_nil
  | |- StronglySorted _ (_ :: _) => apply SSorted_cons
  | |- Forall _ [] => apply Forall_nil_2
  | |- Forall _ (_ :: _) => apply Forall_cons_2
  | |- NoDup _ => apply (bool_decide_unpack _); vm_compute; exact I
  end.


(** Task 1 is due, task 2 is not. *)
Definition ex_timed : kst :=
  set_smp_time_h (fun _ => 1000) (dset 0 [Tsk 1; Tsk 2] (rset 0 [Tsk 3]
    (with_tasks [(1%nat, fun t => set_priority 5 (set_resume_time 900 (set_state 5 t)));
                 (2%nat, fun t => set_priority 2 (set_resume_time 2000 (set_state 5 t)));
                 (3%nat, set_priority 7)] idle_kst))).


(** Task 1 owns semaphore 0, task 2 waits for it and owns semaphore 1, which
    task 3, the highest, asks for. *)
Definition ex_chain : kst :=
  let res o := MkSem 0x3f83ebb 1 1 0 (PTask o) 0 in
  set_tasklist (fun _ => [Tsk 1; Tsk 2; Tsk 3]) (rset 0 [Tsk 3; Tsk 1]
    (qset (QSem (Sem 0)) [Tsk 2]
      (set_sems (<[Sem 0 := res (Tsk 1)]> (<[Sem 1 := res (Tsk 2)]> (fun _ => free_sem)))
        (with_tasks [(1%nat, set_priority 9);
           (2%nat, fun t => set_priority 8 (set_blocked_on (PQueue (QSem (Sem 0))) (set_state 9 t)));
           (3%nat, set_priority 3)] idle_kst)))).

Lemma pass_prio_spec_witness :
  match pass_prio (PTask (Tsk 2)) (Tsk 3) ex_chain with
  | Done _ s' => priority (tasks s' (Tsk 2)) = 3 /\ priority (tasks s' (Tsk 1)) = 3
                 /\ ready s' 0%nat = [Tsk 3; Tsk 1]
  | _ => False
  end /\
  exists map s', pass_prio (PTask (Tsk 2)) (Tsk 3) ex_chain = Done map s' /\
    priority (tasks s' (Tsk 2)) <= 3 /\ chain_raised 3 ex_chain s'.
Proof.
  split; [vm_compute; done|].
  destruct (pass_prio_spec (PTask (Tsk 2)) (Tsk 3) ex_chain) as (m & s' & H1 & H2 & H3 & H4).
  - unfold waits_ok. vm_compute (all_tasks _).
    assert (inherits (Linux 0) ex_chain = None /\ inherits (Tsk 1) ex_chain = None /\
            inherits (Tsk 2) ex_chain = Some (QSem (Sem 0)) /\ inherits (Tsk 3) ex_chain = None)
      as (E0 & E1 & E2 & E3) by (vm_compute; done).
    intros t q Ht. repeat (apply elem_of_cons in Ht as [->|Ht]; [|]); rewrite ?E0, ?E1, ?E2, ?E3;
      try done; [|by apply elem_of_nil in Ht].
    intros [= <-]. split_and!.
    + by apply list_elem_of_here.
    + vm_compute (queues _ _). list_goal.
    + intros q' Hq. cbn. rewrite fn_lookup_insert_ne by done. apply not_elem_of_nil.
    + right. exists (Tsk 1). split; [set_solver|done].
  - right. exists (Tsk 2). split; [|done]. vm_compute (all_tasks _). set_solver.
  - exists m, s'. split; [exact H1|]. split; [by apply H2|exact H4].
Defined.
