(* ===== verification/Queue.v ===== *)
(** * The chains as the code links them: rtai_schedcore.h.

    [Kernel] holds a circular list of control blocks as the list of its
    elements.  Here are the links themselves, the assignments that link and
    unlink a block, and the walks that look for its place; they do on the links
    what the list operations do on the lists. *)

From S2P Require Import Prelude Resume MbxRing Kernel KernelFacts.
From stdpp Require Import list sets.
#[local] Open Scope Z_scope.

(** ** Links

    A block of a circular list: its head, or the [QUEUE] of a task (or, on the
    ready and timed chains, the task itself). *)
Section links.
Context {H : Type} `{EqDecision H}.
Definition node : Type := H + tid.
Record links := MkLinks { next : node -> node; prev : node -> node }.
Implicit Types (k : links) (n p q : node) (l : list tid).

Definition set_next n v k : links := MkLinks (<[n := v]> (next k)) (prev k).
Definition set_prev n v k : links := MkLinks (next k) (<[n := v]> (prev k)).

(** [q->prev = (n->prev = q->prev)->next = n; n->next = q;] *)
Definition link_before n q k : links :=
  let p := prev k q in
  let k := set_prev n p k in
  let k := set_next p n k in
  let k := set_prev q n k in
  set_next n q k.

(** [(n->prev)->next = n->next; (n->next)->prev = n->prev;] *)
Definition unlink_node n k : links :=
  let k := set_next (prev k n) (next k n) k in
  set_prev (next k n) (prev k n) k.

(** ** The walks *)

(** [enqueue_blocked]: [while ((q = q->next) != queue && (q->task)->priority <= task->priority)];
    another head has no task to look at. *)
Fixpoint prio_walk (fuel : nat) (prio : tid -> Z) (t : tid) (queue : H) (q : node) k : option node :=
  match fuel with
  | O => None
  | S fuel =>
      let q := next k q in
      if decide (q = inl queue) then Some q
      else match q with
           | inr x => if prio x <=? prio t then prio_walk fuel prio t queue q k else Some q
           | inl _ => None
           end
  end.

(** [enq_ready_task]: the loop breaks at a negative priority. *)
Fixpoint ready_walk (fuel : nat) (prio : node -> Z) (t : tid) (task : node) k : option node :=
  match fuel with
  | O => None
  | S fuel =>
      if prio task <=? prio (inr t) then
        let task := next k task in
        if prio task <? 0 then Some task else ready_walk fuel prio t task k
      else Some task
  end.

(** [enq_ready_edf_task]. *)
Fixpoint edf_walk (fuel : nat) (pol per : node -> Z) (t : tid) (task : node) k : option node :=
  match fuel with
  | O => None
  | S fuel =>
      if (pol task <? 0) && (per task <=? per (inr t)) then edf_walk fuel pol per t (next k task) k
      else Some task
  end.

(** [enq_timed_task]. *)
Fixpoint timed_walk (fuel : nat) (time : node -> Z) (t : tid) (task : node) k : option node :=
  match fuel with
  | O => None
  | S fuel =>
      if time task <? time (inr t) then timed_walk fuel time t (next k task) k else Some task
  end.

(** ** Representation

    From [x] the links lead through [l] to [y] and back. *)
Fixpoint seg k (x : node) l (y : node) : Prop :=
  match l with
  | [] => next k x = y /\ prev k y = x
  | z :: l => next k x = inr z /\ prev k (inr z) = x /\ seg k (inr z) l y
  end.

(** Every head leads through its list and back to itself, and no block is in
    two lists, or twice in one. *)
Record linked (L : H -> list tid) k : Prop := {
  lk_ring : forall h, seg k (inl h) (L h) (inl h);
  lk_nodup : forall h, NoDup (L h);
  lk_disj : forall h h' t, t ∈ L h -> t ∈ L h' -> h = h'
}.

Lemma seg_app k x l1 z l2 y : seg k x (l1 ++ z :: l2) y <-> seg k x l1 (inr z) /\ seg k (inr z) l2 y.
Proof. revert x. induction l1 as [|a l1 IH]; intros x; simpl; [tauto|]. rewrite IH. tauto. Qed.

(** A segment is kept when the links of its blocks are. *)
Lemma seg_ext k k' x l y :
  (forall n, n = x \/ n ∈ inr <$> l -> next k' n = next k n) ->
  (forall n, n = y \/ n ∈ inr <$> l -> prev k' n = prev k n) ->
  seg k x l y -> seg k' x l y.
Proof.
  revert x. induction l as [|z l IH]; intros x Hn Hp; simpl.
  - rewrite Hn, Hp by auto. done.
  - rewrite Hn, Hp by (auto; right; apply elem_of_cons; auto). intros (? & ? & Hs). split_and!; try done.
    apply IH; [| |done]; intros n Hin; [apply Hn|apply Hp]; rewrite fmap_cons, elem_of_cons; tauto.
Qed.

Lemma elem_of_inr t l : (inr t : node) ∈ inr <$> l <-> t ∈ l.
Proof. rewrite list_elem_of_fmap. split; [by intros (? & [= ->] & ?)|eauto]. Qed.
Lemma not_inl_inr (h : H) l : (inl h : node) ∉ inr <$> l.
Proof. rewrite list_elem_of_fmap. by intros (? & ? & ?). Qed.

(** The first block of a segment. *)
Lemma seg_next k x l y : seg k x l y -> next k x = match l with [] => y | z :: _ => inr z end.
Proof. destruct l; simpl; tauto. Qed.

(** ** Cutting a segment in two *)

Definition first (l : list tid) (y : node) : node := match l with [] => y | z :: _ => inr z end.
Definition final (x : node) (l : list tid) : node := match last l with Some z => inr z | None => x end.

(** The links from [x] to the last block of [l]. *)
Fixpoint path k (x : node) l : Prop :=
  match l with
  | [] => True
  | z :: l => next k x = inr z /\ prev k (inr z) = x /\ path k (inr z) l
  end.
(** The links behind the first block of [l]. *)
Definition back k l (y : node) : Prop := match l with [] => True | z :: l => seg k (inr z) l y end.

Lemma final_cons x z l : final x (z :: l) = final (inr z) l.
Proof. unfold final. rewrite last_cons. by destruct (last l). Qed.

Lemma final_elem x l : final x l = x /\ l = [] \/ exists z, final x l = inr z /\ z ∈ l.
Proof.
  unfold final. destruct (last l) as [z|] eqn:E.
  - right. exists z. split; [done|]. by apply last_Some_elem_of.
  - left. by apply last_None in E.
Qed.
Lemma first_elem l y : first l y = y /\ l = [] \/ exists z, first l y = inr z /\ z ∈ l.
Proof. destruct l as [|z l]; [by left|right]. exists z. split; [done|]. apply elem_of_cons. by left. Qed.

Lemma seg_cut k x l1 l2 y :
  seg k x (l1 ++ l2) y <->
  path k x l1 /\ next k (final x l1) = first l2 y /\ prev k (first l2 y) = final x l1 /\ back k l2 y.
Proof.
  revert x. induction l1 as [|z l1 IH]; intros x.
  - change (final x []) with x. destruct l2; simpl; tauto.
  - rewrite final_cons. simpl. rewrite IH. tauto.
Qed.

(** Changing the links between [p] and [q], and those of [t], leaves the
    segment up to [p] and the one from [q] on alone. *)
Section frame.
Context (k k' : links) (t : tid) (p q : node).
Context (Hn : forall n, n <> inr t -> n <> p -> next k' n = next k n).
Context (Hp : forall n, n <> inr t -> n <> q -> prev k' n = prev k n).

Lemma path_frame x l :
  p = final x l -> (x = inr t -> False) -> t ∉ l -> NoDup l -> (forall z, x = inr z -> z ∉ l) ->
  (forall z, q = inr z -> z ∉ l) -> path k x l -> path k' x l.
Proof using Hn Hp.
  revert x. induction l as [|z l IH]; intros x -> Hx Ht Hnd Hxl Hq; simpl; [done|].
  apply not_elem_of_cons in Ht as [Hzt Ht]. apply NoDup_cons in Hnd as [Hz Hnd].
  rewrite final_cons in Hn. intros (E1 & E2 & Hpa). rewrite Hn, Hp; [| | |done|].
  - split_and!; [done|done|]. apply IH; try done.
    + by rewrite final_cons.
    + by intros [= ->].
    + by intros ? [= <-].
    + intros w Hw. specialize (Hq w Hw). set_solver.
  - congruence.
  - intros <-. by apply (Hq z eq_refl), list_elem_of_here.
  - intros ->. destruct (final_elem (inr z) l) as [[E ->]|(w & E & Hw)]; rewrite E in Hxl;
      [apply (Hxl z eq_refl)|apply (Hxl w eq_refl)]; set_solver.
Qed.

Lemma back_frame l y :
  (y = inr t -> False) -> q = first l y -> t ∉ l -> NoDup l -> (forall z, p = inr z -> z ∉ l) ->
  (forall h : H, p = inl h -> True) -> (forall z, y = inr z -> z ∉ l) -> back k l y -> back k' l y.
Proof using Hn Hp.
  intros Hy -> Ht Hnd Hpl _ Hyl. destruct l as [|z l]; [done|]. cbn [first back] in *.
  apply NoDup_cons in Hnd as [Hz Hnd]. apply seg_ext.
  - intros n Hin. assert (exists w, n = inr w /\ w ∈ z :: l) as (w & -> & Hw).
    { destruct Hin as [->|Hin]; [exists z; set_solver|]. apply list_elem_of_fmap in Hin as (w & -> & ?).
      exists w. set_solver. }
    apply Hn; [intros [= ->]; done|]. intros <-. by apply (Hpl w).
  - intros n Hin. apply Hp; intros ->.
    + destruct Hin as [Hin|Hin]; [by apply Hy|]. apply elem_of_inr in Hin. set_solver.
    + destruct Hin as [Hin|Hin]; [apply (Hyl z); [done|set_solver]|]. by apply elem_of_inr in Hin.
Qed.
End frame.

(** What [link_before] changes. *)
Lemma next_link n q k x : n <> q -> n <> prev k q ->
  next (link_before n q k) x = if decide (x = n) then q else if decide (x = prev k q) then n else next k x.
Proof.
  intros Hq Hp. unfold link_before. cbn. unfold insert, fn_insert. repeat case_decide; congruence.
Qed.
Lemma prev_link n q k x : n <> q -> n <> prev k q ->
  prev (link_before n q k) x = if decide (x = q) then n else if decide (x = n) then prev k q else prev k x.
Proof.
  intros Hq Hp. unfold link_before. cbn. unfold insert, fn_insert. repeat case_decide; congruence.
Qed.
Lemma next_unlink n k x : prev k n <> n -> next k n <> n ->
  next (unlink_node n k) x = if decide (x = prev k n) then next k n else next k x.
Proof.
  intros Hp Hn. unfold unlink_node. cbn. unfold insert, fn_insert. repeat case_decide; congruence.
Qed.
Lemma prev_unlink n k x : prev k n <> n -> next k n <> n ->
  prev (unlink_node n k) x = if decide (x = next k n) then prev k n else prev k x.
Proof.
  intros Hp Hn. unfold unlink_node. cbn. unfold insert, fn_insert. repeat case_decide; congruence.
Qed.

(** ** Linking and unlinking in one list *)

Lemma link_seg k (h : H) l1 l2 t :
  seg k (inl h) (l1 ++ l2) (inl h) -> NoDup (l1 ++ l2) -> t ∉ l1 ++ l2 ->
  let k' := link_before (inr t) (first l2 (inl h)) k in
  seg k' (inl h) (l1 ++ t :: l2) (inl h) /\
  forall n, n <> inr t -> n <> inl h -> n ∉ inr <$> (l1 ++ l2) -> next k' n = next k n /\ prev k' n = prev k n.
Proof.
  intros Hs Hnd Ht k'. set (q := first l2 (inl h)) in *.
  apply seg_cut in Hs as (Hs1 & Hpq & Hqp & Hs2). fold q in Hpq, Hqp.
  apply NoDup_app in Hnd as (Hnd1 & Hdis & Hnd2). apply not_elem_of_app in Ht as [Ht1 Ht2].
  pose proof (final_elem (inl h) l1) as Hf. pose proof (first_elem l2 (inl h)) as Hfi. fold q in Hfi.
  assert (inr t <> q) as Hq by (destruct Hfi as [[-> _]|(z & -> & ?)]; congruence).
  assert (inr t <> prev k q) as Hp by (rewrite Hqp; destruct Hf as [[-> _]|(z & -> & ?)]; congruence).
  assert (forall n, n <> inr t -> n <> final (inl h) l1 -> next k' n = next k n) as Hn'.
  { intros n ??. unfold k'. rewrite next_link by done. rewrite Hqp. by rewrite !decide_False. }
  assert (forall n, n <> inr t -> n <> q -> prev k' n = prev k n) as Hp'.
  { intros n ??. unfold k'. rewrite prev_link by done. by rewrite !decide_False. }
  assert (forall z, q = inr z -> z ∈ l2) as Hqz by (intros z; destruct Hfi as [[-> _]|(? & -> & ?)]; congruence).
  assert (forall z, final (inl h) l1 = inr z -> z ∈ l1) as Hfz by (intros z; destruct Hf as [[-> _]|(? & -> & ?)]; congruence).
  split.
  - rewrite seg_cut. cbn [first back].
    assert (seg k' (inr t) l2 (inl h)) as Hb.
    { apply (seg_cut k' (inr t) [] l2 (inl h)). change (final (inr t) []) with (inr t : node). fold q.
      split; [done|]. unfold k'. rewrite next_link, prev_link by done. rewrite !decide_True by done.
      split_and!; [done|done|]. apply (back_frame k k' t (final (inl h) l1) q Hn' Hp'); try done.
      intros z Hz. intros Hz2. by apply (Hdis z); [apply Hfz|]. }
    split_and!; [|..|done].
    + apply (path_frame k k' t (final (inl h) l1) q Hn' Hp'); try done.
      intros z Hz Hz1. apply (Hdis z Hz1). by apply Hqz.
    + unfold k'. rewrite next_link by done. rewrite Hqp. rewrite decide_False, decide_True; [done|done|].
      intros E. rewrite E in Hqp. by rewrite Hqp in Hp.
    + unfold k'. rewrite prev_link by done. rewrite decide_False, decide_True by done. done.
  - intros n Hnt Hnh Hnl. split; [apply Hn'|apply Hp']; try done; intros ->; apply Hnl.
    + destruct Hf as [[E _]|(z & E & Hz)]; [congruence|]. rewrite E. apply elem_of_inr, elem_of_app. by left.
    + destruct Hfi as [[E _]|(z & E & Hz)]; [congruence|]. rewrite E. apply elem_of_inr, elem_of_app. by right.
Qed.

Lemma unlink_seg k (h : H) l1 l2 t :
  seg k (inl h) (l1 ++ t :: l2) (inl h) -> NoDup (l1 ++ t :: l2) ->
  let k' := unlink_node (inr t) k in
  seg k' (inl h) (l1 ++ l2) (inl h) /\
  forall n, n <> inl h -> n ∉ inr <$> (l1 ++ l2) -> next k' n = next k n /\ prev k' n = prev k n.
Proof.
  intros Hs Hnd k'. set (q := first l2 (inl h)) in *. set (p := final (inl h) l1).
  apply seg_cut in Hs as (Hs1 & Hpt & Htp & Hs2). cbn [first back] in *. fold p in Hpt, Htp.
  change l2 with ([] ++ l2) in Hs2. apply seg_cut in Hs2 as (_ & Htq & Hqt & Hs2).
  unfold final in Htq, Hqt. cbn in Htq, Hqt. fold q in Htq, Hqt.
  apply NoDup_app in Hnd as (Hnd1 & Hdis & Hnd2). apply NoDup_cons in Hnd2 as [Ht2 Hnd2].
  assert (t ∉ l1) as Ht1 by (intros ?; apply (Hdis t); set_solver).
  pose proof (final_elem (inl h) l1) as Hf. pose proof (first_elem l2 (inl h)) as Hfi. fold q in Hfi. fold p in Hf.
  assert (prev k (inr t) <> inr t) as Hp by (rewrite Htp; destruct Hf as [[-> _]|(z & -> & ?)]; congruence).
  assert (next k (inr t) <> inr t) as Hn by (rewrite Htq; destruct Hfi as [[-> _]|(z & -> & ?)]; congruence).
  assert (forall n, n <> p -> next k' n = next k n) as Hn'.
  { intros n ?. unfold k'. rewrite next_unlink by done. rewrite Htp. by rewrite decide_False. }
  assert (forall n, n <> q -> prev k' n = prev k n) as Hp'.
  { intros n ?. unfold k'. rewrite prev_unlink by done. rewrite Htq. by rewrite decide_False. }
  assert (forall z, q = inr z -> z ∈ l2) as Hqz by (intros z; destruct Hfi as [[-> _]|(? & -> & ?)]; congruence).
  assert (forall z, p = inr z -> z ∈ l1) as Hfz by (intros z; destruct Hf as [[-> _]|(? & -> & ?)]; congruence).
  split.
  - rewrite seg_cut. fold p q. split_and!.
    + apply (path_frame k k' t p q); try done; [auto|auto|].
      intros z Hz Hz1. apply (Hdis z Hz1). apply list_elem_of_further. by apply Hqz.
    + unfold k'. rewrite next_unlink by done. by rewrite Htp, decide_True.
    + unfold k'. rewrite prev_unlink by done. by rewrite Htq, decide_True.
    + apply (back_frame k k' t p q); try done; [auto|auto|].
      intros z Hz Hz2. apply (Hdis z); [by apply Hfz|by apply list_elem_of_further].
  - intros n Hnh Hnl. split; [apply Hn'|apply Hp']; intros ->; apply Hnl.
    + destruct Hf as [[E _]|(z & E & Hz)]; [congruence|]. rewrite E. apply elem_of_inr, elem_of_app. by left.
    + destruct Hfi as [[E _]|(z & E & Hz)]; [congruence|]. rewrite E. apply elem_of_inr, elem_of_app. by right.
Qed.

(** ** In all the lists *)

Lemma linked_link L k h l1 l2 t :
  linked L k -> L h = l1 ++ l2 -> (forall h', t ∉ L h') ->
  linked (<[h := l1 ++ t :: l2]> L) (link_before (inr t) (first l2 (inl h)) k).
Proof.
  intros [Hr Hn Hd] Hl Ht. pose proof (Hr h) as Hs. pose proof (Hn h) as Hnd. pose proof (Ht h) as Hth.
  rewrite Hl in Hs, Hnd, Hth. destruct (link_seg k h l1 l2 t Hs Hnd Hth) as [H1 H2].
  set (k' := link_before _ _ k) in *.
  split.
  - intros h'. destruct (decide (h' = h)) as [->|Hne]; [by rewrite fn_lookup_insert|].
    rewrite fn_lookup_insert_ne by done. generalize (Hr h').
    assert (forall n, n = inl h' \/ n ∈ inr <$> L h' -> n <> inr t /\ n <> inl h /\ n ∉ inr <$> (l1 ++ l2)) as Hout.
    { intros n [->|Hin]; [split_and!; [done|congruence|apply not_inl_inr]|].
      apply list_elem_of_fmap in Hin as (z & -> & Hz). split_and!; [intros [= ->]; by apply (Ht h')|done|].
      rewrite elem_of_inr, <- Hl. intros Hz'. by apply Hne, (Hd h' h z). }
    apply seg_ext; intros n Hin; destruct (Hout n Hin) as (? & ? & ?); by apply H2.
  - intros h'. destruct (decide (h' = h)) as [->|Hne]; [|by rewrite fn_lookup_insert_ne].
    rewrite fn_lookup_insert. rewrite <- Permutation_middle. by apply NoDup_cons.
  - intros h1 h2 z. assert (forall h' z, z ∈ <[h:=l1 ++ t :: l2]> L h' -> z = t /\ h' = h \/ z ∈ L h') as Hz.
    { intros h' w. destruct (decide (h' = h)) as [->|Hne]; [|rewrite fn_lookup_insert_ne by done; tauto].
      rewrite fn_lookup_insert, <- Permutation_middle, elem_of_cons, Hl. tauto. }
    intros [[-> ->]|?]%Hz [[? ->]|?]%Hz; [done|by destruct (Ht h2)|subst; by destruct (Ht h1)|by apply (Hd h1 h2 z)].
Qed.

Lemma linked_unlink L L' k t :
  linked L k -> (exists h, t ∈ L h) -> (forall h, L' h = unlink t (L h)) ->
  linked L' (unlink_node (inr t) k).
Proof.
  intros [Hr Hn Hd] [h Ht] HL. apply list_elem_of_split in Ht as (l1 & l2 & Hl).
  pose proof (Hr h) as Hs. pose proof (Hn h) as Hnd. rewrite Hl in Hs, Hnd.
  destruct (unlink_seg k h l1 l2 t Hs Hnd) as [H1 H2].
  assert (forall h', h' <> h -> t ∉ L h') as Hot.
  { intros h' Hne Hin. apply Hne, (Hd h' h t Hin). rewrite Hl. set_solver. }
  split.
  - intros h'. rewrite HL. destruct (decide (h' = h)) as [->|Hne].
    + apply NoDup_app in Hnd as (? & Hdis & [Ht2 _]%NoDup_cons). rewrite Hl, unlink_app, unlink_head, unlink_notin; [done| |done].
      intros ?. apply (Hdis t); set_solver.
    + rewrite unlink_notin by auto. generalize (Hr h'). apply seg_ext; intros n Hin; apply H2.
      1, 3: destruct Hin as [->|Hin]; [congruence|apply list_elem_of_fmap in Hin as (z & -> & ?); done].
      all: destruct Hin as [->|Hin]; [apply not_inl_inr|].
      all: apply list_elem_of_fmap in Hin as (z & -> & Hz); rewrite elem_of_inr; intros Hz'; apply Hne, (Hd h' h z Hz);
        rewrite Hl; set_solver.
  - intros h'. rewrite HL. by apply unlink_nodup.
  - intros h1 h2 z. rewrite !HL, !elem_of_unlink. intros [? ?] [? ?]. by apply (Hd h1 h2 z).
Qed.

(** ** The walks find the place

    Each looks at the blocks from the first on, and stops at the head at the
    latest. *)
Lemma prio_walk_ok prio t k h x l fuel :
  seg k x l (inl h) -> (length l < fuel)%nat ->
  exists l1 l2, l = l1 ++ l2 /\ prio_insert prio t l = l1 ++ t :: l2 /\
    prio_walk fuel prio t h x k = Some (first l2 (inl h)).
Proof.
  revert x fuel. induction l as [|z l IH]; intros x [|fuel] Hs Hf; simpl in Hf; try lia; cbn [prio_walk prio_insert].
  - destruct Hs as [-> _]. rewrite decide_True by done. by exists [], [].
  - destruct Hs as (-> & _ & Hs). rewrite decide_False by done. destruct (prio z <=? prio t).
    + destruct (IH (inr z) fuel Hs ltac:(lia)) as (l1 & l2 & -> & -> & ->). by exists (z :: l1), l2.
    + by exists [], (z :: l).
Qed.

Lemma timed_walk_ok (time : node -> Z) t k h x l fuel :
  time (inr t) <= time (inl h) -> seg k x l (inl h) -> (length l < fuel)%nat ->
  exists l1 l2, l = l1 ++ l2 /\ timed_insert (fun z => time (inr z)) t l = l1 ++ t :: l2 /\
    timed_walk fuel time t (next k x) k = Some (first l2 (inl h)).
Proof.
  intros Hh. revert x fuel. induction l as [|z l IH]; intros x [|fuel] Hs Hf; simpl in Hf; try lia;
    cbn [timed_walk timed_insert].
  - destruct Hs as [-> _]. rewrite (proj2 (Z.ltb_ge _ _)) by lia. by exists [], [].
  - destruct Hs as (-> & _ & Hs). destruct (time (inr z) <? time (inr t)).
    + destruct (IH (inr z) fuel Hs ltac:(lia)) as (l1 & l2 & -> & -> & ->). by exists (z :: l1), l2.
    + by exists [], (z :: l).
Qed.

Lemma edf_walk_ok (pol per : node -> Z) t k h x l fuel :
  0 <= pol (inl h) -> seg k x l (inl h) -> (length l < fuel)%nat ->
  exists l1 l2, l = l1 ++ l2 /\
    edf_insert (fun z => pol (inr z)) (fun z => per (inr z)) t l = l1 ++ t :: l2 /\
    edf_walk fuel pol per t (next k x) k = Some (first l2 (inl h)).
Proof.
  intros Hp. revert x fuel. induction l as [|z l IH]; intros x [|fuel] Hs Hf; simpl in Hf; try lia;
    cbn [edf_walk edf_insert].
  - destruct Hs as [-> _]. rewrite (proj2 (Z.ltb_ge _ _)) by lia. by exists [], [].
  - destruct Hs as (-> & _ & Hs). destruct (_ && _).
    + destruct (IH (inr z) fuel Hs ltac:(lia)) as (l1 & l2 & -> & -> & ->). by exists (z :: l1), l2.
    + by exists [], (z :: l).
Qed.

Lemma ready_walk_ok (prio : node -> Z) t k h x l fuel :
  0 <= prio (inl h) -> prio (inr t) < prio (inl h) -> seg k x l (inl h) -> (length l < fuel)%nat ->
  exists l1 l2, l = l1 ++ l2 /\ ready_insert (fun z => prio (inr z)) t l = l1 ++ t :: l2 /\
    ready_walk fuel prio t (next k x) k = Some (first l2 (inl h)).
Proof.
  intros Hp Ht. revert x fuel. induction l as [|z l IH]; intros x [|fuel] Hs Hf; simpl in Hf; try lia;
    cbn [ready_walk ready_insert].
  - destruct Hs as [-> _]. rewrite (proj2 (Z.leb_gt _ _)) by lia. by exists [], [].
  - destruct Hs as (-> & _ & Hs). destruct (prio (inr z) <=? prio (inr t)); [|by exists [], (z :: l)].
    destruct l as [|y l].
    + destruct Hs as [Hs _]. rewrite Hs, (proj2 (Z.ltb_ge (prio (inl h)) 0)) by lia.
      destruct fuel as [|fuel]; simpl in Hf; [lia|]. cbn [ready_walk].
      rewrite (proj2 (Z.leb_gt _ _)) by lia. by exists [z], [].
    + pose proof (seg_next _ _ _ _ Hs) as ->. destruct (prio (inr y) <? 0).
      * by exists [z], (y :: l).
      * destruct (IH (inr z) fuel Hs ltac:(lia)) as (l1 & l2 & E & E1 & E2).
        pose proof (seg_next _ _ _ _ Hs) as En. rewrite En in E2.
        exists (z :: l1), l2. rewrite E2, E1. split_and!; [by rewrite E|done|done].
Qed.
End links.
Arguments links : clear implicits.

(** ** The operations on the links *)

(** [enqueue_blocked]; a FIFO queue is entered before its head. *)
Definition enqueue_links (fuel : nat) (s : kst) (t : tid) (q : qid) (qt : Z) (k : links qid) : option (links qid) :=
  let head := inl q in
  match (if qt =? 0 then prio_walk fuel (fun x => priority (tasks s x)) t q head k else Some head) with
  | Some q => Some (link_before (inr t) q k)
  | None => None
  end.

(** A block of a ready or a timed chain is a task; the head is the Linux task. *)
Definition of_node {B} (s : kst) (f : RT_TASK -> B) (n : @node nat) : B :=
  f (tasks s (match n with inl c => Linux c | inr t => t end)).

Definition ready_links (fuel : nat) (s : kst) (t : tid) (k : links nat) : option (links nat) :=
  match ready_walk fuel (of_node s priority) t (next k (inl (runnable_on_cpus (tasks s t)))) k with
  | Some n => Some (link_before (inr t) n k)
  | None => None
  end.
Definition ready_edf_links (fuel : nat) (s : kst) (t : tid) (k : links nat) : option (links nat) :=
  match edf_walk fuel (of_node s policy) (of_node s period) t (next k (inl (runnable_on_cpus (tasks s t)))) k with
  | Some n => Some (link_before (inr t) n k)
  | None => None
  end.
Definition timed_links (fuel : nat) (s : kst) (t : tid) (k : links nat) : option (links nat) :=
  match timed_walk fuel (of_node s resume_time) t (next k (inl (runnable_on_cpus (tasks s t)))) k with
  | Some n => Some (link_before (inr t) n k)
  | None => None
  end.

(** * Properties *)

(** C22.  The wait queues of [Kernel] are what the links hold: when the links of all
    the queues lead through the lists, [enqueue_blocked] on the links finds the
    place within as many steps as there are waiters, and leaves links that lead
    through the lists [Kernel.enqueue_blocked] makes, in a priority and in a
    FIFO queue; [dequeue_blocked] on the links of a waiter gives the lists of
    [Kernel.dequeue_blocked]. *)
Theorem wait_queue_links t q qt s k :
  linked (queues s) k ->
  ((forall q', t ∉ queues s q') ->
     exists k', enqueue_links (S (length (queues s q))) s t q qt k = Some k' /\
       linked (queues (enqueue_blocked t q qt s)) k') /\
  ((exists q', t ∈ queues s q') -> linked (queues (dequeue_blocked t s)) (unlink_node (inr t) k)).
Proof.
  intros Hk. split; [intros Ht|intros Ht; by apply (linked_unlink (queues s))].
  unfold enqueue_links. change (queues (enqueue_blocked t q qt s)) with
    (<[q := if qt =? 0 then prio_insert (fun x => priority (tasks (tset set_blocked_on t (PQueue q) s) x)) t (queues s q)
            else queues s q ++ [t]]> (queues s)).
  destruct (qt =? 0).
  - rewrite (prio_insert_ext _ (fun x => priority (tasks s x)))
      by (intros x; by apply (tset_field set_blocked_on priority)).
    destruct (prio_walk_ok (fun x => priority (tasks s x)) t k q (inl q) (queues s q) (S (length (queues s q))))
      as (l1 & l2 & Hl & -> & ->); [apply Hk|lia|].
    eexists. split; [done|]. by apply linked_link.
  - eexists. split; [done|]. apply (linked_link (queues s) k q (queues s q) []); [done|by rewrite app_nil_r|done].
Qed.

(** C23.  The same of the ready and the timed chains: the walks of [enq_ready_task],
    [enq_ready_edf_task] and [enq_timed_task] end, at the head of the chain at
    the latest, and link the task where [Kernel] puts it in the lists; unlinking
    takes it out.  The Linux task, with its lowest priority, no deadline policy
    and its endless resume time, stops the walks. *)
Theorem chain_links t s kr kd :
  let c := runnable_on_cpus (tasks s t) in
  linked (ready s) kr -> linked (timed s) kd ->
  ((forall c', t ∉ ready s c') -> is_hard (tasks s t) <> 0 ->
     0 <= priority (tasks s (Linux c)) -> priority (tasks s t) < priority (tasks s (Linux c)) ->
     exists k', ready_links (S (length (ready s c))) s t kr = Some k' /\ linked (ready (enq_ready_task t s)) k') /\
  ((forall c', t ∉ ready s c') -> 0 <= policy (tasks s (Linux c)) ->
     exists k', ready_edf_links (S (length (ready s c))) s t kr = Some k' /\ linked (ready (enq_ready_edf_task t s)) k') /\
  ((forall c', t ∉ timed s c') -> resume_time (tasks s t) <= resume_time (tasks s (Linux c)) ->
     exists k', timed_links (S (length (timed s c))) s t kd = Some k' /\ linked (timed (enq_timed_task t s)) k') /\
  ((exists c', t ∈ ready s c') -> linked (ready (runlink t s)) (unlink_node (inr t) kr)) /\
  ((exists c', t ∈ timed s c') -> linked (timed (tunlink t s)) (unlink_node (inr t) kd)).
Proof.
  intros c Hkr Hkd.
  split_and!; [..|intros Hin; by apply (linked_unlink (ready s))|intros Hin; by apply (linked_unlink (timed s))].
  - intros Hn Hh H0 Hp. unfold ready_links, enq_ready_task. rewrite (proj2 (Z.eqb_neq _ _) Hh). cbn [negb]. fold c.
    destruct (ready_walk_ok (of_node s priority) t kr c (inl c) (ready s c) (S (length (ready s c))))
      as (l1 & l2 & E & E1 & ->); try done; [apply Hkr|lia|]. unfold of_node in E1. rewrite E1.
    eexists. split; [done|]. by apply (linked_link (ready s)).
  - intros Hn Hp. unfold ready_edf_links, enq_ready_edf_task. fold c.
    destruct (edf_walk_ok (of_node s policy) (of_node s period) t kr c (inl c) (ready s c) (S (length (ready s c))))
      as (l1 & l2 & E & E1 & ->); try done; [apply Hkr|lia|]. unfold of_node in E1. rewrite E1.
    eexists. split; [done|]. by apply (linked_link (ready s)).
  - intros Hn Hr. unfold timed_links, enq_timed_task. fold c.
    destruct (timed_walk_ok (of_node s resume_time) t kd c (inl c) (timed s c) (S (length (timed s c))))
      as (l1 & l2 & E & E1 & ->); try done; [apply Hkd|lia|]. unfold of_node in E1. rewrite E1.
    eexists. split; [done|]. by apply (linked_link (timed s)).
Qed.

(** ** Instances: the queue and the chains of three tasks *)

(** The links of one list, with the others empty. *)
Definition ring_links {H} `{EqDecision H} (h : H) (l : list tid) : links H :=
  foldl (fun k t => link_before (inr t) (inl h) k) (MkLinks (fun n => n) (fun n => n)) l.

Lemma linked_ext {H} `{EqDecision H} (L L' : H -> list tid) k : (forall h, L' h = L h) -> linked L k -> linked L' k.
Proof.
  intros HL [Hr Hn Hd]. split; [intros h; rewrite HL; apply Hr|intros h; rewrite HL; apply Hn|].
  intros h h' t. rewrite !HL. apply Hd.
Qed.

Lemma ring_links_linked {H} `{EqDecision H} (h : H) l :
  NoDup l -> linked (<[h := l]> (fun _ => [])) (ring_links h l).
Proof.
  induction l as [|t l IH] using rev_ind; intros Hnd.
  - split; intros *; unfold insert, fn_insert; case_decide; simpl; try done; try constructor; set_solver.
  - unfold ring_links. rewrite foldl_app. cbn [foldl]. fold (ring_links h l).
    apply NoDup_app in Hnd as (Hnd & Hdis & _).
    apply (linked_ext (<[h := l ++ [t]]> (<[h := l]> (fun _ => [])))).
    + intros h'. unfold insert, fn_insert. by case_decide.
    + apply (linked_link _ _ h l []); [by apply IH|by rewrite fn_lookup_insert, app_nil_r|].
      intros h'. unfold insert, fn_insert. case_decide; [|set_solver]. intros ?. by apply (Hdis t); [|set_solver].
Qed.

Lemma wait_queue_links_witness :
  exists k', enqueue_links 4 ex_queue (Tsk 4) (QSem (Sem 0)) 0 (ring_links (QSem (Sem 0)) [Tsk 1; Tsk 2; Tsk 3]) = Some k' /\
    linked (queues (enqueue_blocked (Tsk 4) (QSem (Sem 0)) 0 ex_queue)) k' /\
    next k' (inr (Tsk 2)) = inr (Tsk 4) /\ next k' (inr (Tsk 4)) = inr (Tsk 3).
Proof.
  destruct (wait_queue_links (Tsk 4) (QSem (Sem 0)) 0 ex_queue (ring_links (QSem (Sem 0)) [Tsk 1; Tsk 2; Tsk 3]))
    as [He _].
  - apply ring_links_linked. apply (bool_decide_unpack _). vm_compute. exact I.
  - destruct He as (k' & E & Hk').
    + intros q'. cbn. unfold insert, fn_insert. case_decide; set_solver.
    + exists k'. split; [exact E|]. split; [exact Hk'|].
      assert (exists k', enqueue_links 4 ex_queue (Tsk 4) (QSem (Sem 0)) 0
                (ring_links (QSem (Sem 0)) [Tsk 1; Tsk 2; Tsk 3]) = Some k' /\
              next k' (inr (Tsk 2)) = inr (Tsk 4) /\ next k' (inr (Tsk 4)) = inr (Tsk 3)) as (k2 & E2 & H2).
      { eexists. split; [reflexivity|]. split; vm_compute; reflexivity. }
      assert (Some k' = Some k2) as [= ->] by (rewrite <- E2; symmetry; exact E). exact H2.
Defined.

Lemma chain_links_witness :
  exists k', timed_links 3 (tset set_resume_time (Tsk 3) 1500 ex_timed) (Tsk 3) (ring_links 0%nat [Tsk 1; Tsk 2]) = Some k' /\
    linked (timed (enq_timed_task (Tsk 3) (tset set_resume_time (Tsk 3) 1500 ex_timed))) k'.
Proof.
  set (s := tset set_resume_time (Tsk 3) 1500 ex_timed).
  destruct (chain_links (Tsk 3) s (ring_links 0%nat [Tsk 3]) (ring_links 0%nat [Tsk 1; Tsk 2])) as (_ & _ & Ht & _).
  - apply (linked_ext (<[0%nat := [Tsk 3]]> (fun _ => []))); [reflexivity|].
    apply ring_links_linked. apply (bool_decide_unpack _). vm_compute. exact I.
  - apply (linked_ext (<[0%nat := [Tsk 1; Tsk 2]]> (fun _ => []))); [reflexivity|].
    apply ring_links_linked. apply (bool_decide_unpack _). vm_compute. exact I.
  - apply Ht.
    + intros c'. cbn. unfold insert, fn_insert. case_decide; set_solver.
    + vm_compute. discriminate.
Defined.
