(* ===== verification/Sched.v ===== *)
(** * The scheduler: sched.c.

    [rt_schedule] wakes the timed tasks that are due, takes the head of the
    ready chain, programs the timer and, when the choice is another task, gives
    the processor up: the rest of the caller runs when its task is current
    again. *)

From S2P Require Import Prelude Resume MbxRing Kernel.

(** ** Time conversions: rtai_hal.h and sched.c *)

(** [mulq]/[divq] on 64-bit registers; the quotient traps when it does not fit. *)
Definition rtai_imuldiv (i mult div : Z) : Z := i64 (u64 i * u64 mult / u64 div).
Definition imuldiv_traps (i mult div : Z) : bool :=
  (u64 div =? 0) || (2 ^ 64 <=? u64 i * u64 mult / u64 div).
Definition rtai_llimd (ll mult div : Z) : Z := rtai_imuldiv ll mult div.

Definition count2nano (tn : tunables) (counts : Z) : Z :=
  if 0 <=? counts then rtai_llimd counts 1000000000 (clock_freq tn)
  else - rtai_llimd (- counts) 1000000000 (clock_freq tn).
Definition nano2count (tn : tunables) (ns : Z) : Z :=
  if 0 <=? ns then rtai_llimd ns (clock_freq tn) 1000000000
  else - rtai_llimd (- ns) (clock_freq tn) 1000000000.

Definition rt_get_time (s : kst) : Z := tsc s.
Definition rt_get_time_ns (s : kst) : Z := rtai_llimd (tsc s) 1000000000 (clock_freq (tun s)).

(** ** Choosing the next task *)

(** The walk of a round robin yield: the task goes behind the following tasks
    of its own priority. *)
Fixpoint skip_same (prio : tid -> Z) (p : Z) (l : list tid) : list tid * list tid :=
  match l with
  | x :: l' => if prio x =? p then let '(a, b) := skip_same prio p l' in (x :: a, b) else ([], l)
  | [] => ([], [])
  end.
Fixpoint yield_move (prio : tid -> Z) (t : tid) (l : list tid) : list tid :=
  match l with
  | [] => []
  | x :: l' => if same x t then let '(a, b) := skip_same prio (prio t) l' in a ++ t :: b
               else x :: yield_move prio t l'
  end.
Definition yield_ready (t : tid) (s : kst) : kst :=
  let c := runnable_on_cpus (tasks s t) in
  rset c (yield_move (fun x => priority (tasks s x)) t (ready s c)) s.

Definition RR_YIELD (s : kst) : kst :=
  let c := cpuid s in
  let cur := rt_current s in
  if 0 <? policy (tasks s cur) then
    let tick := tick_time (smp_times s c) in
    if yield_time (tasks s cur) <=? tick then
      let s := tset set_rr_remaining cur (rr_quantum (tasks s cur)) s in
      if state (tasks s cur) =? RT_SCHED_READY then yield_ready cur s else s
    else tset set_rr_remaining cur (i32 (yield_time (tasks s cur) - tick)) s
  else s.

Definition TASK_TO_SCHEDULE (s : kst) : tid * kst :=
  let c := cpuid s in
  let new := rhead c s in
  let s := if 0 <? policy (tasks s new) then
             tset set_yield_time new (tick_time (smp_times s c) + rr_remaining (tasks s new)) s
           else s in
  (new, tset set_running new 1 s).

(** ** Programming the timer *)

(** The first task that resumes before [intr] and may preempt priority [prio]. *)
Fixpoint next_shot (s : kst) (intr prio : Z) (l : list tid) : option tid :=
  match l with
  | [] => None
  | t :: l' => if resume_time (tasks s t) <? intr then
                 if priority (tasks s t) <=? prio then Some t else next_shot s intr prio l'
               else None
  end.

(** Returns [fire_shot]. *)
Definition SET_NEXT_TIMER_SHOT (new : tid) (s : kst) : bool * kst :=
  let c := cpuid s in
  let prio := priority (tasks s new) in
  let '(fire, s) :=
    if (0 <? policy (tasks s new)) && (yield_time (tasks s new) <? intr_time (smp_times s c))
    then (true, times_set set_intr_time c (yield_time (tasks s new)) s) else (false, s) in
  match next_shot s (intr_time (smp_times s c)) prio (timed s c) with
  | Some t => (true, times_set set_intr_time c (resume_time (tasks s t) - schedlat (tasks s t)) s)
  | None => (fire, s)
  end.

Definition IF_GOING_TO_LINUX_CHECK_TIMER_SHOT (new : tid) (fire : bool) (s : kst) : bool * kst :=
  let c := cpuid s in
  if priority (tasks s new) =? RT_SCHED_LINUX_PRIORITY then
    if linux_time (smp_times s c) <? intr_time (smp_times s c) then
      (true, times_set set_intr_time c (linux_time (smp_times s c)) s)
    else (if shot_fired s c =? 0 then true else fire, s)
  else (fire, s).

(** The delay to program; the interrupt time is cut to the span of the timer. *)
Definition ONESHOT_DELAY (shot : Z) (s : kst) : Z * kst :=
  let c := cpuid s in
  let span := intr_time (smp_times s c) - smp_time_h s c in
  if shot =? 0 then
    if oneshot_span (tun s) <? span then
      (satdelay (tun s), times_set set_intr_time c (smp_time_h s c + oneshot_span (tun s)) s)
    else (i32 (i32 span - sched_latency (tun s)), s)
  else (i32 (i32 span - sched_latency (tun s)), s).

Definition rt_set_timer_delay (delay : Z) (s : kst) : kst :=
  if delay =? 0 then s else set_timer_delay (<[cpuid s := Some delay]> (timer_delay s)) s.
Definition set_shot (v : Z) (s : kst) : kst := set_shot_fired (<[cpuid s := v]> (shot_fired s)) s.

Definition FIRE_NEXT_TIMER_SHOT (shot : Z) (fire : bool) (s : kst) : kst :=
  if fire then
    let '(delay, s) := ONESHOT_DELAY shot s in
    if setup_time_TIMER_CPUNIT (tun s) <? delay then rt_set_timer_delay delay (set_shot 1 s)
    else
      times_set set_intr_time (cpuid s) (smp_time_h s (cpuid s) + setup_time_TIMER_CPUNIT (tun s))
        (set_shot (-1) s)
  else s.

(** [rt_times.tick_time >= rt_times.linux_time]: the Linux tick is due. *)
Definition SET_PEND_LINUX_TIMER_SHOT (s : kst) : kst :=
  let c := cpuid s in
  let tm := smp_times s c in
  if linux_time tm <=? tick_time tm then
    times_set set_linux_time c
      (if 0 <? linux_tick tm then linux_time tm + linux_tick tm else RTAI_TIME_LIMIT) s
  else s.

(** The head of [rt_schedule()]: the task to run, and the state it leaves. *)
Definition schedule_head (s : kst) : tid * kst :=
  let c := cpuid s in
  let s := RR_YIELD s in
  let s := set_smp_time_h (<[c := tsc s + smp_half_tick s c]> (smp_time_h s)) s in
  let s := wake_up_timed_tasks c s in
  let '(new, s) := TASK_TO_SCHEDULE s in
  let '(fire, s) := SET_NEXT_TIMER_SHOT new s in
  let '(fire, s) := IF_GOING_TO_LINUX_CHECK_TIMER_SHOT new fire s in
  (new, FIRE_NEXT_TIMER_SHOT (shot_fired s c) fire s).

(** The head of [rt_timer_handler()]. *)
Definition timer_head (s : kst) : tid * kst :=
  let c := cpuid s in
  let s := times_set set_tick_time c (tsc s) s in
  let s := set_smp_time_h (<[c := tick_time (smp_times s c) + smp_half_tick s c]> (smp_time_h s)) s in
  let s := SET_PEND_LINUX_TIMER_SHOT s in
  let s := RR_YIELD s in
  let s := wake_up_timed_tasks c s in
  let '(new, s) := TASK_TO_SCHEDULE s in
  let s := set_shot 0 s in
  let s := times_set set_intr_time c RTAI_TIME_LIMIT s in
  let '(fire, s) := SET_NEXT_TIMER_SHOT new s in
  let '(fire, s) := IF_GOING_TO_LINUX_CHECK_TIMER_SHOT new fire s in
  (new, FIRE_NEXT_TIMER_SHOT 0 fire s).

(** ** Switching *)

(** [CALL_TIMER_HANDLER()]: a shot that could not be programmed is served at once. *)
Definition CALL_TIMER_HANDLER (s : kst) : res kst unit :=
  if shot_fired s (cpuid s) <? 0 then stop TimerNow (set_shot 1 s) else Done tt s.

(** [enq_soft_ready_task]: in front of the ready chain of the processor. *)
Definition enq_soft_ready_task (t : tid) (s : kst) : kst :=
  let c := cpuid s in
  if same t (rhead c s) then s else rset c (t :: ready s c) s.

Definition set_current (t : tid) (s : kst) : kst :=
  set_smp_current (<[cpuid s := t]> (smp_current s)) s.

(** What a soft task does when Linux' [schedule()] comes back to it. *)
Definition soft_return (t : tid) (s : kst) : kst :=
  let s := tset set_state t (Z.lor (clear (state (tasks s t)) RT_SCHED_SFTRDY) RT_SCHED_READY) s in
  set_current t (enq_soft_ready_task t s).
Definition sched_soft (t : tid) (s : kst) : res kst unit :=
  sched* s := CALL_TIMER_HANDLER s in
  sched* s := stop LinuxSleep s in
  Done tt (soft_return t s).

(** Give the processor to [new]; the result is the state in which [cur] has it again. *)
Definition switch_to (new : tid) (s : kst) : res kst unit := stop Resched (set_current new s).

Definition pend_wake_up_hts (lnx : option Z) (c : nat) (s : kst) : kst :=
  set_wake_up_hts (<[c := klist_put (default 0 lnx) (wake_up_hts s c)]> (wake_up_hts s)) s.

(** [rt_schedule()]; [force] is what a hard task with [force_soft] set does when
    it is back.  A task that shares its Linux context with the kernel tasks
    ([lnxtsk] set) comes back through [_lxrt_context_switch] or through
    [switch_rtai_tasks]; it is ready in the second case. *)
Definition rt_schedule_with (force : tid -> kst -> res kst unit) (s : kst) : res kst unit :=
  let cur := rt_current s in
  let '(new, s) := schedule_head s in
  if same new cur then CALL_TIMER_HANDLER s
  else if negb (locked (scheduling s (cpuid s)) =? 0) then
    CALL_TIMER_HANDLER
      (set_scheduling (<[cpuid s := MkScheduling (locked (scheduling s (cpuid s))) 1]> (scheduling s)) s)
  else
    match lnxtsk (tasks s cur) with
    | None => sched* s := switch_to new s in CALL_TIMER_HANDLER s
    | Some _ =>
        if bool_decide (lnxtsk (tasks s new) = None)
           || (0 <? is_hard (tasks s new)) || (0 <? is_hard (tasks s cur)) then
          sched* s := switch_to new s in
          if is_hard (tasks s cur) <=? 0 then
            if negb (state (tasks s cur) =? RT_SCHED_READY) then sched_soft cur s
            else CALL_TIMER_HANDLER s
          else if negb (force_soft (tasks s cur) =? 0) then force cur s
          else CALL_TIMER_HANDLER s
        else sched_soft cur (set_current new s)
    end.

Definition rt_schedule_plain : kst -> res kst unit :=
  rt_schedule_with (fun _ s => CALL_TIMER_HANDLER s).

(** A task that leaves hard real time gets its base priority, and the current
    one when it is not inherited, above [BASE_SOFT_PRIORITY]. *)
Definition soft_priority (t : tid) (s : kst) : kst :=
  let s := if (priority (tasks s t) <? BASE_SOFT_PRIORITY)
              && (priority (tasks s t) =? base_priority (tasks s t))
           then tset set_priority t (priority (tasks s t) + BASE_SOFT_PRIORITY) s else s in
  if base_priority (tasks s t) <? BASE_SOFT_PRIORITY
  then tset set_base_priority t (base_priority (tasks s t) + BASE_SOFT_PRIORITY) s else s.

Definition force_current_soft (cur : tid) (s : kst) : res kst unit :=
  let c := cpuid s in
  let s := tset set_force_soft cur 0 s in
  let s := tset set_state cur (clear (state (tasks s cur)) RT_SCHED_READY) s in
  let s := pend_wake_up_hts (lnxtsk (tasks s cur)) c s in
  let s := runlink cur s in
  sched* s := rt_schedule_plain s in
  let s := soft_priority cur (tset set_is_hard cur 0 s) in
  sched* s := stop Unlocked s in
  let s := tset set_state cur (Z.lor (state (tasks s cur)) RT_SCHED_READY) s in
  let s := set_current cur s in
  if negb (state (tasks s cur) =? RT_SCHED_READY) then
    rt_schedule_plain (tset set_lnxstate cur TASK_SOFTREALTIME s)
  else Done tt (enq_soft_ready_task cur s).

Definition rt_schedule : kst -> res kst unit :=
  rt_schedule_with (fun cur s =>
    sched* s := force_current_soft cur s in CALL_TIMER_HANDLER s).

(** The handlers of the scheduling interrupt and of the timer: no soft wait,
    they return to the task they interrupted. *)
Definition irq_switch (cur new : tid) (s : kst) : res kst unit :=
  if same new cur then Done tt s
  else if negb (locked (scheduling s (cpuid s)) =? 0) then
    Done tt (set_scheduling (<[cpuid s := MkScheduling (locked (scheduling s (cpuid s))) 1]> (scheduling s)) s)
  else if bool_decide (lnxtsk (tasks s new) = None) || bool_decide (lnxtsk (tasks s cur) = None)
          || (0 <? is_hard (tasks s new)) || (0 <? is_hard (tasks s cur))
  then switch_to new s else Done tt s.

Definition rt_schedule_on_schedule_ipi (s : kst) : res kst unit :=
  let cur := rt_current s in
  let '(new, s) := schedule_head s in
  sched* s := irq_switch cur new s in CALL_TIMER_HANDLER s.

Definition rt_timer_handler (s : kst) : res kst unit :=
  let cur := rt_current s in
  let '(new, s) := timer_head s in
  sched* s := irq_switch cur new s in CALL_TIMER_HANDLER s.

(** ** Rescheduling after a wake-up: rtai_schedcore.h *)

Definition cpu_bit (c : nat) : Z := Z.shiftl 1 (Z.of_nat c).
Definition RT_SCHEDULE_MAP (map : Z) (s : kst) : kst :=
  if map =? 0 then s else send_sched_ipi map s.
Definition RT_SCHEDULE_MAP_BOTH (map : Z) (s : kst) : res kst unit :=
  rt_schedule (RT_SCHEDULE_MAP map s).
Definition RT_SCHEDULE (t : tid) (s : kst) : res kst unit :=
  let c := runnable_on_cpus (tasks s t) in
  if negb (c =? cpuid s)%nat then Done tt (send_sched_ipi (cpu_bit c) s) else rt_schedule s.
Definition RT_SCHEDULE_BOTH (t : tid) (s : kst) : res kst unit :=
  let c := runnable_on_cpus (tasks s t) in
  rt_schedule (if negb (c =? cpuid s)%nat then send_sched_ipi (cpu_bit c) s else s).
(** [if (test_and_clear_bit(rtai_cpuid(), &map)) RT_SCHEDULE_MAP_BOTH else RT_SCHEDULE_MAP]. *)
Definition RT_SCHEDULE_TAC (map : Z) (s : kst) : res kst unit :=
  if map =? 0 then Done tt s
  else if Z.testbit map (Z.of_nat (cpuid s)) then
    RT_SCHEDULE_MAP_BOTH (Z.clearbit map (Z.of_nat (cpuid s))) s
  else Done tt (RT_SCHEDULE_MAP map s).
Definition set_cpu_bit (t : tid) (map : Z) (s : kst) : Z :=
  Z.setbit map (Z.land (Z.of_nat (runnable_on_cpus (tasks s t))) 0x1F).

(** ** Deferring the scheduler *)

Definition rt_sched_lock (s : kst) : kst :=
  let c := cpuid s in
  let l := scheduling s c in
  set_scheduling (<[c := MkScheduling (locked l + 1) (if locked l =? 0 then 0 else rqsted l)]>
                    (scheduling s)) s.

Definition rt_sched_unlock (s : kst) : res kst unit :=
  let c := cpuid s in
  let l := scheduling s c in
  if locked l =? 0 then Done tt s
  else
    let n := locked l - 1 in
    if (n =? 0) && (0 <? rqsted l) then
      rt_schedule (set_scheduling (<[c := MkScheduling n 0]> (scheduling s)) s)
    else Done tt (set_scheduling (<[c := MkScheduling n (rqsted l)]> (scheduling s)) s).
