(* ===== verification/SchedFacts.v ===== *)
(** * Theorems on the scheduler: the choice of the next task, the timer, the
    deferral of switches and the conversion of times. *)

From Stdlib Require Import Sorting.Sorted.
From S2P Require Import Prelude Resume MbxRing Kernel KernelFacts Sched.
From stdpp Require Import list sets.
#[local] Open Scope Z_scope.

(** ** States with the same chains *)

(** [s'] differs from [s] in nothing the chains of processor [c] depend on. *)
Record same_chains (c : nat) (s s' : kst) : Prop := {
  sc_ready : ready s' c = ready s c;
  sc_timed : timed s' c = timed s c;
  sc_prio : forall x, priority (tasks s' x) = priority (tasks s x);
  sc_cpu : forall x, runnable_on_cpus (tasks s' x) = runnable_on_cpus (tasks s x);
  sc_state : forall x, state (tasks s' x) = state (tasks s x);
  sc_time : forall x, resume_time (tasks s' x) = resume_time (tasks s x);
  sc_lat : forall x, schedlat (tasks s' x) = schedlat (tasks s x);
  sc_hard : forall x, is_hard (tasks s' x) = is_hard (tasks s x);
  sc_policy : forall x, policy (tasks s' x) = policy (tasks s x);
  sc_cur : smp_current s' = smp_current s;
  sc_id : cpuid s' = cpuid s;
  sc_tun : tun s' = tun s
}.

#[export] Instance same_chains_preorder c : PreOrder (same_chains c).
Proof.
  split; [by intros s|]. intros s1 s2 s3 [] []. split; intros; congruence.
Qed.

(** The setters of a task that the chains do not depend on. *)
Lemma same_chains_tset {V} (f : V -> RT_TASK -> RT_TASK) c t v s :
  (forall r, let r' := f v r in
     priority r' = priority r /\ runnable_on_cpus r' = runnable_on_cpus r /\ state r' = state r /\
     resume_time r' = resume_time r /\ schedlat r' = schedlat r /\ is_hard r' = is_hard r /\
     policy r' = policy r) ->
  same_chains c s (tset f t v s).
Proof.
  intros Hf. split; try done; intros x; apply (tset_field f); intros r; apply Hf.
Qed.

Ltac solve_same_chains := apply same_chains_tset; intros ?; cbv zeta; by split_and!.

Lemma ready_ok_same c s s' : same_chains c s s' -> ready_ok c s -> ready_ok c s'.
Proof.
  intros [] []. split; rewrite sc_ready0; [done| |].
  - revert ready_ordered. by apply ordered_prio_ext.
  - intros x. rewrite sc_prio0, sc_cpu0, sc_state0. auto.
Qed.

Lemma timed_ok_same c s s' : same_chains c s s' -> timed_ok c s -> timed_ok c s'.
Proof.
  intros [] []. split; rewrite sc_timed0; [done| |].
  - revert timed_ordered. apply ordered_ext. by intros; rewrite sc_time0.
  - intros x. rewrite sc_prio0, sc_cpu0, sc_state0, sc_lat0. auto.
Qed.

(** ** Round robin *)

Lemma skip_same_app f p l a b : skip_same f p l = (a, b) -> l = a ++ b /\ forall x, x ∈ a -> f x = p.
Proof.
  revert a b. induction l as [|x l IH]; simpl; intros a b.
  - intros [= <- <-]. split; [done|by intros ? ?%elem_of_nil].
  - zcase; [|intros [= <- <-]; split; [done|by intros ? ?%elem_of_nil]].
    destruct (skip_same f p l) as [a' b'] eqn:Es. intros [= <- <-].
    destruct (IH _ _ eq_refl) as [-> Ha]. split; [done|]. intros y [->|]%elem_of_cons; auto.
Qed.

(** A yield moves the task behind the tasks of its priority that follow it. *)
Lemma yield_move_spec f t l :
  yield_move f t l = l \/
  exists l1 a b, l = l1 ++ (t :: a ++ b) /\ (t ∉ l1) /\ (forall x, x ∈ a -> f x = f t) /\
    yield_move f t l = l1 ++ a ++ t :: b.
Proof.
  induction l as [|x l IH]; simpl; [by left|].
  destruct (bool_decide _) eqn:E.
  - apply bool_decide_eq_true in E as ->. right.
    destruct (skip_same f (f t) l) as [a b] eqn:Es.
    destruct (skip_same_app _ _ _ _ _ Es) as [-> Ha]. exists [], a, b. split_and!; try done.
    by intros ?%elem_of_nil.
  - apply bool_decide_eq_false in E. destruct IH as [->|(l1 & a & b & -> & Ht & Ha & ->)]; [by left|].
    right. exists (x :: l1), a, b. split_and!; try done. rewrite not_elem_of_cons. split; [congruence|done].
Qed.

Lemma yield_move_perm f t l : yield_move f t l ≡ₚ l.
Proof.
  destruct (yield_move_spec f t l) as [->|(l1 & a & b & -> & _ & _ & ->)]; [done|].
  by rewrite (Permutation_middle a b t).
Qed.

Lemma yield_move_ordered f t l : ordered f l -> ordered f (yield_move f t l).
Proof.
  destruct (yield_move_spec f t l) as [->|(l1 & a & b & -> & _ & Ha & ->)]; [done|].
  rewrite !ordered_app, !ordered_cons, !ordered_app.
  intros (H1 & ((H2 & H3 & H4) & H5) & H6). split_and!; try done.
  - intros y Hy. apply H5. set_solver.
  - intros x y Hx [->|Hy]%elem_of_cons; [by rewrite Ha|auto].
  - intros x y Hx Hy. apply H6; [done|].
    apply elem_of_app in Hy as [|[->|]%elem_of_cons]; set_solver.
Qed.

Lemma elem_of_yield_move f t x l : x ∈ yield_move f t l <-> x ∈ l.
Proof. by rewrite yield_move_perm. Qed.

Lemma yield_ready_ok c t s :
  ready_ok c s -> runnable_on_cpus (tasks s t) = c -> ready_ok c (yield_ready t s).
Proof.
  intros [Hn Ho He] Hc. unfold yield_ready. rewrite Hc. split; rewrite rset_same.
  - by rewrite yield_move_perm.
  - by apply yield_move_ordered.
  - intros x. rewrite elem_of_yield_move. apply He.
Qed.

(** [RR_YIELD] on a task of the processor keeps the chains as they should be. *)
Lemma RR_YIELD_ok s :
  let c := cpuid s in
  ready_ok c s -> runnable_on_cpus (tasks s (rt_current s)) = c ->
  ready_ok c (RR_YIELD s) /\
  same_chains c (rset c (ready (RR_YIELD s) c) s) (RR_YIELD s) /\
  ready (RR_YIELD s) c ≡ₚ ready s c.
Proof.
  intros c Hr Hc. unfold RR_YIELD. fold c.
  assert (forall f (v : Z), same_chains c s (tset f (rt_current s) v s) ->
            same_chains c (rset c (ready s c) s) (tset f (rt_current s) v s)) as Hid.
  { intros f v H. etrans; [|exact H]. split; try done. by rewrite rset_same. }
  assert (same_chains c (rset c (ready s c) s) s) as Hid0.
  { split; try done. by rewrite rset_same. }
  assert (forall v, same_chains c s (tset set_rr_remaining (rt_current s) v s)) as Hrr.
  { intros v. solve_same_chains. }
  assert (forall v, ready_ok c (tset set_rr_remaining (rt_current s) v s)) as Hok.
  { intros v. by apply (ready_ok_same c s); [apply Hrr|]. }
  assert (forall v, let s' := tset set_rr_remaining (rt_current s) v s in
    ready_ok c s' /\ same_chains c (rset c (ready s' c) s) s' /\ ready s' c ≡ₚ ready s c) as Hall.
  { intros v. split_and!; [by apply Hok|by apply Hid, Hrr|done]. }
  zcases; [|apply Hall|apply Hall|by split_and!].
  set (s1 := tset _ _ _ s). assert (ready_ok c s1) as Hr1 by apply Hok.
  assert (runnable_on_cpus (tasks s1 (rt_current s)) = c) as Hc1.
  { unfold s1. by rewrite (tset_field _ runnable_on_cpus). }
  split_and!.
  - by apply yield_ready_ok.
  - unfold yield_ready. rewrite Hc1, rset_same. destruct (Hrr (rr_quantum (tasks s (rt_current s)))).
    by split.
  - unfold yield_ready. rewrite Hc1, rset_same. by rewrite yield_move_perm.
Qed.

(** ** The choice *)

Lemma TASK_TO_SCHEDULE_same c s :
  (TASK_TO_SCHEDULE s).1 = rhead (cpuid s) s /\ same_chains c s (TASK_TO_SCHEDULE s).2 /\
  running (tasks (TASK_TO_SCHEDULE s).2 (rhead (cpuid s) s)) = 1 /\
  timer_delay (TASK_TO_SCHEDULE s).2 = timer_delay s /\ smp_times (TASK_TO_SCHEDULE s).2 = smp_times s /\
  smp_time_h (TASK_TO_SCHEDULE s).2 = smp_time_h s /\ shot_fired (TASK_TO_SCHEDULE s).2 = shot_fired s.
Proof.
  unfold TASK_TO_SCHEDULE. split_and!; try (by zcases); simpl.
  - etrans; [|solve_same_chains]. zcases; [solve_same_chains|done].
  - cbn. by rewrite fn_lookup_insert.
Qed.

(** Timer programming touches no task and no chain. *)
Record timer_only (s s' : kst) : Prop := {
  to_tasks : tasks s' = tasks s; to_ready : ready s' = ready s; to_timed : timed s' = timed s;
  to_cur : smp_current s' = smp_current s; to_id : cpuid s' = cpuid s; to_tun : tun s' = tun s;
  to_time_h : smp_time_h s' = smp_time_h s; to_tsc : tsc s' = tsc s;
  to_scheduling : scheduling s' = scheduling s
}.
#[export] Instance timer_only_preorder : PreOrder timer_only.
Proof. split; [by intros s|]. intros s1 s2 s3 [] []. split; congruence. Qed.
Lemma timer_only_same c s s' : timer_only s s' -> same_chains c s s'.
Proof. intros []. by split; intros; congruence. Qed.

Lemma SET_NEXT_TIMER_SHOT_only new s : timer_only s (SET_NEXT_TIMER_SHOT new s).2.
Proof.
  unfold SET_NEXT_TIMER_SHOT. destruct (_ && _); cbn;
    destruct (next_shot _ _ _ _); done.
Qed.
Lemma IF_GOING_TO_LINUX_only new f s : timer_only s (IF_GOING_TO_LINUX_CHECK_TIMER_SHOT new f s).2.
Proof. unfold IF_GOING_TO_LINUX_CHECK_TIMER_SHOT. by zcases. Qed.
Lemma FIRE_NEXT_TIMER_SHOT_only shot f s : timer_only s (FIRE_NEXT_TIMER_SHOT shot f s).
Proof.
  unfold FIRE_NEXT_TIMER_SHOT, ONESHOT_DELAY, rt_set_timer_delay. by zcases.
Qed.
Lemma SET_PEND_LINUX_only s : timer_only s (SET_PEND_LINUX_TIMER_SHOT s).
Proof. unfold SET_PEND_LINUX_TIMER_SHOT. by zcases. Qed.

(** What waking keeps. *)
Lemma wake_up_timed_frame t s :
  let s' := wake_up_timed t s in
  smp_current s' = smp_current s /\ cpuid s' = cpuid s /\ smp_time_h s' = smp_time_h s /\
  tun s' = tun s /\ smp_times s' = smp_times s /\ tsc s' = tsc s /\ scheduling s' = scheduling s.
Proof.
  unfold wake_up_timed, enq_ready_task, enq_ready_edf_task. cbv zeta.
  repeat (match goal with |- context [if ?b then _ else _] => destruct b end); done.
Qed.

Lemma wake_up_timed_tasks_frame c s :
  let s' := wake_up_timed_tasks c s in
  smp_current s' = smp_current s /\ cpuid s' = cpuid s /\ smp_time_h s' = smp_time_h s /\
  tun s' = tun s /\ smp_times s' = smp_times s /\ tsc s' = tsc s /\ scheduling s' = scheduling s.
Proof.
  assert (forall h l s, let s' := (wake_up_loop h l s).2 in
    smp_current s' = smp_current s /\ cpuid s' = cpuid s /\ smp_time_h s' = smp_time_h s /\
    tun s' = tun s /\ smp_times s' = smp_times s /\ tsc s' = tsc s /\ scheduling s' = scheduling s) as Hloop.
  { intros h l. induction l as [|t l IH]; simpl; intros s0; [done|]. zcase; [|done].
    destruct (IH (wake_up_timed t s0)) as (-> & -> & -> & -> & -> & -> & ->).
    apply wake_up_timed_frame. }
  unfold wake_up_timed_tasks. destruct (timed s c) as [|t l]; [done|]. zcase; [|done].
  specialize (Hloop (smp_time_h s c) l (wake_up_timed t s)).
  destruct (wake_up_loop _ _ _) as [l' s']. simpl in *.
  destruct Hloop as (-> & -> & -> & -> & -> & -> & ->). apply wake_up_timed_frame.
Qed.

(** The chains when the scheduler is called on processor [c]: in order, with
    hard tasks under fixed priorities waiting for a time, and the current task
    on this processor. *)
Record sched_pre (s : kst) : Prop := {
  sp_ready : ready_ok (cpuid s) s;
  sp_timed : timed_ok (cpuid s) s;
  sp_hard : forall x, x ∈ timed s (cpuid s) -> is_hard (tasks s x) <> 0 /\ 0 <= policy (tasks s x);
  sp_cur : runnable_on_cpus (tasks s (rt_current s)) = cpuid s
}.

(** The head of a chain in order has the highest priority. *)
Lemma rhead_highest c s : ready_ok c s ->
  (ready s c = [] /\ rhead c s = Linux c) \/
  (head (ready s c) = Some (rhead c s) /\
   forall x, x ∈ ready s c -> priority (tasks s (rhead c s)) <= priority (tasks s x)).
Proof.
  intros [_ Ho _]. unfold rhead. destruct (ready s c) as [|t l]; [by left|right].
  split; [done|]. apply ordered_cons in Ho as [_ Ho].
  intros x [->|Hx]%elem_of_cons; [lia|auto].
Qed.

(** The wake-up at time [h] and the choice that follows it, which [rt_schedule]
    and [rt_timer_handler] share. *)
Lemma wake_and_choose s s1 :
  let c := cpuid s in
  ready_ok c s1 -> timed_ok c s1 -> cpuid s1 = c ->
  (forall x, x ∈ timed s1 c -> is_hard (tasks s1 x) <> 0 /\ 0 <= policy (tasks s1 x)) ->
  let s2 := wake_up_timed_tasks c s1 in
  let '(new, s3) := TASK_TO_SCHEDULE s2 in
  ready_ok c s3 /\ timed_ok c s3 /\ new = rhead c s3 /\ running (tasks s3 new) = 1 /\
  cpuid s3 = c /\ smp_current s3 = smp_current s1 /\ smp_time_h s3 = smp_time_h s1 /\
  tun s3 = tun s1 /\
  (forall x, x ∈ timed s3 c -> smp_time_h s3 c < resume_time (tasks s3 x)) /\
  exists w, timed s1 c = w ++ timed s3 c /\ ready s3 c ≡ₚ filter (wakes s1) w ++ ready s1 c.
Proof.
  intros c Hr Ht Hc Hh s2.
  destruct (wake_up_timed_tasks_ok c s1 Hr Ht Hh) as (w & W1 & W2 & W3 & W4 & W5 & W6).
  fold s2 in W1, W2, W3, W4, W5, W6.
  destruct (wake_up_timed_tasks_frame c s1) as (F1 & F2 & F3 & F4 & _). fold s2 in F1, F2, F3, F4.
  destruct (TASK_TO_SCHEDULE_same c s2) as (T1 & T2 & T3 & _ & _ & T4 & _).
  destruct (TASK_TO_SCHEDULE s2) as [new s3]. cbn [fst snd] in *. rewrite F2, Hc in T1, T3. subst new.
  split_and!.
  - by apply (ready_ok_same c s2).
  - by apply (timed_ok_same c s2).
  - unfold rhead. by rewrite (sc_ready _ _ _ T2).
  - done.
  - by rewrite (sc_id _ _ _ T2), F2.
  - by rewrite (sc_cur _ _ _ T2), F1.
  - by rewrite T4.
  - by rewrite (sc_tun _ _ _ T2).
  - intros x. rewrite (sc_timed _ _ _ T2), (sc_time _ _ _ T2), T4, F3. apply W3.
  - exists w. by rewrite (sc_timed _ _ _ T2), (sc_ready _ _ _ T2).
Qed.

(** The chain a round robin yield leaves, seen from the rest of the head. *)
Lemma RR_YIELD_pre s h :
  sched_pre s ->
  let c := cpuid s in
  let s1 := set_smp_time_h h (RR_YIELD s) in
  ready_ok c s1 /\ timed_ok c s1 /\ cpuid s1 = c /\ smp_current s1 = smp_current s /\
  (forall x, x ∈ timed s1 c -> is_hard (tasks s1 x) <> 0 /\ 0 <= policy (tasks s1 x)) /\
  timed s1 c = timed s c /\ ready s1 c ≡ₚ ready s c /\
  (forall x, wakes s1 x <-> wakes s x).
Proof.
  intros [Hr Ht Hh Hc] c s1.
  destruct (RR_YIELD_ok s Hr Hc) as (Y1 & Y2 & Y3). fold c in Y1, Y2, Y3.
  assert (same_chains c (RR_YIELD s) s1) as Hs by done.
  pose proof Y2 as [].
  assert (timed_ok c (rset c (ready (RR_YIELD s) c) s)) as Ht' by (by destruct Ht).
  assert (same_chains c (rset c (ready (RR_YIELD s) c) s) s1) as Y2' by (by etrans).
  split_and!; try done.
  - by apply (ready_ok_same c _ _ Hs).
  - by apply (timed_ok_same c _ _ Y2').
  - intros x Hx. cbn in Hx. rewrite sc_timed0 in Hx. cbn. rewrite sc_hard0, sc_policy0.
    apply Hh, Hx.
  - intros x. unfold wakes. cbn. by rewrite sc_state0.
Qed.

(** C1.  The head of [rt_schedule] chooses the right task: after the timed
    tasks that are due have been moved to the ready chain, [new] is the head of
    the chain of the processor, no ready task has a higher priority, and the
    Linux task is chosen only when the chain is empty; no task that is due is
    left waiting, no ready task is lost, and both chains are in order again. *)
Theorem schedule_head_highest s new s' :
  sched_pre s -> schedule_head s = (new, s') ->
  let c := cpuid s in
  (ready s' c = [] /\ new = Linux c \/
   head (ready s' c) = Some new /\
   forall x, x ∈ ready s' c -> priority (tasks s' new) <= priority (tasks s' x)) /\
  running (tasks s' new) = 1 /\ smp_current s' = smp_current s /\
  (forall x, x ∈ timed s' c -> tsc s + smp_half_tick s c < resume_time (tasks s' x)) /\
  (exists w, timed s c = w ++ timed s' c /\ ready s' c ≡ₚ filter (wakes s) w ++ ready s c) /\
  ready_ok c s' /\ timed_ok c s'.
Proof.
  intros Hpre He c. revert He. unfold schedule_head. fold c.
  assert (tsc (RR_YIELD s) = tsc s /\ smp_half_tick (RR_YIELD s) = smp_half_tick s /\
          smp_time_h (RR_YIELD s) = smp_time_h s) as (Htsc & Hht & Hth).
  { unfold RR_YIELD, yield_ready. by zcases. }
  rewrite Htsc, Hht, Hth. set (h := <[c := _]> (smp_time_h s)).
  destruct (RR_YIELD_pre s h Hpre) as (P1 & P2 & P3 & P4 & P5 & P6 & P7 & P8). fold c in P1, P2, P3, P5, P6, P7.
  set (s1 := set_smp_time_h h (RR_YIELD s)) in *.
  pose proof (wake_and_choose s s1 P1 P2 P3 P5) as Hw. fold c in Hw. cbv zeta in Hw.
  destruct (TASK_TO_SCHEDULE _) as [n s3]. destruct Hw as (W1 & W2 & W3 & W4 & W5 & W6 & W7 & Wt & W8 & w & W9 & W10).
  pose proof (SET_NEXT_TIMER_SHOT_only n s3) as O1.
  destruct (SET_NEXT_TIMER_SHOT n s3) as [f1 s4]. simpl in O1.
  pose proof (IF_GOING_TO_LINUX_only n f1 s4) as O2.
  destruct (IF_GOING_TO_LINUX_CHECK_TIMER_SHOT n f1 s4) as [f2 s5]. simpl in O2.
  pose proof (FIRE_NEXT_TIMER_SHOT_only (shot_fired s5 c) f2 s5) as O3.
  intros [= <- He]. rewrite He in O3. clear He.
  assert (timer_only s3 s') as Ho by (etrans; [exact O1|]; etrans; [exact O2|exact O3]).
  pose proof (timer_only_same c _ _ Ho) as Hs.
  split_and!.
  - rewrite (sc_ready _ _ _ Hs). subst n.
    destruct (rhead_highest c s3 W1) as [[Hn Hl]|[Hh Hx]]; [by left|right].
    split; [done|]. intros x Hx'. rewrite !(sc_prio _ _ _ Hs). auto.
  - by rewrite (to_tasks _ _ Ho).
  - by rewrite (sc_cur _ _ _ Hs), W6.
  - intros x. rewrite (sc_timed _ _ _ Hs), (sc_time _ _ _ Hs). intros Hx.
    specialize (W8 x Hx). rewrite W7 in W8. cbn in W8. unfold h in W8. by rewrite fn_lookup_insert in W8.
  - exists w. rewrite (sc_timed _ _ _ Hs), (sc_ready _ _ _ Hs), <- P6. split; [done|].
    rewrite W10, P7. rewrite (filter_iff_in (wakes s1) (wakes s)); [done|]. intros; apply P8.
  - by apply (ready_ok_same c s3).
  - by apply (timed_ok_same c s3).
Qed.

(** ** The timer *)

(** [next_shot] finds the eligible task that resumes first. *)
Lemma next_shot_spec s intr prio l :
  ordered (fun x => resume_time (tasks s x)) l ->
  match next_shot s intr prio l with
  | Some t => t ∈ l /\ resume_time (tasks s t) < intr /\ priority (tasks s t) <= prio /\
      forall x, x ∈ l -> priority (tasks s x) <= prio ->
        resume_time (tasks s t) <= resume_time (tasks s x)
  | None => forall x, x ∈ l -> priority (tasks s x) <= prio -> intr <= resume_time (tasks s x)
  end.
Proof.
  induction l as [|t l IH]; simpl; [by intros _ ? ?%elem_of_nil|].
  rewrite ordered_cons. intros [Hl Ht]. specialize (IH Hl). zcases.
  - split_and!; [set_solver|done|done|]. intros x [->|Hx]%elem_of_cons _; [lia|auto].
  - destruct (next_shot s intr prio l) as [u|].
    + destruct IH as (? & ? & ? & IH). split_and!; [set_solver|done|done|].
      intros x [->|Hx]%elem_of_cons; [lia|auto].
    + intros x [->|Hx]%elem_of_cons; [lia|auto].
  - intros x [->|Hx]%elem_of_cons _; [lia|]. specialize (Ht _ Hx). lia.
Qed.

Lemma next_shot_tasks s s' intr prio l :
  tasks s' = tasks s -> next_shot s' intr prio l = next_shot s intr prio l.
Proof. intros H. induction l as [|t l IH]; simpl; [done|]. by rewrite H, IH. Qed.

(** The calibrated values are those of a 32-bit one-shot timer. *)
Record tun_ok (tn : tunables) : Prop := {
  setup_ok : 0 <= setup_time_TIMER_CPUNIT tn;
  latency_ok : 0 <= sched_latency tn <= 2 ^ 30;
  span_ok : 0 <= oneshot_span tn < 2 ^ 31;
  satdelay_ok : satdelay tn <= oneshot_span tn
}.

(** A shot for the time [intr_time], from the timer handler: it is programmed
    for that time or before, or it is so near that it is served at once. *)
Lemma fire_in_time s :
  let c := cpuid s in
  let s' := FIRE_NEXT_TIMER_SHOT 0 true s in
  let span := intr_time (smp_times s c) - smp_time_h s c in
  tun_ok (tun s) -> - 2 ^ 30 <= span ->
  shot_fired s' c = -1 \/
  exists d, shot_fired s' c = 1 /\ timer_delay s' c = Some d /\
    setup_time_TIMER_CPUNIT (tun s) < d <= span.
Proof.
  intros c s' span [] Hspan. subst s'. unfold FIRE_NEXT_TIMER_SHOT, ONESHOT_DELAY. fold c. fold span.
  rewrite Z.eqb_refl.
  assert (span <= oneshot_span (tun s) -> i32 (i32 span - sched_latency (tun s)) = span - sched_latency (tun s)) as Hi.
  { intros. rewrite (wraps_small 32 span) by lia. apply wraps_small; lia. }
  destruct (oneshot_span (tun s) <? span) eqn:E1; zbool; [|rewrite Hi by lia]; cbn [tun times_set set_smp_times];
    (zcase; [right; eexists|left; cbn; by rewrite fn_lookup_insert]);
    unfold rt_set_timer_delay; (rewrite (proj2 (Z.eqb_neq _ _)) by lia); cbn;
    rewrite !fn_lookup_insert; (split_and!; [done|done|lia|lia]).
Qed.

Lemma sched_pre_same s s' : same_chains (cpuid s) s s' -> sched_pre s -> sched_pre s'.
Proof.
  intros Hs []. pose proof Hs as []. split.
  - rewrite sc_id0. by apply (ready_ok_same _ s).
  - rewrite sc_id0. by apply (timed_ok_same _ s).
  - intros x. rewrite sc_id0, sc_timed0, sc_hard0, sc_policy0. auto.
  - unfold rt_current. rewrite sc_id0, sc_cur0, sc_cpu0. done.
Qed.

Lemma set_time_h_id s : set_smp_time_h (smp_time_h s) s = s.
Proof. by destruct s. Qed.

(** Waking changes a task's state and its suspension depth only. *)
Section wake_field.
Context {B : Type} (g : RT_TASK -> B).
Hypothesis g_suspdepth : forall v r, g (set_suspdepth v r) = g r.
Hypothesis g_state : forall v r, g (set_state v r) = g r.

Lemma wake_up_timed_field t s x : g (tasks (wake_up_timed t s) x) = g (tasks s x).
Proof using g_state g_suspdepth.
  unfold wake_up_timed, enq_ready_task, enq_ready_edf_task. cbv zeta.
  repeat (match goal with |- context [if ?b then _ else _] => destruct b end);
    cbn; unfold insert, fn_insert; repeat case_decide; subst; rewrite ?g_state, ?g_suspdepth; done.
Qed.

Lemma wake_up_timed_tasks_field c s x : g (tasks (wake_up_timed_tasks c s) x) = g (tasks s x).
Proof using g_state g_suspdepth.
  assert (forall h l s, g (tasks (wake_up_loop h l s).2 x) = g (tasks s x)) as Hloop.
  { intros h l. induction l as [|t l IH]; simpl; intros s0; [done|]. zcase; [|done].
    by rewrite IH, wake_up_timed_field. }
  unfold wake_up_timed_tasks. destruct (timed s c) as [|t l]; [done|]. zcase; [|done].
  specialize (Hloop (smp_time_h s c) l (wake_up_timed t s)).
  destruct (wake_up_loop _ _ _) as [l' s']. cbn in *. by rewrite Hloop, wake_up_timed_field.
Qed.
End wake_field.

(** Whatever is chosen, programming the timer touches the timer only. *)
Lemma program_only c new s :
  let '(fire, s1) := SET_NEXT_TIMER_SHOT new (times_set set_intr_time c RTAI_TIME_LIMIT s) in
  let '(fire, s2) := IF_GOING_TO_LINUX_CHECK_TIMER_SHOT new fire s1 in
  timer_only s (FIRE_NEXT_TIMER_SHOT 0 fire s2).
Proof.
  pose proof (SET_NEXT_TIMER_SHOT_only new (times_set set_intr_time c RTAI_TIME_LIMIT s)) as O1.
  destruct (SET_NEXT_TIMER_SHOT _ _) as [f1 s1].
  pose proof (IF_GOING_TO_LINUX_only new f1 s1) as O2.
  destruct (IF_GOING_TO_LINUX_CHECK_TIMER_SHOT new f1 s1) as [f2 s2].
  etrans; [|apply FIRE_NEXT_TIMER_SHOT_only]. etrans; [|exact O2]. etrans; [|exact O1]. done.
Qed.

(** When the timer is needed: a waiting task that may preempt resumes, the turn of a task
    under round robin ends, or Linux, when it is the one that runs, has its next tick. *)
Inductive deadline (c : nat) (new : tid) (s : kst) : Z -> Prop :=
| dl_task x : x ∈ timed s c -> priority (tasks s x) <= priority (tasks s new) -> deadline c new s (resume_time (tasks s x))
| dl_turn : 0 < policy (tasks s new) -> deadline c new s (yield_time (tasks s new))
| dl_linux : priority (tasks s new) = RT_SCHED_LINUX_PRIORITY -> deadline c new s (linux_time (smp_times s c)).
(** The timer fires by then, or its handler is called at once. *)
Definition covered (c : nat) (s' : kst) (D : Z) : Prop :=
  shot_fired s' c = -1 \/
  exists d, shot_fired s' c = 1 /\ timer_delay s' c = Some d /\ setup_time_TIMER_CPUNIT (tun s') < d <= D - smp_time_h s' c.

(** The times of Linux are not touched, nor what the shot is computed from. *)
Lemma fire_linux_time shot f s c : linux_time (smp_times (FIRE_NEXT_TIMER_SHOT shot f s) c) = linux_time (smp_times s c).
Proof.
  unfold FIRE_NEXT_TIMER_SHOT, ONESHOT_DELAY, rt_set_timer_delay. zcases; cbn;
    unfold insert, fn_insert; repeat case_decide; subst; done.
Qed.

(** The interrupt time of [SET_NEXT_TIMER_SHOT]: no later than the end of the turn and the resume times. *)
Lemma next_shot_time c new s fire s1 :
  cpuid s = c -> timed_ok c s ->
  (forall x, x ∈ timed s c -> schedlat (tasks s x) <= 0x40000000 /\ smp_time_h s c < resume_time (tasks s x)) ->
  (0 < policy (tasks s new) -> smp_time_h s c - 2 ^ 30 <= yield_time (tasks s new)) ->
  smp_time_h s c - 2 ^ 30 <= RTAI_TIME_LIMIT ->
  SET_NEXT_TIMER_SHOT new (times_set set_intr_time c RTAI_TIME_LIMIT s) = (fire, s1) ->
  smp_time_h s c - 2 ^ 30 <= intr_time (smp_times s1 c) <= RTAI_TIME_LIMIT /\
  (intr_time (smp_times s1 c) < RTAI_TIME_LIMIT -> fire = true) /\ linux_time (smp_times s1 c) = linux_time (smp_times s c) /\
  (0 < policy (tasks s new) -> intr_time (smp_times s1 c) <= yield_time (tasks s new)) /\
  (forall x, x ∈ timed s c -> priority (tasks s x) <= priority (tasks s new) -> intr_time (smp_times s1 c) <= resume_time (tasks s x)).
Proof.
  intros Hc [_ Ho He] Hx Hy Hlim. set (s0 := times_set _ c _ s). unfold SET_NEXT_TIMER_SHOT.
  change (cpuid s0) with (cpuid s). rewrite Hc. change (tasks s0) with (tasks s).
  assert (intr_time (smp_times s0 c) = RTAI_TIME_LIMIT) as -> by (cbn; by rewrite fn_lookup_insert).
  set (turn := (0 <? policy (tasks s new)) && (yield_time (tasks s new) <? RTAI_TIME_LIMIT)).
  set (s2 := if turn then times_set set_intr_time c (yield_time (tasks s new)) s0 else s0).
  replace (if turn then (true, times_set set_intr_time c (yield_time (tasks s new)) s0) else (false, s0)) with (turn, s2)
    by (unfold s2; by destruct turn).
  set (I := if turn then yield_time (tasks s new) else RTAI_TIME_LIMIT).
  assert (intr_time (smp_times s2 c) = I /\ linux_time (smp_times s2 c) = linux_time (smp_times s c)) as [Ei Hl2].
  { unfold s2, I. destruct turn; cbn; rewrite !fn_lookup_insert; done. }
  assert (tasks s2 = tasks s /\ timed s2 = timed s) as [Et Etm] by (unfold s2; by destruct turn).
  assert (smp_time_h s c - 2 ^ 30 <= I <= RTAI_TIME_LIMIT /\ (I < RTAI_TIME_LIMIT -> turn = true) /\
    (0 < policy (tasks s new) -> I <= yield_time (tasks s new))) as (HI & Hf & HIy).
  { unfold I, turn. destruct (Z.ltb_spec 0 (policy (tasks s new))); cbn [andb]; [|lia].
    destruct (Z.ltb_spec (yield_time (tasks s new)) RTAI_TIME_LIMIT); [|lia]. split_and!; try done; [by apply Hy|lia..]. }
  rewrite Ei. clearbody I turn s2. rewrite (next_shot_tasks s s2 _ _ _ Et), Etm.
  pose proof (next_shot_spec s I (priority (tasks s new)) (timed s c) Ho) as Hn.
  destruct (next_shot _ _ _ _) as [t|]; intros [= <- <-].
  - destruct Hn as (N1 & N2 & N3 & N4). destruct (Hx t N1) as [Hl Hr]. destruct (He t N1) as (_ & _ & _ & ?).
    assert (intr_time (smp_times (times_set set_intr_time c (resume_time (tasks s2 t) - schedlat (tasks s2 t)) s2) c) =
      resume_time (tasks s t) - schedlat (tasks s t)) as -> by (rewrite Et; cbn; by rewrite fn_lookup_insert).
    assert (linux_time (smp_times (times_set set_intr_time c (resume_time (tasks s2 t) - schedlat (tasks s2 t)) s2) c) =
      linux_time (smp_times s2 c)) as -> by (cbn; by rewrite fn_lookup_insert).
    split_and!; [lia|lia|done|done|intros Hp; specialize (HIy Hp); lia|].
    intros x Hxt Hxp. specialize (N4 x Hxt Hxp). lia.
  - rewrite Ei. split_and!; [lia|lia|done|done|done|]. intros x Hxt Hxp. by apply Hn.
Qed.

Lemma program_linux_time c new s : cpuid s = c ->
  let '(fire, s1) := SET_NEXT_TIMER_SHOT new (times_set set_intr_time c RTAI_TIME_LIMIT s) in
  let '(fire, s2) := IF_GOING_TO_LINUX_CHECK_TIMER_SHOT new fire s1 in
  linux_time (smp_times (FIRE_NEXT_TIMER_SHOT 0 fire s2) c) = linux_time (smp_times s c).
Proof.
  intros Hc. set (s0 := times_set set_intr_time c RTAI_TIME_LIMIT s).
  pose proof (SET_NEXT_TIMER_SHOT_only new s0) as O1. destruct (SET_NEXT_TIMER_SHOT new s0) as [f1 s1] eqn:E1. cbn [snd] in O1.
  destruct (IF_GOING_TO_LINUX_CHECK_TIMER_SHOT new f1 s1) as [f2 s2] eqn:E2. rewrite fire_linux_time.
  assert (linux_time (smp_times s2 c) = linux_time (smp_times s1 c)) as ->.
  { unfold IF_GOING_TO_LINUX_CHECK_TIMER_SHOT in E2. rewrite (to_id _ _ O1) in E2. change (cpuid s0) with (cpuid s) in E2. rewrite Hc in E2.
    destruct (_ =? _) in E2; [|by injection E2 as <- <-].
    destruct (_ <? _) in E2; [|by injection E2 as <- <-]. injection E2 as <- <-. cbn. by rewrite fn_lookup_insert. }
  unfold SET_NEXT_TIMER_SHOT in E1. change (cpuid s0) with (cpuid s) in E1. rewrite Hc in E1.
  destruct (_ && _) in E1; destruct (next_shot _ _ _ _) in E1; injection E1 as <- <-; cbn; by rewrite !fn_lookup_insert.
Qed.

(** The programming of the next shot covers all of them. *)
Lemma program_shot c new s :
  cpuid s = c -> tun_ok (tun s) -> timed_ok c s -> shot_fired s c = 0 ->
  (forall x, x ∈ timed s c -> schedlat (tasks s x) <= 0x40000000 /\ smp_time_h s c < resume_time (tasks s x)) ->
  (0 < policy (tasks s new) -> smp_time_h s c - 2 ^ 30 <= yield_time (tasks s new)) ->
  (priority (tasks s new) = RT_SCHED_LINUX_PRIORITY -> smp_time_h s c - 2 ^ 30 <= linux_time (smp_times s c)) ->
  let '(fire, s1) := SET_NEXT_TIMER_SHOT new (times_set set_intr_time c RTAI_TIME_LIMIT s) in
  let '(fire, s2) := IF_GOING_TO_LINUX_CHECK_TIMER_SHOT new fire s1 in
  let s' := FIRE_NEXT_TIMER_SHOT 0 fire s2 in
  forall D, deadline c new s D -> D < RTAI_TIME_LIMIT -> covered c s' D.
Proof.
  intros Hc Htun Hto Hshot Hx Hy Hl.
  pose proof (SET_NEXT_TIMER_SHOT_only new (times_set set_intr_time c RTAI_TIME_LIMIT s)) as O1.
  destruct (SET_NEXT_TIMER_SHOT _ _) as [f1 s1] eqn:E1. cbn [snd] in O1.
  assert (timer_only s s1) as O1' by (etrans; [|exact O1]; done).
  assert (shot_fired s1 c = 0) as Hs1.
  { rewrite <- Hshot. unfold SET_NEXT_TIMER_SHOT in E1. destruct (_ && _) in E1; destruct (next_shot _ _ _ _) in E1; by injection E1 as <- <-. }
  pose proof (IF_GOING_TO_LINUX_only new f1 s1) as O2.
  destruct (IF_GOING_TO_LINUX_CHECK_TIMER_SHOT new f1 s1) as [f2 s2] eqn:E2. cbn [snd] in O2. cbv zeta.
  assert (timer_only s s2) as O12 by (etrans; [exact O1'|exact O2]).
  destruct (Z.lt_ge_cases RTAI_TIME_LIMIT (smp_time_h s c - 2 ^ 30)) as [Hlim|Hlim].
  { intros D HD HDl. exfalso. destruct HD as [x Hxt _|Hp|Hp]; [destruct (Hx x Hxt); lia|specialize (Hy Hp); lia|specialize (Hl Hp); lia]. }
  destruct (next_shot_time c new s f1 s1 Hc Hto Hx Hy Hlim E1) as (HI & Hf & El1 & HIy & HIx).
  assert (smp_time_h s c - 2 ^ 30 <= intr_time (smp_times s2 c) /\
    (forall D, deadline c new s D -> D < RTAI_TIME_LIMIT -> f2 = true /\ intr_time (smp_times s2 c) <= D)) as [HI2 HD].
  { assert (forall D, deadline c new s D -> priority (tasks s new) <> RT_SCHED_LINUX_PRIORITY \/ D <> linux_time (smp_times s c) ->
      intr_time (smp_times s1 c) <= D) as H1.
    { intros D [x Hxt Hxp|Hp|Hp] Hne; [by apply HIx|by apply HIy|]. by destruct Hne. }
    unfold IF_GOING_TO_LINUX_CHECK_TIMER_SHOT in E2. rewrite (to_id _ _ O1'), Hc, (to_tasks _ _ O1'), Hs1, El1 in E2.
    destruct (Z.eqb_spec (priority (tasks s new)) RT_SCHED_LINUX_PRIORITY) as [Hp|Hp].
    - destruct (Z.ltb_spec (linux_time (smp_times s c)) (intr_time (smp_times s1 c))) as [Hlt|Hge]; injection E2 as <- <-.
      + assert (intr_time (smp_times (times_set set_intr_time c (linux_time (smp_times s c)) s1) c) = linux_time (smp_times s c)) as ->
          by (cbn; by rewrite fn_lookup_insert).
        split; [by apply Hl|]. intros D HD _. split; [done|].
        destruct (decide (D = linux_time (smp_times s c))) as [->|Hne]; [done|]. specialize (H1 D HD (or_intror Hne)). lia.
      + split; [lia|]. intros D HD _. split; [done|].
        destruct (decide (D = linux_time (smp_times s c))) as [->|Hne]; [done|]. by apply H1; auto.
    - injection E2 as <- <-. split; [lia|]. intros D HD HDl. specialize (H1 D HD (or_introl Hp)). split; [apply Hf; lia|done]. }
  intros D HDl HDlim. destruct (HD D HDl HDlim) as [-> HID].
  pose proof (fire_in_time s2) as Hfire. rewrite (to_id _ _ O12), Hc, (to_time_h _ _ O12), (to_tun _ _ O12) in Hfire.
  cbv zeta in Hfire. unfold covered. rewrite (to_tun _ _ (FIRE_NEXT_TIMER_SHOT_only 0 true s2)), (to_time_h _ _ (FIRE_NEXT_TIMER_SHOT_only 0 true s2)).
  rewrite (to_tun _ _ O12), (to_time_h _ _ O12).
  destruct Hfire as [|(d & D1 & D2 & D3)]; [done|lia|by left|right]. exists d. split_and!; [done|done|lia|lia].
Qed.

(** The task the timer handler chooses, and those that stay to be timed. *)
Lemma timer_chosen s s0 : sched_pre s -> same_chains (cpuid s) s s0 ->
  smp_time_h s0 (cpuid s) = tsc s + smp_half_tick s (cpuid s) ->
  let c := cpuid s in
  let s3 := (TASK_TO_SCHEDULE (wake_up_timed_tasks c (RR_YIELD s0))).2 in
  cpuid s3 = c /\ timed_ok c s3 /\ tun s3 = tun s /\ smp_time_h s3 c = tsc s + smp_half_tick s c /\
  forall x, x ∈ timed s3 c ->
    x ∈ timed s c /\ schedlat (tasks s3 x) = schedlat (tasks s x) /\ smp_time_h s3 c < resume_time (tasks s3 x).
Proof.
  intros Hpre Hs0 Ht0 c s3. assert (sched_pre s0) as Hpre0 by (by apply (sched_pre_same s)).
  destruct (RR_YIELD_pre s0 (smp_time_h (RR_YIELD s0)) Hpre0) as (P1 & P2 & P3 & P4 & P5 & P6 & _).
  rewrite set_time_h_id, (sc_id _ _ _ Hs0) in *. fold c in P1, P2, P3, P5, P6.
  pose proof (wake_and_choose s (RR_YIELD s0) P1 P2 P3 P5) as Hw. fold c in Hw. cbv zeta in Hw.
  assert (forall x, schedlat (tasks s3 x) = schedlat (tasks s x)) as Hsl.
  { intros x. unfold s3. rewrite (sc_lat c _ _ (proj1 (proj2 (TASK_TO_SCHEDULE_same c _)))).
    rewrite (wake_up_timed_tasks_field schedlat) by done.
    rewrite <- (sc_lat _ _ _ Hs0). unfold RR_YIELD, yield_ready. zcases; cbn;
      unfold insert, fn_insert; by repeat case_decide; subst. }
  unfold s3 in *. destruct (TASK_TO_SCHEDULE _) as [n s4]. cbn [snd] in *.
  destruct Hw as (W1 & W2 & W3 & W4 & W5 & W6 & W7 & Wt & W8 & w & W9 & W10).
  assert (tun s4 = tun s /\ smp_time_h s4 = smp_time_h s0) as [Htn Hth].
  { rewrite Wt, W7, <- (sc_tun _ _ _ Hs0). unfold RR_YIELD, yield_ready. by zcases. }
  split_and!; try done; [by rewrite Hth|]. intros x Hx. split; [|by auto].
  pose proof (sc_timed _ _ _ Hs0) as Et. fold c in Et. rewrite <- Et, <- P6, W9. set_solver.
Qed.

(** C3.  The timer handler never sets the timer too late.  After its head, whichever task was chosen, Linux too, the
    timer is programmed, by more than the time it takes to program it, to a point no later than the resume time of any
    task that still waits and may preempt the chosen one, than the end of the chosen one's turn when it is under
    round robin, and than Linux's next tick when Linux is chosen; or the shot is
    marked to be served at once.  This is for times below the limit, and for a turn and a tick that did not end
    more than 2^30 counts ago. *)
Theorem timer_head_in_time s new s' :
  sched_pre s -> tun_ok (tun s) -> timer_head s = (new, s') ->
  (forall x, x ∈ timed s (cpuid s) -> schedlat (tasks s x) <= 0x40000000) ->
  let c := cpuid s in
  (0 < policy (tasks s' new) -> smp_time_h s' c - 2 ^ 30 <= yield_time (tasks s' new)) ->
  (priority (tasks s' new) = RT_SCHED_LINUX_PRIORITY -> smp_time_h s' c - 2 ^ 30 <= linux_time (smp_times s' c)) ->
  smp_time_h s' c = tsc s + smp_half_tick s c /\ tun s' = tun s /\
  forall D, deadline c new s' D -> D < RTAI_TIME_LIMIT -> covered c s' D.
Proof.
  intros Hpre Htun He Hlat c. revert He. unfold timer_head. fold c.
  set (s0 := SET_PEND_LINUX_TIMER_SHOT _).
  assert (same_chains c s s0 /\ smp_time_h s0 c = tsc s + smp_half_tick s c) as [Hs0 Ht0].
  { pose proof (SET_PEND_LINUX_only _ : timer_only _ s0) as Ho.
    split; [etrans; [|by apply timer_only_same]; done|].
    rewrite (to_time_h _ _ Ho). cbn. rewrite !fn_lookup_insert. done. }
  pose proof (timer_chosen s s0 Hpre Hs0 Ht0) as Hw. cbv zeta in Hw. fold c in Hw.
  destruct (TASK_TO_SCHEDULE _) as [n s3]. cbn [snd] in Hw. destruct Hw as (W5 & W2 & Htn & Hth & Hx3).
  pose proof (program_shot c n (set_shot 0 s3) W5) as Hp.
  pose proof (program_only c n (set_shot 0 s3)) as Ho. pose proof (program_linux_time c n (set_shot 0 s3) W5) as El.
  destruct (SET_NEXT_TIMER_SHOT n _) as [f1 s5].
  destruct (IF_GOING_TO_LINUX_CHECK_TIMER_SHOT n f1 s5) as [f2 s6]. cbv zeta in Hp.
  intros [= <- <-]. set (s' := FIRE_NEXT_TIMER_SHOT 0 f2 s6) in *.
  change (smp_times (set_shot 0 s3)) with (smp_times s3) in El, Hp. fold s' in El.
  change (tun (set_shot 0 s3)) with (tun s3) in Hp. rewrite Htn in Hp.
  change (smp_time_h (set_shot 0 s3)) with (smp_time_h s3) in Hp.
  specialize (Hp Htun (timed_ok_same c s3 (set_shot 0 s3) ltac:(done) W2)).
  assert (shot_fired (set_shot 0 s3) c = 0) as Hsf by (cbn; rewrite W5; by rewrite fn_lookup_insert). specialize (Hp Hsf).
  change (timed (set_shot 0 s3)) with (timed s3) in Hp. change (tasks (set_shot 0 s3)) with (tasks s3) in Hp.
  specialize (Hp ltac:(intros x Hx; destruct (Hx3 x Hx) as (Hin & -> & ?); auto)).
  assert (tasks s' = tasks s3 /\ timed s' = timed s3 /\ smp_time_h s' = smp_time_h s3 /\ tun s' = tun s3) as (H1 & H2 & H3 & H4)
    by (by destruct Ho).
  intros Hturn Hlinux. rewrite H1, H3 in Hturn, Hlinux.
  specialize (Hp Hturn). rewrite H3, Hth, H4. split; [done|]. split; [done|].
  rewrite El in Hlinux. pose proof (Hp Hlinux) as HD. intros D HDl. apply HD.
  destruct HDl as [x Hx Hxp|Hpol|Hpr]; rewrite ?H1, ?H2, ?El in *.
  - by apply (dl_task c n (set_shot 0 s3)).
  - by apply (dl_turn c n (set_shot 0 s3)).
  - by apply (dl_linux c n (set_shot 0 s3)).
Qed.

(** ** Deferral *)

Lemma schedule_head_frame s :
  let s' := (schedule_head s).2 in
  scheduling s' = scheduling s /\ cpuid s' = cpuid s /\ smp_current s' = smp_current s.
Proof.
  unfold schedule_head.
  assert (let s' := RR_YIELD s in
    scheduling s' = scheduling s /\ cpuid s' = cpuid s /\ smp_current s' = smp_current s) as (R1 & R2 & R3).
  { unfold RR_YIELD, yield_ready. by zcases. }
  cbv zeta. set (s1 := set_smp_time_h _ (RR_YIELD s)).
  destruct (wake_up_timed_tasks_frame (cpuid s) s1) as (F1 & F2 & _ & _ & _ & _ & F3).
  set (s2 := wake_up_timed_tasks _ _) in *.
  assert (let s' := (TASK_TO_SCHEDULE s2).2 in
    scheduling s' = scheduling s2 /\ cpuid s' = cpuid s2 /\ smp_current s' = smp_current s2) as (T1 & T2 & T3).
  { unfold TASK_TO_SCHEDULE. by zcases. }
  destruct (TASK_TO_SCHEDULE s2) as [new s3]. simpl in T1, T2, T3.
  pose proof (SET_NEXT_TIMER_SHOT_only new s3) as O1.
  destruct (SET_NEXT_TIMER_SHOT new s3) as [f1 s4]. simpl in O1.
  pose proof (IF_GOING_TO_LINUX_only new f1 s4) as O2.
  destruct (IF_GOING_TO_LINUX_CHECK_TIMER_SHOT new f1 s4) as [f2 s5]. simpl in O2.
  pose proof (FIRE_NEXT_TIMER_SHOT_only (shot_fired s5 (cpuid s)) f2 s5) as O3. simpl.
  destruct O1, O2, O3. cbn in F1, F2, F3. split_and!; congruence.
Qed.

(**  While the scheduler is locked, [rt_schedule] does not give the
    processor to anybody: it returns with the same current task, at most after
    the timer handler has run for a shot that could not be programmed, and it
    has noted the request when the choice was another task. *)
Theorem rt_schedule_locked s :
  let c := cpuid s in
  locked (scheduling s c) <> 0 ->
  exists s', (rt_schedule s = Done tt s' \/ rt_schedule s = stop TimerNow s') /\
    smp_current s' = smp_current s /\ cpuid s' = c /\
    locked (scheduling s' c) = locked (scheduling s c) /\
    rqsted (scheduling s' c) =
      if bool_decide ((schedule_head s).1 = rt_current s) then rqsted (scheduling s c) else 1.
Proof.
  intros c Hl. unfold rt_schedule, rt_schedule_with.
  assert (scheduling (schedule_head s).2 = scheduling s /\ cpuid (schedule_head s).2 = c /\
          smp_current (schedule_head s).2 = smp_current s) as (H1 & H2 & H3).
  { apply schedule_head_frame. }
  destruct (schedule_head s) as [new s1]. simpl in *. rewrite H1, H2.
  assert (forall s2, smp_current s2 = smp_current s -> cpuid s2 = c -> exists s',
    (CALL_TIMER_HANDLER s2 = Done tt s' \/ CALL_TIMER_HANDLER s2 = stop TimerNow s') /\
    smp_current s' = smp_current s /\ cpuid s' = c /\ scheduling s' = scheduling s2) as Hcall.
  { intros s2 Hc2 Hi2. unfold CALL_TIMER_HANDLER. zcase; eexists; split; eauto. }
  case_bool_decide as Hn.
  - destruct (Hcall s1 H3 H2) as (s' & ? & ? & ? & Hs). exists s'. by rewrite Hs, H1.
  - rewrite (proj2 (Z.eqb_neq _ _) Hl). simpl.
    destruct (Hcall (set_scheduling (<[c := MkScheduling (locked (scheduling s c)) 1]> (scheduling s)) s1))
      as (s' & ? & ? & ? & Hs); [done|done|].
    exists s'. rewrite Hs. cbn. by rewrite fn_lookup_insert.
Qed.

(** ** Conversion of times *)

Lemma rtai_llimd_0 m d : rtai_llimd 0 m d = 0.
Proof. unfold rtai_llimd, rtai_imuldiv. by rewrite (wrapu_small 64 0), Z.mul_0_l, Zdiv_0_l. Qed.

Lemma nano2count_sign tn a : 0 <= a ->
  nano2count tn a = rtai_llimd a (clock_freq tn) 1000000000 /\
  nano2count tn (- a) = - rtai_llimd a (clock_freq tn) 1000000000.
Proof.
  intros Ha. unfold nano2count. split; zcases; try lia; [|by rewrite Z.opp_involutive].
  assert (a = 0) as -> by lia. by rewrite rtai_llimd_0.
Qed.
Lemma count2nano_sign tn a : 0 <= a ->
  count2nano tn a = rtai_llimd a 1000000000 (clock_freq tn) /\
  count2nano tn (- a) = - rtai_llimd a 1000000000 (clock_freq tn).
Proof.
  intros Ha. unfold count2nano. split; zcases; try lia; [|by rewrite Z.opp_involutive].
  assert (a = 0) as -> by lia. by rewrite rtai_llimd_0.
Qed.

(** The conversions of a non-negative time. *)
Lemma conv_abs a f :
  0 <= a -> a < 2 ^ 63 -> 0 < f < 2 ^ 63 -> a * f < 1000000000 * 2 ^ 63 ->
  let k := rtai_llimd a f 1000000000 in
  let b := rtai_llimd k 1000000000 f in
  imuldiv_traps a f 1000000000 = false /\ imuldiv_traps k 1000000000 f = false /\
  0 <= k /\ 0 <= b <= a /\ (a - b) * f < 1000000000 + f.
Proof.
  intros Ha Ha' Hf Hfit k b.
  assert (0 <= a * f / 1000000000 < 2 ^ 63) as Hk.
  { split; [apply Z.div_pos; lia|apply Z.div_lt_upper_bound; lia]. }
  assert (u64 1000000000 = 1000000000) as H9 by done.
  assert (k = a * f / 1000000000) as Ek.
  { unfold k, rtai_llimd, rtai_imuldiv. rewrite H9, !wrapu_small by lia. apply wraps_small; lia. }
  pose proof (Z.mul_div_le (a * f) 1000000000 ltac:(lia)).
  pose proof (Z.mul_succ_div_gt (a * f) 1000000000 ltac:(lia)).
  assert (0 <= k * 1000000000 / f <= a) as Hb.
  { split; [apply Z.div_pos; lia|apply Z.div_le_upper_bound; lia]. }
  assert (b = k * 1000000000 / f) as Eb.
  { unfold b, rtai_llimd, rtai_imuldiv. rewrite H9, !wrapu_small by lia. apply wraps_small; lia. }
  pose proof (Z.mul_succ_div_gt (k * 1000000000) f ltac:(lia)).
  unfold imuldiv_traps. rewrite H9, !(wrapu_small 64) by lia. rewrite <- Ek, <- Eb.
  split_and!; lia.
Qed.

(** C20.  [nano2count] and [count2nano] convert there and back with an error of
    less than one count and one nanosecond, towards zero, for every time whose
    conversion fits; they are odd functions, and neither traps in the machine's
    division. *)
Theorem nano2count_count2nano tn ns :
  0 < clock_freq tn < 2 ^ 63 ->
  Z.abs ns * clock_freq tn < 1000000000 * 2 ^ 63 -> Z.abs ns < 2 ^ 63 ->
  let c := nano2count tn ns in
  imuldiv_traps (Z.abs ns) (clock_freq tn) 1000000000 = false /\
  imuldiv_traps (Z.abs c) 1000000000 (clock_freq tn) = false /\
  nano2count tn (- ns) = - c /\ count2nano tn (- c) = - count2nano tn c /\
  0 <= Z.abs ns - Z.abs (count2nano tn c) /\
  (Z.abs ns - Z.abs (count2nano tn c)) * clock_freq tn < 1000000000 + clock_freq tn /\
  0 <= ns * c /\ 0 <= ns * count2nano tn c.
Proof.
  intros Hf Hfit Hns c. set (f := clock_freq tn) in *.
  pose proof (conv_abs (Z.abs ns) f ltac:(lia) Hns Hf Hfit) as (C1 & C2 & C3 & C4 & C5).
  destruct (nano2count_sign tn (Z.abs ns) ltac:(lia)) as [N1 N2].
  destruct (count2nano_sign tn _ C3) as [K1 K2]. fold f in N1, N2, K1, K2.
  destruct (Z.le_gt_cases 0 ns) as [H|H].
  - rewrite Z.abs_eq in * by lia. unfold c. rewrite N1, N2, K1, K2.
    rewrite !Z.abs_eq by lia. split_and!; try done; try lia; nia.
  - rewrite Z.abs_neq in * by lia. rewrite Z.opp_involutive in N2.
    unfold c. rewrite N1, N2. rewrite Z.opp_involutive, K1, K2.
    rewrite !Z.abs_opp, !Z.abs_eq by lia. split_and!; try done; try lia; nia.
Qed.

(** ** Instances *)

Lemma ex_timed_pre : sched_pre ex_timed.
Proof.
  split; [| | |done].
  - split; unfold ordered; vm_compute (ready _ _); list_goal; by vm_compute.
  - split; unfold ordered; vm_compute (timed _ _); list_goal; by vm_compute.
  - vm_compute (timed _ _). list_goal; by vm_compute.
Qed.

Lemma pair_fst {A B} (p : A * B) a : p.1 = a -> p = (a, p.2).
Proof. intros <-. by destruct p. Qed.

Lemma schedule_head_highest_witness :
  let s' := (schedule_head ex_timed).2 in
  ready s' 0%nat = [Tsk 1; Tsk 3] /\ timed s' 0%nat = [Tsk 2] /\
  ready_ok (cpuid ex_timed) s' /\ running (tasks s' (Tsk 1)) = 1.
Proof.
  pose proof (pair_fst (schedule_head ex_timed) (Tsk 1) ltac:(vm_compute; reflexivity)) as E.
  destruct (schedule_head_highest ex_timed _ _ ex_timed_pre E) as (_ & H2 & _ & _ & _ & H6 & _).
  split; [vm_compute; reflexivity|]. split; [vm_compute; reflexivity|]. split; [exact H6|exact H2].
Defined.

(** Linux runs; task 2 resumes in 1000 counts, and Linux' next tick is in 500. *)
Definition ex_linux : kst :=
  times_set set_linux_time 0 1500 (set_smp_current (fun _ => Linux 0) (rset 0 [] (set_timed (fun _ => [Tsk 2]) ex_timed))).
Lemma ex_linux_pre : sched_pre ex_linux.
Proof.
  split; [| | |done].
  - split; unfold ordered; vm_compute (ready _ _); list_goal; by vm_compute.
  - split; unfold ordered; vm_compute (timed _ _); list_goal; by vm_compute.
  - vm_compute (timed _ _). list_goal; by vm_compute.
Qed.
Lemma timer_head_in_time_witness :
  let s' := (timer_head ex_linux).2 in
  (timer_head ex_linux).1 = Linux 0 /\ timer_delay s' 0%nat = Some 490 /\ covered (cpuid ex_linux) s' 1500 /\ covered (cpuid ex_linux) s' 2000.
Proof.
  assert (tun_ok (tun ex_linux)) as Ht by (split; vm_compute; done).
  assert (forall x, x ∈ timed ex_linux (cpuid ex_linux) -> schedlat (tasks ex_linux x) <= 0x40000000) as Hl.
  { assert (timed ex_linux (cpuid ex_linux) = [Tsk 2]) as -> by (vm_compute; reflexivity).
    list_goal; vm_compute; discriminate. }
  pose proof (pair_fst (timer_head ex_linux) (Linux 0) ltac:(vm_compute; reflexivity)) as E.
  destruct (timer_head_in_time ex_linux _ _ ex_linux_pre Ht E Hl) as (_ & _ & H);
    [by vm_compute|by vm_compute|].
  split; [vm_compute; reflexivity|]. split; [vm_compute; reflexivity|]. split.
  - apply H; [|by vm_compute]. assert (linux_time (smp_times (timer_head ex_linux).2 (cpuid ex_linux)) = 1500) as <- by (vm_compute; reflexivity).
    apply dl_linux. vm_compute; reflexivity.
  - apply H; [|by vm_compute]. assert (resume_time (tasks (timer_head ex_linux).2 (Tsk 2)) = 2000) as <- by (vm_compute; reflexivity).
    apply dl_task; [|by vm_compute].
    assert (timed (timer_head ex_linux).2 (cpuid ex_linux) = [Tsk 2]) as -> by (vm_compute; reflexivity).
    apply list_elem_of_here.
Defined.

(** A locked scheduler, with a task of the highest priority ready. *)

(** One millisecond on a clock of 2.4 GHz. *)
Lemma nano2count_count2nano_witness :
  let tn := MkTun 2400000000 0 0 0 0 0 0 0 1 1 in
  nano2count tn 1000000 = 2400000 /\ count2nano tn 2400000 = 1000000 /\
  nano2count tn (- 1000000) = - nano2count tn 1000000.
Proof.
  intros tn. split; [vm_compute; reflexivity|]. split; [vm_compute; reflexivity|].
  destruct (nano2count_count2nano tn 1000000) as (_ & _ & H & _); [by vm_compute..|exact H].
Defined.
