(* ===== verification/Keeps.v ===== *)
(** * What scheduling leaves alone.

    The objects tasks communicate through - semaphores, wait queues, mailboxes,
    spinlocks, messages, buffers - are not touched by the ready and timed
    chains, by waking and choosing tasks, nor by a switch itself: [keeps].  A
    call to [rt_schedule] is then correct for every property of these objects
    that the other tasks keep. *)

From S2P Require Import Prelude Resume MbxRing Kernel KernelFacts Sched.
From stdpp Require Import list sets.
#[local] Open Scope Z_scope.

Record keeps (s s' : kst) : Prop := {
  k_sems : sems s' = sems s;
  k_queues : queues s' = queues s;
  k_mbxs : mbxs s' = mbxs s;
  k_spls : spls s' = spls s;
  k_umem : umem s' = umem s;
  k_cpuid : cpuid s' = cpuid s;
  k_tun : tun s' = tun s;
  k_tasklist : tasklist s' = tasklist s;
  k_blocked : forall x, blocked_on (tasks s' x) = blocked_on (tasks s x);
  k_msg : forall x, msg (tasks s' x) = msg (tasks s x);
  k_msgq : forall x, msgq_task (tasks s' x) = msgq_task (tasks s x);
  k_retq : forall x, retq_task (tasks s' x) = retq_task (tasks s x);
  k_magic : forall x, magic (tasks s' x) = magic (tasks s x);
  k_proxy : forall x, proxy (tasks s' x) = proxy (tasks s x)
}.

#[export] Instance keeps_preorder : PreOrder keeps.
Proof. split; [by intros s|]. intros s1 s2 s3 [] []. split; intros; congruence. Qed.

(** A setter of a task that leaves these fields alone. *)
Class TaskKeeps {V} (f : V -> RT_TASK -> RT_TASK) : Prop := task_keeps : forall v r,
  let r' := f v r in
  blocked_on r' = blocked_on r /\ msg r' = msg r /\ msgq_task r' = msgq_task r /\
  retq_task r' = retq_task r /\ magic r' = magic r /\ proxy r' = proxy r.

Ltac task_keeps := intros ? ?; by split_and!.
#[export] Instance keeps_state : TaskKeeps set_state := ltac:(task_keeps).
#[export] Instance keeps_running : TaskKeeps set_running := ltac:(task_keeps).
#[export] Instance keeps_priority : TaskKeeps set_priority := ltac:(task_keeps).
#[export] Instance keeps_base_priority : TaskKeeps set_base_priority := ltac:(task_keeps).
#[export] Instance keeps_suspdepth : TaskKeeps set_suspdepth := ltac:(task_keeps).
#[export] Instance keeps_owndres : TaskKeeps set_owndres := ltac:(task_keeps).
#[export] Instance keeps_resume_time : TaskKeeps set_resume_time := ltac:(task_keeps).
#[export] Instance keeps_yield_time : TaskKeeps set_yield_time := ltac:(task_keeps).
#[export] Instance keeps_rr_remaining : TaskKeeps set_rr_remaining := ltac:(task_keeps).
#[export] Instance keeps_lnxstate : TaskKeeps set_lnxstate := ltac:(task_keeps).
#[export] Instance keeps_is_hard : TaskKeeps set_is_hard := ltac:(task_keeps).
#[export] Instance keeps_force_soft : TaskKeeps set_force_soft := ltac:(task_keeps).
#[export] Instance keeps_prio_passed_to : TaskKeeps set_prio_passed_to := ltac:(task_keeps).
#[export] Instance keeps_retval : TaskKeeps set_retval := ltac:(task_keeps).

Lemma keeps_tset {V} (f : V -> RT_TASK -> RT_TASK) `{!TaskKeeps f} t v s : keeps s (tset f t v s).
Proof.
  split; try done; intros x; apply (tset_field f); intros r; by destruct (task_keeps v r) as (?&?&?&?&?&?).
Qed.

(** Steps of a chain [keeps s ?]: the state changes one layer at a time. *)
Ltac keep1 :=
  lazymatch goal with
  | |- keeps ?s ?s => reflexivity
  | |- keeps ?s (tset ?f ?t ?v ?s') => etransitivity; [|apply (keeps_tset f t v s')]
  | |- keeps _ (rset ?c ?l ?s') => transitivity s'; [|by split]
  | |- keeps _ (dset ?c ?l ?s') => transitivity s'; [|by split]
  | |- keeps _ (runlink ?t ?s') => transitivity s'; [|by split]
  | |- keeps _ (tunlink ?t ?s') => transitivity s'; [|by split]
  | |- keeps _ (times_set ?f ?c ?v ?s') => transitivity s'; [|by split]
  | |- keeps _ (set_shot ?v ?s') => transitivity s'; [|by split]
  | |- keeps _ (set_smp_time_h ?v ?s') => transitivity s'; [|by split]
  | |- keeps _ (set_scheduling ?v ?s') => transitivity s'; [|by split]
  | |- keeps _ (set_timer_delay ?v ?s') => transitivity s'; [|by split]
  | |- keeps _ (set_smp_current ?v ?s') => transitivity s'; [|by split]
  | |- keeps _ (set_current ?v ?s') => transitivity s'; [|by split]
  | |- keeps _ (set_wake_up_srq ?v ?s') => transitivity s'; [|by split]
  | |- keeps _ (set_wake_up_hts ?v ?s') => transitivity s'; [|by split]
  | |- keeps _ (set_ipis ?v ?s') => transitivity s'; [|by split]
  | |- keeps _ (if ?b then _ else _) => destruct b
  | |- keeps _ (match ?b with Some _ => _ | None => _ end) => destruct b
  end.
Ltac keep := repeat keep1; try reflexivity.

Lemma keeps_pend lnx c s : keeps s (pend_wake_up_srq lnx c s).
Proof. by split. Qed.
Lemma keeps_ipi d s : keeps s (send_sched_ipi d s).
Proof. by split. Qed.
Lemma keeps_enq_ready t s : keeps s (enq_ready_task t s).
Proof.
  unfold enq_ready_task, NON_RTAI_TASK_RESUME. cbv zeta. destruct (negb _); [keep|].
  etrans; [|apply keeps_pend]. keep.
Qed.
Lemma keeps_enq_edf t s : keeps s (enq_ready_edf_task t s).
Proof. unfold enq_ready_edf_task. cbv zeta. keep. Qed.
Lemma keeps_rem_current t s : keeps s (rem_ready_current t s).
Proof. unfold rem_ready_current, NON_RTAI_TASK_SUSPEND. cbv zeta. keep. Qed.
Lemma keeps_rem_ready t s : keeps s (rem_ready_task t s).
Proof. unfold rem_ready_task. destruct (_ =? _); [apply keeps_rem_current|done]. Qed.
Lemma keeps_enq_timed t s : keeps s (enq_timed_task t s).
Proof. unfold enq_timed_task. cbv zeta. keep. Qed.
Lemma keeps_rem_timed t s : keeps s (rem_timed_task t s).
Proof. unfold rem_timed_task. keep. Qed.
Lemma keeps_wake_up_timed t s : keeps s (wake_up_timed t s).
Proof.
  unfold wake_up_timed. cbv zeta.
  repeat (match goal with |- context [if ?b then _ else _] => destruct b end);
    try (etrans; [|first [apply keeps_enq_edf | apply keeps_enq_ready]]); keep.
Qed.
Lemma keeps_wake_up_timed_tasks c s : keeps s (wake_up_timed_tasks c s).
Proof.
  assert (forall h l s, keeps s (wake_up_loop h l s).2) as Hloop.
  { intros h l. induction l as [|t l IH]; simpl; intros s0; [done|].
    destruct (_ <=? _); [|done]. etrans; [apply keeps_wake_up_timed|apply IH]. }
  unfold wake_up_timed_tasks. destruct (timed s c) as [|t l]; [done|]. destruct (_ <=? _); [|done].
  specialize (Hloop (smp_time_h s c) l (wake_up_timed t s)).
  destruct (wake_up_loop _ _ _) as [l' s']. cbn in Hloop. keep1.
  etrans; [apply keeps_wake_up_timed|exact Hloop].
Qed.
Lemma keeps_renq t p s : keeps s (renq_ready_task t p s).2.
Proof.
  unfold renq_ready_task. destruct (negb _); [|done]. cbn [snd]. destruct (_ =? _); [|keep].
  etrans; [|apply keeps_enq_ready]. keep.
Qed.
Lemma keeps_unblock mask t s : keeps s (unblock mask t s).2.
Proof.
  unfold unblock. destruct (_ =? _); [done|]. cbv zeta. destruct (_ =? _); cbn [snd]; [|keep].
  etrans; [|apply keeps_enq_ready]. keep.
Qed.

(** ** The scheduler *)

Lemma keeps_RR s : keeps s (RR_YIELD s).
Proof. unfold RR_YIELD, yield_ready. cbv zeta. keep. Qed.
Lemma keeps_choose s : keeps s (TASK_TO_SCHEDULE s).2.
Proof. unfold TASK_TO_SCHEDULE. cbv zeta. cbn [snd]. keep. Qed.
Lemma keeps_next_shot new s : keeps s (SET_NEXT_TIMER_SHOT new s).2.
Proof.
  unfold SET_NEXT_TIMER_SHOT. cbv zeta.
  destruct (_ && _); destruct (next_shot _ _ _ _); cbn [snd]; keep.
Qed.
Lemma keeps_going_to_linux new f s : keeps s (IF_GOING_TO_LINUX_CHECK_TIMER_SHOT new f s).2.
Proof.
  unfold IF_GOING_TO_LINUX_CHECK_TIMER_SHOT. cbv zeta.
  destruct (_ =? _); [|done]. destruct (_ <? _); cbn [snd]; keep.
Qed.
Lemma keeps_oneshot shot s : keeps s (ONESHOT_DELAY shot s).2.
Proof.
  unfold ONESHOT_DELAY. cbv zeta. destruct (_ =? _); [|done]. destruct (_ <? _); cbn [snd]; keep.
Qed.
Lemma keeps_fire shot f s : keeps s (FIRE_NEXT_TIMER_SHOT shot f s).
Proof.
  unfold FIRE_NEXT_TIMER_SHOT. destruct f; [|done].
  pose proof (keeps_oneshot shot s) as Ho. destruct (ONESHOT_DELAY shot s) as [d s1]. cbn in Ho.
  etrans; [exact Ho|]. unfold rt_set_timer_delay. cbv zeta. keep.
Qed.

(** [let '(a, s') := f s in g a s'] keeps what both keep. *)
Lemma keeps_schedule_head s : keeps s (schedule_head s).2.
Proof.
  unfold schedule_head. cbv zeta. set (s1 := wake_up_timed_tasks _ _).
  assert (keeps s s1) as H1.
  { etrans; [|apply keeps_wake_up_timed_tasks]. etrans; [apply keeps_RR|]. keep. }
  pose proof (keeps_choose s1) as H2. destruct (TASK_TO_SCHEDULE s1) as [new s2]. cbn in H2.
  pose proof (keeps_next_shot new s2) as H3. destruct (SET_NEXT_TIMER_SHOT new s2) as [f1 s3]. cbn in H3.
  pose proof (keeps_going_to_linux new f1 s3) as H4.
  destruct (IF_GOING_TO_LINUX_CHECK_TIMER_SHOT new f1 s3) as [f2 s4]. cbn in H4. cbn [snd].
  etrans; [exact H1|]. etrans; [exact H2|]. etrans; [exact H3|]. etrans; [exact H4|]. apply keeps_fire.
Qed.

(** ** Calls that give up the processor

    A calm call changes nothing the others can see but by stopping. *)
Fixpoint calm (s : kst) (r : res kst unit) : Prop :=
  match r with
  | Done _ s' => keeps s s'
  | Stop _ s1 k => keeps s s1 /\ forall s2, calm s2 (k s2)
  | Fault _ => False
  | NoFuel _ => False
  end.

Lemma calm_keeps s0 s r : keeps s0 s -> calm s r -> calm s0 r.
Proof. intros H. destruct r; cbn; try done; [by etrans|]. intros [H1 H2]. split; [by etrans|done]. Qed.
Lemma calm_bind s r (k : kst -> res kst unit) :
  calm s r -> (forall s0, calm s0 (k s0)) -> calm s (rbind r (fun _ s1 => k s1)).
Proof.
  intros H Hk. revert s H. induction r as [? s1|? s1 ? IH| |]; intros s0 H; cbn in *; try done.
  - by apply (calm_keeps _ s1).
  - destruct H as [H1 H2]. split; [done|]. intros s2. by apply IH.
Qed.
Lemma calm_stop p s0 s : keeps s0 s -> calm s0 (stop p s).
Proof. by split. Qed.
Lemma calm_CALL_TIMER s : calm s (CALL_TIMER_HANDLER s).
Proof. unfold CALL_TIMER_HANDLER. destruct (_ <? 0); [|done]. apply calm_stop. keep. Qed.
Lemma calm_switch new s : calm s (switch_to new s).
Proof. apply calm_stop. keep. Qed.
Lemma calm_soft t s : calm s (sched_soft t s).
Proof.
  unfold sched_soft. apply calm_bind; [apply calm_CALL_TIMER|]. intros s1.
  apply calm_bind; [by apply calm_stop|]. intros s2. unfold soft_return, enq_soft_ready_task. cbv zeta. cbn. keep.
Qed.

Lemma calm_rt_schedule_with force s : (forall t s0, calm s0 (force t s0)) -> calm s (rt_schedule_with force s).
Proof.
  intros Hf. unfold rt_schedule_with. cbv zeta. pose proof (keeps_schedule_head s) as Hk.
  destruct (schedule_head s) as [new s1]. cbn in Hk. apply (calm_keeps _ s1); [done|].
  destruct (bool_decide _); [apply calm_CALL_TIMER|].
  destruct (negb _); [eapply calm_keeps; [|apply calm_CALL_TIMER]; keep|].
  destruct (lnxtsk _).
  - destruct (_ || _).
    + apply calm_bind; [apply calm_switch|]. intros s2.
      destruct (_ <=? 0); [destruct (negb _); [apply calm_soft|apply calm_CALL_TIMER]|].
      destruct (negb _); [apply Hf|apply calm_CALL_TIMER].
    + eapply calm_keeps; [|apply calm_soft]. keep.
  - apply calm_bind; [apply calm_switch|]. intros. apply calm_CALL_TIMER.
Qed.

Lemma calm_rt_schedule_plain s : calm s (rt_schedule_plain s).
Proof. apply calm_rt_schedule_with. intros. apply calm_CALL_TIMER. Qed.

Lemma calm_force_current_soft t s : calm s (force_current_soft t s).
Proof.
  unfold force_current_soft, soft_priority, enq_soft_ready_task. cbv zeta. apply calm_bind.
  - eapply calm_keeps; [|apply calm_rt_schedule_plain]. etrans; [|by split]. unfold pend_wake_up_hts. keep.
  - intros s1. apply calm_bind; [apply calm_stop; keep|]. intros s2. destruct (negb _).
    + eapply calm_keeps; [|apply calm_rt_schedule_plain]. keep.
    + cbn. keep.
Qed.

Lemma calm_rt_schedule s : calm s (rt_schedule s).
Proof.
  apply calm_rt_schedule_with. intros. apply calm_bind; [apply calm_force_current_soft|].
  intros. apply calm_CALL_TIMER.
Qed.

(** [P] is a property of a state around the kernel's, of the kept objects: the other tasks keep it,
    and it is all that is promised at a stop. *)
Section shared.
Context {T : Type} (get : T -> kst) (put : kst -> T -> T).
Context (G : T -> Prop) (R : T -> T -> Prop) (P : T -> Prop).
Context (P_keeps : forall t s, keeps (get t) s -> P t -> P (put s t)).
Context (P_guar : forall t, P t -> G t) (P_rely : forall t t', P t -> R t t' -> P t').

Lemma calm_within r t : calm (get t) r -> P t -> wp G R (within get put r t) (fun _ t => P t).
Proof using P_keeps P_guar P_rely.
  revert t. induction r as [? s|? s k IH| |]; cbn; intros t H HP; try done; [auto|].
  destruct H as [H1 H2]. split; [auto|]. intros t' Ht'. apply IH; [done|]. eapply P_rely; [|done]. auto.
Qed.
End shared.

(** The same on the kernel's state itself. *)
Section alone.
Context (G : kst -> Prop) (R : kst -> kst -> Prop) (P : kst -> Prop).
Context (P_keeps : forall s s', keeps s s' -> P s -> P s').
Context (P_guar : forall s, P s -> G s) (P_rely : forall s s', P s -> R s s' -> P s').

#[local] Abbreviation safe r := (wp G R r (fun (_ : unit) s => P s)).

Lemma calm_safe r s : calm s r -> P s -> safe r.
Proof using P_keeps P_guar P_rely.
  revert s. induction r as [? s1|? s1 k IH| |]; intros s0 H HP; cbn in *; try done; [by eapply P_keeps|].
  destruct H as [H1 H2]. assert (P s1) by by eapply P_keeps. split; [auto|].
  intros s' Hs'. apply (IH s' s'); [done|]. by eapply P_rely.
Qed.
Lemma safe_rt_schedule s : P s -> safe (rt_schedule s).
Proof using P_keeps P_guar P_rely. apply calm_safe, calm_rt_schedule. Qed.
Lemma safe_RT_SCHEDULE t s : P s -> safe (RT_SCHEDULE t s).
Proof using P_keeps P_guar P_rely.
  intros H. unfold RT_SCHEDULE. cbv zeta. destruct (negb _); [|by apply safe_rt_schedule].
  by eapply P_keeps; [apply keeps_ipi|].
Qed.
Lemma safe_RT_SCHEDULE_BOTH t s : P s -> safe (RT_SCHEDULE_BOTH t s).
Proof using P_keeps P_guar P_rely.
  intros H. unfold RT_SCHEDULE_BOTH. cbv zeta. apply safe_rt_schedule.
  destruct (negb _); [|done]. by eapply P_keeps; [apply keeps_ipi|].
Qed.
Lemma safe_RT_SCHEDULE_MAP_BOTH map s : P s -> safe (RT_SCHEDULE_MAP_BOTH map s).
Proof using P_keeps P_guar P_rely.
  intros H. apply safe_rt_schedule. unfold RT_SCHEDULE_MAP. destruct (_ =? _); [done|].
  by eapply P_keeps; [apply keeps_ipi|].
Qed.
End alone.
