(* ===== verification/Tasks.v ===== *)
(** * Task creation, deletion and placement: sched.c. *)

From S2P Require Import Prelude Resume MbxRing Kernel Sched.

(** ** Which processor *)

(** The loop over the processors [i .. i + n - 1]. *)
Fixpoint min_tasks_loop (s : kst) (allowed : Z) (n i cpu : nat) (min : Z) : nat :=
  match n with
  | O => cpu
  | S n' =>
      if Z.testbit allowed (Z.of_nat i) && (tasks_per_cpu s i <? min)
      then min_tasks_loop s allowed n' (S i) i (tasks_per_cpu s i)
      else min_tasks_loop s allowed n' (S i) cpu min
  end.
Definition get_min_tasks_cpuid (allowed : Z) (s : kst) : nat :=
  min_tasks_loop s allowed (online_cpus (tun s) - 1) 1 0 (tasks_per_cpu s 0).
Definition CPUS_ALLOWED_ALL := 0xFF.

Definition pick_cpuid (c : nat) (s : kst) : nat :=
  if (online_cpus (tun s) <=? 1)%nat then 0%nat else c.

(** ** Creation *)

(** The fields both initialisations clear. *)
Definition clear_task (t : RT_TASK) : RT_TASK :=
  let t := set_magic RT_TASK_MAGIC t in
  let t := set_policy 0 t in
  let t := set_owndres 0 t in
  let t := set_running 0 t in
  let t := set_prio_passed_to NULL t in
  let t := set_period 0 t in
  let t := set_resume_time RTAI_TIME_LIMIT t in
  let t := set_periodic_resume_time RTAI_TIME_LIMIT t in
  let t := set_msg (Word 0) t in
  let t := set_retq_task NULL t in
  let t := set_proxy None t in
  let t := set_blocked_on NULL t in
  let t := set_unblocked 0 t in
  let t := set_resync_frame 0 t in
  set_ExitHook [] t.

(** The queues and links of a new task: empty, in no chain. *)
Definition clear_links (t : tid) (s : kst) : kst :=
  let s := qunlink t s in
  let s := qset (QMsg t) [] (qset (QRet t) [] s) in
  let s := tset set_msgq_task t (PTask t) s in
  tunlink t (runlink t s).

Definition count_task (c : nat) (n : Z) (s : kst) : kst :=
  set_tasks_per_cpu (<[c := tasks_per_cpu s c + n]> (tasks_per_cpu s)) s.
Definition link_task (t : tid) (c : nat) (s : kst) : kst :=
  set_tasklist (<[c := tasklist s c ++ [t]]> (tasklist s)) s.
Definition unlink_task (t : tid) (s : kst) : kst :=
  set_tasklist (fun c => unlink t (tasklist s c)) s.

(** [set_rtext]: the caller, Linux task [lnx], gets the task as its extension;
    [moved] tells whether Linux could move it to the processor and [has_mm]
    whether it is a user process. *)
Definition set_rtext (t : tid) (prio uses : Z) (sig : Z) (c : nat) (lnx : Z)
    (moved has_mm : bool) (s : kst) : Z * kst :=
  let c := pick_cpuid c s in
  if (magic (tasks s t) =? RT_TASK_MAGIC) || (NR_CPUS (tun s) <=? c)%nat || (prio <? 0) then
    (- EINVAL, s)
  else
    let s := tset set_uses_fpu t (if uses =? 0 then 0 else 1) s in
    let s := tset set_runnable_on_cpus t c s in
    let s := set_tasks (<[t := clear_task (tasks s t)]> (tasks s)) s in
    let s := clear_links t s in
    let s := tset set_signal t sig s in
    let s := tset set_force_soft t 0 s in
    let s := count_task c 1 s in
    let s := tset set_base_priority t (BASE_SOFT_PRIORITY + prio) s in
    let s := tset set_priority t (BASE_SOFT_PRIORITY + prio) s in
    let s := tset set_suspdepth t 0 (tset set_is_hard t 0 s) in
    let s := tset set_state t RT_SCHED_READY s in
    let s := set_tskext (<[lnx := Some t]> (tskext s)) s in
    let s := tset set_lnxtsk t (Some lnx) s in
    let s := if moved then s else tset set_runnable_on_cpus t (cpuid s) s in
    let s := tset set_schedlat t (if has_mm then UserLatency (tun s) else KernelLatency (tun s)) s in
    (0, link_task t c s).

(** The number of a task: the counter goes down by 16, the processor in the low bits. *)
Definition rt_set_task_pid (t : tid) (s : kst) : kst :=
  let s := set_rt_pid (rt_pid s - 0x10) s in
  tset set_tasktid t (rt_pid s + Z.of_nat (runnable_on_cpus (tasks s t))) s.

Definition rt_find_task_by_pid (pid : Z) (s : kst) : option tid :=
  list_find (fun t => tasktid (tasks s t) = pid) (tasklist s (Z.to_nat (Z.land pid 0xF))) ≫= fun p => Some p.2.

(** [rt_task_init_cpuid]; [stack] is what the stack allocation gives. *)
Definition rt_task_init_cpuid (t : tid) (rt_thread data : Z) (stack : option Z)
    (prio uses sig : Z) (c : nat) (s : kst) : Z * kst :=
  let c := pick_cpuid c s in
  if (magic (tasks s t) =? RT_TASK_MAGIC) || (NR_CPUS (tun s) <=? c)%nat || (prio <? 0) then
    (- EINVAL, s)
  else match stack with
  | None => (- ENOMEM, s)
  | Some _ =>
    let s := tset set_uses_fpu t (if uses =? 0 then 0 else 1) s in
    let s := tset set_runnable_on_cpus t c s in
    let s := count_task c 1 s in
    let s := set_tasks (<[t := clear_task (tasks s t)]> (tasks s)) s in
    let s := tset set_suspdepth t 1 s in
    let s := tset set_state t (Z.lor RT_SCHED_SUSPENDED RT_SCHED_READY) s in
    let s := tset set_is_hard t 1 s in
    let s := tset set_lnxtsk t None s in
    let s := tset set_base_priority t prio s in
    let s := tset set_priority t prio s in
    let s := clear_links t s in
    let s := tset set_signal t sig s in
    let s := tset set_max_msg_size t (rt_thread, data) s in
    let s := tset set_schedlat t (KernelLatency (tun s)) s in
    let s := link_task t c s in
    (0, rt_set_task_pid t s)
  end.

Definition rt_task_init (t : tid) (rt_thread data : Z) (stack : option Z)
    (prio uses sig : Z) (s : kst) : Z * kst :=
  rt_task_init_cpuid t rt_thread data stack prio uses sig
    (get_min_tasks_cpuid CPUS_ALLOWED_ALL s) s.

(** ** Moving a task *)

Definition rt_set_runnable_on_cpuid (t : tid) (c : nat) (s : kst) : kst :=
  match lnxtsk (tasks s t) with
  | Some _ => s
  | None =>
    let c := if (NR_CPUS (tun s) <=? c)%nat then get_min_tasks_cpuid CPUS_ALLOWED_ALL s else c in
    let conv z := rtai_llimd z (TIMER_FREQ (tun s)) (clock_freq (tun s)) in
    let s := tset set_period t (conv (period (tasks s t))) s in
    let s := tset set_resume_time t (conv (resume_time (tasks s t))) s in
    let s := tset set_periodic_resume_time t (conv (periodic_resume_time (tasks s t))) s in
    let s := unlink_task t s in
    let s := if has (state (tasks s t)) RT_SCHED_DELAYED
             then enq_timed_task t (tset set_runnable_on_cpus t c (rem_timed_task t s))
             else tset set_runnable_on_cpus t c s in
    link_task t c s
  end.

(** The mask of the online processors, [cpu_online_map]. *)
Definition cpu_online_map (s : kst) : Z := Z.ones (Z.of_nat (online_cpus (tun s))).
(** [ffnz]: the lowest set bit, by trying the bits from 0. *)
Fixpoint ffnz_from (n i : nat) (m : Z) : nat :=
  match n with
  | O => i
  | S n' => if Z.testbit m (Z.of_nat i) then i else ffnz_from n' (S i) m
  end.
Definition ffnz (m : Z) : nat := ffnz_from 64 0 m.

Definition rt_set_runnable_on_cpus (t : tid) (run_on : Z) (s : kst) : kst :=
  match lnxtsk (tasks s t) with
  | Some _ => s
  | None =>
    let run_on := Z.land run_on (cpu_online_map s) in
    let c := get_min_tasks_cpuid CPUS_ALLOWED_ALL s in
    rt_set_runnable_on_cpuid t (if Z.testbit run_on (Z.of_nat c) then c else ffnz run_on) s
  end.

(** ** Rate monotonic priorities: [rt_spv_RMS] *)

(** The inner loop: the first periodic task of the least period below [per]. *)
Fixpoint rms_pick (s : kst) (l : list tid) (h : option tid) (per : Z) : option tid :=
  match l with
  | [] => h
  | t :: l' =>
      let tk := tasks s t in
      if (0 <=? priority tk) && (0 <=? policy tk) && negb (period tk =? 0) && (period tk <? per)
      then rms_pick s l' (Some t) (period tk) else rms_pick s l' h per
  end.
(** The outer loop, one turn per task of the list [it]. *)
Fixpoint rms_loop (l it : list tid) (prio : Z) (s : kst) : kst :=
  match it with
  | [] => s
  | _ :: it' =>
      match rms_pick s l None RTAI_TIME_LIMIT with
      | Some h => rms_loop l it' (prio + 1) (tset set_base_priority h prio (tset set_priority h (-1) s))
      | None => s
      end
  end.
Fixpoint rms_restore (l : list tid) (s : kst) : kst :=
  match l with
  | [] => s
  | t :: l' => rms_restore l'
      (if priority (tasks s t) <? 0 then tset set_priority t (base_priority (tasks s t)) s else s)
  end.
Definition rt_spv_RMS (c : Z) (s : kst) : kst :=
  let c := if (c <? 0) || (Z.of_nat (online_cpus (tun s)) <=? c) then cpuid s else Z.to_nat c in
  let l := tasklist s c in
  rms_restore l (rms_loop l l 0 s).

(** ** Deletion *)

Definition call_exit_handlers (t : tid) (s : kst) : kst :=
  let s := set_exit_calls (rev (ExitHook (tasks s t)) ++ exit_calls s) s in
  tset set_ExitHook t [] s.
(** [set_exit_handler]; the allocation of the hook is the caller's [ok]. *)
Definition set_exit_handler (t : tid) (f arg1 arg2 : Z) (ok : bool) (s : kst) : bool * kst :=
  if negb (magic (tasks s t) =? RT_TASK_MAGIC) then (false, s)
  else if negb ok then (false, s)
  else (true, tset set_ExitHook t ((f, arg1, arg2) :: ExitHook (tasks s t)) s).

(** [++sem->count > 1 && sem->type]: a waiter that goes away gives its unit back. *)
Definition sem_giveback (m : semid) (s : kst) : kst :=
  let n := count (sems s m) + 1 in
  sset set_count m (if (1 <? n) && negb (semtype (sems s m) =? 0) then 1 else n) s.

(** A waiter of a deleted task wakes with [RTP_OBJREM]. *)
Definition wake_objrem (mask : Z) (s : kst) (t : tid) : kst :=
  let s := (unblock mask t (rem_timed_task t s)).2 in
  tset set_blocked_on t RTP_OBJREM s.

Section delete.
(** [sched_sem_signal]: [rt_sem_signal], found through the function table. *)
Context (sem_signal : semid -> kst -> res kst Z).

(** What the deleted task was blocked on. *)
Definition clr_blocked (t : tid) (s : kst) : res kst unit :=
  let st := state (tasks s t) in
  if is_null (blocked_on (tasks s t)) then Done tt s
  else if has st (Z.lor RT_SCHED_SEMAPHORE (Z.lor RT_SCHED_SEND (Z.lor RT_SCHED_RPC RT_SCHED_RETURN))) then
    let s := qunlink t s in
    if has st RT_SCHED_SEMAPHORE then
      match blocked_on (tasks s t) with
      | PQueue (QSem m) => Done tt (sem_giveback m s)
      | _ => Fault s  (* not a SEM *)
      end
    else Done tt s
  else if has st RT_SCHED_MBXSUSP then
    match blocked_on (tasks s t) with
    | PMbx m =>
        let s := mset set_waiting_task m None s in
        sched* s := sem_signal (if frbs (mbxbuffer (mbxs s m)) =? 0 then SndSem m else RcvSem m) s in
        Done tt s
    | _ => Fault s
    end
  else Done tt s.

Definition clr_rtext (t : tid) (s : kst) : res kst Z :=
  if negb (magic (tasks s t) =? RT_TASK_MAGIC)
     || (priority (tasks s t) =? RT_SCHED_LINUX_PRIORITY) then Done (- EINVAL) s
  else
    let cur := rt_current s in
    if negb (task_owns_sems t s) || same t cur
       || (priority (tasks s cur) =? RT_SCHED_LINUX_PRIORITY) then
      let s := call_exit_handlers t s in
      let s := rem_timed_task t s in
      sched* s := clr_blocked t s in
      let s := foldl (wake_objrem (Z.lor RT_SCHED_SEND (Z.lor RT_SCHED_RPC RT_SCHED_DELAYED)))
                 s (queues s (QMsg t)) in
      let s := foldl (wake_objrem (Z.lor RT_SCHED_RETURN RT_SCHED_DELAYED)) s (queues s (QRet t)) in
      let s := unlink_task t s in
      let c := runnable_on_cpus (tasks s t) in
      let s := if same (fpu_task s c) t then set_fpu_task (<[c := Linux c]> (fpu_task s)) s else s in
      let s := match lnxtsk (tasks s t) with
               | None => set_frstk (t :: frstk s) s | Some _ => s end in
      let s := tset set_magic t 0 s in
      let s := rem_ready_task t s in
      let s := tset set_state t 0 s in
      let s := count_task c (-1) s in
      if same t cur then sched* s := rt_schedule s in Done 0 s else Done 0 s
    else Done 0 (tset set_suspdepth t RT_RESEM_SUSPDEL s).

Definition rt_task_delete (t : tid) (s : kst) : res kst Z :=
  sched* s := clr_rtext t s in Done 0 s.
End delete.
