(* ===== verification/Lxrt.v ===== *)
(** * Tasks that move between Linux and hard real time: sched.c. *)

From S2P Require Import Prelude Resume MbxRing Kernel Sched Tasks.

(** ** Deferred wake-ups of Linux processes *)

(** [WAKE_UP_TASKs]: serve the ring until it is empty; the processes woken, in order. *)
Fixpoint WAKE_UP_TASKs (fuel : nat) (k : klist_t) : option (list (option Z) * klist_t) :=
  match fuel with
  | O => None
  | S fuel =>
      if kout k =? kin k then Some ([], k)
      else
        match WAKE_UP_TASKs fuel (MkKlist (kin k) (u64 (kout k + 1)) (ktask k)) with
        | Some (l, k') => Some (ktask k (Z.land (kout k) (MAX_WAKEUP_SRQ - 1)) :: l, k')
        | None => None
        end
  end.

Definition wake_up_srq_handler (fuel : nat) (s : kst) : option (list (option Z) * kst) :=
  let c := cpuid s in
  match WAKE_UP_TASKs fuel (wake_up_hts s c), WAKE_UP_TASKs fuel (wake_up_srq s c) with
  | Some (l1, k1), Some (l2, k2) =>
      Some (l1 ++ l2, set_wake_up_srq (<[c := k2]> (wake_up_srq s))
                        (set_wake_up_hts (<[c := k1]> (wake_up_hts s)) s))
  | _, _ => None
  end.

(** ** Soft scheduling *)

Definition rt_do_force_soft (t : tid) (s : kst) : res kst unit :=
  if negb (state (tasks s t) =? RT_SCHED_READY) then
    let s := tset set_state t (clear (state (tasks s t)) RT_SCHED_READY) s in
    RT_SCHEDULE t (enq_ready_task t s)
  else Done tt s.

Definition rt_schedule_soft_tail (t : tid) (s : kst) : res kst unit :=
  let s := tset set_state t (clear (state (tasks s t)) (Z.lor RT_SCHED_READY RT_SCHED_SFTRDY)) s in
  let s := runlink t s in
  let s := set_current (Linux (cpuid s)) s in
  rt_schedule s.

(** The wait at the head of [rt_schedule_soft]: sleep in Linux until the task
    is ready and nothing else. *)
Fixpoint soft_wait (fuel : nat) (t : tid) (s : kst) : res kst unit :=
  if state (tasks s t) =? RT_SCHED_READY then Done tt s
  else match fuel with
       | O => NoFuel s
       | S fuel =>
           sched* s := stop LinuxSleep (tset set_lnxstate t TASK_SOFTREALTIME s) in
           soft_wait fuel t s
       end.

(** [rt_schedule_soft] up to the call of the service, and from its result on. *)
Definition soft_enter (fuel : nat) (t : tid) (s : kst) : res kst unit :=
  let s := tset set_state t (Z.lor (state (tasks s t)) RT_SCHED_READY) s in
  sched* s := soft_wait fuel t s in
  let s := set_current t (enq_soft_ready_task t s) in
  stop Unlocked s.
Definition soft_leave (t : tid) (ret : Z) (s : kst) : res kst unit :=
  rt_schedule_soft_tail t (tset set_retval t ret s).
(** [rt_schedule_soft]: run the service [fn] in soft real time. *)
Definition rt_schedule_soft (fuel : nat) (t : tid) (fn : kst -> res kst Z) (s : kst) : res kst unit :=
  sched* s := soft_enter fuel t s in
  let* (ret, s) := fn s in
  soft_leave t ret s.

Definition fast_schedule (t : tid) (s : kst) : res kst unit :=
  let s := tset set_state t (Z.lor (state (tasks s t)) RT_SCHED_READY) s in
  let s := enq_soft_ready_task t s in
  let s := tset set_running t 1 s in
  sched* s := switch_to t s in
  CALL_TIMER_HANDLER s.

(** ** One task of a processor at a time goes to hard real time *)

Definition sth_init (s : kst) : kst :=
  set_sthcount (fun c => if (c <? NR_CPUS (tun s))%nat then 1 else sthcount s c)
    (set_queues (fun q => match q with
                          | QSth c => if (c <? NR_CPUS (tun s))%nat then [] else queues s q
                          | _ => queues s q end) s).

Definition __sthsem_wait (t : tid) (c : nat) (s : kst) : res kst Z :=
  let n := sthcount s c - 1 in
  let s := set_sthcount (<[c := n]> (sthcount s)) s in
  if n <? 0 then
    let s := tset set_state t (Z.lor (state (tasks s t)) RT_SCHED_SEMAPHORE) s in
    let s := NON_RTAI_TASK_SUSPEND t s in
    let s := runlink t s in
    let s := enqueue_blocked t (QSth c) 0 s in
    sched* s := rt_schedule s in Done 0 s
  else Done 0 s.

Definition sthsem_wait (fuel : nat) (t : tid) (c : nat) (s : kst) : res kst unit :=
  rt_schedule_soft fuel t (__sthsem_wait t c) s.

Definition sthsem_signal (c : nat) (s : kst) : res kst unit :=
  match first_task (QSth c) s with
  | Some t =>
      let s := set_sthcount (<[c := sthcount s c + 1]> (sthcount s)) s in
      let s := dequeue_blocked t s in
      if state (tasks s t) =? RT_SCHED_READY then Done tt s
      else
        let s := tset set_state t (clear (state (tasks s t)) RT_SCHED_SEMAPHORE) s in
        if state (tasks s t) =? RT_SCHED_READY then
          let s := tset set_state t (Z.lor (state (tasks s t)) RT_SCHED_SFTRDY) s in
          rt_schedule (NON_RTAI_TASK_RESUME t s)
        else Done tt s
  | None => Done tt (set_sthcount (<[c := 1]> (sthcount s)) s)
  end.

(** [steal_from_linux]; [pending] is [signal_pending] of the Linux task. *)
Definition steal_from_linux (fuel : nat) (t : tid) (pending : bool) (s : kst) : res kst unit :=
  let c := runnable_on_cpus (tasks s t) in
  sched* s := sthsem_wait fuel t c s in
  if pending then Done tt (tset set_is_hard t (-1) s)
  else
    let s := if BASE_SOFT_PRIORITY <=? base_priority (tasks s t)
             then tset set_base_priority t (base_priority (tasks s t) - BASE_SOFT_PRIORITY) s else s in
    let s := if BASE_SOFT_PRIORITY <=? priority (tasks s t)
             then tset set_priority t (priority (tasks s t) - BASE_SOFT_PRIORITY) s else s in
    let s := tset set_is_hard t 1 s in
    sched* s := stop Resched s in   (* __ipipe_migrate_head() *)
    let s := tset set_lnxstate t TASK_SOFTREALTIME s in
    sthsem_signal c s.

(** The Linux priority that goes with a real time one. *)
Definition MAX_LINUX_RTPRIO := 99.
Definition linux_prio (p : Z) : Z :=
  let p := if BASE_SOFT_PRIORITY <=? p then p - BASE_SOFT_PRIORITY else p in
  if MAX_LINUX_RTPRIO - p <? 1 then 1 else MAX_LINUX_RTPRIO - p.

(** [give_back_to_linux]; the result is the Linux priority the task should get. *)
Definition give_back_to_linux (t : tid) (keeprio : Z) (s : kst) : res kst Z :=
  let s := runlink t s in
  let s := tset set_state t 0 s in
  let s := pend_wake_up_hts (lnxtsk (tasks s t)) (runnable_on_cpus (tasks s t)) s in
  sched* s := rt_schedule s in
  let s := tset set_is_hard t keeprio s in
  let prio := linux_prio (priority (tasks s t)) in
  Done prio (if keeprio =? 0 then soft_priority t s else s).

(** ** The table of services *)

Record rt_fun_entry := FunEntry { fun_type : Z; fun_fun : Z }.
Section fun_table.
(** The address of [nihil], which a free entry holds. *)
Context (nihil : Z).
Definition MAX_LXRT_FUN := 189.

(** An entry of a module's list: the function and its index; the list ends at
    a null function. *)
Definition native_entry : Type := rt_fun_entry * Z.

Fixpoint reset_rt_fun_entries (l : list native_entry) (tab : Z -> rt_fun_entry) : Z -> rt_fun_entry :=
  match l with
  | [] => tab
  | (f, i) :: l' =>
      if fun_fun f =? 0 then tab
      else reset_rt_fun_entries l' (if MAX_LXRT_FUN <=? i then tab else <[i := FunEntry 1 nihil]> tab)
  end.

(** The walk of [set_rt_fun_entries]: the error, and where the walk has ended. *)
Fixpoint set_entries_loop (l : list native_entry) (error : Z) (tab : Z -> rt_fun_entry) :
    Z * list native_entry * (Z -> rt_fun_entry) :=
  match l with
  | [] => (error, [], tab)
  | (f, i) :: l' =>
      if fun_fun f =? 0 then (error, l, tab)
      else if negb (fun_fun (tab i) =? nihil) then set_entries_loop l' (-1) tab
      else if MAX_LXRT_FUN <=? i then set_entries_loop l' (-1) tab
      else set_entries_loop l' error (<[i := f]> tab)
  end.
Definition set_rt_fun_entries (l : list native_entry) (tab : Z -> rt_fun_entry) : Z * (Z -> rt_fun_entry) :=
  let '(error, rest, tab) := set_entries_loop l 0 tab in
  (0, if error =? 0 then tab else reset_rt_fun_entries rest tab).
End fun_table.
