(* ===== verification/Api.v ===== *)
(** * Services on tasks: api.c. *)

From S2P Require Import Prelude Resume MbxRing Kernel Sched Tasks.

Definition valid_task (t : tid) (s : kst) : bool := magic (tasks s t) =? RT_TASK_MAGIC.
(** A null task argument stands for the caller. *)
Definition or_current (t : option tid) (s : kst) : tid := default (rt_current s) t.
Definition bad_task (t : option tid) (s : kst) : bool :=
  match t with Some t => negb (valid_task t s) | None => false end.

(** ** Policy and priorities *)

Definition rt_set_sched_policy (t : option tid) (pol rr_quantum_ns : Z) (s : kst) : kst :=
  let t := or_current t s in
  let s := tset set_policy t (if pol =? 0 then 0 else 1) s in
  if negb (policy (tasks s t) =? 0) then
    let q := i32 (nano2count (tun s) rr_quantum_ns) in
    let q := if negb (Z.land (u32 q) 0xF0000000 =? 0) || (q =? 0)
             then i32 (linux_tick (smp_times s (runnable_on_cpus (tasks s t)))) else q in
    tset set_yield_time t 0 (tset set_rr_remaining t q (tset set_rr_quantum t q s))
  else s.

Definition rt_get_prio (t : tid) (s : kst) : Z :=
  if negb (valid_task t s) then - EINVAL else base_priority (tasks s t).
Definition rt_get_inher_prio (t : tid) (s : kst) : Z :=
  if negb (valid_task t s) then - EINVAL else priority (tasks s t).
(** The current and the base priority. *)
Definition rt_get_priorities (t : option tid) (s : kst) : option (Z * Z) :=
  let t := or_current t s in
  if negb (valid_task t s) then None else Some (priority (tasks s t), base_priority (tasks s t)).
Definition rt_task_get_info (t : option tid) (s : kst) : option (Z * Z * Z) :=
  let t := or_current t s in
  if negb (valid_task t s) then None
  else Some (period (tasks s t), base_priority (tasks s t), priority (tasks s t)).

Definition rt_change_prio (t : tid) (prio : Z) (s : kst) : res kst Z :=
  if negb (valid_task t s) || (prio <? 0) then Done (- EINVAL) s
  else
    let old := base_priority (tasks s t) in
    let prio := if (is_hard (tasks s t) =? 0) && (prio <? BASE_SOFT_PRIORITY)
                then prio + BASE_SOFT_PRIORITY else prio in
    let s := tset set_base_priority t prio s in
    if (old =? priority (tasks s t)) || (prio <? priority (tasks s t)) then
      let* (map, s) :=
        match prio_turn t prio 0 s with
        | (None, map, s) => Done map s
        | (Some to, map, s) => pass_prio_loop (pass_fuel s) to prio map s
        end in
      sched* s := RT_SCHEDULE_TAC map s in
      Done old s
    else Done old s.

Definition rt_whoami (s : kst) : tid := rt_current s.

Definition rt_task_yield (s : kst) : res kst unit :=
  let cur := rt_current s in
  let c := runnable_on_cpus (tasks s cur) in
  match ready s c with
  | x :: l' =>
      if same x cur then
        match skip_same (fun x => priority (tasks s x)) (priority (tasks s cur)) l' with
        | ([], _) => Done tt s
        | _ => rt_schedule (yield_ready cur s)
        end
      else rt_schedule s
  | [] => if same cur (Linux c) then NoFuel s else rt_schedule s
  end.

(** ** Suspension *)

Definition rt_task_suspend (task : option tid) (s : kst) : res kst Z :=
  if bad_task task s then Done (- EINVAL) s
  else
    let t := or_current task s in
    if negb (task_owns_sems t s) && (suspdepth (tasks s t) =? 0) then
      let s := tset set_suspdepth t 1 s in
      if same t (rt_current s) then
        let s := tset set_blocked_on t (PTask t) s in
        let s := rem_ready_current t s in
        let s := tset set_state t (Z.lor (state (tasks s t)) RT_SCHED_SUSPENDED) s in
        sched* s := rt_schedule s in
        Done (if negb (is_null (blocked_on (tasks s t))) then RTE_UNBLKD
              else suspdepth (tasks s t)) s
      else
        let s := rem_ready_task t s in
        let s := rem_timed_task t s in
        let s := tset set_state t (Z.lor (state (tasks s t)) RT_SCHED_SUSPENDED) s in
        let c := runnable_on_cpus (tasks s t) in
        let s := if negb (c =? cpuid s)%nat then send_sched_ipi (cpu_bit c) s else s in
        Done (suspdepth (tasks s t)) s
    else
      let s := tset set_suspdepth t (suspdepth (tasks s t) + 1) s in
      Done (suspdepth (tasks s t)) s.

Definition rt_task_suspend_if (task : option tid) (s : kst) : Z * kst :=
  if bad_task task s then (- EINVAL, s)
  else
    let t := or_current task s in
    let s := if suspdepth (tasks s t) <? 0
             then tset set_suspdepth t (suspdepth (tasks s t) + 1) s else s in
    (suspdepth (tasks s t), s).

Definition rt_task_suspend_until (task : option tid) (time : Z) (s : kst) : res kst Z :=
  if bad_task task s then Done (- EINVAL) s
  else
    let t := or_current task s in
    if negb (task_owns_sems t s) && (suspdepth (tasks s t) =? 0) then
      let s := tset set_resume_time t time s in
      if smp_time_h s (cpuid s) <? time then
        let s := tset set_suspdepth t 1 s in
        if same t (rt_current s) then
          let s := tset set_blocked_on t (PTask t) s in
          let s := rem_ready_current t s in
          let s := enq_timed_task t s in
          let s := tset set_state t
                     (Z.lor (state (tasks s t)) (Z.lor RT_SCHED_SUSPENDED RT_SCHED_DELAYED)) s in
          sched* s := rt_schedule s in
          Done (if above_higerr (blocked_on (tasks s t)) then RTE_TIMOUT
                else if negb (is_null (blocked_on (tasks s t))) then RTE_UNBLKD
                else suspdepth (tasks s t)) s
        else
          let s := rem_ready_task t s in
          let s := if has (state (tasks s t)) RT_SCHED_DELAYED then s else enq_timed_task t s in
          let s := tset set_state t
                     (Z.lor (state (tasks s t)) (Z.lor RT_SCHED_SUSPENDED RT_SCHED_DELAYED)) s in
          let c := runnable_on_cpus (tasks s t) in
          let s := if negb (c =? cpuid s)%nat then send_sched_ipi (cpu_bit c) s else s in
          Done (suspdepth (tasks s t)) s
      else Done RTE_TMROVRN s
    else
      let s := tset set_suspdepth t (suspdepth (tasks s t) + 1) s in
      Done (suspdepth (tasks s t)) s.

Definition rt_task_suspend_timed (task : option tid) (delay : Z) (s : kst) : res kst Z :=
  rt_task_suspend_until task (rt_get_time s + delay) s.

Definition rt_task_resume (t : tid) (s : kst) : res kst Z :=
  if negb (valid_task t s) then Done (- EINVAL) s
  else
    let n := suspdepth (tasks s t) - 1 in
    let s := tset set_suspdepth t n s in
    if n =? 0 then
      let s := rem_timed_task t s in
      let s := tset set_state t
                 (clear (state (tasks s t)) (Z.lor RT_SCHED_SUSPENDED RT_SCHED_DELAYED)) s in
      if state (tasks s t) =? RT_SCHED_READY then
        let s := enq_ready_task t (tset set_blocked_on t NULL s) in
        sched* s := RT_SCHEDULE t s in Done 0 s
      else Done 0 s
    else Done 0 s.

(** ** Small services *)

Definition rt_get_task_state (t : tid) (s : kst) : Z := state (tasks s t).
Definition rt_linux_use_fpu (flag : Z) (s : kst) : kst :=
  set_tasks (fun t => match t with
    | Linux c => if (c <? online_cpus (tun s))%nat
                 then set_uses_fpu (if flag =? 0 then 0 else 1) (tasks s t) else tasks s t
    | _ => tasks s t end) s.
Definition rt_task_use_fpu (t : tid) (flag : Z) (s : kst) : Z * kst :=
  if negb (valid_task t s) then (- EINVAL, s)
  else (0, tset set_uses_fpu t (if flag =? 0 then 0 else 1) s).
Definition rt_task_signal_handler (t : tid) (handler : Z) (s : kst) : Z * kst :=
  if negb (valid_task t s) then (- EINVAL, s) else (0, tset set_signal t handler s).

(** ** Periods and sleeping *)

(** The common tail: wait for [resume_time] unless already waiting for a time. *)
Definition start_delayed (t : tid) (s : kst) : res kst Z :=
  let s := tset set_suspdepth t 0 s in
  let s := if has (state (tasks s t)) RT_SCHED_DELAYED then s
           else
             let s := rem_ready_task t s in
             let s := tset set_state t
                        (Z.lor (clear (state (tasks s t)) RT_SCHED_SUSPENDED) RT_SCHED_DELAYED) s in
             enq_timed_task t s in
  sched* s := RT_SCHEDULE t s in Done 0 s.

Definition rt_task_make_periodic_relative_ns (task : option tid) (start_delay per : Z) (s : kst) : res kst Z :=
  if bad_task task s then Done (- EINVAL) s
  else
    let t := or_current task s in
    let start := rt_get_time s + nano2count (tun s) start_delay in
    let s := tset set_periodic_resume_time t start (tset set_resume_time t start s) in
    let s := tset set_period t (nano2count (tun s) per) s in
    start_delayed t s.

Definition rt_task_make_periodic (task : option tid) (start_time per : Z) (s : kst) : res kst Z :=
  if bad_task task s then Done (- EINVAL) s
  else
    let t := or_current task s in
    let s := tset set_periodic_resume_time t start_time (tset set_resume_time t start_time s) in
    let s := tset set_period t per s in
    start_delayed t s.

(** The caller leaves the ready chain and waits for its [resume_time]. *)
Definition delay_current (cur : tid) (s : kst) : res kst unit :=
  let s := tset set_state cur (Z.lor (state (tasks s cur)) RT_SCHED_DELAYED) s in
  let s := rem_ready_current cur s in
  rt_schedule (enq_timed_task cur s).

Definition rt_task_wait_period (s : kst) : res kst Z :=
  let cur := rt_current s in
  if negb (resync_frame (tasks s cur) =? 0) then
    let s := tset set_resync_frame cur 0 s in
    Done RTE_TMROVRN (tset set_periodic_resume_time cur (tsc s) (tset set_resume_time cur (tsc s) s))
  else
    let next := periodic_resume_time (tasks s cur) + period (tasks s cur) in
    let s := tset set_periodic_resume_time cur next s in
    if smp_time_h s (cpuid s) <? next then
      let s := tset set_blocked_on cur NULL (tset set_resume_time cur next s) in
      sched* s := delay_current cur s in
      Done (if is_null (blocked_on (tasks s cur)) then 0 else RTE_UNBLKD) s
    else Done RTE_TMROVRN s.

Definition rt_task_set_resume_end_times (resume fin : Z) (s : kst) : res kst unit :=
  let cur := rt_current s in
  let s := tset set_priority cur 0 (tset set_policy cur (-1) s) in
  let s := tset set_resume_time cur
             (if 0 <? resume then resume else resume_time (tasks s cur) - resume) s in
  let s := tset set_period cur
             (if 0 <? fin then fin else resume_time (tasks s cur) - fin) s in
  delay_current cur s.

(** [(task->tnext)->resume_time], in the chain of the task's processor. *)
Definition tnext (t : tid) (s : kst) : tid :=
  let c := runnable_on_cpus (tasks s t) in after (Linux c) t (timed s c).

Definition rt_set_resume_time (t : tid) (time : Z) (s : kst) : Z * kst :=
  if negb (valid_task t s) then (- EINVAL, s)
  else if has (state (tasks s t)) RT_SCHED_DELAYED then
    let s := tset set_resume_time t time s in
    if 0 <? time - resume_time (tasks s (tnext t s)) then (0, enq_timed_task t (rem_timed_task t s))
    else (- ETIME, s)
  else (- ETIME, s).

Definition rt_set_period (t : tid) (per : Z) (s : kst) : Z * kst :=
  if negb (valid_task t s) then (- EINVAL, s) else (0, tset set_period t per s).
Definition next_period (s : kst) : Z :=
  periodic_resume_time (tasks s (rt_current s)) + period (tasks s (rt_current s)).

Definition rt_sleep_until (time : Z) (s : kst) : res kst Z :=
  let cur := rt_current s in
  let s := tset set_resume_time cur time s in
  if smp_time_h s (cpuid s) <? time then
    sched* s := delay_current cur (tset set_blocked_on cur NULL s) in
    Done (if is_null (blocked_on (tasks s cur)) then 0 else RTE_UNBLKD) s
  else Done RTE_TMROVRN s.
Definition rt_sleep (delay : Z) (s : kst) : res kst Z := rt_sleep_until (rt_get_time s + delay) s.

(** ** Unblocking *)

Definition _rt_task_masked_unblock (t : tid) (mask : Z) (s : kst) : res kst Z :=
  if negb (state (tasks s t) =? 0) && negb (state (tasks s t) =? RT_SCHED_READY) then
    let s := if has mask RT_SCHED_DELAYED then rem_timed_task t s else s in
    let s := if has (Z.land mask (state (tasks s t))) RT_SCHED_SUSPENDED && (0 <? suspdepth (tasks s t))
             then tset set_suspdepth t 0 s else s in
    let s := tset set_state t (clear (state (tasks s t)) mask) s in
    if state (tasks s t) =? RT_SCHED_READY then
      let s := enq_ready_task t (tset set_blocked_on t RTP_UNBLKD s) in
      sched* s := RT_SCHEDULE t s in Done RTE_UNBLKD s
    else Done RTE_UNBLKD s
  else Done 0 s.

Definition rt_task_masked_unblock (t : tid) (mask : Z) (s : kst) : res kst Z :=
  if negb (valid_task t s) then Done (- EINVAL) s else _rt_task_masked_unblock t mask s.

(** [rt_nanosleep]: the counts that were left when the sleep ended early. *)
Definition rt_nanosleep (sec nsec : Z) (s : kst) : res kst (Z * Z) :=
  if (1000000000 <=? nsec) || (nsec <? 0) || (sec <? 0) then Done (- EINVAL, 0) s
  else
    let expire := rt_get_time s + nano2count (tun s) (sec * 1000000000 + nsec) in
    let* (_, s) := rt_sleep_until expire s in
    let left := expire - rt_get_time s in
    Done (if 0 <? left then (-4, left) else (0, 0)) s.

(** The Linux side wants the task back: [lxrt_intercept_sig_wakeup] of sched.c. *)
Definition lxrt_intercept_sig_wakeup (lnx : Z) (s : kst) : res kst Z :=
  match tskext s lnx with
  | None => Done 0 s
  | Some t =>
      let s := tset set_unblocked t 1 s in
      if negb (state (tasks s t) =? 0) && negb (state (tasks s t) =? RT_SCHED_READY) then
        let* (_, s) := _rt_task_masked_unblock t (Z.lnot RT_SCHED_READY) s in Done 0 s
      else Done 0 s
  end.
