(* ===== verification/Sem.v ===== *)
(** * Semaphores, conditions, readers-writer locks and spinlocks: sem.c. *)

From S2P Require Import Prelude Resume MbxRing Kernel Sched Tasks.

Definition BIN_SEM := 1.
Definition CNT_SEM := 2.
Definition RES_SEM := 3.
Definition PRIO_Q := 0.
Definition FIFO_Q := 4.
Definition RESEM_RECURS := 1.

Abbreviation SEMW := (Z.lor RT_SCHED_SEMAPHORE RT_SCHED_DELAYED).

(** [CHECK_SEM_MAGIC]. *)
Definition bad_sem (m : semid) (s : kst) : bool :=
  same m SemNULL || negb (semmagic (sems s m) =? RT_SEM_MAGIC).

(** ** Initialisation *)

Definition sem_init (value type : Z) : SEM :=
  let qt := if Z.land type RES_SEM =? RES_SEM then 0
            else if Z.land type FIFO_Q =? 0 then 0 else 1 in
  let ty := Z.land type 3 - 2 in
  if (ty <? 0) && (1 <? value) then MkSem RT_SEM_MAGIC ty 0 1 NULL qt
  else if 0 <? ty then MkSem RT_SEM_MAGIC 1 value 1 NULL qt
  else MkSem RT_SEM_MAGIC ty 0 value NULL qt.

Definition rt_typed_sem_init (m : semid) (value type : Z) (s : kst) : kst :=
  qset (QSem m) [] (set_sems (<[m := sem_init value type]> (sems s)) s).

Definition rt_sem_init (m : semid) (value : Z) (s : kst) : kst := rt_typed_sem_init m value CNT_SEM s.

Definition rt_sem_count (m : semid) (s : kst) : Z := count (sems s m).

(** ** Waking waiters *)

(** The body of the wake-up loops of [rt_sem_broadcast]. *)
Definition wake_waiter (t : tid) (map : Z) (s : kst) : Z * kst :=
  let '(woken, s) := unblock SEMW t (rem_timed_task t s) in
  (if woken then set_cpu_bit t map s else map, s).

(** The owner [cur] of a resource leaves it: its priority goes back, and a
    suspension or a deletion deferred while it owned the resource happens now.
    [asked] is the task whose [suspdepth] the code reads for the deletion; a
    null one faults.  [del] is [rt_task_delete]. *)
Definition release_owner (del : tid -> kst -> res kst Z) (cur : tid) (asked : option tid) (s : kst) : res kst bool :=
  let '(sched, s) := dequeue_resqel_reset_task_priority cur s in
  let sched := negb (sched =? 0) in
  if negb (suspdepth (tasks s cur) =? 0) then
    if 0 <? suspdepth (tasks s cur) then
      let s := tset set_state cur (Z.lor (state (tasks s cur)) RT_SCHED_SUSPENDED) s in
      Done true (rem_ready_current cur s)
    else match asked with
         | None => Fault s
         | Some a => if suspdepth (tasks s a) =? RT_RESEM_SUSPDEL
                     then let* (_, s) := del cur s in Done sched s else Done sched s
         end
  else Done sched s.

Section sem_signal.
Context (del : tid -> kst -> res kst Z).

(** From the label [res] on: [task] is the waiter taken from the queue and
    [tosched] tells whether it has been readied. *)
Definition sem_signal_res (m : semid) (task : option tid) (tosched : bool) (s : kst) : res kst Z :=
  if 0 <? semtype (sems s m) then
    let cur := rt_current s in
    let s := sset set_owndby m (task_ptr task) s in
    let* (sched, s) := release_owner del cur task s in
    sched* s :=
      match task with
      | Some t => if tosched then if sched then RT_SCHEDULE_BOTH t s else RT_SCHEDULE t s
                  else if sched then rt_schedule s else Done tt s
      | None => if sched then rt_schedule s else Done tt s
      end in
    Done 0 s
  else Done 0 s.

Definition sem_signal_queue (m : semid) (s : kst) : res kst Z :=
  match first_task (QSem m) s with
  | Some t =>
      let '(woken, s) := unblock SEMW t (rem_timed_task t (dequeue_blocked t s)) in
      if woken then
        if semtype (sems s m) <=? 0 then sched* s := RT_SCHEDULE t s in Done 0 s
        else
          let s := tset set_running t (- Z.land (state (tasks s t)) RT_SCHED_DELAYED) s in
          sem_signal_res m (Some t) true s
      else sem_signal_res m (Some t) false s
  | None => sem_signal_res m None false s
  end.

Definition rt_sem_signal_with (m : semid) (s : kst) : res kst Z :=
  if bad_sem m s then Done RTE_OBJINV s
  else
    let sm := sems s m in
    if negb (semtype sm =? 0) then
      if negb (restype sm =? 0)
         && (is_null (owndby sm) || negb (same (owndby sm) (PTask (rt_current s)))) then Done RTE_PERM s
      else if 1 <? semtype sm then Done 0 (sset set_semtype m (semtype sm - 1) s)
      else sem_signal_queue m (sset set_count m (if 1 <? count sm + 1 then 1 else count sm + 1) s)
    else sem_signal_queue m (sset set_count m (count sm + 1) s).
End sem_signal.

(** [rt_sem_signal] may delete the caller, and deleting a task that waits for a
    mailbox signals a semaphore of the mailbox. *)
Fixpoint sem_signal_n (n : nat) (m : semid) (s : kst) : res kst Z :=
  rt_sem_signal_with
    (fun t s => match n with O => NoFuel s | S n' => rt_task_delete (sem_signal_n n') t s end) m s.
Definition rt_sem_signal : semid -> kst -> res kst Z := sem_signal_n 1.
Definition task_delete : tid -> kst -> res kst Z := rt_task_delete rt_sem_signal.

(** ** Deletion and broadcast *)

(** The walk of [rt_sem_delete]; the waiters stay linked. *)
Fixpoint sem_delete_loop (l : list tid) (map : Z) (s : kst) : Z * kst :=
  match l with
  | [] => (map, s)
  | t :: l' =>
      let s := rem_timed_task t s in
      if state (tasks s t) =? RT_SCHED_READY then sem_delete_loop l' map s
      else
        let s := tset set_state t (clear (state (tasks s t)) SEMW) s in
        if state (tasks s t) =? RT_SCHED_READY then
          let s := enq_ready_task t (tset set_blocked_on t RTP_OBJREM s) in
          sem_delete_loop l' (set_cpu_bit t map s) s
        else sem_delete_loop l' map s
  end.

Definition rt_sem_delete (m : semid) (s : kst) : res kst Z :=
  if bad_sem m s then Done RTE_OBJINV s
  else
    let s := sset set_semmagic m 0 s in
    let '(map, s) := sem_delete_loop (queues s (QSem m)) 0 s in
    let sched := negb (map =? 0) in
    let map := Z.clearbit map (Z.of_nat (cpuid s)) in
    let* (sched, s) :=
      match ptr_task (owndby (sems s m)) with
      | Some t =>
          if 0 <? semtype (sems s m) then
            let '(r, s) := dequeue_resqel_reset_task_priority t s in
            let sched := sched || negb (r =? 0) in
            if negb (suspdepth (tasks s t) =? 0) then
              if 0 <? suspdepth (tasks s t) then
                let s := tset set_state t (Z.lor (state (tasks s t)) RT_SCHED_SUSPENDED) s in
                Done true (rem_ready_task t s)
              else if suspdepth (tasks s t) =? RT_RESEM_SUSPDEL then
                let* (_, s) := task_delete t s in Done sched s
              else Done sched s
            else Done sched s
          else Done sched s
      | None => Done sched s
      end in
    if sched then
      sched* s := (if map =? 0 then rt_schedule s else RT_SCHEDULE_MAP_BOTH map s) in Done 0 s
    else Done 0 s.

(** The loop of [rt_sem_broadcast]: the head of the queue goes, until it is
    empty; the lock is opened after each waiter. *)
Fixpoint broadcast_loop (fuel : nat) (m : semid) (map : Z) (s : kst) : res kst Z :=
  match first_task (QSem m) s with
  | None => Done map s
  | Some t =>
      match fuel with
      | O => NoFuel s
      | S fuel =>
          let '(map, s) := wake_waiter t map (dequeue_blocked t s) in
          sched* s := stop Unlocked s in
          broadcast_loop fuel m map s
      end
  end.

Definition rt_sem_broadcast (fuel : nat) (m : semid) (s : kst) : res kst Z :=
  if bad_sem m s then Done RTE_OBJINV s
  else
    let* (map, s) := broadcast_loop fuel m 0 s in
    let s := sset set_count m 0 s in
    sched* s := RT_SCHEDULE_TAC map s in
    Done 0 s.

(** ** Waiting *)

(** [UBI_MAIOR_MINOR_CESSAT_WAIT]: a resource granted to a task that has not run
    yet goes to a caller of higher priority; [None] when it does not. *)
Definition ubi_maior (m : semid) (cur : tid) (s : kst) : option kst :=
  match ptr_task (owndby (sems s m)) with
  | Some t =>
      if (priority (tasks s cur) <? priority (tasks s t)) && (running (tasks s t) <=? 0) then
        let s :=
          if running (tasks s t) =? 0 then
            let s := sset set_count m (count (sems s m) - 1) s in
            let s := rem_ready_task t s in
            tset set_state t (Z.lor (state (tasks s t)) RT_SCHED_SEMAPHORE) s
          else if smp_time_h s (runnable_on_cpus (tasks s t)) <? resume_time (tasks s t) then
            let s := sset set_count m (count (sems s m) - 1) s in
            let s := rem_ready_task t s in
            let s := tset set_state t (Z.lor (state (tasks s t)) SEMW) s in
            enq_timed_task t s
          else s in
        let s := enqueue_blocked t (QSem m) PRIO_Q s in
        Some (enqueue_resqel cur (sset set_owndby m (PTask cur) s))
      else None
  | None => None
  end.

(** The owner asks again: one level more, or a deadlock. *)
Definition own_again (m : semid) (s : kst) : Z * kst :=
  let sm := sems s m in
  if 0 <? restype sm then (semtype sm + 1, sset set_semtype m (semtype sm + 1) s)
  else (RTE_DEADLOK, s).
Definition owns_restype (m : semid) (cur : tid) (s : kst) : bool :=
  negb (restype (sems s m) =? 0) && same (owndby (sems s m)) (PTask cur).

(** A resource goes to [cur]. *)
Definition take_resource (m : semid) (cur : tid) (s : kst) : kst :=
  if 0 <? semtype (sems s m) then enqueue_resqel cur (sset set_owndby m (PTask cur) s) else s.

(** A waiter that was not signalled leaves the queue. *)
Definition leave_queue (m : semid) (cur : tid) (s : kst) : kst :=
  let s := sem_giveback m (dequeue_blocked cur s) in
  match ptr_task (owndby (sems s m)) with
  | Some o => if 0 <? semtype (sems s m) then (set_task_prio_from_resq o s).2 else s
  | None => s
  end.

(** The end of a wait: how it ended is in [blocked_on]; [late] is the error of
    a waiter that is still in the queue. *)
Definition sem_woken (m : semid) (cur : tid) (late : ptr -> Z) (s : kst) : Z * kst :=
  let retp := blocked_on (tasks s cur) in
  if is_null retp then let n := count (sems s m) in (n, take_resource m cur s)
  else if negb (same retp RTP_OBJREM) then (late retp, leave_queue m cur s)
  else (RTE_OBJREM, tset set_prio_passed_to cur NULL s).

(** The blocking part of the waits, once the semaphore is not available. *)
Definition sem_block (m : semid) (cur : tid) (map : Z) (timeout : bool) (s : kst) : res kst unit :=
  let s := sset set_count m (count (sems s m) - 1) s in
  let s := tset set_state cur
             (Z.lor (state (tasks s cur)) (if timeout then SEMW else RT_SCHED_SEMAPHORE)) s in
  let s := rem_ready_current cur s in
  let s := enqueue_blocked cur (QSem m) (qtype (sems s m)) s in
  let s := if timeout then enq_timed_task cur s else s in
  RT_SCHEDULE_MAP_BOTH map s.

(** Before it blocks, a caller of a resource semaphore may take it over, may be
    its owner, or passes its priority on; [inl] returns at once. *)
Definition sem_contend (m : semid) (cur : tid) (s : kst) : res kst (Z + Z) :=
  if 0 <? semtype (sems s m) then
    match ubi_maior m cur s with
    | Some s => Done (inl 1) s
    | None =>
        if owns_restype m cur s then let '(r, s) := own_again m s in Done (inl r) s
        else
          let* (map, s) := pass_prio (owndby (sems s m)) cur s in
          Done (inr map) s
    end
  else Done (inr 0) s.

Definition rt_sem_wait (m : semid) (s : kst) : res kst Z :=
  if bad_sem m s then Done RTE_OBJINV s
  else
    let cur := rt_current s in
    let n := count (sems s m) in
    if n <=? 0 then
      let* (c, s) := sem_contend m cur s in
      match c with
      | inl r => Done r s
      | inr map =>
          sched* s := sem_block m cur map false s in
          let '(r, s) := sem_woken m cur (fun _ => RTE_UNBLKD) s in Done r s
      end
    else Done n (take_resource m cur (sset set_count m (n - 1) s)).

Definition rt_sem_wait_if (m : semid) (s : kst) : res kst Z :=
  if bad_sem m s then Done RTE_OBJINV s
  else
    let cur := rt_current s in
    let n := count (sems s m) in
    if n <=? 0 then
      match (if 0 <? semtype (sems s m) then ubi_maior m cur s else None) with
      | Some s => Done 1 s
      | None => if owns_restype m cur s then let '(r, s) := own_again m s in Done r s else Done n s
      end
    else Done n (take_resource m cur (sset set_count m (n - 1) s)).

Definition late_until (retp : ptr) : Z := if above_higerr retp then RTE_TIMOUT else RTE_UNBLKD.

Definition rt_sem_wait_until (m : semid) (time : Z) (s : kst) : res kst Z :=
  if bad_sem m s then Done RTE_OBJINV s
  else
    let cur := rt_current s in
    let n := count (sems s m) in
    if n <=? 0 then
      let s := tset set_blocked_on cur (PQueue (QSem m)) s in
      let s := tset set_resume_time cur time s in
      if smp_time_h s (cpuid s) <? time then
        let* (c, s) := sem_contend m cur s in
        match c with
        | inl r => Done r s
        | inr map =>
            sched* s := sem_block m cur map true s in
            let '(r, s) := sem_woken m cur late_until s in Done r s
        end
      else
        (* not queued: [dequeue_blocked] will find the links closed on themselves *)
        let '(r, s) := sem_woken m cur late_until (sset set_count m (n - 1) s) in Done r s
    else Done n (take_resource m cur (sset set_count m (n - 1) s)).

Definition rt_sem_wait_timed (m : semid) (delay : Z) (s : kst) : res kst Z :=
  rt_sem_wait_until m (rt_get_time s + delay) s.

(** The barrier keeps in [owndby] how many tasks it is for. *)
Definition barrier_size (m : semid) (s : kst) : Z :=
  match owndby (sems s m) with PInt z => z | _ => RTAI_TIME_LIMIT end.
Definition rt_sem_wait_barrier (fuel : nat) (m : semid) (s : kst) : res kst Z :=
  if bad_sem m s then Done RTE_OBJINV s
  else
    let s := if is_null (owndby (sems s m)) then
               let n := count (sems s m) in
               let s := sset set_owndby m (PInt (if n <? 1 then 1 else n)) s in
               sset set_count m 0 (sset set_semtype m 0 s)
             else s in
    if 1 - count (sems s m) <? barrier_size m s then
      let* (_, s) := rt_sem_wait m s in Done (-1) s
    else
      let* (_, s) := rt_sem_broadcast fuel m s in Done 0 s.

(** ** Conditions *)

Definition rt_cond_signal (m : semid) (s : kst) : res kst Z :=
  if bad_sem m s then Done RTE_OBJINV s
  else match first_task (QSem m) s with
  | Some t =>
      let '(woken, s) := unblock SEMW t (rem_timed_task t (dequeue_blocked t s)) in
      if woken then sched* s := RT_SCHEDULE t s in Done 0 s else Done 0 s
  | None => Done 0 s
  end.

(** [rt_cndmtx_signal]: release the mutex at once, however deep it is owned. *)
Definition rt_cndmtx_signal (mtx : semid) (cur : tid) (s : kst) : res kst Z :=
  let type := semtype (sems s mtx) in
  let s := if 1 <? type then sset set_semtype mtx 1 s else s in
  let n := count (sems s mtx) + 1 in
  let s := sset set_count mtx (if 1 <? n then 1 else n) s in
  let task := first_task (QSem mtx) s in
  let s :=
    match task with
    | Some t =>
        let '(woken, s) := unblock SEMW t (rem_timed_task t (dequeue_blocked t s)) in
        if woken then tset set_running t (- Z.land (state (tasks s t)) RT_SCHED_DELAYED) s else s
    | None => s
    end in
  let s := sset set_owndby mtx NULL s in
  let s := (dequeue_resqel_reset_task_priority cur s).2 in
  sched* s := match task with Some t => RT_SCHEDULE_BOTH t s | None => rt_schedule s end in
  Done type s.

(** How a wait on a condition has ended. *)
Definition cond_woken (cur : tid) (late : ptr -> Z) (s : kst) : Z * kst :=
  let retp := blocked_on (tasks s cur) in
  if same retp RTP_OBJREM then (RTE_OBJREM, s)
  else if negb (is_null retp) then (late retp, dequeue_blocked cur s)
  else (0, s).

(** Take the mutex again, at the depth it was released from. *)
Definition cond_relock (mtx : semid) (type retval : Z) (s : kst) : res kst Z :=
  sched* s := stop Unlocked s in
  let* (r, s) := rt_sem_wait mtx s in
  Done retval (if r <? RTE_LOWERR then sset set_semtype mtx type s else s).

Definition rt_cond_wait (cnd mtx : semid) (s : kst) : res kst Z :=
  if bad_sem cnd s || bad_sem mtx s then Done RTE_OBJINV s
  else
    let cur := rt_current s in
    if negb (same (owndby (sems s mtx)) (PTask cur)) then Done RTE_PERM s
    else
      let s := tset set_state cur (Z.lor (state (tasks s cur)) RT_SCHED_SEMAPHORE) s in
      let s := rem_ready_current cur s in
      let s := enqueue_blocked cur (QSem cnd) (qtype (sems s cnd)) s in
      let* (type, s) := rt_cndmtx_signal mtx cur s in
      let '(retval, s) := cond_woken cur (fun _ => RTE_UNBLKD) s in
      cond_relock mtx type retval s.

Definition rt_cond_wait_until (cnd mtx : semid) (time : Z) (s : kst) : res kst Z :=
  if bad_sem cnd s || bad_sem mtx s then Done RTE_OBJINV s
  else
    let cur := rt_current s in
    if negb (same (owndby (sems s mtx)) (PTask cur)) then Done RTE_PERM s
    else
      let s := tset set_resume_time cur time s in
      if smp_time_h s (cpuid s) <? time then
        let s := tset set_state cur (Z.lor (state (tasks s cur)) SEMW) s in
        let s := rem_ready_current cur s in
        let s := enqueue_blocked cur (QSem cnd) (qtype (sems s cnd)) s in
        let s := enq_timed_task cur s in
        let* (type, s) := rt_cndmtx_signal mtx cur s in
        let '(retval, s) := cond_woken cur late_until s in
        cond_relock mtx type retval s
      else Done RTE_TIMOUT s.

Definition rt_cond_wait_timed (cnd mtx : semid) (delay : Z) (s : kst) : res kst Z :=
  rt_cond_wait_until cnd mtx (rt_get_time s + delay) s.

(** ** Readers-writer locks *)

Definition rt_typed_rwl_init (r : nat) (type : Z) (s : kst) : kst :=
  let s := rt_typed_sem_init (WrMtx r) type RES_SEM s in
  let s := rt_typed_sem_init (WrSem r) 0 (Z.lor CNT_SEM PRIO_Q) s in
  rt_typed_sem_init (RdSem r) 0 (Z.lor CNT_SEM PRIO_Q) s.

Definition rt_rwl_delete (r : nat) (s : kst) : res kst Z :=
  let* (r1, s) := rt_sem_delete (RdSem r) s in
  let* (r2, s) := rt_sem_delete (WrSem r) s in
  let* (r3, s) := rt_sem_delete (WrMtx r) s in
  Done (if Z.lor r1 (Z.lor r2 r3) =? 0 then 0 else RTE_OBJINV) s.

(** [rdsem.owndby], which the locks use as a volatile int: the number of readers. *)
Definition readers (r : nat) (s : kst) : Z :=
  match owndby (sems s (RdSem r)) with PInt z => z | _ => 0 end.
Definition set_readers (r : nat) (n : Z) (s : kst) : kst := sset set_owndby (RdSem r) (PInt n) s.
Definition wr_owner (r : nat) (s : kst) : ptr := owndby (sems s (WrMtx r)).

(** Readers wait for the writer, and for waiting writers of their priority or higher. *)
Definition rd_must_wait (r : nat) (cur : tid) (s : kst) : bool :=
  negb (is_null (wr_owner r s)) ||
  match first_task (QSem (WrSem r)) s with
  | Some w => priority (tasks s w) <=? priority (tasks s cur) | None => false end.

(** The loop of the read locks; [wait] is the wait on [rdsem]. *)
Fixpoint rdlock_loop (fuel : nat) (wait : kst -> res kst Z) (r : nat) (cur : tid) (s : kst) : res kst Z :=
  if rd_must_wait r cur s then
    match fuel with
    | O => NoFuel s
    | S fuel =>
        if same (wr_owner r s) (PTask cur) then Done RTE_RWLINV s
        else
          let* (ret, s) := wait s in
          if RTE_LOWERR <=? ret then Done ret s else rdlock_loop fuel wait r cur s
    end
  else Done 0 (set_readers r (readers r s + 1) s).

Definition rt_rwl_rdlock (fuel : nat) (r : nat) (s : kst) : res kst Z :=
  rdlock_loop fuel (rt_sem_wait (RdSem r)) r (rt_current s) s.
Definition rt_rwl_rdlock_until (fuel : nat) (r : nat) (time : Z) (s : kst) : res kst Z :=
  rdlock_loop fuel (rt_sem_wait_until (RdSem r) time) r (rt_current s) s.
Definition rt_rwl_rdlock_timed (fuel : nat) (r : nat) (delay : Z) (s : kst) : res kst Z :=
  rt_rwl_rdlock_until fuel r (rt_get_time s + delay) s.
Definition rt_rwl_rdlock_if (r : nat) (s : kst) : Z * kst :=
  if negb (rd_must_wait r (rt_current s) s) then (0, set_readers r (readers r s + 1) s) else (-1, s).

(** The loop of the write locks: wait on [wrsem] while there are readers. *)
Fixpoint wrlock_loop (fuel : nat) (wait : semid -> kst -> res kst Z) (r : nat) (s : kst) : res kst Z :=
  if negb (is_null (owndby (sems s (RdSem r)))) then
    match fuel with
    | O => NoFuel s
    | S fuel =>
        let* (ret, s) := wait (WrSem r) s in
        if RTE_LOWERR <=? ret then Done ret s else wrlock_loop fuel wait r s
    end
  else
    let* (ret, s) := wait (WrMtx r) s in
    if RTE_LOWERR <=? ret then Done ret s else Done 0 s.

Definition rt_rwl_wrlock (fuel : nat) (r : nat) (s : kst) : res kst Z := wrlock_loop fuel rt_sem_wait r s.
Definition rt_rwl_wrlock_until (fuel : nat) (r : nat) (time : Z) (s : kst) : res kst Z :=
  wrlock_loop fuel (fun m => rt_sem_wait_until m time) r s.
Definition rt_rwl_wrlock_timed (fuel : nat) (r : nat) (delay : Z) (s : kst) : res kst Z :=
  rt_rwl_wrlock_until fuel r (rt_get_time s + delay) s.
Definition rt_rwl_wrlock_if (r : nat) (s : kst) : res kst Z :=
  if is_null (owndby (sems s (RdSem r))) then
    let* (ret, s) := rt_sem_wait_if (WrMtx r) s in
    if (0 <? ret) && (ret <? RTE_LOWERR) then Done 0 s else Done (-1) s
  else Done (-1) s.

(** Whom an unlock lets in: the first waiting writer, or all the readers. *)
Definition rwl_next (fuel : nat) (r : nat) (s : kst) : res kst Z :=
  if is_null (wr_owner r s) && is_null (owndby (sems s (RdSem r))) then
    match first_task (QSem (WrSem r)) s, first_task (QSem (RdSem r)) s with
    | Some w, Some d =>
        if priority (tasks s w) <=? priority (tasks s d) then rt_sem_signal (WrSem r) s
        else rt_sem_broadcast fuel (RdSem r) s
    | Some _, None => rt_sem_signal (WrSem r) s
    | None, Some _ => rt_sem_broadcast fuel (RdSem r) s
    | None, None => Done 0 s
    end
  else Done 0 s.

Definition rt_rwl_unlock (fuel : nat) (r : nat) (s : kst) : res kst Z :=
  let cur := rt_current s in
  if negb (same (wr_owner r s) (PTask cur)) && is_null (owndby (sems s (RdSem r))) then Done RTE_PERM s
  else
    let* (_, s) :=
      if same (wr_owner r s) (PTask cur) then rt_sem_signal (WrMtx r) s
      else Done 0 (set_readers r (readers r s - 1) s) in
    sched* s := stop Unlocked s in
    let* (_, s) := rwl_next fuel r s in Done 0 s.

(** ** Spinlocks *)

Definition splset (l : nat) (v : SPL) (s : kst) : kst := set_spls (<[l := v]> (spls s)) s.
Definition rt_spl_init (l : nat) (s : kst) : kst := splset l (MkSpl None 0 (splflags (spls s l))) s.

(** [cmpxchg(&spl->owndby, 0L, rt_current)]: whether the lock was free, and is taken. *)
Definition spl_cmpxchg (l : nat) (cur : tid) (s : kst) : bool * kst :=
  match splowndby (spls s l) with
  | None => (true, splset l (MkSpl (Some cur) (splcount (spls s l)) (splflags (spls s l))) s)
  | Some _ => (false, s)
  end.
Definition spl_owned (l : nat) (s : kst) : bool := same (splowndby (spls s l)) (Some (rt_current s)).
Definition spl_nest (l : nat) (d : Z) (s : kst) : kst :=
  let v := spls s l in splset l (MkSpl (splowndby v) (splcount v + d) (splflags v)) s.
Definition spl_flags (l : nat) (flags : Z) (s : kst) : kst :=
  let v := spls s l in splset l (MkSpl (splowndby v) (splcount v) flags) s.

(** The busy wait; the other processors run between two tries. *)
Fixpoint spl_spin (fuel : nat) (l : nat) (cur : tid) (s : kst) : res kst unit :=
  let '(got, s) := spl_cmpxchg l cur s in
  if got then Done tt s
  else match fuel with
       | O => NoFuel s
       | S fuel => sched* s := stop Unlocked s in spl_spin fuel l cur s
       end.

Definition rt_spl_lock (fuel : nat) (l : nat) (flags : Z) (s : kst) : res kst Z :=
  if spl_owned l s then Done 0 (spl_nest l 1 s)
  else sched* s := spl_spin fuel l (rt_current s) s in Done 0 (spl_flags l flags s).

Definition rt_spl_lock_if (l : nat) (flags : Z) (s : kst) : Z * kst :=
  if spl_owned l s then (0, spl_nest l 1 s)
  else let '(got, s) := spl_cmpxchg l (rt_current s) s in
       if got then (0, spl_flags l flags s) else (-1, s).

(** The spin of the timed lock: until the lock is taken or the time is over. *)
Fixpoint spl_spin_until (fuel : nat) (l : nat) (cur : tid) (end_time : Z) (s : kst) : res kst bool :=
  let '(got, s) := spl_cmpxchg l cur s in
  if got then Done true s
  else if tsc s <? end_time then
    match fuel with
    | O => NoFuel s
    | S fuel => sched* s := stop Unlocked s in spl_spin_until fuel l cur end_time s
    end
  else Done false s.
Definition rt_spl_lock_timed (fuel : nat) (l : nat) (ns flags : Z) (s : kst) : res kst Z :=
  if spl_owned l s then Done 0 (spl_nest l 1 s)
  else
    let end_time := tsc s + rtai_imuldiv ns (clock_freq (tun s)) 1000000000 in
    let* (got, s) := spl_spin_until fuel l (rt_current s) end_time s in
    if (got : bool) then Done 0 (spl_flags l flags s) else Done (-1) s.

(** The result is the return value and the interrupt flags put back. *)
Definition rt_spl_unlock (l : nat) (flags : Z) (s : kst) : Z * Z * kst :=
  if spl_owned l s then
    let v := spls s l in
    let s := if negb (splcount v =? 0) then spl_nest l (-1) s
             else splset l (MkSpl None 0 (splflags v)) s in
    (0, splflags (spls s l), s)
  else (-1, flags, s).
