(* ===== verification/SemFacts.v ===== *)
(** * Theorems on semaphores: the invariant of a semaphore and its queue, the
    waits and the signal. *)

From S2P Require Import Prelude Resume MbxRing Kernel KernelFacts Sched Keeps Tasks Sem.
From stdpp Require Import list sets.
#[local] Open Scope Z_scope.

(** ** The invariant *)

Abbreviation waiters s m := (queues s (QSem m)).

(** The count of a semaphore, when negative, is the number of its waiters;
    binary and resource semaphores count up to one; a resource is free, at
    count one, or owned by a task that does not wait for it. *)
Record sem_inv (m : semid) (s : kst) : Prop := {
  si_nodup : NoDup (waiters s m);
  si_count : zlen (waiters s m) = Z.max 0 (- count (sems s m));
  si_bound : semtype (sems s m) <> 0 -> count (sems s m) <= 1;
  si_waits : forall t, t ∈ waiters s m ->
    blocked_on (tasks s t) <> NULL /\ blocked_on (tasks s t) <> RTP_OBJREM;
  si_owner : 0 < semtype (sems s m) -> restype (sems s m) <> 0 /\
    (owndby (sems s m) = NULL /\ count (sems s m) = 1 \/
     exists o, owndby (sems s m) = PTask o /\ count (sems s m) <= 0 /\ o ∉ waiters s m)
}.

(** It is about the semaphore, its queue and what the waiters are blocked on. *)
Lemma sem_inv_ext m s s' :
  sems s' m = sems s m -> waiters s' m = waiters s m ->
  (forall t, t ∈ waiters s m -> blocked_on (tasks s' t) = blocked_on (tasks s t)) ->
  sem_inv m s -> sem_inv m s'.
Proof.
  intros Hs Hq Hb []. split; rewrite ?Hs, ?Hq; try done.
  intros t Ht. rewrite Hb by done. auto.
Qed.

Lemma sem_inv_keeps m s s' : keeps s s' -> sem_inv m s -> sem_inv m s'.
Proof. intros []. apply sem_inv_ext; [by rewrite k_sems|by rewrite k_queues|auto]. Qed.

(** What the others promise to [cur], which waits for [m]: the invariant holds;
    [cur] is in the queue until it is signalled, and then it has been taken out
    and owns the resource; or the semaphore has been deleted. *)
Definition woken_ok (m : semid) (cur : tid) (s : kst) : Prop :=
  blocked_on (tasks s cur) = RTP_OBJREM \/
  sem_inv m s /\
  (if decide (blocked_on (tasks s cur) = NULL)
  then (cur ∉ waiters s m) /\ (0 < semtype (sems s m) -> owndby (sems s m) = PTask cur)
  else cur ∈ waiters s m).

Lemma woken_ok_keeps m cur s s' : keeps s s' -> woken_ok m cur s -> woken_ok m cur s'.
Proof.
  intros Hk. pose proof Hk as []. unfold woken_ok. rewrite k_blocked, k_queues, k_sems.
  intros [|[Hi H]]; [by left|right]. split; [|done]. by apply (sem_inv_keeps m s).
Qed.

(** The call that stops under this promise. *)
Abbreviation semwp m cur := (wp (woken_ok m cur) (fun _ s' => woken_ok m cur s')).

Lemma semwp_schedule m cur map s :
  woken_ok m cur s -> semwp m cur (RT_SCHEDULE_MAP_BOTH map s) (fun _ s' => woken_ok m cur s').
Proof.
  apply safe_RT_SCHEDULE_MAP_BOTH; auto. apply woken_ok_keeps.
Qed.

(** ** Waiting *)

Lemma enqueue_blocked_perm t q qt s : queues (enqueue_blocked t q qt s) q ≡ₚ t :: queues s q.
Proof.
  unfold enqueue_blocked. rewrite qset_same. cbn. destruct (_ =? 0).
  - by rewrite prio_insert_perm.
  - by rewrite Permutation_app_comm.
Qed.
Lemma elem_of_enqueue_blocked t q qt s x :
  x ∈ queues (enqueue_blocked t q qt s) q <-> x = t \/ x ∈ queues s q.
Proof. by rewrite enqueue_blocked_perm, elem_of_cons. Qed.
Lemma enqueue_blocked_blocked t q qt s x :
  blocked_on (tasks (enqueue_blocked t q qt s) x)
  = if decide (x = t) then PQueue q else blocked_on (tasks s x).
Proof.
  unfold enqueue_blocked. cbn. unfold insert, fn_insert. repeat case_decide; try congruence. done.
Qed.

(** Joining the queue takes a unit, which makes the count negative. *)
Lemma join_queue m cur qt s :
  sem_inv m s -> cur ∉ waiters s m -> count (sems s m) <= 0 ->
  (0 < semtype (sems s m) -> owndby (sems s m) <> PTask cur) ->
  let s' := enqueue_blocked cur (QSem m) qt (sset set_count m (count (sems s m) - 1) s) in
  sem_inv m s' /\ cur ∈ waiters s' m /\ blocked_on (tasks s' cur) = PQueue (QSem m).
Proof.
  intros [Hn Hc Hb Hw Ho] Hcur Hneg Hown s'.
  assert (sems s' m = set_count (count (sems s m) - 1) (sems s m)) as Es by apply sset_same.
  assert (waiters s' m ≡ₚ cur :: waiters s m) as Ep.
  { exact (enqueue_blocked_perm cur (QSem m) qt (sset set_count m (count (sems s m) - 1) s)). }
  split_and!.
  - split; rewrite ?Es.
    + rewrite Ep. by apply NoDup_cons.
    + unfold zlen. rewrite Ep. unfold zlen in Hc. cbn. lia.
    + cbn. lia.
    + intros t Ht. unfold s'. rewrite enqueue_blocked_blocked. case_decide; [by split|].
      rewrite Ep in Ht. apply elem_of_cons in Ht as [?|Ht]; [done|by apply Hw].
    + cbn [semtype set_count restype owndby count]. intros Hp. destruct (Ho Hp) as (Hr & [[_ ?]|(o & H1 & H2 & H3)]); [lia|].
      split; [done|]. right. exists o. split_and!; [done|lia|].
      rewrite Ep. apply not_elem_of_cons. split; [|done].
      intros ->. by apply (Hown Hp).
  - rewrite Ep. apply elem_of_cons. by left.
  - unfold s'. by rewrite enqueue_blocked_blocked, decide_True.
Qed.

(** The join and the scheduler's bookkeeping commute, as far as the kept objects go. *)
Lemma keeps_enqueue_blocked s s' t q :
  keeps s s' -> (forall x, priority (tasks s' x) = priority (tasks s x)) ->
  forall qt, keeps (enqueue_blocked t q qt s) (enqueue_blocked t q qt s').
Proof.
  intros [] Hp qt. unfold enqueue_blocked. split; try done; cbn.
  - rewrite k_queues. destruct (qt =? 0); [|done].
    f_equal. apply prio_insert_ext. intros x. unfold insert, fn_insert.
    by case_decide; subst; cbn; rewrite Hp.
  - intros x. unfold insert, fn_insert. by case_decide.
  - intros x. unfold insert, fn_insert. by case_decide; subst; cbn.
  - intros x. unfold insert, fn_insert. by case_decide; subst; cbn.
  - intros x. unfold insert, fn_insert. by case_decide; subst; cbn.
  - intros x. unfold insert, fn_insert. by case_decide; subst; cbn.
  - intros x. unfold insert, fn_insert. by case_decide; subst; cbn.
Qed.

Lemma semwp_block m cur map timeout s :
  sem_inv m s -> cur ∉ waiters s m -> count (sems s m) <= 0 ->
  (0 < semtype (sems s m) -> owndby (sems s m) <> PTask cur) ->
  semwp m cur (sem_block m cur map timeout s) (fun _ s' => woken_ok m cur s').
Proof.
  intros Hi Hcur Hneg Hown. unfold sem_block. cbv zeta. apply semwp_schedule.
  set (s1 := sset set_count m (count (sems s m) - 1) s).
  set (st := Z.lor (state (tasks s1 cur)) _).
  set (s2 := rem_ready_current cur (tset set_state cur st s1)).
  assert (keeps s1 s2) as Hk by (etrans; [|apply keeps_rem_current]; keep).
  assert (forall x, priority (tasks s2 x) = priority (tasks s1 x)) as Hp.
  { intros x. unfold s2, rem_ready_current, NON_RTAI_TASK_SUSPEND. cbv zeta. destruct (_ =? 0);
      cbn; unfold insert, fn_insert; repeat case_decide; subst; done. }
  set (qt := qtype _).
  assert (woken_ok m cur (enqueue_blocked cur (QSem m) qt s1)) as Hw.
  { right. destruct (join_queue m cur qt s Hi Hcur Hneg Hown) as (J1 & J2 & J3).
    split; [done|]. unfold s1. by rewrite J3, decide_False. }
  apply (woken_ok_keeps _ _ _ (enqueue_blocked cur (QSem m) qt s2)) in Hw;
    [|by apply keeps_enqueue_blocked].
  destruct timeout; [|done]. eapply woken_ok_keeps; [apply keeps_enq_timed|done].
Qed.

(** A waiter that was not signalled gives its unit back and leaves. *)
Lemma leave_queue_inv m cur s :
  sem_inv m s -> cur ∈ waiters s m ->
  sem_inv m (leave_queue m cur s) /\ cur ∉ waiters (leave_queue m cur s) m.
Proof.
  intros [Hn Hc Hb Hw Ho] Hcur. unfold leave_queue.
  set (s1 := sem_giveback m (dequeue_blocked cur s)).
  pose proof (unlink_length cur _ Hn Hcur) as Hlen. unfold zlen in Hc.
  assert (waiters s1 m = unlink cur (waiters s m)) as Eq by done.
  assert (sems s1 m = set_count (count (sems s m) + 1) (sems s m)) as Es.
  { unfold s1, sem_giveback. cbv zeta. rewrite sset_same.
    change (sems (dequeue_blocked cur s)) with (sems s).
    destruct (1 <? count (sems s m) + 1) eqn:E; zbool; [lia|done]. }
  assert (sem_inv m s1 /\ cur ∉ waiters s1 m) as [H1 H2].
  { split; [|rewrite Eq, elem_of_unlink; tauto]. split; rewrite ?Eq, ?Es.
    - by apply unlink_nodup.
    - unfold zlen. cbn [count set_count]. lia.
    - cbn [count set_count semtype]. lia.
    - intros t [Hne Ht]%elem_of_unlink. destruct (Hw t Ht).
      cbn. unfold insert, fn_insert. repeat case_decide; subst; done.
    - cbn [count set_count semtype restype owndby]. intros Hp.
      destruct (Ho Hp) as (Hr & [[_ ?]|(o & O1 & O2 & O3)]); [lia|].
      split; [done|]. right. exists o. split_and!; [done|lia|]. rewrite elem_of_unlink. tauto. }
  destruct (ptr_task _) as [o|]; [|done]. destruct (0 <? _); [|done].
  assert (keeps s1 (set_task_prio_from_resq o s1).2) as Hk.
  { unfold set_task_prio_from_resq, _set_task_prio_from_resq. cbv zeta.
    destruct (_ =? 0); [apply keeps_renq|done]. }
  split; [by apply (sem_inv_keeps m s1)|]. by rewrite (k_queues _ _ Hk).
Qed.

(** How a wait may end: [late] is the result of a waiter that was not signalled. *)
Definition waited (m : semid) (cur : tid) (late : Z -> Prop) (r : Z) (s : kst) : Prop :=
  r = RTE_OBJREM \/
  sem_inv m s /\ (cur ∉ waiters s m) /\
  (late r \/ (0 < semtype (sems s m) -> owndby (sems s m) = PTask cur)).

(** The owner notes one resource more. *)
Lemma take_resource_inv m cur s :
  sem_inv m s -> cur ∉ waiters s m ->
  (0 < semtype (sems s m) -> owndby (sems s m) = PTask cur) ->
  waited m cur (fun _ => False) (count (sems s m)) (take_resource m cur s).
Proof.
  intros Hi Hcur Hown. unfold take_resource. destruct (0 <? semtype _) eqn:E; zbool.
  - specialize (Hown ltac:(done)). set (s1 := sset _ _ _ s).
    assert (sems s1 m = sems s m) as Es.
    { unfold s1. rewrite sset_same. destruct (sems s m) as [????? ?]. cbn in Hown. by subst. }
    assert (keeps s1 (enqueue_resqel cur s1)) as Hk by (unfold enqueue_resqel; keep).
    right. split_and!.
    + apply (sem_inv_keeps _ s1); [done|]. by apply (sem_inv_ext _ s).
    + by rewrite (k_queues _ _ Hk).
    + right. intros _. by rewrite (k_sems _ _ Hk), Es.
  - right. split_and!; [done|done|]. right. lia.
Qed.

Lemma sem_woken_ok m cur late s :
  woken_ok m cur s ->
  let '(r, s') := sem_woken m cur late s in
  waited m cur (fun r => exists p, r = late p) r s'.
Proof.
  unfold sem_woken. intros [Hd|[Hi H]].
  { rewrite Hd. simpl. by left. }
  unfold is_null. destruct (decide (blocked_on (tasks s cur) = NULL)) as [Hb|Hb].
  - rewrite Hb. rewrite bool_decide_eq_true_2 by done. destruct H as [H1 H2].
    destruct (take_resource_inv m cur s Hi H1 H2) as [|(?&?&[[]|])]; [by left|right; auto].
  - rewrite bool_decide_eq_false_2 by done.
    case_bool_decide; simpl; [by left|]. right.
    destruct (leave_queue_inv m cur s Hi H). split_and!; [done|done|]. left. by eexists.
Qed.

(** A requeueing of the waiters keeps the invariant. *)
Lemma sem_inv_passed m p s s' : passed p s s' -> sem_inv m s -> sem_inv m s'.
Proof.
  intros [Hs Hb Hp _ _] [Hn Hc Hbd Hw Ho]. specialize (Hp (QSem m)). split; rewrite ?Hs; try done.
  - by rewrite Hp.
  - unfold zlen in *. by rewrite Hp.
  - intros t. rewrite Hp, Hb. apply Hw.
  - intros H. destruct (Ho H) as (? & [|(o & ? & ? & ?)]); (split; [done|]); [by left|right].
    exists o. by rewrite Hp.
Qed.

(** What a contended resource needs of the rest of the system: waiters are in
    the queues they are blocked on, the owner is a task, and [running] is what
    the scheduler makes of it. *)
Record contend_pre (m : semid) (s : kst) : Prop := {
  cp_waits : waits_ok (all_tasks s) s;
  cp_owner : forall o, owndby (sems s m) = PTask o -> o ∈ all_tasks s;
  cp_running : forall x, 0 <= running (tasks s x)
}.

(** A running task that notes what it may block on is in nobody's way. *)
Lemma contend_pre_unqueued m cur time s :
  state (tasks s cur) = RT_SCHED_READY -> contend_pre m s ->
  contend_pre m (tset set_resume_time cur time (tset set_blocked_on cur (PQueue (QSem m)) s)).
Proof.
  intros Hst [Hw Ho Hr]. set (s1 := tset set_resume_time cur time _).
  assert (forall x, x <> cur -> tasks s1 x = tasks s x) as Hot.
  { intros x Hx. unfold s1. by rewrite !tset_other. }
  assert (forall {B} (g : RT_TASK -> B) x, (forall v r, g (set_resume_time v r) = g r) ->
    (forall v r, g (set_blocked_on v r) = g r) -> g (tasks s1 x) = g (tasks s x)) as Hg.
  { intros B g x H1 H2. unfold s1. by rewrite !tset_field. }
  split; [|done|].
  - intros t q Ht Hq. destruct (decide (t = cur)) as [->|Hne].
    { unfold inherits in Hq. rewrite (Hg _ state), Hst in Hq by done. simpl in Hq.
      destruct (blocked_on _); by rewrite ?andb_false_l in Hq. }
    assert (inherits t s = Some q) as Hq'.
    { unfold inherits in *. rewrite Hot in Hq by done. done. }
    destruct (Hw t q Ht Hq') as (W1 & W2 & W3 & W4). split_and!; try done.
    unfold holder, queue_task in *. rewrite Hot by done.
    destruct q; try done; [rewrite (Hg _ msgq_task) by done|rewrite (Hg _ retq_task) by done]; done.
  - intros x. by rewrite (Hg _ running).
Qed.

Lemma ubi_maior_inv m cur s s' :
  sem_inv m s -> cur ∉ waiters s m -> 0 < semtype (sems s m) -> contend_pre m s ->
  ubi_maior m cur s = Some s' ->
  sem_inv m s' /\ (cur ∉ waiters s' m) /\ owndby (sems s' m) = PTask cur.
Proof.
  intros Hi Hcur Hty [_ _ Hrun] Hu. unfold ubi_maior in Hu.
  destruct (owndby (sems s m)) as [|t| |] eqn:Eo; cbn in Hu; try done.
  destruct ((priority (tasks s cur) <? priority (tasks s t)) && (running (tasks s t) <=? 0)) eqn:Ec; [|done].
  zbool. specialize (Hrun t). assert (running (tasks s t) = 0) as Hr by lia.
  rewrite Hr, Z.eqb_refl in Hu.
  assert (cur <> t) as Hne by (intros ->; lia).
  destruct (si_owner m s Hi Hty) as (Hres & [[? _]|(o & Ho & Hneg & Hnot)]); [congruence|].
  rewrite Eo in Ho. injection Ho as <-.
  set (s0 := sset set_owndby m (PTask cur) s).
  assert (sems s0 m = set_owndby (PTask cur) (sems s m)) as Es0 by apply sset_same.
  assert (sem_inv m s0) as Hi0.
  { destruct Hi. split; rewrite ?Es0; try done. intros _. split; [done|]. right. by exists cur. }
  destruct (join_queue m t PRIO_Q s0) as (J1 & J2 & J3); [done|done|by rewrite Es0|rewrite Es0; cbn; congruence|].
  set (s1 := sset set_count m (count (sems s m) - 1) s) in *.
  set (s3 := tset set_state t _ _) in Hu.
  assert (keeps s1 s3) as Hk by (etrans; [apply (keeps_rem_ready t s1)|unfold s3; keep]).
  assert (forall x, priority (tasks s3 x) = priority (tasks s1 x)) as Hp.
  { intros x. unfold s3, rem_ready_task, rem_ready_current, NON_RTAI_TASK_SUSPEND. cbv zeta.
    zcases; cbn; unfold insert, fn_insert; repeat case_decide; subst; done. }
  pose proof (keeps_enqueue_blocked _ _ t (QSem m) Hk Hp PRIO_Q) as Hke.
  set (s4 := enqueue_blocked t (QSem m) PRIO_Q s3) in *.
  set (s5 := sset set_owndby m (PTask cur) s4) in Hu.
  assert (keeps s5 s') as Hk5 by (injection Hu as <-; unfold enqueue_resqel; keep).
  assert (sems s5 m = set_owndby (PTask cur) (set_count (count (sems s m) - 1) (sems s m))) as Es5.
  { unfold s5. rewrite sset_same. rewrite (k_sems _ _ Hke).
    change (sems (enqueue_blocked t (QSem m) PRIO_Q s1)) with (sems s1). unfold s1. by rewrite sset_same. }
  assert (waiters s5 m = waiters (enqueue_blocked t (QSem m) PRIO_Q
            (sset set_count m (count (sems s0 m) - 1) s0)) m) as Eq5.
  { change (waiters s5 m) with (waiters s4 m). rewrite (k_queues _ _ Hke). done. }
  assert (sem_inv m s5) as Hi5.
  { revert J1. apply sem_inv_ext; [|done|].
    - rewrite Es5. change (sems (enqueue_blocked _ _ _ ?x)) with (sems x). by rewrite sset_same, Es0.
    - intros x _. change (tasks s5) with (tasks s4). rewrite (k_blocked _ _ Hke). done. }
  split_and!.
  - by apply (sem_inv_keeps m s5).
  - rewrite (k_queues _ _ Hk5), Eq5, elem_of_enqueue_blocked. intros [?|?]; done.
  - by rewrite (k_sems _ _ Hk5), Es5.
Qed.

Lemma sem_contend_ok m cur s (Q : Z + Z -> kst -> Prop) :
  sem_inv m s -> cur ∉ waiters s m -> count (sems s m) <= 0 ->
  (0 < semtype (sems s m) -> contend_pre m s) ->
  (forall r s', waited m cur (fun _ => False) r s' -> Q (inl r) s') ->
  (forall map s', sem_inv m s' -> cur ∉ waiters s' m -> count (sems s' m) <= 0 ->
     (0 < semtype (sems s' m) -> owndby (sems s' m) <> PTask cur) -> Q (inr map) s') ->
  semwp m cur (sem_contend m cur s) Q.
Proof.
  intros Hi Hcur Hneg Hpre Hinl Hinr. unfold sem_contend.
  destruct (0 <? semtype (sems s m)) eqn:Ety; zbool; [|apply Hinr; try done; lia].
  specialize (Hpre Ety). destruct (si_owner m s Hi Ety) as (Hres & [[_ ?]|(o & Ho & _ & Hnot)]); [lia|].
  destruct (ubi_maior m cur s) as [s'|] eqn:Eu.
  { apply Hinl. destruct (ubi_maior_inv m cur s s') as (? & ? & ?); try done. right. auto. }
  unfold owns_restype. rewrite (proj2 (Z.eqb_neq _ _) Hres). simpl andb.
  case_bool_decide as Hcase.
  - unfold own_again. cbv zeta. destruct (0 <? restype (sems s m)); apply Hinl.
    + assert (sems (sset set_semtype m (semtype (sems s m) + 1) s) m
        = set_semtype (semtype (sems s m) + 1) (sems s m)) as Es by apply sset_same.
      right. split_and!; [|done|right; intros _; by rewrite Es].
      destruct Hi. split; rewrite ?Es; try done; cbn; intros; auto.
      apply si_bound0. lia.
    + right. auto.
  - destruct (pass_prio_ok (owndby (sems s m)) cur s) as (map & s' & -> & _ & Hp & _).
    { apply Hpre. }
    { right. exists o. split; [by apply Hpre|done]. }
    apply Hinr.
    + by eapply sem_inv_passed.
    + by rewrite (passed_perm _ _ _ Hp).
    + by rewrite (passed_sems _ _ _ Hp).
    + by rewrite (passed_sems _ _ _ Hp).
Qed.

(** ** The waits *)

(** The unit is there: it is taken. *)
Lemma take_unit m cur s :
  sem_inv m s -> cur ∉ waiters s m -> 0 < count (sems s m) ->
  let s' := take_resource m cur (sset set_count m (count (sems s m) - 1) s) in
  waited m cur (fun _ => False) (count (sems s m)) s' /\
  count (sems s' m) = count (sems s m) - 1.
Proof.
  intros Hi Hcur Hpos. set (s1 := sset _ _ _ s).
  assert (sems s1 m = set_count (count (sems s m) - 1) (sems s m)) as Es by apply sset_same.
  pose proof Hi as [Hn Hc Hb Hw Ho].
  unfold take_resource. rewrite Es. cbn [semtype set_count].
  destruct (0 <? semtype (sems s m)) eqn:Ety; zbool.
  - set (s2 := sset set_owndby m (PTask cur) s1).
    assert (sems s2 m = set_owndby (PTask cur) (set_count (count (sems s m) - 1) (sems s m))) as Es2.
    { unfold s2. by rewrite sset_same, Es. }
    assert (keeps s2 (enqueue_resqel cur s2)) as Hk by (unfold enqueue_resqel; keep).
    cbv zeta. rewrite (k_sems _ _ Hk), Es2. split; [|done].
    right. rewrite (k_queues _ _ Hk), (k_sems _ _ Hk), Es2. split_and!; [|done|by right].
    apply (sem_inv_keeps _ s2); [done|]. specialize (Hb ltac:(lia)).
    split; rewrite ?Es2; cbn [count set_count set_owndby semtype restype owndby]; try done; try lia.
    + change (waiters s2 m) with (waiters s m). lia.
    + intros Hp. destruct (Ho Hp) as [Hr _]. split; [done|]. right. exists cur. split_and!; [done|lia|done].
  - cbv zeta. rewrite Es. split; [|done]. right. rewrite Es. split_and!; [|done|right; cbn; lia].
    split; rewrite ?Es; cbn [count set_count semtype restype owndby]; try done; try lia.
    change (waiters s1 m) with (waiters s m). lia.
Qed.

Lemma waited_weaken m cur (P P' : Z -> Prop) r s :
  (forall r, P r -> P' r) -> waited m cur P r s -> waited m cur P' r s.
Proof. intros HP [|(? & ? & [|])]; [by left|right; auto..]. Qed.

(** C4.  [rt_sem_wait], on a semaphore of any type in its invariant: it never
    faults and never runs out of steps; whenever the caller stops it is in the
    queue of the semaphore (or has been taken out with what it waits for), and
    the invariant holds; if the others keep that promise, it returns with the
    invariant, outside of the queue, with an error code or, for a resource, as
    its owner; and a unit that is there is taken at once. *)
Theorem rt_sem_wait_correct m s :
  let cur := rt_current s in
  bad_sem m s = false -> sem_inv m s -> cur ∉ waiters s m ->
  (0 < semtype (sems s m) -> contend_pre m s) ->
  wp (woken_ok m cur) (fun _ s' => woken_ok m cur s') (rt_sem_wait m s)
    (fun r s' => waited m cur (eq RTE_UNBLKD) r s' /\
       (0 < count (sems s m) -> r = count (sems s m) /\ count (sems s' m) = r - 1)).
Proof.
  intros cur Hbad Hi Hcur Hpre. unfold rt_sem_wait. rewrite Hbad. fold cur.
  destruct (count (sems s m) <=? 0) eqn:En; zbool.
  - apply wp_rbind, sem_contend_ok; try done.
    + intros r s' Hw. simpl. split; [|lia]. by eapply waited_weaken; [|exact Hw].
    + intros map s' Hi' Hc' Hn' Ho'. apply wp_rbind.
      eapply wp_mono; [by apply semwp_block|]. intros [] s1 Hw.
      pose proof (sem_woken_ok m cur (fun _ => RTE_UNBLKD) s1 Hw) as Hok.
      destruct (sem_woken _ _ _ s1) as [r s2]. simpl. split; [|lia].
      by eapply waited_weaken; [|exact Hok]; intros ? [_ ->].
  - destruct (take_unit m cur s Hi Hcur En) as [H1 H2]. simpl. split; [|by rewrite H2].
    by eapply waited_weaken; [|exact H1].
Qed.

(** A caller that gives the unit it took back at once, without having queued. *)
Lemma leave_unqueued m cur s :
  sem_inv m s -> cur ∉ waiters s m -> count (sems s m) <= 0 ->
  let s' := leave_queue m cur (sset set_count m (count (sems s m) - 1) s) in
  sem_inv m s' /\ waiters s' m = waiters s m /\ count (sems s' m) = count (sems s m).
Proof.
  intros Hi Hcur Hneg. unfold leave_queue. set (s1 := sset _ _ _ s).
  set (s2 := sem_giveback m (dequeue_blocked cur s1)).
  assert (sems s2 m = sems s m) as Es.
  { unfold s2, sem_giveback. cbv zeta. rewrite sset_same.
    change (sems (dequeue_blocked cur s1)) with (sems s1). unfold s1. rewrite sset_same.
    cbn [count set_count]. rewrite (proj2 (Z.ltb_ge 1 _)) by lia. cbn [andb].
    replace (count (sems s m) - 1 + 1) with (count (sems s m)) by lia. by destruct (sems s m). }
  assert (waiters s2 m = waiters s m) as Eq by (by apply unlink_notin).
  assert (sem_inv m s2) as Hi2.
  { apply (sem_inv_ext m s); try done. intros t Ht. assert (t <> cur) by (by intros ->).
    cbn. unfold insert, fn_insert. repeat case_decide; subst; done. }
  assert (forall o, keeps s2 (set_task_prio_from_resq o s2).2) as Hk.
  { intros o. unfold set_task_prio_from_resq, _set_task_prio_from_resq. cbv zeta.
    destruct (_ =? 0); [apply keeps_renq|done]. }
  destruct (ptr_task _) as [o|]; [destruct (0 <? _)|]; cbv zeta; [|by rewrite Eq, Es..].
  split_and!; [by apply (sem_inv_keeps m s2)| |].
  - by rewrite (k_queues _ _ (Hk o)), Eq.
  - by rewrite (k_sems _ _ (Hk o)), Es.
Qed.

(** C18.  The same of [rt_sem_wait_until]: with a time that is over the caller
    does not wait, and what it gives back leaves the semaphore as it was; the
    errors are a timeout and a forced end of the wait. *)
Theorem rt_sem_wait_until_correct m time s :
  let cur := rt_current s in
  bad_sem m s = false -> sem_inv m s -> cur ∉ waiters s m ->
  state (tasks s cur) = RT_SCHED_READY -> (0 < semtype (sems s m) -> contend_pre m s) ->
  wp (woken_ok m cur) (fun _ s' => woken_ok m cur s') (rt_sem_wait_until m time s)
    (fun r s' => waited m cur (fun r => r = RTE_TIMOUT \/ r = RTE_UNBLKD) r s' /\
       (0 < count (sems s m) -> r = count (sems s m) /\ count (sems s' m) = r - 1) /\
       (count (sems s m) <= 0 -> time <= smp_time_h s (cpuid s) ->
          r = RTE_TIMOUT /\ count (sems s' m) = count (sems s m) /\ waiters s' m = waiters s m)).
Proof.
  intros cur Hbad Hi Hcur Hst Hpre. unfold rt_sem_wait_until. rewrite Hbad. fold cur.
  destruct (count (sems s m) <=? 0) eqn:En; zbool.
  2:{ destruct (take_unit m cur s Hi Hcur En) as [H1 H2]. simpl. split_and!; [|by rewrite H2|intros; exfalso; lia].
      by eapply waited_weaken; [|exact H1]. }
  cbv zeta. set (s1 := tset set_resume_time cur time _).
  assert (forall x, x <> cur -> tasks s1 x = tasks s x) as Hot.
  { intros x Hx. unfold s1. by rewrite !tset_other. }
  assert (blocked_on (tasks s1 cur) = PQueue (QSem m)) as Hb1.
  { unfold s1. by rewrite tset_same, tset_same. }
  assert (sem_inv m s1) as Hi1.
  { apply (sem_inv_ext m s); try done. intros t Ht. rewrite Hot; [done|by intros ->]. }
  change (smp_time_h s1 (cpuid s1)) with (smp_time_h s (cpuid s)).
  destruct (smp_time_h s (cpuid s) <? time) eqn:Et; zbool.
  - apply wp_rbind, sem_contend_ok; try done.
    + intros Hty. by apply contend_pre_unqueued, Hpre.
    + intros r s' Hw. simpl. split_and!; [|lia|intros; exfalso; lia]. by eapply waited_weaken; [|exact Hw].
    + intros map s' Hi' Hc' Hn' Ho'. apply wp_rbind.
      eapply wp_mono; [by apply semwp_block|]. intros [] s2 Hw.
      pose proof (sem_woken_ok m cur late_until s2 Hw) as Hok.
      destruct (sem_woken _ _ _ s2) as [r s3]. simpl. split_and!; [|lia|intros; exfalso; lia].
      eapply waited_weaken; [|exact Hok]. intros ? [p ->]. unfold late_until.
      destruct (above_higerr p); auto.
  - destruct (leave_unqueued m cur s1 Hi1 Hcur En) as (L1 & L2 & L3).
    change (sems s1) with (sems s) in L1, L2, L3.
    unfold sem_woken. change (tasks (sset _ _ _ s1)) with (tasks s1). rewrite Hb1. unfold is_null.
    rewrite !bool_decide_eq_false_2 by done. cbn [negb wp]. split_and!; [|lia|intros _ _; by rewrite L2, L3].
    right. rewrite L2. split_and!; [done|done|]. left. by left.
Qed.

(** ** The signal *)

Lemma keeps_dequeue_resqel cur s : keeps s (dequeue_resqel_reset_task_priority cur s).2.
Proof.
  unfold dequeue_resqel_reset_task_priority, _set_task_prio_from_resq. cbv zeta.
  destruct (_ <=? 0); cbn [snd]; [|keep]. etrans; [|apply keeps_renq]. keep.
Qed.

(** The fields the release of a resource does not touch. *)
Lemma suspdepth_dequeue_resqel cur s x :
  suspdepth (tasks (dequeue_resqel_reset_task_priority cur s).2 x) = suspdepth (tasks s x).
Proof.
  unfold dequeue_resqel_reset_task_priority, _set_task_prio_from_resq, renq_ready_task, enq_ready_task.
  cbv zeta. repeat (match goal with |- context [if ?b then _ else _] => destruct b end);
    cbn; unfold insert, fn_insert; repeat case_decide; subst; done.
Qed.

(** The hand-over of the processor at the end of a signal. *)
Inductive handover (t : option tid) (s : kst) : res kst unit -> Prop :=
| Hnone : handover t s (Done tt s)
| Hsched : handover t s (rt_schedule s)
| Hto u : t = Some u -> handover t s (RT_SCHEDULE u s)
| Hboth u : t = Some u -> handover t s (RT_SCHEDULE_BOTH u s).

(** From the label [res] on, for a caller nobody has suspended. *)
Lemma sem_signal_res_spec del m t woken s :
  (0 < semtype (sems s m) -> suspdepth (tasks s (rt_current s)) = 0) ->
  exists s1 r, sem_signal_res del m t woken s = rbind r (fun _ s => Done 0 s) /\
    handover t s1 r /\
    (if 0 <? semtype (sems s m)
     then s1 = (dequeue_resqel_reset_task_priority (rt_current s) (sset set_owndby m (task_ptr t) s)).2
     else s1 = s).
Proof.
  intros Hs. unfold sem_signal_res. destruct (0 <? semtype (sems s m)) eqn:E; zbool.
  2:{ exists s, (Done tt s). split_and!; [done|constructor|done]. }
  cbv zeta. set (s0 := sset set_owndby m (task_ptr t) s). set (cur := rt_current s).
  unfold release_owner.
  pose proof (suspdepth_dequeue_resqel cur s0 cur) as Hsd.
  destruct (dequeue_resqel_reset_task_priority cur s0) as [r s1]. cbn [fst snd] in *.
  change (tasks s0) with (tasks s) in Hsd. fold cur in Hs. rewrite Hs in Hsd by done.
  rewrite Hsd. cbn [Z.eqb negb rbind].
  exists s1. destruct t as [t|].
  - destruct woken, (negb (r =? 0)); eexists; (split_and!; [reflexivity|by econstructor|done]).
  - destruct (negb (r =? 0)); eexists; (split_and!; [reflexivity|by econstructor|done]).
Qed.

(** The unit a signal adds: binary and resource semaphores stop at one. *)
Definition bump (sm : SEM) : Z :=
  if negb (semtype sm =? 0) && (1 <? count sm + 1) then 1 else count sm + 1.

(** A state after a signal by [cur], which has taken [t] from the queue. *)
Record signalled (m : semid) (t : option tid) (s s1 : kst) : Prop := {
  sg_sem : sems s1 m =
    (if 0 <? semtype (sems s m) then set_owndby (task_ptr t) else (fun x => x))
      (set_count (bump (sems s m)) (sems s m));
  sg_queue : waiters s m = match t with Some t => t :: waiters s1 m | None => waiters s1 m end;
  sg_none : t = None -> waiters s m = [];
  sg_mbxs : mbxs s1 = mbxs s;
  sg_blocked : forall x, blocked_on (tasks s1 x) =
    if decide (t = Some x) then NULL else blocked_on (tasks s x)
}.

Lemma signalled_inv m t s s1 :
  sem_inv m s -> signalled m t s s1 ->
  (0 < semtype (sems s m) -> exists cur, owndby (sems s m) = PTask cur) ->
  sem_inv m s1 /\
  forall x, (0 < semtype (sems s m) -> owndby (sems s m) <> PTask x) ->
    woken_ok m x s -> woken_ok m x s1.
Proof.
  intros [Hn Hc Hb Hw Ho] [Gs Gq Gn _ Gb] Hown.
  assert (semtype (sems s1 m) = semtype (sems s m) /\ restype (sems s1 m) = restype (sems s m) /\
          count (sems s1 m) = bump (sems s m)) as (E1 & E2 & E3).
  { rewrite Gs. by destruct (0 <? _). }
  assert (count (sems s m) <= 0 -> bump (sems s m) = count (sems s m) + 1) as Hbump.
  { intros. unfold bump. destruct (negb _ && _) eqn:E; zbool; lia. }
  assert (t = None \/ exists u, t = Some u /\ count (sems s m) < 0) as Ht.
  { destruct t as [u|]; [right|by left]. exists u. split; [done|]. unfold zlen in Hc.
    rewrite Gq in Hc. cbn in Hc. lia. }
  assert (sem_inv m s1) as Hi1.
  { split; rewrite ?E1, ?E2, ?E3.
    - destruct t; rewrite Gq in Hn; [by apply NoDup_cons in Hn as [_ ?]|done].
    - unfold zlen in *. destruct t as [u|].
      + rewrite Gq in Hc. cbn in Hc. lia.
      + rewrite (Gn eq_refl) in Gq, Hc. rewrite <- Gq. cbn in *. unfold bump.
        destruct (negb _ && _) eqn:E; zbool; lia.
    - intros. unfold bump. destruct (negb _ && _) eqn:E; zbool; [lia|].
      destruct (negb _) eqn:E'; zbool; simpl in E; zbool; [lia|done].
    - intros x Hx. rewrite Gb.
      assert (x ∈ waiters s m) as Hx' by (rewrite Gq; destruct t; set_solver).
      case_decide as Hd; [|by apply Hw]. subst t. rewrite Gq in Hn.
      by apply NoDup_cons in Hn as [? _].
    - intros Hp. destruct (Ho Hp) as [Hr Hor]. split; [done|].
      rewrite Gs, (proj2 (Z.ltb_lt _ _) Hp). cbn [owndby set_owndby].
      destruct Hor as [[Hnull _]|(o & Hoo & Hneg & Hnot)].
      { destruct (Hown Hp) as [c Hc']. congruence. }
      rewrite Hbump by done. destruct Ht as [->|(u & -> & Hlt)].
      + left. split; [done|]. rewrite (Gn eq_refl) in Hc. unfold zlen in Hc. cbn in Hc. lia.
      + right. exists u. split_and!; [done|lia|]. rewrite Gq in Hn. by apply NoDup_cons in Hn as [? _]. }
  split; [done|]. intros x Hx [Hd|[_ H]].
  - left. rewrite Gb. case_decide; [|done]. subst t.
    destruct (Hw x) as [_ []]; [rewrite Gq; set_solver|done].
  - right. split; [done|]. rewrite Gb.
    destruct (decide (blocked_on (tasks s x) = NULL)) as [Hbl|Hbl].
    + destruct H as [Hnot Hox]. assert (waiters s m = [] \/ t <> Some x) as Htx.
      { right. intros ->. rewrite Gq in Hnot. set_solver. }
      assert ((x ∉ waiters s1 m) /\ (0 < semtype (sems s1 m) -> owndby (sems s1 m) = PTask x)) as Hr.
      { split; [rewrite Gq in Hnot; destruct t; set_solver|]. rewrite E1. intros Hp.
        by destruct (Hx Hp); apply Hox. }
      destruct (decide (t = Some x)); rewrite decide_True by done; done.
    + destruct (decide (t = Some x)) as [Hd|Hd].
      * subst t. rewrite decide_True by done. rewrite Gq in Hn. apply NoDup_cons in Hn as [? _].
        split; [done|]. rewrite E1. intros Hp. rewrite Gs. by rewrite (proj2 (Z.ltb_lt _ _) Hp).
      * rewrite decide_False by done. rewrite Gq in H. destruct t as [u|]; [|done].
        apply elem_of_cons in H as [->|]; [congruence|done].
Qed.

(** The waiter at the head is taken out and, when nothing else keeps it, readied. *)
Lemma wake_head m t w s :
  waiters s m = t :: w -> NoDup (waiters s m) ->
  let '(woken, s1) := unblock SEMW t (rem_timed_task t (dequeue_blocked t s)) in
  sems s1 = sems s /\ mbxs s1 = mbxs s /\ waiters s1 m = w /\ cpuid s1 = cpuid s /\ smp_current s1 = smp_current s /\
  (forall x, blocked_on (tasks s1 x) = if decide (Some t = Some x) then NULL else blocked_on (tasks s x)) /\
  (forall x, suspdepth (tasks s1 x) = suspdepth (tasks s x)) /\
  (is_hard (tasks s t) <> 0 -> state (tasks s t) <> RT_SCHED_READY ->
   clear (state (tasks s t)) SEMW = RT_SCHED_READY ->
   woken = true /\ state (tasks s1 t) = RT_SCHED_READY /\ t ∈ ready s1 (runnable_on_cpus (tasks s1 t))).
Proof.
  intros Hq Hn. set (s0 := rem_timed_task t (dequeue_blocked t s)).
  pose proof (keeps_rem_timed t (dequeue_blocked t s)) as Hk0. fold s0 in Hk0.
  pose proof (keeps_unblock SEMW t s0) as Hk1.
  assert (waiters (dequeue_blocked t s) m = w) as Hw.
  { change (waiters (dequeue_blocked t s) m) with (unlink t (waiters s m)). rewrite Hq in Hn |- *.
    apply NoDup_cons in Hn as [? _]. by apply unlink_head. }
  assert (tasks s0 = tasks (dequeue_blocked t s)) as Ht0.
  { unfold s0, rem_timed_task. by destruct (has _ _). }
  assert (forall {B} (g : RT_TASK -> B) x, (forall v r, g (set_blocked_on v r) = g r) ->
    (forall v r, g (set_prio_passed_to v r) = g r) -> g (tasks s0 x) = g (tasks s x)) as Hg.
  { intros B g x H1 H2. rewrite Ht0. unfold dequeue_blocked. cbv zeta. rewrite tset_field by done.
    exact (tset_field set_prio_passed_to g t x NULL s (H2 NULL)). }
  assert (smp_current (unblock SEMW t s0).2 = smp_current s /\
    (forall x, suspdepth (tasks (unblock SEMW t s0).2 x) = suspdepth (tasks s x)) /\
    (is_hard (tasks s t) <> 0 -> state (tasks s t) <> RT_SCHED_READY ->
     clear (state (tasks s t)) SEMW = RT_SCHED_READY ->
     (unblock SEMW t s0).1 = true /\ state (tasks (unblock SEMW t s0).2 t) = RT_SCHED_READY /\
     t ∈ ready (unblock SEMW t s0).2 (runnable_on_cpus (tasks (unblock SEMW t s0).2 t)))) as (U1 & U2 & U3).
  { assert (smp_current s0 = smp_current s) as Hc0 by (unfold s0, rem_timed_task; by destruct (has _ _)).
    unfold unblock. split_and!.
    - unfold enq_ready_task. by zcases.
    - intros x. rewrite <- (Hg _ suspdepth) by done. unfold enq_ready_task. zcases; try done;
        cbn; unfold insert, fn_insert; repeat case_decide; subst; done.
    - intros Hh Hst Hcl. rewrite (Hg _ state), (proj2 (Z.eqb_neq _ _) Hst) by done.
      cbv zeta. rewrite tset_same. cbn [state set_state]. rewrite Hcl. rewrite Z.eqb_refl. cbn [fst snd].
      rewrite enq_ready_hard by (rewrite tset_same; cbn [is_hard set_state]; by rewrite (Hg _ is_hard)).
      split; [done|]. change (tasks (rset _ _ ?x)) with (tasks x). rewrite tset_same.
      split; [done|]. rewrite rset_same. apply elem_of_ready_insert. by left. }
  destruct (unblock SEMW t s0) as [woken s1]. cbn [fst snd] in *.
  split_and!; try done.
  - by rewrite (k_sems _ _ Hk1), (k_sems _ _ Hk0).
  - by rewrite (k_mbxs _ _ Hk1), (k_mbxs _ _ Hk0).
  - by rewrite (k_queues _ _ Hk1), (k_queues _ _ Hk0).
  - by rewrite (k_cpuid _ _ Hk1), (k_cpuid _ _ Hk0).
  - intros x. rewrite (k_blocked _ _ Hk1), (k_blocked _ _ Hk0). cbn.
    unfold insert, fn_insert. repeat case_decide; subst; try congruence; done.
Qed.

(** After the label [res] the state is the signalled one. *)
Lemma signalled_res m t s s3 s1 :
  sems s3 = <[m := set_count (bump (sems s m)) (sems s m)]> (sems s) ->
  waiters s m = match t with Some t => t :: waiters s3 m | None => waiters s3 m end ->
  (t = None -> waiters s m = []) -> mbxs s3 = mbxs s ->
  (forall x, blocked_on (tasks s3 x) = if decide (t = Some x) then NULL else blocked_on (tasks s x)) ->
  (if 0 <? semtype (sems s3 m)
   then s1 = (dequeue_resqel_reset_task_priority (rt_current s3) (sset set_owndby m (task_ptr t) s3)).2
   else s1 = s3) ->
  signalled m t s s1.
Proof.
  intros Hs Hq Hn Hm Hb H1.
  assert (sems s3 m = set_count (bump (sems s m)) (sems s m)) as Em by (rewrite Hs; apply fn_lookup_insert).
  rewrite Em in H1. cbn [semtype set_count] in H1.
  destruct (0 <? semtype (sems s m)) eqn:E; subst s1.
  - pose proof (keeps_dequeue_resqel (rt_current s3) (sset set_owndby m (task_ptr t) s3)) as Hk.
    split; rewrite ?(k_sems _ _ Hk), ?(k_queues _ _ Hk), ?(k_mbxs _ _ Hk); try done.
    + by rewrite sset_same, Em, E.
    + intros x. rewrite (k_blocked _ _ Hk). apply Hb.
  - split; try done. by rewrite Em, E.
Qed.

(** Putting the caller in the place of its priority leaves other ready tasks there. *)
Lemma ready_dequeue_resqel cur t s :
  t <> cur -> t ∈ ready s (runnable_on_cpus (tasks s t)) ->
  let s' := (dequeue_resqel_reset_task_priority cur s).2 in
  state (tasks s' t) = state (tasks s t) /\ t ∈ ready s' (runnable_on_cpus (tasks s' t)).
Proof.
  intros Hne Ht. unfold dequeue_resqel_reset_task_priority, _set_task_prio_from_resq, renq_ready_task, enq_ready_task.
  cbv zeta. set (c := runnable_on_cpus (tasks s t)) in *.
  assert (t ∈ unlink cur (ready s c)) as Hu by (by apply elem_of_unlink).
  repeat (match goal with |- context [if ?b then _ else _] => destruct b end); cbn;
    rewrite ?fn_lookup_insert_ne by done; fold c; (split; [done|]); try done;
    unfold insert, fn_insert; fold c; case_decide as Hc; try done;
    rewrite elem_of_ready_insert; right; by rewrite Hc.
Qed.

Lemma bad_sem_false m s : bad_sem m s = false -> m <> SemNULL /\ semmagic (sems s m) = RT_SEM_MAGIC.
Proof. unfold bad_sem. intros H. apply orb_false_iff in H as [H1 H2]. zbool. by apply bool_decide_eq_false in H1. Qed.

(** The head of [rt_sem_signal]: when the caller may signal, and at the last
    level of a resource, it comes down to the queue with the unit added. *)
Lemma rt_sem_signal_head del m s :
  bad_sem m s = false ->
  (semtype (sems s m) <> 0 -> restype (sems s m) <> 0 -> owndby (sems s m) = PTask (rt_current s)) ->
  semtype (sems s m) <= 1 ->
  rt_sem_signal_with del m s = sem_signal_queue del m (sset set_count m (bump (sems s m)) s).
Proof.
  intros Hbad Hown Hty. unfold rt_sem_signal_with, bump. rewrite Hbad.
  destruct (semtype (sems s m) =? 0) eqn:E; zbool; cbn [negb andb]; [done|].
  destruct (restype (sems s m) =? 0) eqn:Er; zbool; cbn [negb andb];
    [|rewrite (Hown E Er); unfold is_null; rewrite bool_decide_eq_false_2 by done;
      rewrite bool_decide_eq_true_2 by done; cbn [negb orb]];
    (rewrite (proj2 (Z.ltb_ge 1 (semtype _))) by lia); done.
Qed.

(** The waiter, when it waits for nothing else, is ready in the chain of its processor. *)
Definition readied (t : option tid) (s s1 : kst) : Prop :=
  forall u, t = Some u -> is_hard (tasks s u) <> 0 -> state (tasks s u) <> RT_SCHED_READY ->
    clear (state (tasks s u)) SEMW = RT_SCHED_READY ->
    state (tasks s1 u) = RT_SCHED_READY /\ u ∈ ready s1 (runnable_on_cpus (tasks s1 u)).

(** What a call that signals amounts to. *)
Definition grants (m : semid) (t : option tid) (s : kst) (e : res kst Z) : Prop :=
  exists s1 r, e = rbind r (fun _ s => Done 0 s) /\ handover t s1 r /\
    signalled m t s s1 /\ readied t s s1.

(** [s4] is the state at the label [res], with the unit added and the waiter out. *)
Record at_res (m : semid) (t : option tid) (s s4 : kst) : Prop := {
  ar_sems : sems s4 = <[m := set_count (bump (sems s m)) (sems s m)]> (sems s);
  ar_queue : waiters s m = match t with Some t => t :: waiters s4 m | None => waiters s4 m end;
  ar_none : t = None -> waiters s m = [];
  ar_mbxs : mbxs s4 = mbxs s;
  ar_blocked : forall x, blocked_on (tasks s4 x) =
    if decide (t = Some x) then NULL else blocked_on (tasks s x);
  ar_cur : rt_current s4 = rt_current s;
  ar_suspdepth : forall x, suspdepth (tasks s4 x) = suspdepth (tasks s x);
  ar_readied : readied t s s4
}.

Lemma sem_signal_res_grants del m t woken s s4 :
  (0 < semtype (sems s m) -> suspdepth (tasks s (rt_current s)) = 0) ->
  (0 < semtype (sems s m) -> t <> Some (rt_current s)) -> at_res m t s s4 ->
  grants m t s (sem_signal_res del m t woken s4).
Proof.
  intros Hsd Hcur [Hs Hq Hn Hm Hb Hc Hd Hr].
  assert (semtype (sems s4 m) = semtype (sems s m)) as Hty by (by rewrite Hs, fn_lookup_insert).
  destruct (sem_signal_res_spec del m t woken s4) as (s1 & r & E1 & E2 & E3).
  { rewrite Hty, Hc, Hd. exact Hsd. }
  exists s1, r. split_and!; [done|done|by apply (signalled_res m t s s4)|].
  intros u -> Ha Hb' Hc'. specialize (Hr u eq_refl Ha Hb' Hc').
  destruct (0 <? semtype (sems s4 m)) eqn:Ety; zbool; subst s1; [|done]. rewrite Hc.
  destruct (ready_dequeue_resqel (rt_current s) u (sset set_owndby m (task_ptr (Some u)) s4)) as [R1 R2];
    [intros ->; apply Hcur; [lia|done]|apply Hr|]. split; [rewrite R1; apply Hr|exact R2].
Qed.

Lemma sem_signal_queue_grants del m s :
  NoDup (waiters s m) -> (0 < semtype (sems s m) -> rt_current s ∉ waiters s m) ->
  (0 < semtype (sems s m) -> suspdepth (tasks s (rt_current s)) = 0) ->
  grants m (head (waiters s m)) s (sem_signal_queue del m (sset set_count m (bump (sems s m)) s)).
Proof.
  intros Hnd Hcur Hsd. set (s0 := sset set_count m (bump (sems s m)) s).
  unfold sem_signal_queue, first_task. change (waiters s0 m) with (waiters s m).
  destruct (waiters s m) as [|t w] eqn:Eq; cbn [head].
  { apply sem_signal_res_grants; [done|done|]. split; try done; by rewrite Eq. }
  assert (0 < semtype (sems s m) -> Some t <> Some (rt_current s)) as Hne.
  { intros Hp [= ->]. apply (Hcur Hp). apply list_elem_of_here. }
  pose proof (wake_head m t w s0) as Hw. change (waiters s0 m) with (waiters s m) in Hw.
  rewrite Eq in Hw. specialize (Hw eq_refl Hnd).
  destruct (unblock _ _ _) as [woken s3]. destruct Hw as (W1 & Wm & W2 & W3 & W4 & W5 & W6 & W7).
  assert (at_res m (Some t) s s3) as Har.
  { split; try done.
    - by rewrite W2, Eq.
    - unfold rt_current. by rewrite W3, W4.
    - intros u [= <-] Ha Hb Hc. by destruct (W7 Ha Hb Hc) as (_ & ?). }
  destruct woken; [|by apply sem_signal_res_grants].
  assert (semtype (sems s3 m) = semtype (sems s m)) as Hty.
  { by rewrite (ar_sems _ _ _ _ Har), fn_lookup_insert. }
  destruct (semtype (sems s3 m) <=? 0) eqn:Et; zbool.
  - exists s3, (RT_SCHEDULE t s3). split_and!; [done|by constructor| |by destruct Har].
    destruct Har. apply (signalled_res m (Some t) s s3); try done.
    by rewrite (proj2 (Z.ltb_ge 0 _)).
  - apply sem_signal_res_grants; [done|done|].
    destruct Har as [Hs Hq Hn Hm Hb Hc Hd Hr]. split; try done.
    + intros x. rewrite <- Hb. by apply (tset_field _ blocked_on).
    + intros x. rewrite <- Hd. by apply (tset_field _ suspdepth).
    + intros u [= <-] Ha Hb' Hc'. rewrite tset_same. by apply (Hr t).
Qed.

(** C5.  [rt_sem_signal], by a task that may signal: the first waiter is taken
    out of the queue with the unit, and owns the resource; when it waits for
    nothing else it is ready, in the ready chain of its processor; without a
    waiter the count goes up, to one at most but for counting semaphores, and a
    resource is free.  The invariant holds again, every other waiter is still
    promised what it waits for, and the processor is handed over only after
    that. *)
Theorem rt_sem_signal_correct m s :
  bad_sem m s = false -> sem_inv m s -> semtype (sems s m) <= 1 ->
  (semtype (sems s m) <> 0 -> restype (sems s m) <> 0 -> owndby (sems s m) = PTask (rt_current s)) ->
  (0 < semtype (sems s m) -> suspdepth (tasks s (rt_current s)) = 0) ->
  (rt_current s ∉ waiters s m) ->
  let t := head (waiters s m) in
  exists s1 r, rt_sem_signal m s = rbind r (fun _ s => Done 0 s) /\ handover t s1 r /\
    signalled m t s s1 /\ readied t s s1 /\ sem_inv m s1 /\
    (forall x, x <> rt_current s -> woken_ok m x s -> woken_ok m x s1).
Proof.
  intros Hbad Hi Hty Hown Hsd Hcur t. unfold rt_sem_signal, sem_signal_n.
  rewrite (rt_sem_signal_head _ m s Hbad Hown Hty).
  destruct (sem_signal_queue_grants (fun t s => rt_task_delete (rt_sem_signal_with
    (fun _ s => NoFuel s)) t s) m s (si_nodup m s Hi) (fun _ => Hcur) Hsd) as (s1 & r & E1 & E2 & E3 & E4).
  exists s1, r. destruct (signalled_inv m _ s s1 Hi E3) as [F1 F2].
  { intros Hp. exists (rt_current s). apply Hown; [lia|]. by apply (si_owner m s Hi Hp). }
  split_and!; try done. intros x Hx Hw. apply F2; [|done]. intros Hp.
  rewrite (Hown ltac:(lia)) by (by apply (si_owner m s Hi Hp)). congruence.
Qed.

(** ** Instances: a resource that task 1 owns and tasks 2 and 3 want *)

Definition ex_res (o : tid) (n : Z) : SEM := MkSem RT_SEM_MAGIC 1 1 n (PTask o) 0.
Definition ex_sem (cur : nat) (n : Z) (w : list nat) : kst :=
  set_smp_current (fun _ => Tsk cur) (set_tasklist (fun _ => [Tsk 1; Tsk 2; Tsk 3])
    (rset 0 [Tsk cur] (qset (QSem (Sem 0)) (map Tsk w)
      (set_sems (<[Sem 0 := ex_res (Tsk 1) n]> (fun _ => free_sem))
        (with_tasks [(1%nat, fun t => set_priority 5 (set_running 1 t)); (2%nat, set_priority 7);
                     (3%nat, fun t => set_priority 3 (set_running 1 t))]
          (with_tasks (map (fun i => (i, fun t => set_blocked_on (PQueue (QSem (Sem 0))) (set_state 9 t))) w)
            idle_kst)))))).

Lemma ex_sem_inv cur n w :
  (cur, n, w) = (1%nat, -1, [2%nat]) \/ (cur, n, w) = (3%nat, 0, []) -> sem_inv (Sem 0) (ex_sem cur n w).
Proof.
  intros Hc. assert (waiters (ex_sem cur n w) (Sem 0) = map Tsk w) as Eq by apply fn_lookup_insert.
  assert (sems (ex_sem cur n w) (Sem 0) = ex_res (Tsk 1) n) as Es by apply fn_lookup_insert.
  split; rewrite ?Es, ?Eq; unfold ex_res; cbn [count semtype restype owndby].
  - destruct Hc as [[= -> -> ->]|[= -> -> ->]]; list_goal.
  - destruct Hc as [[= -> -> ->]|[= -> -> ->]]; done.
  - destruct Hc as [[= -> -> ->]|[= -> -> ->]]; lia.
  - destruct Hc as [[= -> -> ->]|[= -> -> ->]]; cbn [map]; list_goal; vm_compute; discriminate.
  - intros _. split; [done|]. right. exists (Tsk 1).
    destruct Hc as [[= -> -> ->]|[= -> -> ->]]; (split_and!; [done|lia|set_solver]).
Qed.

Lemma rt_sem_signal_correct_witness : exists s1 (r : res kst unit),
  rt_sem_signal (Sem 0) (ex_sem 1 (-1) [2%nat]) = rbind r (fun _ s => Done 0 s) /\
  owndby (sems s1 (Sem 0)) = PTask (Tsk 2) /\ sem_inv (Sem 0) s1 /\
  Tsk 2 ∈ ready s1 (runnable_on_cpus (tasks s1 (Tsk 2))).
Proof.
  destruct (rt_sem_signal_correct (Sem 0) (ex_sem 1 (-1) [2%nat])) as (s1 & r & H1 & H2 & H3 & H4 & H5 & H6).
  - vm_compute. reflexivity.
  - apply ex_sem_inv. by left.
  - vm_compute. discriminate.
  - intros _ _. vm_compute. reflexivity.
  - intros _. vm_compute. reflexivity.
  - apply (bool_decide_unpack _). vm_compute. exact I.
  - exists s1, r. split; [exact H1|]. split; [|split; [exact H5|]].
    + rewrite (sg_sem _ _ _ _ H3). vm_compute. reflexivity.
    + destruct (H4 (Tsk 2)) as [_ H]; [vm_compute; reflexivity|vm_compute; discriminate|
        vm_compute; discriminate|vm_compute; reflexivity|exact H].
Defined.

(** Task 3 waits; while it is away task 1 signals. *)
Definition ex_grant (_ : nat) (s : kst) : kst :=
  tset set_blocked_on (Tsk 3) NULL (qset (QSem (Sem 0)) []
    (set_sems (<[Sem 0 := ex_res (Tsk 3) 0]> (sems s)) s)).

Lemma ex_contend : contend_pre (Sem 0) (ex_sem 3 0 []).
Proof.
  split.
  - intros t q Ht. assert (all_tasks (ex_sem 3 0 []) = [Linux 0; Tsk 1; Tsk 2; Tsk 3]) as E by (vm_compute; reflexivity).
    rewrite E in Ht.
    repeat (apply elem_of_cons in Ht as [->|Ht]; [vm_compute; discriminate|]). by apply elem_of_nil in Ht.
  - assert (all_tasks (ex_sem 3 0 []) = [Linux 0; Tsk 1; Tsk 2; Tsk 3]) as -> by (vm_compute; reflexivity).
    intros o Ho. assert (PTask (Tsk 1) = PTask o) as [= <-] by (rewrite <- Ho; vm_compute; reflexivity). set_solver.
  - intros x. cbn. unfold insert, fn_insert. repeat case_decide; cbn; try lia. destruct x; cbn; lia.
Qed.

Lemma ex_wait_pre :
  bad_sem (Sem 0) (ex_sem 3 0 []) = false /\ sem_inv (Sem 0) (ex_sem 3 0 []) /\
  (Tsk 3 ∉ waiters (ex_sem 3 0 []) (Sem 0)).
Proof.
  split_and!; [by vm_compute| |].
  - apply ex_sem_inv. by right.
  - apply (bool_decide_unpack _). vm_compute. exact I.
Qed.

Lemma rt_sem_wait_correct_witness :
  match run 5 ex_grant (rt_sem_wait (Sem 0) (ex_sem 3 0 [])) with
  | Some (r, s') => r = 0 /\ owndby (sems s' (Sem 0)) = PTask (Tsk 3)
  | None => False
  end /\
  wp (woken_ok (Sem 0) (Tsk 3)) (fun _ s' => woken_ok (Sem 0) (Tsk 3) s')
    (rt_sem_wait (Sem 0) (ex_sem 3 0 []))
    (fun r s' => waited (Sem 0) (Tsk 3) (eq RTE_UNBLKD) r s').
Proof.
  split; [vm_compute; split; reflexivity|].
  destruct ex_wait_pre as (H1 & H2 & H3).
  eapply wp_mono; [apply (rt_sem_wait_correct (Sem 0) (ex_sem 3 0 []) H1 H2 H3)|].
  - intros _. exact ex_contend.
  - intros r s' [H _]. exact H.
Defined.

Lemma rt_sem_wait_until_correct_witness :
  wp (woken_ok (Sem 0) (Tsk 3)) (fun _ s' => woken_ok (Sem 0) (Tsk 3) s')
    (rt_sem_wait_until (Sem 0) 5000 (ex_sem 3 0 []))
    (fun r s' => waited (Sem 0) (Tsk 3) (fun r => r = RTE_TIMOUT \/ r = RTE_UNBLKD) r s').
Proof.
  destruct ex_wait_pre as (H1 & H2 & H3).
  eapply wp_mono; [apply (rt_sem_wait_until_correct (Sem 0) 5000 (ex_sem 3 0 []) H1 H2 H3)|].
  - vm_compute. reflexivity.
  - intros _. exact ex_contend.
  - intros r s' [H _]. exact H.
Defined.
