(* ===== verification/Mbx.v ===== *)
(** * Mailboxes: mbx.c.

    A sender holds [sndsem] and a receiver [rcvsem] while it moves bytes through
    the buffer; the one that finds no room, or no bytes, waits in
    [waiting_task] until the other side has moved some.  The bytes are copied
    outside the global lock, one access after the other, so a sender and a
    receiver copy at the same time. *)

From S2P Require Import Prelude Resume Ring MbxRing Kernel Sched Tasks Sem.

Definition RT_MBX_MAGIC := 0x3f81aab.
Definition EFAULT := 14.

(** [CHK_MBX_MAGIC]. *)
Definition bad_mbx (m : nat) (s : kst) : bool := negb (mbxmagic (mbxs s m) =? RT_MBX_MAGIC).
Definition mbuf (m : nat) (s : kst) : mbxbuf := mbxbuffer (mbxs s m).

(** ** Waiting and signalling *)

Definition _mbx_signal (m : nat) (blckdon : ptr) (s : kst) : res kst unit :=
  match waiting_task (mbxs s m) with
  | Some t =>
      let s := rem_timed_task t s in
      let s := tset set_blocked_on t blckdon s in
      let s := mset set_waiting_task m None s in
      let '(woken, s) := unblock (Z.lor RT_SCHED_MBXSUSP RT_SCHED_DELAYED) t s in
      if woken then RT_SCHEDULE t s else Done tt s
  | None => Done tt s
  end.
Definition mbx_delete_signal (m : nat) : kst -> res kst unit := _mbx_signal m RTP_OBJREM.
Definition mbx_signal (m : nat) : kst -> res kst unit := _mbx_signal m NULL.

(** [mbx_wait] and [mbx_wait_until]; [fravbs] is the counter that has to be
    non-zero, the result is [blocked_on] and the error made of it. *)
Definition mbx_wait (m : nat) (fravbs : mbxbuf -> Z) (cur : tid) (s : kst) : res kst ptr :=
  if fravbs (mbuf m s) =? 0 then
    let s := tset set_state cur (Z.lor (state (tasks s cur)) RT_SCHED_MBXSUSP) s in
    let s := rem_ready_current cur s in
    let s := tset set_blocked_on cur (PMbx m) s in
    let s := mset set_waiting_task m (Some cur) s in
    sched* s := rt_schedule s in
    let retval := blocked_on (tasks s cur) in
    Done retval (if is_null retval then s else mset set_waiting_task m None s)
  else Done NULL s.

Definition mbx_wait_until (m : nat) (fravbs : mbxbuf -> Z) (time : Z) (cur : tid) (s : kst) : res kst ptr :=
  if fravbs (mbuf m s) =? 0 then
    let s := tset set_blocked_on cur (PMbx m) s in
    let s := mset set_waiting_task m (Some cur) s in
    let s := tset set_resume_time cur time s in
    sched* s :=
      if smp_time_h s (cpuid s) <? time then
        let s := tset set_state cur
                   (Z.lor (state (tasks s cur)) (Z.lor RT_SCHED_MBXSUSP RT_SCHED_DELAYED)) s in
        let s := rem_ready_current cur s in
        rt_schedule (enq_timed_task cur s)
      else Done tt s in
    let retp := blocked_on (tasks s cur) in
    if is_null retp then Done NULL s
    else
      Done (PInt (if above_higerr retp then RTE_TIMOUT
                  else if same retp RTP_UNBLKD then RTE_UNBLKD else RTE_OBJREM))
           (mset set_waiting_task m None s)
  else Done NULL s.

(** ** Creation and deletion *)

(** [mem] is what the allocator gives for the buffer. *)
Definition rt_typed_mbx_init (m : nat) (sz type : Z) (mem : option (list byte)) (s : kst) : Z * kst :=
  match mem with
  | None => (- ENOMEM, s)
  | Some mem =>
      let ty := if Z.land type 3 =? 0 then Z.lor BIN_SEM type else type in
      let s := rt_typed_sem_init (SndSem m) 1 ty s in
      let s := rt_typed_sem_init (RcvSem m) 1 ty s in
      (0, set_mbxs (<[m := MkMbx RT_MBX_MAGIC None None (mbxbuf_init sz mem)]> (mbxs s)) s)
  end.
Definition rt_mbx_init (m : nat) (sz : Z) (mem : option (list byte)) (s : kst) : Z * kst :=
  rt_typed_mbx_init m sz PRIO_Q mem s.

Fixpoint mbx_delete_loop (fuel : nat) (m : nat) (s : kst) : res kst unit :=
  match waiting_task (mbxs s m) with
  | None => Done tt s
  | Some _ =>
      match fuel with
      | O => NoFuel s
      | S fuel => sched* s := mbx_delete_signal m s in mbx_delete_loop fuel m s
      end
  end.

Definition rt_mbx_delete (fuel : nat) (m : nat) (s : kst) : res kst Z :=
  if bad_mbx m s then Done RTE_OBJINV s
  else
    let s := mset set_mbxmagic m 0 s in
    let* (r1, s) := rt_sem_delete (SndSem m) s in
    if negb (r1 =? 0) then Done (- EFAULT) s
    else
      let* (r2, s) := rt_sem_delete (RcvSem m) s in
      if negb (r2 =? 0) then Done (- EFAULT) s
      else sched* s := mbx_delete_loop fuel m s in Done 0 s.

(** ** Moving bytes

    The copies run outside the global lock, so the other tasks and processors may
    run before every access to the mailbox: before every test and reading of the
    counters, every byte, and every section under [mbx->lock], which changes the
    two counters.  The index of a side is changed in that section here; the code
    does it after the section, when nobody else looks at it: [lbyte] belongs to the
    holder of [sndsem] and [fbyte] to that of [rcvsem].  (The previews and the
    overwriting sends, which take no part in that rule, read and change
    [fbyte] as the code does.)  Of the two readings of a counter in a clamp
    one is made: nothing comes between them that makes a compiler read again. *)

Definition unlocked (s : kst) : res kst unit := stop Unlocked s.
Definition upd_buf (m : nat) (f : mbxbuf -> mbxbuf) (s : kst) : kst := mset set_mbxbuffer m (f (mbuf m s)) s.

(** What a sender and what a receiver does to the buffer. *)
Definition poke (i : Z) (x : byte) (b : mbxbuf) : mbxbuf :=
  {| size := size b; fbyte := fbyte b; lbyte := lbyte b; avbs := avbs b; frbs := frbs b;
     bufadr := memcpy (bufadr b) i [x] 1 |}.
Definition moved_in (k : Z) (b : mbxbuf) : mbxbuf :=
  {| size := size b; fbyte := fbyte b; lbyte := MOD_SIZE (size b) (lbyte b + k);
     avbs := avbs b + k; frbs := frbs b - k; bufadr := bufadr b |}.
Definition moved_out (k : Z) (b : mbxbuf) : mbxbuf :=
  {| size := size b; fbyte := MOD_SIZE (size b) (fbyte b + k); lbyte := lbyte b;
     avbs := avbs b - k; frbs := frbs b + k; bufadr := bufadr b |}.

(** [memcpy] or [rt_copy_from_user] into the buffer, and [memcpy] or [rt_copy_to_user] out of it, byte by byte. *)
Fixpoint copy_in (m : nat) (i : Z) (bytes : list byte) (s : kst) : res kst unit :=
  match bytes with
  | [] => Done tt s
  | x :: bytes => sched* s := unlocked s in copy_in m (i + 1) bytes (upd_buf m (poke i x) s)
  end.
Fixpoint copy_out (n : nat) (m : nat) (i : Z) (out : list byte) (s : kst) : res kst (list byte) :=
  match n with
  | O => Done out s
  | S n => sched* s := unlocked s in copy_out n m (i + 1) (out ++ [zget (bufadr (mbuf m s)) i]) s
  end.

(** A turn of the loop of [mbxput], after its test; the result is [tocpy]. *)
Definition put_turn (m : nat) (msg : list byte) (s : kst) : res kst Z :=
  sched* s := unlocked s in
  let b := mbuf m s in
  let tocpy := clamp (size b - lbyte b) (zlen msg) (frbs b) in
  sched* s := copy_in m (lbyte b) (ztake tocpy msg) s in
  sched* s := unlocked s in
  Done tocpy (upd_buf m (moved_in tocpy) s).

(** What is left of the message.  Every turn moves a byte or more. *)
Fixpoint put_loop (fuel : nat) (m : nat) (msg : list byte) (s : kst) : res kst (list byte) :=
  if 0 <? zlen msg then
    sched* s := unlocked s in
    if frbs (mbuf m s) =? 0 then Done msg s
    else match fuel with
    | O => NoFuel s
    | S fuel => let* (tocpy, s) := put_turn m msg s in put_loop fuel m (zdrop tocpy msg) s
    end
  else Done msg s.
Definition mbx_put (m : nat) (msg : list byte) : kst -> res kst (list byte) := put_loop (length msg) m msg.

(** The same of [mbxget]: the bytes got and the number still wanted. *)
Definition get_turn (m : nat) (n : Z) (s : kst) : res kst (list byte * Z) :=
  sched* s := unlocked s in
  let b := mbuf m s in
  let tocpy := clamp (size b - fbyte b) n (avbs b) in
  let* (out, s) := copy_out (Z.to_nat tocpy) m (fbyte b) [] s in
  sched* s := unlocked s in
  Done (out, tocpy) (upd_buf m (moved_out tocpy) s).

Fixpoint get_loop (fuel : nat) (m : nat) (n : Z) (got : list byte) (s : kst) : res kst (list byte * Z) :=
  if 0 <? n then
    sched* s := unlocked s in
    if avbs (mbuf m s) =? 0 then Done (got, n) s
    else match fuel with
    | O => NoFuel s
    | S fuel => let* (r, s) := get_turn m n s in get_loop fuel m (n - r.2) (got ++ r.1) s
    end
  else Done (got, n) s.
Definition mbx_get (m : nat) (n : Z) : kst -> res kst (list byte * Z) := get_loop (Z.to_nat n) m n [].

(** The inner loop of [mbxovrwrput] drops the oldest bytes until [n] fit. *)
Fixpoint drop_loop (fuel : nat) (m : nat) (n : Z) (s : kst) : res kst unit :=
  sched* s := unlocked s in
  let b := mbuf m s in
  let k := n - frbs b in
  if 0 <? k then
    match fuel with
    | O => NoFuel s
    | S fuel =>
        let tocpy := clamp (size b - fbyte b) k (avbs b) in
        sched* s := unlocked s in
        drop_loop fuel m n (upd_buf m (moved_out tocpy) s)
    end
  else Done tt s.
Fixpoint ovrwr_loop (fuel : nat) (m : nat) (msg : list byte) (s : kst) : res kst Z :=
  if 0 <? zlen msg then
    match fuel with
    | O => NoFuel s
    | S fuel =>
        sched* s := unlocked s in
        let* (tocpy, s) := if negb (frbs (mbuf m s) =? 0) then put_turn m msg s else Done 0 s in
        let msg := zdrop tocpy msg in
        sched* s := if negb (zlen msg =? 0) then drop_loop (S (length msg)) m (zlen msg) s else Done tt s in
        ovrwr_loop fuel m msg s
    end
  else Done 0 s.
Definition mbx_ovrwr_put (m : nat) (msg : list byte) (s : kst) : res kst Z :=
  let msg := zdrop (zlen msg - size (mbuf m s)) msg in
  ovrwr_loop (S (S (length msg))) m msg s.

Section transfer.
(** The address of an object as a number. *)
Context (addr : ptr -> Z).
(** What the waits return: [blocked_on] cut to an [int].  It is a small code when
    the wait has been ended, and the address of the mailbox when nobody has. *)
Definition ptr_int (p : ptr) : Z := i32 (match p with PInt z => z | _ => addr p end).

(** The loop of the sends; [wait] is [mbx_wait] or [mbx_wait_until] on [frbs], a section under the global lock as
    [mbx_signal] is. *)
Fixpoint send_loop (fuel : nat) (wait : kst -> res kst ptr) (m : nat) (msg : list byte) (s : kst) : res kst Z :=
  sched* s := unlocked s in
  if zlen msg =? 0 then
    let* (_, s) := rt_sem_signal (SndSem m) s in Done 0 s
  else match fuel with
  | O => NoFuel s
  | S fuel =>
      let* (retp, s) := wait s in
      let retval := ptr_int retp in
      if negb (retval =? 0) then
        let* (_, s) := rt_sem_signal (SndSem m) s in Done retval s
      else
        let* (msg, s) := mbx_put m msg s in
        sched* s := unlocked s in
        sched* s := mbx_signal m s in
        send_loop fuel wait m msg s
  end.

Definition _rt_mbx_send (fuel : nat) (m : nat) (msg : list byte) (s : kst) : res kst Z :=
  if bad_mbx m s then Done RTE_OBJINV s
  else
    let cur := rt_current s in
    let* (retval, s) := rt_sem_wait (SndSem m) s in
    if 1 <? retval then Done retval s
    else send_loop fuel (mbx_wait m frbs cur) m msg s.

Definition _rt_mbx_send_until (fuel : nat) (m : nat) (msg : list byte) (time : Z) (s : kst) : res kst Z :=
  if bad_mbx m s then Done RTE_OBJINV s
  else
    let cur := rt_current s in
    let* (retval, s) := rt_sem_wait_until (SndSem m) time s in
    if 1 <? retval then Done retval s
    else send_loop fuel (mbx_wait_until m frbs time cur) m msg s.
Definition _rt_mbx_send_timed (fuel : nat) (m : nat) (msg : list byte) (delay : Z) (s : kst) : res kst Z :=
  _rt_mbx_send_until fuel m msg (rt_get_time s + delay) s.

(** A conditional service takes the semaphore without waiting. *)
Definition grab (i : semid) (cur : tid) (s : kst) : kst := take_resource i cur (sset set_count i 0 s).

(** The end of a conditional service: the other side is woken and the semaphore given back. *)
Definition moved (m : nat) (side : semid) (s : kst) : res kst unit :=
  sched* s := unlocked s in
  sched* s := mbx_signal m s in
  sched* s := unlocked s in
  let* (_, s) := rt_sem_signal side s in Done tt s.

Definition _rt_mbx_send_wp (m : nat) (msg : list byte) (s : kst) : res kst Z :=
  if bad_mbx m s then Done RTE_OBJINV s
  else if (0 <? count (sems s (SndSem m))) && negb (frbs (mbuf m s) =? 0) then
    let s := grab (SndSem m) (rt_current s) s in
    let* (msg, s) := mbx_put m msg s in
    sched* s := moved m (SndSem m) s in
    Done (zlen msg) s
  else Done (zlen msg) s.

Definition _rt_mbx_send_if (m : nat) (msg : list byte) (s : kst) : res kst Z :=
  if bad_mbx m s then Done RTE_OBJINV s
  else if (0 <? count (sems s (SndSem m))) && (zlen msg <=? frbs (mbuf m s)) then
    let s := grab (SndSem m) (rt_current s) s in
    let* (_, s) := mbx_put m msg s in
    sched* s := moved m (SndSem m) s in
    Done 0 s
  else Done (zlen msg) s.

Definition _rt_mbx_ovrwr_send (m : nat) (msg : list byte) (s : kst) : res kst Z :=
  if bad_mbx m s then Done RTE_OBJINV s
  else if 0 <? count (sems s (SndSem m)) then
    let s := grab (SndSem m) (rt_current s) s in
    let* (r, s) := mbx_ovrwr_put m msg s in
    sched* s := moved m (SndSem m) s in
    Done r s
  else Done (zlen msg) s.

(** The receives also return the bytes delivered. *)
Fixpoint receive_loop (fuel : nat) (wait : kst -> res kst ptr) (m : nat) (n : Z)
    (got : list byte) (s : kst) : res kst (Z * list byte) :=
  sched* s := unlocked s in
  if n =? 0 then
    let* (_, s) := rt_sem_signal (RcvSem m) s in Done (0, got) s
  else match fuel with
  | O => NoFuel s
  | S fuel =>
      let* (retp, s) := wait s in
      let retval := ptr_int retp in
      if negb (retval =? 0) then
        let* (_, s) := rt_sem_signal (RcvSem m) s in Done (retval, got) s
      else
        let* (r, s) := mbx_get m n s in
        sched* s := unlocked s in
        sched* s := mbx_signal m s in
        receive_loop fuel wait m r.2 (got ++ r.1) s
  end.

Definition _rt_mbx_receive (fuel : nat) (m : nat) (n : Z) (s : kst) : res kst (Z * list byte) :=
  if bad_mbx m s then Done (RTE_OBJINV, []) s
  else
    let cur := rt_current s in
    let* (retval, s) := rt_sem_wait (RcvSem m) s in
    if 1 <? retval then Done (n, []) s
    else receive_loop fuel (mbx_wait m avbs cur) m n [] s.

Definition _rt_mbx_receive_until (fuel : nat) (m : nat) (n time : Z) (s : kst) : res kst (Z * list byte) :=
  if bad_mbx m s then Done (RTE_OBJINV, []) s
  else
    let cur := rt_current s in
    let* (retval, s) := rt_sem_wait_until (RcvSem m) time s in
    if 1 <? retval then Done (retval, []) s
    else receive_loop fuel (mbx_wait_until m avbs time cur) m n [] s.
Definition _rt_mbx_receive_timed (fuel : nat) (m : nat) (n delay : Z) (s : kst) : res kst (Z * list byte) :=
  _rt_mbx_receive_until fuel m n (rt_get_time s + delay) s.

Definition _rt_mbx_receive_wp (m : nat) (n : Z) (s : kst) : res kst (Z * list byte) :=
  if bad_mbx m s then Done (RTE_OBJINV, []) s
  else if (0 <? count (sems s (RcvSem m))) && negb (avbs (mbuf m s) =? 0) then
    let s := grab (RcvSem m) (rt_current s) s in
    let* (r, s) := mbx_get m n s in
    sched* s := moved m (RcvSem m) s in
    Done (r.2, r.1) s
  else Done (n, []) s.

Definition _rt_mbx_receive_if (m : nat) (n : Z) (s : kst) : res kst (Z * list byte) :=
  if bad_mbx m s then Done (RTE_OBJINV, []) s
  else if (0 <? count (sems s (RcvSem m))) && (n <=? avbs (mbuf m s)) then
    let s := grab (RcvSem m) (rt_current s) s in
    let* (r, s) := mbx_get m n s in
    sched* s := moved m (RcvSem m) s in
    Done (0, r.1) s
  else Done (n, []) s.

End transfer.

(** [mbxevdrp] on copies of [fbyte] and [avbs]; a copy to the user reads at [mbx->fbyte]. *)
Fixpoint evdrp_loop (fuel : nat) (m : nat) (fb av n : Z) (space : bool) (out : list byte) (s : kst) :
    res kst (list byte * Z) :=
  if (0 <? n) && negb (av =? 0) then
    match fuel with
    | O => NoFuel s
    | S fuel =>
        let tocpy := clamp (size (mbuf m s) - fb) n av in
        sched* s := unlocked s in
        let* (out, s) := copy_out (Z.to_nat tocpy) m (if space then fb else fbyte (mbuf m s)) out s in
        evdrp_loop fuel m (MOD_SIZE (size (mbuf m s)) (fb + tocpy)) (av - tocpy) (n - tocpy) space out s
    end
  else Done (out, n) s.
Definition _rt_mbx_evdrp (m : nat) (n : Z) (space : bool) (s : kst) : res kst (list byte * Z) :=
  sched* s := unlocked s in
  let fb := fbyte (mbuf m s) in
  sched* s := unlocked s in
  evdrp_loop (Z.to_nat n) m fb (avbs (mbuf m s)) n space [] s.
