(* ===== verification/MbxFacts.v ===== *)
(** * Theorems on the mailbox services: a blocking send puts every byte of the
    message in order behind what the mailbox holds, a blocking receive takes
    the oldest bytes, whatever the other side does in the meantime.  The two copy at
    the same time, access by access; what a section of one side does to the buffer
    is what the other side allows ([sender_adds], [sender_moves], [receiver_takes]). *)

From S2P Require Import Prelude Resume Ring MbxRing Kernel KernelFacts Sched Keeps Tasks Sem SemFacts Mbx.
From stdpp Require Import list sets.
#[local] Open Scope Z_scope.
#[local] Abbreviation size := MbxRing.size.

(** ** Holding one side of a mailbox

    The caller holds the semaphore [side] of mailbox [m] and waits for the
    counter [fravbs]; meanwhile the others may change the buffer as [step]
    allows, which never takes away what the caller waits for. *)
Section side.
Context (m : nat) (side : semid) (fravbs : mbxbuf -> Z) (cur : tid) (step : mbxbuf -> mbxbuf -> Prop).
Context (step_counter : forall b b', mbx_ok b -> mbx_ok b' -> step b b' -> fravbs b <= fravbs b').

Record held (s : kst) : Prop := {
  h_buf : mbx_ok (mbuf m s);
  h_sem : semtype (sems s side) <= 0 -> bad_sem side s = false /\ sem_inv side s;
  h_cur : cur ∉ waiters s side;
  h_wait : forall t, waiting_task (mbxs s m) = Some t -> t ∉ waiters s side
}.

(** What [blocked_on] may hold while the caller waits. *)
Definition code_ok (p : ptr) : Prop := p = PMbx m \/ exists z, p = PInt z /\ 0 < z < 2 ^ 31.

Definition code_or_null (p : ptr) : Prop := code_ok p \/ p = NULL.

(** What the others promise: to keep [held], to change the buffer by [step], and
    to end the wait only with a code, or with something to move. *)
Definition side_rely (s s' : kst) : Prop :=
  (held s -> held s' /\ step (mbuf m s) (mbuf m s')) /\
  (code_or_null (blocked_on (tasks s cur)) -> code_or_null (blocked_on (tasks s' cur))) /\
  (blocked_on (tasks s cur) <> NULL -> blocked_on (tasks s' cur) = NULL -> 0 < fravbs (mbuf m s')).

(** A property of the buffer the others keep. *)
Definition stable (C : mbxbuf -> Prop) : Prop :=
  forall b b', mbx_ok b -> mbx_ok b' -> step b b' -> C b -> C b'.

Context (C : mbxbuf -> Prop) (C_stable : stable C).
Definition holds (s : kst) : Prop := held s /\ C (mbuf m s).
Context (G : kst -> Prop) (C_guar : forall s, holds s -> G s).

Lemma held_keeps s s' : keeps s s' -> held s -> held s'.
Proof.
  intros Hk []. pose proof Hk as []. split.
  - unfold mbuf. by rewrite k_mbxs.
  - unfold bad_sem in *. rewrite k_sems. intros [? ?]%h_sem0. split; [done|]. by apply (sem_inv_keeps side s).
  - by rewrite k_queues.
  - intros t. rewrite k_mbxs, k_queues. auto.
Qed.

Lemma holds_keeps s s' : keeps s s' -> holds s -> holds s'.
Proof. intros Hk [H HC]. split; [by apply (held_keeps s)|]. unfold mbuf. by rewrite (k_mbxs _ _ Hk). Qed.

Lemma holds_rely s s' : holds s -> side_rely s s' -> holds s'.
Proof using C_stable.
  intros [H HC] (Hr & _). destruct (Hr H) as [H' Hs]. split; [done|].
  eapply C_stable; [| |exact Hs|done]; by apply h_buf.
Qed.

(** [mbx_signal] wakes the other side. *)
Lemma mbx_signal_ok s : holds s -> wp G side_rely (mbx_signal m s) (fun _ s' => holds s').
Proof using C_stable C_guar.
  intros Hh. unfold mbx_signal, _mbx_signal. destruct (waiting_task (mbxs s m)) as [t|] eqn:Et; [|done].
  set (s1 := rem_timed_task t s). set (s2 := mset set_waiting_task m None (tset set_blocked_on t NULL s1)).
  assert (holds s1) as [H1 C1] by (by apply (holds_keeps s); [apply keeps_rem_timed|]).
  assert (holds s2) as H2.
  { assert (mbxs s1 = mbxs s) as Em by apply (k_mbxs _ _ (keeps_rem_timed t s)).
    assert (queues s1 = queues s) as Eq by apply (k_queues _ _ (keeps_rem_timed t s)).
    assert (mbuf m s2 = mbuf m s1) as Eb.
    { unfold mbuf, s2. rewrite mset_same. done. }
    destruct H1. split; [|by rewrite Eb]. split; try done.
    - by rewrite Eb.
    - intros [Hv Hi]%h_sem0. split; [done|]. apply (sem_inv_ext side s1); try done. intros u Hu.
      change (tasks s2) with (tasks (tset set_blocked_on t NULL s1)). rewrite tset_other; [done|].
      intros ->. destruct Hh as [Hh _]. rewrite Eq in Hu. by apply (h_wait s Hh u Et).
    - intros u. unfold s2. rewrite mset_same. done. }
  pose proof (keeps_unblock (Z.lor RT_SCHED_MBXSUSP RT_SCHED_DELAYED) t s2) as Hk.
  destruct (unblock _ t s2) as [woken s3]. cbn in Hk. apply (holds_keeps _ _ Hk) in H2.
  destruct woken; [|done]. apply (safe_RT_SCHEDULE G side_rely holds); try done.
  - apply holds_keeps.
  - apply holds_rely.
Qed.

(** While the caller waits: what it is blocked on says when it may go on. *)
Definition waits (s : kst) : Prop :=
  holds s /\ code_or_null (blocked_on (tasks s cur)) /\
  (blocked_on (tasks s cur) = NULL -> 0 < fravbs (mbuf m s)).

Lemma waits_keeps a b : keeps a b -> waits a -> waits b.
Proof.
  intros Hk (K1 & K2 & K3). unfold waits, mbuf. rewrite (k_blocked _ _ Hk), (k_mbxs _ _ Hk).
  split; [by apply (holds_keeps a)|done].
Qed.

Lemma waits_rely a b : waits a -> side_rely a b -> waits b.
Proof using C_stable step_counter.
  intros (K1 & K2 & K3) Hr. pose proof (holds_rely _ _ K1 Hr) as K4.
  destruct Hr as (R1 & R2 & R3). split; [done|]. split; [by apply R2|]. intros Hn.
  destruct (decide (blocked_on (tasks a cur) = NULL)) as [Hb|Hb]; [|auto].
  destruct K1 as [K1 _]. destruct (R1 K1) as [K1' Hs].
  specialize (step_counter _ _ (h_buf a K1) (h_buf b K1') Hs). specialize (K3 Hb). lia.
Qed.

Lemma held_waiting t s : held s -> (forall u, t = Some u -> u ∉ waiters s side) ->
  held (mset set_waiting_task m t s).
Proof.
  intros [] Ht. assert (mbuf m (mset set_waiting_task m t s) = mbuf m s) as Eb
    by (unfold mbuf; by rewrite mset_same).
  split; try done; [by rewrite Eb| |].
  - intros [Hv Hi]%h_sem0. split; [done|]. by apply (sem_inv_ext side s).
  - intros u. rewrite mset_same. apply Ht.
Qed.
Lemma held_blocked t p s : held s -> t ∉ waiters s side -> held (tset set_blocked_on t p s).
Proof.
  intros [] Ht. split; try done. intros [Hv Hi]%h_sem0. split; [done|]. apply (sem_inv_ext side s); try done.
  intros u Hu. rewrite tset_other; [done|]. by intros ->.
Qed.

Lemma holds_waiting t s : holds s -> (forall u, t = Some u -> u ∉ waiters s side) ->
  holds (mset set_waiting_task m t s).
Proof.
  intros [H HC] Ht. split; [by apply held_waiting|]. unfold mbuf. by rewrite mset_same.
Qed.

Lemma waits_enter s : holds s ->
  waits (mset set_waiting_task m (Some cur) (tset set_blocked_on cur (PMbx m) s)).
Proof.
  intros [H HC]. pose proof (h_cur s H) as Hc.
  set (s2 := mset _ _ _ _). assert (blocked_on (tasks s2 cur) = PMbx m) as Eb.
  { change (tasks s2) with (tasks (tset set_blocked_on cur (PMbx m) s)). by rewrite tset_same. }
  unfold waits. rewrite Eb. split; [|split; [by left; left|done]]. apply holds_waiting.
  - split; [by apply held_blocked|done].
  - by intros u [= <-].
Qed.

(** What is left to do after the wait. *)
Lemma waits_leave s : waits s ->
  holds (if is_null (blocked_on (tasks s cur)) then s else mset set_waiting_task m None s).
Proof. intros [H _]. destruct (is_null _); [done|]. by apply holds_waiting. Qed.

Lemma waits_schedule s : waits s -> wp G side_rely (rt_schedule s) (fun _ s => waits s).
Proof using C_stable C_guar step_counter.
  apply (safe_rt_schedule G side_rely waits); [apply waits_keeps|intros ? [? _]; auto|apply waits_rely].
Qed.

Definition wait_post (p : ptr) (s' : kst) : Prop :=
  holds s' /\ code_or_null p /\ (p = NULL -> 0 < fravbs (mbuf m s')).

(** [mbx_wait] comes back with something to move, or with a code. *)
Lemma mbx_wait_ok s : (forall b, mbx_ok b -> 0 <= fravbs b) -> holds s ->
  wp G side_rely (mbx_wait m fravbs cur s) wait_post.
Proof using C_stable C_guar step_counter.
  intros Hpos Hh. unfold mbx_wait. destruct (fravbs (mbuf m s) =? 0) eqn:Ez; zbool.
  - cbv zeta. apply wp_rbind. eapply wp_mono; [apply waits_schedule, waits_enter|].
    + apply (holds_keeps s); [|done]. etrans; [|apply keeps_rem_current]. keep.
    + intros [] s3 H3. pose proof (waits_leave _ H3). destruct H3 as (K1 & K2 & K3).
      simpl. split; [done|]. split; [done|]. intros Hn. rewrite Hn. by apply K3.
  - simpl. split; [done|]. split; [by right|]. intros _. destruct Hh as [[Hb] _].
    specialize (Hpos _ Hb). lia.
Qed.

(** [mbx_wait_until] too; a time that is over is a code. *)
Lemma mbx_wait_until_ok time s : (forall b, mbx_ok b -> 0 <= fravbs b) -> holds s ->
  wp G side_rely (mbx_wait_until m fravbs time cur s) wait_post.
Proof using C_stable C_guar step_counter.
  intros Hpos Hh. unfold mbx_wait_until. destruct (fravbs (mbuf m s) =? 0) eqn:Ez; zbool.
  - cbv zeta. apply wp_rbind. eapply (wp_mono _ _ _ (fun _ s => waits s)).
    + set (s1 := tset set_resume_time cur time _).
      assert (waits s1) as H1 by (eapply waits_keeps; [apply (keeps_tset set_resume_time)|by apply waits_enter]).
      destruct (_ <? _); [|done]. apply waits_schedule. eapply waits_keeps; [|exact H1].
      etrans; [|apply keeps_enq_timed]. etrans; [|apply keeps_rem_current]. keep.
    + intros [] s3 H3. pose proof (waits_leave _ H3) as Hl. destruct H3 as (K1 & K2 & K3).
      unfold is_null in *. case_bool_decide as Hn; cbn [wp].
      * split; [done|]. split; [by right|]. intros _. by apply K3.
      * match goal with |- wait_post (PInt ?z) _ => set (c := z) end.
        assert (0 < c < 2 ^ 31) as Hc.
        { unfold c. destruct (above_higerr _); [|destruct (bool_decide _)]; (split; by vm_compute). }
        split; [done|]. split; [left; right; by exists c|]. intros [= Hc0]. lia.
  - simpl. split; [done|]. split; [by right|]. intros _. destruct Hh as [[Hb] _].
    specialize (Hpos _ Hb). lia.
Qed.
End side.

(** ** Sending

    [send_loop] without its release of the semaphore. *)
Section loops.
Context (addr : ptr -> Z).

Fixpoint send_moves (fuel : nat) (wait : kst -> res kst ptr) (m : nat) (msg : list byte) (s : kst) : res kst Z :=
  sched* s := unlocked s in
  if zlen msg =? 0 then Done 0 s
  else match fuel with
  | O => NoFuel s
  | S fuel =>
      let* (retp, s) := wait s in
      if negb (ptr_int addr retp =? 0) then Done (ptr_int addr retp) s
      else
        let* (msg, s) := mbx_put m msg s in
        sched* s := unlocked s in
        sched* s := mbx_signal m s in
        send_moves fuel wait m msg s
  end.

Definition release (m : semid) {A} (r : A) (s : kst) : res kst A :=
  let* (_, s) := rt_sem_signal m s in Done r s.

Lemma send_loop_moves fuel wait m msg s :
  req (send_loop addr fuel wait m msg s) (rbind (send_moves fuel wait m msg s) (release (SndSem m))).
Proof.
  revert msg s. induction fuel as [|fuel IH]; intros msg s; cbn [send_loop send_moves]; rewrite rbind_assoc; f_equiv;
    intros [] s0; destruct (zlen msg =? 0); try (simpl; reflexivity).
  rewrite rbind_assoc. f_equiv. intros retp s1. destruct (negb _); [reflexivity|].
  rewrite rbind_assoc. f_equiv. intros msg' s2. rewrite rbind_assoc. f_equiv. intros [] s3.
  rewrite rbind_assoc. f_equiv. intros [] s4. apply IH.
Qed.

(** The receivers only make room: they let the bytes and the index of the senders alone. *)
Definition taken (b b' : mbxbuf) : Prop :=
  size b' = size b /\ bufadr b' = bufadr b /\ lbyte b' = lbyte b /\ frbs b <= frbs b'.
(** The senders only add bytes behind those that are there. *)
Definition added (b b' : mbxbuf) : Prop :=
  size b' = size b /\ fbyte b' = fbyte b /\ exists d, mbx_bytes b' = mbx_bytes b ++ d.

Lemma taken_counter b b' : mbx_ok b -> mbx_ok b' -> taken b b' -> frbs b <= frbs b'.
Proof. by intros _ _ (_ & _ & _ & ?). Qed.
Lemma added_counter b b' : mbx_ok b -> mbx_ok b' -> added b b' -> avbs b <= avbs b'.
Proof.
  intros H H' (_ & _ & d & Hd). apply (f_equal zlen) in Hd. rewrite zlen_app, !zlen_mbx_bytes in Hd by done.
  pose proof (zlen_nonneg d). lia.
Qed.

#[local] Ltac ring_lia := unfold MOD_SIZE in *; repeat zcase; repeat split; lia.
(** The bytes in two well-formed buffers that have their storage and the index of the senders in common. *)
Lemma taken_bytes b b' : mbx_ok b -> mbx_ok b' -> taken b b' -> exists d, mbx_bytes b = d ++ mbx_bytes b'.
Proof.
  intros [] [] (Hs & Hb & Hl & Hf). exists (cwin (bufadr b) (fbyte b) (avbs b - avbs b')). unfold mbx_bytes. rewrite Hb.
  replace (avbs b) with (avbs b - avbs b' + avbs b') at 1 by lia. rewrite cwin_split by lia. do 2 f_equal.
  rewrite ok_len. rewrite ok_lbyte, ok_lbyte0, Hs in Hl. revert Hl. ring_lia.
Qed.

(** *** What a section does to the buffer *)

Lemma poke_ok b j x : mbx_ok b -> 0 <= j < frbs b -> lbyte b + j < size b ->
  mbx_ok (poke (lbyte b + j) x b) /\ mbx_bytes (poke (lbyte b + j) x b) = mbx_bytes b /\
  memread (bufadr (poke (lbyte b + j) x b)) (lbyte b) (j + 1) = memread (bufadr b) (lbyte b) j ++ [x].
Proof.
  intros [] Hj Hl. assert (0 <= lbyte b < size b) as Hlb by (rewrite ok_lbyte; ring_lia).
  assert (zlen [x] = 1) as H1 by done.
  assert (zlen (memcpy (bufadr b) (lbyte b + j) [x] 1) = size b) as Hlen by (rewrite zlen_memcpy; lia).
  split; [|split].
  - by split.
  - unfold mbx_bytes, poke. cbn [bufadr fbyte avbs]. apply cwin_ext. intros i Hi.
    rewrite Hlen, zget_memcpy, ok_len by (rewrite ?ok_len; ring_lia).
    assert ((lbyte b + j <=? MOD_SIZE (size b) (fbyte b + i)) && (MOD_SIZE (size b) (fbyte b + i) <? lbyte b + j + 1) = false)
      as ->; [|done].
    revert Hl Hlb. rewrite ok_lbyte. unfold MOD_SIZE. zcases; lia.
  - unfold poke. cbn [bufadr]. apply zlist_eq.
    + rewrite zlen_app, !zlen_memread by lia. done.
    + rewrite zlen_memread by lia. intros i Hi.
      rewrite zget_memread, zget_memcpy, zget_app, zlen_memread by lia.
      zcases; try lia; [f_equal; lia|by rewrite zget_memread by lia].
Qed.

Lemma moved_in_ok b k : mbx_ok b -> 0 <= k <= frbs b -> lbyte b + k <= size b ->
  mbx_ok (moved_in k b) /\ mbx_bytes (moved_in k b) = mbx_bytes b ++ memread (bufadr b) (lbyte b) k.
Proof.
  intros [] Hk Hl. assert (0 <= lbyte b < size b) as Hlb by (rewrite ok_lbyte; ring_lia). split.
  - split; cbn [moved_in size fbyte lbyte avbs frbs bufadr]; try lia. revert Hl Hlb. rewrite ok_lbyte. ring_lia.
  - unfold mbx_bytes. cbn [moved_in fbyte avbs bufadr].
    by rewrite cwin_split, ok_len, <- ok_lbyte, (cwin_memread _ (lbyte b)) by lia.
Qed.

Lemma moved_out_ok b k : mbx_ok b -> 0 <= k <= avbs b -> fbyte b + k <= size b ->
  mbx_ok (moved_out k b) /\ mbx_bytes (moved_out k b) = zdrop k (mbx_bytes b).
Proof.
  intros [] Hk Hl. split.
  - split; cbn [moved_out size fbyte lbyte avbs frbs bufadr]; try lia; [|rewrite ok_lbyte]; ring_lia.
  - unfold mbx_bytes. cbn [moved_out fbyte avbs bufadr]. by rewrite <- cwin_zdrop, ok_len by lia.
Qed.

(** So each side keeps the promise the other relies on. *)
Lemma sender_adds b j x : mbx_ok b -> 0 <= j < frbs b -> lbyte b + j < size b -> added b (poke (lbyte b + j) x b).
Proof. intros H Hj Hl. split; [done|]. split; [done|]. exists []. rewrite app_nil_r. by apply poke_ok. Qed.
Lemma sender_moves b k : mbx_ok b -> 0 <= k <= frbs b -> lbyte b + k <= size b -> added b (moved_in k b).
Proof. intros H Hj Hl. split; [done|]. split; [done|]. eexists. by apply moved_in_ok. Qed.
Lemma receiver_takes b k : 0 <= k -> taken b (moved_out k b).
Proof. intros Hk. unfold taken. cbn [moved_out size bufadr lbyte frbs]. split_and!; try done. lia. Qed.

(** The mailbox holds the newest part of [c]. *)
Definition in_order (sz : Z) (c : list byte) (b : mbxbuf) : Prop :=
  size b = sz /\ exists d, c = d ++ mbx_bytes b.

Lemma in_order_stable sz c : stable taken (in_order sz c).
Proof.
  intros b b' H H' Ht [Hz [d Hd]]. destruct (taken_bytes b b' H H' Ht) as [d' Hd'], Ht as [Hs _]. split; [congruence|].
  exists (d ++ d'). by rewrite Hd, Hd', <- app_assoc.
Qed.

(** [mbx_put] appends what fits of the message. *)
Lemma held_buffer m side cur b s :
  held m side cur s -> mbx_ok b -> held m side cur (mset set_mbxbuffer m b s).
Proof.
  intros [] Hb. assert (mbuf m (mset set_mbxbuffer m b s) = b) as Eb by (unfold mbuf; by rewrite mset_same).
  split; try done; [by rewrite Eb| |].
  - intros [Hv Hi]%h_sem0. split; [done|]. by apply (sem_inv_ext side s).
  - intros u. rewrite mset_same. apply h_wait0.
Qed.

(** The waits of the blocking services. *)
Inductive blocking_wait (m : nat) (fravbs : mbxbuf -> Z) (cur : tid) : (kst -> res kst ptr) -> Prop :=
| Forever : blocking_wait m fravbs cur (mbx_wait m fravbs cur)
| Until time : blocking_wait m fravbs cur (mbx_wait_until m fravbs time cur).

Lemma blocking_wait_ok m side fravbs cur step C G wait s :
  (forall b b', mbx_ok b -> mbx_ok b' -> step b b' -> fravbs b <= fravbs b') ->
  stable step C -> (forall s, holds m side cur C s -> G s) ->
  (forall b, mbx_ok b -> 0 <= fravbs b) -> blocking_wait m fravbs cur wait -> holds m side cur C s ->
  wp G (side_rely m side fravbs cur step) (wait s) (wait_post m side fravbs cur C).
Proof.
  intros Hc Hst HG Hp [|time] Hh; [by apply mbx_wait_ok|by apply mbx_wait_until_ok].
Qed.

(** The code of a wait is zero exactly when there is something to move. *)
Lemma ptr_int_code m p : i32 (addr (PMbx m)) <> 0 -> code_or_null m p -> ptr_int addr p = 0 -> p = NULL.
Proof.
  intros Ha [[->|(z & -> & Hz)] | -> ] H; [done| |done]. unfold ptr_int in H. rewrite wraps_small in H by lia. lia.
Qed.

(** What is promised of a send at its stops and at its end: the mailbox holds
    the newest bytes of what was there and of the part that is sent. *)
Definition sending (m : nat) (cur : tid) (sz : Z) (c0 msg0 : list byte) (s : kst) (rest : list byte) : Prop :=
  held m (SndSem m) cur s /\ exists sent, msg0 = sent ++ rest /\ in_order sz (c0 ++ sent) (mbuf m s).

Lemma upd_buf_same m f s : mbuf m (upd_buf m f s) = f (mbuf m s).
Proof. unfold upd_buf, mbuf. by rewrite mset_same. Qed.
Lemma held_upd m side cur f s : held m side cur s -> mbx_ok (f (mbuf m s)) -> held m side cur (upd_buf m f s).
Proof. apply held_buffer. Qed.

Section sends.
Context (m : nat) (cur : tid) (sz : Z) (c0 msg0 : list byte).
#[local] Abbreviation sends := (sending m cur sz c0 msg0).
#[local] Abbreviation G := (fun s => exists rest, sends s rest).
#[local] Abbreviation R := (side_rely m (SndSem m) frbs cur taken).

Lemma sending_rely s s' rest : sends s rest -> R s s' -> sends s' rest.
Proof.
  intros (H & sent & E & Ho) (Hr & _). destruct (Hr H) as [H' Ht]. split; [done|]. exists sent. split; [done|].
  eapply in_order_stable; [| |exact Ht|done]; by eapply h_buf.
Qed.

(** Bytes are on their way into the free room: they have landed from [l] on, and [k] fit. *)
Definition landing (l k : Z) (rest landed : list byte) (s : kst) : Prop :=
  sends s rest /\ lbyte (mbuf m s) = l /\ k <= frbs (mbuf m s) /\
  memread (bufadr (mbuf m s)) l (zlen landed) = landed.

Lemma landing_rely l k rest landed s s' : landing l k rest landed s -> R s s' -> landing l k rest landed s'.
Proof.
  intros (Hs & Hl & Hk & Hb) Hr. pose proof (sending_rely _ _ _ Hs Hr) as Hs'. destruct Hs as [H _], Hr as [Hr _].
  destruct (Hr H) as [_ (_ & Eb & El & Hf)]. unfold landing. rewrite Eb, El. split_and!; try done. lia.
Qed.

Lemma copy_in_ok l k rest bytes landed s :
  l + k <= sz -> zlen landed + zlen bytes <= k -> landing l k rest landed s ->
  wp G R (copy_in m (l + zlen landed) bytes s) (fun _ s' => landing l k rest (landed ++ bytes) s').
Proof.
  intros Hk. revert landed s. induction bytes as [|x bytes IH]; intros landed s Hlen Hs; cbn [copy_in].
  { cbn. by rewrite app_nil_r. }
  split; [by exists rest; apply Hs|]. intros s1 Hr. cbn [rbind]. apply (landing_rely _ _ _ _ _ _ Hs) in Hr. clear s Hs.
  assert (zlen (x :: bytes) = 1 + zlen bytes) as Ex by (unfold zlen; cbn [length]; lia). rewrite Ex in Hlen.
  destruct Hr as ((H & sent & E & Hz & d & Hd) & Hl & Hf & Hb).
  pose proof (zlen_nonneg landed) as Hn. pose proof (zlen_nonneg bytes). assert (zlen (landed ++ [x]) = zlen landed + 1) as Ea by apply zlen_app.
  destruct (poke_ok (mbuf m s1) (zlen landed) x) as (P1 & P2 & P3); [by eapply h_buf|lia..|]. rewrite Hl in P1, P2, P3.
  replace (l + zlen landed + 1) with (l + zlen (landed ++ [x])) by lia.
  assert (landed ++ x :: bytes = (landed ++ [x]) ++ bytes) as -> by by rewrite <- app_assoc.
  apply IH; [lia|]. unfold landing, sending. rewrite upd_buf_same. split_and!; try done.
  - by apply held_upd.
  - exists sent. split; [done|]. split; [done|]. exists d. by rewrite P2.
  - by rewrite Ea, P3, Hb.
Qed.

Lemma put_turn_ok msg s : sends s msg -> 0 < frbs (mbuf m s) -> 0 < zlen msg ->
  wp G R (put_turn m msg s) (fun k s' => 0 < k <= zlen msg /\ sends s' (zdrop k msg)).
Proof.
  intros Hs Hf Hm. split; [by exists msg|]. intros s1 Hr. cbn [rbind].
  assert (0 < frbs (mbuf m s1)) as Hf1.
  { destruct Hs as [H _], Hr as [Hr _]. destruct (Hr H) as [_ (_ & _ & _ & ?)]. lia. }
  apply (sending_rely _ _ _ Hs) in Hr. clear s Hs Hf. cbv zeta. set (k := clamp _ _ _).
  pose proof (h_buf _ _ _ _ (proj1 Hr)) as Hok. pose proof Hok as [Hlen Hsz Hfb Ha Hfr Hsum Hl].
  assert (0 <= lbyte (mbuf m s1) < size (mbuf m s1)) as Hlb by (rewrite Hl; ring_lia).
  assert (0 < k <= zlen msg /\ k <= frbs (mbuf m s1) /\ lbyte (mbuf m s1) + k <= size (mbuf m s1)) as (K1 & K2 & K3)
    by (unfold k; rewrite clamp_spec; lia).
  assert (size (mbuf m s1) = sz) as Hz by (destruct Hr as (_ & ? & _ & ? & _); done).
  assert (zlen (ztake k msg) = k) as Hk by (rewrite zlen_ztake; lia).
  apply wp_rbind. eapply wp_mono.
  { rewrite <- (Z.add_0_r (lbyte _)). apply (copy_in_ok (lbyte (mbuf m s1)) k msg (ztake k msg) []); [lia|by rewrite Hk|].
    by split_and!. }
  intros [] s2 Hs2. split; [by exists msg; apply Hs2|]. intros s3 Hr3. cbn [rbind wp].
  apply (landing_rely _ _ _ _ _ _ Hs2) in Hr3. destruct Hr3 as ((H3 & sent & E & Hz3 & d & Hd) & Hl3 & Hf3 & Hb3).
  cbn [app] in Hb3. rewrite Hk in Hb3.
  destruct (moved_in_ok (mbuf m s3) k) as [M1 M2]; [by eapply h_buf|lia..|]. split; [lia|].
  split; [by apply held_upd|]. exists (sent ++ ztake k msg). rewrite <- app_assoc, ztake_zdrop. split; [done|].
  rewrite upd_buf_same. split; [done|]. exists d. by rewrite M2, Hl3, Hb3, app_assoc, Hd, <- app_assoc.
Qed.

(** [mbxput] stops when there is no more room or nothing is left, and moves a byte at least when there was room. *)
Lemma put_loop_ok fuel msg s : (length msg <= fuel)%nat -> sends s msg ->
  wp G R (put_loop fuel m msg s) (fun rest s' => sends s' rest /\ zlen rest <= zlen msg /\
    (0 < frbs (mbuf m s) -> 0 < zlen msg -> zlen rest < zlen msg)).
Proof.
  revert msg s. induction fuel as [|fuel IH]; intros msg s Hfuel Hs; cbn [put_loop]; zcase.
  1, 3: split; [by exists msg|]; intros s1 Hr; cbn [rbind];
    assert (frbs (mbuf m s) <= frbs (mbuf m s1)) as Hf
      by (destruct Hs as [Hh _], Hr as [Hr _]; by destruct (Hr Hh) as [_ (_ & _ & _ & ?)]);
    apply (sending_rely _ _ _ Hs) in Hr.
  3, 4: cbn [wp]; split_and!; try done; lia.
  { unfold zlen in *. lia. }
  pose proof (ok_frbs _ (h_buf _ _ _ _ (proj1 Hr))). destruct (Z.eqb_spec (frbs (mbuf m s1)) 0) as [E0|E0].
  { cbn [wp]. split_and!; try done. lia. }
  apply wp_rbind. eapply wp_mono; [apply put_turn_ok; [done|lia..]|]. intros k s2 [Hk Hs2].
  assert (zlen (zdrop k msg) = zlen msg - k) as Hl by (rewrite zlen_zdrop; lia).
  eapply wp_mono; [apply IH; [unfold zlen in *; lia|done]|]. intros rest s3 (? & ? & _). split_and!; try done; lia.
Qed.
End sends.

Lemma send_moves_ok fuel wait m cur sz c0 msg0 msg s :
  blocking_wait m frbs cur wait -> i32 (addr (PMbx m)) <> 0 -> (length msg <= fuel)%nat ->
  sending m cur sz c0 msg0 s msg ->
  wp (fun s => exists rest, sending m cur sz c0 msg0 s rest) (side_rely m (SndSem m) frbs cur taken)
    (send_moves fuel wait m msg s)
    (fun r s' => exists rest, sending m cur sz c0 msg0 s' rest /\ (r = 0 <-> rest = [])).
Proof.
  intros Hwait Ha. revert msg s. induction fuel as [|fuel IH]; intros msg s Hfuel Hs; cbn [send_moves];
    (split; [by exists msg|]); intros s0 Hr0; cbn [rbind]; apply (sending_rely _ _ _ _ _ _ _ _ Hs) in Hr0;
    clear s Hs; destruct (zlen msg =? 0) eqn:Ez; zbool.
  1, 3: exists msg; split; [done|]; destruct msg; [done|unfold zlen in Ez; cbn in Ez; lia].
  { unfold zlen in Ez. lia. }
  destruct Hr0 as (H & sent & -> & Ho). set (C := in_order sz (c0 ++ sent)).
  assert (forall s, holds m (SndSem m) cur C s -> sending m cur sz c0 (sent ++ msg) s msg) as HG
    by (intros s1 [? ?]; split; eauto).
  apply wp_rbind. eapply wp_mono.
  { apply (blocking_wait_ok m (SndSem m) frbs cur taken C); [apply taken_counter|apply in_order_stable|
      intros s1 ?; exists msg; auto|by intros ? []|done|by split]. }
  intros p s1 (H1 & Hp & Hn). destruct (ptr_int addr p =? 0) eqn:Ep; zbool; cbn [negb].
  2:{ cbn [wp]. exists msg. split; [auto|]. split; [done|]. intros ->. by destruct Ez. }
  specialize (Hn (ptr_int_code m p Ha Hp Ep)). pose proof (zlen_nonneg msg).
  apply wp_rbind. eapply wp_mono; [apply put_loop_ok; [done|by apply HG]|].
  intros rest s2 (H2 & _ & Hlt). specialize (Hlt Hn ltac:(lia)). split; [by exists rest|]. intros s3 Hr3. cbn [rbind].
  apply (sending_rely _ _ _ _ _ _ _ _ H2) in Hr3. destruct Hr3 as (H3 & sent' & E & Ho3). rewrite E in *.
  apply wp_rbind. eapply wp_mono.
  { apply (mbx_signal_ok m (SndSem m) frbs cur taken (in_order sz (c0 ++ sent')));
      [apply in_order_stable|intros s4 [? ?]; exists rest; split; eauto|by split]. }
  intros [] s4 [H4 Ho4]. apply IH; [unfold zlen in Hlt; lia|]. split; eauto.
Qed.

(** ** Receiving *)

Fixpoint receive_moves (fuel : nat) (wait : kst -> res kst ptr) (m : nat) (n : Z)
    (got : list byte) (s : kst) : res kst (Z * list byte) :=
  sched* s := unlocked s in
  if n =? 0 then Done (0, got) s
  else match fuel with
  | O => NoFuel s
  | S fuel =>
      let* (retp, s) := wait s in
      if negb (ptr_int addr retp =? 0) then Done (ptr_int addr retp, got) s
      else
        let* (r, s) := mbx_get m n s in
        sched* s := unlocked s in
        sched* s := mbx_signal m s in
        receive_moves fuel wait m r.2 (got ++ r.1) s
  end.

Lemma receive_loop_moves fuel wait m n got s :
  req (receive_loop addr fuel wait m n got s)
      (rbind (receive_moves fuel wait m n got s) (release (RcvSem m))).
Proof.
  revert n got s. induction fuel as [|fuel IH]; intros n got s; cbn [receive_loop receive_moves]; rewrite rbind_assoc;
    f_equiv; intros [] s0; destruct (n =? 0); try (simpl; reflexivity).
  rewrite rbind_assoc. f_equiv. intros retp s1. destruct (negb _); [reflexivity|].
  rewrite rbind_assoc. f_equiv. intros r s2. rewrite rbind_assoc. f_equiv. intros [] s3.
  rewrite rbind_assoc. f_equiv. intros [] s4. apply IH.
Qed.

(** What came out, and then what the mailbox holds, is what was there and what
    the others have added. *)
Definition came (sz : Z) (c got : list byte) (b : mbxbuf) : Prop :=
  size b = sz /\ exists ext, got ++ mbx_bytes b = c ++ ext.

Lemma came_stable sz c got : stable added (came sz c got).
Proof.
  intros b b' _ _ (Hs & _ & d' & Hd') [Hz [d Hd]]. split; [congruence|].
  exists (d ++ d'). by rewrite Hd', app_assoc, Hd, <- app_assoc.
Qed.

Definition receiving (m : nat) (cur : tid) (sz : Z) (c0 : list byte) (n0 : Z) (s : kst) (got : list byte) : Prop :=
  held m (RcvSem m) cur s /\ zlen got <= n0 /\ came sz c0 got (mbuf m s).

Section receives.
Context (m : nat) (cur : tid) (sz : Z) (c0 : list byte) (n0 : Z).
#[local] Abbreviation receives := (receiving m cur sz c0 n0).
#[local] Abbreviation G := (fun s => exists got, receives s got).
#[local] Abbreviation R := (side_rely m (RcvSem m) avbs cur added).

Lemma receiving_rely s s' got : receives s got -> R s s' -> receives s' got.
Proof.
  intros (H & Hn & Hc) (Hr & _). destruct (Hr H) as [H' Ha]. split; [done|]. split; [done|].
  eapply came_stable; [| |exact Ha|done]; by eapply h_buf.
Qed.

(** The receiver copies the oldest bytes, [old] and what the senders add behind them, from [f] on. *)
Definition copying (f : Z) (old got : list byte) (s : kst) : Prop :=
  receives s got /\ fbyte (mbuf m s) = f /\ exists d, mbx_bytes (mbuf m s) = old ++ d.

Lemma copying_rely f old got s s' : copying f old got s -> R s s' -> copying f old got s'.
Proof.
  intros (Hs & Hf & d & Hd) Hr. pose proof (receiving_rely _ _ _ Hs Hr) as Hs'. destruct Hs as [H _], Hr as [Hr _].
  destruct (Hr H) as [_ (_ & Ef & d' & Hd')]. split; [done|]. split; [congruence|]. exists (d ++ d').
  by rewrite Hd', Hd, app_assoc.
Qed.

(** The byte at [f + j] is the byte [j] of those that are there, up to the end of the storage. *)
Lemma byte_there b j : mbx_ok b -> 0 <= j < avbs b -> fbyte b + j < size b ->
  zget (bufadr b) (fbyte b + j) = zget (mbx_bytes b) j.
Proof.
  intros [] Hj Hf. unfold mbx_bytes. rewrite zget_cwin, ok_len by lia. f_equal. unfold MOD_SIZE. zcase; lia.
Qed.

Lemma copy_out_ok f old got n j s :
  0 <= j -> j + Z.of_nat n <= zlen old -> f + j + Z.of_nat n <= sz -> copying f old got s ->
  wp G R (copy_out n m (f + j) (ztake j old) s) (fun out s' => copying f old got s' /\ out = ztake (j + Z.of_nat n) old).
Proof.
  revert j s. induction n as [|n IH]; intros j s Hj Ho Hf Hs; cbn [copy_out].
  { cbn. by rewrite Z.add_0_r. }
  split; [by exists got; apply Hs|]. intros s1 Hr. cbn [rbind]. apply (copying_rely _ _ _ _ _ Hs) in Hr. clear s Hs.
  pose proof Hr as ((H & Hg & Hz & _) & Hfb & d & Hd). pose proof (h_buf _ _ _ _ H) as Hok.
  pose proof (zlen_mbx_bytes _ Hok) as Hl. rewrite Hd, zlen_app in Hl. pose proof (zlen_nonneg d).
  rewrite <- Hfb, byte_there, Hd, zget_app by (done || lia). zcase; [|lia].
  assert (ztake j old ++ [zget old j] = ztake (j + 1) old) as ->.
  { apply zlist_eq; [rewrite zlen_app, !zlen_ztake; change (zlen [zget old j]) with 1; lia|].
    intros i Hi. rewrite zlen_app, zlen_ztake in Hi. change (zlen [zget old j]) with 1 in Hi.
    rewrite zget_app, zlen_ztake, (zget_ztake old (j + 1)) by lia. zcase; [by rewrite zget_ztake by lia|].
    by replace i with j by lia; replace (j - _) with 0 by lia. }
  rewrite Hfb, <- Z.add_assoc. replace (j + Z.of_nat (Datatypes.S n)) with (j + 1 + Z.of_nat n) by lia.
  apply IH; [lia..|done].
Qed.

Lemma get_turn_ok n got s : receives s got -> 0 < avbs (mbuf m s) -> 0 < n -> zlen got + n <= n0 ->
  wp G R (get_turn m n s) (fun r s' => zlen r.1 = r.2 /\ 0 < r.2 <= n /\ receives s' (got ++ r.1)).
Proof.
  intros Hs Ha Hn H0. split; [by exists got|]. intros s1 Hr. cbn [rbind].
  assert (0 < avbs (mbuf m s1)) as Ha1.
  { destruct Hs as [H _], Hr as [Hr _]. destruct (Hr H) as [H' Had].
    pose proof (added_counter _ _ (h_buf _ _ _ _ H) (h_buf _ _ _ _ H') Had). lia. }
  apply (receiving_rely _ _ _ Hs) in Hr. clear s Hs Ha. cbv zeta. set (k := clamp _ _ _).
  pose proof (h_buf _ _ _ _ (proj1 Hr)) as Hok. pose proof Hok as [Hlen Hsz Hfb Hav Hfr Hsum Hl].
  assert (0 < k <= n /\ k <= avbs (mbuf m s1) /\ fbyte (mbuf m s1) + k <= size (mbuf m s1)) as (K1 & K2 & K3)
    by (unfold k; rewrite clamp_spec; lia).
  assert (size (mbuf m s1) = sz) as Hz by (destruct Hr as (_ & _ & ? & _); done).
  set (old := ztake k (mbx_bytes (mbuf m s1))).
  assert (zlen old = k) as Hold by (unfold old; rewrite zlen_ztake, zlen_mbx_bytes by done; lia).
  apply wp_rbind. eapply wp_mono.
  { rewrite <- (Z.add_0_r (fbyte _)). change (@nil byte) with (ztake 0 old).
    apply (copy_out_ok (fbyte (mbuf m s1)) old got (Z.to_nat k) 0 s1); [lia..|].
    split; [done|]. split; [done|]. exists (zdrop k (mbx_bytes (mbuf m s1))). symmetry. apply ztake_zdrop. }
  intros out s2 [Hs2 ->]. split; [exists got; apply Hs2|]. intros s3 Hr3. cbn [rbind wp fst snd].
  apply (copying_rely _ _ _ _ _ Hs2) in Hr3. destruct Hr3 as ((H3 & Hg3 & Hz3 & d3 & Hd3) & Hf3 & d & Hd).
  rewrite (ztake_all _ old) by lia. pose proof (h_buf _ _ _ _ H3) as Hok3. pose proof (zlen_nonneg d).
  assert (k <= avbs (mbuf m s3)) by (rewrite <- zlen_mbx_bytes, Hd, zlen_app by done; lia).
  destruct (moved_out_ok (mbuf m s3) k) as [M1 M2]; [done|lia..|]. split; [done|]. split; [lia|].
  split; [by apply held_upd|]. split; [rewrite zlen_app; lia|]. rewrite upd_buf_same. split; [done|].
  exists d3. by rewrite M2, Hd, <- Hold, zdrop_app_len, <- app_assoc, <- Hd.
Qed.

(** [mbxget] gives what it has and the number still wanted; it moves a byte at least when there was one. *)
Lemma get_loop_ok fuel n out got s : 0 <= n -> (Z.to_nat n <= fuel)%nat -> zlen got + n <= n0 -> receives s got ->
  wp G R (get_loop fuel m n out s) (fun r s' => exists new, r.1 = out ++ new /\ receives s' (got ++ new) /\
    zlen new + r.2 = n /\ 0 <= r.2 /\ (0 < avbs (mbuf m s) -> 0 < n -> r.2 < n)).
Proof.
  revert n out got s. induction fuel as [|fuel IH]; intros n out got s Hn Hfuel H0 Hs; cbn [get_loop]; zcase.
  1, 3: split; [by exists got|]; intros s1 Hr; cbn [rbind];
    assert (avbs (mbuf m s) <= avbs (mbuf m s1)) as Hf
      by (destruct Hs as [Hh _], Hr as [Hr _]; destruct (Hr Hh) as [Hh' Had];
          exact (added_counter _ _ (h_buf _ _ _ _ Hh) (h_buf _ _ _ _ Hh') Had));
    apply (receiving_rely _ _ _ Hs) in Hr.
  3, 4: cbn [wp]; exists []; rewrite !app_nil_r; split_and!; try done; cbn; lia.
  { lia. }
  pose proof (ok_avbs _ (h_buf _ _ _ _ (proj1 Hr))). destruct (Z.eqb_spec (avbs (mbuf m s1)) 0) as [E0|E0].
  { cbn [wp]. exists []. rewrite !app_nil_r. split_and!; try done; cbn; lia. }
  apply wp_rbind. eapply wp_mono; [by apply (get_turn_ok n got); [|lia..]|]. intros [new k] s2 (Hk & Hle & Hs2).
  cbn [fst snd] in *. eapply wp_mono.
  { apply (IH (n - k) (out ++ new) (got ++ new)); [lia..|rewrite zlen_app; lia|done]. }
  intros [out' rest] s3 (new' & Eo & Hs3 & Hlen & Hrest & _). cbn [fst snd] in *. exists (new ++ new').
  pose proof (zlen_nonneg new'). rewrite !app_assoc. split_and!; try done; rewrite ?zlen_app; lia.
Qed.
End receives.

Lemma receive_moves_ok fuel wait m cur sz c0 n0 n got s :
  blocking_wait m avbs cur wait -> i32 (addr (PMbx m)) <> 0 -> 0 <= n -> (Z.to_nat n <= fuel)%nat ->
  n0 = zlen got + n -> receiving m cur sz c0 n0 s got ->
  wp (fun s => exists got, receiving m cur sz c0 n0 s got) (side_rely m (RcvSem m) avbs cur added)
    (receive_moves fuel wait m n got s)
    (fun r s' => receiving m cur sz c0 n0 s' r.2 /\ (r.1 = 0 <-> zlen r.2 = n0)).
Proof.
  intros Hwait Ha. revert n got s. induction fuel as [|fuel IH]; intros n got s Hpos Hfuel Hn Hs; cbn [receive_moves];
    (split; [by exists got|]); intros s0 Hr0; cbn [rbind]; apply (receiving_rely _ _ _ _ _ _ _ _ Hs) in Hr0; clear s Hs;
    destruct (n =? 0) eqn:Ez; zbool.
  1, 3: split; [done|]; cbn [fst snd]; lia.
  { lia. }
  destruct Hr0 as (H & Hle & Ho).
  assert (forall got' s, zlen got' <= n0 -> holds m (RcvSem m) cur (came sz c0 got') s ->
    receiving m cur sz c0 n0 s got') as HG by (intros got' s1 ? [? ?]; done).
  apply wp_rbind. eapply wp_mono.
  { apply (blocking_wait_ok m (RcvSem m) avbs cur added (came sz c0 got)); [apply added_counter|apply came_stable|
      intros s1 Hx; exists got; by apply HG|by intros ? []|done|by split]. }
  intros p s1 (H1 & Hp & Hw). destruct (ptr_int addr p =? 0) eqn:Ep; zbool; cbn [negb].
  2:{ cbn [wp fst snd]. split; [by apply HG|]. lia. }
  specialize (Hw (ptr_int_code m p Ha Hp Ep)).
  apply wp_rbind. eapply wp_mono; [apply (get_loop_ok m cur sz c0 n0 (Z.to_nat n) n [] got); [lia..|by apply HG]|].
  intros [out rest] s2 (new & E & H2 & Hlen & Hrest & Hlt). cbn [fst snd] in *. rewrite app_nil_l in E. subst out.
  specialize (Hlt Hw ltac:(lia)). split; [by eexists|]. intros s3 Hr3. cbn [rbind].
  apply (receiving_rely _ _ _ _ _ _ _ _ H2) in Hr3. destruct Hr3 as (H3 & Hle3 & Hc3).
  apply wp_rbind. eapply wp_mono.
  { apply (mbx_signal_ok m (RcvSem m) avbs cur added (came sz c0 (got ++ new)));
      [apply came_stable|intros s4 Hx; exists (got ++ new); by apply HG|by split]. }
  intros [] s4 H4. apply IH; [lia..|rewrite zlen_app; lia|]. by apply HG.
Qed.
End loops.

(** * Properties *)

(** C6  A blocking send ([_rt_mbx_send], [_rt_mbx_send_until], once it holds the
    semaphore of the senders, of any type) of a message of any length ends: the loop is
    moves followed by the release of the semaphore; at every stop, so between any two accesses of the copy, and at the end
    the mailbox is well formed and holds the newest bytes of what it held followed by the
    part of the message that is sent, nothing lost, doubled or reordered; and
    the result is 0 exactly when the whole message is sent.  The receivers may
    take what they want between any two accesses ([taken]).  The address of the mailbox, cut to an
    [int], must not be 0: else a task that somebody makes ready takes the cut address for the code of success. *)
Theorem send_loop_in_order addr fuel wait m cur sz c0 msg s :
  blocking_wait m frbs cur wait -> i32 (addr (PMbx m)) <> 0 -> (length msg <= fuel)%nat ->
  held m (SndSem m) cur s -> size (mbuf m s) = sz -> mbx_bytes (mbuf m s) = c0 ->
  req (send_loop addr fuel wait m msg s) (rbind (send_moves addr fuel wait m msg s) (release (SndSem m))) /\
  wp (fun s => exists rest, sending m cur sz c0 msg s rest) (side_rely m (SndSem m) frbs cur taken)
    (send_moves addr fuel wait m msg s)
    (fun r s' => exists rest, sending m cur sz c0 msg s' rest /\ (r = 0 <-> rest = [])).
Proof.
  intros Hw Ha Hf H Hs Hc. split; [apply send_loop_moves|]. apply send_moves_ok; try done.
  split; [done|]. exists []. split; [done|]. split; [done|]. exists []. by rewrite Hc, app_nil_r.
Qed.

(** C7  The dual of the blocking receives: what came out, followed by what the
    mailbox holds, is at every stop and at the end what the mailbox held
    followed by what the senders have added; never more than asked for is
    taken, and the result is 0 exactly when all of it came.  The senders may add bytes between any two accesses of
    the copy ([added]); the condition on the address is that of the sends. *)
Theorem receive_loop_in_order addr fuel wait m cur sz c0 n s :
  blocking_wait m avbs cur wait -> i32 (addr (PMbx m)) <> 0 -> 0 <= n -> (Z.to_nat n <= fuel)%nat ->
  held m (RcvSem m) cur s -> size (mbuf m s) = sz -> mbx_bytes (mbuf m s) = c0 ->
  req (receive_loop addr fuel wait m n [] s) (rbind (receive_moves addr fuel wait m n [] s) (release (RcvSem m))) /\
  wp (fun s => exists got, receiving m cur sz c0 n s got) (side_rely m (RcvSem m) avbs cur added)
    (receive_moves addr fuel wait m n [] s)
    (fun r s' => receiving m cur sz c0 n s' r.2 /\ (r.1 = 0 <-> zlen r.2 = n)).
Proof.
  intros Hw Ha Hn Hf H Hs Hc. split; [apply receive_loop_moves|]. apply receive_moves_ok; try done.
  split; [done|]. split; [done|]. split; [done|]. exists []. by rewrite Hc, app_nil_r.
Qed.

(** ** Instances: a mailbox of four bytes, whose side task 1 holds *)

Definition ex_mbx (side : semid) : kst :=
  set_smp_current (fun _ => Tsk 1)
    (set_mbxs (<[0%nat := MkMbx RT_MBX_MAGIC None None mbx_example]> (fun _ => MkMbx 0 None None mbx_example))
      (set_sems (<[side := MkSem RT_SEM_MAGIC (-1) 0 0 NULL 0]> (fun _ => free_sem)) idle_kst)).
Definition ex_addr (p : ptr) : Z := match p with PInt z => z | _ => 0x12345678 end.

Lemma ex_mbx_held side : side <> SemNULL -> held 0 side (Tsk 1) (ex_mbx side).
Proof.
  intros Hn. assert (waiters (ex_mbx side) side = []) as Eq by done.
  assert (sems (ex_mbx side) side = MkSem RT_SEM_MAGIC (-1) 0 0 NULL 0) as Es by apply fn_lookup_insert.
  split; rewrite ?Eq; try set_solver.
  - apply mbx_example_ok.
  - split; [|split; rewrite ?Eq, ?Es; cbn; try set_solver; try lia; constructor].
    unfold bad_sem. rewrite Es, bool_decide_eq_false_2 by done. done.
Qed.

(** The receivers take all that is there when the sender waits. *)
Definition ex_taker (_ : nat) (s : kst) : kst :=
  if is_null (blocked_on (tasks s (Tsk 1))) then s
  else tset set_blocked_on (Tsk 1) NULL
         (mset set_waiting_task 0 None (upd_buf 0 (fun b => (mbxget b (avbs b)).1.1) s)).
(** A receiver takes a byte whenever it can. *)
Definition ex_nibbler (n : nat) (s : kst) : kst :=
  ex_taker n (upd_buf 0 (fun b => (mbxget b (Z.min 1 (avbs b))).1.1) s).

Lemma send_loop_in_order_witness :
  match run 60 ex_taker (send_moves ex_addr 6 (mbx_wait 0 frbs (Tsk 1)) 0
          (bytes_of [1; 2; 3; 4; 5; 6]) (ex_mbx (SndSem 0))) with
  | Some (r, s') => r = 0 /\ mbx_bytes (mbuf 0 s') = bytes_of [5; 6]
  | None => False
  end /\
  match run 60 ex_nibbler (send_moves ex_addr 6 (mbx_wait 0 frbs (Tsk 1)) 0
          (bytes_of [1; 2; 3; 4; 5; 6]) (ex_mbx (SndSem 0))) with
  | Some (r, s') => r = 0 /\ mbx_bytes (mbuf 0 s') = []
  | None => False
  end /\
  wp (fun s => exists rest, sending 0 (Tsk 1) 4 [] (bytes_of [1; 2; 3; 4; 5; 6]) s rest)
    (side_rely 0 (SndSem 0) frbs (Tsk 1) taken)
    (send_moves ex_addr 6 (mbx_wait 0 frbs (Tsk 1)) 0 (bytes_of [1; 2; 3; 4; 5; 6]) (ex_mbx (SndSem 0)))
    (fun r s' => exists rest, sending 0 (Tsk 1) 4 [] (bytes_of [1; 2; 3; 4; 5; 6]) s' rest /\ (r = 0 <-> rest = [])).
Proof.
  split; [vm_compute; split; reflexivity|]. split; [vm_compute; split; reflexivity|].
  apply (send_loop_in_order ex_addr 6 (mbx_wait 0 frbs (Tsk 1)) 0 (Tsk 1) 4 []).
  - constructor.
  - vm_compute. discriminate.
  - vm_compute. lia.
  - apply ex_mbx_held. discriminate.
  - reflexivity.
  - vm_compute. reflexivity.
Defined.

Lemma receive_loop_in_order_witness :
  wp (fun s => exists got, receiving 0 (Tsk 1) 4 [] 3 s got)
    (side_rely 0 (RcvSem 0) avbs (Tsk 1) added)
    (receive_moves ex_addr 3 (mbx_wait_until 0 avbs 500 (Tsk 1)) 0 3 [] (ex_mbx (RcvSem 0)))
    (fun r s' => receiving 0 (Tsk 1) 4 [] 3 s' r.2 /\ (r.1 = 0 <-> zlen r.2 = 3)).
Proof.
  apply (receive_loop_in_order ex_addr 3 (mbx_wait_until 0 avbs 500 (Tsk 1)) 0 (Tsk 1) 4 []).
  - constructor.
  - vm_compute. discriminate.
  - lia.
  - lia.
  - apply ex_mbx_held. discriminate.
  - reflexivity.
  - vm_compute. reflexivity.
Defined.

(** A mailbox at an address with a low half of 0: a sender that somebody makes ready while it
    waits for room takes the cut address for success and waits again. *)
Example cut_address : ptr_int (fun _ => 0x100000000) (PMbx 0) = 0 /\ ptr_int ex_addr (PMbx 0) = 0x12345678.
Proof. by vm_compute. Qed.

(** An overwriting send drops bytes without the semaphore of the receivers: when a receiver takes the bytes
    between the reading of the counters and the change, they are gone twice: the send returns 0 and its bytes are nowhere. *)
Definition ex_full : kst :=
  upd_buf 0 (fun b => (mbxput b (bytes_of [1; 2; 3; 4]) 4).1) (sset set_count (SndSem 0) 1 (ex_mbx (SndSem 0))).
Definition ex_late_taker (k n : nat) (s : kst) : kst :=
  if (n =? k)%nat then upd_buf 0 (fun b => (mbxget b (avbs b)).1.1) s else s.
Example overwriting_races :
  match run 30 (ex_late_taker 27) (_rt_mbx_ovrwr_send 0 (bytes_of [5; 6]) ex_full) with
  | Some (r, s') => r = 0 /\ avbs (mbuf 0 s') = 0 /\ mbx_bytes (mbuf 0 s') = []
  | None => False
  end.
Proof. vm_compute. repeat split. Qed.
