(* ===== verification/Poll.v ===== *)
(** * Waiting for several objects: the polling service of sem.c.

    The service is built with CONFIG_RTAI_RT_POLL.  A task that polls links an
    element for each object in a queue of the object, and waits on a semaphore
    of its own, which lies on its stack like the elements.  Whoever changes an
    object takes the elements out of the object's queue, leaves a reason in each
    and signals the semaphore.  A section with interrupts off is one step;
    between two sections other tasks run. *)

From S2P Require Import Prelude Resume Ring MbxRing Kernel Sched Tasks Sem Mbx.
From stdpp Require Import list.
#[local] Open Scope Z_scope.

(** ** Objects and their queues *)

(** The functions that tell whether an operation would block. *)
Inductive topoll := recv_blocks | send_blocks | poll_wait.
(** The queues of pollers in an MBX and in a SEM. *)
Inductive pollql := PollRecv (mbx : nat) | PollSend (mbx : nat)
  | PollWaitAll (sem : semid) | PollWaitOne (sem : semid).
#[export] Instance pollql_eq_dec : EqDecision pollql.
Proof. solve_decision. Defined.

(** What the [task] field of an element holds: the semaphore of its poller, or
    what a waker has put there. *)
Inductive elemval := AtSem | Val (p : ptr).
#[export] Instance elemval_eq_dec : EqDecision elemval.
Proof. solve_decision. Defined.

Record rt_poll_s := MkPollS { what : ptr; forwhat : Z }.
Definition RT_POLL_MBX_RECV := 1.
Definition RT_POLL_MBX_SEND := 2.
Definition RT_POLL_SEM_WAIT_ALL := 3.
Definition RT_POLL_SEM_WAIT_ONE := 4.

(** The elements of a task are numbered as its array [pollq] is; its semaphore
    has the wait queue [QPoll] and the flag [pwait]. *)
Record pst := MkPst {
  pk : kst;
  pollqs : pollql -> list (tid * nat);
  elemtask : tid -> nat -> elemval;
  pwait : tid -> Z;
  rt_poll_ofstfun : Z -> option topoll
}.
Definition set_pk (k : kst) (s : pst) : pst := MkPst k (pollqs s) (elemtask s) (pwait s) (rt_poll_ofstfun s).
Definition set_pollq (q : pollql) (l : list (tid * nat)) (s : pst) : pst :=
  MkPst (pk s) (<[q := l]> (pollqs s)) (elemtask s) (pwait s) (rt_poll_ofstfun s).
Definition set_elem (t : tid) (i : nat) (v : elemval) (s : pst) : pst :=
  MkPst (pk s) (pollqs s) (<[t := <[i := v]> (elemtask s t)]> (elemtask s)) (pwait s) (rt_poll_ofstfun s).
Definition set_pwait (t : tid) (w : Z) (s : pst) : pst :=
  MkPst (pk s) (pollqs s) (elemtask s) (<[t := w]> (pwait s)) (rt_poll_ofstfun s).
Definition set_ofstfun (f : Z -> option topoll) (s : pst) : pst :=
  MkPst (pk s) (pollqs s) (elemtask s) (pwait s) f.

(** A call of the kernel, and a point where interrupts are on. *)
Definition on_pk {A} (f : kst -> res kst A) (s : pst) : res pst A := within pk set_pk (f (pk s)) s.
Definition upd_pk (f : kst -> kst) (s : pst) : pst := set_pk (f (pk s)) s.
Definition unlocked (s : pst) : res pst unit := stop Unlocked s.

(** The call of [topoll]; it reads the object as what it takes it for. *)
Definition blocks (f : topoll) (obj : ptr) (s : kst) : option bool :=
  match f, obj with
  | recv_blocks, PMbx m => Some (avbs (mbuf m s) <=? 0)
  | send_blocks, PMbx m => Some (frbs (mbuf m s) <=? 0)
  | poll_wait, PQueue (QSem m) => Some (count (sems s m) <=? 0)
  | _, _ => None
  end.

(** [QL(i)]: the object at the offset of the table. *)
Definition QL (pd : rt_poll_s) : option pollql :=
  match what pd with
  | PMbx m => if forwhat pd =? RT_POLL_MBX_RECV then Some (PollRecv m)
              else if forwhat pd =? RT_POLL_MBX_SEND then Some (PollSend m) else None
  | PQueue (QSem m) =>
      if forwhat pd =? RT_POLL_SEM_WAIT_ALL then Some (PollWaitAll m)
      else if forwhat pd =? RT_POLL_SEM_WAIT_ONE then Some (PollWaitOne m) else None
  | _ => None
  end.

(** The modules enter and remove their functions. *)
Definition mbx_topoll (f g : option topoll) (s : pst) : pst :=
  set_ofstfun (<[RT_POLL_MBX_SEND := g]> (<[RT_POLL_MBX_RECV := f]> (rt_poll_ofstfun s))) s.
Definition __rtai_mbx_init : pst -> pst := mbx_topoll (Some recv_blocks) (Some send_blocks).
Definition __rtai_mbx_exit : pst -> pst := mbx_topoll None None.
Definition sem_topoll (f : option topoll) (s : pst) : pst :=
  set_ofstfun (<[RT_POLL_SEM_WAIT_ONE := f]> (<[RT_POLL_SEM_WAIT_ALL := f]> (rt_poll_ofstfun s))) s.
Definition __rtai_sem_init : pst -> pst := sem_topoll (Some poll_wait).
Definition __rtai_sem_exit : pst -> pst := sem_topoll None.

(** ** Waking the pollers of an object *)

Definition rt_schedule_tosched (tosched_mask : Z) (s : kst) : res kst unit :=
  let cpumask := cpu_bit (cpuid s) in
  let rmask := Z.land tosched_mask (Z.lnot cpumask) in
  let s := if negb (rmask =? 0) then send_sched_ipi rmask s else s in
  if negb (Z.lor tosched_mask cpumask =? 0) then rt_schedule s else Done tt s.

Definition POLL_MASK : Z := Z.lor RT_SCHED_POLL RT_SCHED_DELAYED.

Definition rt_poll_signal (t : tid) (s : pst) : Z * pst :=
  let s := set_pwait t 0 s in
  match first_task (QPoll t) (pk s) with
  | Some x =>
      let k := rem_timed_task x (dequeue_blocked x (pk s)) in
      let '(woken, k) := unblock POLL_MASK x k in
      (if woken then cpu_bit (runnable_on_cpus (tasks k x)) else 0, set_pk k s)
  | None => (0, s)
  end.

(** The first element of the queue: it gets the reason and leaves, its poller is signalled. *)
Definition wake_poller (q : pollql) (reason : Z) (s : pst) : option (Z * pst) :=
  match pollqs s q with
  | (t, i) :: l =>
      match elemtask s t i with
      | AtSem => Some (rt_poll_signal t (set_pollq q l (set_elem t i (Val (PInt (u64 reason))) s)))
      | Val _ => None
      end
  | [] => None
  end.

Fixpoint wakeup_loop (fuel : nat) (q : pollql) (reason mask : Z) (s : pst) : res pst Z :=
  match pollqs s q with
  | [] => Done mask s
  | _ :: _ =>
      match fuel with
      | O => NoFuel s
      | S fuel =>
          match wake_poller q reason s with
          | None => Fault s
          | Some (m, s) =>
              sched* s := unlocked s in wakeup_loop fuel q reason (Z.lor mask m) s
          end
      end
  end.

Definition rt_wakeup_pollers (fuel : nat) (q : pollql) (reason : Z) (s : pst) : res pst unit :=
  match pollqs s q with
  | [] => Done tt s
  | _ :: _ => let* (mask, s) := wakeup_loop fuel q reason 0 s in on_pk (rt_schedule_tosched mask) s
  end.

(** ** Waiting *)

Definition rt_poll_wait (cur : tid) (s : pst) : res pst Z :=
  sched* s := unlocked s in
  if negb (pwait s cur =? 0) then
    on_pk (fun k =>
      let k := tset set_state cur (Z.lor (state (tasks k cur)) RT_SCHED_POLL) k in
      let k := enqueue_blocked cur (QPoll cur) 1 (rem_ready_current cur k) in
      sched* k := rt_schedule k in
      if negb (is_null (blocked_on (tasks k cur))) then Done RTE_UNBLKD (dequeue_blocked cur k)
      else Done 0 k) s
  else Done 0 s.

(** When the time has passed already the task is not queued, and
    [dequeue_blocked] follows the links its last wait left, wherever they lead. *)
Definition rt_poll_wait_until (time : Z) (cur : tid) (cpu : nat) (s : pst) : res pst Z :=
  sched* s := unlocked s in
  if negb (pwait s cur =? 0) then
    on_pk (fun k =>
      let k := tset set_blocked_on cur (PQueue (QPoll cur)) k in
      let k := tset set_resume_time cur time k in
      if smp_time_h k cpu <? time then
        let k := tset set_state cur (Z.lor (state (tasks k cur)) POLL_MASK) k in
        let k := enqueue_blocked cur (QPoll cur) 1 (rem_ready_current cur k) in
        sched* k := rt_schedule (enq_timed_task cur k) in
        let p := blocked_on (tasks k cur) in
        if negb (is_null p) then
          Done (if above_higerr p then RTE_TIMOUT else RTE_UNBLKD) (dequeue_blocked cur k)
        else Done 0 k
      else Fault k) s
  else Done 0 s.

(** ** The service *)

(** In the order of priority of the pollers: after those whose priority is no
    lower.  An element that does not lead to a semaphore is followed all the same. *)
Fixpoint poll_insert (prio : tid -> Z) (val : tid -> nat -> elemval) (e : tid * nat)
    (l : list (tid * nat)) : option (list (tid * nat)) :=
  match l with
  | [] => Some [e]
  | (t, i) :: l' =>
      match val t i with
      | AtSem => if prio t <=? prio e.1 then cons (t, i) <$> poll_insert prio val e l' else Some (e :: l)
      | Val _ => None
      end
  end.

Definition link_elem (cur : tid) (i : nat) (q : pollql) (s : pst) : option pst :=
  let s := set_elem cur i AtSem s in
  match poll_insert (fun t => priority (tasks (pk s) t)) (elemtask s) (cur, i) (pollqs s q) with
  | Some l => Some (set_pollq q l s)
  | None => None
  end.
Definition unlink_elem (cur : tid) (i : nat) (q : pollql) (s : pst) : pst :=
  match elemtask s cur i with
  | AtSem => set_pollq q (filter (fun e => e <> (cur, i)) (pollqs s q)) s
  | Val _ => s
  end.

(** The first loop: an object that is ready is counted, the others are linked. *)
Fixpoint link_loop (cur : tid) (i : nat) (pds : list rt_poll_s) (polled : Z) (s : pst) :
    res pst (Z * list rt_poll_s) :=
  match pds with
  | [] => Done (polled, []) s
  | pd :: pds =>
      sched* s := unlocked s in
      match rt_poll_ofstfun s (forwhat pd) with
      | None => Fault s
      | Some f =>
          match blocks f (what pd) (pk s) with
          | None => Fault s
          | Some true =>
              sched* s := unlocked s in
              match QL pd with
              | None => Fault s
              | Some q =>
                  match link_elem cur i q s with
                  | None => Fault s
                  | Some s =>
                      let* (r, s) := link_loop cur (S i) pds polled s in Done (r.1, pd :: r.2) s
                  end
              end
          | Some false =>
              let* (r, s) := link_loop cur (S i) pds (polled + 1) (set_elem cur i (Val NULL) s) in
              Done (r.1, MkPollS (what pd) 0 :: r.2) s
          end
      end
  end.

(** The last loop: what is still linked is unlinked, what is not is counted. *)
Fixpoint collect_loop (cur : tid) (i : nat) (pds : list rt_poll_s) (polled : Z) (s : pst) :
    res pst (Z * list rt_poll_s) :=
  match pds with
  | [] => Done (polled, []) s
  | pd :: pds =>
      sched* s := (if negb (forwhat pd =? 0) then
                     sched* s := unlocked s in
                     match QL pd with
                     | None => Fault s
                     | Some q => Done tt (unlink_elem cur i q s)
                     end
                   else Done tt s) in
      match elemtask s cur i with
      | AtSem => let* (r, s) := collect_loop cur (S i) pds polled s in Done (r.1, pd :: r.2) s
      | Val p => let* (r, s) := collect_loop cur (S i) pds (polled + 1) s in
                 Done (r.1, MkPollS p (forwhat pd) :: r.2) s
      end
  end.

(** The result and the array as it is left; [mem] tells which of the two blocks
    of memory the heap has given. *)
Definition _rt_poll (mem : bool * bool) (pds : list rt_poll_s) (timeout : Z) (s : pst) :
    res pst (Z * list rt_poll_s) :=
  let cpu := cpuid (pk s) in
  let cur := rt_current (pk s) in
  let s := set_pwait cur 1 (upd_pk (qset (QPoll cur) []) s) in
  let nr := zlen pds in
  if negb mem.1 && (0 <? nr) then Done (ENOMEM, pds) s
  else if negb mem.2 && (0 <? nr) then Done (ENOMEM, pds) s
  else
    let* (r, s) := link_loop cur 0 pds 0 s in
    let* (semret, s) :=
      (if r.1 =? 0 then
         if timeout <? 0 then rt_poll_wait_until (rt_get_time (pk s) - timeout) cur cpu s
         else if 1 <? timeout then rt_poll_wait_until timeout cur cpu s
         else if (timeout <? 1) && (0 <? nr) then rt_poll_wait cur s
         else Done 0 s
       else Done 0 s) in
    let* (r, s) := collect_loop cur 0 r.2 0 s in
    Done (if negb (r.1 =? 0) then r.1 else semret, r.2) s.

(** ** The services that wake pollers

    Those of mailboxes and semaphores, as they are when polling is built in; [fuel] is for
    their own loops, [wfuel] for the loop over the pollers. *)

Definition polled_mbx_init (m : nat) (sz type : Z) (mem : option (list byte)) (s : pst) : Z * pst :=
  let '(r, k) := rt_typed_mbx_init m sz type mem (pk s) in
  (r, match mem with
      | Some _ => set_pollq (PollSend m) [] (set_pollq (PollRecv m) [] (set_pk k s))
      | None => set_pk k s
      end).
Definition polled_sem_init (m : semid) (value type : Z) (s : pst) : pst :=
  set_pollq (PollWaitOne m) [] (set_pollq (PollWaitAll m) [] (upd_pk (rt_typed_sem_init m value type) s)).

Section polled.
Context (wfuel : nat) (addr : ptr -> Z).

Definition polled_mbx_delete (fuel : nat) (m : nat) (s : pst) : res pst Z :=
  if bad_mbx m (pk s) then Done RTE_OBJINV s
  else
    let s := upd_pk (mset set_mbxmagic m 0) s in
    sched* s := rt_wakeup_pollers wfuel (PollRecv m) RTE_OBJREM s in
    sched* s := rt_wakeup_pollers wfuel (PollSend m) RTE_OBJREM s in
    let* (r1, s) := on_pk (rt_sem_delete (SndSem m)) s in
    if negb (r1 =? 0) then Done (- EFAULT) s
    else
      let* (r2, s) := on_pk (rt_sem_delete (RcvSem m)) s in
      if negb (r2 =? 0) then Done (- EFAULT) s
      else sched* s := on_pk (mbx_delete_loop fuel m) s in Done 0 s.

(** [_rt_mbx_send] and [_rt_mbx_send_until]: whatever the end of the loop, the
    receivers' pollers have the result. *)
Definition polled_send (sem_wait : kst -> res kst Z) (wait : tid -> kst -> res kst ptr)
    (fuel : nat) (m : nat) (msg : list byte) (s : pst) : res pst Z :=
  if bad_mbx m (pk s) then Done RTE_OBJINV s
  else
    let cur := rt_current (pk s) in
    let* (retval, s) := on_pk sem_wait s in
    if 1 <? retval then Done retval s
    else
      let* (r, s) := on_pk (send_loop addr fuel (wait cur) m msg) s in
      sched* s := rt_wakeup_pollers wfuel (PollRecv m) r s in Done r s.
Definition polled_mbx_send (fuel : nat) (m : nat) (msg : list byte) : pst -> res pst Z :=
  polled_send (rt_sem_wait (SndSem m)) (mbx_wait m frbs) fuel m msg.
Definition polled_mbx_send_until (fuel : nat) (m : nat) (msg : list byte) (time : Z) : pst -> res pst Z :=
  polled_send (rt_sem_wait_until (SndSem m) time) (mbx_wait_until m frbs time) fuel m msg.
Definition polled_mbx_send_timed (fuel : nat) (m : nat) (msg : list byte) (delay : Z) (s : pst) : res pst Z :=
  polled_mbx_send_until fuel m msg (rt_get_time (pk s) + delay) s.

Definition polled_mbx_send_wp (m : nat) (msg : list byte) (s : pst) : res pst Z :=
  let* (left, s) := on_pk (_rt_mbx_send_wp m msg) s in
  if left <? zlen msg then sched* s := rt_wakeup_pollers wfuel (PollRecv m) 0 s in Done left s
  else Done left s.
Definition polled_mbx_send_if (m : nat) (msg : list byte) (s : pst) : res pst Z :=
  let fits := negb (bad_mbx m (pk s)) && (0 <? count (sems (pk s) (SndSem m)))
              && (zlen msg <=? frbs (mbuf m (pk s))) in
  let* (r, s) := on_pk (_rt_mbx_send_if m msg) s in
  if fits then sched* s := rt_wakeup_pollers wfuel (PollRecv m) 0 s in Done r s else Done r s.

(** [_rt_mbx_receive] and [_rt_mbx_receive_until] wake the senders' pollers at
    the end, but the receivers' pollers when they fail. *)
Definition polled_receive (sem_wait : kst -> res kst Z) (wait : tid -> kst -> res kst ptr) (on_error : Z -> Z)
    (fuel : nat) (m : nat) (n : Z) (s : pst) : res pst (Z * list byte) :=
  if bad_mbx m (pk s) then Done (RTE_OBJINV, []) s
  else
    let cur := rt_current (pk s) in
    let* (retval, s) := on_pk sem_wait s in
    if 1 <? retval then Done (on_error retval, []) s
    else
      let* (r, s) := on_pk (receive_loop addr fuel (wait cur) m n []) s in
      sched* s := (if r.1 =? 0 then rt_wakeup_pollers wfuel (PollSend m) 0 s
                   else rt_wakeup_pollers wfuel (PollRecv m) r.1 s) in
      Done r s.
Definition polled_mbx_receive (fuel : nat) (m : nat) (n : Z) : pst -> res pst (Z * list byte) :=
  polled_receive (rt_sem_wait (RcvSem m)) (mbx_wait m avbs) (fun _ => n) fuel m n.
Definition polled_mbx_receive_until (fuel : nat) (m : nat) (n time : Z) : pst -> res pst (Z * list byte) :=
  polled_receive (rt_sem_wait_until (RcvSem m) time) (mbx_wait_until m avbs time) (fun r => r) fuel m n.
Definition polled_mbx_receive_timed (fuel : nat) (m : nat) (n delay : Z) (s : pst) : res pst (Z * list byte) :=
  polled_mbx_receive_until fuel m n (rt_get_time (pk s) + delay) s.

Definition polled_mbx_receive_wp (m : nat) (n : Z) (s : pst) : res pst (Z * list byte) :=
  let* (r, s) := on_pk (_rt_mbx_receive_wp m n) s in
  if r.1 <? n then sched* s := rt_wakeup_pollers wfuel (PollSend m) 0 s in Done r s else Done r s.
Definition polled_mbx_receive_if (m : nat) (n : Z) (s : pst) : res pst (Z * list byte) :=
  let there := negb (bad_mbx m (pk s)) && (0 <? count (sems (pk s) (RcvSem m)))
               && (n <=? avbs (mbuf m (pk s))) in
  let* (r, s) := on_pk (_rt_mbx_receive_if m n) s in
  if there then sched* s := rt_wakeup_pollers wfuel (PollSend m) 0 s in Done r s else Done r s.
(** This one wakes no pollers. *)
Definition polled_mbx_ovrwr_send (m : nat) (msg : list byte) : pst -> res pst Z :=
  on_pk (_rt_mbx_ovrwr_send m msg).

Definition WAKEUP_WAIT_ONE_POLLER (m : semid) (wakeup : bool) (s : pst) : res pst unit :=
  if wakeup then rt_wakeup_pollers wfuel (PollWaitOne m) 0 s else Done tt s.
Definition WAKEUP_WAIT_ALL_POLLERS (m : semid) (wakeup : bool) (s : pst) : res pst unit :=
  sched* s := WAKEUP_WAIT_ONE_POLLER m wakeup s in
  if count (sems (pk s) m) =? 1 then rt_wakeup_pollers wfuel (PollWaitAll m) 0 s else Done tt s.

(** A signal that only undoes a nested wait, or that is refused, wakes nobody. *)
Definition polled_sem_signal (m : semid) (s : pst) : res pst Z :=
  let nested := 1 <? semtype (sems (pk s) m) in
  let* (r, s) := on_pk (rt_sem_signal m) s in
  if (r =? 0) && negb nested then sched* s := WAKEUP_WAIT_ALL_POLLERS m true s in Done r s
  else Done r s.
Definition polled_sem_broadcast (fuel : nat) (m : semid) (s : pst) : res pst Z :=
  if bad_sem m (pk s) then Done RTE_OBJINV s
  else
    let* (map, s) := on_pk (broadcast_loop fuel m 0) s in
    let s := upd_pk (sset set_count m 0) s in
    let left := if map =? 0 then 0 else Z.clearbit map (Z.of_nat (cpuid (pk s))) in
    sched* s := on_pk (RT_SCHEDULE_TAC map) s in
    sched* s := WAKEUP_WAIT_ONE_POLLER m (negb (left =? 0)) s in
    Done 0 s.
End polled.
