(* ===== verification/PollFacts.v ===== *)
(** * Polling: what a poller and the wakers of its objects do together.

    A poll that returns has left all queues, and its result is the number of the
    objects that answered; one without a time limit does not return without an
    answer unless somebody unblocks its task.  The sections of the others keep
    the promises this rests on. *)

From S2P Require Import Prelude Resume Ring MbxRing Kernel KernelFacts Queue Sched Keeps Tasks Sem Mbx Poll.
From stdpp Require Import list relations.
#[local] Open Scope Z_scope.

(** ** The queues of pollers *)

(** An element in a queue leads to the semaphore of its poller, and is linked
    once; only its poller waits on a semaphore. *)
Record polls_ok (s : pst) : Prop := {
  at_sem : forall q e, e ∈ pollqs s q -> elemtask s e.1 e.2 = AtSem;
  once : forall q, NoDup (pollqs s q);
  one_queue : forall q q' e, e ∈ pollqs s q -> e ∈ pollqs s q' -> q = q';
  own_queue : forall t x, x ∈ queues (pk s) (QPoll t) -> x = t
}.

Lemma set_pk_id s : set_pk (pk s) s = s.
Proof. by destruct s. Qed.
Lemma pollq_same q l s : pollqs (set_pollq q l s) q = l.
Proof. cbn. by rewrite fn_lookup_insert. Qed.
Lemma pollq_other q q' l s : q' <> q -> pollqs (set_pollq q l s) q' = pollqs s q'.
Proof. intros. cbn. by rewrite fn_lookup_insert_ne. Qed.
Lemma elem_same t i v s : elemtask (set_elem t i v s) t i = v.
Proof. cbn. by rewrite !fn_lookup_insert. Qed.
Lemma elem_other t i v s t' j : (t', j) <> (t, i) -> elemtask (set_elem t i v s) t' j = elemtask s t' j.
Proof.
  intros Hne. cbn. destruct (decide (t' = t)) as [->|]; [|by rewrite fn_lookup_insert_ne].
  rewrite fn_lookup_insert, fn_lookup_insert_ne; [done|]. by intros ->.
Qed.

Lemma poll_insert_some prio val e l :
  (forall x, x ∈ l -> val x.1 x.2 = AtSem) -> exists l', poll_insert prio val e l = Some l' /\ l' ≡ₚ e :: l.
Proof.
  induction l as [|[t i] l IH]; intros Hl; cbn; [by exists [e]|].
  pose proof (Hl (t, i) (list_elem_of_here _ _)) as Ht. cbn in Ht. rewrite Ht. destruct (_ <=? _); [|by eexists].
  destruct IH as (l' & -> & Hp). { intros x Hx. apply Hl, elem_of_cons. by right. }
  exists ((t, i) :: l'). split; [done|]. rewrite Hp. apply perm_swap.
Qed.

(** Linking an element that is in no queue. *)
Lemma link_elem_ok cur i q s : polls_ok s -> (forall q', (cur, i) ∉ pollqs s q') ->
  exists s', link_elem cur i q s = Some s' /\ pk s' = pk s /\ pwait s' = pwait s /\
    rt_poll_ofstfun s' = rt_poll_ofstfun s /\ polls_ok s' /\
    (forall q' e, e ∈ pollqs s' q' <-> (q' = q /\ e = (cur, i)) \/ e ∈ pollqs s q') /\
    elemtask s' = elemtask (set_elem cur i AtSem s).
Proof.
  intros Hall Hni. unfold link_elem. set (s1 := set_elem cur i AtSem s).
  assert (forall q' e, e ∈ pollqs s q' -> elemtask s1 e.1 e.2 = AtSem) as H1.
  { intros q' [t j] He. unfold s1. destruct (decide ((t, j) = (cur, i))) as [[= -> ->]|Hne]; [apply elem_same|].
    rewrite elem_other by done. by apply (at_sem s Hall q' (t, j)). }
  destruct (poll_insert_some (fun t => priority (tasks (pk s1) t)) (elemtask s1) (cur, i) (pollqs s1 q))
    as (l & Hl & Hp); [apply H1|].
  assert (forall e, e ∈ l <-> e = (cur, i) \/ e ∈ pollqs s q) as Hin.
  { intros e. rewrite Hp, elem_of_cons. done. }
  rewrite Hl. eexists. split; [done|]. split_and!; try done; [split; [| | |apply Hall]|].
  - intros q' e. destruct (decide (q' = q)) as [->|].
    + rewrite pollq_same. intros [-> | He]%Hin; [apply elem_same|by apply (H1 q)].
    + rewrite pollq_other by done. apply H1.
  - intros q'. destruct (decide (q' = q)) as [->|]; [rewrite pollq_same|rewrite pollq_other by done; apply Hall].
    rewrite Hp. apply NoDup_cons. split; [apply Hni|apply Hall].
  - intros q1 q2 e. destruct (decide (q1 = q)) as [->|], (decide (q2 = q)) as [->|];
      rewrite ?pollq_same, ?pollq_other by done; try done.
    + intros [->|He]%Hin He2; [by apply Hni in He2|]. by apply (one_queue s Hall q q2 e).
    + intros He2 [->|He]%Hin; [by apply Hni in He2|]. by apply (one_queue s Hall q1 q e).
    + by apply (one_queue s Hall).
  - intros q' e. destruct (decide (q' = q)) as [->|].
    + rewrite pollq_same, Hin. tauto.
    + rewrite pollq_other by done. cbn. intuition.
Qed.

(** ** Correctness but for one fault

    As [wp], where a fault is allowed in the states [E]. *)
Section wp_or.
Context {S : Type} (E G : S -> Prop) (R : S -> S -> Prop).
Fixpoint wp_or {A} (r : res S A) (Q : A -> S -> Prop) : Prop :=
  match r with
  | Done a s => Q a s
  | Stop _ s k => G s /\ forall s', R s s' -> wp_or (k s') Q
  | Fault s => E s
  | NoFuel _ => False
  end.
Lemma wp_or_wp {A} (r : res S A) Q : wp G R r Q -> wp_or r Q.
Proof. induction r as [|? ? k IH| |]; simpl; [done| |done|done]. intros [? H]. split; auto. Qed.
Lemma wp_or_mono {A} (r : res S A) (Q Q' : A -> S -> Prop) : wp_or r Q -> (forall a s, Q a s -> Q' a s) -> wp_or r Q'.
Proof. intros H HQ. induction r as [|? ? k IH| |]; simpl in *; auto. destruct H as [? H]. split; auto. Qed.
Lemma wp_or_rbind {A B} (r : res S A) (f : A -> S -> res S B) Q :
  wp_or (rbind r f) Q <-> wp_or r (fun a s => wp_or (f a s) Q).
Proof.
  induction r as [|? ? k IH| |]; simpl; try done.
  split; intros [? H]; (split; [done|]); intros s' Hs'; apply IH, H, Hs'.
Qed.
End wp_or.
Lemma wp_or_weaken {S : Type} (E E' G : S -> Prop) R {A} (r : res S A) Q :
  (forall s, E s -> E' s) -> wp_or E G R r Q -> wp_or E' G R r Q.
Proof. intros HE. induction r as [|? ? k IH| |]; simpl; auto. intros [? H]. split; auto. Qed.

(** ** The poller *)

(** What becomes of an entry of the array: nothing, or it is counted, because the
    object was ready at once, or because of what a waker has left. *)
Inductive outcome (pd : rt_poll_s) : rt_poll_s -> Z -> Prop :=
| out_pending : outcome pd pd 0
| out_ready : outcome pd (MkPollS NULL 0) 1
| out_woken p : outcome pd (MkPollS p (forwhat pd)) 1.
Inductive outcomes : list rt_poll_s -> list rt_poll_s -> Z -> Prop :=
| outs_nil : outcomes [] [] 0
| outs_cons pd pds pd' pds' n m :
    outcome pd pd' n -> outcomes pds pds' m -> outcomes (pd :: pds) (pd' :: pds') (n + m).

(** An entry the service takes: its function is loaded and made for the object. *)
Definition pollable (f : Z -> option topoll) (pd : rt_poll_s) : Prop :=
  forwhat pd <> 0 /\ exists t q, f (forwhat pd) = Some t /\ QL pd = Some q /\
    forall k, blocks t (what pd) k <> None.

Section poller.
Context (cur : tid) (cpu : nat) (timeout : Z).

Definition told (s : pst) (i : nat) : Prop := exists p, elemtask s cur i = Val p.
Definition linked (s : pst) (i : nat) : Prop := exists q, (cur, i) ∈ pollqs s q.
Abbreviation my_block s := (blocked_on (tasks (pk s) cur)).
Definition off_queue (s : pst) : Prop := my_block s = NULL -> cur ∉ queues (pk s) (QPoll cur).

(** What the others promise: to link no element of the caller; to take one out
    only with a reason in it, before they end the wait or signal the semaphore; and
    not to block the caller. *)
Record poll_rely (s s' : pst) : Prop := {
  pr_fun : rt_poll_ofstfun s' = rt_poll_ofstfun s;
  pr_at_sem : polls_ok s -> polls_ok s';
  pr_new : forall q i, (cur, i) ∈ pollqs s' q -> (cur, i) ∈ pollqs s q;
  pr_told : forall i p, elemtask s cur i = Val p -> elemtask s' cur i = Val p;
  pr_wait : pwait s cur <> 0 -> pwait s' cur = 0 -> exists i, linked s i /\ told s' i;
  pr_off : off_queue s -> off_queue s';
  pr_free : my_block s = NULL -> my_block s' = NULL;
  pr_blocked : my_block s <> NULL -> my_block s' = NULL -> exists i, linked s i /\ told s' i
}.
Context (F : Z -> option topoll) (R : pst -> pst -> Prop).
Context (R_rely : forall s s', R s s' -> poll_rely s s').

(** The elements from [lo] to [hi] may be linked, each where its entry says. *)
Record inv (pds : list rt_poll_s) (lo hi : nat) (s : pst) : Prop := {
  i_fun : rt_poll_ofstfun s = F;
  i_at_sem : polls_ok s;
  i_off : off_queue s;
  i_placed : forall q i, (cur, i) ∈ pollqs s q ->
    (lo <= i < hi)%nat /\ exists pd, pds !! i = Some pd /\ QL pd = Some q
}.
Definition some_told (lo hi : nat) (s : pst) : Prop := exists i, (lo <= i < hi)%nat /\ told s i.

Lemma told_rely s s' i : R s s' -> told s i -> told s' i.
Proof using R_rely. intros Hr [p Hp]. exists p. by apply (pr_told s s'); [apply R_rely|]. Qed.
Lemma some_told_rely lo hi s s' : R s s' -> some_told lo hi s -> some_told lo hi s'.
Proof using R_rely. intros Hr (i & Hi & Ht). exists i. split; [done|]. by eapply told_rely. Qed.
Lemma inv_rely pds lo hi s s' : R s s' -> inv pds lo hi s -> inv pds lo hi s'.
Proof using R_rely.
  intros Hr%R_rely []. destruct Hr. split; [congruence|auto|auto|]. intros q i Hi. apply i_placed0. auto.
Qed.
Lemma linked_inv pds lo hi s i : inv pds lo hi s -> linked s i -> (lo <= i < hi)%nat.
Proof. intros H [q Hq]. by apply (i_placed _ _ _ _ H) in Hq as [? _]. Qed.


(** ** Linking *)

Lemma inv_elem pds lo hi s i v : inv pds lo hi s -> (hi <= i)%nat -> inv pds lo hi (set_elem cur i v s).
Proof.
  intros [] Hi. split; try done. split; try apply i_at_sem0. intros q [t j] He. cbn [fst snd].
  rewrite elem_other; [by apply (at_sem s i_at_sem0 q (t, j))|]. intros [= -> ->].
  destruct (i_placed0 q i He). lia.
Qed.
Lemma inv_wider pds lo hi hi' s : (hi <= hi')%nat -> inv pds lo hi s -> inv pds lo hi' s.
Proof. intros Hh []. split; try done. intros q i Hi. destruct (i_placed0 q i Hi) as [? ?]. split; [lia|done]. Qed.

(** Before the task waits, with the elements below [n] in place. *)
Record linking (pds : list rt_poll_s) (n : nat) (s : pst) : Prop := {
  l_inv : inv pds 0 n s;
  l_free : my_block s = NULL;
  l_told : pwait s cur = 0 -> some_told 0 n s
}.
Lemma linking_rely pds n s s' : R s s' -> linking pds n s -> linking pds n s'.
Proof using R_rely.
  intros Hr []. pose proof (R_rely _ _ Hr) as Hp. split.
  - by eapply inv_rely.
  - by apply (pr_free _ _ Hp).
  - intros Hw. destruct (decide (pwait s cur = 0)); [eapply some_told_rely; eauto|].
    destruct (pr_wait _ _ Hp) as (i & Hi & Ht); [done..|]. exists i. split; [|done].
    by eapply linked_inv.
Qed.

(** What the loop leaves of the array: an entry that was ready is marked. *)
Inductive entries (s : pst) : nat -> list rt_poll_s -> list rt_poll_s -> Prop :=
| ent_nil i : entries s i [] []
| ent_cons i pd pds pd' pds' :
    pd' = pd \/ (pd' = MkPollS (what pd) 0 /\ elemtask s cur i = Val NULL) ->
    entries s (S i) pds pds' -> entries s i (pd :: pds) (pd' :: pds').
Lemma entries_stable s s' i pds pds' :
  (forall j p, elemtask s cur j = Val p -> elemtask s' cur j = Val p) ->
  entries s i pds pds' -> entries s' i pds pds'.
Proof.
  intros H. induction 1 as [|? ? ? ? ? [Hp|[Hp Hq]] ? IH]; constructor; auto.
Qed.

Lemma some_told_set lo hi s i v : (hi <= i)%nat -> some_told lo hi s -> some_told lo hi (set_elem cur i v s).
Proof.
  intros Hi (j & Hj & p & Hp). exists j. split; [done|]. exists p. rewrite elem_other; [done|].
  intros [=]. lia.
Qed.
Lemma some_told_wider lo hi hi' s : (hi <= hi')%nat -> some_told lo hi s -> some_told lo hi' s.
Proof. intros ? (j & ? & ?). exists j. split; [lia|done]. Qed.

Lemma linking_ready pds n s : linking pds n s -> linking pds (S n) (set_elem cur n (Val NULL) s).
Proof.
  intros []. split; try done.
  - apply (inv_wider _ _ n); [lia|]. by apply inv_elem.
  - intros _. exists n. split; [lia|]. exists NULL. apply elem_same.
Qed.
Lemma linking_link pds n pd q s : pds !! n = Some pd -> QL pd = Some q -> linking pds n s ->
  exists s', link_elem cur n q s = Some s' /\ linking pds (S n) s' /\
    elemtask s' = elemtask (set_elem cur n AtSem s).
Proof.
  intros Hn Hq [[] Hf Ht]. destruct (link_elem_ok cur n q s) as (s' & E & Hk & Hw & Hfn & Hall & Hin & Hel);
    [done|intros q' Hi; destruct (i_placed0 q' n Hi); lia|].
  exists s'. split; [done|]. split; [|done]. split.
  - split; [congruence|done|by unfold off_queue; rewrite Hk|]. intros q' i [[-> [= ->]]|Hi]%Hin.
    + split; [lia|]. by exists pd.
    + destruct (i_placed0 q' i Hi) as [? ?]. split; [lia|done].
  - by rewrite Hk.
  - rewrite Hw. intros H0. destruct (some_told_set 0 n s n AtSem) as (j & Hj & p & Hp); [done|auto|].
    exists j. split; [lia|]. exists p. by rewrite Hel.
Qed.

Lemma link_loop_ok all i pds polled s :
  drop i all = pds -> Forall (pollable F) pds -> linking all i s ->
  0 <= polled -> (0 < polled -> some_told 0 i s) ->
  wp polls_ok R (link_loop cur i pds polled s) (fun r s' =>
    linking all (i + length pds) s' /\ entries s' i pds r.2 /\
    0 <= r.1 /\ (0 < r.1 -> some_told 0 (i + length pds) s') /\
    forall j p, (j < i)%nat -> elemtask s cur j = Val p -> elemtask s' cur j = Val p).
Proof using R_rely.
  revert i polled s. induction pds as [|pd pds IH]; intros i polled s Hd Hp Hl H0 Ht; cbn [link_loop length].
  { cbn. rewrite Nat.add_0_r. split_and!; try done. constructor. }
  apply Forall_cons in Hp as [(Hfw & f & q & Hf & Hq & Hb) Hp].
  assert (all !! i = Some pd) as Hi by (rewrite <- (Nat.add_0_r i), <- lookup_drop, Hd; done).
  assert (drop (S i) all = pds) as Hd' by (rewrite <- Nat.add_1_r, <- drop_drop, Hd; done).
  split; [apply Hl|]. intros s1 Hr1. cbn [rbind].
  pose proof (linking_rely _ _ _ _ Hr1 Hl) as Hl1. rewrite (i_fun _ _ _ _ (l_inv _ _ _ Hl1)), Hf.
  assert (forall j p, elemtask s cur j = Val p -> elemtask s1 cur j = Val p) as K1
    by (apply (pr_told s s1), R_rely, Hr1).
  assert (0 < polled -> some_told 0 i s1) as Ht1 by (intros; eapply some_told_rely; eauto).
  destruct (blocks f (what pd) (pk s1)) as [[]|] eqn:Eb; [| |by destruct (Hb (pk s1))].
  - split; [apply Hl1|]. intros s2 Hr2. cbn [rbind]. rewrite Hq.
    pose proof (linking_rely _ _ _ _ Hr2 Hl1) as Hl2.
    destruct (linking_link all i pd q s2 Hi Hq Hl2) as (s3 & -> & Hl3 & He3).
    assert (forall j p, (j < i)%nat -> elemtask s cur j = Val p -> elemtask s3 cur j = Val p) as K3.
    { intros j p Hj Hjp. rewrite He3, elem_other by (intros [=]; lia).
      apply (pr_told s1 s2); [by apply R_rely|]. auto. }
    apply wp_rbind. eapply wp_mono; [apply (IH (S i)); try done|].
    + intros H. destruct (Ht1 H) as (j & Hj & Hjt). destruct (told_rely _ _ _ Hr2 Hjt) as [p Hjp].
      exists j. split; [lia|]. exists p. rewrite He3, elem_other by (intros [=]; lia). done.
    + intros [n out] s' (A1 & A2 & A3 & A4 & A5). cbn [fst snd rbind wp] in *. rewrite Nat.add_succ_r.
      split_and!; try done; [by constructor; [left|]|]. intros j p Hj Hjp. apply A5; [lia|]. by apply K3.
  - apply wp_rbind. eapply wp_mono; [apply (IH (S i)); try done|].
    + by apply linking_ready.
    + lia.
    + intros _. exists i. split; [lia|]. exists NULL. apply elem_same.
    + intros [n out] s' (A1 & A2 & A3 & A4 & A5). cbn [fst snd rbind wp] in *. rewrite Nat.add_succ_r.
      split_and!; try done.
      * constructor; [|done]. right. split; [done|]. apply A5; [lia|]. apply elem_same.
      * intros j p Hj Hjp. apply A5; [lia|]. rewrite elem_other by (intros [=]; lia). by apply K1.
Qed.

(** ** Waiting *)

Section wait.
Context (pds : list rt_poll_s) (n : nat) (K : pst -> Prop).
Context (K_rely : forall s s', R s s' -> K s -> K s') (K_pk : forall k s, K s -> K (set_pk k s)).

(** While the task waits: it is let go only by somebody who has taken an element out. *)
Record waiting (s : pst) : Prop := {
  w_inv : inv pds 0 n s;
  w_told : my_block s = NULL -> some_told 0 n s;
  w_kept : K s
}.
(** After the wait. *)
Record waited (r : Z) (s : pst) : Prop := {
  v_inv : inv pds 0 n s;
  v_free : my_block s = NULL;
  v_kept : K s;
  v_told : r = 0 -> some_told 0 n s
}.

Lemma waiting_rely s s' : waiting s -> R s s' -> waiting s'.
Proof using R_rely K_rely.
  intros [] Hr. pose proof (R_rely _ _ Hr) as Hp. split; [by eapply inv_rely| |by eapply K_rely].
  intros Hb. destruct (decide (my_block s = NULL)); [eapply some_told_rely; eauto|].
  destruct (pr_blocked _ _ Hp) as (i & Hi & Ht); [done..|]. exists i. split; [|done]. by eapply linked_inv.
Qed.
Lemma inv_set_pk k s : inv pds 0 n s ->
  (forall t x, x ∈ queues k (QPoll t) -> x = t \/ x ∈ queues (pk s) (QPoll t)) ->
  (blocked_on (tasks k cur) = NULL -> cur ∉ queues k (QPoll cur)) -> inv pds 0 n (set_pk k s).
Proof.
  intros [? [] ? ?] Hq Ho. split; try done. split; try done. intros t x [->|Hx]%Hq; [done|]. by apply own_queue0.
Qed.
Lemma waiting_keeps s k : keeps (pk s) k -> waiting s -> waiting (set_pk k s).
Proof using K_pk.
  intros Hk [Hi Ht HK]. split; [|cbn; by rewrite (k_blocked _ _ Hk)|by apply K_pk].
  apply inv_set_pk; [done| |]; rewrite (k_queues _ _ Hk); [auto|].
  rewrite (k_blocked _ _ Hk). apply (i_off _ _ _ _ Hi).
Qed.
Lemma wait_enter s k : inv pds 0 n s -> K s -> queues k = queues (pk s) ->
  waiting (set_pk (enqueue_blocked cur (QPoll cur) 1 k) s).
Proof using K_pk.
  intros Hi HK Hk. assert (blocked_on (tasks (enqueue_blocked cur (QPoll cur) 1 k) cur) = PQueue (QPoll cur)) as Hb.
  { unfold enqueue_blocked. cbn. by rewrite fn_lookup_insert. }
  split; [|cbn [pk set_pk]; by rewrite Hb|by apply K_pk].
  apply inv_set_pk; [done| |by rewrite Hb]. intros t x. cbn. rewrite <- Hk.
  destruct (decide (t = cur)) as [->|Ht]; [|rewrite fn_lookup_insert_ne by congruence; auto].
  rewrite fn_lookup_insert, elem_of_app, list_elem_of_singleton. tauto.
Qed.
Lemma wait_leave r s : r <> 0 -> waiting s -> waited r (set_pk (dequeue_blocked cur (pk s)) s).
Proof using K_pk.
  intros Hr [Hi Ht HK]. split; [| |by apply K_pk|done].
  - apply inv_set_pk; [done| |]; cbn; unfold unlink.
    + intros t x. rewrite list_elem_of_filter. tauto.
    + intros _. rewrite list_elem_of_filter. tauto.
  - cbn. by rewrite fn_lookup_insert.
Qed.

(** The task sleeps, and looks at [blocked_on] when it runs again. *)
Lemma sleep_ok (code : ptr -> Z) k1 s : (forall p, code p <> 0) -> waiting (set_pk k1 s) ->
  wp polls_ok R
    (within pk set_pk (sched* k := rt_schedule k1 in
       if negb (is_null (blocked_on (tasks k cur))) then Done (code (blocked_on (tasks k cur))) (dequeue_blocked cur k)
       else Done 0 k) s)
    (fun r s' => waited r s' /\ (r = 0 \/ exists p, r = code p)).
Proof using R_rely K_rely K_pk.
  intros Hc Hw. apply wp_within_bind; [done..|]. rewrite <- (within_put pk set_pk (rt_schedule k1) k1) by done.
  eapply wp_mono.
  - apply (calm_within pk set_pk polls_ok R waiting).
    + intros t k Hk. by apply waiting_keeps.
    + intros t []. apply w_inv0.
    + intros t t'. apply waiting_rely.
    + apply calm_rt_schedule.
    + done.
  - intros [] s' Hs'. cbn beta. unfold is_null. destruct (decide (my_block s' = NULL)) as [Hn|Hn].
    + rewrite bool_decide_eq_true_2 by done. cbn. rewrite set_pk_id.
      split; [|by left]. destruct Hs' as [H1 H2 H3]. split; auto.
    + rewrite bool_decide_eq_false_2 by done. cbn [negb within wp].
      split; [|eauto]. by apply wait_leave.
Qed.

Definition poll_code (p : ptr) : Z := if above_higerr p then RTE_TIMOUT else RTE_UNBLKD.

Lemma rt_poll_wait_ok s : linking pds n s -> K s ->
  wp polls_ok R (rt_poll_wait cur s) (fun r s' => waited r s' /\ (r = 0 \/ r = RTE_UNBLKD)).
Proof using R_rely K_rely K_pk.
  intros Hl HK. split; [apply Hl|]. intros s1 Hr. cbn [rbind].
  pose proof (linking_rely _ _ _ _ Hr Hl) as [Hi Hf Ht]. assert (K s1) as HK1 by eauto.
  destruct (Z.eqb_spec (pwait s1 cur) 0) as [E|E].
  { cbn. split; [|by left]. split; auto. }
  cbn [negb]. unfold on_pk. cbv beta zeta.
  match goal with |- context [rt_schedule ?k] => generalize (eq_refl k); generalize k at 1 3; intros k1 Ek end.
  eapply wp_mono; [apply (sleep_ok (fun _ => RTE_UNBLKD) k1 s1); [done|]|].
  - subst k1. apply wait_enter; [done..|]. by rewrite (k_queues _ _ (keeps_rem_current cur _)).
  - intros r s' [Hw [->|[_ ->]]]; auto.
Qed.

(** The limit has passed before the task is queued: the code unlinks it by the links of an earlier wait. *)
Definition late (time : Z) (s : pst) : Prop :=
  pwait s cur <> 0 /\ blocked_on (tasks (pk s) cur) = PQueue (QPoll cur) /\ resume_time (tasks (pk s) cur) = time /\
  time <= smp_time_h (pk s) cpu.
Lemma rt_poll_wait_until_ok time s : linking pds n s -> K s ->
  wp_or (late time) polls_ok R (rt_poll_wait_until time cur cpu s)
    (fun r s' => waited r s' /\ (r = 0 \/ r = RTE_UNBLKD \/ r = RTE_TIMOUT)).
Proof using R_rely K_rely K_pk.
  intros Hl HK. split; [apply Hl|]. intros s1 Hr. cbn [rbind].
  pose proof (linking_rely _ _ _ _ Hr Hl) as [Hi Hf Ht]. assert (K s1) as HK1 by eauto.
  destruct (Z.eqb_spec (pwait s1 cur) 0) as [E|E].
  { cbn. split; [|by left]. split; auto. }
  cbn [negb]. unfold on_pk. cbv beta zeta.
  match goal with |- context [smp_time_h ?k cpu <? time] => change (smp_time_h k cpu) with (smp_time_h (pk s1) cpu) end.
  destruct (Z.ltb_spec (smp_time_h (pk s1) cpu) time) as [Htime|Htime].
  2:{ cbn [within wp_or]. unfold late. cbn [pk set_pk pwait]. rewrite tset_same. cbn [blocked_on resume_time set_resume_time].
      rewrite tset_same. done. }
  match goal with |- context [rt_schedule ?k] => generalize (eq_refl k); generalize k at 1 3; intros k1 Ek end.
  apply wp_or_wp. eapply wp_mono; [apply (sleep_ok poll_code k1 s1); [by unfold poll_code; intros p; destruct (above_higerr p)|]|].
  - subst k1. match goal with |- waiting (set_pk (enq_timed_task _ ?k) _) => assert (waiting (set_pk k s1)) as Hw end.
    { apply wait_enter; [done..|]. by rewrite (k_queues _ _ (keeps_rem_current cur _)). }
    apply (waiting_keeps _ _ (keeps_enq_timed cur _) Hw).
  - intros r s' [Hw [->|[p ->]]]; [auto|]. split; [done|]. unfold poll_code. destruct (above_higerr p); auto.
Qed.
End wait.

(** ** Collecting *)

Lemma inv_next all i hi s : inv all i hi s -> (forall q, (cur, i) ∉ pollqs s q) -> inv all (S i) hi s.
Proof.
  intros [] Hni. split; try done. intros q j Hj. destruct (i_placed0 q j Hj) as [? ?].
  split; [|done]. destruct (decide (j = i)) as [->|]; [by destruct (Hni q)|lia].
Qed.
Lemma inv_told all i hi s p : inv all i hi s -> elemtask s cur i = Val p -> inv all (S i) hi s.
Proof.
  intros Hi Hp. apply inv_next; [done|]. intros q Hin. apply (at_sem s (i_at_sem _ _ _ _ Hi)) in Hin. cbn in Hin.
  congruence.
Qed.
Lemma inv_unlink all i hi s pd q : inv all i hi s -> all !! i = Some pd -> QL pd = Some q ->
  inv all (S i) hi (unlink_elem cur i q s).
Proof.
  intros Hi Ha Hq. unfold unlink_elem. destruct (elemtask s cur i) as [|p] eqn:Ee; [|by apply (inv_told _ _ _ _ p)].
  set (s2 := set_pollq _ _ s).
  assert (forall q' e, e ∈ pollqs s2 q' -> e ∈ pollqs s q' /\ (q' = q -> e <> (cur, i))) as Hsub.
  { intros q' e. unfold s2. destruct (decide (q' = q)) as [->|].
    - rewrite pollq_same, list_elem_of_filter. tauto.
    - by rewrite pollq_other. }
  destruct Hi as [Hf Hs Ho Hp]. apply inv_next.
  - split; try done.
    + split; [| | |apply Hs].
      * intros q' e [He _]%Hsub. exact (at_sem _ Hs q' e He).
      * intros q'. unfold s2. destruct (decide (q' = q)) as [->|]; [rewrite pollq_same|rewrite pollq_other by done].
        -- apply NoDup_filter, Hs.
        -- apply Hs.
      * intros q1 q2 e [H1 _]%Hsub [H2 _]%Hsub. exact (one_queue _ Hs q1 q2 e H1 H2).
    + intros q' j [Hj _]%Hsub. exact (Hp q' j Hj).
  - intros q' Hin. destruct (Hsub _ _ Hin) as [Hin' Hne].
    destruct (Hp q' i Hin') as (_ & pd2 & E1 & E2). apply Hne; [congruence|done].
Qed.

Lemma collect_loop_ok all i pds pds' polled s :
  drop i all = pds -> Forall (pollable F) pds -> entries s i pds pds' ->
  inv all i (i + length pds) s -> my_block s = NULL ->
  wp polls_ok R (collect_loop cur i pds' polled s) (fun r s' =>
    inv all (i + length pds) (i + length pds) s' /\ my_block s' = NULL /\
    exists m, outcomes pds r.2 m /\ r.1 = polled + m /\ 0 <= m /\
      (some_told i (i + length pds) s -> 0 < m)).
Proof using R_rely.
  revert i pds' polled s. induction pds as [|pd pds IH]; intros i pds' polled s Hd Hp He Hi Hb;
    inversion He as [|? ? ? pd' ? Hpd He' ]; subst; cbn [collect_loop length].
  { cbn. rewrite Nat.add_0_r in *. split_and!; try done. exists 0. split_and!; try done; [constructor|lia|].
    intros (j & Hj & _). lia. }
  apply Forall_cons in Hp as [(Hfw & f & q & Hf & Hq & _) Hp].
  assert (all !! i = Some pd) as Ha by (rewrite <- (Nat.add_0_r i), <- lookup_drop, Hd; done).
  assert (drop (S i) all = pds) as Hd' by (rewrite <- Nat.add_1_r, <- drop_drop, Hd; done).
  cbn [length] in Hi. rewrite Nat.add_succ_r in *. change (S (i + length pds)) with (S i + length pds)%nat in *.
  destruct Hpd as [->|[-> Hnull]].
  - destruct (Z.eqb_spec (forwhat pd) 0) as [|_]; [done|]. cbn [negb rbind].
    split; [apply Hi|]. intros s1 Hr. cbn [rbind]. rewrite Hq. cbn [rbind].
    pose proof (inv_unlink _ _ _ _ _ _ (inv_rely _ _ _ _ _ Hr Hi) Ha Hq) as Hi2.
    assert (elemtask (unlink_elem cur i q s1) = elemtask s1) as Hel
      by (unfold unlink_elem; by destruct (elemtask s1 cur i)).
    assert (pk (unlink_elem cur i q s1) = pk s1) as Hk
      by (unfold unlink_elem; by destruct (elemtask s1 cur i)).
    assert (entries (unlink_elem cur i q s1) (S i) pds pds'0) as He2.
    { eapply entries_stable; [|exact He']. rewrite Hel. apply (pr_told _ _ (R_rely _ _ Hr)). }
    pose proof (pr_free _ _ (R_rely _ _ Hr) Hb) as Hb2. rewrite <- Hk in Hb2. rewrite Hel.
    destruct (elemtask s1 cur i) as [|p] eqn:Ee.
    + apply wp_rbind. eapply wp_mono; [by apply (IH (S i))|].
      intros [r out] s' (A1 & A2 & m & A3 & A4 & A5 & A6). cbn [fst snd wp] in *.
      split_and!; try done. exists m. split_and!; try done; [by apply (outs_cons _ _ _ _ 0); [constructor|]|].
      intros (j & Hj & Hjt). apply A6. destruct (told_rely _ _ _ Hr Hjt) as [p Hp1].
      exists j. split; [|exists p; by rewrite Hel]. destruct (decide (j = i)) as [->|]; [congruence|lia].
    + apply wp_rbind. eapply wp_mono; [by apply (IH (S i))|].
      intros [r out] s' (A1 & A2 & m & A3 & A4 & A5 & A6). cbn [fst snd wp] in *.
      split_and!; try done. exists (1 + m). split_and!; try lia. by apply outs_cons; [constructor|].
  - cbn [forwhat]. rewrite Z.eqb_refl. cbn [negb rbind what]. rewrite Hnull.
    apply wp_rbind. eapply wp_mono; [by apply (IH (S i)); [..|eapply inv_told|]|].
    intros [r out] s' (A1 & A2 & m & A3 & A4 & A5 & A6). cbn [fst snd wp] in *.
    split_and!; try done. exists (1 + m). split_and!; try lia. by apply outs_cons; [constructor|].
Qed.
End poller.

(** ** The service *)

(** A task that calls: it has no element linked and is not blocked. *)
Record poll_pre (cur : tid) (s : pst) : Prop := {
  pp_current : rt_current (pk s) = cur;
  pp_ok : polls_ok s;
  pp_unlinked : forall q i, (cur, i) ∉ pollqs s q;
  pp_free : blocked_on (tasks (pk s) cur) = NULL
}.
Record poll_post (cur : tid) (timeout : Z) (pds : list rt_poll_s) (ret : Z) (out : list rt_poll_s) (s : pst) : Prop := {
  pq_ok : polls_ok s;
  pq_unlinked : forall q i, (cur, i) ∉ pollqs s q;
  pq_free : blocked_on (tasks (pk s) cur) = NULL /\ cur ∉ queues (pk s) (QPoll cur);
  pq_count : exists n, 0 <= n /\ outcomes pds out n /\ (0 < n -> ret = n) /\
    (n = 0 -> (timeout = 0 -> pds <> [] -> ret = RTE_UNBLKD) /\ (timeout = 1 -> ret = 0) /\
              (timeout < 0 \/ 1 < timeout -> ret = RTE_UNBLKD \/ ret = RTE_TIMOUT))
}.

Section service.
Context (cur : tid) (timeout : Z) (R : pst -> pst -> Prop) (pds : list rt_poll_s) (s0 : pst).
#[local] Abbreviation cpu := (cpuid (pk s0)).
#[local] Abbreviation F := (rt_poll_ofstfun s0).
Context (R_rely : forall s s', R s s' -> poll_rely cur s s').

Lemma poll_start : poll_pre cur s0 ->
  linking cur F pds 0 (set_pwait cur 1 (upd_pk (qset (QPoll cur) []) s0)).
Proof using.
  intros [Hc Hok Hu Hf]. split; [|done|].
  - split; [done| | |].
    + split; [apply Hok..|]. intros t x. cbn. destruct (decide (t = cur)) as [->|Ht].
      * rewrite fn_lookup_insert. by intros ?%not_elem_of_nil.
      * rewrite fn_lookup_insert_ne by congruence. apply Hok.
    + intros _. cbn. rewrite fn_lookup_insert. apply not_elem_of_nil.
    + intros q i Hi. by destruct (Hu q i).
  - cbn. by rewrite fn_lookup_insert.
Qed.

(** The wait, or none: an answer is there when it ends with 0. *)
Definition semret_ok (polled n semret : Z) : Prop :=
  n = 0 -> polled = 0 /\ (timeout = 0 -> pds <> [] -> semret = RTE_UNBLKD) /\ (timeout = 1 -> semret = 0) /\
    (timeout < 0 \/ 1 < timeout -> semret = RTE_UNBLKD \/ semret = RTE_TIMOUT).

(** A poll with a limit that has passed before the task sleeps. *)
Definition too_late (cur : tid) (cpu : nat) (timeout : Z) (s : pst) : Prop :=
  (timeout < 0 \/ 1 < timeout) /\ exists time, late cur cpu time s /\ (1 < timeout -> time = timeout).
Lemma poll_wait_ok n polled out s : n = length pds -> 0 <= polled ->
  linking cur F pds n s -> entries cur s 0 pds out -> (0 < polled -> some_told cur 0 n s) ->
  wp_or (too_late cur cpu timeout) polls_ok R
    (if polled =? 0 then
       if timeout <? 0 then rt_poll_wait_until (rt_get_time (pk s) - timeout) cur cpu s
       else if 1 <? timeout then rt_poll_wait_until timeout cur cpu s
       else if (timeout <? 1) && (0 <? zlen pds) then rt_poll_wait cur s
       else Done 0 s
     else Done 0 s)
    (fun r s' => inv cur F pds 0 n s' /\ blocked_on (tasks (pk s') cur) = NULL /\ entries cur s' 0 pds out /\
       (some_told cur 0 n s' \/ semret_ok polled 0 r)).
Proof using R_rely.
  intros Hn Hp Hl He Ht.
  assert (forall a b, R a b -> entries cur a 0 pds out -> entries cur b 0 pds out) as K1.
  { intros a b Hr. apply entries_stable, (pr_told _ _ _ (R_rely _ _ Hr)). }
  assert (forall k a, entries cur a 0 pds out -> entries cur (set_pk k a) 0 pds out) as K2.
  { intros k a. by apply entries_stable. }
  set (K a := entries cur a 0 pds out).
  pose proof (rt_poll_wait_ok cur F R R_rely pds n K K1 K2 s Hl He) as H1.
  pose proof (fun t => rt_poll_wait_until_ok cur cpu F R R_rely pds n K K1 K2 t s Hl He) as H2.
  pose proof (l_free _ _ _ _ _ Hl) as Hb.
  destruct (Z.eqb_spec polled 0) as [->|Hp0].
  2:{ cbn. split_and!; [apply Hl|done|done|]. left. apply Ht. lia. }
  assert (forall r s', (r = 0 \/ r = RTE_UNBLKD \/ r = RTE_TIMOUT) -> timeout <> 1 -> (r = RTE_TIMOUT -> timeout <> 0) ->
    waited cur F pds n K r s' -> inv cur F pds 0 n s' /\ blocked_on (tasks (pk s') cur) = NULL /\
    entries cur s' 0 pds out /\ (some_told cur 0 n s' \/ semret_ok 0 0 r)) as Hdone.
  { intros r s' Hr H1' Ht0 []. split_and!; try done.
    destruct Hr as [->|Hr]; [auto|right]. unfold semret_ok. intuition. }
  destruct (Z.ltb_spec timeout 0) as [Hneg|Hneg].
  { eapply wp_or_weaken; [|eapply wp_or_mono; [apply H2|]].
    - intros a Ha. split; [by left|]. eexists. split; [exact Ha|lia].
    - intros r s' [Hw Hr]. apply Hdone; [tauto|lia|lia|done]. }
  destruct (Z.ltb_spec 1 timeout) as [Hbig|Hbig].
  { eapply wp_or_weaken; [|eapply wp_or_mono; [apply H2|]].
    - intros a Ha. split; [by right|]. by exists timeout.
    - intros r s' [Hw Hr]. apply Hdone; [tauto|lia|lia|done]. }
  destruct ((timeout <? 1) && (0 <? zlen pds)) eqn:E.
  - zbool. apply wp_or_wp. eapply wp_mono; [apply H1|]. intros r s' [Hw Hr]. apply Hdone; [tauto|lia| |done].
    by destruct Hr as [->| ->].
  - cbn. split_and!; [apply Hl|done|done|]. right. intros _. split_and!; try done; [|lia].
    intros -> Hpd. destruct pds; [done|]. unfold zlen in E. cbn [length] in E. lia.
Qed.

Lemma poll_runs : poll_pre cur s0 -> Forall (pollable F) pds ->
  wp_or (too_late cur cpu timeout) polls_ok R
    (let s := set_pwait cur 1 (upd_pk (qset (QPoll cur) []) s0) in
     let* (r, s) := link_loop cur 0 pds 0 s in
     let* (semret, s) :=
       (if r.1 =? 0 then
          if timeout <? 0 then rt_poll_wait_until (rt_get_time (pk s) - timeout) cur cpu s
          else if 1 <? timeout then rt_poll_wait_until timeout cur cpu s
          else if (timeout <? 1) && (0 <? zlen pds) then rt_poll_wait cur s
          else Done 0 s
        else Done 0 s) in
     let* (r, s) := collect_loop cur 0 r.2 0 s in
     Done (if negb (r.1 =? 0) then r.1 else semret, r.2) s)
    (fun r s' => poll_post cur timeout pds r.1 r.2 s').
Proof using R_rely.
  intros Hpre Hpds. cbv zeta. pose proof (poll_start Hpre) as Hl. set (s1 := set_pwait cur 1 _) in *.
  apply wp_or_rbind, wp_or_wp. eapply wp_mono.
  { apply (link_loop_ok cur F R R_rely pds 0 pds 0 s1); [done|done|done|lia|lia]. }
  intros [polled out] s2 (L1 & L2 & L3 & L4 & _). cbn [fst snd Nat.add] in *.
  apply wp_or_rbind. eapply wp_or_mono; [by apply (poll_wait_ok (length pds) polled out)|].
  intros semret s3 (W1 & W2 & W3 & W4). cbn beta.
  apply wp_or_wp, wp_rbind. eapply wp_mono.
  { apply (collect_loop_ok cur F R R_rely pds 0 pds out 0 s3); done. }
  intros [n res] s4 (C1 & C2 & m & C3 & C4 & C5 & C6). cbn [fst snd Nat.add wp] in *. subst n.
  split; cbn [fst snd].
  - apply C1.
  - intros q i Hi. destruct (i_placed _ _ _ _ _ _ C1 q i Hi). lia.
  - split; [done|]. by apply (i_off _ _ _ _ _ _ C1).
  - exists m. split; [done|]. split; [done|]. split.
    + intros Hm. destruct (Z.eqb_spec (0 + m) 0); [lia|]. cbn. lia.
    + intros ->. cbn. destruct W4 as [Hs|Hs]; [apply C6 in Hs; lia|]. by destruct (Hs eq_refl) as (_ & ?).
Qed.
End service.

(** C36. The polling service.  When the heap has no room for the arrays of a poll of anything it returns ENOMEM and has linked nothing.  Else, whatever
    the others do between its sections - link and
    unlink elements of their own, take elements of the caller out of the queues with a
    reason in them, signal its semaphore, unblock it, let its time limit pass - the queues of pollers are sound whenever it stops, and when it
    returns the caller is linked nowhere and waits for nothing.  The result
    is the number of entries that were answered, each of them marked, when there are
    any; without any, a poll without a time limit was unblocked by
    somebody, one with a limit was unblocked or timed out, and a conditional one returns 0.  It does not fault but in one
    case, an error of the code: when the time limit has passed already as the task comes to sleep, it is taken out of a queue it is not in,
    by the links of its last wait. *)
Theorem rt_poll_correct cur timeout (R : pst -> pst -> Prop) mem pds s :
  (forall a b, R a b -> poll_rely cur a b) ->
  poll_pre cur s -> Forall (pollable (rt_poll_ofstfun s)) pds ->
  if (mem.1 && mem.2) || (zlen pds =? 0) then
    wp_or (too_late cur (cpuid (pk s)) timeout) polls_ok R (_rt_poll mem pds timeout s)
      (fun r s' => poll_post cur timeout pds r.1 r.2 s')
  else exists s', _rt_poll mem pds timeout s = Done (ENOMEM, pds) s' /\ pollqs s' = pollqs s /\ elemtask s' = elemtask s /\
    tasks (pk s') = tasks (pk s).
Proof.
  intros HR Hpre Hpds. unfold _rt_poll. cbv zeta. rewrite (pp_current _ _ Hpre).
  pose proof (poll_runs cur timeout R pds s HR Hpre Hpds) as Hrun. cbv zeta in Hrun.
  pose proof (zlen_nonneg pds) as Hz.
  destruct mem as [[] []]; cbn [fst snd negb andb orb]; [done| | |].
  all: destruct (Z.eqb_spec (zlen pds) 0) as [E0|E0].
  1, 3, 5: rewrite (proj2 (Z.ltb_ge 0 (zlen pds))) in Hrun |- * by lia; done.
  all: rewrite (proj2 (Z.ltb_lt 0 (zlen pds))) by lia; eexists; by split_and!.
Qed.

(** ** The others *)

#[export] Instance poll_rely_preorder cur : PreOrder (poll_rely cur).
Proof.
  split.
  - intros s. by split.
  - intros a b c [] []. split; try solve [congruence|auto].
    + intros H0 H1. destruct (decide (pwait b cur = 0)) as [E|E].
      * destruct (pr_wait0 H0 E) as (i & Hi & p & Hp). exists i. split; [done|]. exists p. auto.
      * destruct (pr_wait1 E H1) as (i & [q Hq] & Ht). exists i. split; [|done]. exists q. auto.
    + intros H0 H1. destruct (decide (blocked_on (tasks (pk b) cur) = NULL)) as [E|E].
      * destruct (pr_blocked0 H0 E) as (i & Hi & p & Hp). exists i. split; [done|]. exists p. auto.
      * destruct (pr_blocked1 E H1) as (i & [q Hq] & Ht). exists i. split; [|done]. exists q. auto.
Qed.

(** The sections of the others: a waker takes an element out; another poller
    begins, links an element or finds an object ready, unlinks, goes to sleep and
    leaves; and what the kernel does that neither blocks the caller nor lets it go. *)
Inductive other_step (cur : tid) (s : pst) : pst -> Prop :=
| os_wake q reason m s' : wake_poller q reason s = Some (m, s') -> other_step cur s s'
| os_start t : t <> cur ->
    other_step cur s (set_pwait t 1 (upd_pk (qset (QPoll t) []) s))
| os_link t i q s' : t <> cur -> (forall q', (t, i) ∉ pollqs s q') -> link_elem t i q s = Some s' ->
    other_step cur s s'
| os_ready t i : t <> cur -> (forall q', (t, i) ∉ pollqs s q') -> other_step cur s (set_elem t i (Val NULL) s)
| os_unlink t i q : t <> cur -> other_step cur s (unlink_elem t i q s)
| os_sleep t : t <> cur -> other_step cur s (upd_pk (enqueue_blocked t (QPoll t) 1) s)
| os_leave t : t <> cur -> other_step cur s (upd_pk (dequeue_blocked t) s)
| os_kernel k : (forall t, queues k (QPoll t) = queues (pk s) (QPoll t)) ->
    (blocked_on (tasks k cur) = NULL <-> blocked_on (tasks (pk s) cur) = NULL) -> other_step cur s (set_pk k s).

Lemma dequeue_queues t k q : queues (dequeue_blocked t k) q = unlink t (queues k q).
Proof. done. Qed.
Lemma dequeue_blocked_on t k x :
  blocked_on (tasks (dequeue_blocked t k) x) = (if decide (x = t) then NULL else blocked_on (tasks k x)).
Proof.
  cbn. destruct (decide (x = t)) as [->|Hx]; [by rewrite fn_lookup_insert|].
  by rewrite !fn_lookup_insert_ne by congruence.
Qed.

(** What the signal to a poller's semaphore changes. *)
Lemma poll_signal_spec t s : polls_ok s -> exists k, (rt_poll_signal t s).2 = set_pwait t 0 (set_pk k s) /\
  (forall q x, x ∈ queues k q -> x ∈ queues (pk s) q) /\
  (((forall x, blocked_on (tasks k x) = blocked_on (tasks (pk s) x)) /\ queues k = queues (pk s)) \/
   (t ∉ queues k (QPoll t) /\
    forall x, blocked_on (tasks k x) = (if decide (x = t) then NULL else blocked_on (tasks (pk s) x)))).
Proof.
  intros Hok. unfold rt_poll_signal. cbn [pk set_pwait]. destruct (first_task (QPoll t) (pk s)) as [x|] eqn:Ex.
  - assert (x = t) as -> by (eapply (own_queue s Hok), head_Some_elem_of, Ex).
    set (k1 := dequeue_blocked t (pk s)). set (k2 := rem_timed_task t k1).
    pose proof (keeps_unblock POLL_MASK t k2) as Hu. destruct (unblock POLL_MASK t k2) as [w k3]. cbn [snd] in *.
    assert (keeps k1 k3) as Hk by (etrans; [apply keeps_rem_timed|exact Hu]).
    exists k3. split; [done|]. rewrite (k_queues _ _ Hk). unfold k1. split.
    + intros q x. rewrite dequeue_queues. unfold unlink. rewrite list_elem_of_filter. tauto.
    + right. split.
      * rewrite dequeue_queues. unfold unlink. rewrite list_elem_of_filter. tauto.
      * intros x. rewrite (k_blocked _ _ Hk). apply dequeue_blocked_on.
  - exists (pk s). split; [by destruct s|]. split; [done|]. by left.
Qed.


Lemma wake_rely cur q reason m s s' : polls_ok s -> wake_poller q reason s = Some (m, s') ->
  poll_rely cur s s'.
Proof.
  intros Hok. unfold wake_poller. destruct (pollqs s q) as [|[t i] l] eqn:Eq; [done|].
  destruct (elemtask s t i) eqn:Et; [|done]. set (s1 := set_pollq q l _). intros [= Hs].
  assert ((t, i) ∈ pollqs s q) as Hin by (rewrite Eq; apply list_elem_of_here).
  pose proof (once s Hok q) as Hnd. rewrite Eq in Hnd. apply NoDup_cons in Hnd as [Hnl Hnd].
  assert (forall q' e, e ∈ pollqs s1 q' -> e ∈ pollqs s q' /\ e <> (t, i)) as Hsub.
  { intros q' e. unfold s1. destruct (decide (q' = q)) as [->|Hq].
    - rewrite pollq_same, Eq. intros He. split; [by apply list_elem_of_further|]. by intros ->.
    - rewrite pollq_other by done. intros He. split; [done|]. intros ->. by apply Hq, (one_queue s Hok q' q (t, i)). }
  assert (polls_ok s1) as Hok1.
  { split; [| | |apply Hok].
    - intros q' [t' j] [He Hne]%Hsub. unfold s1. cbn [fst snd]. change (elemtask (set_pollq q l ?x)) with (elemtask x).
      rewrite elem_other by done. apply (at_sem s Hok q' (t', j) He).
    - intros q'. unfold s1. destruct (decide (q' = q)) as [->|]; [by rewrite pollq_same|].
      rewrite pollq_other by done. apply Hok.
    - intros q1 q2 e [H1 _]%Hsub [H2 _]%Hsub. exact (one_queue s Hok q1 q2 e H1 H2). }
  assert (forall j p, elemtask s cur j = Val p -> elemtask s1 cur j = Val p) as Htold.
  { intros j p Hj. unfold s1. change (elemtask (set_pollq q l ?x)) with (elemtask x).
    rewrite elem_other; [done|]. intros [= -> ->]. congruence. }
  assert (t = cur -> exists i, linked cur s i /\ told cur s1 i) as Hmine.
  { intros ->. exists i. split; [by exists q|]. eexists. apply elem_same. }
  destruct (poll_signal_spec t s1 Hok1) as (k & Ek & Hq & Hb).
  assert (s' = set_pwait t 0 (set_pk k s1)) as -> by (rewrite <- Ek, Hs; done).
  split; try done.
  - intros _. destruct Hok1. split; try done. intros t' x Hx%Hq. by apply own_queue0.
  - intros q' j Hj. by apply Hsub in Hj as [? _].
  - cbn. intros H0 H1. apply Hmine. destruct (decide (cur = t)) as [->|]; [done|].
    by rewrite fn_lookup_insert_ne in H1 by congruence.
  - unfold off_queue. cbn. intros Hoff Hn Hc. destruct Hb as [[Hb2 Hb1]|[Hb1 Hb2]].
    + rewrite Hb2 in Hn. rewrite Hb1 in Hc. by apply Hoff.
    + rewrite Hb2 in Hn. destruct (decide (cur = t)) as [->|]; [done|]. by apply Hoff, Hq.
  - cbn. intros Hf. destruct Hb as [[Hb _]|[_ Hb]]; rewrite Hb; [done|by destruct (decide _)].
  - cbn. intros Hf. destruct Hb as [[Hb _]|[_ Hb]]; rewrite Hb; [done|].
    destruct (decide (cur = t)) as [->|]; [|done]. auto.
Qed.

(** Steps that only change the kernel's state, or only elements of another poller. *)
Lemma pk_rely cur k s :
  (forall t x, x ∈ queues k (QPoll t) -> (x = t /\ t <> cur) \/ x ∈ queues (pk s) (QPoll t)) ->
  (blocked_on (tasks k cur) = NULL <-> blocked_on (tasks (pk s) cur) = NULL) ->
  poll_rely cur s (set_pk k s).
Proof.
  intros Hq Hb. split; try done; unfold off_queue; cbn; try tauto.
  - intros []. split; try done. intros t x [[-> _]|Hx]%Hq; [done|]. by apply own_queue0.
  - intros Ho Hn [[_ ?]|Hc]%Hq; [done|]. apply Ho; [tauto|done].
Qed.
Lemma polls_rely cur s s' : pk s' = pk s -> pwait s' cur = pwait s cur -> rt_poll_ofstfun s' = rt_poll_ofstfun s ->
  (polls_ok s -> polls_ok s') -> (forall q i, (cur, i) ∈ pollqs s' q -> (cur, i) ∈ pollqs s q) ->
  (forall i, elemtask s' cur i = elemtask s cur i) -> poll_rely cur s s'.
Proof.
  intros Hk Hw Hf Hok Hq He. split; try done; unfold off_queue; rewrite ?Hk; try done; try congruence.
Qed.

Lemma polls_sub s s' : pk s' = pk s -> elemtask s' = elemtask s ->
  (forall q, NoDup (pollqs s q) -> NoDup (pollqs s' q)) -> (forall q e, e ∈ pollqs s' q -> e ∈ pollqs s q) ->
  polls_ok s -> polls_ok s'.
Proof.
  intros Hk He Hnd Hq []. split; rewrite ?Hk, ?He; auto.
  - intros q e Hin. by apply (at_sem0 q), Hq.
  - intros q q' e H1 H2. by apply (one_queue0 q q' e); apply Hq.
Qed.

Lemma step_rely cur s s' : polls_ok s -> other_step cur s s' -> poll_rely cur s s'.
Proof.
  intros Hok Hs. destruct Hs as [q reason m s' Hw|t Ht|t i q s' Ht Hni Hl|t i Ht Hni|t i q Ht|t Ht|t Ht|k Hq Hb].
  - by eapply wake_rely.
  - change (set_pwait t 1 ?x) with (set_pwait t 1 (set_pk (pk x) x)). etrans.
    + apply (pk_rely cur (qset (QPoll t) [] (pk s))); [|done]. intros t' x. cbn.
      destruct (decide (t' = t)) as [->|]; [rewrite fn_lookup_insert|rewrite fn_lookup_insert_ne by congruence; auto].
      by intros ?%not_elem_of_nil.
    + split; try done; cbn; try (rewrite fn_lookup_insert_ne by congruence; tauto). by intros [].
  - destruct (link_elem_ok t i q s Hok Hni) as (s1 & E & Hk & Hw & Hf & Hall & Hin & Hel).
    rewrite Hl in E. injection E as <-. apply polls_rely; try done; [by rewrite Hw| |].
    + intros q' j [[_ [=]]|?]%Hin; done.
    + intros j. rewrite Hel, elem_other; [done|]. by intros [= <- _].
  - apply polls_rely; try done.
    + intros []. split; try done. intros q [t' j] He. cbn [fst snd]. rewrite elem_other; [by apply (at_sem0 q (t', j))|].
      intros [= -> ->]. by apply Hni in He.
    + intros j. apply elem_other. by intros [= <- _].
  - unfold unlink_elem. destruct (elemtask s t i); [|done]. set (s1 := set_pollq _ _ s).
    assert (forall q' e, e ∈ pollqs s1 q' -> e ∈ pollqs s q') as Hsub.
    { intros q' e. unfold s1. destruct (decide (q' = q)) as [->|]; [|by rewrite pollq_other].
      rewrite pollq_same, list_elem_of_filter. tauto. }
    apply polls_rely; try done; [|intros; by apply Hsub]. apply polls_sub; try done.
    intros q'. unfold s1. destruct (decide (q' = q)) as [->|]; [rewrite pollq_same|by rewrite pollq_other].
    apply NoDup_filter.
  - apply pk_rely; cbn.
    + intros t' x. destruct (decide (t' = t)) as [->|]; [rewrite fn_lookup_insert|rewrite fn_lookup_insert_ne by congruence; auto].
      rewrite elem_of_app, list_elem_of_singleton. tauto.
    + by rewrite fn_lookup_insert_ne by congruence.
  - apply pk_rely.
    + intros t' x. rewrite dequeue_queues. unfold unlink. rewrite list_elem_of_filter. tauto.
    + rewrite dequeue_blocked_on. destruct (decide (cur = t)); [congruence|done].
  - apply pk_rely; [|done]. intros t x. rewrite Hq. auto.
Qed.

(** C37. What a poller counts on is what the sections of the others do: any sequence
    of them, from a state in which the queues of pollers are sound, keeps the promises
    the theorem on the service asks for, and leaves the queues sound. *)
Theorem others_keep_promises cur s s' : polls_ok s -> rtc (other_step cur) s s' ->
  poll_rely cur s s' /\ polls_ok s'.
Proof.
  intros Hok Hs. revert Hok. induction Hs as [s|s s1 s2 H1 H2 IH]; intros Hok; [done|].
  pose proof (step_rely cur s s1 Hok H1) as Hr. destruct (IH (pr_at_sem _ _ _ Hr Hok)) as [Hr2 Hok2].
  split; [by etrans|done].
Qed.

(** ** Examples *)

(** Task 1 polls; mailbox 0 and mailbox 1 have four bytes of room and are empty. *)
Definition ex_poll : pst :=
  __rtai_sem_init (__rtai_mbx_init
    (polled_mbx_init 1 4 2 (Some (repeat Byte.x00 4))
      (polled_mbx_init 0 4 2 (Some (repeat Byte.x00 4))
        (MkPst (set_smp_current (fun _ => Tsk 1)
                  (rset 0 [Tsk 1] (set_tasks (fun t => set_is_hard 1 (tasks idle_kst t)) idle_kst)))
           (fun _ => []) (fun _ _ => AtSem) (fun _ => 0) (fun _ => None))).2).2).
Definition ex_recv (m : nat) := MkPollS (PMbx m) RT_POLL_MBX_RECV.
Definition ex_send (m : nat) := MkPollS (PMbx m) RT_POLL_MBX_SEND.

(** Task 2 runs a service while the poller has stopped. *)
Definition run_as {A} (r : pst -> res pst A) (s : pst) : pst :=
  let cur := rt_current (pk s) in
  match run 30 (fun _ s => s) (r (upd_pk (set_current (Tsk 2)) s)) with
  | Some (_, s) => upd_pk (set_current cur) s
  | None => s
  end.
Definition ex_sender (s : pst) : pst := run_as (polled_mbx_send_if 3 0 [Byte.x2a]) s.
(** The sender comes at stop [n], counted from the end. *)
Definition ex_env (n k : nat) (s : pst) : pst := if (k =? n)%nat then ex_sender s else s.

Lemma ex_poll_queues q : pollqs ex_poll q = [].
Proof. cbn. unfold insert, fn_insert. repeat case_decide; done. Qed.
Lemma ex_poll_waiters q : queues (pk ex_poll) q = [].
Proof. cbn. unfold insert, fn_insert. repeat case_decide; done. Qed.
Lemma ex_poll_ok : polls_ok ex_poll.
Proof.
  split; intros *; rewrite ?ex_poll_queues, ?ex_poll_waiters; try (by intros ?%not_elem_of_nil). constructor.
Qed.
Lemma ex_pollable m : pollable (rt_poll_ofstfun ex_poll) (ex_recv m) /\ pollable (rt_poll_ofstfun ex_poll) (ex_send m).
Proof.
  split; (split; [done|]).
  - by exists recv_blocks, (PollRecv m).
  - by exists send_blocks, (PollSend m).
Qed.

Lemma rt_poll_correct_witness :
  (match run 9 (ex_env 5) (_rt_poll (true, true) [ex_recv 0; ex_recv 1] 0 ex_poll) with
   | Some (r, _) => r = (1, [MkPollS NULL 1; ex_recv 1])
   | None => False
   end) /\
  wp_or (too_late (Tsk 1) 0 0) polls_ok (poll_rely (Tsk 1))
    (_rt_poll (true, true) [ex_recv 0; ex_recv 1] 0 ex_poll)
    (fun r s' => poll_post (Tsk 1) 0 [ex_recv 0; ex_recv 1] r.1 r.2 s').
Proof.
  split; [vm_compute; reflexivity|].
  apply (rt_poll_correct (Tsk 1) 0 (poll_rely (Tsk 1)) (true, true) [ex_recv 0; ex_recv 1] ex_poll).
  - done.
  - split; [reflexivity|apply ex_poll_ok|intros q i; rewrite ex_poll_queues; apply not_elem_of_nil|reflexivity].
  - constructor; [apply ex_pollable|]. constructor; [apply ex_pollable|]. constructor.
Defined.

Lemma others_keep_promises_witness :
  match link_elem (Tsk 1) 0 (PollRecv 0) ex_poll with
  | Some s => match wake_poller (PollRecv 0) 0 s with
              | Some (_, s') => poll_rely (Tsk 1) s s' /\ polls_ok s'
              | None => False
              end
  | None => False
  end.
Proof.
  destruct (link_elem_ok (Tsk 1) 0 (PollRecv 0) ex_poll ex_poll_ok) as (s & E & _ & _ & _ & Hok & Hin & _).
  { intros q. rewrite ex_poll_queues. apply not_elem_of_nil. }
  rewrite E. assert ((Tsk 1, 0%nat) ∈ pollqs s (PollRecv 0)) as H by (apply Hin; by left).
  destruct (wake_poller (PollRecv 0) 0 s) as [[m s']|] eqn:Ew.
  - apply (others_keep_promises (Tsk 1) s s' Hok), rtc_once. by eapply os_wake.
  - unfold wake_poller in Ew. pose proof (at_sem s Hok (PollRecv 0)) as Ha.
    destruct (pollqs s (PollRecv 0)) as [|[t i] l]; [by apply elem_of_nil in H|].
    specialize (Ha (t, i) (list_elem_of_here _ _)). cbn [fst snd] in Ha. by rewrite Ha in Ew.
Defined.

(** The test of an object and the linking of the element are two sections: a
    message that comes between them wakes nobody, and the poller goes to sleep on
    a mailbox with a byte in it. *)
Example lost_wakeup :
  match _rt_poll (true, true) [ex_recv 0] 0 ex_poll with
  | Stop Unlocked s k => match k s with
    | Stop Unlocked s k => match k (ex_sender s) with
      | Stop Unlocked s k => match k s with
        | Stop Resched s _ => blocked_on (tasks (pk s) (Tsk 1)) = PQueue (QPoll (Tsk 1)) /\
                              avbs (mbuf 0 (pk s)) = 1 /\ pollqs s (PollRecv 0) = [(Tsk 1, 0%nat)]
        | _ => False end
      | _ => False end
    | _ => False end
  | _ => False
  end.
Proof. vm_compute. repeat split. Qed.

(** An overwriting send wakes no poller: a poller that waits when it comes goes on waiting. *)
Example ovrwr_send_wakes_nobody :
  match _rt_poll (true, true) [ex_recv 0] 0 ex_poll with
  | Stop _ s k => match k s with
    | Stop _ s k => match k s with
      | Stop _ s k => match k s with
        | Stop Resched s _ => let s' := run_as (polled_mbx_ovrwr_send 0 [Byte.x2a]) s in
            blocked_on (tasks (pk s') (Tsk 1)) = PQueue (QPoll (Tsk 1)) /\
            avbs (mbuf 0 (pk s')) = 1 /\ pollqs s' (PollRecv 0) = [(Tsk 1, 0%nat)]
        | _ => False end
      | _ => False end
    | _ => False end
  | _ => False
  end.
Proof. vm_compute. repeat split. Qed.

(** What [dequeue_blocked] does with links that are no longer the task's: task 2 has left
    the queue, task 4 has come between its old neighbours, and unlinking task 2 again
    takes task 4 out. *)
Example stale_links :
  let k := Queue.unlink_node (inr (Tsk 2)) (Queue.ring_links tt [Tsk 1; Tsk 2; Tsk 3]) in
  let k := Queue.link_before (inr (Tsk 4)) (inr (Tsk 3)) k in
  let k' := Queue.unlink_node (inr (Tsk 2)) k in
  Queue.next k (inr (Tsk 1)) = inr (Tsk 4) /\ Queue.next k' (inr (Tsk 1)) = inr (Tsk 3) /\
  Queue.prev k' (inr (Tsk 3)) = inr (Tsk 1).
Proof. vm_compute. repeat split. Qed.
