(* ===== verification/Registry.v ===== *)
(** * The registry of named objects: api.c.

    Two open-addressing hash tables in one array: each slot holds a name and,
    separately, an address; [alink] and [nlink] join the slot of a name and the
    slot of its address.  0 marks an empty field and 1 a deleted one. *)

From S2P Require Import Prelude Nam2num.

Record entry := MkEntry {
  name : Z; adr : Z; tsk : Z; type : Z; count : Z; alink : Z; nlink : Z
}.
(** [lxrt_list] and [max_slots]; slot 0 is not used. *)
Record registry := MkReg { slots : Z -> entry; max_slots : Z }.

Definition NONAME := 1.
Definition NOADR := 1.
Definition EINVAL := 22.
Definition EFAULT := 14.
Definition hash_fun (m n : Z) : Z := m mod n + 1.
Definition u16 (z : Z) : Z := wrapu 16 z.

Definition eta_entry (e : entry) : entry :=
  MkEntry (name e) (adr e) (tsk e) (type e) (count e) (alink e) (nlink e).
Definition set_name (v : Z) (e : entry) : entry := MkEntry v (adr e) (tsk e) (type e) (count e) (alink e) (nlink e).
Definition set_adr (v : Z) (e : entry) : entry := MkEntry (name e) v (tsk e) (type e) (count e) (alink e) (nlink e).
Definition set_count (v : Z) (e : entry) : entry := MkEntry (name e) (adr e) (tsk e) (type e) v (alink e) (nlink e).
Definition set_alink (v : Z) (e : entry) : entry := MkEntry (name e) (adr e) (tsk e) (type e) (count e) v (nlink e).
Definition set_nlink (v : Z) (e : entry) : entry := MkEntry (name e) (adr e) (tsk e) (type e) (count e) (alink e) v.
Definition eset (f : entry -> entry) (k : Z) (l : Z -> entry) : Z -> entry := <[k := f (l k)]> l.

(** [if (++k > lstlen) k = 1]. *)
Definition next_slot (lstlen k : Z) : Z := if lstlen <? k + 1 then 1 else k + 1.

(** The probe of every operation: from slot [i] on, until a slot satisfies
    [found]; [None] when it is back at [i].  The table has no more slots than
    the turns [n]. *)
Fixpoint probe (n : nat) (found : entry -> bool) (l : Z -> entry) (lstlen i k : Z) : option Z :=
  if found (l k) then Some k
  else
    let k' := next_slot lstlen k in
    if k' =? i then None
    else match n with O => None | S n' => probe n' found l lstlen i k' end.
Definition probe_from (found : entry -> bool) (l : Z -> entry) (lstlen i : Z) : option Z :=
  probe (Z.to_nat lstlen) found l lstlen i i.

(** ** Insertion *)

Definition hash_ins_adr (a : Z) (l : Z -> entry) (lstlen nl : Z) : Z * (Z -> entry) :=
  match probe_from (fun e => negb ((NOADR <? adr e) && negb (adr e =? a))) l lstlen (hash_fun a lstlen) with
  | None => (0, l)
  | Some k =>
      if adr (l k) =? a then (- k, l)
      else (k, eset (set_alink (u16 k)) nl (eset (fun e => set_nlink (u16 nl) (set_adr a e)) k l))
  end.

Definition hash_ins_name (nm a ty lnx : Z) (l : Z -> entry) (lstlen : Z) (inc : bool) : Z * (Z -> entry) :=
  match probe_from (fun e => negb ((NONAME <? name e) && negb (name e =? nm))) l lstlen (hash_fun nm lstlen) with
  | None => (0, l)
  | Some k =>
      if name (l k) =? nm then
        (- k, if inc then eset (fun e => set_count (u16 (count e + 1)) e) k l else l)
      else
        let l := eset (fun e => MkEntry nm (adr e) lnx ty 1 0 (nlink e)) k l in
        let '(r, l) := hash_ins_adr a l lstlen k in
        (if r <=? 0 then 0 else k, l)
  end.

(** ** Search; the second result is [*slot] *)

Definition hash_find_name (nm : Z) (l : Z -> entry) (lstlen : Z) (inc : bool) : Z * option Z * (Z -> entry) :=
  match probe_from (fun e => (name e =? 0) || (name e =? nm)) l lstlen (hash_fun nm lstlen) with
  | None => (0, None, l)
  | Some k =>
      if name (l k) =? nm then
        let l := if inc then eset (fun e => set_count (u16 (count e + 1)) e) k l else l in
        (adr (l (alink (l k))), Some k, l)
      else (0, None, l)
  end.

Definition hash_find_adr (a : Z) (l : Z -> entry) (lstlen : Z) (inc : bool) : Z * (Z -> entry) :=
  match probe_from (fun e => (adr e =? 0) || (adr e =? a)) l lstlen (hash_fun a lstlen) with
  | None => (0, l)
  | Some k =>
      if adr (l k) =? a then
        let l := if inc then eset (fun e => set_count (u16 (count e + 1)) e) (nlink (l k)) l else l in
        (name (l (nlink (l k))), l)
      else (0, l)
  end.

(** ** Removal *)

(** The value a removed field gets: empty when the next slot is, else deleted. *)
Definition tomb_name (l : Z -> entry) (lstlen k : Z) : Z :=
  if name (l (next_slot lstlen k)) =? 0 then 0 else NONAME.
Definition tomb_adr (l : Z -> entry) (lstlen k : Z) : Z :=
  if adr (l (next_slot lstlen k)) =? 0 then 0 else NOADR.

(** [!dec || (count && !--count)]: whether to remove, and the count after. *)
Definition drop_count (dec c : Z) : bool * Z :=
  if dec =? 0 then (true, c)
  else if c =? 0 then (false, c)
  else (c - 1 =? 0, c - 1).

Definition hash_rem_name (nm : Z) (l : Z -> entry) (lstlen dec : Z) : Z * (Z -> entry) :=
  match probe_from (fun e => (name e =? 0) || (name e =? nm)) l lstlen (hash_fun nm lstlen) with
  | None => (0, l)
  | Some k =>
      if name (l k) =? nm then
        let '(rem, c) := drop_count dec (count (l k)) in
        let l := eset (set_count c) k l in
        let l :=
          if rem then
            let l := eset (set_name (tomb_name l lstlen k)) k l in
            let j := alink (l k) in
            if negb (j =? 0) then eset (set_adr (tomb_adr l lstlen j)) j l else l
          else l in
        (if dec =? 0 then k else count (l k), l)
      else (dec, l)
  end.

Definition hash_rem_adr (a : Z) (l : Z -> entry) (lstlen dec : Z) : Z * (Z -> entry) :=
  match probe_from (fun e => (adr e =? 0) || (adr e =? a)) l lstlen (hash_fun a lstlen) with
  | None => (0, l)
  | Some k =>
      if adr (l k) =? a then
        let j := nlink (l k) in
        let '(rem, c) := drop_count dec (count (l j)) in
        let l := eset (set_count c) j l in
        let l :=
          if rem then
            let l := eset (set_adr (tomb_adr l lstlen k)) k l in
            eset (set_name (tomb_name l lstlen j)) j l
          else l in
        (if dec =? 0 then k else count (l j), l)
      else (dec, l)
  end.

(** ** The services *)

Definition with_slots (r : registry) (l : Z -> entry) : registry := MkReg l (max_slots r).

Definition registr (nm a ty lnx : Z) (r : registry) : Z * registry :=
  let '(k, l) := hash_ins_name nm a ty lnx (slots r) (max_slots r) true in
  (Z.abs k, with_slots r l).
Definition get_adr (nm : Z) (r : registry) : Z := (hash_find_name nm (slots r) (max_slots r) false).1.1.
Definition get_adr_cnt (nm : Z) (r : registry) : Z * registry :=
  let '(a, _, l) := hash_find_name nm (slots r) (max_slots r) true in (a, with_slots r l).
Definition rt_register (nm a ty lnx : Z) (r : registry) : Z * registry :=
  if negb (get_adr nm r =? 0) then (0, r) else registr nm a ty lnx r.

Definition rem_name (dec nm : Z) (r : registry) : Z * registry :=
  let '(k, l) := hash_rem_name nm (slots r) (max_slots r) dec in (k, with_slots r l).
Definition rem_adr (dec a : Z) (r : registry) : Z * registry :=
  let '(k, l) := hash_rem_adr a (slots r) (max_slots r) dec in (k, with_slots r l).
Definition drg_on_name := rem_name 0.
Definition drg_on_name_cnt := rem_name (- EFAULT).
Definition drg_on_adr := rem_adr 0.
Definition drg_on_adr_cnt := rem_adr (- EFAULT).

Definition get_type (nm : Z) (r : registry) : Z :=
  match hash_find_name nm (slots r) (max_slots r) false with
  | (a, Some k, _) => if negb (a =? 0) then type (slots r k) else - EINVAL
  | _ => - EINVAL
  end.

(** [get_name]: the name of an address, or for a null one a fresh name out of
    at most ten random draws. *)
Fixpoint fresh_name (n : nat) (irandu : nat -> Z -> Z) (r : registry) : Z :=
  match n with
  | O => 0
  | S n' =>
      let nm := MAX_NAM2NUM + irandu n (0xFFFFFFFF - MAX_NAM2NUM - 2) in
      if get_adr nm r =? 0 then nm else fresh_name n' irandu r
  end.
Definition get_name (irandu : nat -> Z -> Z) (a : Z) (r : registry) : Z :=
  if a =? 0 then fresh_name 10 irandu r else (hash_find_adr a (slots r) (max_slots r) false).1.

Definition rt_get_registry_slot (k : Z) (r : registry) : option entry :=
  if NONAME <? name (slots r k)
  then Some (set_adr (adr (slots r (alink (slots r k)))) (slots r k)) else None.

(** [rt_registry_alloc]: the table has a prime number of slots, the first of
    [primes] for the hundreds of [MAX_SLOTS]. *)
Definition PRIMES_TAB_GRANULARITY := 100.
Definition empty_entry : entry := MkEntry 0 0 0 0 0 0 0.
Definition rt_registry_alloc (MAX_SLOTS : Z) (primes : list Z) (vmalloc : bool) : Z + registry :=
  let i := (MAX_SLOTS + PRIMES_TAB_GRANULARITY - 1) / PRIMES_TAB_GRANULARITY in
  if zlen primes <=? i then inl (-12)
  else if negb vmalloc then inl (-12)
  else inr (MkReg (fun _ => empty_entry) (zget primes i)).
