(* ===== verification/RegistryFacts.v ===== *)
(** * Theorems on the registry: the probe sequence, registration and removal. *)

From S2P Require Import Prelude Nam2num Registry.
From stdpp Require Import list sets.
#[local] Open Scope Z_scope.

(** ** The probe sequence *)

(** How many steps of the probe lead from slot [i] to slot [k]. *)
Definition dist (n i k : Z) : Z := if i <=? k then k - i else k - i + n.
Abbreviation slot n k := (1 <= k <= n).

Ltac dist := unfold dist, next_slot in *; repeat (zcase || (match goal with H : context [if ?b then _ else _] |- _ => zcase_in H end)); lia.

Lemma dist_range n i k : slot n i -> slot n k -> 0 <= dist n i k < n.
Proof. intros. dist. Qed.
Lemma dist_inj n i j k : slot n i -> slot n j -> slot n k -> dist n i j = dist n i k -> j = k.
Proof. intros. dist. Qed.
Lemma next_slot_range n k : slot n k -> slot n (next_slot n k).
Proof. intros. dist. Qed.
Lemma dist_next n i k : slot n i -> slot n k ->
  if next_slot n k =? i then dist n i k = n - 1 else dist n i (next_slot n k) = dist n i k + 1.
Proof. intros. dist. Qed.

(** The slots of the table from [i] on, in the order of the probe. *)
Lemma probe_spec fuel found l n i k :
  slot n i -> slot n k -> n - 1 - dist n i k <= Z.of_nat fuel ->
  match probe fuel found l n i k with
  | Some k' => slot n k' /\ found (l k') = true /\ dist n i k <= dist n i k' /\
      forall j, slot n j -> dist n i k <= dist n i j < dist n i k' -> found (l j) = false
  | None => forall j, slot n j -> dist n i k <= dist n i j -> found (l j) = false
  end.
Proof.
  intros Hi. revert k. induction fuel as [|fuel IH]; intros k Hk Hf; simpl;
    (destruct (found (l k)) eqn:Ef; [split_and!; try done; intros; lia|]);
    pose proof (dist_next n i k Hi Hk) as Hn; destruct (next_slot n k =? i) eqn:En; zbool.
  - intros j Hj Hd. pose proof (dist_range n i j Hi Hj). by rewrite (dist_inj n i j k) by (done || lia).
  - pose proof (dist_range n i _ Hi (next_slot_range n k Hk)). lia.
  - intros j Hj Hd. pose proof (dist_range n i j Hi Hj). by rewrite (dist_inj n i j k) by (done || lia).
  - specialize (IH (next_slot n k) (next_slot_range n k Hk) ltac:(lia)).
    assert (forall j, slot n j -> dist n i k <= dist n i j -> j = k \/ dist n i (next_slot n k) <= dist n i j) as Hs.
    { intros j Hj Hd. destruct (decide (dist n i j = dist n i k)) as [He|]; [left|right; lia].
      by apply (dist_inj n i). }
    destruct (probe fuel found l n i (next_slot n k)) as [k'|].
    + destruct IH as (I1 & I2 & I3 & I4). split; [done|]. split; [done|]. split; [lia|].
      intros j Hj [Hd1 Hd2]. destruct (Hs j Hj Hd1) as [->|]; [done|]. apply I4; [done|lia].
    + intros j Hj Hd. destruct (Hs j Hj Hd) as [->|]; [done|auto].
Qed.

Lemma probe_first found l n i :
  slot n i ->
  match probe_from found l n i with
  | Some k => slot n k /\ found (l k) = true /\
      forall j, slot n j -> dist n i j < dist n i k -> found (l j) = false
  | None => forall j, slot n j -> found (l j) = false
  end.
Proof.
  intros Hi. unfold probe_from.
  assert (dist n i i = 0) as H0 by dist.
  pose proof (probe_spec (Z.to_nat n) found l n i i Hi Hi ltac:(lia)) as Hp.
  destruct (probe _ _ _ _ _ _) as [k|].
  - destruct Hp as (H1 & H2 & _ & H4). split; [done|]. split; [done|].
    intros j Hj Hd. apply H4; [done|]. pose proof (dist_range n i j Hi Hj). lia.
  - intros j Hj. apply Hp; [done|]. pose proof (dist_range n i j Hi Hj). lia.
Qed.

(** ** One open-addressing table

    [proj] is the key field of an entry, the name or the address: 0 in a slot
    that has never been used, 1 in a deleted one. *)
Section table.
Context (proj : entry -> Z) (n : Z) (Hn : 0 < n).
Implicit Types l : Z -> entry.

Lemma hash_slot m : slot n (hash_fun m n).
Proof using Hn. unfold hash_fun. pose proof (Z.mod_pos_bound m n Hn). lia. Qed.
#[local] Hint Resolve hash_slot : core.

(** Each key is in one slot, and no empty slot hides it from its probe. *)
Definition reach l : Prop := forall k, slot n k -> 1 < proj (l k) ->
  forall j, slot n j -> dist n (hash_fun (proj (l k)) n) j < dist n (hash_fun (proj (l k)) n) k ->
    proj (l j) <> 0 /\ proj (l j) <> proj (l k).

Lemma reach_unique l j k : reach l -> slot n j -> slot n k ->
  1 < proj (l k) -> proj (l j) = proj (l k) -> j = k.
Proof using Hn.
  intros Hr Hj Hk H1 He. pose proof (hash_slot (proj (l k))) as Hh.
  destruct (Z.lt_trichotomy (dist n (hash_fun (proj (l k)) n) j) (dist n (hash_fun (proj (l k)) n) k)) as [H|[H|H]].
  - by destruct (Hr k Hk H1 j Hj H).
  - by apply (dist_inj n (hash_fun (proj (l k)) n)).
  - rewrite <- He in H, H1. by destruct (Hr j Hj H1 k Hk H).
Qed.

(** The search of a key. *)
Lemma find_spec l m : reach l -> 1 < m ->
  let r := probe_from (fun e => (proj e =? 0) || (proj e =? m)) l n (hash_fun m n) in
  (forall k, slot n k -> proj (l k) = m -> r = Some k) /\
  ((forall k, slot n k -> proj (l k) <> m) ->
     match r with Some k => slot n k /\ proj (l k) = 0 | None => True end).
Proof using Hn.
  intros Hr Hm r. pose proof (probe_first (fun e => (proj e =? 0) || (proj e =? m)) l n _ (hash_slot m)) as Hp.
  fold r in Hp. split.
  - intros k Hk Hm'. destruct r as [k'|].
    + destruct Hp as (Hk' & Hf & Hb).
      destruct (Z.lt_trichotomy (dist n (hash_fun m n) k') (dist n (hash_fun m n) k)) as [H|[H|H]].
      * rewrite <- Hm' in H, Hm. destruct (Hr k Hk Hm k' Hk' H). lia.
      * by rewrite (dist_inj n (hash_fun m n) k' k).
      * specialize (Hb k Hk H). lia.
    + specialize (Hp k Hk). lia.
  - intros Hno. destruct r as [k'|]; [|done]. destruct Hp as (Hk' & Hf & _).
    split; [done|]. specialize (Hno k' Hk'). lia.
Qed.

(** The slot for a new key. *)
Lemma ins_spec l m : 1 < m -> (forall k, slot n k -> 0 <= proj (l k) /\ proj (l k) <> m) ->
  match probe_from (fun e => negb ((1 <? proj e) && negb (proj e =? m))) l n (hash_fun m n) with
  | Some k => slot n k /\ proj (l k) <= 1 /\
      forall j, slot n j -> dist n (hash_fun m n) j < dist n (hash_fun m n) k -> 1 < proj (l j)
  | None => forall k, slot n k -> 1 < proj (l k)
  end.
Proof using Hn.
  intros Hm Hno.
  pose proof (probe_first (fun e => negb ((1 <? proj e) && negb (proj e =? m))) l n _ (hash_slot m)) as Hp.
  destruct (probe_from _ _ _ _) as [k|].
  - destruct Hp as (Hk & Hf & Hb). split; [done|]. split; [specialize (Hno k Hk); lia|].
    intros j Hj Hd. specialize (Hb j Hj Hd). lia.
  - intros k Hk. specialize (Hp k Hk). lia.
Qed.

Lemma reach_insert l l' m k :
  reach l -> 1 < m -> slot n k -> proj (l k) <= 1 ->
  (forall j, slot n j -> 0 <= proj (l j) /\ proj (l j) <> m) ->
  (forall j, slot n j -> dist n (hash_fun m n) j < dist n (hash_fun m n) k -> 1 < proj (l j)) ->
  proj (l' k) = m -> (forall j, j <> k -> proj (l' j) = proj (l j)) -> reach l'.
Proof using Hn.
  intros Hr Hm Hk Hf Hno Hb Hk' Hj' i Hi Hp j Hj. destruct (decide (i = k)) as [->|Hik].
  - rewrite Hk'. intros Hd. rewrite Hj' by (intros ->; lia).
    specialize (Hb j Hj Hd). specialize (Hno j Hj). lia.
  - rewrite (Hj' i Hik) in *. intros Hd. destruct (decide (j = k)) as [->|Hjk].
    + rewrite Hk'. specialize (Hno i Hi). lia.
    + rewrite (Hj' j Hjk). by apply Hr.
Qed.

(** A removed key becomes a tombstone, or empty when the next slot is. *)
Lemma reach_remove l l' k v :
  reach l -> slot n k -> 1 < proj (l k) ->
  v = (if proj (l (next_slot n k)) =? 0 then 0 else 1) ->
  proj (l' k) = v -> (forall j, j <> k -> proj (l' j) = proj (l j)) -> reach l'.
Proof using Hn.
  intros Hr Hk Hp1 Hv Hk' Hj' i Hi Hp j Hj. destruct (decide (i = k)) as [->|Hik].
  { rewrite Hk' in Hp. destruct (_ =? 0); lia. }
  rewrite (Hj' i Hik) in *. set (h := hash_fun (proj (l i)) n). intros Hd.
  destruct (decide (j = k)) as [->|Hjk]; [|rewrite (Hj' j Hjk); by apply Hr].
  rewrite Hk'. split; [|destruct (_ =? 0); lia].
  destruct (proj (l (next_slot n k)) =? 0) eqn:E; zbool; [|lia]. exfalso.
  pose proof (hash_slot (proj (l i))) as Hh. fold h in Hh.
  pose proof (dist_next n h k Hh Hk) as Hn'. pose proof (dist_range n h i Hh Hi).
  destruct (next_slot n k =? h) eqn:Eh; zbool; [lia|].
  pose proof (next_slot_range n k Hk) as Hs.
  destruct (decide (next_slot n k = i)) as [He|He]; [rewrite He in E; lia|].
  assert (dist n h (next_slot n k) <> dist n h i) by (intros Hc; by apply (dist_inj n h) in Hc).
  destruct (Hr i Hi Hp (next_slot n k) Hs) as [Hz _]; [fold h; lia|done].
Qed.
End table.

(** ** The registry as a whole *)

Record reg_ok (r : registry) : Prop := {
  ro_size : 1 <= max_slots r < 2 ^ 16;
  ro_names : reach name (max_slots r) (slots r);
  ro_adrs : reach adr (max_slots r) (slots r);
  ro_pos : forall k, slot (max_slots r) k -> 0 <= name (slots r k) /\ 0 <= adr (slots r k);
  ro_alink : forall k, slot (max_slots r) k -> 1 < name (slots r k) ->
    let j := alink (slots r k) in
    slot (max_slots r) j /\ 1 < adr (slots r j) /\ nlink (slots r j) = k;
  ro_nlink : forall j, slot (max_slots r) j -> 1 < adr (slots r j) ->
    let k := nlink (slots r j) in
    slot (max_slots r) k /\ 1 < name (slots r k) /\ alink (slots r k) = j
}.

Lemma ro_some r : reg_ok r -> 0 < max_slots r.
Proof. intros [[? _] _ _ _ _ _]. lia. Qed.

(** The abstract contents: the name [nm] stands for the address [a]. *)
Definition binds (r : registry) (nm a : Z) : Prop :=
  exists k, slot (max_slots r) k /\ 1 < nm /\ name (slots r k) = nm /\
    adr (slots r (alink (slots r k))) = a.

Lemma binds_slot r nm a : reg_ok r -> binds r nm a -> exists k j,
  slot (max_slots r) k /\ slot (max_slots r) j /\ 1 < nm /\ 1 < a /\
  name (slots r k) = nm /\ adr (slots r j) = a /\
  alink (slots r k) = j /\ nlink (slots r j) = k.
Proof.
  intros [] (k & Hk & Hnm & Hn & Ha). destruct (ro_alink0 k Hk) as (H1 & H2 & H3); [lia|].
  exists k, (alink (slots r k)). split_and!; try done; lia.
Qed.

(** A free name slot comes with a free address slot: names and addresses are
    linked one to one. *)
Lemma free_adr_slot r k : reg_ok r -> slot (max_slots r) k -> name (slots r k) <= 1 ->
  exists j, slot (max_slots r) j /\ adr (slots r j) <= 1.
Proof.
  intros Hok Hk Hfree. set (n := max_slots r) in *. set (L := seqZ 1 n).
  destruct (decide (Exists (fun j => adr (slots r j) <= 1) L)) as [He|He].
  { apply list.Exists_exists in He as (j & Hj%elem_of_seqZ & ?). exists j. split; [lia|done]. }
  exfalso. assert (forall j, slot n j -> 1 < adr (slots r j)) as Hall.
  { intros j Hj. destruct (decide (1 < adr (slots r j))); [done|]. exfalso. apply He.
    apply list.Exists_exists. exists j. split; [apply elem_of_seqZ|]; lia. }
  set (f := fun j => nlink (slots r j)).
  assert (NoDup (f <$> L)) as Hnd.
  { apply NoDup_fmap_2_strong; [|apply NoDup_seqZ]. intros x y Hx%elem_of_seqZ Hy%elem_of_seqZ Hxy.
    destruct (ro_nlink r Hok x ltac:(lia) (Hall x ltac:(lia))) as (_ & _ & <-).
    destruct (ro_nlink r Hok y ltac:(lia) (Hall y ltac:(lia))) as (_ & _ & <-).
    unfold f in Hxy. by rewrite Hxy. }
  assert (f <$> L ⊆+ filter (fun i => i <> k) L) as Hsub.
  { apply NoDup_submseteq; [done|]. intros i Hi. apply list_elem_of_fmap in Hi as (j & -> & Hj%elem_of_seqZ).
    destruct (ro_nlink r Hok j ltac:(lia) (Hall j ltac:(lia))) as (Hs & Hn & _).
    apply list_elem_of_filter. split; [intros Hc; unfold f in Hc; rewrite Hc in Hn; lia|].
    apply elem_of_seqZ. unfold f. fold n in Hs. lia. }
  apply submseteq_length in Hsub. rewrite length_fmap in Hsub.
  assert (k ∈ L) as Hin by (apply elem_of_seqZ; lia).
  assert (forall (M : list Z), k ∈ M -> (length (filter (fun i => i <> k) M) < length M)%nat) as Hlt.
  { clear. induction M as [|x M IH]; [by intros ?%elem_of_nil|]. rewrite filter_cons.
    intros [->|H]%elem_of_cons.
    - case_decide; [done|]. pose proof (length_filter (fun i => i <> x) M). simpl. lia.
    - specialize (IH H). case_decide; simpl; lia. }
  specialize (Hlt L Hin). lia.
Qed.

(** What two slot functions that differ by one registration look like. *)
Record inserted (nm a k j : Z) (l l' : Z -> entry) : Prop := {
  in_name : forall i, name (l' i) = if decide (i = k) then nm else name (l i);
  in_adr : forall i, adr (l' i) = if decide (i = j) then a else adr (l i);
  in_alink : forall i, alink (l' i) = if decide (i = k) then j else alink (l i);
  in_nlink : forall i, nlink (l' i) = if decide (i = j) then k else nlink (l i)
}.

Lemma u16_small z : 0 <= z < 2 ^ 16 -> u16 z = z.
Proof. apply wrapu_small. Qed.

(** The two insertions of a registration. *)
Lemma hash_ins_name_new r nm a ty lnx inc :
  reg_ok r -> 1 < nm -> 1 < a -> (forall a', ~ binds r nm a') -> (forall nm', ~ binds r nm' a) ->
  (exists k j l', slot (max_slots r) k /\ slot (max_slots r) j /\
     hash_ins_name nm a ty lnx (slots r) (max_slots r) inc = (k, l') /\
     inserted nm a k j (slots r) l' /\
     reach name (max_slots r) l' /\ reach adr (max_slots r) l' /\
     name (slots r k) <= 1 /\ adr (slots r j) <= 1 /\ type (l' k) = ty /\ count (l' k) = 1) \/
  ((forall k, slot (max_slots r) k -> 1 < name (slots r k)) /\
   hash_ins_name nm a ty lnx (slots r) (max_slots r) inc = (0, slots r)).
Proof.
  intros Hok Hnm Ha Hno1 Hno2. pose proof Hok as [Hsz Hrn Hra Hpos Hal Hnl].
  assert (forall k, slot (max_slots r) k -> 0 <= name (slots r k) /\ name (slots r k) <> nm) as Hn1.
  { intros k Hk. split; [by apply Hpos|]. intros Hc. eapply Hno1. by exists k. }
  assert (forall j, slot (max_slots r) j -> 0 <= adr (slots r j) /\ adr (slots r j) <> a) as Ha1.
  { intros j Hj. split; [by apply Hpos|]. intros Hc. destruct (Hnl j Hj) as (K1 & K2 & K3); [lia|].
    eapply Hno2. exists (nlink (slots r j)). by rewrite K3. }
  unfold hash_ins_name. pose proof (ins_spec name (max_slots r) ltac:(lia) (slots r) nm Hnm Hn1) as Hp1.
  change NONAME with 1.
  destruct (probe_from _ (slots r) (max_slots r) (hash_fun nm (max_slots r))) as [k|]; [left|by right].
  destruct Hp1 as (Hk & Hkf & Hkb). destruct (Hn1 k Hk) as [_ Hkn].
  rewrite (proj2 (Z.eqb_neq _ _) Hkn). cbv zeta.
  set (l1 := eset (fun e => MkEntry nm (adr e) lnx ty 1 0 (nlink e)) k (slots r)).
  assert (forall i, adr (l1 i) = adr (slots r i)) as Hl1.
  { intros i. unfold l1, eset, insert, fn_insert. by case_decide; subst. }
  assert (forall i, name (l1 i) = if decide (i = k) then nm else name (slots r i)) as Hl1n.
  { intros i. unfold l1, eset, insert, fn_insert. by repeat case_decide; subst. }
  unfold hash_ins_adr.
  pose proof (ins_spec adr (max_slots r) ltac:(lia) l1 a Ha) as Hp2. change NOADR with 1.
  specialize (Hp2 ltac:(intros i Hi; rewrite Hl1; by apply Ha1)).
  destruct (probe_from _ l1 (max_slots r) (hash_fun a (max_slots r))) as [j|].
  2:{ destruct (free_adr_slot r k Hok Hk Hkf) as (j & Hj & Hjf). specialize (Hp2 j Hj). rewrite Hl1 in Hp2. lia. }
  destruct Hp2 as (Hj & Hjf & Hjb). rewrite Hl1 in Hjf. setoid_rewrite Hl1 in Hjb. destruct (Ha1 j Hj) as [_ Hja].
  rewrite Hl1, (proj2 (Z.eqb_neq _ _) Hja), !u16_small by lia.
  rewrite (proj2 (Z.leb_gt j 0)) by lia.
  set (l2 := eset _ k (eset _ j l1)). exists k, j, l2.
  assert (inserted nm a k j (slots r) l2) as Hins.
  { split; intros i; unfold l2, l1, eset, insert, fn_insert; repeat (case_decide; subst; try done). }
  assert (type (l2 k) = ty /\ count (l2 k) = 1) as [Et Ec].
  { clear. unfold l2, l1, eset, insert, fn_insert. repeat (case_decide; subst; try done). }
  split_and!; try done; try lia.
  - apply (reach_insert name (max_slots r) ltac:(lia) (slots r) l2 nm k); try done.
    + rewrite (in_name _ _ _ _ _ _ Hins). by rewrite decide_True.
    + intros i Hi. rewrite (in_name _ _ _ _ _ _ Hins). by rewrite decide_False.
  - apply (reach_insert adr (max_slots r) ltac:(lia) (slots r) l2 a j); try done.
    + rewrite (in_adr _ _ _ _ _ _ Hins). by rewrite decide_True.
    + intros i Hi. rewrite (in_adr _ _ _ _ _ _ Hins). by rewrite decide_False.
Qed.

Lemma inserted_ok r nm a k j l' :
  reg_ok r -> 1 < nm -> 1 < a -> inserted nm a k j (slots r) l' ->
  slot (max_slots r) k -> slot (max_slots r) j -> name (slots r k) <= 1 -> adr (slots r j) <= 1 ->
  reach name (max_slots r) l' -> reach adr (max_slots r) l' ->
  reg_ok (with_slots r l') /\
  forall nm' a', binds (with_slots r l') nm' a' <-> binds r nm' a' \/ (nm' = nm /\ a' = a).
Proof.
  intros Hok Hnm Ha [In Ia Il Ik] Hk Hj Hkf Hjf Hrn Hra. pose proof Hok as [Hsz _ _ Hpos Hal Hnl].
  assert (forall i, slot (max_slots r) i -> 1 < name (slots r i) -> i <> k /\ alink (slots r i) <> j) as Hold.
  { intros i Hi Hn. split; [intros ->; lia|]. destruct (Hal i Hi Hn) as (_ & ? & _). intros Hc. rewrite Hc in *. lia. }
  assert (forall i, slot (max_slots r) i -> 1 < adr (slots r i) -> i <> j /\ nlink (slots r i) <> k) as Hold'.
  { intros i Hi Hn. split; [intros ->; lia|]. destruct (Hnl i Hi Hn) as (_ & ? & _). intros Hc. rewrite Hc in *. lia. }
  split.
  - split; cbn; try done.
    + intros i Hi. rewrite In, Ia. destruct (Hpos i Hi). repeat case_decide; lia.
    + intros i Hi. rewrite In, Il. case_decide as Hik.
      * rewrite Ia, Ik, !decide_True by done. subst. done.
      * intros Hn. destruct (Hold i Hi Hn). rewrite Ia, Ik, !decide_False by done. by apply Hal.
    + intros i Hi. rewrite Ia, Ik. case_decide as Hij.
      * rewrite In, Il, !decide_True by done. subst. done.
      * intros Hn. destruct (Hold' i Hi Hn). rewrite In, Il, !decide_False by done. by apply Hnl.
  - intros nm' a'. split.
    + intros (i & Hi & Hn & Hni & Hai). cbn in *. rewrite In in Hni. rewrite Il in Hai. case_decide as Hik.
      * rewrite Ia, decide_True in Hai by done. by right.
      * left. destruct (Hold i Hi); [lia|]. rewrite Ia, decide_False in Hai by done. by exists i.
    + intros [(i & Hi & Hn & Hni & Hai)|[-> ->]].
      * destruct (Hold i Hi); [lia|]. exists i. cbn. rewrite In, Il, !decide_False, Ia, decide_False by done. done.
      * exists k. cbn. rewrite In, Il, !decide_True, Ia, decide_True by done. done.
Qed.

(** [get_adr] and [get_name] read the contents. *)
Lemma get_adr_binds r nm a : reg_ok r -> binds r nm a -> get_adr nm r = a.
Proof.
  intros Hok (k & Hk & Hnm & Hn & Ha). pose proof Hok as [Hsz Hrn _ _ _ _].
  unfold get_adr, hash_find_name.
  destruct (find_spec name (max_slots r) ltac:(lia) (slots r) nm Hrn Hnm) as [Hf _].
  cbv zeta in Hf. rewrite (Hf k Hk Hn), Hn, Z.eqb_refl. done.
Qed.

Lemma get_adr_none r nm : reg_ok r -> 1 < nm -> (forall a, ~ binds r nm a) -> get_adr nm r = 0.
Proof.
  intros Hok Hnm Hno. pose proof Hok as [Hsz Hrn _ _ _ _]. unfold get_adr, hash_find_name.
  destruct (find_spec name (max_slots r) ltac:(lia) (slots r) nm Hrn Hnm) as [_ Hf].
  cbv zeta in Hf. specialize (Hf ltac:(intros k Hk Hc; eapply Hno; by exists k)).
  destruct (probe_from _ _ _ _) as [k|]; [|done]. destruct Hf as [_ Hz].
  rewrite Hz, (proj2 (Z.eqb_neq 0 nm)) by lia. done.
Qed.

Lemma get_name_binds irandu r nm a : reg_ok r -> binds r nm a -> get_name irandu a r = nm.
Proof.
  intros Hok Hb. destruct (binds_slot r nm a Hok Hb) as (k & j & Hk & Hj & Hnm & Ha & Hn & Haj & Hal & Hnl).
  pose proof Hok as [Hsz _ Hra _ _ _]. unfold get_name, hash_find_adr.
  rewrite (proj2 (Z.eqb_neq a 0)) by lia.
  destruct (find_spec adr (max_slots r) ltac:(lia) (slots r) a Hra Ha) as [Hf _].
  cbv zeta in Hf. rewrite (Hf j Hj Haj), Haj, Z.eqb_refl. cbn. by rewrite Hnl.
Qed.

(** C14.  Registration.  For a name and an address that are not registered,
    [rt_register] either finds every slot in use, returns 0 and changes
    nothing, or returns the slot of the new entry; then the registry is well
    formed, [get_adr] of the name is the address, [get_name] of the address is
    the name, and what else is registered stays as it was. *)
Theorem rt_register_correct nm a ty lnx r irandu :
  reg_ok r -> 1 < nm -> 1 < a -> (forall a', ~ binds r nm a') -> (forall nm', ~ binds r nm' a) ->
  let '(k, r') := rt_register nm a ty lnx r in
  (k = 0 /\ r' = r /\ forall i, slot (max_slots r) i -> 1 < name (slots r i)) \/
  (slot (max_slots r) k /\ reg_ok r' /\ get_adr nm r' = a /\ get_name irandu a r' = nm /\
   forall nm' a', binds r' nm' a' <-> binds r nm' a' \/ (nm' = nm /\ a' = a)).
Proof.
  intros Hok Hnm Ha Hno1 Hno2. unfold rt_register, registr.
  rewrite (get_adr_none r nm Hok Hnm Hno1). cbn [Z.eqb negb].
  destruct (hash_ins_name_new r nm a ty lnx true Hok Hnm Ha Hno1 Hno2)
    as [(k & j & l' & Hk & Hj & -> & Hins & Hrn & Hra & Hkf & Hjf & _ & _)|[Hfull ->]].
  - right. destruct (inserted_ok r nm a k j l' Hok Hnm Ha Hins Hk Hj Hkf Hjf Hrn Hra) as [Hok' Hb].
    assert (binds (with_slots r l') nm a) as Hnew by (apply Hb; by right).
    split; [lia|]. split; [done|]. split; [by apply get_adr_binds|]. split; [by apply get_name_binds|done].
  - left. split; [done|]. split; [by destruct r|done].
Qed.

(** Removing the pair of slots [k] and [j]. *)
Lemma removed_ok r nm a k j l' :
  reg_ok r -> slot (max_slots r) k -> slot (max_slots r) j -> 1 < name (slots r k) ->
  alink (slots r k) = j -> name (slots r k) = nm -> adr (slots r j) = a ->
  (forall i, alink (l' i) = alink (slots r i) /\ nlink (l' i) = nlink (slots r i)) ->
  (forall i, i <> k -> name (l' i) = name (slots r i)) ->
  (forall i, i <> j -> adr (l' i) = adr (slots r i)) ->
  name (l' k) = (if name (slots r (next_slot (max_slots r) k)) =? 0 then 0 else 1) ->
  adr (l' j) = (if adr (slots r (next_slot (max_slots r) j)) =? 0 then 0 else 1) ->
  reg_ok (with_slots r l') /\
  forall nm' a', binds (with_slots r l') nm' a' <-> binds r nm' a' /\ nm' <> nm.
Proof.
  intros Hok Hk Hj Hn1 Halk Hnm Ha Hlinks Hn Had Hnk Haj. pose proof Hok as [Hsz Hrn Hra Hpos Hal Hnl].
  destruct (Hal k Hk Hn1) as (_ & Ha1 & Hnlj). rewrite Halk in Ha1, Hnlj.
  assert (forall i, slot (max_slots r) i -> 1 < name (slots r i) -> i <> k -> alink (slots r i) <> j) as Hold.
  { intros i Hi Hni Hik Hc. destruct (Hal i Hi Hni) as (_ & _ & Hb). rewrite Hc in Hb. congruence. }
  assert (name (l' k) <= 1 /\ 0 <= name (l' k) /\ adr (l' j) <= 1 /\ 0 <= adr (l' j)) as Hz.
  { rewrite Hnk, Haj. split_and!; zcases; lia. }
  split.
  - split; cbn; try done.
    + eapply (reach_remove name (max_slots r) ltac:(lia) (slots r) l' k); done.
    + eapply (reach_remove adr (max_slots r) ltac:(lia) (slots r) l' j); done.
    + intros i Hi. destruct (Hpos i Hi). split.
      * destruct (decide (i = k)) as [->|]; [lia|by rewrite Hn].
      * destruct (decide (i = j)) as [->|]; [lia|by rewrite Had].
    + intros i Hi Hni. destruct (Hlinks i) as [-> _].
      destruct (decide (i = k)) as [->|Hik]; [lia|]. rewrite Hn in Hni by done.
      pose proof (Hold i Hi Hni Hik). destruct (Hlinks (alink (slots r i))) as [_ ->].
      rewrite Had by done. by apply Hal.
    + intros i Hi Hai. destruct (Hlinks i) as [_ ->].
      destruct (decide (i = j)) as [->|Hij]; [lia|]. rewrite Had in Hai by done.
      destruct (Hnl i Hi Hai) as (B1 & B2 & B3).
      destruct (decide (nlink (slots r i) = k)) as [Hc|Hc]; [rewrite Hc in B3; congruence|].
      destruct (Hlinks (nlink (slots r i))) as [-> _]. by rewrite Hn.
  - intros nm' a'. split.
    + intros (i & Hi & Hni & Hei & Hai). cbn in *. destruct (decide (i = k)) as [->|Hik]; [lia|].
      rewrite Hn in Hei by done. destruct (Hlinks i) as [Hli _]. rewrite Hli in Hai.
      rewrite Had in Hai by (apply Hold; lia). split; [by exists i|]. intros ->.
      apply Hik. by apply (reach_unique name (max_slots r) ltac:(lia) (slots r)); [done..| |congruence].
    + intros [(i & Hi & Hni & Hei & Hai) Hne]. exists i. cbn.
      assert (i <> k) as Hik by (intros ->; congruence).
      destruct (Hlinks i) as [-> _]. rewrite Hn by done. rewrite Had by (apply Hold; lia). done.
Qed.

(** How often the name [nm] has been asked for. *)
Definition refs (r : registry) (nm c : Z) : Prop :=
  exists k, slot (max_slots r) k /\ name (slots r k) = nm /\ count (slots r k) = c.

(** A change of a count alone. *)
Lemma count_ok r k c : reg_ok r ->
  reg_ok (with_slots r (eset (set_count c) k (slots r))) /\
  forall nm a, binds (with_slots r (eset (set_count c) k (slots r))) nm a <-> binds r nm a.
Proof.
  intros [Hsz Hrn Hra Hpos Hal Hnl]. set (l' := eset (set_count c) k (slots r)).
  assert (forall i, name (l' i) = name (slots r i) /\ adr (l' i) = adr (slots r i) /\
    alink (l' i) = alink (slots r i) /\ nlink (l' i) = nlink (slots r i)) as Hl.
  { intros i. unfold l', eset, insert, fn_insert. by case_decide; subst. }
  split.
  - split; cbn; try done.
    + intros i Hi. destruct (Hl i) as (-> & _). intros Hp j Hj. destruct (Hl j) as (-> & _). by apply Hrn.
    + intros i Hi. destruct (Hl i) as (_ & -> & _). intros Hp j Hj. destruct (Hl j) as (_ & -> & _). by apply Hra.
    + intros i Hi. destruct (Hl i) as (-> & -> & _). by apply Hpos.
    + intros i Hi. destruct (Hl i) as (-> & _ & -> & _). destruct (Hl (alink (slots r i))) as (_ & -> & _ & ->). by apply Hal.
    + intros i Hi. destruct (Hl i) as (_ & -> & _ & ->). destruct (Hl (nlink (slots r i))) as (-> & _ & -> & _). by apply Hnl.
  - intros nm a. split; intros (i & H1 & H2 & H3 & H4); exists i; cbn in *;
      destruct (Hl i) as (Hn & _ & Ha & _); rewrite ?Hn, ?Ha in *;
      destruct (Hl (alink (slots r i))) as (_ & Hx & _); rewrite ?Hx in *; done.
Qed.

(** The entry of a name: its address, type and count. *)
Definition held (r : registry) (nm a ty c : Z) : Prop :=
  exists k, slot (max_slots r) k /\ 1 < nm /\ name (slots r k) = nm /\ adr (slots r (alink (slots r k))) = a /\
    type (slots r k) = ty /\ count (slots r k) = c.

Lemma held_binds r nm a ty c : held r nm a ty c -> binds r nm a.
Proof. intros (k & ? & ? & ? & ? & _). by exists k. Qed.

Lemma drop_count_spec dec c :
  (drop_count dec c).1 = (dec =? 0) || (c =? 1) /\
  (dec <> 0 -> (drop_count dec c).2 = if c =? 0 then 0 else c - 1).
Proof. unfold drop_count. split; [zcases; simpl; lia|]. intros. zcases; simpl; lia. Qed.

(** An update of one slot, seen slot by slot. *)
Lemma eset_at f k l : eset f k l k = f (l k).
Proof. apply fn_lookup_insert. Qed.
Lemma eset_other f k l i : i <> k -> eset f k l i = l i.
Proof. intros. by apply fn_lookup_insert_ne. Qed.
Lemma eset_keep {A} (p : entry -> A) f k l i : (forall e, p (f e) = p e) -> p (eset f k l i) = p (l i).
Proof. intros Hp. unfold eset, insert, fn_insert. case_decide; subst; [apply Hp|done]. Qed.

Lemma count_only k c l : let l' := eset (set_count c) k l in
  count (l' k) = c /\ type (l' k) = type (l k) /\ (forall i, name (l' i) = name (l i)) /\
  (forall i, alink (l' i) = alink (l i) /\ nlink (l' i) = nlink (l i)) /\ (forall i, adr (l' i) = adr (l i)).
Proof. cbv zeta. rewrite eset_at. do 2 (split; [done|]). split_and!; intros; try split; by apply eset_keep. Qed.

Lemma rem_name_spec dec nm a ty c r :
  reg_ok r -> held r nm a ty c ->
  let '(res, r') := rem_name dec nm r in
  reg_ok r' /\ (dec <> 0 -> res = (if c =? 0 then 0 else c - 1)) /\
  if (dec =? 0) || (c =? 1) then
    (forall nm' a', binds r' nm' a' <-> binds r nm' a' /\ nm' <> nm) /\ get_adr nm r' = 0
  else (forall nm' a', binds r' nm' a' <-> binds r nm' a') /\ held r' nm a ty res.
Proof.
  intros Hok Hh. pose proof (held_binds r nm a ty c Hh) as Hb. destruct Hh as (kc & Hkc & _ & Hnc & _ & Hty & Hc).
  destruct (binds_slot r nm a Hok Hb) as (k & j & Hk & Hj & Hnm & Ha & Hn & Haj & Hal & Hnl).
  pose proof Hok as [Hsz Hrn _ _ _ _].
  assert (kc = k) as -> by (apply (reach_unique name (max_slots r) ltac:(lia) (slots r)); [done..|lia|congruence]).
  unfold rem_name, hash_rem_name.
  destruct (find_spec name (max_slots r) ltac:(lia) (slots r) nm Hrn Hnm) as [Hf _]. cbv zeta in Hf.
  rewrite (Hf k Hk Hn), Hn, Z.eqb_refl, Hc. clear Hf.
  destruct (count_ok r k (drop_count dec c).2 Hok) as [Cok Cb].
  destruct (drop_count_spec dec c) as [Hd1 Hd2].
  destruct (drop_count dec c) as [rem c']. cbn [fst snd] in *. subst rem.
  set (l1 := eset (set_count c') k (slots r)) in *.
  destruct (count_only k c' (slots r)) as (Hcc & Ht1 & Hn1 & Hlk & Had1). fold l1 in Hcc, Ht1, Hn1, Hlk, Had1.
  destruct ((dec =? 0) || (c =? 1)) eqn:Er.
  - set (v1 := tomb_name l1 (max_slots r) k). set (l2 := eset (set_name v1) k l1).
    assert (alink (l2 k) = j) as Ej by (unfold l2; by rewrite eset_at, <- Hal, <- (proj1 (Hlk k))).
    rewrite Ej, (proj2 (Z.eqb_neq j 0)) by lia. cbn [negb].
    set (v2 := tomb_adr l2 (max_slots r) j). set (l3 := eset (set_adr v2) j l2).
    destruct (removed_ok r nm a k j l3) as [Rok Rb]; try done; try lia.
    + intros i. unfold l3, l2. split.
      * rewrite !(eset_keep alink) by done. apply Hlk.
      * rewrite !(eset_keep nlink) by done. apply Hlk.
    + intros i Hi. unfold l3, l2. rewrite (eset_keep name), eset_other by done. apply Hn1.
    + intros i Hi. unfold l3, l2. rewrite eset_other, (eset_keep adr) by done. apply Had1.
    + unfold l3, l2. rewrite (eset_keep name), eset_at by done. cbn. unfold v1, tomb_name. by rewrite Hn1.
    + unfold l3. rewrite eset_at. cbn. unfold v2, tomb_adr, l2. by rewrite (eset_keep adr), Had1 by done.
    + split; [done|]. split.
      { intros Hd. rewrite (proj2 (Z.eqb_neq dec 0)) by done. rewrite <- Hd2 by done. rewrite <- Hcc.
        unfold l3, l2. by rewrite !(eset_keep count) by done. }
      split; [done|]. apply get_adr_none; [done|done|]. intros a' Hb'. by apply Rb in Hb' as [_ ?].
  - destruct (dec =? 0) eqn:Ed; [done|]. zbool. split; [done|]. split; [intros _; rewrite Hcc; by apply Hd2|].
    split; [done|]. exists k. cbn. by rewrite Hn1, (proj1 (Hlk k)), Had1, Ht1, Hal.
Qed.

(** The same through the address. *)
Lemma rem_adr_spec dec nm a ty c r :
  reg_ok r -> held r nm a ty c ->
  let '(res, r') := rem_adr dec a r in
  reg_ok r' /\ (dec <> 0 -> res = (if c =? 0 then 0 else c - 1)) /\
  if (dec =? 0) || (c =? 1) then
    (forall nm' a', binds r' nm' a' <-> binds r nm' a' /\ nm' <> nm) /\ get_adr nm r' = 0
  else (forall nm' a', binds r' nm' a' <-> binds r nm' a') /\ held r' nm a ty res.
Proof.
  intros Hok Hh. pose proof (held_binds r nm a ty c Hh) as Hb. destruct Hh as (kc & Hkc & _ & Hnc & _ & Hty & Hc).
  destruct (binds_slot r nm a Hok Hb) as (k & j & Hk & Hj & Hnm & Ha & Hn & Haj & Hal & Hnl).
  pose proof Hok as [Hsz Hrn Hra _ _ _].
  assert (kc = k) as -> by (apply (reach_unique name (max_slots r) ltac:(lia) (slots r)); [done..|lia|congruence]).
  unfold rem_adr, hash_rem_adr.
  destruct (find_spec adr (max_slots r) ltac:(lia) (slots r) a Hra Ha) as [Hf _]. cbv zeta in Hf.
  rewrite (Hf j Hj Haj), Haj, Z.eqb_refl, Hnl, Hc. clear Hf.
  destruct (count_ok r k (drop_count dec c).2 Hok) as [Cok Cb].
  destruct (drop_count_spec dec c) as [Hd1 Hd2].
  destruct (drop_count dec c) as [rem c']. cbn [fst snd] in *. subst rem.
  set (l1 := eset (set_count c') k (slots r)) in *.
  destruct (count_only k c' (slots r)) as (Hcc & Ht1 & Hn1 & Hlk & Had1). fold l1 in Hcc, Ht1, Hn1, Hlk, Had1.
  destruct ((dec =? 0) || (c =? 1)) eqn:Er.
  - set (v2 := tomb_adr l1 (max_slots r) j). set (l2 := eset (set_adr v2) j l1).
    set (v1 := tomb_name l2 (max_slots r) k). set (l3 := eset (set_name v1) k l2).
    destruct (removed_ok r nm a k j l3) as [Rok Rb]; try done; try lia.
    + intros i. unfold l3, l2. split.
      * rewrite !(eset_keep alink) by done. apply Hlk.
      * rewrite !(eset_keep nlink) by done. apply Hlk.
    + intros i Hi. unfold l3, l2. rewrite eset_other, (eset_keep name) by done. apply Hn1.
    + intros i Hi. unfold l3, l2. rewrite (eset_keep adr), eset_other by done. apply Had1.
    + unfold l3. rewrite eset_at. cbn. unfold v1, tomb_name, l2. by rewrite (eset_keep name), Hn1 by done.
    + unfold l3, l2. rewrite (eset_keep adr), eset_at by done. cbn. unfold v2, tomb_adr. by rewrite Had1.
    + split; [done|]. split.
      { intros Hd. rewrite (proj2 (Z.eqb_neq dec 0)) by done. rewrite <- Hd2 by done. rewrite <- Hcc.
        unfold l3, l2. by rewrite !(eset_keep count) by done. }
      split; [done|]. apply get_adr_none; [done|done|]. intros a' Hb'. by apply Rb in Hb' as [_ ?].
  - destruct (dec =? 0) eqn:Ed; [done|]. zbool. split; [done|]. split; [intros _; rewrite Hcc; by apply Hd2|].
    split; [done|]. exists k. cbn. by rewrite Hn1, (proj1 (Hlk k)), Had1, Ht1, Hal.
Qed.

(** Release of a name: [drg_on_name] ([dec = 0]) takes the entry away,
    [drg_on_name_cnt] takes one reference away, and the entry with the last one;
    the removed name is not found any more, every other name and address is
    found as before, and the registry stays well formed. *)
Theorem rem_name_correct dec nm a c r :
  reg_ok r -> binds r nm a -> refs r nm c ->
  let '(res, r') := rem_name dec nm r in
  reg_ok r' /\
  if (dec =? 0) || (c =? 1) then
    (forall nm' a', binds r' nm' a' <-> binds r nm' a' /\ nm' <> nm) /\ get_adr nm r' = 0
  else (forall nm' a', binds r' nm' a' <-> binds r nm' a') /\
    res = (if c =? 0 then 0 else c - 1) /\ refs r' nm res.
Proof.
  intros Hok Hb (kc & Hkc & Hnc & Hc).
  destruct (binds_slot r nm a Hok Hb) as (k & j & Hk & Hj & Hnm & Ha & Hn & Haj & Hal & Hnl).
  assert (kc = k) as ->.
  { apply (reach_unique name (max_slots r) (ro_some r Hok) (slots r) _ _ (ro_names r Hok)); [done..|lia|congruence]. }
  pose proof (rem_name_spec dec nm a (type (slots r k)) c r Hok) as Hs.
  destruct (rem_name dec nm r) as [res r']. destruct Hs as (Hok' & Hres & Hs).
  { exists k. by rewrite Hal. }
  split; [done|]. destruct (dec =? 0) eqn:Ed; cbn [orb] in *; [done|]. zbool. specialize (Hres Ed).
  destruct (c =? 1); [done|]. destruct Hs as [Hb' (i & Hi & _ & Hni & _ & _ & Hci)]. split; [done|]. split; [done|]. by exists i.
Qed.

(** ** Counting references *)

Lemma get_type_held r nm a ty c : reg_ok r -> held r nm a ty c -> 1 < a -> get_type nm r = ty.
Proof.
  intros Hok (k & Hk & Hnm & Hn & Ha & Ht & _) Ha1. unfold get_type, hash_find_name.
  destruct (find_spec name (max_slots r) (ro_some r Hok) (slots r) nm (ro_names r Hok) Hnm) as [Hf _].
  cbv zeta in Hf. rewrite (Hf k Hk Hn), Hn, Z.eqb_refl, Ha, (proj2 (Z.eqb_neq a 0)) by lia. done.
Qed.

(** A registration that succeeds makes an entry with one reference. *)
Lemma register_held nm a ty lnx r :
  reg_ok r -> 1 < nm -> 1 < a -> (forall a', ~ binds r nm a') -> (forall nm', ~ binds r nm' a) ->
  (exists k r', rt_register nm a ty lnx r = (k, r') /\ 0 < k /\ reg_ok r' /\ held r' nm a ty 1 /\
     forall nm' a', binds r' nm' a' <-> binds r nm' a' \/ (nm' = nm /\ a' = a)) \/
  rt_register nm a ty lnx r = (0, r).
Proof.
  intros Hok Hnm Ha Hno1 Hno2. unfold rt_register, registr.
  rewrite (get_adr_none r nm Hok Hnm Hno1). cbn [Z.eqb negb].
  destruct (hash_ins_name_new r nm a ty lnx true Hok Hnm Ha Hno1 Hno2)
    as [(k & j & l' & Hk & Hj & -> & Hins & Hrn & Hra & Hkf & Hjf & Ht & Hc)|[Hfull ->]]; [left|right; by destruct r].
  destruct (inserted_ok r nm a k j l' Hok Hnm Ha Hins Hk Hj Hkf Hjf Hrn Hra) as [Hok' Hb].
  exists k, (with_slots r l'). split; [f_equal; lia|]. split; [lia|]. split; [done|]. split; [|done].
  exists k. cbn. split; [done|]. split; [done|].
  rewrite (in_name _ _ _ _ _ _ Hins), (in_alink _ _ _ _ _ _ Hins), !(decide_True (P := k = k)) by done.
  rewrite (in_adr _ _ _ _ _ _ Hins), decide_True by done. done.
Qed.

(** A request for a name that is registered counts one more reference. *)
Lemma get_adr_cnt_held r nm a ty c : reg_ok r -> held r nm a ty c ->
  exists r', get_adr_cnt nm r = (a, r') /\ reg_ok r' /\ held r' nm a ty (u16 (c + 1)) /\
    forall nm' a', binds r' nm' a' <-> binds r nm' a'.
Proof.
  intros Hok (k & Hk & Hnm & Hn & Ha & Ht & Hc). unfold get_adr_cnt, hash_find_name.
  destruct (find_spec name (max_slots r) (ro_some r Hok) (slots r) nm (ro_names r Hok) Hnm) as [Hf _].
  cbv zeta in Hf. rewrite (Hf k Hk Hn), Hn, Z.eqb_refl. cbn [fst snd].
  assert (eset (fun e => set_count (u16 (count e + 1)) e) k (slots r) = eset (set_count (u16 (c + 1))) k (slots r)) as ->.
  { unfold eset. by rewrite Hc. }
  destruct (count_ok r k (u16 (c + 1)) Hok) as [Hok' Hb]. set (l1 := eset (set_count (u16 (c + 1))) k (slots r)) in *.
  destruct (count_only k (u16 (c + 1)) (slots r)) as (Hcc & Ht1 & Hn1 & Hlk & Had1). fold l1 in Hcc, Ht1, Hn1, Hlk, Had1.
  exists (with_slots r l1). split; [by rewrite (proj1 (Hlk k)), Had1, Ha|]. split; [done|]. split; [|done].
  exists k. cbn. by rewrite Hcc, Ht1, Hn1, (proj1 (Hlk k)), Had1.
Qed.

Lemma get_adr_cnt_none r nm : reg_ok r -> 1 < nm -> (forall a, ~ binds r nm a) -> get_adr_cnt nm r = (0, r).
Proof.
  intros Hok Hnm Hno. unfold get_adr_cnt, hash_find_name.
  destruct (find_spec name (max_slots r) (ro_some r Hok) (slots r) nm (ro_names r Hok) Hnm) as [_ Hf].
  cbv zeta in Hf. specialize (Hf ltac:(intros k Hk Hc; eapply Hno; by exists k)).
  destruct (probe_from _ _ _ _) as [k|]; [|by destruct r]. destruct Hf as [_ Hz].
  rewrite Hz, (proj2 (Z.eqb_neq 0 nm)) by lia. by destruct r.
Qed.

(** ** Instances: a registry of three slots *)

Definition ex_empty : registry := MkReg (fun _ => empty_entry) 3.
(** Names 42 and 45 hash to the same slot. *)
Definition ex_two : registry := (rt_register 45 700 1 0 (rt_register 42 600 1 0 ex_empty).2).2.

Ltac three := let H := fresh in let E := fresh in
  intros ? H; match type of H with slot _ ?k => assert (k = 1 \/ k = 2 \/ k = 3) as [E|[E|E]] by (cbn in H; lia);
    rewrite E; clear H E end.

Lemma ex_empty_ok : reg_ok ex_empty.
Proof.
  split; [cbn; lia|by intros k _ Hk|by intros k _ Hk| |by intros k _ Hk|by intros k _ Hk].
  intros k _. cbn. lia.
Qed.

Lemma ex_two_ok : reg_ok ex_two.
Proof.
  assert (max_slots ex_two = 3) as E3 by (vm_compute; reflexivity).
  split; rewrite ?E3.
  - vm_compute. split; discriminate || reflexivity.
  - intros k Hk _ j Hj. revert j Hj. revert k Hk. three; three; vm_compute; intros; split; congruence.
  - intros k Hk _ j Hj. revert j Hj. revert k Hk. three; three; vm_compute; intros; split; congruence.
  - three; vm_compute; split; discriminate.
  - three; vm_compute; intros; try discriminate; repeat split; discriminate.
  - three; vm_compute; intros; try discriminate; repeat split; discriminate.
Qed.


Lemma rt_register_correct_witness :
  let r' := (rt_register 42 600 1 0 ex_empty).2 in
  (rt_register 42 600 1 0 ex_empty).1 = 1 /\ reg_ok r' /\ get_adr 42 r' = 600 /\
  get_name (fun _ _ => 0) 600 r' = 42.
Proof.
  assert (forall nm a, ~ binds ex_empty nm a) as Hno.
  { intros nm a (k & _ & H1 & H2 & _). cbn in H2. lia. }
  pose proof (rt_register_correct 42 600 1 0 ex_empty (fun _ _ => 0) ex_empty_ok ltac:(lia) ltac:(lia)
    (Hno 42) (fun nm => Hno nm 600)) as H.
  assert ((rt_register 42 600 1 0 ex_empty).1 = 1) as E by (vm_compute; reflexivity).
  destruct (rt_register 42 600 1 0 ex_empty) as [k r']. cbn in E |- *. subst k.
  destruct H as [(H & _)|(_ & H1 & H2 & H3 & _)]; [discriminate|].
  split; [reflexivity|]. split; [exact H1|]. split; [exact H2|exact H3].
Defined.

(** 42 goes; 45, which was probed past it, is still found. *)
