(* ===== verification/Heap.v ===== *)
(** * The real time heap: the allocator of malloc.c without TLSF.

    An extent is an array of pages.  Free pages are chained in address order
    through their first word; blocks of a power of two bytes, up to two pages,
    are carved out of pages and kept in a bucket list per size; larger blocks
    are runs of whole pages. *)

From S2P Require Import Prelude.

Definition RTHEAP_MINLOG2 := 4.
Definition RTHEAP_MAXLOG2 := 22.
Definition RTHEAP_MINALLOCSZ := 16.
Definition RTHEAP_MINALIGNSZ := 16.
Definition RTHEAP_MAXEXTSZ := 0x7FFFFFFF.
Definition RTHEAP_PFREE := 0.
Definition RTHEAP_PCONT := 1.
Definition RTHEAP_PLIST := 2.
Definition KMALLOC_LIMIT := 131072.
Definition RTHEAP_NOMEM := -1.
Definition RTHEAP_PARAM := -2.
Definition sizeof_rtextent := 48.
(** Where the page map begins in the header of an extent. *)
Definition offset_pagemap := 40.

(** Memory: the word at an address, as the chains use it. *)
Abbreviation memory := (Z -> Z).

Record rtextent := MkExtent {
  membase : Z; memlim : Z; freelist : Z; pagemap : Z -> Z
}.
Record rtheap := MkHeap {
  extentsize : Z; pagesize : Z; pageshift : Z; hdrsize : Z; npages : Z;
  ubytes : Z; maxcont : Z; extents : list rtextent; buckets : Z -> Z
}.
Definition set_freelist (v : Z) (e : rtextent) : rtextent :=
  MkExtent (membase e) (memlim e) v (pagemap e).
Definition set_pagemap (v : Z -> Z) (e : rtextent) : rtextent :=
  MkExtent (membase e) (memlim e) (freelist e) v.
Definition set_extents (v : list rtextent) (h : rtheap) : rtheap :=
  MkHeap (extentsize h) (pagesize h) (pageshift h) (hdrsize h) (npages h) (ubytes h) (maxcont h) v (buckets h).
Definition set_ubytes (v : Z) (h : rtheap) : rtheap :=
  MkHeap (extentsize h) (pagesize h) (pageshift h) (hdrsize h) (npages h) v (maxcont h) (extents h) (buckets h).
Definition set_bucket (i v : Z) (h : rtheap) : rtheap :=
  MkHeap (extentsize h) (pagesize h) (pageshift h) (hdrsize h) (npages h) (ubytes h) (maxcont h) (extents h)
    (<[i := v]> (buckets h)).

(** ** Initialisation *)

(** Each of [n] pages from [page] on points to the page after it. *)
Fixpoint link_pages (n : nat) (page step : Z) (m : memory) : memory :=
  match n with
  | O => m
  | S n' => link_pages n' (page + step) step (<[page := page + step]> m)
  end.
(** [n] chained pages, the last of which ends the chain. *)
Definition chain_pages (n : Z) (page step : Z) (m : memory) : memory :=
  <[page + (n - 1) * step := 0]> (link_pages (Z.to_nat (n - 1)) page step m).

(** [n] pages from [first] on are marked free. *)
Fixpoint mark_free (n : nat) (first : Z) (pm : Z -> Z) : Z -> Z :=
  match n with
  | O => pm
  | S n' => <[first + Z.of_nat n' := RTHEAP_PFREE]> (mark_free n' first pm)
  end.

(** [raw]: the bytes the page map finds in its place; those after the map of
    [npages] entries stay as they are. *)
Definition init_extent (h : rtheap) (addr : Z) (raw : Z -> Z) (m : memory) : rtextent * memory :=
  let base := addr + hdrsize h in
  (MkExtent base (base + npages h * pagesize h) base (mark_free (Z.to_nat (npages h)) 0 raw),
   chain_pages (npages h) base (pagesize h) m).

(** The shift of the page size: [for (pageshift = 0, s = pagesize; s > 1; s >>= 1)]. *)
Fixpoint shift_of (fuel : nat) (s : Z) : Z :=
  match fuel with
  | O => 0
  | S fuel => if 1 <? s then 1 + shift_of fuel (Z.shiftr s 1) else 0
  end.

Definition heap_hdrsize (heapsize pgsz : Z) : Z :=
  let pmapsize := (heapsize - sizeof_rtextent) / (pgsz + 1) in
  Z.land (sizeof_rtextent + pmapsize + RTHEAP_MINALIGNSZ - 1) (Z.lnot (RTHEAP_MINALIGNSZ - 1)).

Definition heap_params_ok (heapsize pgsz : Z) : bool :=
  negb ((pgsz <? Z.shiftl 1 RTHEAP_MINLOG2) || (Z.shiftl 1 RTHEAP_MAXLOG2 <? pgsz)
        || negb (Z.land pgsz (pgsz - 1) =? 0) || (heapsize <=? sizeof_rtextent)
        || (RTHEAP_MAXEXTSZ <? heapsize) || negb (Z.land heapsize (pgsz - 1) =? 0))
  && negb (heapsize <? heap_hdrsize heapsize pgsz + 2 * pgsz).

(** The extents a heap of [heapsize] bytes is made of, [extentsize] bytes each;
    [alloc] is what [alloc_extent] gives, one address after the other, with the
    bytes where its page map comes to lie. *)
Fixpoint init_extents (fuel : nat) (h : rtheap) (alloc : nat -> option (Z * (Z -> Z))) (i : nat) (init heapsize : Z)
    (m : memory) : option (list rtextent * memory) :=
  if init <? heapsize then
    match fuel with
    | O => None
    | S fuel =>
        match alloc i with
        | None => None
        | Some (a, raw) =>
            let '(e, m) := init_extent h a raw m in
            match init_extents fuel h alloc (S i) (init + extentsize h) heapsize m with
            | Some (l, m) => Some (e :: l, m)
            | None => None
            end
        end
    end
  else Some ([], m).

(** [rtheap_init] with memory of the caller ([addr <> 0]), or with kernel memory:
    one extent when [big], the allocation of [heapsize] bytes, succeeds, extents
    of [KMALLOC_LIMIT] bytes else.  [suprt] is 0 for the global heap. [raw]
    is what lies where the page map of the first of these comes to lie. *)
Definition rtheap_init (addr heapsize pgsz : Z) (raw : Z -> Z) (suprt : bool) (big : option Z)
    (alloc : nat -> option (Z * (Z -> Z))) (m : memory) : (Z + rtheap) * memory :=
  if negb (heap_params_ok heapsize pgsz) then (inl RTHEAP_PARAM, m)
  else
    let sh := shift_of 64 pgsz in
    let hdr := heap_hdrsize heapsize pgsz in
    let '(addr, ext) :=
      if (addr =? 0) && suprt then
        if heapsize <=? KMALLOC_LIMIT then (0, KMALLOC_LIMIT)
        else match big with Some a => (a, heapsize) | None => (0, KMALLOC_LIMIT) end
      else (addr, heapsize) in
    let np := Z.shiftr (ext - hdr) sh in
    let h := MkHeap ext pgsz sh hdr np 0 (np * pgsz) [] (fun _ => 0) in
    if negb (addr =? 0) then
      let '(e, m) := init_extent h addr raw m in (inr (set_extents [e] h), m)
    else
      match init_extents (Z.to_nat heapsize) h alloc 0 0 heapsize m with
      | Some (l, m) => (inr (set_extents l h), m)
      | None => (inl RTHEAP_NOMEM, m)
      end.

(** ** Free pages *)

(** The [do ... while] of [get_free_range]: the run of adjacent free pages from
    [page] on, at most [bsize] bytes; the last page of the run, what follows it
    in the chain and the length. *)
Fixpoint free_run (fuel : nat) (m : memory) (ps bsize page cont : Z) : Z * Z * Z :=
  let nxt := m page in
  let cont := cont + ps in
  match fuel with
  | O => (page, nxt, cont)
  | S fuel =>
      if (nxt =? page + ps) && (cont <? bsize) then free_run fuel m ps bsize nxt cont
      else (page, nxt, cont)
  end.

(** The walk of one extent's chain: [headpage], [lastpage] and [freehead]. *)
Fixpoint find_range (fuel : nat) (m : memory) (ps bsize page freehead : Z) : option (Z * Z * Z) :=
  if page =? 0 then None
  else match fuel with
  | O => None
  | S fuel' =>
      let '(lastpage, nxt, cont) := free_run fuel m ps bsize page 0 in
      if bsize <=? cont then Some (page, lastpage, freehead)
      else find_range fuel' m ps bsize nxt lastpage
  end.

Fixpoint mark_cont (n : nat) (first : Z) (pm : Z -> Z) : Z -> Z :=
  match n with
  | O => pm
  | S n' => <[first + Z.of_nat n := RTHEAP_PCONT]> (mark_cont n' first pm)
  end.

(** The part after [splitpage:], in the extent [e] that has the range. *)
Definition take_range (h : rtheap) (e : rtextent) (bsize log2 headpage lastpage freehead : Z)
    (m : memory) : rtextent * memory :=
  let '(e, m) :=
    if headpage =? freelist e then (set_freelist (m lastpage) e, m)
    else (e, <[freehead := m lastpage]> m) in
  let m :=
    if bsize <? pagesize h then chain_pages (pagesize h / bsize) headpage bsize m
    else <[headpage := 0]> m in
  let pn := Z.shiftr (headpage - membase e) (pageshift h) in
  let pm := <[pn := if log2 =? 0 then RTHEAP_PLIST else log2]> (pagemap e) in
  (set_pagemap (mark_cont (Z.to_nat (Z.shiftr bsize (pageshift h)) - 1) pn pm) e, m).

(** The walk of the extents; the index of the one that had the range. *)
Fixpoint get_free_range_in (h : rtheap) (l : list rtextent) (bsize log2 : Z) (m : memory) :
    option (Z * list rtextent * memory) :=
  match l with
  | [] => None
  | e :: l' =>
      match find_range (S (Z.to_nat (npages h))) m (pagesize h) bsize (freelist e) 0 with
      | Some (headpage, lastpage, freehead) =>
          let '(e, m) := take_range h e bsize log2 headpage lastpage freehead m in
          Some (headpage, e :: l', m)
      | None =>
          match get_free_range_in h l' bsize log2 m with
          | Some (p, l'', m) => Some (p, e :: l'', m)
          | None => None
          end
      end
  end.
Definition get_free_range (h : rtheap) (bsize log2 : Z) (m : memory) : option (Z * rtheap * memory) :=
  match get_free_range_in h (extents h) bsize log2 m with
  | Some (p, l, m) => Some (p, set_extents l h, m)
  | None => None
  end.

(** ** Allocation *)

(** The rounding of a request, on unsigned long. *)
Definition round_size (h : rtheap) (size : Z) : Z :=
  let up a := Z.land (u64 (size + a - 1)) (u64 (Z.lnot (a - 1))) in
  if size <=? pagesize h then
    if size <=? RTHEAP_MINALIGNSZ then up RTHEAP_MINALLOCSZ else up RTHEAP_MINALIGNSZ
  else up (pagesize h).

(** [for (bsize = 16, log2size = 4; bsize < size; bsize <<= 1, log2size++)]. *)
Fixpoint bucket_of (fuel : nat) (bsize log2 size : Z) : Z * Z :=
  match fuel with
  | O => (bsize, log2)
  | S fuel => if bsize <? size then bucket_of fuel (Z.shiftl bsize 1) (log2 + 1) size else (bsize, log2)
  end.

(** The block, 0 when there is none. *)
Definition rtheap_alloc (h : rtheap) (size : Z) (m : memory) : Z * rtheap * memory :=
  if size =? 0 then (0, h, m)
  else
    let size := round_size h size in
    if size <=? pagesize h * 2 then
      let '(bsize, log2) := bucket_of 64 (Z.shiftl 1 RTHEAP_MINLOG2) RTHEAP_MINLOG2 size in
      let i := log2 - RTHEAP_MINLOG2 in
      let take block h m := (block, set_ubytes (ubytes h + bsize) (set_bucket i (m block) h), m) in
      if buckets h i =? 0 then
        match get_free_range h bsize log2 m with
        | Some (block, h, m) => take block h m
        | None => (0, h, m)
        end
      else take (buckets h i) h m
    else if maxcont h <? size then (0, h, m)
    else
      match get_free_range h size 0 m with
      | Some (block, h, m) => (block, set_ubytes (ubytes h + size) h, m)
      | None => (0, h, m)
      end.

(** ** Release *)

(** The extent of a block: the first that holds it, else the last one, for the
    walk leaves [holder] at the list head and not null. *)
Fixpoint find_extent (l : list rtextent) (i : nat) (block : Z) : option nat :=
  match l with
  | [] => None
  | [e] => Some i
  | e :: l' => if (membase e <=? block) && (block <? memlim e) then Some i
               else find_extent l' (S i) block
  end.

(** The number of pages of a run: the pages marked [RTHEAP_PCONT] after the first. *)
Fixpoint run_pages (fuel : nat) (np : Z) (pm : Z -> Z) (pn n : Z) : Z :=
  match fuel with
  | O => n
  | S fuel => if (n <? np) && (pm (pn + n) =? RTHEAP_PCONT) then run_pages fuel np pm pn (n + 1) else n
  end.

(** The place of the run in the chain: the page before it and the page after. *)
Fixpoint chain_place (fuel : nat) (m : memory) (block last nxt : Z) : Z * Z :=
  match fuel with
  | O => (last, nxt)
  | S fuel => if negb (nxt =? 0) && (nxt <? block) then chain_place fuel m block nxt (m nxt) else (last, nxt)
  end.

(** Give a run of [n] pages back to the chain of its extent. *)
Definition release_run (h : rtheap) (e : rtextent) (block pn n : Z) (m : memory) : rtextent * memory :=
  let ps := pagesize h in
  let tailpage := block + n * ps - ps in
  let m := link_pages (Z.to_nat (n - 1)) block ps m in
  let e := set_pagemap (mark_free (Z.to_nat n) pn (pagemap e)) e in
  let '(last, nxt) := chain_place (S (Z.to_nat (npages h))) m block 0 (freelist e) in
  let m := <[tailpage := nxt]> m in
  if last =? 0 then (set_freelist block e, m) else (e, <[last := block]> m).

Definition rtheap_free (h : rtheap) (block : Z) (m : memory) : option (Z * rtheap * memory) :=
  match find_extent (extents h) 0 block with
  | None => None  (* no extent at all: a null dereference *)
  | Some i =>
      match extents h !! i with
      | None => None
      | Some e =>
          let off := u64 (block - membase e) in
          let pn := Z.shiftr off (pageshift h) in
          let boffset := u64 (block - (membase e + Z.shiftl pn (pageshift h))) in
          let mark := pagemap e pn in
          if (mark =? RTHEAP_PFREE) || (mark =? RTHEAP_PCONT) then Some (RTHEAP_PARAM, h, m)
          else if mark =? RTHEAP_PLIST then
            let n := run_pages (Z.to_nat (npages h)) (npages h) (pagemap e) pn 1 in
            let '(e, m) := release_run h e block pn n m in
            let h := set_extents (<[i := e]> (extents h)) h in
            Some (0, set_ubytes (ubytes h - n * pagesize h) h, m)
          else
            let bsize := Z.shiftl 1 mark in
            if negb (Z.land boffset (bsize - 1) =? 0) then Some (RTHEAP_PARAM, h, m)
            else
              let b := mark - RTHEAP_MINLOG2 in
              let m := <[block := buckets h b]> m in
              Some (0, set_ubytes (ubytes h - bsize) (set_bucket b block h), m)
      end
  end.
