(* ===== verification/HeapFacts.v ===== *)
(** * The pages of the heap: chains through free memory, runs of free pages and the page map. *)

From S2P Require Import Prelude Heap.
From stdpp Require Import list sorting.
#[local] Open Scope Z_scope.

(** ** Chains *)

(** From [p] the words of the memory [m] lead through the addresses [l] to [q]. *)
Fixpoint seg (m : memory) (p : Z) (l : list Z) (q : Z) : Prop :=
  match l with
  | [] => p = q
  | x :: l => p = x /\ x <> 0 /\ seg m (m x) l q
  end.
Abbreviation chain m p l := (seg m p l 0).

Lemma cells_seg_app m p A B q : seg m p (A ++ B) q <-> exists r, seg m p A r /\ seg m r B q.
Proof.
  revert p. induction A as [|x A IH]; intros p; cbn [seg app].
  - split; [intros H; by exists p|]. by intros (r & -> & H).
  - rewrite IH. split; [intros (? & ? & r & ? & ?); by exists r|]. intros (r & (? & ? & ?) & ?). split_and!; [done..|]. by exists r.
Qed.
Lemma cells_seg_ext m m' p l q : (forall a, a ∈ l -> m' a = m a) -> seg m p l q -> seg m' p l q.
Proof.
  revert p. induction l as [|x l IH]; intros p Hm; cbn [seg]; [done|]. intros (-> & Hx & H). split_and!; [done..|].
  rewrite Hm by apply list_elem_of_here. apply IH; [|done]. intros a Ha. apply Hm. by apply list_elem_of_further.
Qed.
Lemma seg_nonzero m p l q a : seg m p l q -> a ∈ l -> a <> 0.
Proof.
  revert p. induction l as [|x l IH]; intros p; cbn [seg]; [by intros _ H%elem_of_nil|].
  intros (-> & Hx & H) [->|Ha]%elem_of_cons; [done|by eapply IH].
Qed.
(** The chain after one of its addresses is led elsewhere. *)
Lemma seg_redirect m p A x q r : NoDup (A ++ [x]) -> seg m p (A ++ [x]) q -> seg (<[x := r]> m) p (A ++ [x]) r.
Proof.
  intros Hnd. rewrite !cells_seg_app. intros (s & HA & -> & Hx & _). exists x. apply NoDup_app in Hnd as (_ & Hd & _). split.
  - apply (cells_seg_ext m); [|done]. intros a Ha. rewrite fn_lookup_insert_ne; [done|]. intros ->.
    by apply (Hd a Ha), list_elem_of_here.
  - cbn [seg]. by rewrite fn_lookup_insert.
Qed.
Lemma chain_head m p l : chain m p l -> p = default 0 (head l).
Proof. destruct l; cbn [seg]; [done|]. by intros [? _]. Qed.

(** ** Cells: [n] addresses [step] apart *)

Fixpoint cells (p step : Z) (n : nat) : list Z :=
  match n with O => [] | S n => p :: cells (p + step) step n end.

Lemma elem_of_cells p step n a : a ∈ cells p step n <-> exists i, 0 <= i < Z.of_nat n /\ a = p + i * step.
Proof.
  revert p. induction n as [|n IH]; intros p; cbn [cells].
  - rewrite elem_of_nil. split; [done|]. intros (i & ? & _). lia.
  - rewrite elem_of_cons, IH. split.
    + intros [->|(i & Hi & ->)]; [exists 0; lia|]. exists (i + 1). lia.
    + intros (i & Hi & ->). destruct (decide (i = 0)) as [->|]; [left; lia|]. right. exists (i - 1). lia.
Qed.
Lemma cells_snoc p step n : cells p step (S n) = cells p step n ++ [p + Z.of_nat n * step].
Proof.
  revert p. induction n as [|n IH]; intros p; [cbn; f_equal; lia|].
  change (cells p step (S (S n))) with (p :: cells (p + step) step (S n)). rewrite IH. cbn [cells app]. do 3 f_equal. lia.
Qed.
Lemma length_cells p step n : length (cells p step n) = n.
Proof. revert p. induction n as [|n IH]; intros p; cbn; [done|]. by rewrite IH. Qed.
Lemma cells_sorted p step n : 0 < step -> StronglySorted Z.lt (cells p step n).
Proof.
  intros Hs. revert p. induction n as [|n IH]; intros p; cbn [cells]; constructor; [done|].
  apply list.Forall_forall. intros a (i & ? & ->)%elem_of_cells. nia.
Qed.
Lemma sorted_nodup l : StronglySorted Z.lt l -> NoDup l.
Proof.
  induction 1 as [|a l _ IH Ha]; constructor; [|done]. rewrite list.Forall_forall in Ha. intros H%Ha. lia.
Qed.

(** ** The writes that link pages and blocks *)

Lemma link_other n p step m a : 0 < step -> (a ∉ cells p step n) -> link_pages n p step m a = m a.
Proof.
  intros Hs. revert p m. induction n as [|n IH]; intros p m; cbn [cells link_pages]; [done|].
  intros [? ?]%not_elem_of_cons. rewrite IH by done. by rewrite fn_lookup_insert_ne.
Qed.
Lemma cell_link_seg n p step m : 0 < step -> 0 < p -> seg (link_pages n p step m) p (cells p step n) (p + Z.of_nat n * step).
Proof.
  intros Hs. revert p m. induction n as [|n IH]; intros p m Hp; cbn [cells link_pages seg]; [lia|]. split_and!; [done|lia|].
  rewrite link_other by (try done; rewrite elem_of_cells; intros (i & ? & ?); nia). rewrite fn_lookup_insert.
  replace (p + Z.of_nat (S n) * step) with (p + step + Z.of_nat n * step) by lia. apply IH. lia.
Qed.
Lemma chain_pages_other n p step m a : 0 < step -> 0 < n -> (a ∉ cells p step (Z.to_nat n)) -> chain_pages n p step m a = m a.
Proof.
  intros Hs Hn Ha. unfold chain_pages. replace (Z.to_nat n) with (S (Z.to_nat (n - 1))) in Ha by lia.
  rewrite cells_snoc, Z2Nat.id in Ha by lia. apply not_elem_of_app in Ha as [Ha Hl]. rewrite list_elem_of_singleton in Hl.
  rewrite fn_lookup_insert_ne by (intros E; by apply Hl). by apply link_other.
Qed.
Lemma chain_pages_chain n p step m : 0 < step -> 0 < n -> 0 < p ->
  chain (chain_pages n p step m) p (cells p step (Z.to_nat n)).
Proof.
  intros Hs Hn Hp. unfold chain_pages. replace (Z.to_nat n) with (S (Z.to_nat (n - 1))) by lia.
  rewrite cells_snoc. replace (Z.of_nat (Z.to_nat (n - 1))) with (n - 1) by lia. rewrite cells_seg_app.
  exists (p + (n - 1) * step). split; [|cbn [seg]; rewrite fn_lookup_insert; split_and!; [done| |done]; assert (0 <= (n - 1) * step) by (apply Z.mul_nonneg_nonneg; lia); lia].
  apply (cells_seg_ext (link_pages (Z.to_nat (n - 1)) p step m)).
  - intros a (i & ? & ->)%elem_of_cells. rewrite fn_lookup_insert_ne; [done|].
    assert (i * step < (n - 1) * step) by (apply Z.mul_lt_mono_pos_r; lia). lia.
  - rewrite <- (Z2Nat.id (n - 1)) at 3 by lia. by apply cell_link_seg.
Qed.

(** ** The search for a run of free pages *)

Lemma free_run_spec fuel m ps bsize page l cont : 0 < ps -> 0 < page -> chain m page (page :: l) -> (length l <= fuel)%nat ->
  exists k rest nxt, page :: l = cells page ps (S k) ++ rest /\ chain m nxt rest /\
    free_run fuel m ps bsize page cont = (page + Z.of_nat k * ps, nxt, cont + Z.of_nat (S k) * ps) /\
    (k <> O -> cont + Z.of_nat k * ps < bsize) /\
    (bsize <= cont + Z.of_nat (S k) * ps \/ head rest <> Some (page + Z.of_nat (S k) * ps)).
Proof.
  intros Hps. revert page l cont. induction fuel as [|fuel IH]; intros page l cont Hp0 (_ & Hp & Hc) Hl.
  - destruct l; [|cbn in Hl; lia]. exists O, [], (m page). cbn [free_run cells app head]. split_and!; [done|done| |done|by right].
    f_equal; [f_equal|]; lia.
  - cbn [free_run]. destruct ((m page =? page + ps) && (cont + ps <? bsize)) eqn:E; zbool.
    + destruct l as [|x l]; [cbn [seg] in Hc; lia|]. assert (x = page + ps) as -> by (destruct Hc; lia).
      destruct (IH (page + ps) l (cont + ps)) as (k & rest & nxt & El & Hr & Er & Hk & Hend); [lia|by rewrite H in Hc| cbn in Hl; lia|].
      exists (S k), rest, nxt. rewrite H, Er. split_and!; [|done|f_equal; [f_equal|]; lia|lia|].
      * change (cells page ps (S (S k))) with (page :: cells (page + ps) ps (S k)). cbn [app]. by rewrite El.
      * destruct Hend as [?|Hh]; [left; lia|right]. intros Eh. apply Hh. rewrite Eh. f_equal. lia.
    + exists O, l, (m page). split_and!; [done|done|f_equal; [f_equal|]; lia|done|].
      apply andb_false_iff in E as [E|E]; zbool; [|left; lia]. right. destruct l as [|x l]; [done|]. destruct Hc as [Hc _].
      cbn [head]. intros [= Hx]. lia.
Qed.

(** The walk finds the first run that is long enough: [k + 1] pages from [hp]; or none is. *)
Lemma find_range_spec fuel m ps bsize base page l fh : 0 < ps -> 0 < bsize -> chain m page l -> StronglySorted Z.lt l ->
  Forall (fun a => 0 < a /\ exists n, a = base + n * ps) l -> (length l < fuel)%nat ->
  match find_range fuel m ps bsize page fh with
  | Some (hp, lp, fh') => exists A k B, l = A ++ cells hp ps (S k) ++ B /\ lp = hp + Z.of_nat k * ps /\
      (k <> O -> Z.of_nat k * ps < bsize) /\ bsize <= Z.of_nat (S k) * ps /\ fh' = default fh (last A)
  | None => forall c n, bsize <= n * ps -> exists j, 0 <= j < n /\ (c + j * ps ∉ l)
  end.
Proof.
  intros Hps Hb. revert page l fh. induction fuel as [|fuel IH]; intros page l fh Hc Hs Hl Hf; [lia|]. cbn [find_range].
  destruct l as [|x l]; [|destruct (Hc) as (-> & Hx & Hc')].
  { rewrite Hc. intros c n Hn. exists 0. split; [nia|]. apply not_elem_of_nil. }
  rewrite (proj2 (Z.eqb_neq x 0) Hx). apply Forall_cons_1 in Hl as Hl2. destruct Hl2 as [(Hx0 & n0 & En0) _].
  destruct (free_run_spec (S fuel) m ps bsize x l 0 Hps Hx0 Hc) as (k & rest & nxt & El & Hr & -> & Hk & Hend); [cbn in Hf; lia|].
  rewrite El in Hs, Hl, Hf |- *. clear El Hc Hc'. zcase.
  - exists [], k, rest. split_and!; [done..|lia|done|lia|done].
  - assert (head rest <> Some (x + Z.of_nat (S k) * ps)) as Hh by (destruct Hend; [lia|done]).
    rewrite length_app, length_cells in Hf.
    assert (StronglySorted Z.lt rest /\ forall a, a ∈ rest -> x + Z.of_nat (S k) * ps < a) as [Hsr Hgap].
    { apply StronglySorted_app in Hs as (Hlt & _ & Hsr). split; [done|]. intros a Ha.
      apply Forall_app in Hl as [_ Hl]. rewrite list.Forall_forall in Hl.
      assert (forall b, b ∈ rest -> x + Z.of_nat (S k) * ps <= b) as Hle.
      { intros b Hb'. destruct (Hl b Hb') as (_ & nb & Enb). assert (x + Z.of_nat k * ps < b).
        { apply Hlt; [|done]. apply elem_of_cells. exists (Z.of_nat k). lia. }
        assert (n0 + Z.of_nat k < nb) by (apply (Z.mul_lt_mono_pos_r ps); lia). nia. }
      destruct rest as [|y rest]; [by apply elem_of_nil in Ha|]. cbn [head] in Hh.
      assert (x + Z.of_nat (S k) * ps < y) by (pose proof (Hle y (list_elem_of_here _ _)); apply Z.le_neq; split; [done|congruence]).
      apply elem_of_cons in Ha as [->|Ha]; [done|]. apply StronglySorted_inv in Hsr as [_ Hsr].
      rewrite list.Forall_forall in Hsr. specialize (Hsr a Ha). lia. }
    apply Forall_app in Hl as [_ Hl]. specialize (IH nxt rest (x + Z.of_nat k * ps) Hr Hsr Hl ltac:(lia)).
    destruct (find_range fuel m ps bsize nxt _) as [[[hp lp] fh']|].
    + destruct IH as (A & k' & B & -> & -> & Hk' & Hb' & ->). exists (cells x ps (S k) ++ A), k', B.
      split_and!; [by rewrite <- app_assoc|done..|]. rewrite last_app. destruct (last A); [done|].
      rewrite cells_snoc, last_snoc. done.
    + intros c n Hn. destruct (decide (c ∈ cells x ps (S k))) as [Hin|Hout].
      * apply elem_of_cells in Hin as (i & Hi & ->). exists (Z.of_nat (S k) - i). split; [nia|].
        replace (x + i * ps + (Z.of_nat (S k) - i) * ps) with (x + Z.of_nat (S k) * ps) by ring.
        rewrite not_elem_of_app, elem_of_cells. split; [intros (j & ? & ?); nia|]. intros H%Hgap. lia.
      * destruct (decide (c ∈ rest)) as [Hin|Hout']; [|exists 0; split; [nia|]; rewrite Z.mul_0_l, Z.add_0_r, not_elem_of_app; done].
        destruct (IH c n Hn) as (j & Hj & Hnj). exists j. split; [done|]. rewrite not_elem_of_app. split; [|done].
        specialize (Hgap c Hin). rewrite elem_of_cells. intros (i & ? & ?). nia.
Qed.

(** ** The page map *)

Lemma mark_cont_spec n f pm x : mark_cont n f pm x = if decide (f < x <= f + Z.of_nat n) then RTHEAP_PCONT else pm x.
Proof.
  induction n as [|n IH]; cbn [mark_cont]; [by rewrite decide_False by lia|].
  destruct (decide (x = f + Z.of_nat (S n))) as [->|].
  - rewrite fn_lookup_insert. by rewrite decide_True by lia.
  - rewrite fn_lookup_insert_ne, IH by done. destruct (decide (f < x <= f + Z.of_nat n)); [by rewrite decide_True by lia|].
    by rewrite decide_False by lia.
Qed.
Lemma mark_free_spec n f pm x : mark_free n f pm x = if decide (f <= x < f + Z.of_nat n) then RTHEAP_PFREE else pm x.
Proof.
  induction n as [|n IH]; cbn [mark_free]; [by rewrite decide_False by lia|].
  destruct (decide (x = f + Z.of_nat n)) as [->|].
  - rewrite fn_lookup_insert. by rewrite decide_True by lia.
  - rewrite fn_lookup_insert_ne, IH by done. destruct (decide (f <= x < f + Z.of_nat n)); [by rewrite decide_True by lia|].
    by rewrite decide_False by lia.
Qed.

(** Page [n] heads a run of [k] pages: the others continue it, and what follows does not. *)
Definition run (np : Z) (pm : Z -> Z) (n k : Z) : Prop :=
  1 <= k /\ n + k <= np /\ (forall i, n < i < n + k -> pm i = RTHEAP_PCONT) /\ (n + k < np -> pm (n + k) <> RTHEAP_PCONT).

Lemma run_unique np pm n k k' : run np pm n k -> run np pm n k' -> k = k'.
Proof.
  intros (? & ? & Hi & He) (? & ? & Hi' & He'). destruct (Z.lt_trichotomy k k') as [?|[?|?]]; [|done|].
  - exfalso. apply He; [lia|]. apply Hi'. lia.
  - exfalso. apply He'; [lia|]. apply Hi. lia.
Qed.
Lemma run_pages_spec fuel np pm n k i : run np pm n k -> 1 <= i <= k -> k <= i + Z.of_nat fuel -> k <= np -> 0 <= n ->
  pm np <> RTHEAP_PCONT -> run_pages fuel np pm n i = k.
Proof.
  intros (Hk & Hnp & Hc & He) Hi Hf Hle Hn Hout. revert i Hi Hf. induction fuel as [|fuel IH]; intros i Hi Hf; cbn [run_pages]; [lia|].
  destruct (decide (i = k)) as [->|Hne].
  - rewrite (proj2 (Z.eqb_neq (pm (n + k)) RTHEAP_PCONT)); [by rewrite andb_false_r|].
    destruct (decide (n + k < np)); [by apply He|by replace (n + k) with np by lia].
  - rewrite (Hc (n + i)) by lia. rewrite (proj2 (Z.ltb_lt i np)) by lia. cbn [andb Z.eqb Pos.eqb RTHEAP_PCONT]. apply IH; lia.
Qed.

(** A page map that makes sense, for pages of [2^sh] bytes: free pages; single pages split in blocks; pairs of
    pages that are one block; runs; and no page that continues nothing. *)
Definition marks_ok (np sh : Z) (pm : Z -> Z) : Prop := forall n, 0 <= n < np ->
  pm n = RTHEAP_PFREE \/ RTHEAP_MINLOG2 <= pm n <= sh \/ (pm n = sh + 1 /\ run np pm n 2) \/ pm n = RTHEAP_PLIST \/
  (pm n = RTHEAP_PCONT /\ 0 < n /\ (pm (n - 1) = RTHEAP_PCONT \/ pm (n - 1) = RTHEAP_PLIST \/ pm (n - 1) = sh + 1)).

(** [n .. n+k-1], all free, become a run with the mark [t]. *)
Definition marked (pm : Z -> Z) (n k t : Z) (pm' : Z -> Z) : Prop :=
  forall x, pm' x = if decide (x = n) then t else if decide (n < x < n + k) then RTHEAP_PCONT else pm x.
(** [n .. n+k-1] become free. *)
Definition unmarked (pm : Z -> Z) (n k : Z) (pm' : Z -> Z) : Prop :=
  forall x, pm' x = if decide (n <= x < n + k) then RTHEAP_PFREE else pm x.
(** The marks of a head, for pages of [2^sh] bytes, and the pages its run has. *)
Definition head_mark (sh t k : Z) : Prop :=
  (RTHEAP_MINLOG2 <= t <= sh /\ k = 1) \/ (t = sh + 1 /\ k = 2) \/ t = RTHEAP_PLIST.

Lemma decide_chain (pm : Z -> Z) n k t x : x <> n -> ~ (n < x < n + k) ->
  (if decide (x = n) then t else if decide (n < x < n + k) then RTHEAP_PCONT else pm x) = pm x.
Proof. intros. rewrite decide_False by done. by rewrite decide_False by done. Qed.

Lemma head_not_cont sh t k : 4 <= sh -> head_mark sh t k -> t <> RTHEAP_PCONT /\ t <> RTHEAP_PFREE.
Proof. unfold head_mark, RTHEAP_MINLOG2, RTHEAP_PLIST, RTHEAP_PCONT, RTHEAP_PFREE. lia. Qed.

Ltac marks := unfold head_mark, RTHEAP_MINLOG2, RTHEAP_PLIST, RTHEAP_PCONT, RTHEAP_PFREE in *; lia.

Lemma run_ext np pm pm' n k : (forall i, n < i <= n + k -> (pm' i = RTHEAP_PCONT <-> pm i = RTHEAP_PCONT)) ->
  run np pm n k -> run np pm' n k.
Proof.
  intros He (? & ? & Hc & Hn). split_and!; [done|done| |].
  - intros i Hi. apply He; [lia|]. by apply Hc.
  - intros Hlt. rewrite He by lia. by apply Hn.
Qed.

Lemma cont_head np sh pm n : marks_ok np sh pm -> 4 <= sh -> 0 <= n < np -> pm n = RTHEAP_PCONT ->
  0 < n /\ (pm (n - 1) = RTHEAP_PCONT \/ pm (n - 1) = RTHEAP_PLIST \/ pm (n - 1) = sh + 1).
Proof. intros Hok Hsh Hn E. destruct (Hok n Hn) as [H|[H|[[H _]|[H|(_ & H & H')]]]]; [marks..|done]. Qed.

Lemma marked_run np sh pm n k t pm' : marks_ok np sh pm -> 4 <= sh -> 0 <= n -> 1 <= k -> n + k <= np ->
  (forall i, n <= i < n + k -> pm i = RTHEAP_PFREE) -> marked pm n k t pm' -> run np pm' n k.
Proof.
  intros Hok Hsh Hn Hk Hnk Hf Hm. split_and!; [done|done| |].
  - intros i Hi. rewrite Hm, decide_False by lia. by rewrite decide_True by lia.
  - intros Hlt E. rewrite Hm, decide_chain in E by lia. apply (cont_head np sh) in E as [_ E]; [|done|done|lia].
    rewrite (Hf (n + k - 1)) in E by lia. marks.
Qed.
(** A run that was there stays one. *)
Lemma marked_run_other np sh pm n k t pm' i j : marked pm n k t pm' -> 4 <= sh -> head_mark sh t k -> 1 <= k ->
  (forall x, n <= x < n + k -> pm x = RTHEAP_PFREE) -> run np pm i j -> pm i <> RTHEAP_PFREE -> run np pm' i j.
Proof.
  intros Hm Hsh Ht Hk Hf Hr Hi. pose proof Hr as (? & ? & Hc & _). revert Hr. apply run_ext. intros x Hx.
  rewrite Hm. destruct (decide (x = n)) as [->|Hxn].
  - rewrite (Hf n) by lia. destruct (head_not_cont sh t k Hsh Ht). split; [done|marks].
  - destruct (decide (n < x < n + k)); [|done]. exfalso. destruct (decide (i < n)).
    + specialize (Hc n ltac:(lia)). rewrite (Hf n) in Hc by lia. marks.
    + apply Hi. apply Hf. lia.
Qed.
Lemma marked_ok np sh pm n k t pm' : marks_ok np sh pm -> 4 <= sh -> 0 <= n -> 1 <= k -> n + k <= np ->
  (forall i, n <= i < n + k -> pm i = RTHEAP_PFREE) -> head_mark sh t k -> marked pm n k t pm' -> marks_ok np sh pm'.
Proof.
  intros Hok Hsh Hn Hk Hnk Hf Ht Hm x Hx. pose proof (marked_run _ _ _ _ _ _ _ Hok Hsh Hn Hk Hnk Hf Hm) as Hr.
  destruct (decide (x = n)) as [->|Hxn].
  { rewrite Hm, decide_True by done. destruct Ht as [[Ht ->]|[[Ht ->]|Ht]]; auto 6. }
  destruct (decide (n < x < n + k)) as [Hin|Hout].
  { rewrite Hm, decide_False, decide_True by done. do 4 right. split_and!; [done|lia|]. rewrite Hm.
    destruct (decide (x - 1 = n)); [|rewrite decide_True by lia; by left].
    destruct Ht as [[Ht ->]|[[Ht ->]|Ht]]; [lia|auto..]. }
  rewrite Hm, decide_chain by done. destruct (Hok x Hx) as [H|[H|[[H Hr2]|[H|(H & Hx0 & Hp)]]]]; auto 6.
  - do 2 right. left. split; [done|]. eapply marked_run_other; [done..|marks].
  - do 4 right. split_and!; [done..|]. rewrite Hm, decide_chain; [done| |].
    + intros E. rewrite E, (Hf n) in Hp by lia. marks.
    + intros E. rewrite (Hf (x - 1)) in Hp by lia. marks.
Qed.

Lemma unmarked_run_other np sh pm n k pm' i j : marks_ok np sh pm -> 4 <= sh -> unmarked pm n k pm' -> run np pm n k ->
  pm n <> RTHEAP_PCONT -> pm i <> RTHEAP_PCONT -> 0 <= i -> i <> n -> run np pm i j -> run np pm' i j.
Proof.
  intros Hok Hsh Hm (? & ? & Hc & He) Hn Hi Hi0 Hne Hr. pose proof Hr as (? & ? & Hc' & He'). revert Hr. apply run_ext. intros x Hx.
  rewrite Hm. destruct (decide (n <= x < n + k)); [|done]. split; [marks|]. intros E. exfalso.
  destruct (decide (i < n)).
  - destruct (decide (n < i + j)); [apply Hn; apply Hc'; lia|]. assert (x = n) as -> by lia. done.
  - apply Hi, Hc. lia.
Qed.
Lemma unmarked_ok np sh pm n k pm' : marks_ok np sh pm -> 4 <= sh -> 0 <= n -> pm n = RTHEAP_PLIST -> run np pm n k ->
  unmarked pm n k pm' -> marks_ok np sh pm'.
Proof.
  intros Hok Hsh Hn Hpn Hr Hm x Hx. pose proof Hr as (? & ? & Hc & He). rewrite (Hm x).
  destruct (decide (n <= x < n + k)) as [|Hout]; [by left|].
  destruct (Hok x Hx) as [H'|[H'|[[H' Hr2]|[H'|(H' & Hx0 & Hp)]]]]; auto 6.
  - do 2 right. left. split; [done|]. eapply (unmarked_run_other np sh pm n k); [done..| | |lia| |done]; [marks..|]. intros ->. marks.
  - do 4 right. split_and!; [done..|]. rewrite Hm, decide_False; [done|]. intros E.
    assert (x = n + k) as -> by lia. apply He; [lia|done].
Qed.

(** ** Extents *)

Section extents.
Context (ps np sh : Z) (Hsh : 4 <= sh <= 22) (Hps : ps = 2 ^ sh).

Lemma page_pos : 16 <= ps.
Proof. rewrite Hps. change 16 with (2 ^ 4). apply Z.pow_le_mono_r; lia. Qed.

(** The block of [b] bytes at [p], in the page [n] of the extent [e]: a run of pages, or a block of [2^t]
    bytes in a page with that mark. *)
Definition block_at (e : rtextent) (n p b t : Z) : Prop := 0 <= n < np /\ pagemap e n = t /\
  ((t = RTHEAP_PLIST /\ p = membase e + n * ps /\ exists k, run np (pagemap e) n k /\ b = k * ps) \/
   (RTHEAP_MINLOG2 <= t <= sh + 1 /\ b = 2 ^ t /\
    exists j, 0 <= j /\ p = membase e + n * ps + j * b /\ (j = 0 \/ (j + 1) * b <= ps))).
Definition block_in (e : rtextent) (p b t : Z) : Prop := exists n, block_at e n p b t.

(** The addresses of the free pages, upwards. *)
Definition free_list (e : rtextent) (F : list Z) : Prop :=
  StronglySorted Z.lt F /\
  forall a, a ∈ F <-> exists n, 0 <= n < np /\ a = membase e + n * ps /\ pagemap e n = RTHEAP_PFREE.

(** An extent: the page map makes sense, the free pages are chained, and the byte after the
    page map does not read as the continuation of a run. *)
Definition ext_ok (m : memory) (e : rtextent) : Prop :=
  0 < membase e /\ memlim e = membase e + np * ps /\ memlim e < 2 ^ 64 /\
  marks_ok np sh (pagemap e) /\ pagemap e np <> RTHEAP_PCONT /\
  exists F, free_list e F /\ chain m (freelist e) F.

(** What a block takes: [k] pages from [n] on, marked. *)
Lemma block_span m e n p b t : ext_ok m e -> block_at e n p b t ->
  exists k, 0 <= n /\ run np (pagemap e) n k /\ pagemap e n = t /\ head_mark sh t k /\ 16 <= b /\
    membase e + n * ps <= p /\ p < membase e + (n + 1) * ps /\ p + b <= membase e + (n + k) * ps.
Proof.
  intros (_ & _ & _ & Hok & _) (Hn & Et & [(-> & -> & k & Hr & ->)|(Ht & -> & j & Hj & -> & Hjb)]).
  - pose proof Hr as (? & ? & _). pose proof page_pos. exists k. split_and!; [lia|done|done|marks|nia|lia|lia|lia].
  - assert (16 <= 2 ^ t) as Hb by (change 16 with (2 ^ 4); apply Z.pow_le_mono_r; marks). pose proof page_pos.
    destruct (decide (t = sh + 1)) as [->|Hne].
    + assert (2 ^ (sh + 1) = 2 * ps) as E by (rewrite Z.pow_add_r by lia; lia). rewrite E in *.
      assert (j = 0) as -> by (destruct Hjb; [done|nia]). exists 2.
      destruct (Hok n Hn) as [H'|[H'|[[H' Hr]|[H'|(H' & _)]]]]; [marks|marks| |marks|marks]. split_and!; try done; first [lia|marks].
    + assert (2 ^ t <= ps) as Hle by (rewrite Hps; apply Z.pow_le_mono_r; lia). exists 1.
      assert (0 <= j * 2 ^ t) by (apply Z.mul_nonneg_nonneg; lia).
      split_and!; [lia| |done|marks|done|lia|destruct Hjb; nia|destruct Hjb; nia].
      split_and!; [lia|lia|lia|]. intros Hlt E. apply (cont_head np sh) in E as [_ E]; [|done|lia|lia].
      replace (n + 1 - 1) with n in E by lia. marks.
Qed.

Lemma heads_apart pm i j k : i < j -> run np pm i k -> pm j <> RTHEAP_PCONT -> i + k <= j.
Proof. intros Hij (? & ? & Hc & _) Hj. destruct (decide (i + k <= j)); [done|]. exfalso. apply Hj, Hc. lia. Qed.

(** Two blocks of an extent are the same or apart. *)
Lemma blocks_in_apart m e p b t p' b' t' : ext_ok m e -> block_in e p b t -> block_in e p' b' t' ->
  (p = p' /\ b = b' /\ t = t') \/ p + b <= p' \/ p' + b' <= p.
Proof.
  intros He [n HB] [n' HB']. pose proof page_pos.
  destruct (block_span _ _ _ _ _ _ He HB) as (k & Hn & Hr & Et & Ht & Hb & Hlo & Hpg & Hhi).
  destruct (block_span _ _ _ _ _ _ He HB') as (k' & Hn' & Hr' & Et' & Ht' & Hb' & Hlo' & Hpg' & Hhi').
  destruct (head_not_cont sh t k) as [Htc _]; [lia|done|]. destruct (head_not_cont sh t' k') as [Htc' _]; [lia|done|].
  destruct (Z.lt_trichotomy n n') as [Hlt|[->|Hlt]].
  - right; left. pose proof (heads_apart _ n n' k Hlt Hr ltac:(congruence)). nia.
  - destruct HB as (_ & _ & HB), HB' as (_ & _ & HB'). assert (t = t') as <- by congruence.
    destruct HB as [(Hp & -> & i & Hi & ->)|(Hp & -> & j & Hj & -> & Hjb)].
    + destruct HB' as [(_ & -> & i' & Hi' & ->)|(? & _)]; [|marks]. left. by rewrite (run_unique _ _ _ _ _ Hi Hi').
    + destruct HB' as [(? & _)|(_ & -> & j' & Hj' & -> & _)]; [marks|].
      destruct (Z.lt_trichotomy j j') as [?|[->|?]]; [right; left|by left|right; right]; nia.
  - right; right. pose proof (heads_apart _ n' n k' Hlt Hr' ltac:(congruence)). nia.
Qed.

(** A block and a free page are apart. *)
Lemma block_page_apart m e p b t n : ext_ok m e -> block_in e p b t -> 0 <= n < np -> pagemap e n = RTHEAP_PFREE ->
  p + b <= membase e + n * ps \/ membase e + (n + 1) * ps <= p.
Proof.
  intros He [n' HB] Hn Hf. pose proof page_pos.
  destruct (block_span _ _ _ _ _ _ He HB) as (k & Hn' & Hr & Et & Ht & Hb & Hlo & Hpg & Hhi).
  destruct (head_not_cont sh t k) as [_ Htf]; [lia|done|]. assert (n' <> n) by congruence.
  destruct (decide (n' < n)) as [Hlt|]; [left|right; nia].
  assert (pagemap e n <> RTHEAP_PCONT) as Hc by marks. pose proof (heads_apart _ n' n k Hlt Hr Hc). nia.
Qed.
Lemma block_within m e p b t : ext_ok m e -> block_in e p b t -> membase e <= p /\ p + b <= memlim e /\ 16 <= b.
Proof.
  intros He [n HB]. pose proof He as (_ & Hlim & _). pose proof page_pos.
  destruct (block_span _ _ _ _ _ _ He HB) as (k & Hn & (? & ? & _) & _ & _ & Hb & Hlo & _ & Hhi). nia.
Qed.
End extents.
