(* ===== verification/HeapExt.v ===== *)
(** * What taking and releasing pages does to an extent of the heap. *)

From S2P Require Import Prelude Heap HeapFacts.
From stdpp Require Import list sorting.
#[local] Open Scope Z_scope.

(** The parameters [rtheap_init] gives a heap. *)
Definition params_ok (h : rtheap) : Prop :=
  RTHEAP_MINLOG2 <= pageshift h <= RTHEAP_MAXLOG2 /\ pagesize h = 2 ^ pageshift h /\ 0 < npages h /\
  maxcont h = npages h * pagesize h.

(** A word of a free page. *)
Definition in_free_page (h : rtheap) (e : rtextent) (a : Z) : Prop := exists i, 0 <= i < npages h /\
  pagemap e i = RTHEAP_PFREE /\ membase e + i * pagesize h <= a /\ a + 8 <= membase e + (i + 1) * pagesize h.

(** The size of a request for pages and the mark for it: a power of two up to two pages, or whole pages. *)
Definition size_class (h : rtheap) (bsize log2 : Z) : Prop :=
  (RTHEAP_MINLOG2 <= log2 <= pageshift h + 1 /\ bsize = 2 ^ log2) \/ (log2 = 0 /\ exists n, 1 <= n /\ bsize = n * pagesize h).

(** The blocks that pages for [bsize] bytes are split into. *)
Definition split_blocks (h : rtheap) (hp bsize : Z) : list Z :=
  if bsize <? pagesize h then cells hp bsize (Z.to_nat (pagesize h / bsize)) else [hp].

Section extent.
Context (h : rtheap) (Hh : params_ok h).
Abbreviation ps := (pagesize h).
Abbreviation np := (npages h).
Abbreviation sh := (pageshift h).
Abbreviation extent_ok := (ext_ok ps np sh).

Lemma heap_page : 4 <= sh <= 22 /\ ps = 2 ^ sh /\ 0 < np /\ 16 <= ps.
Proof.
  destruct Hh as (Hs & Hp & Hn & _). unfold RTHEAP_MINLOG2, RTHEAP_MAXLOG2 in Hs. split_and!; try done; [lia..|].
  by apply (page_pos ps sh).
Qed.

Lemma page_number e n j : 0 <= j < ps -> Z.shiftr (membase e + n * ps + j - membase e) sh = n.
Proof.
  intros Hj. destruct heap_page as (? & Ep & _ & ?). rewrite Z.shiftr_div_pow2, <- Ep by lia.
  replace (membase e + n * ps + j - membase e) with (j + n * ps) by ring. rewrite Z.div_add, Z.div_small by lia. lia.
Qed.

(** ** A run out of the free pages *)

Lemma free_cells e A k B hp : free_list ps np e (A ++ cells hp ps (S k) ++ B) ->
  exists n, 0 <= n /\ n + Z.of_nat (S k) <= np /\ hp = membase e + n * ps /\
    forall i, n <= i < n + Z.of_nat (S k) -> pagemap e i = RTHEAP_PFREE.
Proof.
  intros [_ HF]. destruct heap_page as (? & Ep & _ & ?).
  assert (forall j, 0 <= j < Z.of_nat (S k) -> exists n, 0 <= n < np /\ hp + j * ps = membase e + n * ps /\ pagemap e n = RTHEAP_PFREE) as Hc.
  { intros j Hj. apply HF. apply elem_of_app. right. apply elem_of_app. left. apply elem_of_cells. by exists j. }
  destruct (Hc 0) as (n & Hn & En & _); [lia|]. exists n.
  assert (forall j i, hp + j * ps = membase e + i * ps -> i = n + j) as Hi.
  { intros j i E. apply (Z.mul_reg_r _ _ ps); [lia|]. lia. }
  split_and!; [lia| |lia|].
  - destruct (Hc (Z.of_nat k)) as (n' & Hn' & En' & _); [lia|]. apply Hi in En'. lia.
  - intros i Hi'. destruct (Hc (i - n)) as (n' & Hn' & En' & Ef); [lia|]. apply Hi in En'. by replace i with n' by lia.
Qed.

Lemma sorted_drop_middle A C B : StronglySorted Z.lt (A ++ C ++ B) -> StronglySorted Z.lt (A ++ B).
Proof.
  rewrite !StronglySorted_app. intros (H1 & HA & H2 & HC & HB). split_and!; [|done..].
  intros x y Hx Hy. apply H1; [done|]. apply elem_of_app. by right.
Qed.

(** Without the run the rest are the free pages. *)
Lemma free_list_marked e A k B hp n t e' : free_list ps np e (A ++ cells hp ps (S k) ++ B) -> hp = membase e + n * ps ->
  4 <= sh -> head_mark sh t (Z.of_nat (S k)) -> membase e' = membase e -> marked (pagemap e) n (Z.of_nat (S k)) t (pagemap e') ->
  free_list ps np e' (A ++ B).
Proof.
  intros [Hs HF] -> H4 Ht Eb Hm. destruct heap_page as (? & Ep & _ & ?). split; [by eapply sorted_drop_middle|]. intros a. rewrite Eb.
  destruct (head_not_cont sh t _ H4 Ht) as [_ Htf].
  assert (a ∈ A ++ B <-> a ∈ A ++ cells (membase e + n * ps) ps (S k) ++ B /\ (a ∉ cells (membase e + n * ps) ps (S k))) as ->.
  { apply sorted_nodup in Hs. rewrite !elem_of_app. apply NoDup_app in Hs as (_ & HA & Hs). apply NoDup_app in Hs as (_ & HC & _).
    split; [|tauto]. intros [Ha|Ha]; (split; [tauto|]); intros Hin; [|by apply (HC a)]. apply (HA a Ha). apply elem_of_app. by left. }
  rewrite HF, elem_of_cells. split.
  - intros [(i & Hi & -> & Ef) Hout]. exists i. do 2 (split; [done|]). rewrite Hm, !decide_False; [done| |];
      intros Hx; apply Hout; exists (i - n); [split; [lia|ring]|]. subst i. split; [lia|ring].
  - intros (i & Hi & -> & Ef). rewrite Hm in Ef. destruct (decide (i = n)); [done|]. destruct (decide (n < i < _)); [marks|].
    split; [by exists i|]. intros (j & Hj & E). assert (i = n + j) by (apply (Z.mul_reg_r _ _ ps); lia). lia.
Qed.

(** [get_free_range] takes the run out of the chain. *)
Lemma unlink_run e m A k B hp : chain m (freelist e) (A ++ cells hp ps (S k) ++ B) -> NoDup (A ++ cells hp ps (S k) ++ B) ->
  exists fl m1, (if hp =? freelist e then (set_freelist (m (hp + Z.of_nat k * ps)) e, m)
       else (e, <[default 0 (last A) := m (hp + Z.of_nat k * ps)]> m)) = (set_freelist fl e, m1) /\
    chain m1 fl (A ++ B) /\ forall a, m1 a <> m a -> a ∈ A.
Proof.
  intros Hc Hnd. assert (chain m (m (hp + Z.of_nat k * ps)) B) as HB.
  { rewrite cells_snoc in Hc. apply cells_seg_app in Hc as (r & _ & Hc). apply cells_seg_app in Hc as (s & Hs & HB).
    apply cells_seg_app in Hs as (q & _ & <- & _ & Hq). cbn [seg] in Hq. by rewrite Hq. }
  destruct A as [|x A _] using rev_ind.
  - cbn [app cells] in Hc. destruct Hc as [-> _]. rewrite Z.eqb_refl. by exists (m (hp + Z.of_nat k * ps)), m.
  - assert (freelist e <> hp) as Hne.
    { intros E. apply chain_head in Hc. apply NoDup_app in Hnd as (_ & Hd & _). apply (Hd hp); [|apply elem_of_app; left; by left].
      rewrite <- E, Hc. destruct A as [|y A]; cbn [app head default]; apply list_elem_of_here. }
    rewrite (proj2 (Z.eqb_neq hp (freelist e))) by congruence. rewrite last_snoc. cbn [default].
    exists (freelist e), (<[x := m (hp + Z.of_nat k * ps)]> m). split; [by destruct e|]. split.
    + apply cells_seg_app in Hc as (r & HA & _). apply cells_seg_app. exists (m (hp + Z.of_nat k * ps)). split.
      * apply (seg_redirect _ _ _ _ r); [|done]. by apply NoDup_app in Hnd as (? & _ & _).
      * apply (cells_seg_ext m); [|done]. intros a Ha. rewrite fn_lookup_insert_ne; [done|]. intros <-.
        apply NoDup_app in Hnd as (_ & Hd & _). apply (Hd x); [apply elem_of_app; right; apply list_elem_of_here|].
        apply elem_of_app. by right.
    + intros a Ha. destruct (decide (a = x)) as [->|]; [apply elem_of_app; right; apply list_elem_of_here|].
      by rewrite fn_lookup_insert_ne in Ha.
Qed.

(** The pages are split into blocks. *)
Lemma split_range hp bsize log2 a : size_class h bsize log2 -> a ∈ split_blocks h hp bsize -> hp <= a /\ a + 8 <= hp + ps.
Proof.
  destruct heap_page as (H4 & Ep & _ & ?). unfold split_blocks. intros Hc. zcase.
  - intros (i & Hi & ->)%elem_of_cells. destruct Hc as [[Hl ->]|(_ & n & Hn & ->)]; [|nia].
    assert (16 <= 2 ^ log2) by (change 16 with (2 ^ 4); apply Z.pow_le_mono_r; marks).
    assert (0 <= i * 2 ^ log2) by (apply Z.mul_nonneg_nonneg; lia). rewrite Z2Nat.id in Hi by (apply Z.div_pos; lia).
    assert ((i + 1) * 2 ^ log2 <= ps / 2 ^ log2 * 2 ^ log2) by (apply Z.mul_le_mono_nonneg_r; lia).
    pose proof (Z.mul_div_le ps (2 ^ log2)). lia.
  - intros ->%list_elem_of_singleton. lia.
Qed.
Lemma split_chain hp bsize log2 m : size_class h bsize log2 -> 0 < hp ->
  let m' := if bsize <? ps then chain_pages (ps / bsize) hp bsize m else <[hp := 0]> m in
  chain m' hp (split_blocks h hp bsize) /\ forall a, m' a <> m a -> a ∈ split_blocks h hp bsize.
Proof.
  destruct heap_page as (H4 & Ep & _ & ?). intros Hc Hhp. unfold split_blocks. cbn zeta. zcase.
  - destruct Hc as [[Hl ->]|(_ & n & Hn & ->)]; [|nia].
    assert (0 < 2 ^ log2) by (apply Z.pow_pos_nonneg; marks). assert (0 < ps / 2 ^ log2) by (apply Z.div_str_pos; lia). split.
    + by apply chain_pages_chain.
    + intros a Ha. destruct (decide (a ∈ cells hp (2 ^ log2) (Z.to_nat (ps / 2 ^ log2)))); [done|]. exfalso. apply Ha.
      by apply chain_pages_other.
  - split; [cbn [seg]; rewrite fn_lookup_insert; split_and!; [done|lia|done]|]. intros a Ha.
    destruct (decide (a = hp)) as [->|]; [apply list_elem_of_here|]. by rewrite fn_lookup_insert_ne in Ha.
Qed.

(** The number of pages of the request. *)
Lemma class_pages bsize log2 k : size_class h bsize log2 -> (k <> O -> Z.of_nat k * ps < bsize) -> bsize <= Z.of_nat (S k) * ps ->
  (Z.to_nat (Z.shiftr bsize sh) - 1)%nat = k /\ head_mark sh (if log2 =? 0 then RTHEAP_PLIST else log2) (Z.of_nat (S k)) /\
  (ps <= bsize -> bsize = Z.of_nat (S k) * ps).
Proof.
  destruct heap_page as (H4 & Ep & _ & ?). intros Hc Hk Hb. rewrite Z.shiftr_div_pow2, <- Ep by lia.
  assert (forall n, 1 <= n -> bsize = n * ps -> n = Z.of_nat (S k)) as Hn.
  { intros n Hn ->. assert (n <= Z.of_nat (S k)) by (apply (Z.mul_le_mono_pos_r _ _ ps); lia). destruct k; [lia|].
    assert (Z.of_nat (S k) < n) by (apply (Z.mul_lt_mono_pos_r ps); lia). lia. }
  assert (forall n, 1 <= n -> bsize = n * ps -> (Z.to_nat (bsize / ps) - 1)%nat = k) as Hd.
  { intros n Hn1 E. rewrite E, Z.div_mul by lia. rewrite (Hn n Hn1 E). lia. }
  destruct Hc as [[Hl Eb]|(-> & n & Hn1 & E)].
  - rewrite (proj2 (Z.eqb_neq log2 0)) by marks. destruct (decide (log2 < sh)) as [Hlt|].
    + assert (bsize < ps) by (rewrite Eb, Ep; apply Z.pow_lt_mono_r; lia). assert (0 <= bsize) by (rewrite Eb; apply Z.pow_nonneg; lia).
      rewrite Z.div_small by lia. destruct k; [|lia]. split_and!; [done|marks|lia].
    + destruct (decide (log2 = sh)) as [->|].
      * assert (bsize = 1 * ps) as E by lia. rewrite (Hd 1) by (done || lia). pose proof (Hn 1 ltac:(lia) E). split_and!; [done|marks|lia].
      * assert (log2 = sh + 1) as -> by lia. rewrite Z.pow_add_r in Eb by lia. assert (bsize = 2 * ps) as E by lia.
        rewrite (Hd 2) by (done || lia). pose proof (Hn 2 ltac:(lia) E). split_and!; [done|marks|lia].
  - rewrite (Hd n) by done. rewrite <- (Hn n Hn1 E). split_and!; [done|by do 2 right|done].
Qed.

(** The part of [get_free_range] after [splitpage]: the free run becomes a run with its mark, split if it is
    smaller than a page; only words of free pages are written. *)
Lemma take_range_ok e m A k B hp bsize log2 : extent_ok m e -> free_list ps np e (A ++ cells hp ps (S k) ++ B) ->
  chain m (freelist e) (A ++ cells hp ps (S k) ++ B) -> size_class h bsize log2 ->
  (k <> O -> Z.of_nat k * ps < bsize) -> bsize <= Z.of_nat (S k) * ps ->
  exists n e' m', take_range h e bsize log2 hp (hp + Z.of_nat k * ps) (default 0 (last A)) m = (e', m') /\
    0 <= n /\ n + Z.of_nat (S k) <= np /\ hp = membase e + n * ps /\
    (forall i, n <= i < n + Z.of_nat (S k) -> pagemap e i = RTHEAP_PFREE) /\
    membase e' = membase e /\ memlim e' = memlim e /\
    marked (pagemap e) n (Z.of_nat (S k)) (if log2 =? 0 then RTHEAP_PLIST else log2) (pagemap e') /\
    extent_ok m' e' /\ (forall a, m' a <> m a -> in_free_page h e a) /\ chain m' hp (split_blocks h hp bsize).
Proof.
  intros He HF Hc Hcl Hk Hb. destruct heap_page as (H4 & Ep & Hnp & Hps).
  destruct (free_cells _ _ _ _ _ HF) as (n & Hn & Hnk & Ehp & Hfree).
  destruct (class_pages _ _ _ Hcl Hk Hb) as (Ek & Ht & _).
  pose proof He as (Hb0 & Hlim & Hl64 & Hok & Hout & _). pose proof (sorted_nodup _ (proj1 HF)) as Hnd.
  destruct (unlink_run e m A k B hp Hc Hnd) as (fl & m1 & E1 & Hc1 & Hw1). unfold take_range. rewrite E1.
  destruct (split_chain hp bsize log2 m1 Hcl) as [Hs Hw2]; [nia|]. set (m2 := if bsize <? ps then _ else _) in *.
  rewrite Ek. cbn [membase set_freelist]. rewrite Ehp, <- (Z.add_0_r (_ + n * ps)), page_number by lia. rewrite Z.add_0_r, <- Ehp.
  cbn [pagemap set_freelist]. eexists n, _, m2. split; [done|]. do 4 (split; [done|]). cbn [membase memlim pagemap set_pagemap set_freelist].
  set (t := if log2 =? 0 then RTHEAP_PLIST else log2) in *.
  assert (marked (pagemap e) n (Z.of_nat (S k)) t (mark_cont k n (<[n := t]> (pagemap e)))) as Hm.
  { intros x. rewrite mark_cont_spec. destruct (decide (x = n)) as [->|].
    - rewrite decide_False by lia. by rewrite fn_lookup_insert.
    - destruct (decide (n < x <= n + Z.of_nat k)); [by rewrite decide_True by lia|].
      rewrite decide_False by lia. by rewrite fn_lookup_insert_ne. }
  assert (forall a, a ∈ A ++ B -> a ∈ split_blocks h hp bsize -> False) as Hsep.
  { intros a Ha Hs'. assert (a ∈ A ++ B /\ (a ∉ cells hp ps (S k))) as [Ha1 Ha2].
    { split; [done|]. intros Hin. apply elem_of_app in Ha as [Ha|Ha]; apply NoDup_app in Hnd as (_ & HA & Hnd);
      [apply (HA a Ha), elem_of_app; by left|]. apply NoDup_app in Hnd as (_ & HC & _). by apply (HC a). }
    assert (a ∈ A ++ cells hp ps (S k) ++ B) as Hin by (rewrite !elem_of_app in *; tauto).
    apply HF in Hin as (i & Hi & -> & _). apply (split_range _ _ _ _ Hcl) in Hs'. assert (n = i) as <-; [|].
    - assert (n - 1 < i) by (apply (Z.mul_lt_mono_pos_r ps); lia). assert (i < n + 1) by (apply (Z.mul_lt_mono_pos_r ps); lia). lia.
    - apply Ha2. cbn [cells]. rewrite <- Ehp. apply list_elem_of_here. }
  do 2 (split; [done|]). split; [done|]. split_and!.
  - do 3 (split; [done|]). split; [apply (marked_ok np sh (pagemap e) n (Z.of_nat (S k)) t); first [done|lia]|]. split.
    + cbn [pagemap set_pagemap set_freelist]. rewrite Hm, decide_chain by lia. done.
    + exists (A ++ B). split; [apply (free_list_marked e A k B hp n t); first [done|lia]|]. apply (cells_seg_ext m1); [|done].
      intros a Ha. destruct (decide (m2 a = m1 a)) as [|Hne]; [done|]. exfalso. by apply (Hsep a Ha), Hw2.
  - intros a Ha. destruct (decide (m2 a = m1 a)) as [E|Hne].
    + rewrite E in Ha. apply Hw1 in Ha. assert (a ∈ A ++ cells hp ps (S k) ++ B) as Hin by (rewrite elem_of_app; by left).
      apply HF in Hin as (i & Hi & -> & Ef). exists i. split_and!; [lia..|done|lia|lia].
    + apply Hw2, (split_range _ _ _ _ Hcl) in Hne. exists n. split_and!; [lia..|apply Hfree; lia|lia|lia].
  - done.
Qed.

(** There is room for [bsize] bytes in adjacent free pages. *)
Definition fits_in (e : rtextent) (bsize : Z) : Prop := exists n, 0 <= n /\ n * ps + bsize <= np * ps /\
  forall i, n <= i -> i * ps < n * ps + bsize -> pagemap e i = RTHEAP_PFREE.

Lemma free_list_length e F : free_list ps np e F -> (length F <= Z.to_nat np)%nat.
Proof.
  intros [Hs HF]. rewrite <- (length_cells (membase e) ps (Z.to_nat np)). apply submseteq_length, NoDup_submseteq; [by apply sorted_nodup|].
  intros a Ha. apply HF in Ha as (n & Hn & -> & _). apply elem_of_cells. exists n. destruct heap_page. split; [lia|done].
Qed.
Lemma free_list_spaced m e F : extent_ok m e -> free_list ps np e F -> Forall (fun a => 0 < a /\ exists n, a = membase e + n * ps) F.
Proof.
  intros (Hb & _) [_ HF]. destruct heap_page as (_ & _ & _ & ?). apply list.Forall_forall. intros a (n & Hn & -> & _)%HF.
  split; [nia|]. by exists n.
Qed.

Lemma class_pos bsize log2 : size_class h bsize log2 -> 0 < bsize.
Proof.
  destruct heap_page as (? & _ & _ & ?). intros [[Hl ->]|(_ & n & Hn & ->)]; [|nia]. apply Z.pow_pos_nonneg; marks.
Qed.

(** What [get_free_range] does to the extents: the first that has room gives a run. *)
Definition range_taken (m : memory) (e : rtextent) (bsize log2 p : Z) (e' : rtextent) (m' : memory) : Prop :=
  exists n k, 0 <= n /\ 1 <= k /\ n + k <= np /\ p = membase e + n * ps /\
    (forall i, n <= i < n + k -> pagemap e i = RTHEAP_PFREE) /\ membase e' = membase e /\ memlim e' = memlim e /\
    marked (pagemap e) n k (if log2 =? 0 then RTHEAP_PLIST else log2) (pagemap e') /\ extent_ok m' e' /\
    head_mark sh (if log2 =? 0 then RTHEAP_PLIST else log2) k /\ (ps <= bsize -> bsize = k * ps) /\
    (forall a, m' a <> m a -> in_free_page h e a) /\ chain m' p (split_blocks h p bsize).

Lemma get_free_range_in_ok l m bsize log2 : Forall (extent_ok m) l -> size_class h bsize log2 ->
  match get_free_range_in h l bsize log2 m with
  | Some (p, l', m') => exists i e e', l !! i = Some e /\ l' = <[i := e']> l /\ range_taken m e bsize log2 p e' m'
  | None => forall e, e ∈ l -> ~ fits_in e bsize
  end.
Proof.
  intros Hl Hcl. destruct heap_page as (H4 & Ep & Hnp & Hps). pose proof (class_pos _ _ Hcl) as Hpos.
  induction Hl as [|e l He Hl IH]; cbn [get_free_range_in]; [by intros e H%elem_of_nil|].
  pose proof He as (_ & _ & _ & _ & _ & F & HF & Hc). pose proof (free_list_length _ _ HF).
  pose proof (find_range_spec (S (Z.to_nat np)) m ps bsize (membase e) (freelist e) F 0 ltac:(lia) Hpos Hc (proj1 HF)
    (free_list_spaced _ _ _ He HF) ltac:(lia)) as Hr.
  destruct (find_range _ _ _ _ _ _) as [[[hp lp] fh]|].
  - destruct Hr as (A & k & B & -> & -> & Hk & Hb & ->).
    destruct (take_range_ok e m A k B hp bsize log2 He HF Hc Hcl Hk Hb) as (n & e' & m' & -> & Hn & Hnk & Ehp & Hf & Eb & El & Hm & He' & Hw & Hch).
    destruct (class_pages _ _ _ Hcl Hk Hb) as (_ & Ht & Hsz).
    exists O, e, e'. do 2 (split; [done|]). exists n, (Z.of_nat (S k)). split_and!; try done; lia.
  - destruct (get_free_range_in h l bsize log2 m) as [[[p l'] m']|].
    + destruct IH as (i & ei & e' & Hi & -> & Ht). by exists (S i), ei, e'.
    + intros e' [->|He']%elem_of_cons; [|by apply IH]. intros (n & Hn & Hfit & Hfree).
      destruct (Hr (membase e + n * ps) ((bsize + ps - 1) / ps)) as (j & Hj & Hout).
      { pose proof (Z.mod_pos_bound (bsize + ps - 1) ps). pose proof (Z.div_mod (bsize + ps - 1) ps). lia. }
      apply Hout. apply HF. assert (j * ps < bsize).
      { assert ((j + 1) * ps <= bsize + ps - 1); [|lia]. transitivity ((bsize + ps - 1) / ps * ps).
        - apply Z.mul_le_mono_nonneg_r; lia.
        - rewrite Z.mul_comm. apply Z.mul_div_le. lia. }
      exists (n + j). split_and!; [lia| |ring|apply Hfree; lia].
      apply (Z.mul_lt_mono_pos_r ps); lia.
Qed.

(** ** Release *)

(** The walk to the place of a block among the free pages. *)
Lemma chain_place_spec fuel m block last0 nxt F : chain m nxt F -> StronglySorted Z.lt F -> (length F <= fuel)%nat ->
  exists A B, F = A ++ B /\ (forall a, a ∈ A -> a < block) /\ (forall b, b ∈ B -> block <= b) /\
    chain_place fuel m block last0 nxt = (default last0 (last A), default 0 (head B)).
Proof.
  revert last0 nxt F. induction fuel as [|fuel IH]; intros last0 nxt F Hc Hs Hl.
  - destruct F; [|cbn in Hl; lia]. cbn [seg] in Hc. subst nxt. exists [], []. split_and!; [done|by intros a H%elem_of_nil..|done].
  - cbn [chain_place]. destruct F as [|x F].
    { cbn [seg] in Hc. subst nxt. exists [], []. split_and!; [done|by intros a H%elem_of_nil..|done]. }
    destruct Hc as (-> & Hx & Hc). rewrite (proj2 (Z.eqb_neq x 0) Hx). cbn [negb andb]. apply StronglySorted_inv in Hs as [Hs Hall].
    rewrite list.Forall_forall in Hall. zcase.
    + destruct (IH x (m x) F Hc Hs) as (A & B & -> & HA & HB & ->); [cbn in Hl; lia|]. exists (x :: A), B. split_and!; [done| |done|].
      * intros a [->|Ha]%elem_of_cons; [done|by apply HA].
      * f_equal. rewrite last_cons. by destruct (last A).
    + exists [], (x :: F). split_and!; [done|by intros a H%elem_of_nil| |done].
      intros b [->|Hb]%elem_of_cons; [done|]. specialize (Hall b Hb). lia.
Qed.

(** The writes of the release: the pages are linked, the last to what follows, what comes before to the first. *)
Lemma relink_run fuel m fl F block k : chain m fl F -> StronglySorted Z.lt F -> (length F <= fuel)%nat -> 0 < block -> 1 <= k ->
  (forall a, a ∈ cells block ps (Z.to_nat k) -> a ∈ F -> False) ->
  exists A B last nxt, F = A ++ B /\ (forall a, a ∈ A -> a < block) /\ (forall b, b ∈ B -> block <= b) /\
    let m1 := link_pages (Z.to_nat (k - 1)) block ps m in
    chain_place fuel m1 block 0 fl = (last, nxt) /\
    let m2 := <[block + k * ps - ps := nxt]> m1 in
    exists m' fl', (if last =? 0 then (block, m2) else (fl, <[last := block]> m2)) = (fl', m') /\
      chain m' fl' (A ++ cells block ps (Z.to_nat k) ++ B) /\ forall a, m' a <> m a -> a ∈ A \/ a ∈ cells block ps (Z.to_nat k).
Proof.
  intros Hc Hs Hl Hb Hk Hd. destruct heap_page as (_ & _ & _ & Hps). set (m1 := link_pages _ _ _ _).
  assert (cells block ps (Z.to_nat k) = cells block ps (Z.to_nat (k - 1)) ++ [block + k * ps - ps]) as Ec.
  { replace (Z.to_nat k) with (S (Z.to_nat (k - 1))) by lia. rewrite cells_snoc, Z2Nat.id by lia. do 2 f_equal. ring. }
  assert (forall a, (a ∉ cells block ps (Z.to_nat k)) -> m1 a = m a) as Hm1.
  { intros a Ha. apply link_other; [lia|]. rewrite Ec, not_elem_of_app in Ha. tauto. }
  assert (chain m1 fl F) as Hc1 by (apply (cells_seg_ext m); [|done]; intros a Ha; apply Hm1; intros Hin; by apply (Hd a)).
  destruct (chain_place_spec fuel m1 block 0 fl F Hc1 Hs Hl) as (A & B & -> & HA & HB & E).
  exists A, B, (default 0 (last A)), (default 0 (head B)). do 3 (split; [done|]). cbn zeta. split; [exact E|].
  set (tail := block + k * ps - ps) in *. set (nxt := default 0 (head B)). set (m2 := <[tail := nxt]> m1).
  assert (forall a, a ∈ A ++ B -> m2 a = m1 a) as Hm2.
  { intros a Ha. unfold m2. rewrite fn_lookup_insert_ne; [done|]. intros <-. apply (Hd tail); [|done]. rewrite Ec. apply elem_of_app. right. by left. }
  assert (seg m2 block (cells block ps (Z.to_nat k)) nxt) as Hcells.
  { rewrite Ec. apply cells_seg_app. exists tail. split; [|unfold m2; cbn [seg]; rewrite fn_lookup_insert; split_and!; [done| |done]; unfold tail; nia].
    apply (cells_seg_ext m1).
    - intros a (i & Hi & ->)%elem_of_cells. unfold m2. rewrite fn_lookup_insert_ne; [done|]. unfold tail. nia.
    - unfold m1. replace tail with (block + Z.of_nat (Z.to_nat (k - 1)) * ps) by (unfold tail; rewrite Z2Nat.id by lia; ring).
      apply cell_link_seg; lia. }
  apply cells_seg_app in Hc1 as (r & HcA & HcB). assert (r = nxt) as -> by (by apply chain_head in HcB).
  assert (chain m2 nxt B) as HcB2 by (apply (cells_seg_ext m1); [intros a Ha; apply Hm2, elem_of_app; by right|done]).
  assert (forall a, m2 a <> m a -> a ∈ cells block ps (Z.to_nat k)) as Hw.
  { intros a Ha. destruct (decide (a ∈ cells block ps (Z.to_nat k))) as [|Hn]; [done|]. exfalso. apply Ha. rewrite <- (Hm1 a Hn).
    unfold m2. rewrite fn_lookup_insert_ne; [done|]. intros <-. apply Hn. rewrite Ec. apply elem_of_app. right. by left. }
  destruct A as [|x A _] using rev_ind.
  - cbn [last default Z.eqb]. exists m2, block. split; [done|]. split; [|intros a Ha; right; by apply Hw].
    cbn [app]. apply cells_seg_app. by exists nxt.
  - rewrite last_snoc. change (default 0 (Some x)) with x. assert (x <> 0) as Hx by (apply (seg_nonzero _ _ _ _ x HcA), elem_of_app; right; by left).
    rewrite (proj2 (Z.eqb_neq x 0) Hx). exists (<[x := block]> m2), fl. split; [done|].
    assert (x ∈ (A ++ [x]) ++ B) as HxF by (apply elem_of_app; left; apply elem_of_app; right; by left).
    pose proof (sorted_nodup _ Hs) as Hnd. apply NoDup_app in Hnd as (HndA & HAB & _). split.
    + apply cells_seg_app. exists block. split; [apply (seg_redirect _ _ _ _ nxt); [done|]|].
      * apply (cells_seg_ext m1); [|done]. intros a Ha. apply Hm2, elem_of_app. by left.
      * apply (cells_seg_ext m2); [|apply cells_seg_app; by exists nxt]. intros a Ha. rewrite fn_lookup_insert_ne; [done|]. intros <-.
        apply elem_of_app in Ha as [Ha|Ha]; [by apply (Hd x)|]. apply (HAB x); [|done]. apply elem_of_app. right. by left.
    + intros a Ha. destruct (decide (a = x)) as [->|]; [left; apply elem_of_app; right; by left|].
      rewrite fn_lookup_insert_ne in Ha by done. right. by apply Hw.
Qed.

(** A run of pages goes back to its place in the chain. *)
Lemma release_run_ok e m n k : extent_ok m e -> 0 <= n -> pagemap e n = RTHEAP_PLIST -> run np (pagemap e) n k ->
  exists e' m', release_run h e (membase e + n * ps) n k m = (e', m') /\ membase e' = membase e /\ memlim e' = memlim e /\
    unmarked (pagemap e) n k (pagemap e') /\ extent_ok m' e' /\
    forall a, m' a <> m a -> in_free_page h e a \/ (membase e + n * ps <= a /\ a + 8 <= membase e + (n + k) * ps).
Proof.
  intros He Hn Hpn Hr. destruct heap_page as (H4 & Ep & Hnp & Hps). pose proof Hr as (Hk & Hnk & Hcont & _).
  pose proof He as (Hb0 & Hlim & Hl64 & Hok & Hout & F & HF & Hc). pose proof HF as [Hs HFi].
  set (block := membase e + n * ps).
  assert (forall a, a ∈ cells block ps (Z.to_nat k) <-> exists i, n <= i < n + k /\ a = membase e + i * ps) as Hcells.
  { intros a. rewrite elem_of_cells, Z2Nat.id by lia. split; intros (i & Hi & ->); [exists (n + i)|exists (i - n)]; (split; [lia|unfold block; ring]). }
  assert (forall a, a ∈ cells block ps (Z.to_nat k) -> a ∈ F -> False) as Hd.
  { intros a (i & Hi & ->)%Hcells (j & Hj & E & Ef)%HFi. assert (i = j) as <- by (apply (Z.mul_reg_r _ _ ps); lia).
    destruct (decide (i = n)) as [->|]; [marks|]. rewrite (Hcont i) in Ef by lia. marks. }
  destruct (relink_run (S (Z.to_nat np)) m (freelist e) F block k Hc Hs) as (A & B & last & nxt & EF & HA & HB & E & m' & fl' & Em & Hc' & Hw);
    [pose proof (free_list_length _ _ HF); lia|unfold block; nia|lia|done|].
  unfold release_run. fold block. cbn [freelist set_pagemap]. rewrite E.
  set (pm' := mark_free (Z.to_nat k) n (pagemap e)).
  assert (unmarked (pagemap e) n k pm') as Hm by (intros x; unfold pm'; rewrite mark_free_spec, Z2Nat.id by lia; done).
  assert (free_list ps np (set_freelist fl' (set_pagemap pm' e)) (A ++ cells block ps (Z.to_nat k) ++ B)) as HF'.
  { subst F. split.
    - apply StronglySorted_app in Hs as (HAB & HsA & HsB). rewrite !StronglySorted_app. split_and!; [|done| |apply cells_sorted; lia|done].
      + intros x y Hx. rewrite elem_of_app. intros [(i & Hi & ->)%Hcells|Hy]; [|by apply HAB]. specialize (HA x Hx). unfold block in HA. nia.
      + intros x y (i & Hi & ->)%Hcells Hy. pose proof (HB y Hy) as Hle. assert (y ∈ A ++ B) as Hin by (apply elem_of_app; by right).
        pose proof (proj1 (HFi y) Hin) as (j & Hj & -> & _). assert (n <= j) by (apply (Z.mul_le_mono_pos_r _ _ ps); unfold block in Hle; lia).
        assert (n + k <= j); [|nia]. destruct (decide (n + k <= j)); [done|]. exfalso. apply (Hd (membase e + j * ps)); [|done].
        apply Hcells. exists j. lia.
    - intros a. cbn [membase pagemap set_freelist set_pagemap]. rewrite !elem_of_app, Hcells. split.
      + intros [Ha|[(i & Hi & ->)|Ha]]; [|exists i; split_and!; [lia..|done|]; rewrite Hm; by rewrite decide_True|];
          (assert (a ∈ A ++ B) as (i & Hi & -> & Ef)%HFi by (rewrite elem_of_app; tauto)); exists i; (split; [done|split; [done|]]);
          rewrite Hm; by destruct (decide _).
      + intros (i & Hi & -> & Ef). rewrite Hm in Ef. destruct (decide (n <= i < n + k)); [right; left; by exists i|].
        assert (membase e + i * ps ∈ A ++ B) as Hin by (apply HFi; by exists i). rewrite elem_of_app in Hin. tauto. }
  exists (set_freelist fl' (set_pagemap pm' e)), m'. split.
  { destruct (last =? 0); injection Em as <- <-; [done|]. by destruct e. }
  do 2 (split; [done|]). split; [done|]. split.
  - do 3 (split; [done|]). split; [by eapply unmarked_ok; [done|lia|..]|]. split; [|by eexists].
    cbn [pagemap set_pagemap set_freelist]. rewrite Hm, decide_False by lia. done.
  - intros a [Ha|(i & Hi & ->)%Hcells]%Hw; [left|right; nia]. assert (a ∈ F) as (i & Hi & -> & Ef)%HFi by (rewrite EF, elem_of_app; by left).
    exists i. split_and!; [lia..|done|lia|lia].
Qed.
End extent.
