(* ===== verification/HeapSafe.v ===== *)
(** * The heap without TLSF: blocks held never overlap, and the allocator leaves their contents alone. *)

From S2P Require Import Prelude Heap HeapFacts HeapExt.
From stdpp Require Import list sorting.
#[local] Open Scope Z_scope.

Section heap.
Context (h : rtheap).
Abbreviation ps := (pagesize h).
Abbreviation np := (npages h).
Abbreviation sh := (pageshift h).

Definition block (p b t : Z) : Prop := exists e, e ∈ extents h /\ block_in ps np sh e p b t.

(** The word at [a] has no byte of the blocks [live]. *)
Definition outside (live : list (Z * Z)) (a : Z) : Prop := forall p b, (p, b) ∈ live -> a + 8 <= p \/ p + b <= a.

Definition sizes (live : list (Z * Z)) : Z := foldr (fun pb s => pb.2 + s) 0 live.

(** A heap, the blocks [bl] on its bucket lists by their logarithm, and the blocks [live] that are out. *)
Record heap_ok (m : memory) (bl : Z -> list Z) (live : list (Z * Z)) : Prop := {
  ok_params : params_ok h;
  ok_exts : Forall (ext_ok ps np sh m) (extents h);
  ok_apart : forall i j e e', extents h !! i = Some e -> extents h !! j = Some e' -> i <> j ->
    memlim e <= membase e' \/ memlim e' <= membase e;
  ok_buckets : forall lg, RTHEAP_MINLOG2 <= lg <= sh + 1 -> chain m (buckets h (lg - RTHEAP_MINLOG2)) (bl lg) /\
    NoDup (bl lg) /\ forall p, p ∈ bl lg -> block p (2 ^ lg) lg;
  ok_live : NoDup (map fst live);
  ok_held : forall p b, (p, b) ∈ live -> exists t, block p b t /\ forall lg, RTHEAP_MINLOG2 <= lg <= sh + 1 -> p ∉ bl lg;
  ok_ubytes : ubytes h = sizes live
}.
End heap.
Arguments heap_ok : clear implicits.

#[export] Instance sizes_proper : Proper ((≡ₚ) ==> (=)) sizes.
Proof. intros l k Hp. induction Hp; unfold sizes in *; cbn [foldr]; lia. Qed.

Section facts.
Context (h : rtheap) (m : memory) (bl : Z -> list Z) (live : list (Z * Z)) (Hok : heap_ok h m bl live).
Abbreviation ps := (pagesize h).
Abbreviation np := (npages h).
Abbreviation sh := (pageshift h).

Lemma ok_ext e : e ∈ extents h -> ext_ok ps np sh m e.
Proof. destruct Hok as [_ He _ _ _ _ _]. rewrite list.Forall_forall in He. apply He. Qed.
Lemma ok_page : 4 <= sh <= 22 /\ ps = 2 ^ sh /\ 0 < np /\ 16 <= ps.
Proof. apply heap_page, Hok. Qed.
Lemma exts_apart e e' : e ∈ extents h -> e' ∈ extents h -> e = e' \/ memlim e <= membase e' \/ memlim e' <= membase e.
Proof.
  intros [i Hi]%list_elem_of_lookup_1 [j Hj]%list_elem_of_lookup_1. destruct (decide (i = j)) as [->|Hij]; [left; congruence|].
  right. by apply (ok_apart h m bl live Hok i j).
Qed.
Lemma block_range p b t : block h p b t -> 0 < p /\ 16 <= b /\ p + b < 2 ^ 64.
Proof.
  intros (e & He & HB). pose proof (ok_ext e He) as Hee. pose proof ok_page as (? & ? & _).
  destruct (block_within ps np sh ltac:(lia) ltac:(done) m e p b t Hee HB). destruct Hee as (? & ? & ? & _). lia.
Qed.
Lemma blocks_apart p b t p' b' t' : block h p b t -> block h p' b' t' ->
  (p = p' /\ b = b' /\ t = t') \/ p + b <= p' \/ p' + b' <= p.
Proof.
  intros (e & He & HB) (e' & He' & HB'). pose proof ok_page as (? & ? & _).
  destruct (block_within ps np sh ltac:(lia) ltac:(done) m e p b t (ok_ext e He) HB).
  destruct (block_within ps np sh ltac:(lia) ltac:(done) m e' p' b' t' (ok_ext e' He') HB').
  destruct (exts_apart e e' He He') as [<-|[?|?]]; [|right; left; lia|right; right; lia].
  by apply (blocks_in_apart ps np sh ltac:(lia) ltac:(done) m e p b t p' b' t' (ok_ext e He)).
Qed.
(** The words of free pages are not in blocks. *)
Lemma free_word_apart e a p b t : e ∈ extents h -> in_free_page h e a -> block h p b t -> a + 8 <= p \/ p + b <= a.
Proof.
  intros He (i & Hi & Ef & Hlo & Hhi) (e' & He' & HB). pose proof ok_page as (? & ? & _ & ?).
  destruct (block_within ps np sh ltac:(lia) ltac:(done) m e' p b t (ok_ext e' He') HB).
  pose proof (ok_ext e He) as Hee. pose proof Hee as (_ & Hl & _).
  destruct (exts_apart e e' He He') as [<-|[?|?]].
  - destruct (block_page_apart ps np sh ltac:(lia) ltac:(done) m e p b t i Hee HB Hi Ef); lia.
  - left. nia.
  - right. nia.
Qed.
Lemma live_block p b : (p, b) ∈ live -> exists t, block h p b t.
Proof. intros (t & HB & _)%(ok_held h m bl live Hok). by exists t. Qed.
Lemma free_word_outside e a : e ∈ extents h -> in_free_page h e a -> outside live a.
Proof. intros He Ha p b (t & HB)%live_block. by apply (free_word_apart e a p b t). Qed.
Lemma bucket_word_outside lg a : RTHEAP_MINLOG2 <= lg <= sh + 1 -> a ∈ bl lg -> outside live a.
Proof.
  intros Hlg Ha p b Hp. destruct (ok_held h m bl live Hok p b Hp) as (t & HB & Hn).
  destruct (ok_buckets h m bl live Hok lg Hlg) as (_ & _ & Hb). pose proof (Hb a Ha) as HA.
  destruct (block_range _ _ _ HA) as (_ & ? & _). destruct (blocks_apart _ _ _ _ _ _ HA HB) as [(-> & _)|[?|?]]; [|left; lia|by right].
  by destruct (Hn lg Hlg).
Qed.
Lemma free_page_word e n : 0 <= n < np -> pagemap e n = RTHEAP_PFREE -> in_free_page h e (membase e + n * ps).
Proof. intros Hn Ef. pose proof ok_page as (_ & _ & _ & ?). exists n. split_and!; [lia..|done|lia|lia]. Qed.

(** Memory may change where no free page and no block of a bucket has its word. *)
Lemma heap_ok_mem m' :
  (forall e n, e ∈ extents h -> 0 <= n < np -> pagemap e n = RTHEAP_PFREE -> m' (membase e + n * ps) = m (membase e + n * ps)) ->
  (forall lg p, RTHEAP_MINLOG2 <= lg <= sh + 1 -> p ∈ bl lg -> m' p = m p) -> heap_ok h m' bl live.
Proof.
  intros Hp Hb. destruct Hok as [Hpar He Hap Hbk Hl Hh Hu]. constructor; [done| |done| |done..].
  - rewrite list.Forall_forall in He |- *. intros e Hin. destruct (He e Hin) as (? & ? & ? & ? & ? & F & HF & Hc).
    do 5 (split; [done|]). exists F. split; [done|]. apply (cells_seg_ext m); [|done]. intros a (n & Hn & -> & Ef)%HF. by apply Hp.
  - intros lg Hlg. destruct (Hbk lg Hlg) as (Hc & ? & ?). split_and!; [|done..]. apply (cells_seg_ext m); [|done]. intros a Ha. by apply (Hb lg).
Qed.
(** The users of the blocks write what they like into them. *)
Lemma heap_ok_write m' : (forall a, outside live a -> m' a = m a) -> heap_ok h m' bl live.
Proof.
  intros Hm. apply heap_ok_mem.
  - intros e n He Hn Ef. by eapply Hm, free_word_outside, free_page_word.
  - intros lg p Hlg Hp. by eapply Hm, bucket_word_outside.
Qed.
End facts.

(** ** The size of a block *)

(** What a request of [size] bytes takes. *)
Definition block_size (h : rtheap) (size : Z) : Z :=
  let size := round_size h size in
  if size <=? pagesize h * 2 then (bucket_of 64 (Z.shiftl 1 RTHEAP_MINLOG2) RTHEAP_MINLOG2 size).1 else size.

Lemma round_up x k : 0 <= k < 64 -> 0 <= x < 2 ^ 64 -> Z.land (u64 x) (u64 (Z.lnot (2 ^ k - 1))) = x / 2 ^ k * 2 ^ k.
Proof.
  intros Hk Hx. rewrite (wrapu_small 64 x) by lia. unfold wrapu. apply Z.bits_inj'. intros i Hi.
  rewrite Z.land_spec, <- Z.shiftl_mul_pow2, <- Z.shiftr_div_pow2, Z.shiftl_spec by lia.
  destruct (decide (i < 64)) as [Hi64|].
  - rewrite Z.mod_pow2_bits_low, Z.lnot_spec by lia. replace (2 ^ k - 1) with (Z.ones k) by (rewrite Z.ones_equiv; lia).
    destruct (decide (i < k)) as [Hik|].
    + rewrite Z.ones_spec_low, (Z.testbit_neg_r _ (i - k)) by lia. cbn. by rewrite andb_false_r.
    + rewrite Z.ones_spec_high, Z.shiftr_spec by lia. cbn. rewrite andb_true_r. f_equal. lia.
  - rewrite Z.mod_pow2_bits_high, andb_false_r by lia. rewrite Z.shiftr_spec by lia. replace (i - k + k) with i by lia. symmetry.
    destruct (decide (x = 0)) as [->|]; [apply Z.bits_0|]. apply Z.bits_above_log2; [lia|].
    apply (Z.lt_le_trans _ 64); [|lia]. apply Z.log2_lt_pow2; lia.
Qed.
Lemma up_bounds s a : 0 < a -> s <= (s + a - 1) / a * a < s + a.
Proof. intros. pose proof (Z.mod_pos_bound (s + a - 1) a). pose proof (Z.div_mod (s + a - 1) a). lia. Qed.

Lemma round_class_ok h size : params_ok h -> 0 < size -> size + pagesize h <= 2 ^ 64 ->
  size <= round_size h size /\ (size <= pagesize h -> round_size h size <= pagesize h) /\
  (pagesize h < size -> exists n, 1 <= n /\ round_size h size = n * pagesize h).
Proof.
  intros Hp Hs Hsz. destruct (heap_page h Hp) as (H4 & Ep & _ & Hge). unfold round_size. zcase.
  - assert (forall k, k = 4 -> size <= Z.land (u64 (size + 2 ^ k - 1)) (u64 (Z.lnot (2 ^ k - 1))) <= pagesize h) as Hr.
    { intros k ->. rewrite round_up by lia. pose proof (up_bounds size (2 ^ 4) ltac:(lia)). split; [lia|]. change (2 ^ 4) with 16 in *.
      assert (exists q, pagesize h = q * 16) as [q Hq] by (exists (2 ^ (pageshift h - 4)); rewrite Ep; change 16 with (2 ^ 4); rewrite <- Z.pow_add_r by lia; f_equal; lia).
      assert ((size + 16 - 1) / 16 <= q); [|lia]. apply Z.lt_succ_r. apply Z.div_lt_upper_bound; lia. }
    specialize (Hr 4 eq_refl). zcase; (split; [apply Hr|split; [intros _; apply Hr|lia]]).
  - rewrite Ep. rewrite round_up by lia. rewrite <- Ep. pose proof (up_bounds size (pagesize h) ltac:(lia)).
    split; [lia|]. split; [lia|]. intros _. exists ((size + pagesize h - 1) / pagesize h). split; [|done].
    apply Z.div_le_lower_bound; lia.
Qed.

Lemma bucket_of_ok fuel l size : 0 <= l -> 2 ^ l < 2 * size -> size <= 2 ^ (l + Z.of_nat fuel) ->
  exists lg, bucket_of fuel (2 ^ l) l size = (2 ^ lg, lg) /\ l <= lg /\ size <= 2 ^ lg /\ 2 ^ lg < 2 * size.
Proof.
  revert l. induction fuel as [|fuel IH]; intros l Hl Hlo Hhi; cbn [bucket_of].
  - exists l. rewrite Z.add_0_r in Hhi. done.
  - zcase; [|by exists l]. replace (Z.shiftl (2 ^ l) 1) with (2 ^ (l + 1)) by (rewrite Z.shiftl_mul_pow2, Z.pow_add_r by lia; lia).
    destruct (IH (l + 1)) as (lg & -> & ? & ? & ?); [lia|rewrite Z.pow_add_r by lia; lia|by replace (l + 1 + Z.of_nat fuel) with (l + Z.of_nat (S fuel)) by lia|].
    exists lg. split_and!; [done|lia|done|done].
Qed.
(** Up to two pages: the class of the block. *)
Lemma bucket_class h size : params_ok h -> 0 < size <= pagesize h * 2 -> 
  exists lg, bucket_of 64 (Z.shiftl 1 RTHEAP_MINLOG2) RTHEAP_MINLOG2 size = (2 ^ lg, lg) /\
    RTHEAP_MINLOG2 <= lg <= pageshift h + 1 /\ size <= 2 ^ lg.
Proof.
  intros Hp Hs. destruct (heap_page h Hp) as (H4 & Ep & _ & Hge). change (Z.shiftl 1 RTHEAP_MINLOG2) with (2 ^ 4).
  change RTHEAP_MINLOG2 with 4. destruct (decide (8 < size)) as [Hb|].
  - destruct (bucket_of_ok 64 4 size) as (lg & -> & ? & ? & Hlt); [lia|lia| |].
    { transitivity (2 ^ (22 + 1)); [|by vm_compute]. transitivity (2 ^ (pageshift h + 1)); [rewrite Z.pow_add_r by lia; lia|].
      apply Z.pow_le_mono_r; lia. }
    exists lg. split_and!; [done|done| |done]. assert (lg < pageshift h + 2); [|lia]. apply (Z.pow_lt_mono_r_iff 2); [lia..|].
    rewrite Z.pow_add_r by lia. lia.
  - exists 4. cbn [bucket_of]. rewrite (proj2 (Z.ltb_ge _ _)) by lia. split_and!; [done|lia|lia|lia].
Qed.

(** ** An extent changes *)

Section change.
Context (h : rtheap) (m : memory) (bl : Z -> list Z) (live : list (Z * Z)) (Hok : heap_ok h m bl live).
Abbreviation ps := (pagesize h).
Abbreviation np := (npages h).
Abbreviation sh := (pageshift h).

Lemma block_in_marked e e' n k t p b u : ext_ok ps np sh m e -> marked (pagemap e) n k t (pagemap e') ->
  head_mark sh t k -> 1 <= k -> (forall i, n <= i < n + k -> pagemap e i = RTHEAP_PFREE) -> membase e' = membase e ->
  block_in ps np sh e p b u -> block_in ps np sh e' p b u.
Proof.
  intros He Hm Ht Hk Hf Eb [i HB]. destruct (ok_page h m bl live Hok) as (? & ? & _).
  destruct (block_span ps np sh ltac:(lia) ltac:(done) m e i p b u He HB) as (j & _ & Hr & Eu & Hu & _).
  destruct (head_not_cont sh u j) as [_ Huf]; [lia|done|].
  assert (pagemap e' i = u) as Eu'.
  { rewrite <- Eu, Hm, decide_chain; [done| |]; intros Hi; apply Huf; rewrite <- Eu; apply Hf; lia. }
  assert (forall x, run np (pagemap e) i x -> run np (pagemap e') i x) as Hrun.
  { intros x Hx. apply (marked_run_other np sh (pagemap e) n k t); first [done|lia|congruence]. }
  exists i. destruct HB as (Hi & _ & HB). split; [done|]. split; [done|]. rewrite Eb.
  destruct HB as [(-> & -> & x & Hx & ->)|HB]; [left|by right]. split; [done|]. split; [done|]. exists x. split; [by apply Hrun|done].
Qed.
Lemma block_in_unmarked e e' n k p b u : ext_ok ps np sh m e -> unmarked (pagemap e) n k (pagemap e') ->
  pagemap e n = RTHEAP_PLIST -> run np (pagemap e) n k -> membase e' = membase e ->
  p <> membase e + n * ps -> block_in ps np sh e p b u -> block_in ps np sh e' p b u.
Proof.
  intros He Hm Hn Hrn Eb Hp [i HB]. destruct (ok_page h m bl live Hok) as (H4 & ? & _). pose proof He as (_ & _ & _ & Hmk & _).
  destruct (block_span ps np sh ltac:(lia) ltac:(done) m e i p b u He HB) as (j & Hi0 & Hr & Eu & Hu & _).
  destruct (head_not_cont sh u j) as [Huc Huf]; [lia|done|].
  assert (i <> n) as Hin.
  { intros ->. destruct HB as (_ & _ & [(_ & -> & _)|(? & _)]); [done|]. marks. }
  assert (pagemap e' i = u) as Eu'.
  { rewrite <- Eu, Hm, decide_False; [done|]. intros Hi. destruct Hrn as (_ & _ & Hc & _). apply Huc. rewrite <- Eu. apply Hc. lia. }
  assert (forall x, run np (pagemap e) i x -> run np (pagemap e') i x) as Hrun.
  { intros x Hx. apply (unmarked_run_other np sh (pagemap e) n k); first [done|lia|marks]. }
  exists i. destruct HB as (Hi & _ & HB). split; [done|]. split; [done|]. rewrite Eb.
  destruct HB as [(-> & -> & x & Hx & ->)|HB]; [left|by right]. split; [done|]. split; [done|]. exists x. split; [by apply Hrun|done].
Qed.

Lemma block_set_ext i e e' p b t (P : Z -> Prop) : extents h !! i = Some e ->
  (P p -> forall b u, block_in ps np sh e p b u -> block_in ps np sh e' p b u) ->
  P p -> block h p b t -> block (set_extents (<[i := e']> (extents h)) h) p b t.
Proof.
  intros Hi He HP (e0 & [j Hj]%list_elem_of_lookup_1 & HB).
  destruct (decide (i = j)) as [<-|Hij].
  - assert (e0 = e) as -> by congruence. exists e'. split; [|by apply He]. cbn [extents set_extents].
    apply (list_elem_of_lookup_2 _ i). apply list_lookup_insert_eq. by eapply lookup_lt_Some.
  - exists e0. split; [|done]. cbn [extents set_extents]. apply (list_elem_of_lookup_2 _ j). by rewrite list_lookup_insert_ne.
Qed.

(** The extent [i] and the memory change: what remains to be seen is that the blocks are there and the
    words of the buckets and of the other extents are not written. *)
Lemma heap_ok_ext i e e' m' live' : extents h !! i = Some e -> membase e' = membase e -> memlim e' = memlim e ->
  ext_ok ps np sh m' e' ->
  (forall a, m' a <> m a -> membase e <= a /\ a + 8 <= memlim e) ->
  (forall lg p, RTHEAP_MINLOG2 <= lg <= sh + 1 -> p ∈ bl lg -> m' p = m p /\ block (set_extents (<[i := e']> (extents h)) h) p (2 ^ lg) lg) ->
  NoDup (map fst live') ->
  (forall p b, (p, b) ∈ live' -> (p, b) ∈ live /\ forall t, block h p b t -> block (set_extents (<[i := e']> (extents h)) h) p b t) ->
  heap_ok (set_ubytes (sizes live') (set_extents (<[i := e']> (extents h)) h)) m' bl live'.
Proof.
  intros Hi Eb El He' Hw Hbk' Hnd Hlv. pose proof (ok_page h m bl live Hok) as (_ & _ & Hnp & Hps).
  destruct Hok as [Hpar He Hap Hbk Hl Hh Hu]. assert (i < length (extents h))%nat as Hlen by (by eapply lookup_lt_Some).
  assert (forall j f, <[i := e']> (extents h) !! j = Some f -> exists f0, extents h !! j = Some f0 /\ membase f = membase f0 /\ memlim f = memlim f0 /\ (j <> i -> f = f0)) as Hlk.
  { intros j f Hf. destruct (decide (i = j)) as [<-|Hij].
    - rewrite list_lookup_insert_eq in Hf by done. injection Hf as <-. exists e. by split_and!.
    - rewrite list_lookup_insert_ne in Hf by done. by exists f. }
  constructor; cbn [extents set_extents set_ubytes pagesize npages pageshift buckets ubytes].
  - exact Hpar.
  - apply list.Forall_lookup. intros j f Hf. destruct (Hlk j f Hf) as (f0 & Hf0 & Ebf & Elf & Eff).
    destruct (decide (j = i)) as [->|Hji].
    { rewrite list_lookup_insert_eq in Hf by done. injection Hf as <-. done. }
    specialize (Eff Hji). subst f0. pose proof (proj1 (list.Forall_lookup _ _) He j f Hf0) as (? & Hlim & ? & ? & ? & F & HF & Hc).
    do 5 (split; [done|]). exists F. split; [done|]. apply (cells_seg_ext m); [|done]. intros a (n & Hn & -> & _)%HF.
    destruct (decide (m' (membase f + n * ps) = m (membase f + n * ps))) as [|Hne]; [done|]. exfalso.
    apply Hw in Hne. destruct (Hap j i f e Hf0 Hi Hji); nia.
  - intros j k f g Hf Hg Hjk. destruct (Hlk j f Hf) as (f0 & Hf0 & -> & -> & _), (Hlk k g Hg) as (g0 & Hg0 & -> & -> & _).
    by apply (Hap j k).
  - intros lg Hlg. destruct (Hbk lg Hlg) as (Hc & HndL & _). split_and!; [|done|intros p Hp; by apply (Hbk' lg p Hlg)].
    apply (cells_seg_ext m); [|done]. intros a Ha. by apply (Hbk' lg a Hlg).
  - done.
  - intros p b Hp. destruct (Hlv p b Hp) as [Hin Hb]. destruct (Hh p b Hin) as (t & HB & Hn). exists t. split; [by apply Hb|done].
  - done.
Qed.
End change.

(** ** Allocation *)

(** The place of the extents, which never changes. *)
Definition limits (l : list rtextent) : list (Z * Z) := map (fun e => (membase e, memlim e)) l.

Lemma limits_insert l i e e' : l !! i = Some e -> membase e' = membase e -> memlim e' = memlim e ->
  limits (<[i := e']> l) = limits l.
Proof.
  intros Hi Eb El. unfold limits. apply list_eq. intros j. rewrite !list_lookup_fmap. destruct (decide (i = j)) as [<-|Hij].
  - rewrite list_lookup_insert_eq by (by eapply lookup_lt_Some). rewrite Hi. cbn. by rewrite Eb, El.
  - by rewrite list_lookup_insert_ne.
Qed.

(** No block of the heap starts at [q]. *)
Definition fresh (h : rtheap) (q : Z) : Prop := forall b t, ~ block h q b t.
(** The room of [bsize] bytes for a request. *)
Definition fits (h : rtheap) (bsize : Z) : Prop := exists e, e ∈ extents h /\ fits_in h e bsize.

Section range.
Context (h : rtheap) (m : memory) (bl : Z -> list Z) (live : list (Z * Z)) (Hok : heap_ok h m bl live).
Abbreviation ps := (pagesize h).
Abbreviation np := (npages h).
Abbreviation sh := (pageshift h).

(** What a run out of the free pages leaves: the heap with the blocks of the run, which nobody has yet. *)
Definition range_got (bsize log2 p : Z) (h' : rtheap) (m' : memory) : Prop :=
  (exists l, h' = set_extents l h /\ limits l = limits (extents h)) /\ fits h bsize /\ heap_ok h' m' bl live /\
  (forall a, m' a <> m a -> outside live a) /\ chain m' p (split_blocks h p bsize) /\ NoDup (split_blocks h p bsize) /\
  (forall q, q ∈ split_blocks h p bsize -> fresh h q /\ block h' q bsize (if log2 =? 0 then RTHEAP_PLIST else log2)).

Lemma range_blocks e e' m' bsize log2 p : e ∈ extents h -> size_class h bsize log2 -> range_taken h m e bsize log2 p e' m' ->
  NoDup (split_blocks h p bsize) /\
  (forall q, q ∈ split_blocks h p bsize -> fresh h q /\ block_in ps np sh e' q bsize (if log2 =? 0 then RTHEAP_PLIST else log2)).
Proof.
  intros Hin Hcl (n & k & Hn & Hk & Hnk & -> & Hf & Eb & El & Hm & He' & Ht & Hsz & _).
  pose proof (ok_page h m bl live Hok) as (H4 & Ep & Hnp & Hps). pose proof (ok_ext h m bl live Hok e Hin) as He.
  pose proof He as (_ & _ & _ & Hmk & _). pose proof (class_pos h (ok_params _ _ _ _ Hok) _ _ Hcl) as Hpos. split.
  { unfold split_blocks. zcase; [apply sorted_nodup, cells_sorted; lia|apply NoDup_singleton]. }
  intros q Hq. split.
  - intros b t HB. pose proof (split_range h (ok_params _ _ _ _ Hok) _ _ _ _ Hcl Hq) as [Hlo Hhi].
    assert (in_free_page h e q) as Hfp by (exists n; split_and!; [lia..|apply Hf; lia|lia|lia]).
    pose proof (free_word_apart h m bl live Hok e q q b t Hin Hfp HB). pose proof (block_range h m bl live Hok q b t HB). lia.
  - assert (pagemap e' n = if log2 =? 0 then RTHEAP_PLIST else log2) as En by (rewrite Hm; by rewrite decide_True).
    exists n. split; [lia|]. split; [done|]. rewrite Eb. unfold split_blocks in Hq. revert Hq. zcase.
    + intros (j & Hj & ->)%elem_of_cells. right. destruct Hcl as [[Hl ->]|(_ & x & Hx & ->)]; [|nia].
      rewrite (proj2 (Z.eqb_neq log2 0)) by marks. split; [done|]. split; [done|]. exists j. split; [lia|]. split; [done|]. right.
      rewrite Z2Nat.id in Hj by (apply Z.div_pos; lia). pose proof (Z.mul_div_le ps (2 ^ log2) Hpos). nia.
    + intros ->%list_elem_of_singleton. destruct Hcl as [[Hl ->]|(-> & x & Hx & ->)].
      * rewrite (proj2 (Z.eqb_neq log2 0)) by marks. right. split; [done|]. split; [done|]. exists 0. split_and!; [lia|lia|by left].
      * cbn [Z.eqb]. left. split; [done|]. split; [done|]. exists k. split; [|apply Hsz; lia].
        by apply (marked_run np sh (pagemap e) n k RTHEAP_PLIST); first [done|lia].
Qed.

Lemma get_free_range_ok bsize log2 : size_class h bsize log2 ->
  match get_free_range h bsize log2 m with
  | Some (p, h', m') => range_got bsize log2 p h' m'
  | None => ~ fits h bsize
  end.
Proof.
  intros Hcl. pose proof (get_free_range_in_ok h (ok_params _ _ _ _ Hok) (extents h) m bsize log2 (ok_exts _ _ _ _ Hok) Hcl) as Hr.
  unfold get_free_range. destruct (get_free_range_in h (extents h) bsize log2 m) as [[[p l'] m']|]; [|by intros (e & He & Hf); apply (Hr e)].
  destruct Hr as (i & e & e' & Hi & -> & Htk). pose proof (list_elem_of_lookup_2 _ _ _ Hi) as Hin.
  destruct (range_blocks e e' m' bsize log2 p Hin Hcl Htk) as [Hnd Hbl]. pose proof Htk as (n & k & Hn & Hk & Hnk & -> & Hf & Eb & El & Hm & He' & Ht & _ & Hw & Hch).
  pose proof (ok_page h m bl live Hok) as (H4 & Ep & Hnp & Hps). pose proof (ok_ext h m bl live Hok e Hin) as He.
  assert (forall q b t, block h q b t -> block (set_extents (<[i := e']> (extents h)) h) q b t) as Hkeep.
  { intros q b t HB. apply (block_set_ext h i e e' q b t (fun _ => True)); try done. intros _ b' u. by apply (block_in_marked h m bl live Hok e e' n k (if log2 =? 0 then RTHEAP_PLIST else log2)). }
  assert (heap_ok (set_ubytes (sizes live) (set_extents (<[i := e']> (extents h)) h)) m' bl live) as Hok'.
  { apply (heap_ok_ext h m bl live Hok i e e'); try done.
    - intros a (x & Hx & _ & ? & ?)%Hw. destruct He as (_ & Hlim & _). nia.
    - intros lg q Hlg Hq. destruct (ok_buckets _ _ _ _ Hok lg Hlg) as (_ & _ & Hb). split; [|by apply Hkeep, Hb].
      destruct (decide (m' q = m q)) as [|Hne]; [done|]. exfalso. apply Hw in Hne.
      pose proof (free_word_apart h m bl live Hok e q q _ _ Hin Hne (Hb q Hq)). pose proof (block_range h m bl live Hok q _ _ (Hb q Hq)). lia.
    - by apply Hok.
    - intros q b Hq. split; [done|]. intros t. by apply Hkeep. }
  rewrite <- (ok_ubytes _ _ _ _ Hok) in Hok'. split; [eexists; split; [done|by apply (limits_insert _ _ e)]|]. split; [|split; [exact Hok'|]].
  { exists e. split; [done|]. destruct Htk as (n' & k' & ? & ? & ? & _ & Hf' & _ & _ & _ & _ & _ & Hsz & _). exists n'.
    assert (n' * ps + bsize <= (n' + k') * ps) as Hle by (destruct (decide (ps <= bsize)); [rewrite Hsz by done; lia|nia]).
    split; [done|]. split; [nia|]. intros j Hj Hlt. apply Hf'. split; [done|]. apply (Z.mul_lt_mono_pos_r ps); lia. }
  split; [intros a Ha; by eapply free_word_outside, Hw|]. split; [done|]. split; [done|].
  intros q Hq. destruct (Hbl q Hq) as [? ?]. split; [done|]. exists e'. split; [|done]. apply (list_elem_of_lookup_2 _ i).
  apply list_lookup_insert_eq. by eapply lookup_lt_Some.
Qed.
End range.

Section alloc.
Context (h : rtheap) (m : memory) (bl : Z -> list Z) (live : list (Z * Z)) (Hok : heap_ok h m bl live).
Abbreviation ps := (pagesize h).
Abbreviation np := (npages h).
Abbreviation sh := (pageshift h).

Lemma bucket_unique lg lg' p : RTHEAP_MINLOG2 <= lg <= sh + 1 -> RTHEAP_MINLOG2 <= lg' <= sh + 1 -> p ∈ bl lg -> p ∈ bl lg' -> lg = lg'.
Proof.
  intros H1 H2 Hp Hp'. destruct (ok_buckets _ _ _ _ Hok lg H1) as (_ & _ & B1), (ok_buckets _ _ _ _ Hok lg' H2) as (_ & _ & B2).
  pose proof (block_range h m bl live Hok _ _ _ (B1 p Hp)). pose proof (block_range h m bl live Hok _ _ _ (B2 p Hp')).
  destruct (blocks_apart h m bl live Hok _ _ _ _ _ _ (B1 p Hp) (B2 p Hp')) as [(_ & _ & ?)|[?|?]]; [done|lia|lia].
Qed.

(** The bucket [lg] becomes another list of blocks nobody has. *)
Lemma heap_ok_bucket lg q L : RTHEAP_MINLOG2 <= lg <= sh + 1 -> chain m q L -> NoDup L ->
  (forall p, p ∈ L -> block h p (2 ^ lg) lg /\ p ∉ map fst live) ->
  heap_ok (set_bucket (lg - RTHEAP_MINLOG2) q h) m (<[lg := L]> bl) live.
Proof.
  intros Hlg Hc Hnd HL. destruct Hok as [Hpar He Hap Hbk Hl Hh Hu]. constructor; [exact Hpar|exact He|exact Hap| |done| |exact Hu].
  - intros x Hx. cbn [buckets set_bucket]. destruct (decide (x = lg)) as [->|Hne].
    + rewrite !fn_lookup_insert. split_and!; [done..|]. intros p Hp. by apply HL.
    + rewrite !fn_lookup_insert_ne by lia. by apply Hbk.
  - intros p b Hp. destruct (Hh p b Hp) as (t & HB & Hn). exists t. split; [done|]. intros x Hx.
    destruct (decide (x = lg)) as [->|Hne].
    + rewrite fn_lookup_insert. intros HpL%HL. apply HpL. apply list_elem_of_In, in_map_iff. exists (p, b). split; [done|by apply list_elem_of_In].
    + rewrite fn_lookup_insert_ne by done. by apply Hn.
Qed.
(** A block that is in no bucket goes out. *)
Lemma heap_ok_out p b t : block h p b t -> (p ∉ map fst live) -> (forall lg, RTHEAP_MINLOG2 <= lg <= sh + 1 -> p ∉ bl lg) ->
  heap_ok (set_ubytes (ubytes h + b) h) m bl ((p, b) :: live).
Proof.
  intros HB Hp Hbl. destruct Hok as [Hpar He Hap Hbk Hl Hh Hu]. constructor; [exact Hpar|exact He|exact Hap|exact Hbk| | |].
  - cbn [map fst]. by constructor.
  - intros q c [[= -> ->]|Hq]%elem_of_cons; [by exists t|by apply Hh].
  - cbn [ubytes set_ubytes]. change (sizes ((p, b) :: live)) with (b + sizes live). lia.
Qed.
(** It comes back. *)
Lemma heap_ok_in p b live' : live ≡ₚ (p, b) :: live' -> heap_ok (set_ubytes (ubytes h - b) h) m bl live'.
Proof.
  intros Hp. destruct Hok as [Hpar He Hap Hbk Hl Hh Hu]. constructor; [exact Hpar|exact He|exact Hap|exact Hbk| | |].
  - rewrite Hp in Hl. by apply NoDup_cons in Hl as [_ ?].
  - intros q c Hq. apply Hh. rewrite Hp. by right.
  - cbn [ubytes set_ubytes]. assert (sizes live = b + sizes live') as Es; [|lia]. by rewrite Hp.
Qed.
Lemma live_start p b : (p, b) ∈ live -> p ∈ map fst live.
Proof. intros Hp. apply list_elem_of_In, in_map_iff. exists (p, b). split; [done|by apply list_elem_of_In]. Qed.
Lemma fresh_not_live q : fresh h q -> (q ∉ map fst live).
Proof.
  intros Hf Hq. apply list_elem_of_In, in_map_iff in Hq as ([p b] & <- & Hp%list_elem_of_In).
  destruct (live_block h m bl live Hok p b Hp) as [t HB]. by apply (Hf b t).
Qed.
End alloc.

(** A block of the bucket [lg] is given out, the others are the bucket. *)
Lemma give_block h m bl live lg p L : heap_ok h m bl live -> RTHEAP_MINLOG2 <= lg <= pageshift h + 1 -> chain m p (p :: L) -> NoDup (p :: L) ->
  (forall q, q ∈ p :: L -> block h q (2 ^ lg) lg /\ q ∉ map fst live) ->
  (forall x, RTHEAP_MINLOG2 <= x <= pageshift h + 1 -> x <> lg -> p ∉ bl x) ->
  heap_ok (set_ubytes (ubytes h + 2 ^ lg) (set_bucket (lg - RTHEAP_MINLOG2) (m p) h)) m (<[lg := L]> bl) ((p, 2 ^ lg) :: live).
Proof.
  intros Hok Hlg (_ & _ & Hc) [Hp Hnd]%NoDup_cons HL Hx. destruct (HL p (list_elem_of_here _ _)) as [HB Hpl].
  apply (heap_ok_out (set_bucket (lg - RTHEAP_MINLOG2) (m p) h) m (<[lg := L]> bl) live) with (t := lg); [|exact HB|done|].
  - apply heap_ok_bucket; try done. intros q Hq. apply HL. by right.
  - intros x Hxr. destruct (decide (x = lg)) as [->|Hne]; [by rewrite fn_lookup_insert|]. rewrite fn_lookup_insert_ne by done. by apply Hx.
Qed.

(** There is room for a request: adjacent free pages, or a block in the bucket of its class. *)
Definition room (h : rtheap) (size : Z) : Prop := fits h (block_size h size) \/
  exists lg, block_size h size = 2 ^ lg /\ block_size h size <= pagesize h * 2 /\ buckets h (lg - RTHEAP_MINLOG2) <> 0.

(** Allocation: NULL, when nothing was asked for or there is no room, and nothing changes; or a
    block no one has, at least of the size asked for, and no word of a block that is out is written. *)
Definition alloc_post (h : rtheap) (m : memory) (live : list (Z * Z)) (size : Z) (r : Z * rtheap * memory) : Prop :=
  let '(p, h', m') := r in
  (p = 0 /\ h' = h /\ m' = m /\ (size = 0 \/ ~ room h size)) \/
  (p <> 0 /\ size <> 0 /\ room h size /\ size <= block_size h size /\ limits (extents h') = limits (extents h) /\
    (exists bl', heap_ok h' m' bl' ((p, block_size h size) :: live)) /\ forall a, m' a <> m a -> outside live a).

Lemma alloc_small h m bl live lg p h' m' bsize : heap_ok h m bl live -> RTHEAP_MINLOG2 <= lg <= pageshift h + 1 -> bsize = 2 ^ lg ->
  range_got h m bl live bsize lg p h' m' ->
  heap_ok (set_ubytes (ubytes h' + bsize) (set_bucket (lg - RTHEAP_MINLOG2) (m' p) h')) m' (<[lg := tail (split_blocks h p bsize)]> bl) ((p, bsize) :: live).
Proof.
  intros Hok Hlg -> ((l & -> & _) & _ & Hok' & _ & Hc & Hnd & Hb).
  assert (exists L, split_blocks h p (2 ^ lg) = p :: L) as [L EL].
  { unfold split_blocks in *. zcase; [|by exists []]. destruct (heap_page h (ok_params _ _ _ _ Hok)) as (_ & _ & _ & ?).
    assert (0 < 2 ^ lg) by (apply Z.pow_pos_nonneg; marks). assert (0 < pagesize h / 2 ^ lg) by (apply Z.div_str_pos; lia).
    replace (Z.to_nat (pagesize h / 2 ^ lg)) with (S (Z.to_nat (pagesize h / 2 ^ lg - 1))) by lia. by eexists. }
  rewrite EL in *. cbn [tail]. rewrite (proj2 (Z.eqb_neq lg 0)) in Hb by marks. apply give_block; try done.
  - intros q Hq. destruct (Hb q Hq) as [Hf HB]. split; [done|]. by apply (fresh_not_live h m bl live Hok).
  - intros x Hx _ Hin. destruct (Hb p (list_elem_of_here _ _)) as [Hf _]. destruct (ok_buckets _ _ _ _ Hok x Hx) as (_ & _ & HB).
    by apply (Hf (2 ^ x) x), HB.
Qed.

Lemma class_le h lg : params_ok h -> RTHEAP_MINLOG2 <= lg <= pageshift h + 1 -> 2 ^ lg <= pagesize h * 2.
Proof.
  intros Hp Hlg. destruct (heap_page h Hp) as (H4 & -> & _ & _).
  replace (2 ^ pageshift h * 2) with (2 ^ (pageshift h + 1)) by (rewrite Z.pow_add_r by lia; lia). apply Z.pow_le_mono_r; lia.
Qed.

Lemma rtheap_alloc_ok h m bl live size : heap_ok h m bl live -> 0 <= size -> size + pagesize h <= 2 ^ 64 ->
  alloc_post h m live size (rtheap_alloc h size m).
Proof.
  intros Hok Hs Hsz. pose proof (ok_params _ _ _ _ Hok) as Hpar. unfold rtheap_alloc. zcase; [left; split_and!; [done..|by left]|].
  destruct (round_class_ok h size Hpar ltac:(lia) Hsz) as (Hr & Hrs & Hrb). unfold alloc_post, room, block_size.
  destruct (round_size h size <=? pagesize h * 2) eqn:E2; zbool.
  - destruct (bucket_class h (round_size h size) Hpar ltac:(lia)) as (lg & -> & Hlg & Hle). cbn [fst].
    assert (size_class h (2 ^ lg) lg) as Hcl by (left; done).
    destruct (buckets h (lg - RTHEAP_MINLOG2) =? 0) eqn:E0; zbool.
    + pose proof (get_free_range_ok h m bl live Hok _ _ Hcl) as Hg. destruct (get_free_range h (2 ^ lg) lg m) as [[[p h'] m']|].
      * right. pose proof (alloc_small h m bl live lg p h' m' _ Hok Hlg eq_refl Hg) as Hok'. destruct Hg as ((l & -> & Hl) & Hfit & _ & Hw & _).
        split; [|split; [done|split; [by left|split; [lia|split; [exact Hl|split; [by eexists|done]]]]]].
        destruct (ok_held _ _ _ _ Hok' p (2 ^ lg) (list_elem_of_here _ _)) as (t & HB & _). pose proof (block_range _ _ _ _ Hok' _ _ _ HB). lia.
      * left. do 3 (split; [done|]). right. intros [?|(x & Ex & _ & Hx)]; [done|]. apply Hx. apply Z.pow_inj_r in Ex; [by subst x|lia|marks|].
        destruct (decide (0 <= x)); [done|]. rewrite (Z.pow_neg_r 2 x) in Ex by lia. assert (0 < 2 ^ lg) by (apply Z.pow_pos_nonneg; marks). lia.
    + right. destruct (ok_buckets _ _ _ _ Hok lg Hlg) as (Hc & Hnd & Hb). destruct (bl lg) as [|p L] eqn:EL; [done|].
      pose proof Hc as (Ep & Hp0 & _). split; [by rewrite Ep|]. split; [done|]. split; [right; exists lg; split_and!; [done|by apply class_le|done]|].
      rewrite Ep in *. split; [lia|]. split; [done|]. split; [|done].
      exists (<[lg := L]> bl). apply give_block; try done.
      * intros q Hq. split; [by apply Hb|]. intros Hin. apply list_elem_of_In, in_map_iff in Hin as ([q' b] & <- & Hin%list_elem_of_In).
        destruct (ok_held _ _ _ _ Hok _ _ Hin) as (_ & _ & Hn). apply (Hn lg Hlg). by rewrite EL.
      * intros x Hx Hne Hin. apply Hne. apply (bucket_unique h m bl live Hok x lg p); try done. rewrite EL. apply list_elem_of_here.
  - assert (pagesize h < size) as Hbig.
    { destruct (heap_page h Hpar) as (_ & _ & _ & ?). destruct (decide (size <= pagesize h)) as [Hle|]; [|lia]. specialize (Hrs Hle). lia. }
    destruct (Hrb Hbig) as (n & Hn & En). assert (size_class h (round_size h size) 0) as Hcl by (right; split; [done|by exists n]).
    destruct (heap_page h Hpar) as (H4 & _ & _ & Hps). zcase.
    + left. do 3 (split; [done|]). right. intros [(e & _ & x & Hx & Hfit & _)|(x & _ & ? & _)]; [|lia]. destruct Hpar as (_ & _ & _ & Hmax). nia.
    + pose proof (get_free_range_ok h m bl live Hok _ _ Hcl) as Hg. destruct (get_free_range h (round_size h size) 0 m) as [[[p h'] m']|].
      * right. destruct Hg as ((l & -> & Hl) & Hfit & Hok' & Hw & _ & _ & Hb). cbn [Z.eqb] in Hb.
        destruct (Hb p) as [Hf HB]; [unfold split_blocks; rewrite (proj2 (Z.ltb_ge _ _)) by lia; by left|].
        split; [pose proof (block_range _ _ _ _ Hok' _ _ _ HB); lia|]. split; [done|]. split; [by left|]. split; [lia|]. split; [exact Hl|]. split; [|done]. exists bl.
        apply heap_ok_out with (t := RTHEAP_PLIST); [done|done| |].
        -- by apply (fresh_not_live h m bl live Hok).
        -- intros x Hx Hin. destruct (ok_buckets _ _ _ _ Hok x Hx) as (_ & _ & HBx). by apply (Hf (2 ^ x) x), HBx.
      * left. do 3 (split; [done|]). right. by intros [?|(x & _ & ? & _)]; [|lia].
Qed.

(** ** Release *)

Lemma find_extent_ok l i p j e : l !! j = Some e -> membase e <= p < memlim e ->
  (forall j' e', (j' < j)%nat -> l !! j' = Some e' -> ~ (membase e' <= p < memlim e')) -> find_extent l i p = Some (i + j)%nat.
Proof.
  intros He Hp. revert i j He. induction l as [|f l IH]; intros i j He Hout; [done|]. destruct j as [|j].
  - injection He as ->. cbn [find_extent]. rewrite (proj2 (Z.leb_le _ _)), (proj2 (Z.ltb_lt _ _)) by lia. cbn [andb].
    replace (i + 0)%nat with i by lia. by destruct l.
  - cbn [lookup list_lookup] in He. assert (~ (membase f <= p < memlim f)) as Hf by (apply (Hout O f); [lia|done]).
    destruct l as [|f' l]; [done|]. cbn [find_extent]. destruct ((membase f <=? p) && (p <? memlim f)) eqn:E; zbool; [lia|].
    replace (i + S j)%nat with (S i + j)%nat by lia. apply IH; [done|]. intros j' e' Hj'. apply (Hout (S j')). lia.
Qed.

Section free.
Context (h : rtheap) (m : memory) (bl : Z -> list Z) (live : list (Z * Z)) (Hok : heap_ok h m bl live).
Abbreviation ps := (pagesize h).
Abbreviation np := (npages h).
Abbreviation sh := (pageshift h).

(** What the release of the block [(p, b)] leaves. *)
Definition free_post (live' : list (Z * Z)) (r : option (Z * rtheap * memory)) : Prop := exists h' m' bl',
  r = Some (0, h', m') /\ heap_ok h' m' bl' live' /\ limits (extents h') = limits (extents h) /\
  forall a, m' a <> m a -> outside live' a.

Lemma live_apart p b live' q c : live ≡ₚ (p, b) :: live' -> (q, c) ∈ live' -> q <> p /\ (p + b <= q \/ q + c <= p).
Proof.
  intros Hp Hq. assert ((q, c) ∈ live) as Hin by (rewrite Hp; by right). assert ((p, b) ∈ live) as Hin' by (rewrite Hp; by left).
  pose proof (ok_live _ _ _ _ Hok) as Hnd. rewrite Hp in Hnd. apply NoDup_cons in Hnd as [Hnp _]. cbn [fst] in Hnp.
  assert (q <> p) as Hne by (intros ->; apply Hnp; by eapply live_start). split; [done|].
  destruct (live_block _ _ _ _ Hok _ _ Hin) as [t HB], (live_block _ _ _ _ Hok _ _ Hin') as [t' HB'].
  destruct (blocks_apart _ _ _ _ Hok _ _ _ _ _ _ HB' HB) as [(? & _)|?]; [congruence|done].
Qed.

(** A run of pages. *)
Lemma free_run_ok i e n k live' : extents h !! i = Some e -> 0 <= n -> pagemap e n = RTHEAP_PLIST -> run np (pagemap e) n k ->
  live ≡ₚ (membase e + n * ps, k * ps) :: live' ->
  (forall lg, RTHEAP_MINLOG2 <= lg <= sh + 1 -> membase e + n * ps ∉ bl lg) ->
  exists e' m', release_run h e (membase e + n * ps) n k m = (e', m') /\
    free_post live' (Some (0, set_ubytes (ubytes h - k * ps) (set_extents (<[i := e']> (extents h)) h), m')).
Proof.
  intros Hi Hn Hpn Hr Hp Hnb. pose proof (list_elem_of_lookup_2 _ _ _ Hi) as Hin. pose proof (ok_ext _ _ _ _ Hok e Hin) as He.
  pose proof (ok_page _ _ _ _ Hok) as (H4 & Ep & Hnp & Hps). pose proof Hr as (Hk & Hnk & _).
  destruct (release_run_ok h (ok_params _ _ _ _ Hok) e m n k He Hn Hpn Hr) as (e' & m' & E & Eb & El & Hm & He' & Hw).
  exists e', m'. split; [done|]. set (p := membase e + n * ps) in *.
  assert (forall q b t, q <> p -> block h q b t -> block (set_extents (<[i := e']> (extents h)) h) q b t) as Hkeep.
  { intros q b t Hq. apply (block_set_ext h i e e' q b t (fun q => q <> p)); try done. intros Hne b' u.
    by apply (block_in_unmarked h m bl live Hok e e' n k). }
  assert (forall q b t, block h q b t -> q <> p -> m' q = m q) as Hsame.
  { intros q b t HB Hq. destruct (decide (m' q = m q)) as [|Hne]; [done|]. exfalso. pose proof (block_range _ _ _ _ Hok _ _ _ HB) as (_ & Hb & _).
    apply Hw in Hne as [Hf|Hf]; [pose proof (free_word_apart _ _ _ _ Hok e q q b t Hin Hf HB); lia|].
    assert (block h p (k * ps) RTHEAP_PLIST) as HBp.
    { exists e. split; [done|]. exists n. split; [lia|]. split; [done|]. left. split; [done|]. split; [done|]. by exists k. }
    destruct (blocks_apart _ _ _ _ Hok _ _ _ _ _ _ HBp HB) as [(? & _)|?]; [congruence|]. unfold p in *. nia. }
  assert (ubytes h - k * ps = sizes live') as ->.
  { rewrite (ok_ubytes _ _ _ _ Hok), Hp. change (sizes ((p, k * ps) :: live')) with (k * ps + sizes live'). lia. }
  pose proof (ok_live _ _ _ _ Hok) as Hnd. rewrite Hp in Hnd. apply NoDup_cons in Hnd as [_ Hnd].
  eexists _, _, bl. split; [done|]. split; [|split; [by apply (limits_insert _ _ e)|]].
  - apply (heap_ok_ext h m bl live Hok i e e'); try done.
    + intros a [(x & Hx & _ & ? & ?)|?]%Hw; destruct He as (_ & Hlim & _); [|unfold p in *]; nia.
    + intros lg q Hlg Hq. destruct (ok_buckets _ _ _ _ Hok lg Hlg) as (_ & _ & HB). assert (q <> p) by (intros ->; by apply (Hnb lg)).
      split; [by eapply Hsame; [apply HB|]|]. apply Hkeep; [done|by apply HB].
    + intros q c Hq. split; [rewrite Hp; by right|]. intros t. apply Hkeep. by apply (live_apart _ _ _ _ _ Hp Hq).
  - intros a Ha q c Hq. destruct (live_apart _ _ _ _ _ Hp Hq) as [_ Hap]. apply Hw in Ha as [Hf|Hf].
    + assert ((q, c) ∈ live) as Hql by (rewrite Hp; by right). destruct (live_block _ _ _ _ Hok _ _ Hql) as [t HB].
      by apply (free_word_apart _ _ _ _ Hok e a q c t Hin).
    + unfold p in *. nia.
Qed.

(** A block of a bucket. *)
Lemma free_block_ok lg p live' : RTHEAP_MINLOG2 <= lg <= sh + 1 -> block h p (2 ^ lg) lg -> live ≡ₚ (p, 2 ^ lg) :: live' ->
  (forall lg, RTHEAP_MINLOG2 <= lg <= sh + 1 -> p ∉ bl lg) ->
  free_post live' (Some (0, set_ubytes (ubytes h - 2 ^ lg) (set_bucket (lg - RTHEAP_MINLOG2) p h),
    <[p := buckets h (lg - RTHEAP_MINLOG2)]> m)).
Proof.
  intros Hlg HB Hp Hnb. pose proof (block_range _ _ _ _ Hok _ _ _ HB) as (Hp0 & Hb16 & _).
  destruct (ok_buckets _ _ _ _ Hok lg Hlg) as (Hc & Hnd & HBl). set (m' := <[p := _]> m).
  assert (forall a, a <> p -> m' a = m a) as Hm' by (intros a Ha; unfold m'; by rewrite fn_lookup_insert_ne).
  assert (heap_ok h m' bl live) as Hok1.
  { apply (heap_ok_mem h m bl live Hok).
    - intros e n He Hn Ef. apply Hm'. intros <-. pose proof (free_page_word h m bl live Hok e n Hn Ef) as Hf.
      pose proof (free_word_apart _ _ _ _ Hok e _ _ _ _ He Hf HB). lia.
    - intros x q Hx Hq. apply Hm'. intros ->. by apply (Hnb x). }
  assert (heap_ok (set_ubytes (ubytes h - 2 ^ lg) h) m' bl live') as Hok2 by (by apply (heap_ok_in h m' bl live Hok1 p)).
  exists (set_ubytes (ubytes h - 2 ^ lg) (set_bucket (lg - RTHEAP_MINLOG2) p h)), m', (<[lg := p :: bl lg]> bl). split; [done|]. split; [|split; [done|]].
  - apply (heap_ok_bucket (set_ubytes (ubytes h - 2 ^ lg) h) m' bl live' Hok2 lg p (p :: bl lg) Hlg).
    + cbn [seg]. split_and!; [done|lia|]. assert (m' p = buckets h (lg - RTHEAP_MINLOG2)) as -> by (unfold m'; by rewrite fn_lookup_insert).
      apply (cells_seg_ext m); [|done].
      intros a Ha. apply Hm'. intros ->. by apply (Hnb lg).
    + constructor; [by apply Hnb|done].
    + intros q Hq. apply elem_of_cons in Hq as [->|Hq].
      * split; [exact HB|]. pose proof (ok_live _ _ _ _ Hok) as Hl. rewrite Hp in Hl. by apply NoDup_cons in Hl as [? _].
      * split; [by apply HBl|]. intros Hin. apply list_elem_of_In, in_map_iff in Hin as ([q' c] & <- & Hin%list_elem_of_In).
        destruct (ok_held _ _ _ _ Hok q' c) as (_ & _ & Hn); [rewrite Hp; by right|]. by apply (Hn lg Hlg).
  - intros a Ha q c Hq. destruct (decide (a = p)) as [->|Hne]; [|by rewrite Hm' in Ha].
    destruct (live_apart _ _ _ _ _ Hp Hq) as [_ [?|?]]; [left; lia|by right].
Qed.

Lemma rtheap_free_ok p b live' : live ≡ₚ (p, b) :: live' -> free_post live' (rtheap_free h p m).
Proof.
  intros Hp. assert ((p, b) ∈ live) as Hin by (rewrite Hp; by left).
  destruct (ok_held _ _ _ _ Hok p b Hin) as (t & HB & Hnb). pose proof HB as (e & He & n & HBn).
  pose proof (ok_page _ _ _ _ Hok) as (H4 & Ep & Hnp & Hps). pose proof (ok_ext _ _ _ _ Hok e He) as Hee.
  destruct (block_within ps np sh ltac:(lia) ltac:(done) m e p b t Hee (ex_intro _ n HBn)) as (Hlo & Hhi & Hb16).
  pose proof (proj1 (list_elem_of_lookup _ _) He) as [i Hi].
  unfold rtheap_free. rewrite (find_extent_ok (extents h) 0 p i e Hi) by (try lia; intros j f Hj Hf Hpf;
    destruct (ok_apart _ _ _ _ Hok j i f e Hf Hi); lia).
  change (0 + i)%nat with i. rewrite Hi. pose proof Hee as (Hb0 & Hlim & Hl64 & _ & Hlast & _).
  destruct (block_span ps np sh ltac:(lia) ltac:(done) m e n p b t Hee HBn) as (k & Hn & Hr & Et & Ht & _ & Hplo & Hphi & _).
  assert (p = membase e + n * ps + (p - (membase e + n * ps))) as Epn by lia.
  rewrite (wrapu_small 64 (p - membase e)) by lia.
  assert (Z.shiftr (p - membase e) sh = n) as -> by (rewrite Epn at 1; rewrite <- (page_number h (ok_params _ _ _ _ Hok) e n (p - (membase e + n * ps))) by lia; f_equal; lia).
  rewrite Et. rewrite Z.shiftl_mul_pow2, <- Ep by lia. rewrite (wrapu_small 64 (p - (membase e + n * ps))) by lia.
  destruct (head_not_cont sh t k) as [Htc Htf]; [lia|done|]. rewrite (proj2 (Z.eqb_neq t _) Htf), (proj2 (Z.eqb_neq t _) Htc). cbn [orb].
  destruct HBn as (_ & _ & [(-> & -> & k' & Hr' & ->)|(Htr & -> & j & Hj & Ej & Hjb)]).
  - cbn [Z.eqb Pos.eqb RTHEAP_PLIST]. pose proof Hr' as (? & ? & _). rewrite (run_unique _ _ _ _ _ Hr Hr') in *.
    rewrite (run_pages_spec (Z.to_nat np) np (pagemap e) n k' 1) by (done || lia).
    destruct (free_run_ok i e n k' live' Hi Hn Et Hr' Hp Hnb) as (e' & m' & -> & Hpost). exact Hpost.
  - rewrite (proj2 (Z.eqb_neq t RTHEAP_PLIST)) by marks.
    rewrite Z.shiftl_mul_pow2, Z.mul_1_l by marks. replace (2 ^ t - 1) with (Z.ones t) by (rewrite Z.ones_equiv; lia).
    rewrite Z.land_ones by marks. replace (p - (membase e + n * ps)) with (j * 2 ^ t) by lia.
    rewrite Z.mod_mul by (apply Z.pow_nonzero; marks). cbn [Z.eqb negb]. by apply free_block_ok.
Qed.
End free.
