(* ===== verification/HeapRun.v ===== *)
(** * The heap without TLSF from its initialisation on, through any use of it. *)

From S2P Require Import Prelude Heap HeapFacts HeapExt HeapSafe.
From stdpp Require Import list sorting.
#[local] Open Scope Z_scope.

(** ** Initialisation *)

Lemma power_of_two x : 0 < x -> Z.land x (x - 1) = 0 -> x = 2 ^ Z.log2 x.
Proof.
  intros Hx Hl. pose proof (Z.log2_spec x Hx) as [Hlo Hhi]. destruct (decide (x = 2 ^ Z.log2 x)) as [|Hne]; [done|]. exfalso.
  assert (Z.testbit (Z.land x (x - 1)) (Z.log2 x) = true) as Hb; [|by rewrite Hl, Z.bits_0 in Hb].
  rewrite Z.land_spec, Z.bit_log2 by done. replace (Z.log2 x) with (Z.log2 (x - 1)); [apply Z.bit_log2|].
  - assert (0 < 2 ^ Z.log2 x) by (apply Z.pow_pos_nonneg; [lia|apply Z.log2_nonneg]). lia.
  - apply Z.log2_unique; [apply Z.log2_nonneg|]. unfold Z.succ in *. lia.
Qed.
Lemma shift_of_pow n fuel : (n <= fuel)%nat -> shift_of fuel (2 ^ Z.of_nat n) = Z.of_nat n.
Proof.
  revert n. induction fuel as [|fuel IH]; intros n Hn; [by destruct n; [|lia]|]. cbn [shift_of]. destruct n as [|n]; [done|].
  assert (2 ^ Z.of_nat (S n) = 2 * 2 ^ Z.of_nat n) as -> by (rewrite <- Z.pow_succ_r by lia; f_equal; lia).
  assert (0 < 2 ^ Z.of_nat n) by (apply Z.pow_pos_nonneg; lia). rewrite (proj2 (Z.ltb_lt _ _)) by lia.
  rewrite Z.shiftr_div_pow2 by lia. replace (2 * 2 ^ Z.of_nat n / 2 ^ 1) with (2 ^ Z.of_nat n) by (rewrite Z.mul_comm; symmetry; by apply Z.div_mul).
  rewrite IH by lia. lia.
Qed.

(** The parameters [rtheap_init] accepts. *)
Lemma params_accepted heapsize pgsz : heap_params_ok heapsize pgsz = true ->
  exists n, 4 <= n <= 22 /\ pgsz = 2 ^ n /\ shift_of 64 pgsz = n /\ sizeof_rtextent < heapsize <= RTHEAP_MAXEXTSZ /\
    heap_hdrsize heapsize pgsz + 2 * pgsz <= heapsize.
Proof.
  unfold heap_params_ok. rewrite andb_true_iff, !negb_true_iff, !orb_false_iff, !negb_false_iff.
  intros [(((((H1 & H2) & H3) & H4) & H5) & H6) H7]. zbool. change (Z.shiftl 1 RTHEAP_MINLOG2) with 16 in H1.
  change (Z.shiftl 1 RTHEAP_MAXLOG2) with (2 ^ 22) in H2. pose proof (power_of_two pgsz ltac:(lia) H3) as Ep.
  exists (Z.log2 pgsz). assert (4 <= Z.log2 pgsz <= 22) as Hn.
  { split; [change 4 with (Z.log2 16)|change 22 with (Z.log2 (2 ^ 22))]; apply Z.log2_le_mono; lia. }
  split_and!; [lia|lia|done| |lia|lia|lia]. rewrite Ep at 1. rewrite <- (Z2Nat.id (Z.log2 pgsz)) at 1 by lia.
  rewrite shift_of_pow by lia. lia.
Qed.

Lemma hdrsize_eq heapsize pgsz : heap_hdrsize heapsize pgsz = (sizeof_rtextent + (heapsize - sizeof_rtextent) / (pgsz + 1) + 15) / 16 * 16.
Proof.
  unfold heap_hdrsize. change (RTHEAP_MINALIGNSZ - 1) with (Z.ones 4). rewrite <- Z.ldiff_land, Z.ldiff_ones_r by lia.
  rewrite Z.shiftl_mul_pow2, Z.shiftr_div_pow2 by lia. change RTHEAP_MINALIGNSZ with 16. change (2 ^ 4) with 16. do 2 f_equal. lia.
Qed.

(** The header of an extent of [heapsize] bytes has room for its page map, and a byte more. *)
Lemma header_room heapsize pgsz n : heap_params_ok heapsize pgsz = true -> pgsz = 2 ^ n ->
  2 <= (heapsize - heap_hdrsize heapsize pgsz) / pgsz /\
  offset_pagemap + (heapsize - heap_hdrsize heapsize pgsz) / pgsz < heap_hdrsize heapsize pgsz /\ 0 < heap_hdrsize heapsize pgsz.
Proof.
  intros (k & Hk & Ep & _ & Hsz & Hroom)%params_accepted _. assert (16 <= pgsz) by (rewrite Ep; change 16 with (2 ^ 4); apply Z.pow_le_mono_r; lia).
  split; [apply Z.div_le_lower_bound; lia|]. rewrite hdrsize_eq in *. unfold sizeof_rtextent, offset_pagemap in *.
  set (pm := (heapsize - 48) / (pgsz + 1)) in *. pose proof (Z.mod_pos_bound (heapsize - 48) (pgsz + 1) ltac:(lia)).
  pose proof (Z.div_mod (heapsize - 48) (pgsz + 1) ltac:(lia)) as Hdm. fold pm in Hdm.
  pose proof (up_bounds (48 + pm) 16 ltac:(lia)) as Hup. replace (48 + pm + 16 - 1) with (48 + pm + 15) in Hup by lia.
  assert (0 <= pm) by (apply Z.div_pos; lia). split; [|lia].
  set (hdr := (48 + pm + 15) / 16 * 16) in *. assert ((heapsize - hdr) / pgsz < pm + 2); [|lia].
  apply Z.div_lt_upper_bound; [lia|]. nia.
Qed.

Lemma init_extent_ok h addr raw m : params_ok h -> 0 < addr + hdrsize h -> addr + hdrsize h + npages h * pagesize h < 2 ^ 64 ->
  raw (npages h) <> RTHEAP_PCONT ->
  let '(e, m') := init_extent h addr raw m in ext_ok (pagesize h) (npages h) (pageshift h) m' e /\
    membase e = addr + hdrsize h /\ memlim e = addr + hdrsize h + npages h * pagesize h.
Proof.
  intros Hp Hb Hl Hraw. destruct (heap_page h Hp) as (H4 & Ep & Hnp & Hps). unfold init_extent. split; [|done].
  assert (forall n, 0 <= n < npages h -> mark_free (Z.to_nat (npages h)) 0 raw n = RTHEAP_PFREE) as Hf.
  { intros n Hn. by rewrite mark_free_spec, decide_True by lia. }
  split_and!; cbn [membase memlim pagemap freelist]; [done|done|done| | |].
  - intros n Hn. left. by apply Hf.
  - rewrite mark_free_spec, decide_False by lia. done.
  - exists (cells (addr + hdrsize h) (pagesize h) (Z.to_nat (npages h))). split; [split|].
    + apply cells_sorted. lia.
    + intros a. rewrite elem_of_cells, Z2Nat.id by lia. split; intros (n & Hn & ?); [exists n; split_and!; [lia..|done|by apply Hf]|].
      exists n. tauto.
    + apply chain_pages_chain; lia.
Qed.

Definition no_blocks (lg : Z) : list Z := [].

(** The descriptor [rtheap_init] fills before there are extents of [ext] bytes. *)
Definition bare_heap (ext heapsize pgsz n : Z) : rtheap :=
  let hdr := heap_hdrsize heapsize pgsz in
  MkHeap ext pgsz n hdr ((ext - hdr) / pgsz) 0 ((ext - hdr) / pgsz * pgsz) [] (fun _ => 0).

(** A heap of one extent of the whole size at [addr]: all of it is free. *)
Lemma one_extent_ok addr heapsize pgsz n raw m : heap_params_ok heapsize pgsz = true -> pgsz = 2 ^ n -> 4 <= n <= 22 -> 0 < addr ->
  addr + heapsize < 2 ^ 64 -> raw ((heapsize - heap_hdrsize heapsize pgsz) / pgsz) <> RTHEAP_PCONT ->
  let h := bare_heap heapsize heapsize pgsz n in
  let '(e, m') := init_extent h addr raw m in
  heap_ok (set_extents [e] h) m' no_blocks [] /\ addr < membase e /\ memlim e <= addr + heapsize /\ membase e = addr + hdrsize h.
Proof.
  intros Hpar Ep Hn Ha Hlim Hraw. destruct (params_accepted _ _ Hpar) as (n' & _ & _ & _ & Hsz & Hfit).
  destruct (header_room _ _ n Hpar Ep) as (Hnp & Hroom & Hh0). cbn zeta. unfold bare_heap.
  set (np := (heapsize - heap_hdrsize heapsize pgsz) / pgsz) in *.
  assert (np * pgsz <= heapsize - heap_hdrsize heapsize pgsz) as Hnpl.
  { rewrite Z.mul_comm. apply Z.mul_div_le. rewrite Ep. apply Z.pow_pos_nonneg; lia. }
  set (h := MkHeap _ _ _ _ _ _ _ _ _). assert (params_ok h) as Hp.
  { split_and!; cbn [pageshift pagesize npages maxcont h]; [unfold RTHEAP_MINLOG2; lia|unfold RTHEAP_MAXLOG2; lia|done|lia|done]. }
  pose proof (init_extent_ok h addr raw m Hp) as Hie. cbn [hdrsize npages pagesize pageshift h] in Hie.
  specialize (Hie ltac:(lia) ltac:(lia) Hraw). destruct (init_extent h addr raw m) as [e m']. destruct Hie as (He & Eb & El).
  split; [|split_and!; [lia|lia|done]].
  constructor; [exact Hp| | | |constructor|by intros p b H%elem_of_nil|done].
  - by constructor; [|constructor].
  - intros i j e1 e2 Hi Hj Hij. exfalso. destruct i as [|i], j as [|j]; try done; by destruct i || destruct j.
  - intros lg _. split_and!; [done|constructor|by intros p H%elem_of_nil].
Qed.

(** A heap in memory of the caller. *)
Lemma rtheap_init_ok addr heapsize pgsz raw suprt big alloc m : heap_params_ok heapsize pgsz = true -> 0 < addr ->
  addr + heapsize < 2 ^ 64 -> raw ((heapsize - heap_hdrsize heapsize pgsz) / pgsz) <> RTHEAP_PCONT ->
  exists h m', rtheap_init addr heapsize pgsz raw suprt big alloc m = (inr h, m') /\ heap_ok h m' no_blocks [] /\
    (exists e, extents h = [e] /\ addr < membase e /\ memlim e <= addr + heapsize) /\ pagesize h = pgsz.
Proof.
  intros Hpar Ha Hlim Hraw. destruct (params_accepted _ _ Hpar) as (n & Hn & Ep & Esh & _).
  pose proof (one_extent_ok addr heapsize pgsz n raw m Hpar Ep Hn Ha Hlim Hraw) as H1. unfold rtheap_init. rewrite Hpar. cbn [negb].
  rewrite (proj2 (Z.eqb_neq addr 0)) by lia. cbn [andb]. rewrite (proj2 (Z.eqb_neq addr 0)) by lia. cbn [negb]. rewrite Esh.
  rewrite Z.shiftr_div_pow2, <- Ep by lia. fold (bare_heap heapsize heapsize pgsz n). cbn zeta in H1.
  destruct (init_extent _ addr raw m) as [e m']. destruct H1 as (Hok & Hb & Hl & _). eexists _, m'. split; [done|]. split; [exact Hok|].
  split; [by exists e|done].
Qed.

(** A heap of one extent of kernel memory, which [alloc_extent] gives. *)
Lemma rtheap_init_kernel addr heapsize pgsz raw raw0 m : heap_params_ok heapsize pgsz = true -> 0 < addr ->
  addr + heapsize < 2 ^ 64 -> raw ((heapsize - heap_hdrsize heapsize pgsz) / pgsz) <> RTHEAP_PCONT ->
  exists h m', rtheap_init 0 heapsize pgsz raw0 false None (fun _ => Some (addr, raw)) m = (inr h, m') /\ heap_ok h m' no_blocks [] /\
    (exists e, extents h = [e] /\ membase e = addr + hdrsize h) /\ pagesize h = pgsz /\ extentsize h = heapsize.
Proof.
  intros Hpar Ha Hlim Hraw. destruct (params_accepted _ _ Hpar) as (n & Hn & Ep & Esh & Hsz & _). unfold sizeof_rtextent in Hsz.
  pose proof (one_extent_ok addr heapsize pgsz n raw m Hpar Ep Hn Ha Hlim Hraw) as H1. unfold rtheap_init. rewrite Hpar. cbn [negb Z.eqb andb].
  rewrite Esh, Z.shiftr_div_pow2, <- Ep by lia. fold (bare_heap heapsize heapsize pgsz n).
  assert (exists f, Z.to_nat heapsize = S (S f)) as [f ->] by (exists (Z.to_nat heapsize - 2)%nat; lia).
  cbn [init_extents]. rewrite (proj2 (Z.ltb_lt 0 heapsize)) by lia. cbn zeta in H1.
  destruct (init_extent _ addr raw m) as [e m']. destruct H1 as (Hok & Hb & Hl & Eb).
  change (extentsize (bare_heap heapsize heapsize pgsz n)) with heapsize. rewrite (proj2 (Z.ltb_ge _ _)) by lia.
  eexists _, m'. split; [done|]. split; [exact Hok|]. split; [by exists e|done].
Qed.

(** ** Any use of the heap *)

(** Its users ask for memory, release what they hold, and write what they like into it. *)
Inductive heap_op := Alloc (size : Z) | Release (k : nat) | Scribble (f : memory).

(** The word at [a] has a byte of a block that is out. *)
Definition touched (live : list (Z * Z)) (a : Z) : bool := existsb (fun pb => (pb.1 <? a + 8) && (a <? pb.1 + pb.2)) live.

(** What is held, with the sizes asked for, the heap and the memory. [None]: the code goes astray, or refuses to
    take back what is held. *)
Definition heap_state := (list (Z * Z) * rtheap * memory)%type.
Definition heap_step (o : heap_op) (s : heap_state) : option heap_state :=
  let '(live, h, m) := s in
  match o with
  | Alloc size =>
      let '(p, h, m) := rtheap_alloc h size m in
      Some (if p =? 0 then live else live ++ [(p, size)], h, m)
  | Release k =>
      match live !! k with
      | Some (p, _) =>
          match rtheap_free h p m with
          | Some (r, h, m) => if r =? 0 then Some (delete k live, h, m) else None
          | None => None
          end
      | None => Some s
      end
  | Scribble f => Some (live, h, fun a => if touched live a then f a else m a)
  end.
Fixpoint heap_run (os : list heap_op) (s : heap_state) : option heap_state :=
  match os with
  | [] => Some s
  | o :: os => match heap_step o s with Some s => heap_run os s | None => None end
  end.

(** No size for which the rounding to pages leaves 64 bits. *)
Definition op_ok (o : heap_op) : Prop := match o with Alloc size => 0 <= size <= 2 ^ 64 - 2 ^ 22 | _ => True end.

Lemma touched_spec live a : touched live a = false <-> outside live a.
Proof.
  unfold touched, outside. split.
  - intros E p b Hp. destruct (decide (p < a + 8 /\ a < p + b)) as [Hin|]; [|lia]. exfalso.
    assert (existsb (fun pb => (pb.1 <? a + 8) && (a <? pb.1 + pb.2)) live = true) as Et; [|by rewrite E in Et].
    apply existsb_exists. exists (p, b). split; [by apply list_elem_of_In|]. cbn. lia.
  - intros Hout. apply not_true_iff_false. intros ([p b] & Hp%list_elem_of_In & Ht)%existsb_exists. cbn in Ht. zbool.
    destruct (Hout p b Hp); lia.
Qed.

Lemma heap_ok_perm h m bl live live' : heap_ok h m bl live -> live ≡ₚ live' -> heap_ok h m bl live'.
Proof.
  intros [Hpar He Hap Hbk Hl Hh Hu] Hp. constructor; try done.
  - by rewrite <- Hp.
  - intros p b Hin. apply Hh. by rewrite Hp.
  - by rewrite <- Hp.
Qed.

(** What is held are blocks of the heap, each at least as long as asked for. *)
Definition held (x y : Z * Z) : Prop := x.1 = y.1 /\ x.2 <= y.2.
Definition run_ok (s : heap_state) : Prop := let '(live, h, m) := s in
  exists bl blocks, heap_ok h m bl blocks /\ Forall2 held live blocks.

Lemma held_outside live blocks a : Forall2 held live blocks -> outside blocks a -> outside live a.
Proof.
  intros Hf Ho p s [i Hi]%list_elem_of_lookup_1. destruct (Forall2_lookup_l _ _ _ _ _ Hf Hi) as ([q b] & Hj & [E Hs]). cbn in E, Hs. subst q.
  destruct (Ho p b); [by eapply list_elem_of_lookup_2|by left|right; lia].
Qed.

Definition by_user (o : heap_op) : bool := match o with Scribble _ => true | _ => false end.

(** One step: it is done, the heap is as it should be, and only its users write into what is held before and after. *)
Lemma block_step_ok o live h m : run_ok (live, h, m) -> op_ok o -> exists live' h' m',
  heap_step o (live, h, m) = Some (live', h', m') /\ run_ok (live', h', m') /\ limits (extents h') = limits (extents h) /\
  (by_user o = false -> forall a, m' a <> m a -> outside live a \/ outside live' a).
Proof.
  intros (bl & blocks & Hok & Hf) Ho. destruct o as [size|k|f]; cbn [heap_step op_ok by_user] in *.
  - destruct (heap_page h (ok_params _ _ _ _ Hok)) as (H4 & Ep & _ & _).
    assert (pagesize h <= 2 ^ 22) by (rewrite Ep; apply Z.pow_le_mono_r; lia).
    pose proof (rtheap_alloc_ok h m bl blocks size Hok ltac:(lia) ltac:(lia)) as Hp.
    destruct (rtheap_alloc h size m) as [[p h'] m']. destruct Hp as [(-> & -> & -> & _)|(Hp & _ & _ & Hs & Hl & (bl' & Hok') & Hw)].
    + exists live, h, m. split; [done|]. split; [by exists bl, blocks|]. split; [done|]. by intros _ a Ha.
    + rewrite (proj2 (Z.eqb_neq p 0) Hp). eexists _, h', m'. split; [done|]. split; [|split; [done|]].
      * exists bl', (blocks ++ [(p, block_size h size)]). split.
        -- apply (heap_ok_perm _ _ _ _ _ Hok'). by rewrite Permutation_app_comm.
        -- apply Forall2_app; [done|]. by repeat constructor.
      * intros _ a Ha. left. by eapply held_outside, Hw.
  - destruct (live !! k) as [[p s]|] eqn:Ek.
    + destruct (Forall2_lookup_l _ _ _ _ _ Hf Ek) as ([q b] & Hj & [E Hs]). cbn in E, Hs. subst q.
      destruct (rtheap_free_ok h m bl blocks Hok p b (delete k blocks)) as (h' & m' & bl' & -> & Hok' & Hl & Hw);
        [by apply delete_Permutation|]. cbn [Z.eqb].
      assert (Forall2 held (delete k live) (delete k blocks)) as Hf'.
      { rewrite !delete_take_drop. apply Forall2_app; [by apply Forall2_take|by apply Forall2_drop]. }
      eexists _, h', m'. split; [done|]. split; [by exists bl', (delete k blocks)|]. split; [done|].
      intros _ a Ha. right. by eapply held_outside, Hw.
    + exists live, h, m. split; [done|]. split; [by exists bl, blocks|]. split; [done|]. by intros _ a Ha.
  - eexists live, h, _. split; [done|]. split; [|done]. exists bl, blocks. split; [|done].
    apply (heap_ok_write h m bl blocks Hok). intros a Ha. by rewrite (proj2 (touched_spec live a) (held_outside _ _ _ Hf Ha)).
Qed.

Lemma heap_run_ok os live h m : run_ok (live, h, m) -> Forall op_ok os -> exists live' h' m',
  heap_run os (live, h, m) = Some (live', h', m') /\ run_ok (live', h', m') /\ limits (extents h') = limits (extents h).
Proof.
  intros Hr Ho. revert live h m Hr. induction Ho as [|o os Ho _ IH]; intros live h m Hr; cbn [heap_run]; [by exists live, h, m|].
  destruct (block_step_ok o live h m Hr Ho) as (live1 & h1 & m1 & -> & Hr1 & Hl1 & _).
  destruct (IH live1 h1 m1 Hr1) as (live' & h' & m' & E & Hr' & Hl'). exists live', h', m'. split_and!; [done..|congruence].
Qed.

(** What is held lies in the extents and apart. *)
Definition all_apart (live : list (Z * Z)) : Prop :=
  forall i j p r q s, live !! i = Some (p, r) -> live !! j = Some (q, s) -> i <> j -> p + r <= q \/ q + s <= p.
Definition all_within (h : rtheap) (live : list (Z * Z)) : Prop :=
  forall p s, (p, s) ∈ live -> exists e, e ∈ extents h /\ membase e <= p /\ p + s <= memlim e.

Lemma run_ok_apart live h m : run_ok (live, h, m) -> all_apart live /\ all_within h live.
Proof.
  intros (bl & blocks & Hok & Hf). pose proof (ok_page _ _ _ _ Hok) as (H4 & Ep & _). split.
  - intros i j p r q s Hi Hj Hij. destruct (Forall2_lookup_l _ _ _ _ _ Hf Hi) as ([p' b] & Hi' & [E Hr]).
    destruct (Forall2_lookup_l _ _ _ _ _ Hf Hj) as ([q' c] & Hj' & [E' Hs]). cbn in E, E', Hr, Hs. subst p' q'.
    destruct (live_block _ _ _ _ Hok p b (list_elem_of_lookup_2 _ _ _ Hi')) as [t HB].
    destruct (live_block _ _ _ _ Hok q c (list_elem_of_lookup_2 _ _ _ Hj')) as [u HC].
    destruct (blocks_apart _ _ _ _ Hok _ _ _ _ _ _ HB HC) as [(-> & _)|?]; [|lia]. exfalso. apply Hij.
    apply (NoDup_lookup (map fst blocks) i j q (ok_live _ _ _ _ Hok)); rewrite list_lookup_fmap; [by rewrite Hi'|by rewrite Hj'].
  - intros p s [i Hi]%list_elem_of_lookup_1. destruct (Forall2_lookup_l _ _ _ _ _ Hf Hi) as ([q b] & Hi' & [E Hs]). cbn in E, Hs. subst q.
    destruct (live_block _ _ _ _ Hok p b (list_elem_of_lookup_2 _ _ _ Hi')) as (t & e & He & HB). exists e. split; [done|].
    destruct (block_within (pagesize h) (npages h) (pageshift h) H4 Ep m e p b t (ok_ext _ _ _ _ Hok e He) HB). lia.
Qed.

(** C32. A heap that [rtheap_init] made in memory of the caller, used in any way by users that ask for memory,
    release what they hold and write what they like into it: every request and release is served, what
    is held lies within the memory of the caller and never overlaps, and a request or a
    release [o] changes no word of what is held before and after it. Sizes are at most 2^64 - 2^22: beyond, the rounding
    wraps ([huge_request]). The byte after the page map must not read
    as [RTHEAP_PCONT] (1) when the heap is made. *)
Theorem heap_blocks_kept addr heapsize pgsz raw suprt big alloc m os o : heap_params_ok heapsize pgsz = true -> 0 < addr ->
  addr + heapsize < 2 ^ 64 -> raw ((heapsize - heap_hdrsize heapsize pgsz) / pgsz) <> RTHEAP_PCONT -> Forall op_ok (os ++ [o]) ->
  exists h0 m0, rtheap_init addr heapsize pgsz raw suprt big alloc m = (inr h0, m0) /\
  exists live1 h1 m1 live h' m', heap_run os ([], h0, m0) = Some (live1, h1, m1) /\ heap_step o (live1, h1, m1) = Some (live, h', m') /\
    all_apart live /\ (forall p s, (p, s) ∈ live -> addr < p /\ p + s <= addr + heapsize) /\
    (by_user o = false -> forall p s a, (p, s) ∈ live1 -> (p, s) ∈ live -> p < a + 8 -> a < p + s -> m' a = m1 a).
Proof.
  intros Hpar Ha Hlim Hraw Hos. destruct (rtheap_init_ok addr heapsize pgsz raw suprt big alloc m Hpar Ha Hlim Hraw)
    as (h0 & m0 & E & Hok & (e & Ee & Hb & Hl) & _). exists h0, m0. split; [done|]. apply Forall_app in Hos as [Hos Ho].
  assert (run_ok ([], h0, m0)) as Hr0 by (by exists no_blocks, []).
  destruct (heap_run_ok os [] h0 m0 Hr0 Hos) as (live1 & h1 & m1 & E1 & Hr1 & Hl1). apply Forall_inv in Ho.
  destruct (block_step_ok o live1 h1 m1 Hr1 Ho) as (live & h' & m' & E2 & Hr & Hl2 & Hw).
  destruct (run_ok_apart _ _ _ Hr) as [Hap Hin]. exists live1, h1, m1, live, h', m'. do 3 (split; [done|]). split.
  - intros p s Hp. destruct (Hin p s Hp) as (e' & He' & ? & ?). rewrite Hl1, Ee in Hl2.
    assert ((membase e', memlim e') ∈ limits (extents h')) as Hel by (unfold limits; apply list_elem_of_In, in_map_iff; exists e'; split; [done|by apply list_elem_of_In]).
    rewrite Hl2 in Hel. apply list_elem_of_singleton in Hel as [= ? ?]. lia.
  - intros Hu p s a Hp1 Hp Hlo Hhi. destruct (decide (m' a = m1 a)) as [|Hne]; [done|]. exfalso.
    destruct (Hw Hu a Hne) as [Hout|Hout]; [destruct (Hout p s Hp1)|destruct (Hout p s Hp)]; lia.
Qed.

Lemma heap_blocks_kept_witness :
  exists h0 m0, rtheap_init 4096 65536 4096 (fun _ => 0) false None (fun _ => None) (fun _ => 0) = (inr h0, m0) /\
  exists live1 h1 m1 live h' m', heap_run [Alloc 100; Alloc 10000; Scribble (fun a => a); Alloc 3000; Release 1] ([], h0, m0) = Some (live1, h1, m1) /\
    heap_step (Alloc 20000) (live1, h1, m1) = Some (live, h', m') /\ all_apart live /\
    (forall p s, (p, s) ∈ live -> 4096 < p /\ p + s <= 4096 + 65536) /\
    (by_user (Alloc 20000) = false -> forall p s a, (p, s) ∈ live1 -> (p, s) ∈ live -> p < a + 8 -> a < p + s -> m' a = m1 a).
Proof.
  apply (heap_blocks_kept 4096 65536 4096 (fun _ => 0) false None (fun _ => None) (fun _ => 0)
    [Alloc 100; Alloc 10000; Scribble (fun a => a); Alloc 3000; Release 1] (Alloc 20000)); [by vm_compute|lia|lia|done|].
  repeat constructor; cbn; lia.
Defined.

(** C33. [rtheap_alloc] on a heap in order, for any size but those whose rounding leaves 64 bits: it gives NULL, and
    changes nothing, exactly when nothing is asked for or there is no room: neither adjacent free pages nor, up to two pages,
    a block in the bucket of the class; else a block that nobody has, at least as long as asked for, of the class
    or the pages [block_size] says, and the heap stays in order. *)
Theorem rtheap_alloc_room h m bl live size : heap_ok h m bl live -> 0 <= size -> size + pagesize h <= 2 ^ 64 ->
  exists p h' m', rtheap_alloc h size m = (p, h', m') /\ (p = 0 <-> size = 0 \/ ~ room h size) /\
    (p = 0 -> h' = h /\ m' = m) /\
    (p <> 0 -> size <= block_size h size /\ (exists bl', heap_ok h' m' bl' ((p, block_size h size) :: live)) /\
      forall a, m' a <> m a -> outside live a).
Proof.
  intros Hok Hs Hsz. pose proof (rtheap_alloc_ok h m bl live size Hok Hs Hsz) as Hp.
  destruct (rtheap_alloc h size m) as [[p h'] m']. exists p, h', m'. split; [done|].
  destruct Hp as [(-> & -> & -> & Hn)|(Hp & Hs0 & Hr & Hle & _ & Hok' & Hw)]; [done|].
  split; [split; [done|by intros [?|?]]|done].
Qed.

Lemma rtheap_alloc_room_witness : exists h m, heap_ok h m no_blocks [] /\ exists p h' m', rtheap_alloc h 9000 m = (p, h', m') /\
  (p = 0 <-> 9000 = 0 \/ ~ room h 9000) /\ (p = 0 -> h' = h /\ m' = m) /\
  (p <> 0 -> 9000 <= block_size h 9000 /\ (exists bl', heap_ok h' m' bl' ((p, block_size h 9000) :: [])) /\
    forall a, m' a <> m a -> outside [] a).
Proof.
  destruct (rtheap_init_ok 4096 65536 4096 (fun _ => 0) false None (fun _ => None) (fun _ => 0)) as (h & m & _ & Hok & _ & Ep);
    [by vm_compute|lia|lia|done|]. exists h, m. split; [exact Hok|]. apply (rtheap_alloc_room h m no_blocks [] 9000 Hok); [lia|]. rewrite Ep. lia.
Defined.

(** ** Where the code does not do what it means to *)

Definition first_heap (raw : Z -> Z) : (Z + rtheap) * memory :=
  rtheap_init 4096 65536 4096 raw false None (fun _ => None) (fun _ => 0).

(** The loop of [rtheap_free] that counts the pages of a run is bounded by [npages], not by the end of the map:
    when bytes after the map read as [RTHEAP_PCONT], the release of the last run of an extent takes pages
    after the end of the extent with it. *)
Example release_past_map :
  (let '(r, m) := first_heap (fun _ => RTHEAP_PCONT) in
   match r with
   | inr h =>
       match heap_run [Alloc 12288; Alloc 49152] ([], h, m) with
       | Some (live, h, m) =>
           match rtheap_free h 16448 m with
           | Some (r, h', m') => Some (live, r, ubytes h, ubytes h', map memlim (extents h), m' 65600)
           | None => None
           end
       | None => None
       end
   | inl _ => None
   end) = Some ([(4160, 12288); (16448, 49152)], 0, 61440, 0, [65600], 69696).
Proof. vm_compute. reflexivity. Qed.

(** With extents of [KMALLOC_LIMIT] bytes for a heap of less the page map of 31 bytes begins 24 bytes before the first page. *)
Example small_extents_overlap raw m a : exists h m', rtheap_init 0 16384 4096 raw true None (fun _ => Some (a, raw)) m = (inr h, m') /\
  npages h = 31 /\ hdrsize h - offset_pagemap = 24.
Proof. do 2 eexists. split_and!; [reflexivity|vm_compute; reflexivity..]. Qed.

(** A size within a page of [2 ^ 64] is rounded to 0, and a block of 16 bytes is given for it. *)
Example huge_request :
  (let '(r, m) := first_heap (fun _ => 0) in
   match r with
   | inr h => let '(p, h, _) := rtheap_alloc h (2 ^ 64 - 1) m in Some (p, ubytes h)
   | inl _ => None
   end) = Some (4160, 16).
Proof. vm_compute. reflexivity. Qed.

(** A block of a bucket that is released twice is given to two users. *)
Example double_release :
  (let '(r, m) := first_heap (fun _ => 0) in
   match r with
   | inr h =>
       match heap_run [Alloc 100; Release 0] ([], h, m) with
       | Some (_, h, m) =>
           match rtheap_free h 4160 m with
           | Some (r, h, m) => option_map (fun s => (r, s.1.1)) (heap_run [Alloc 100; Alloc 100] ([], h, m))
           | None => None
           end
       | None => None
       end
   | inl _ => None
   end) = Some (0, [(4160, 100); (4160, 100)]).
Proof. vm_compute. reflexivity. Qed.
