(* ===== verification/Tlsf.v ===== *)
(** * The two-level segregated fit allocator of malloc.c, and the heap on it.

    The heap when it is configured with TLSF.  A block is a header and its
    buffer; blocks follow one another in memory up to an end block of size 0,
    and free blocks are also in a doubly linked list for the class of their
    size.  Headers are kept by address; pointers and [size_t] are of 64 bits. *)

From S2P Require Import Prelude.

Definition BLOCK_ALIGN := 16.
Definition MAX_LOG2_SLI := 5.
Definition MAX_SLI := 32.
Definition FLI_OFFSET := 6.
Definition SMALL_BLOCK := 128.
Definition REAL_FLI := 24.
Definition sizeof_bhdr := 32.
Definition MIN_BLOCK_SIZE := 16.
Definition BHDR_OVERHEAD := sizeof_bhdr - MIN_BLOCK_SIZE.
Definition TLSF_SIGNATURE := 0x2A59FA59.
Definition PTR_MASK := 7.
Definition BLOCK_SIZE := 0xFFFFFFFF - PTR_MASK.
Definition MEM_ALIGN := BLOCK_ALIGN - 1.
Definition FREE_BLOCK := 1.
Definition PREV_STATE := 2.
Definition PREV_FREE := 2.
Definition sizeof_tlsf := 6280.
Definition sizeof_area_info := 16.
Abbreviation NULL := 0.

Definition ROUNDUP_SIZE (r : Z) : Z := Z.land (u64 (r + MEM_ALIGN)) (Z.lnot MEM_ALIGN).
Definition ROUNDDOWN_SIZE (r : Z) : Z := Z.land r (Z.lnot MEM_ALIGN).
(** [b->ptr.buffer], and the header that many bytes after an address. *)
Definition buffer (b : Z) : Z := b + BHDR_OVERHEAD.
Definition GET_NEXT_BLOCK (addr r : Z) : Z := addr + r.

Record bhdr := MkBhdr { prev_hdr : Z; bsize : Z; fprev : Z; fnext : Z }.
Record tlsf := MkTlsf {
  tlsf_signature : Z; used_size : Z; max_size : Z; area_head : Z;
  fl_bitmap : Z; sl_bitmap : Z -> Z; matrix : Z -> Z -> Z;
  hdr : Z -> bhdr
}.

Definition hdr_prev_hdr (v : Z) (h : bhdr) := MkBhdr v (bsize h) (fprev h) (fnext h).
Definition hdr_size (v : Z) (h : bhdr) := MkBhdr (prev_hdr h) v (fprev h) (fnext h).
Definition hdr_fprev (v : Z) (h : bhdr) := MkBhdr (prev_hdr h) (bsize h) v (fnext h).
Definition hdr_fnext (v : Z) (h : bhdr) := MkBhdr (prev_hdr h) (bsize h) (fprev h) v.
(** [b->field = v]. *)
Definition hset (f : Z -> bhdr -> bhdr) (b v : Z) (T : tlsf) : tlsf :=
  MkTlsf (tlsf_signature T) (used_size T) (max_size T) (area_head T) (fl_bitmap T) (sl_bitmap T) (matrix T)
    (<[b := f v (hdr T b)]> (hdr T)).
Definition set_fl_bitmap (v : Z) (T : tlsf) : tlsf :=
  MkTlsf (tlsf_signature T) (used_size T) (max_size T) (area_head T) v (sl_bitmap T) (matrix T) (hdr T).
Definition set_sl_bitmap (fl v : Z) (T : tlsf) : tlsf :=
  MkTlsf (tlsf_signature T) (used_size T) (max_size T) (area_head T) (fl_bitmap T) (<[fl := v]> (sl_bitmap T))
    (matrix T) (hdr T).
Definition set_matrix (fl sl v : Z) (T : tlsf) : tlsf :=
  MkTlsf (tlsf_signature T) (used_size T) (max_size T) (area_head T) (fl_bitmap T) (sl_bitmap T)
    (<[fl := <[sl := v]> (matrix T fl)]> (matrix T)) (hdr T).
Definition set_used (u m : Z) (T : tlsf) : tlsf :=
  MkTlsf (tlsf_signature T) u m (area_head T) (fl_bitmap T) (sl_bitmap T) (matrix T) (hdr T).
Definition set_area_head (v : Z) (T : tlsf) : tlsf :=
  MkTlsf (tlsf_signature T) (used_size T) (max_size T) v (fl_bitmap T) (sl_bitmap T) (matrix T) (hdr T).

(** ** Bits *)

Definition table : list Z :=
  [-1; 0; 1; 1] ++ repeat 2 4 ++ repeat 3 8 ++ repeat 4 16 ++ repeat 5 32 ++ repeat 6 64 ++ repeat 7 128.

(** The shift that brings [x] into the table. *)
Definition table_shift (x : Z) : Z :=
  if x <=? 0xffff then (if x <=? 0xff then 0 else 8) else (if x <=? 0xffffff then 16 else 24).
Definition ls_bit (i : Z) : Z :=
  let i := i32 i in
  let x := u32 (Z.land i (- i)) in
  let a := table_shift x in zget table (Z.shiftr x a) + a.
Definition ms_bit (i : Z) : Z :=
  let x := u32 (i32 i) in
  let a := table_shift x in zget table (Z.shiftr x a) + a.

Definition tlsf_set_bit (nr word : Z) : Z := Z.lor word (Z.shiftl 1 (Z.land nr 0x1f)).
Definition tlsf_clear_bit (nr word : Z) : Z := Z.land word (Z.lnot (Z.shiftl 1 (Z.land nr 0x1f))).

(** ** Size classes *)

(** [r], [fl] and [sl] after the call. *)
Definition MAPPING_SEARCH (r : Z) : Z * Z * Z :=
  if r <? SMALL_BLOCK then (r, 0, r / (SMALL_BLOCK / MAX_SLI))
  else
    let t := Z.shiftl 1 (ms_bit r - MAX_LOG2_SLI) - 1 in
    let r := u64 (r + t) in
    let fl := ms_bit r in
    let sl := i32 (Z.shiftr r (fl - MAX_LOG2_SLI) - MAX_SLI) in
    (Z.land r (Z.lnot t), fl - FLI_OFFSET, sl).
Definition MAPPING_INSERT (r : Z) : Z * Z :=
  if r <? SMALL_BLOCK then (0, r / (SMALL_BLOCK / MAX_SLI))
  else
    let fl := ms_bit r in
    (fl - FLI_OFFSET, i32 (Z.shiftr r (fl - MAX_LOG2_SLI) - MAX_SLI)).

(** The indices the arrays of the pool have. *)
Definition in_matrix (fl sl : Z) : bool :=
  (0 <=? fl) && (fl <? REAL_FLI) && (0 <=? sl) && (sl <? MAX_SLI).

(** [None] is an index outside of the arrays.  Else the class found and its
    first block, or [NULL]. *)
Definition FIND_SUITABLE_BLOCK (fl sl : Z) (T : tlsf) : option (Z * Z * Z) :=
  if in_matrix fl sl then
    let tmp := Z.land (sl_bitmap T fl) (Z.shiftl (-1) sl) in
    if negb (tmp =? 0) then
      let sl := ls_bit tmp in Some (fl, sl, matrix T fl sl)
    else
      let fl := ls_bit (Z.land (fl_bitmap T) (Z.shiftl (-1) (fl + 1))) in
      if 0 <? fl then
        let sl := ls_bit (sl_bitmap T fl) in Some (fl, sl, matrix T fl sl)
      else Some (fl, sl, NULL)
  else None.

(** ** The lists of free blocks *)

(** Clears the bits of a class that has become empty. *)
Definition clear_class (fl sl : Z) (T : tlsf) : tlsf :=
  let T := set_sl_bitmap fl (tlsf_clear_bit sl (sl_bitmap T fl)) T in
  if sl_bitmap T fl =? 0 then set_fl_bitmap (tlsf_clear_bit fl (fl_bitmap T)) T else T.
Definition no_free_ptr (b : Z) (T : tlsf) : tlsf := hset hdr_fnext b NULL (hset hdr_fprev b NULL T).

Definition EXTRACT_BLOCK_HDR (b fl sl : Z) (T : tlsf) : tlsf :=
  let T := set_matrix fl sl (fnext (hdr T b)) T in
  let T := if negb (matrix T fl sl =? NULL) then hset hdr_fprev (matrix T fl sl) NULL T
           else clear_class fl sl T in
  no_free_ptr b T.

Definition EXTRACT_BLOCK (b fl sl : Z) (T : tlsf) : tlsf :=
  let T := if negb (fnext (hdr T b) =? NULL) then hset hdr_fprev (fnext (hdr T b)) (fprev (hdr T b)) T else T in
  let T := if negb (fprev (hdr T b) =? NULL) then hset hdr_fnext (fprev (hdr T b)) (fnext (hdr T b)) T else T in
  let T :=
    if matrix T fl sl =? b then
      let T := set_matrix fl sl (fnext (hdr T b)) T in
      if matrix T fl sl =? NULL then clear_class fl sl T else T
    else T in
  no_free_ptr b T.

Definition INSERT_BLOCK (b fl sl : Z) (T : tlsf) : tlsf :=
  let T := hset hdr_fnext b (matrix T fl sl) (hset hdr_fprev b NULL T) in
  let T := if negb (matrix T fl sl =? NULL) then hset hdr_fprev (matrix T fl sl) b T else T in
  let T := set_matrix fl sl b T in
  let T := set_sl_bitmap fl (tlsf_set_bit sl (sl_bitmap T fl)) T in
  set_fl_bitmap (tlsf_set_bit fl (fl_bitmap T)) T.

(** ** Allocation and release *)

(** [b->size & BLOCK_SIZE]. *)
Definition bytes (b : Z) (T : tlsf) : Z := Z.land (bsize (hdr T b)) BLOCK_SIZE.

Definition TLSF_ADD_SIZE (b : Z) (T : tlsf) : tlsf :=
  let u := u64 (used_size T + (bytes b T + BHDR_OVERHEAD)) in
  set_used u (if max_size T <? u then u else max_size T) T.
Definition TLSF_REMOVE_SIZE (b : Z) (T : tlsf) : tlsf :=
  set_used (u64 (used_size T - (bytes b T + BHDR_OVERHEAD))) (max_size T) T.

Definition round_size (size : Z) : Z := if size <? MIN_BLOCK_SIZE then MIN_BLOCK_SIZE else ROUNDUP_SIZE size.

(** The block [b] found is cut to [size] bytes when what is left can be a block. *)
Definition split_block (b size : Z) (T : tlsf) : option tlsf :=
  let next_b := GET_NEXT_BLOCK (buffer b) (bytes b T) in
  let tmp_size := u64 (bytes b T - size) in
  if sizeof_bhdr <=? tmp_size then
    let tmp_size := tmp_size - BHDR_OVERHEAD in
    let b2 := GET_NEXT_BLOCK (buffer b) size in
    let T := hset hdr_size b2 (Z.lor tmp_size FREE_BLOCK) T in
    let T := hset hdr_prev_hdr next_b b2 T in
    let '(fl, sl) := MAPPING_INSERT tmp_size in
    if in_matrix fl sl then
      let T := INSERT_BLOCK b2 fl sl T in
      Some (hset hdr_size b (Z.lor size (Z.land (bsize (hdr T b)) PREV_STATE)) T)
    else None
  else
    let T := hset hdr_size next_b (Z.land (bsize (hdr T next_b)) (Z.lnot PREV_FREE)) T in
    Some (hset hdr_size b (Z.land (bsize (hdr T b)) (Z.lnot FREE_BLOCK)) T).

(** The address of the buffer, or [NULL]; [None] is an access outside of the
    arrays of the pool. *)
Definition malloc_ex (size : Z) (T : tlsf) : option (Z * tlsf) :=
  let '(size, fl, sl) := MAPPING_SEARCH (round_size size) in
  match FIND_SUITABLE_BLOCK fl sl T with
  | None => None
  | Some (fl, sl, b) =>
      if b =? NULL then Some (NULL, T)
      else
        match split_block b size (EXTRACT_BLOCK_HDR b fl sl T) with
        | Some T => Some (buffer b, TLSF_ADD_SIZE b T)
        | None => None
        end
  end.

(** The neighbour [tmp_b] is taken out of the list of its class. *)
Definition take_out (tmp_b : Z) (T : tlsf) : option tlsf :=
  let '(fl, sl) := MAPPING_INSERT (bytes tmp_b T) in
  if in_matrix fl sl then Some (EXTRACT_BLOCK tmp_b fl sl T) else None.

Definition join_next (b : Z) (T : tlsf) : option tlsf :=
  let tmp_b := GET_NEXT_BLOCK (buffer b) (bytes b T) in
  if negb (Z.land (bsize (hdr T tmp_b)) FREE_BLOCK =? 0) then
    match take_out tmp_b T with
    | Some T => Some (hset hdr_size b (u64 (bsize (hdr T b) + (bytes tmp_b T + BHDR_OVERHEAD))) T)
    | None => None
    end
  else Some T.
Definition join_prev (b : Z) (T : tlsf) : option (Z * tlsf) :=
  if negb (Z.land (bsize (hdr T b)) PREV_FREE =? 0) then
    let tmp_b := prev_hdr (hdr T b) in
    match take_out tmp_b T with
    | Some T => Some (tmp_b, hset hdr_size tmp_b (u64 (bsize (hdr T tmp_b) + (bytes b T + BHDR_OVERHEAD))) T)
    | None => None
    end
  else Some (b, T).

Definition free_ex (ptr : Z) (T : tlsf) : option tlsf :=
  if ptr =? NULL then Some T
  else
    let b := ptr - BHDR_OVERHEAD in
    let T := hset hdr_size b (Z.lor (bsize (hdr T b)) FREE_BLOCK) T in
    let T := TLSF_REMOVE_SIZE b T in
    let T := no_free_ptr b T in
    match join_next b T with
    | None => None
    | Some T =>
        match join_prev b T with
        | None => None
        | Some (b, T) =>
            let '(fl, sl) := MAPPING_INSERT (bytes b T) in
            if in_matrix fl sl then
              let T := INSERT_BLOCK b fl sl T in
              let tmp_b := GET_NEXT_BLOCK (buffer b) (bytes b T) in
              let T := hset hdr_size tmp_b (Z.lor (bsize (hdr T tmp_b)) PREV_FREE) T in
              Some (hset hdr_prev_hdr tmp_b b T)
            else None
        end
    end.

(** ** A new pool *)

(** The header block of the area, one block for the rest of it, and the end. *)
Definition process_area (area size : Z) (T : tlsf) : Z * tlsf :=
  let ib := area in
  let T := hset hdr_size ib (if sizeof_area_info <? MIN_BLOCK_SIZE then MIN_BLOCK_SIZE
                             else ROUNDUP_SIZE sizeof_area_info) T in
  let b := GET_NEXT_BLOCK (buffer ib) (bytes ib T) in
  let T := hset hdr_size b (ROUNDDOWN_SIZE (u64 (size - 3 * BHDR_OVERHEAD - bytes ib T))) T in
  let T := no_free_ptr b T in
  let lb := GET_NEXT_BLOCK (buffer b) (bytes b T) in
  let T := hset hdr_prev_hdr lb b T in
  (ib, hset hdr_size lb PREV_FREE T).

(** The pool at [mem_pool], whose memory reads as [T] before the call; the first
    result is that of the code, a [size_t]. *)
Definition init_memory_pool (mem_pool_size mem_pool : Z) (T : tlsf) : option (Z * tlsf) :=
  if (mem_pool =? NULL) || (mem_pool_size =? 0) || (mem_pool_size <? sizeof_tlsf + BHDR_OVERHEAD * 8)
  then Some (u64 (-1), T)
  else if negb (Z.land mem_pool PTR_MASK =? 0) then Some (u64 (-1), T)
  else if tlsf_signature T =? TLSF_SIGNATURE then
    Some (bytes (GET_NEXT_BLOCK mem_pool (ROUNDUP_SIZE sizeof_tlsf)) T, T)
  else
    let T := MkTlsf TLSF_SIGNATURE 0 0 NULL 0 (fun _ => 0) (fun _ _ => NULL) (hdr T) in
    let '(ib, T) := process_area (GET_NEXT_BLOCK mem_pool (ROUNDUP_SIZE sizeof_tlsf))
                      (ROUNDDOWN_SIZE (mem_pool_size - sizeof_tlsf)) T in
    let b := GET_NEXT_BLOCK (buffer ib) (bytes ib T) in
    match free_ex (buffer b) T with
    | None => None
    | Some T =>
        let T := set_area_head (buffer ib) T in
        let u := u64 (mem_pool_size - bytes b T) in
        Some (bytes b T, set_used u u T)
    end.

(** ** The heap: a list of extents, each a pool *)

Definition sizeof_rtextent := 48.
Definition RTHEAP_NOMEM := -1.
Definition KMALLOC_LIMIT := 131072.

Record extent := MkExtent { membase : Z; memlim : Z; pool : tlsf }.
Record rtheap := MkHeap { extentsize : Z; extents : list extent }.

Definition tlsf_extent (adr size : Z) (mem : Z -> tlsf) : option extent :=
  match init_memory_pool (u64 (size - sizeof_rtextent)) (adr + sizeof_rtextent) (mem adr) with
  | Some (_, T) => Some (MkExtent (adr + sizeof_rtextent) (adr + size) T)
  | None => None
  end.

(** The loop of [rtheap_init]; [alloc i] is what the [i]-th [alloc_extent] gives.
    The result of [init_memory_pool] is unsigned and is never below zero. *)
Fixpoint init_extents (fuel : nat) (alloc : nat -> Z) (mem : Z -> tlsf) (esize heapsize init_size : Z)
    (l : list extent) : option (Z * list extent) :=
  match fuel with
  | O => None
  | S fuel =>
      if init_size <? heapsize then
        let adr := alloc (length l) in
        if adr =? NULL then Some (RTHEAP_NOMEM, l)
        else match tlsf_extent adr esize mem with
             | Some e => init_extents fuel alloc mem esize heapsize (u64 (init_size + esize)) (l ++ [e])
             | None => None
             end
      else Some (0, l)
  end.

Definition rtheap_init (fuel : nat) (heapaddr heapsize : Z) (suprt : bool) (big : Z) (alloc : nat -> Z)
    (mem : Z -> tlsf) : option (Z * rtheap) :=
  let '(heapaddr, esize) :=
    if (heapaddr =? NULL) && suprt then
      if (heapsize <=? KMALLOC_LIMIT) || (big =? NULL) then (NULL, KMALLOC_LIMIT) else (big, heapsize)
    else (heapaddr, heapsize) in
  if negb (heapaddr =? NULL) then
    match tlsf_extent heapaddr heapsize mem with
    | Some e => Some (0, MkHeap esize [e])
    | None => None
    end
  else match init_extents fuel alloc mem esize heapsize 0 [] with
       | Some (r, l) => Some (r, MkHeap esize l)
       | None => None
       end.

(** The first extent that has a block. *)
Fixpoint alloc_loop (size : Z) (l : list extent) : option (Z * list extent) :=
  match l with
  | [] => Some (NULL, [])
  | e :: l =>
      match malloc_ex size (pool e) with
      | None => None
      | Some (adr, T) =>
          let e := MkExtent (membase e) (memlim e) T in
          if negb (adr =? NULL) then Some (adr, e :: l)
          else match alloc_loop size l with
               | Some (adr, l) => Some (adr, e :: l)
               | None => None
               end
      end
  end.
Definition rtheap_alloc (h : rtheap) (size : Z) : option (Z * rtheap) :=
  if size =? 0 then Some (NULL, h)
  else match alloc_loop size (extents h) with
       | Some (adr, l) => Some (adr, MkHeap (extentsize h) l)
       | None => None
       end.

(** The extent the block is in. *)
Fixpoint free_loop (block : Z) (l : list extent) : option (list extent) :=
  match l with
  | [] => Some []
  | e :: l =>
      if (block <? memlim e) && (membase e <=? block) then
        match free_ex block (pool e) with
        | Some T => Some (MkExtent (membase e) (memlim e) T :: l)
        | None => None
        end
      else match free_loop block l with Some l => Some (e :: l) | None => None end
  end.
Definition rtheap_free (h : rtheap) (block : Z) : option rtheap :=
  match free_loop block (extents h) with
  | Some l => Some (MkHeap (extentsize h) l)
  | None => None
  end.
Definition tlsf_get_used_size (h : rtheap) : Z :=
  match extents h with e :: _ => used_size (pool e) | [] => 0 end.
