(* ===== verification/TlsfFacts.v ===== *)
(** * The bit scans, size classes and free lists of the TLSF allocator.

    The scans of [malloc.c] find the lowest and the highest set bit; the search
    rounds a size up to a class all of whose blocks are big enough; the lists of
    the classes, with their bitmaps, are kept by insertion and extraction. *)

From S2P Require Import Prelude Tlsf.
From stdpp Require Import list sets.
#[local] Open Scope Z_scope.

(** ** Bits *)

Lemma testbit_pack q x i : 0 <= x < 8 -> 0 <= i ->
  Z.testbit (q * 8 + x) i = if i <? 3 then Z.testbit x i else Z.testbit q (i - 3).
Proof.
  intros Hx Hi. zcase.
  - rewrite <- (Z.mod_pow2_bits_low (q * 8 + x) 3) by lia. change (2 ^ 3) with 8.
    rewrite Z.add_comm, Z.mod_add, Z.mod_small by lia. done.
  - replace i with (i - 3 + 3) at 1 by lia. rewrite <- Z.shiftr_spec by lia.
    rewrite Z.shiftr_div_pow2 by lia. change (2 ^ 3) with 8.
    by rewrite Z.div_add_l, Z.div_small, Z.add_0_r by lia.
Qed.

Lemma land_pack q p x y : 0 <= x < 8 -> 0 <= y < 8 ->
  Z.land (q * 8 + x) (p * 8 + y) = Z.land q p * 8 + Z.land x y.
Proof.
  intros Hx Hy. assert (0 <= Z.land x y < 8).
  { split; [apply Z.land_nonneg; lia|]. destruct (decide (Z.land x y = 0)); [lia|].
    apply (Z.log2_lt_pow2 _ 3); [pose proof (Z.land_nonneg x y); lia|].
    pose proof (Z.log2_land x y ltac:(lia) ltac:(lia)). assert (Z.log2 x <= 2) by (apply (Z.log2_le_mono x 7); lia). lia. }
  apply Z.bits_inj'. intros i Hi. rewrite Z.land_spec, !testbit_pack by done. by zcase; rewrite Z.land_spec.
Qed.
Lemma lor_pack q p x y : 0 <= x < 8 -> 0 <= y < 8 ->
  Z.lor (q * 8 + x) (p * 8 + y) = Z.lor q p * 8 + Z.lor x y.
Proof.
  intros Hx Hy. assert (0 <= Z.lor x y < 8).
  { split; [apply Z.lor_nonneg; lia|]. destruct (decide (Z.lor x y = 0)); [lia|].
    apply (Z.log2_lt_pow2 _ 3); [pose proof (Z.lor_nonneg x y); lia|]. rewrite Z.log2_lor by lia.
    assert (Z.log2 x <= 2) by (apply (Z.log2_le_mono x 7); lia).
    assert (Z.log2 y <= 2) by (apply (Z.log2_le_mono y 7); lia). lia. }
  apply Z.bits_inj'. intros i Hi. rewrite Z.lor_spec, !testbit_pack by done. by zcase; rewrite Z.lor_spec.
Qed.

(** The size field: a multiple of 8 and the two state bits. *)
Section size_field.
Context (q : Z) (Hq : 0 <= q < 2 ^ 29).
Let n := q * 8.

Lemma land_low x m : 0 <= x < 8 -> 0 <= m < 8 -> Z.land (n + x) m = Z.land x m.
Proof using Hq. intros. unfold n. change m with (0 * 8 + m) at 1. rewrite land_pack by lia. rewrite Z.land_0_r. lia. Qed.
Lemma lor_low x m : 0 <= x < 8 -> 0 <= m < 8 -> Z.lor (n + x) m = n + Z.lor x m.
Proof using Hq. intros. unfold n. change m with (0 * 8 + m) at 1. rewrite lor_pack by lia. rewrite Z.lor_0_r. lia. Qed.
Lemma land_lnot_low x m : 0 <= x < 8 -> 0 <= m < 8 -> Z.land (n + x) (Z.lnot m) = n + Z.land x (7 - m).
Proof using Hq.
  intros. unfold n. replace (Z.lnot m) with (-1 * 8 + (7 - m)) by (unfold Z.lnot; lia).
  rewrite land_pack by lia. rewrite Z.land_m1_r. lia.
Qed.
Lemma land_bytes x : 0 <= x < 8 -> Z.land (n + x) BLOCK_SIZE = n.
Proof using Hq.
  intros. unfold n. change BLOCK_SIZE with (Z.ones 29 * 8 + 0). rewrite land_pack by lia.
  rewrite Z.land_ones, Z.mod_small, Z.land_0_r by lia. lia.
Qed.
End size_field.

(** ** The bit scans *)

Lemma table_log2 v : 1 <= v < 256 -> zget table v = Z.log2 v.
Proof.
  intros Hv. assert (forallb (fun v => zget table v =? Z.log2 v) (seqZ 1 255) = true) as Ht by (vm_compute; reflexivity).
  rewrite forallb_forall in Ht. specialize (Ht v). rewrite <- Z.eqb_eq. apply Ht.
  apply list_elem_of_In, elem_of_seqZ. lia.
Qed.

Lemma table_scan x : 0 < x < 2 ^ 32 -> zget table (Z.shiftr x (table_shift x)) + table_shift x = Z.log2 x.
Proof.
  intros Hx. assert (0 <= table_shift x /\ 2 ^ table_shift x <= x < 2 ^ (table_shift x + 8) \/
    table_shift x = 0 /\ x < 256) as Ha by (unfold table_shift; zcases; lia).
  assert (0 <= table_shift x <= 24) by (unfold table_shift; zcases; lia).
  set (a := table_shift x) in *. rewrite Z.shiftr_div_pow2 by lia.
  assert (1 <= x / 2 ^ a < 256).
  { destruct Ha as [[_ Ha]|[-> ?]]; [|rewrite Z.div_1_r; lia]. rewrite Z.pow_add_r in Ha by lia.
    split; [apply Z.div_le_lower_bound; lia|apply Z.div_lt_upper_bound; lia]. }
  rewrite table_log2 by done. rewrite <- Z.shiftr_div_pow2, Z.log2_shiftr by lia.
  assert (a <= Z.log2 x); [|lia]. destruct Ha as [[_ Ha]|[-> ?]]; [|apply Z.log2_nonneg].
  apply Z.log2_le_pow2; lia.
Qed.

Lemma u32_i32 x : 0 <= x < 2 ^ 32 -> u32 (i32 x) = x.
Proof.
  intros Hx. unfold wrapu, wraps. rewrite Zminus_mod_idemp_l. change (32 - 1) with 31.
  replace (x + 2 ^ 31 - 2 ^ 31) with x by lia. by apply Z.mod_small.
Qed.

Lemma ms_bit_log2 x : 0 < x < 2 ^ 32 -> ms_bit x = Z.log2 x.
Proof. intros Hx. unfold ms_bit. rewrite u32_i32 by lia. by apply table_scan. Qed.

(** A positive number has a lowest bit, and [x & -x] is it. *)
Lemma lowest_bit x : 0 < x -> exists k m, 0 <= k /\ 0 <= m /\ x = 2 ^ k * (2 * m + 1).
Proof.
  intros Hx. pose proof (Z.lt_wf 0 x) as Hacc. induction Hacc as [x _ IH].
  destruct (Z.odd x) eqn:E.
  - exists 0, (x / 2). rewrite (Z.div_mod x 2) at 2 by lia.
    rewrite (Zmod_odd x), E. split_and!; [lia|apply Z.div_pos; lia|lia].
  - assert (x = 2 * (x / 2)) as Ex by (rewrite (Z.div_mod x 2) at 1 by lia; rewrite (Zmod_odd x), E; lia).
    destruct (IH (x / 2)) as (k & m & Hk & Hm & E2); [lia|lia|].
    exists (k + 1), m. split_and!; [lia|lia|]. rewrite Z.pow_add_r by lia. lia.
Qed.

Lemma land_opp k m : 0 <= k -> 0 <= m -> let x := 2 ^ k * (2 * m + 1) in Z.land x (- x) = 2 ^ k.
Proof.
  intros Hk Hm x. unfold x. replace (- (2 ^ k * (2 * m + 1))) with ((2 * (- m - 1) + 1) * 2 ^ k) by lia.
  rewrite Z.mul_comm, <- !Z.shiftl_mul_pow2, <- Z.shiftl_land by lia.
  assert (Z.land (2 * m + 1) (2 * (- m - 1) + 1) = 1) as ->; [|by rewrite Z.shiftl_mul_pow2, Z.mul_1_l].
  apply Z.bits_inj'. intros i Hi. rewrite Z.land_spec. destruct (decide (i = 0)) as [->|Hne].
  - by rewrite !Z.testbit_odd_0.
  - replace i with (Z.succ (i - 1)) by lia. rewrite !Z.testbit_odd_succ by lia.
    assert (Z.testbit 1 (Z.succ (i - 1)) = false) as -> by exact (Z.pow2_bits_false 0 (Z.succ (i - 1)) ltac:(lia)).
    replace (- m - 1) with (Z.lnot m) by (unfold Z.lnot; lia). rewrite Z.lnot_spec by lia. by destruct (Z.testbit m _).
Qed.

Lemma ls_bit_lowest x : 0 < x < 2 ^ 32 ->
  0 <= ls_bit x < 32 /\ Z.testbit x (ls_bit x) = true /\ forall j, 0 <= j < ls_bit x -> Z.testbit x j = false.
Proof.
  intros Hx. destruct (lowest_bit x) as (k & m & Hk & Hm & E); [lia|].
  assert (k < 32) as Hk32.
  { apply (Z.pow_lt_mono_r_iff 2); [lia|lia|]. assert (2 ^ k * 1 <= 2 ^ k * (2 * m + 1)) by (apply Z.mul_le_mono_nonneg_l; lia). lia. }
  assert (Z.testbit x k = true /\ forall j, 0 <= j < k -> Z.testbit x j = false) as [Ht Hf].
  { rewrite E, Z.mul_comm, <- Z.shiftl_mul_pow2 by lia. split.
    - rewrite Z.shiftl_spec, Z.sub_diag by lia. apply Z.testbit_odd_0.
    - intros j Hj. rewrite Z.shiftl_spec by lia. apply Z.testbit_neg_r. lia. }
  assert (ls_bit x = k) as ->; [|done].
  unfold ls_bit. assert (u32 (Z.land (i32 x) (- i32 x)) = 2 ^ k) as ->.
  2:{ rewrite table_scan, Z.log2_pow2; [done|lia|]. split; [apply Z.pow_pos_nonneg; lia|apply Z.pow_lt_mono_r; lia]. }
  (* the low 32 bits of the conjunction do not see the sign *)
  assert (exists c, i32 x = x - c * 2 ^ 32) as [c Ec].
  { exists ((x + 2 ^ 31) / 2 ^ 32). unfold wraps. change (32 - 1) with 31. rewrite Z.mod_eq by lia. lia. }
  rewrite Ec. pose proof (land_opp k m Hk Hm) as Hl. cbv zeta in Hl. rewrite <- E in Hl.
  unfold wrapu. rewrite <- (Z.mod_small (2 ^ k) (2 ^ 32)), <- Hl
    by (split; [apply Z.pow_nonneg; lia|apply Z.pow_lt_mono_r; lia]).
  rewrite <- !Z.land_ones by lia.
  rewrite <- !(Z.land_assoc _ _ (Z.ones 32)), !(Z.land_comm (- _) (Z.ones 32)), !Z.land_assoc.
  apply Z.bits_inj'. intros i Hi. rewrite !Z.land_spec, Z.testbit_ones by lia.
  destruct (decide (i < 32)).
  - assert (forall y, Z.testbit y i = Z.testbit (y mod 2 ^ 32) i) as Hmod by (intros y; by rewrite Z.mod_pow2_bits_low).
    rewrite (Hmod (x - _)), (Hmod (- (x - _))).
    replace (x - c * 2 ^ 32) with (x + (- c) * 2 ^ 32) by lia. rewrite Z.mod_add by lia.
    replace (- (x + (- c) * 2 ^ 32)) with (- x + c * 2 ^ 32) by lia. rewrite Z.mod_add by lia.
    rewrite <- !Hmod. done.
  - rewrite (proj2 (Z.ltb_ge i 32)) by lia. by rewrite andb_false_r, !andb_false_r.
Qed.

(** ** Size classes

    Classes are ordered; the order of sizes is the order of their classes. *)

Definition rank (c : Z * Z) : Z := 32 * c.1 + c.2.
Definition class_ok (c : Z * Z) : Prop := 0 <= c.1 < REAL_FLI /\ 0 <= c.2 < MAX_SLI.

Lemma in_matrix_ok fl sl : in_matrix fl sl = true <-> class_ok (fl, sl).
Proof. unfold in_matrix, class_ok, REAL_FLI, MAX_SLI. cbn [fst snd]. lia. Qed.

(** The class of a size from 128 on: its logarithm and the five bits below the first. *)
Lemma big_class n : 128 <= n < 2 ^ 30 ->
  let l := Z.log2 n in
  7 <= l < 30 /\ 32 <= n / 2 ^ (l - 5) < 64 /\ MAPPING_INSERT n = (l - 6, n / 2 ^ (l - 5) - 32).
Proof.
  intros Hn l. pose proof (Z.log2_spec n ltac:(lia)) as Hl. fold l in Hl.
  assert (7 <= l) by (apply (Z.log2_le_mono 128 n); lia).
  assert (l < 30) by (apply Z.log2_lt_pow2; lia).
  assert (32 <= n / 2 ^ (l - 5) < 64) as Hd.
  { assert (0 < 2 ^ (l - 5)) by (apply Z.pow_pos_nonneg; lia).
    replace l with (5 + (l - 5)) in Hl by lia. rewrite <- Z.add_succ_l, !Z.pow_add_r in Hl by lia.
    change (2 ^ 5) with 32 in Hl. change (2 ^ Z.succ 5) with 64 in Hl.
    split; [apply Z.div_le_lower_bound; lia|apply Z.div_lt_upper_bound; lia]. }
  split_and!; try lia. unfold MAPPING_INSERT, SMALL_BLOCK. rewrite (proj2 (Z.ltb_ge _ _)) by lia.
  rewrite ms_bit_log2 by lia. fold l. unfold MAX_LOG2_SLI, MAX_SLI, FLI_OFFSET.
  rewrite Z.shiftr_div_pow2, wraps_small by lia. done.
Qed.

Lemma small_class n : 0 <= n < 128 -> MAPPING_INSERT n = (0, n / 4).
Proof. intros. unfold MAPPING_INSERT, SMALL_BLOCK. by rewrite (proj2 (Z.ltb_lt _ _)) by lia. Qed.

Lemma class_range n : 0 <= n < 2 ^ 30 -> class_ok (MAPPING_INSERT n).
Proof.
  intros Hn. unfold class_ok, REAL_FLI, MAX_SLI. destruct (decide (n < 128)).
  - rewrite small_class by lia. cbn [fst snd]. split; [lia|].
    split; [apply Z.div_pos; lia|apply Z.div_lt_upper_bound; lia].
  - destruct (big_class n) as (Hl & Hd & ->); [lia|]. cbn [fst snd]. lia.
Qed.

Lemma rank_small n : 0 <= n < 128 -> rank (MAPPING_INSERT n) = n / 4 /\ 0 <= n / 4 < 32.
Proof.
  intros. rewrite small_class by lia. unfold rank. cbn [fst snd].
  assert (0 <= n / 4) by (apply Z.div_pos; lia).
  assert (n / 4 < 32) by (apply Z.div_lt_upper_bound; lia). lia.
Qed.
Lemma rank_big n : 128 <= n < 2 ^ 30 ->
  rank (MAPPING_INSERT n) = 32 * (Z.log2 n - 6) + (n / 2 ^ (Z.log2 n - 5) - 32) /\
  7 <= Z.log2 n < 30 /\ 32 <= n / 2 ^ (Z.log2 n - 5) < 64.
Proof. intros. destruct (big_class n) as (? & ? & ->); [done|]. by unfold rank. Qed.

(** The sizes of a class and above are those from its least one on. *)
Lemma rank_ge_small r n : 0 <= r < 128 -> r mod 4 = 0 -> 0 <= n < 2 ^ 30 ->
  r / 4 <= rank (MAPPING_INSERT n) <-> r <= n.
Proof.
  intros Hr H4 Hn. assert (r = 4 * (r / 4)) as Er by (rewrite (Z.div_mod r 4) at 1 by lia; lia).
  destruct (decide (n < 128)).
  - destruct (rank_small n) as [-> ?]; [lia|]. split; intros Hx.
    + pose proof (Z.mul_div_le n 4 ltac:(lia)). lia.
    + by apply Z.div_le_mono; lia.
  - destruct (rank_big n) as (-> & ? & ?); [lia|].
    assert (r / 4 < 32) by (apply Z.div_lt_upper_bound; lia). lia.
Qed.

Lemma rank_ge_big l m n : 7 <= l < 30 -> 32 <= m < 64 -> 0 <= n < 2 ^ 30 ->
  32 * (l - 6) + (m - 32) <= rank (MAPPING_INSERT n) <-> m * 2 ^ (l - 5) <= n.
Proof.
  intros Hl Hm Hn. assert (0 < 2 ^ (l - 5)) by (apply Z.pow_pos_nonneg; lia).
  assert (2 ^ l = 32 * 2 ^ (l - 5)) as Epow.
  { replace l with (5 + (l - 5)) at 1 by lia. by rewrite Z.pow_add_r by lia. }
  assert (128 <= 2 ^ l) by (apply (Z.pow_le_mono_r 2 7 l); lia).
  destruct (decide (n < 128)).
  - destruct (rank_small n) as [-> ?]; [lia|]. nia.
  - destruct (rank_big n) as (-> & Hln & Hdn); [lia|]. pose proof (Z.log2_spec n ltac:(lia)) as Hs.
    destruct (Z.lt_trichotomy (Z.log2 n) l) as [Hlt|[Heq|Hgt]].
    + assert (n < 2 ^ l).
      { eapply Z.lt_le_trans; [apply Hs|]. apply Z.pow_le_mono_r; lia. }
      nia.
    + rewrite Heq. split; intros H'.
      * assert (m <= n / 2 ^ (l - 5)) by (rewrite Heq in Hdn; lia).
        pose proof (Z.mul_div_le n (2 ^ (l - 5)) ltac:(lia)). nia.
      * assert (m <= n / 2 ^ (l - 5)) by (apply Z.div_le_lower_bound; lia). lia.
    + assert (2 * 2 ^ l <= n).
      { rewrite <- Z.pow_succ_r by lia. etrans; [|apply Hs]. apply Z.pow_le_mono_r; lia. }
      nia.
Qed.

(** What [MAPPING_SEARCH] promises of a rounded size [r]: the least size [r'] of a
    class, such that the blocks of the class and above are those of [r'] and more. *)
Lemma search_class r : 16 <= r <= 2 ^ 30 - 2 ^ 24 -> r mod 16 = 0 ->
  exists r' fl sl, MAPPING_SEARCH r = (r', fl, sl) /\ class_ok (fl, sl) /\
    r <= r' < 2 ^ 30 /\ r' mod 16 = 0 /\
    forall n, 0 <= n < 2 ^ 30 -> rank (fl, sl) <= rank (MAPPING_INSERT n) <-> r' <= n.
Proof.
  intros Hr H16. unfold MAPPING_SEARCH, SMALL_BLOCK. zcase.
  - exists r, 0, (r / 4). change (128 / MAX_SLI) with 4. split; [done|].
    assert (0 <= r / 4 < 32) by (split; [apply Z.div_pos; lia|apply Z.div_lt_upper_bound; lia]).
    split; [unfold class_ok, REAL_FLI, MAX_SLI; cbn [fst snd]; lia|]. split; [lia|]. split; [done|].
    intros n Hn. unfold rank at 1. cbn [fst snd].
    rewrite <- (rank_ge_small r n); [lia|lia| |lia].
    rewrite (Z.div_mod r 16), H16 by lia.
    replace (16 * (r / 16) + 0) with ((4 * (r / 16)) * 4) by lia. apply Z.mod_mul. lia.
  - rewrite ms_bit_log2 by lia. unfold MAX_LOG2_SLI. set (l0 := Z.log2 r).
    pose proof (Z.log2_spec r ltac:(lia)) as Hs. fold l0 in Hs.
    assert (7 <= l0) by (apply (Z.log2_le_mono 128 r); lia).
    assert (l0 < 30) by (apply Z.log2_lt_pow2; lia).
    rewrite Z.shiftl_mul_pow2, Z.mul_1_l by lia. set (p := 2 ^ (l0 - 5)).
    assert (0 < p) by (apply Z.pow_pos_nonneg; lia).
    assert (p <= 2 ^ 24) by (apply Z.pow_le_mono_r; lia).
    set (r1 := r + (p - 1)).
    assert (u64 r1 = r1) as -> by (apply wrapu_small; unfold r1; lia).
    assert (r < 2 ^ 30 - 2 ^ 24 + 1) by lia.
    assert (128 <= r1 < 2 ^ 30) by (unfold r1; lia).
    destruct (big_class r1) as (Hl1 & Hd1 & _); [done|]. rewrite ms_bit_log2 by lia.
    set (l := Z.log2 r1) in *. unfold MAX_SLI, FLI_OFFSET.
    rewrite Z.shiftr_div_pow2, wraps_small by lia. set (m := r1 / 2 ^ (l - 5)) in *.
    exists (Z.land r1 (Z.lnot (p - 1))), (l - 6), (m - 32). split; [done|].
    split; [unfold class_ok, REAL_FLI, MAX_SLI; cbn [fst snd]; lia|].
    assert (Z.land r1 (Z.lnot (p - 1)) = r1 / p * p) as Eland.
    { replace (p - 1) with (Z.ones (l0 - 5)) by (rewrite Z.ones_equiv; unfold p; lia).
      rewrite <- Z.ldiff_land, Z.ldiff_ones_r, Z.shiftl_mul_pow2, Z.shiftr_div_pow2 by lia. done. }
    (* the least size of the class is the rounded size *)
    assert (r1 / p * p = m * 2 ^ (l - 5)) as Em.
    { destruct (decide (l = l0)) as [El|Hne].
      - unfold m. by rewrite El.
      - (* the addition carried into the next power: r1 is below 2^l + p *)
        assert (l0 < l) as Hlt.
        { assert (l0 <= l) by (apply Z.log2_le_mono; unfold r1; lia). lia. }
        assert (2 ^ (Z.succ l0) = 64 * p) as Ep.
        { unfold p. replace (Z.succ l0) with (6 + (l0 - 5)) by lia. by rewrite Z.pow_add_r by lia. }
        pose proof (Z.log2_spec r1 ltac:(lia)) as Hs1. fold l in Hs1.
        assert (r1 < 65 * p) by (unfold r1; lia).
        assert (64 * p <= r1).
        { rewrite <- Ep. etrans; [|apply Hs1]. apply Z.pow_le_mono_r; lia. }
        assert (l = Z.succ l0) as El.
        { apply Z.log2_unique; [lia|]. rewrite (Z.pow_succ_r 2 (Z.succ l0)), Ep by lia. lia. }
        assert (r1 / p = 64) as -> by (symmetry; apply Z.div_unique with (r1 - 64 * p); lia).
        unfold m. rewrite El. replace (2 ^ (Z.succ l0 - 5)) with (2 * p).
        2:{ unfold p. replace (Z.succ l0 - 5) with (1 + (l0 - 5)) by lia. by rewrite Z.pow_add_r by lia. }
        assert (r1 / (2 * p) = 32) as ->; [|lia].
        symmetry. apply Z.div_unique with (r1 - 64 * p); lia. }
    rewrite Eland. split_and!.
    + pose proof (Z.mod_pos_bound r1 p ltac:(lia)). pose proof (Z.div_mod r1 p ltac:(lia)).
      assert (r1 = r + (p - 1)) by done. lia.
    + pose proof (Z.mul_div_le r1 p ltac:(lia)). lia.
    + (* a multiple of 16 *)
      destruct (decide (l0 - 5 <= 4)) as [Hsm|Hbg].
      * assert (r mod p = 0) as Erp.
        { rewrite (Z.div_mod r 16), H16 by lia.
          assert (16 = 2 ^ (4 - (l0 - 5)) * p) as E16.
          { unfold p. rewrite <- Z.pow_add_r by lia. replace (4 - (l0 - 5) + (l0 - 5)) with 4 by lia. done. }
          rewrite E16 at 1. replace (2 ^ (4 - (l0 - 5)) * p * (r / 16) + 0) with ((2 ^ (4 - (l0 - 5)) * (r / 16)) * p) by lia.
          apply Z.mod_mul. lia. }
        assert (r1 / p * p = r) as ->; [|done].
        assert (r = p * (r / p)) as Er by (rewrite (Z.div_mod r p) at 1 by lia; lia).
        unfold r1. rewrite Er at 1. replace (p * (r / p) + (p - 1)) with ((r / p) * p + (p - 1)) by lia.
        rewrite Z.div_add_l, (Z.div_small (p - 1)) by lia. lia.
      * assert (p = 2 ^ (l0 - 9) * 16) as ->.
        { unfold p. change 16 with (2 ^ 4). rewrite <- Z.pow_add_r by lia. f_equal. lia. }
        rewrite Z.mul_assoc. apply Z.mod_mul. lia.
    + intros n Hn. unfold rank at 1. cbn [fst snd]. rewrite Em. by apply rank_ge_big.
Qed.

Lemma land_align z : Z.land z (Z.lnot MEM_ALIGN) = z / 16 * 16.
Proof.
  change MEM_ALIGN with (Z.ones 4). rewrite <- Z.ldiff_land, Z.ldiff_ones_r, Z.shiftl_mul_pow2, Z.shiftr_div_pow2 by lia.
  done.
Qed.

Lemma round_size_ok size : 1 <= size <= 2 ^ 30 - 2 ^ 24 ->
  size <= round_size size <= 2 ^ 30 - 2 ^ 24 /\ 16 <= round_size size /\ round_size size mod 16 = 0.
Proof.
  intros Hs. unfold round_size, MIN_BLOCK_SIZE. zcase; [split_and!; [lia|lia|lia|done]|].
  unfold ROUNDUP_SIZE. rewrite wrapu_small by (unfold MEM_ALIGN, BLOCK_ALIGN; lia).
  rewrite land_align. change MEM_ALIGN with 15.
  pose proof (Z.mod_pos_bound (size + 15) 16 ltac:(lia)). pose proof (Z.div_mod (size + 15) 16 ltac:(lia)).
  split_and!; try lia. apply Z.mod_mul. lia.
Qed.

(** ** The free lists

    [FL c] are the free blocks of class [c], in the order of the list. *)
Abbreviation classes := (Z * Z -> list Z).

Fixpoint dll (h : Z -> bhdr) (p : Z) (l : list Z) : Prop :=
  match l with
  | [] => True
  | a :: l => a <> 0 /\ fprev (h a) = p /\ fnext (h a) = hd 0 l /\ dll h a l
  end.

Definition nonempty (l : list Z) : bool := match l with [] => false | _ => true end.

(** The bitmaps say which classes have a block. *)
Record bits_ok (ne : Z -> Z -> bool) (slb : Z -> Z) (flb : Z) : Prop := {
  bo_sl : forall fl, 0 <= fl < REAL_FLI -> 0 <= slb fl < 2 ^ 32 /\
    forall sl, 0 <= sl < MAX_SLI -> Z.testbit (slb fl) sl = ne fl sl;
  bo_fl : 0 <= flb < 2 ^ 24 /\ forall fl, 0 <= fl < REAL_FLI -> Z.testbit flb fl = negb (slb fl =? 0)
}.

(** The heads, links and bitmaps agree with the lists. *)
Record lists_ok (FL : classes) (T : tlsf) : Prop := {
  lo_head : forall fl sl, class_ok (fl, sl) -> matrix T fl sl = hd 0 (FL (fl, sl));
  lo_dll : forall c, dll (hdr T) 0 (FL c);
  lo_nodup : forall c, NoDup (FL c);
  lo_disj : forall c c' a, a ∈ FL c -> a ∈ FL c' -> c = c';
  lo_out : forall c a, a ∈ FL c -> class_ok c;
  lo_bits : bits_ok (fun fl sl => nonempty (FL (fl, sl))) (sl_bitmap T) (fl_bitmap T)
}.
Definition lo_sl FL T (H : lists_ok FL T) := bo_sl _ _ _ (lo_bits FL T H).
Definition lo_fl FL T (H : lists_ok FL T) := bo_fl _ _ _ (lo_bits FL T H).

Lemma rank_le c c' : class_ok c -> class_ok c' ->
  rank c <= rank c' <-> c.1 < c'.1 \/ c.1 = c'.1 /\ c.2 <= c'.2.
Proof. unfold class_ok, rank, REAL_FLI, MAX_SLI. lia. Qed.

(** The bits of a word from [k] on. *)
Lemma bits_from x n k : 0 <= x < 2 ^ n -> 0 <= k ->
  let y := Z.land x (Z.shiftl (-1) k) in
  0 <= y < 2 ^ n /\ forall j, 0 <= j -> Z.testbit y j = Z.testbit x j && (k <=? j).
Proof.
  intros Hx Hk y. assert (y = x / 2 ^ k * 2 ^ k) as Ey.
  { unfold y. rewrite Z.shiftl_mul_pow2 by lia. replace (-1 * 2 ^ k) with (Z.lnot (Z.ones k)) by (unfold Z.lnot; rewrite Z.ones_equiv; lia).
    rewrite <- Z.ldiff_land, Z.ldiff_ones_r, Z.shiftl_mul_pow2, Z.shiftr_div_pow2 by lia. done. }
  assert (0 < 2 ^ k) by (apply Z.pow_pos_nonneg; lia). split.
  - rewrite Ey. pose proof (Z.mul_div_le x (2 ^ k) ltac:(lia)). pose proof (Z.div_pos x (2 ^ k) ltac:(lia) ltac:(lia)). nia.
  - intros j Hj. unfold y. rewrite Z.land_spec, Z.shiftl_spec by lia. f_equal.
    destruct (k <=? j) eqn:E; zbool; [by rewrite Z.bits_m1 by lia|by rewrite Z.testbit_neg_r by lia].
Qed.

Lemma no_bits x : x = 0 -> forall j, Z.testbit x j = false.
Proof. intros ->. apply Z.bits_0. Qed.

Lemma nonempty_false l : nonempty l = false -> l = [].
Proof. by destruct l. Qed.

(** The smallest class with a block, from the one asked for on. *)
Lemma find_block FL T fl sl : lists_ok FL T -> class_ok (fl, sl) ->
  exists fl' sl' b, FIND_SUITABLE_BLOCK fl sl T = Some (fl', sl', b) /\
    ((b = 0 /\ forall c, class_ok c -> rank (fl, sl) <= rank c -> FL c = []) \/
     (class_ok (fl', sl') /\ rank (fl, sl) <= rank (fl', sl') /\ b <> 0 /\ head (FL (fl', sl')) = Some b /\
      forall c, class_ok c -> rank (fl, sl) <= rank c < rank (fl', sl') -> FL c = [])).
Proof.
  intros Hok Hc. pose proof Hc as [Hfl Hsl]. cbn [fst snd] in Hfl, Hsl.
  unfold FIND_SUITABLE_BLOCK. rewrite (proj2 (in_matrix_ok fl sl) Hc).
  destruct (lo_sl FL T Hok fl Hfl) as [Hr Hb].
  assert (forall fl' sl', class_ok (fl', sl') -> Z.testbit (sl_bitmap T fl') sl' = true ->
    matrix T fl' sl' <> 0 /\ head (FL (fl', sl')) = Some (matrix T fl' sl')) as Hhead.
  { intros fl' sl' Hc' Ht. rewrite (lo_head FL T Hok) by done. destruct Hc' as [Hc1 Hc2]. cbn in Hc1, Hc2.
    destruct (lo_sl FL T Hok fl' Hc1) as [_ Hb']. rewrite Hb' in Ht by done.
    pose proof (lo_dll FL T Hok (fl', sl')) as Hd. destruct (FL (fl', sl')) as [|a l]; [done|]. cbn in Hd |- *. tauto. }
  destruct (bits_from _ 32 sl Hr ltac:(lia)) as [Ht1 Ht2]. set (tmp := Z.land (sl_bitmap T fl) (Z.shiftl (-1) sl)) in *.
  destruct (tmp =? 0) eqn:E; zbool; cbn [negb].
  - assert (forall sl', sl <= sl' < MAX_SLI -> FL (fl, sl') = []) as Hrow.
    { intros sl' Hs. apply nonempty_false. rewrite <- Hb by lia.
      pose proof (Ht2 sl' ltac:(lia)) as Hx. rewrite (no_bits tmp E) in Hx. symmetry in Hx.
      rewrite (proj2 (Z.leb_le sl sl')), andb_true_r in Hx by lia. done. }
    destruct (lo_fl FL T Hok) as [Hr' Hb'].
    destruct (bits_from _ 24 (fl + 1) Hr' ltac:(lia)) as [Hf1 Hf2]. set (fm := Z.land (fl_bitmap T) (Z.shiftl (-1) (fl + 1))) in *.
    assert (forall fl', fl < fl' < REAL_FLI -> Z.testbit fm fl' = false -> forall sl', 0 <= sl' < MAX_SLI -> FL (fl', sl') = []) as Hrows.
    { intros fl' Hl Hbit sl' Hs. rewrite Hf2, (proj2 (Z.leb_le (fl + 1) fl')), andb_true_r, Hb' in Hbit by lia.
      zbool. apply nonempty_false. destruct (lo_sl FL T Hok fl' ltac:(lia)) as [_ Hb2]. rewrite <- Hb2 by done.
      by apply no_bits. }
    destruct (decide (fm = 0)) as [E'|Hne].
    + rewrite E'. change (0 <? ls_bit 0) with false. eexists _, _, _. split; [done|]. left. split; [done|].
      intros [fl' sl'] Hc' Hle. apply rank_le in Hle; [|done..]. cbn in Hle. destruct Hc' as [? ?]. cbn in *.
      destruct Hle as [Hlt|[<- Hle]]; [|apply Hrow; lia]. apply (Hrows fl'); [lia| |done]. rewrite E'. apply Z.bits_0.
    + destruct (ls_bit_lowest fm) as (Hl1 & Hl2 & Hl3); [lia|]. set (fl' := ls_bit fm) in *.
      rewrite Hf2 in Hl2 by lia. apply andb_true_iff in Hl2 as [Hl2 Hl4]. zbool.
      assert (0 <= fl' < REAL_FLI) as Hfl'.
      { split; [lia|]. unfold REAL_FLI. destruct (decide (fl' < 24)); [done|].
        rewrite <- (Z.mod_small _ _ Hr'), Z.mod_pow2_bits_high in Hl2 by lia. done. }
      rewrite (proj2 (Z.ltb_lt 0 fl')) by lia. rewrite Hb' in Hl2 by done. zbool.
      destruct (lo_sl FL T Hok fl' Hfl') as [Hr2 Hb2].
      destruct (ls_bit_lowest (sl_bitmap T fl')) as (Hs1 & Hs2 & Hs3); [lia|].
      set (sl' := ls_bit (sl_bitmap T fl')) in *.
      assert (class_ok (fl', sl')) as Hc' by (split; cbn; [done|unfold MAX_SLI; lia]).
      destruct (Hhead fl' sl' Hc' Hs2) as [Hh1 Hh2].
      eexists _, _, _. split; [done|]. right. split_and!; try done; [apply rank_le; cbn; [done|done|lia]|].
      intros [fl2 sl2] Hc2 [Hle Hlt]. pose proof Hc2 as [Hx1 Hx2]. cbn in Hx1, Hx2.
      apply rank_le in Hle; [|done..]. cbn in Hle.
      assert (~ rank (fl', sl') <= rank (fl2, sl2)) as Hnle by lia. rewrite rank_le in Hnle by done. cbn in Hnle.
      destruct Hle as [Hl|[<- Hl]]; [|apply Hrow; lia].
      destruct (decide (fl2 = fl')) as [->|Hn2].
      * apply nonempty_false. rewrite <- Hb2 by done. apply Hs3. lia.
      * apply (Hrows fl2); [lia| |done]. apply Hl3. lia.
  - destruct (ls_bit_lowest tmp) as (Hs1 & Hs2 & Hs3); [lia|]. set (sl' := ls_bit tmp) in *.
    rewrite Ht2 in Hs2 by lia. apply andb_true_iff in Hs2 as [Hs2 Hs4]. zbool.
    assert (class_ok (fl, sl')) as Hc' by (split; cbn; [done|unfold MAX_SLI; lia]).
    destruct (Hhead fl sl' Hc' Hs2) as [Hh1 Hh2].
    eexists _, _, _. split; [done|]. right. split_and!; try done; [apply rank_le; cbn; [done|done|lia]|].
    intros [fl2 sl2] Hc2 [Hle Hlt]. pose proof Hc2 as [Hx1 Hx2]. cbn in Hx1, Hx2.
    apply rank_le in Hle; [|done..]. cbn in Hle.
    assert (~ rank (fl, sl') <= rank (fl2, sl2)) as Hnle by lia. rewrite rank_le in Hnle by done. cbn in Hnle.
    assert (fl2 = fl) as -> by lia. apply nonempty_false. rewrite <- Hb by done.
    pose proof (Ht2 sl2 ltac:(lia)) as Hx. rewrite Hs3 in Hx by lia. symmetry in Hx.
    by rewrite (proj2 (Z.leb_le sl sl2)), andb_true_r in Hx by lia.
Qed.

(** ** Bits set and cleared *)

Lemma set_bit_spec nr w n : 0 <= nr < 32 -> nr < n -> 0 <= w < 2 ^ n ->
  0 <= tlsf_set_bit nr w < 2 ^ n /\
  forall j, 0 <= j -> Z.testbit (tlsf_set_bit nr w) j = (j =? nr) || Z.testbit w j.
Proof.
  intros Hnr Hn Hw. unfold tlsf_set_bit. change 0x1f with (Z.ones 5). rewrite Z.land_ones, Z.mod_small by lia.
  rewrite Z.shiftl_mul_pow2, Z.mul_1_l by lia. set (y := Z.lor w (2 ^ nr)).
  assert (forall j, 0 <= j -> Z.testbit y j = (j =? nr) || Z.testbit w j) as Ht.
  { intros j Hj. unfold y. rewrite Z.lor_spec, Z.pow2_bits_eqb, orb_comm by lia. by rewrite Z.eqb_sym. }
  split; [|done]. assert (0 <= y) by (apply Z.lor_nonneg; split; [lia|apply Z.pow_nonneg; lia]).
  split; [done|]. destruct (decide (y = 0)); [lia|]. apply Z.log2_lt_pow2; [lia|].
  unfold y. rewrite Z.log2_lor, Z.log2_pow2 by (try apply Z.pow_nonneg; lia).
  destruct (decide (w = 0)) as [->|]; [simpl; lia|]. assert (Z.log2 w < n) by (apply Z.log2_lt_pow2; lia). lia.
Qed.

Lemma clear_bit_spec nr w n : 0 <= nr < 32 -> 0 <= w < 2 ^ n ->
  0 <= tlsf_clear_bit nr w < 2 ^ n /\
  forall j, 0 <= j -> Z.testbit (tlsf_clear_bit nr w) j = negb (j =? nr) && Z.testbit w j.
Proof.
  intros Hnr Hw. unfold tlsf_clear_bit. change 0x1f with (Z.ones 5). rewrite Z.land_ones, Z.mod_small by lia.
  rewrite Z.shiftl_mul_pow2, Z.mul_1_l by lia. set (y := Z.land w (Z.lnot (2 ^ nr))).
  assert (forall j, 0 <= j -> Z.testbit y j = negb (j =? nr) && Z.testbit w j) as Ht.
  { intros j Hj. unfold y. rewrite Z.land_spec, Z.lnot_spec, Z.pow2_bits_eqb, andb_comm by lia. by rewrite Z.eqb_sym. }
  split; [|done]. assert (0 <= y) by (apply Z.land_nonneg; lia). split; [done|].
  destruct (decide (y = 0)); [lia|]. destruct (decide (y < 2 ^ n)) as [|Hge]; [done|exfalso].
  assert (n <= Z.log2 y) by (apply Z.log2_le_pow2; lia).
  pose proof (Z.bit_log2 y ltac:(lia)) as Hb. rewrite Ht in Hb by apply Z.log2_nonneg.
  apply andb_true_iff in Hb as [_ Hb]. destruct (decide (0 <= n)); [|rewrite Z.pow_neg_r in Hw by lia; lia].
  rewrite <- (Z.mod_small _ _ Hw), Z.mod_pow2_bits_high in Hb by lia. done.
Qed.

Lemma bits_ok_ext ne ne' slb flb :
  (forall fl sl, 0 <= fl < REAL_FLI -> 0 <= sl < MAX_SLI -> ne' fl sl = ne fl sl) -> bits_ok ne slb flb -> bits_ok ne' slb flb.
Proof.
  intros Hne [Hs Hf]. split; [|done]. intros fl Hfl. destruct (Hs fl Hfl) as [Hr Hb]. split; [done|].
  intros sl Hsl. by rewrite Hne, Hb.
Qed.

Lemma set_bits_ok ne slb flb fl sl : class_ok (fl, sl) -> bits_ok ne slb flb ->
  bits_ok (fun fl' sl' => (fl' =? fl) && (sl' =? sl) || ne fl' sl')
    (<[fl := tlsf_set_bit sl (slb fl)]> slb) (tlsf_set_bit fl flb).
Proof.
  intros [Hfl Hsl] [Hs [Hfr Hf]]. cbn [fst snd] in *. unfold REAL_FLI, MAX_SLI in *.
  destruct (Hs fl Hfl) as [Hr Hb]. destruct (set_bit_spec sl (slb fl) 32) as [Hr' Hb']; [lia|lia|done|].
  destruct (set_bit_spec fl flb 24) as [Hfr' Hf']; [lia|lia|done|]. split.
  - intros fl' Hfl'. unfold insert, fn_insert. case_decide as Hd.
    + subst fl'. split; [done|]. intros sl' Hsl'. unfold MAX_SLI in Hsl'. by rewrite Hb', Hb, Z.eqb_refl by lia.
    + rewrite (proj2 (Z.eqb_neq fl' fl)) by done. apply Hs, Hfl'.
  - split; [done|]. intros fl' Hfl'. unfold REAL_FLI in Hfl'. rewrite Hf', Hf by lia. unfold insert, fn_insert. case_decide as Hd.
    + subst fl'. rewrite Z.eqb_refl. cbn [orb]. destruct (_ =? 0) eqn:E; zbool; [|done].
      pose proof (Hb' sl ltac:(lia)) as Hx. by rewrite E, Z.bits_0, Z.eqb_refl in Hx.
    + by rewrite (proj2 (Z.eqb_neq fl' fl)).
Qed.

Lemma clear_bits_ok ne T fl sl : class_ok (fl, sl) -> bits_ok ne (sl_bitmap T) (fl_bitmap T) ->
  bits_ok (fun fl' sl' => negb ((fl' =? fl) && (sl' =? sl)) && ne fl' sl')
    (sl_bitmap (clear_class fl sl T)) (fl_bitmap (clear_class fl sl T)).
Proof.
  intros [Hfl Hsl] [Hs [Hfr Hf]]. cbn [fst snd] in *. unfold REAL_FLI, MAX_SLI in *.
  destruct (Hs fl Hfl) as [Hr Hb]. destruct (clear_bit_spec sl (sl_bitmap T fl) 32) as [Hr' Hb']; [lia|done|].
  destruct (clear_bit_spec fl (fl_bitmap T) 24) as [Hfr' Hf']; [lia|done|].
  unfold clear_class. cbv zeta. cbn [sl_bitmap set_sl_bitmap fl_bitmap]. rewrite fn_lookup_insert.
  assert (forall flb, (forall fl', 0 <= fl' < 24 -> Z.testbit flb fl' =
      negb (<[fl := tlsf_clear_bit sl (sl_bitmap T fl)]> (sl_bitmap T) fl' =? 0)) -> 0 <= flb < 2 ^ 24 ->
    bits_ok (fun fl' sl' => negb ((fl' =? fl) && (sl' =? sl)) && ne fl' sl')
      (<[fl := tlsf_clear_bit sl (sl_bitmap T fl)]> (sl_bitmap T)) flb) as Hok.
  { intros flb H1 H2. split; [|done]. intros fl' Hfl'. unfold insert, fn_insert. case_decide as Hd.
    - subst fl'. split; [done|]. intros sl' Hsl'. unfold MAX_SLI in Hsl'. by rewrite Hb', Hb, Z.eqb_refl by lia.
    - rewrite (proj2 (Z.eqb_neq fl' fl)) by done. apply Hs, Hfl'. }
  destruct (_ =? 0) eqn:E; zbool; (apply Hok; [|cbn; done]); intros fl' Hfl'; cbn [fl_bitmap set_fl_bitmap set_sl_bitmap].
  - rewrite Hf', Hf by lia. unfold insert, fn_insert. case_decide as Hd.
    + subst fl'. by rewrite E, Z.eqb_refl.
    + by rewrite (proj2 (Z.eqb_neq fl' fl)).
  - rewrite Hf by lia. unfold insert, fn_insert. case_decide as Hd; [|done]. subst fl'.
    rewrite (proj2 (Z.eqb_neq _ _) E). f_equal. apply Z.eqb_neq. intros E0.
    apply E. apply Z.bits_inj'. intros j Hj. rewrite Hb', E0, Z.bits_0 by lia. apply andb_false_r.
Qed.

(** ** Insertion and extraction *)

(** The free-list operations leave what describes the memory alone. *)
Definition same_phys (h h' : Z -> bhdr) : Prop :=
  forall x, prev_hdr (h' x) = prev_hdr (h x) /\ bsize (h' x) = bsize (h x).

Lemma same_phys_set (f : Z -> bhdr -> bhdr) b v h : (forall v r, prev_hdr (f v r) = prev_hdr r /\ bsize (f v r) = bsize r) ->
  same_phys h (<[b := f v (h b)]> h).
Proof. intros Hf x. unfold insert, fn_insert. case_decide; [subst; apply Hf|done]. Qed.
Lemma same_phys_trans h1 h2 h3 : same_phys h1 h2 -> same_phys h2 h3 -> same_phys h1 h3.
Proof. intros H1 H2 x. destruct (H1 x), (H2 x). split; congruence. Qed.

Lemma dll_frame h h' p l :
  (forall a, a ∈ l -> fprev (h' a) = fprev (h a) /\ fnext (h' a) = fnext (h a)) -> dll h p l -> dll h' p l.
Proof.
  revert p. induction l as [|a l IH]; intros p Hh; cbn; [done|].
  destruct (Hh a) as [-> ->]; [set_solver|]. intros (? & ? & ? & ?). split_and!; try done.
  apply IH; [|done]. intros x Hx. apply Hh. set_solver.
Qed.

Lemma dll_nonzero h p l a : dll h p l -> a ∈ l -> a <> 0.
Proof. revert p. induction l as [|x l IH]; intros p; cbn; [set_solver|]. intros (? & _ & _ & Hd) [->|Ha]%elem_of_cons; eauto. Qed.

(** The links after [b] is taken out of the middle. *)
Lemma dll_extract h h' p l1 b l2 :
  dll h p (l1 ++ b :: l2) -> NoDup (l1 ++ b :: l2) -> p ∉ l1 ++ b :: l2 ->
  (forall x, x ∈ l1 ++ l2 -> fprev (h' x) = if decide (x = hd 0 l2) then fprev (h b) else fprev (h x)) ->
  (forall x, x ∈ l1 ++ l2 -> fnext (h' x) = if decide (x = fprev (h b)) then fnext (h b) else fnext (h x)) ->
  dll h' p (l1 ++ l2) /\ fnext (h b) = hd 0 l2 /\ fprev (h b) = default p (last l1).
Proof.
  revert p. induction l1 as [|a l1 IH]; intros p Hd Hnd Hp Hpr Hne.
  - cbn [app] in *. destruct Hd as (Hb0 & Hb1 & Hb2 & Hd). split; [|done].
    apply NoDup_cons in Hnd as [Hbl Hnd]. rewrite Hb1, Hb2 in *.
    destruct l2 as [|y l2]; [done|]. cbn in Hd, Hpr, Hne |- *. destruct Hd as (Hy0 & Hy1 & Hy2 & Hd).
    apply NoDup_cons in Hnd as [Hyl Hnd]. split_and!; [done| | |].
    + rewrite Hpr, decide_True by set_solver. done.
    + rewrite Hne, decide_False by set_solver. done.
    + revert Hd. apply dll_frame. intros x Hx. rewrite Hpr, Hne by set_solver. rewrite !decide_False by set_solver. done.
  - cbn [app dll] in Hd, Hnd, Hp |- *. destruct Hd as (Ha0 & Ha1 & Ha2 & Hd). apply NoDup_cons in Hnd as [Hal Hnd].
    destruct (IH a Hd Hnd Hal) as (H1 & H2 & H3).
    { intros x Hx. apply Hpr. set_solver. }
    { intros x Hx. apply Hne. set_solver. }
    split.
    + split_and!; [done| | |done].
      * rewrite Hpr, decide_False; [done| |set_solver]. intros ->. apply Hal. destruct l2; cbn; [|set_solver].
        cbn in Ha0. done.
      * rewrite Hne by set_solver. destruct l1 as [|a' l1].
        -- cbn in H3. rewrite decide_True by done. done.
        -- rewrite decide_False; [done|]. rewrite H3. destruct (last (a' :: l1)) as [z|] eqn:El; [|by apply last_None in El].
           apply last_Some_elem_of in El. cbn. set_solver.
    + split; [done|]. rewrite H3. destruct l1 as [|a' l1]; [done|]. rewrite (last_cons_cons a a' l1).
      by destruct (last (a' :: l1)) eqn:El; [|apply last_None in El].
Qed.

(** The lists that change are those of one class; what is needed of the others. *)
Lemma lists_ok_update FL T T' c l :
  lists_ok FL T -> class_ok c ->
  (forall fl sl, class_ok (fl, sl) -> matrix T' fl sl = if decide ((fl, sl) = c) then hd 0 l else matrix T fl sl) ->
  dll (hdr T') 0 l -> NoDup l ->
  (forall x c', c' <> c -> x ∈ FL c' -> fprev (hdr T' x) = fprev (hdr T x) /\ fnext (hdr T' x) = fnext (hdr T x)) ->
  (forall x c', c' <> c -> x ∈ l -> x ∉ FL c') ->
  bits_ok (fun fl sl => nonempty (<[c := l]> FL (fl, sl))) (sl_bitmap T') (fl_bitmap T') ->
  lists_ok (<[c := l]> FL) T'.
Proof.
  intros [Hh Hd Hn Hdj Ho Hb] Hc Hm Hl Hnl Hfr Hx Hb'.
  assert (forall c', <[c := l]> FL c' = if decide (c' = c) then l else FL c') as E.
  { intros c'. unfold insert, fn_insert. repeat case_decide; congruence. }
  split; [..|done].
  - intros fl sl Hfs. rewrite Hm, E by done. case_decide; [done|]. by apply Hh.
  - intros c'. rewrite E. case_decide; [done|]. eapply dll_frame; [|apply Hd]. intros a Ha. by apply (Hfr a c').
  - intros c'. rewrite E. by case_decide.
  - intros c1 c2 a. rewrite !E. repeat case_decide; subst; try done.
    + intros Ha Ha2. by destruct (Hx a c2).
    + intros Ha2 Ha. by destruct (Hx a c1).
    + apply Hdj.
  - intros c' a. rewrite E. case_decide; [by subst|]. apply Ho.
Qed.

Lemma insert_ok FL T b fl sl : lists_ok FL T -> class_ok (fl, sl) -> b <> 0 -> (forall c, b ∉ FL c) ->
  lists_ok (<[(fl, sl) := b :: FL (fl, sl)]> FL) (INSERT_BLOCK b fl sl T) /\
  same_phys (hdr T) (hdr (INSERT_BLOCK b fl sl T)).
Proof.
  intros Hok Hc Hb0 Hb. pose proof (lo_head FL T Hok fl sl Hc) as Hhd.
  pose proof (lo_dll FL T Hok (fl, sl)) as Hd. pose proof (lo_nodup FL T Hok (fl, sl)) as Hnd.
  pose proof (Hb (fl, sl)) as Hbl. set (l := FL (fl, sl)) in *. set (T' := INSERT_BLOCK b fl sl T).
  assert (hd 0 l <> b) as Hhb.
  { destruct l as [|y l'] eqn:El; cbn; [done|]. intros ->. apply (Hb (fl, sl)). fold l. rewrite El. set_solver. }
  assert (forall x, hdr T' x = if decide (x = b) then hdr_fnext (hd 0 l) (hdr_fprev 0 (hdr T b))
     else if decide (x = hd 0 l /\ hd 0 l <> 0) then hdr_fprev b (hdr T x) else hdr T x) as Eh.
  { intros x. unfold T', INSERT_BLOCK. cbv zeta. cbn [hdr matrix set_fl_bitmap set_sl_bitmap set_matrix hset].
    rewrite Hhd. destruct (hd 0 l =? 0) eqn:E; zbool; cbn [negb hdr hset matrix];
      unfold insert, fn_insert; repeat case_decide; subst; try done; try tauto; try congruence; exfalso; naive_solver. }
  assert (forall fl' sl', matrix T' fl' sl' = if decide ((fl', sl') = (fl, sl)) then b else matrix T fl' sl') as Em.
  { intros fl' sl'. unfold T', INSERT_BLOCK. cbv zeta. cbn [matrix set_fl_bitmap set_sl_bitmap set_matrix].
    destruct (negb _); cbn [hset matrix]; unfold insert, fn_insert; repeat case_decide; simplify_eq; done. }
  assert (sl_bitmap T' = <[fl := tlsf_set_bit sl (sl_bitmap T fl)]> (sl_bitmap T) /\
          fl_bitmap T' = tlsf_set_bit fl (fl_bitmap T)) as [Es Ef].
  { unfold T', INSERT_BLOCK. cbv zeta. cbn. by destruct (_ =? 0). }
  assert (forall x c, x ∈ FL c -> c <> (fl, sl) -> x <> b /\ ~ (x = hd 0 l /\ hd 0 l <> 0)) as Hother.
  { intros x c Hx Hne. split; [intros ->; by apply (Hb c)|]. intros [-> Hn0]. apply Hne.
    apply (lo_disj FL T Hok _ _ (hd 0 l)); [done|]. fold l. destruct l; [done|]. cbn. set_solver. }
  clearbody T'. split.
  - apply (lists_ok_update FL T T' (fl, sl) (b :: l) Hok Hc).
    + intros fl' sl' _. by rewrite Em.
    + cbn. rewrite Eh, decide_True by done. split_and!; try done.
      destruct l as [|y l']; [done|]. cbn in Hhb, Hd, Eh |- *. destruct Hd as (Hy0 & Hy1 & Hy2 & Hd).
      apply NoDup_cons in Hnd as [Hyl Hnd]. rewrite Eh, decide_False, decide_True by done. cbn. split_and!; try done.
      revert Hd. apply dll_frame. intros x Hx. rewrite Eh, !decide_False; [done| |].
      * intros [-> _]. done.
      * intros ->. apply (Hbl). set_solver.
    + apply NoDup_cons. split; [apply Hb|done].
    + intros x c' Hne Hx. destruct (Hother x c' Hx Hne) as [H1 H2]. by rewrite Eh, !decide_False.
    + intros x c' Hne [->|Hx]%elem_of_cons; [apply Hb|]. intros Hx'. apply Hne.
      by apply (lo_disj FL T Hok _ _ x).
    + rewrite Es, Ef. eapply bits_ok_ext; [|by eapply set_bits_ok; [|apply (lo_bits FL T Hok)]].
      intros fl' sl' _ _. unfold insert, fn_insert. destruct (decide ((fl, sl) = (fl', sl'))) as [Hd'|Hd'].
      * injection Hd' as -> ->. by rewrite !Z.eqb_refl.
      * destruct ((fl' =? fl) && (sl' =? sl)) eqn:E; [|done]. zbool. congruence.
  - intros x. rewrite Eh. repeat case_decide; subst; done.
Qed.

Lemma dll_middle h p l1 b l2 : dll h p (l1 ++ b :: l2) ->
  fnext (h b) = hd 0 l2 /\ fprev (h b) = default p (last l1).
Proof.
  revert p. induction l1 as [|a l1 IH]; intros p; cbn [app dll]; [tauto|]. intros (_ & _ & _ & Hd).
  destruct (IH a Hd) as [H1 H2]. split; [done|]. rewrite H2. destruct l1 as [|a' l1]; [done|].
  rewrite (last_cons_cons a a' l1). by destruct (last (a' :: l1)) eqn:El; [|apply last_None in El].
Qed.

Lemma clear_class_hdr fl sl T : hdr (clear_class fl sl T) = hdr T.
Proof. unfold clear_class. cbv zeta. by destruct (sl_bitmap _ fl =? 0). Qed.
Lemma clear_class_matrix fl sl T : matrix (clear_class fl sl T) = matrix T.
Proof. unfold clear_class. cbv zeta. by destruct (sl_bitmap _ fl =? 0). Qed.
Lemma no_free_ptr_hdr b T T' : hdr T = hdr T' -> hdr (no_free_ptr b T) = hdr (no_free_ptr b T').
Proof. intros E. unfold no_free_ptr, hset. cbn. by rewrite E. Qed.

(** The headers after [EXTRACT_BLOCK]. *)
Lemma extract_hdr b fl sl T : let nx := fnext (hdr T b) in let pv := fprev (hdr T b) in
  nx <> b -> pv <> b -> let h' := hdr (EXTRACT_BLOCK b fl sl T) in
  same_phys (hdr T) h' /\
  (forall x, x <> b -> fprev (h' x) = if decide (x = nx /\ nx <> 0) then pv else fprev (hdr T x)) /\
  (forall x, x <> b -> fnext (h' x) = if decide (x = pv /\ pv <> 0) then nx else fnext (hdr T x)).
Proof.
  intros nx pv Hn Hp h'.
  set (T1 := if negb (nx =? 0) then hset hdr_fprev nx pv T else T).
  set (T2 := if negb (pv =? 0) then hset hdr_fnext pv nx T1 else T1).
  assert (fprev (hdr T1 b) = pv /\ fnext (hdr T1 b) = nx) as [E1 E2].
  { unfold T1. destruct (negb _); [|done]. cbn. by rewrite fn_lookup_insert_ne. }
  assert (h' = hdr (no_free_ptr b T2)) as Eh.
  { unfold h', EXTRACT_BLOCK. cbv zeta. fold nx pv. fold T1. rewrite E1, E2. fold T2.
    apply no_free_ptr_hdr. destruct (matrix T2 fl sl =? b); [|done].
    destruct (matrix (set_matrix _ _ _ _) fl sl =? 0); [by rewrite clear_class_hdr|done]. }
  assert (forall x, hdr T1 x = if decide (x = nx /\ nx <> 0) then hdr_fprev pv (hdr T x) else hdr T x) as H1.
  { intros x. unfold T1. destruct (nx =? 0) eqn:E; zbool; cbn [negb hset hdr]; unfold insert, fn_insert;
      repeat case_decide; subst; try done; exfalso; naive_solver. }
  assert (forall x, hdr T2 x = if decide (x = pv /\ pv <> 0) then hdr_fnext nx (hdr T1 x) else hdr T1 x) as H2.
  { intros x. unfold T2. destruct (pv =? 0) eqn:E; zbool; cbn [negb hset hdr]; unfold insert, fn_insert;
      repeat case_decide; subst; try done; exfalso; naive_solver. }
  rewrite Eh. clearbody T1 T2. clear Eh h'. unfold no_free_ptr, hset. cbn [hdr].
  split_and!; intros x; try intros Hx; unfold insert, fn_insert.
  - destruct (decide (b = x)) as [->|]; rewrite ?decide_True by done; cbn; rewrite H2, H1; repeat case_decide; done.
  - rewrite !decide_False by done. rewrite H2, H1. repeat case_decide; done.
  - rewrite !decide_False by done. rewrite H2, H1. repeat case_decide; done.
Qed.

(** The class after it. *)
Lemma extract_class b fl sl T ne : class_ok (fl, sl) -> bits_ok ne (sl_bitmap T) (fl_bitmap T) ->
  let nx := fnext (hdr T b) in nx <> b -> fprev (hdr T b) <> b ->
  let T' := EXTRACT_BLOCK b fl sl T in
  (forall fl' sl', matrix T' fl' sl' = if decide ((fl', sl') = (fl, sl) /\ matrix T fl sl = b) then nx else matrix T fl' sl') /\
  bits_ok (fun fl' sl' => negb ((fl' =? fl) && (sl' =? sl) && (matrix T fl sl =? b) && (nx =? 0)) && ne fl' sl')
    (sl_bitmap T') (fl_bitmap T').
Proof.
  intros Hc Hb nx Hn Hp T'. set (pv := fprev (hdr T b)) in *.
  set (T1 := if negb (nx =? 0) then hset hdr_fprev nx pv T else T).
  set (T2 := if negb (pv =? 0) then hset hdr_fnext pv nx T1 else T1).
  assert (fprev (hdr T1 b) = pv /\ fnext (hdr T1 b) = nx) as [E1 E2].
  { unfold T1. destruct (negb _); [|done]. cbn. by rewrite fn_lookup_insert_ne. }
  assert (fnext (hdr T2 b) = nx) as E3.
  { unfold T2. destruct (negb (pv =? 0)); [|exact E2]. cbn [hset hdr]. by rewrite fn_lookup_insert_ne. }
  assert (matrix T2 = matrix T /\ sl_bitmap T2 = sl_bitmap T /\ fl_bitmap T2 = fl_bitmap T) as (Em & Es & Ef).
  { unfold T2, T1. by destruct (negb _), (negb _). }
  assert (T' = no_free_ptr b (if matrix T fl sl =? b then
      if nx =? 0 then clear_class fl sl (set_matrix fl sl nx T2) else set_matrix fl sl nx T2 else T2)) as ->.
  { unfold T', EXTRACT_BLOCK. cbv zeta. fold nx pv. fold T1. rewrite E1, E2. fold T2. rewrite Em, E3.
    destruct (matrix T fl sl =? b); [|done]. unfold set_matrix at 1. cbn [matrix]. by rewrite !fn_lookup_insert. }
  clearbody T1 T2. assert (forall T0, matrix (no_free_ptr b T0) = matrix T0 /\
    sl_bitmap (no_free_ptr b T0) = sl_bitmap T0 /\ fl_bitmap (no_free_ptr b T0) = fl_bitmap T0) as Hnf by done.
  set (T3 := if matrix T fl sl =? b then _ else T2). destruct (Hnf T3) as (-> & -> & ->).
  split.
  - intros fl' sl'. unfold T3. destruct (matrix T fl sl =? b) eqn:E; zbool.
    + assert (matrix (set_matrix fl sl nx T2) fl' sl' = if decide ((fl', sl') = (fl, sl)) then nx else matrix T fl' sl') as Ex.
      { cbn. rewrite Em. unfold insert, fn_insert. repeat case_decide; simplify_eq; done. }
      destruct (nx =? 0); rewrite ?clear_class_matrix, Ex; repeat case_decide; try done; naive_solver.
    + rewrite Em, decide_False by tauto. done.
  - unfold T3. destruct (matrix T fl sl =? b) eqn:E; [destruct (nx =? 0) eqn:E'|].
    + eapply bits_ok_ext; [|apply (clear_bits_ok ne); [done|cbn; by rewrite Es, Ef]].
      intros fl' sl' _ _. by rewrite !andb_true_r.
    + cbn. rewrite Es, Ef. eapply bits_ok_ext; [|exact Hb]. intros fl' sl' _ _. by rewrite !andb_false_r.
    + rewrite Es, Ef. eapply bits_ok_ext; [|exact Hb]. intros fl' sl' _ _. by rewrite andb_false_r.
Qed.

Lemma extract_ok FL T b fl sl l1 l2 : lists_ok FL T -> FL (fl, sl) = l1 ++ b :: l2 ->
  lists_ok (<[(fl, sl) := l1 ++ l2]> FL) (EXTRACT_BLOCK b fl sl T) /\
  same_phys (hdr T) (hdr (EXTRACT_BLOCK b fl sl T)).
Proof.
  intros Hok El. assert (class_ok (fl, sl)) as Hc by (apply (lo_out FL T Hok _ b); rewrite El; set_solver).
  pose proof (lo_dll FL T Hok (fl, sl)) as Hd. pose proof (lo_nodup FL T Hok (fl, sl)) as Hnd.
  pose proof (lo_head FL T Hok fl sl Hc) as Hh. rewrite El in Hd, Hnd, Hh.
  destruct (dll_middle _ _ _ _ _ Hd) as [Enx Epv].
  assert (b <> 0) as Hb0 by (eapply dll_nonzero; [exact Hd|set_solver]).
  assert (0 ∉ l1 ++ b :: l2) as H0 by (intros Hin; by apply (dll_nonzero _ _ _ _ Hd Hin)).
  pose proof Hnd as Hnd'. apply NoDup_app in Hnd' as (Hnd1 & Hdis & [Hb2 Hnd2]%NoDup_cons).
  assert (fnext (hdr T b) <> b) as Hn by (rewrite Enx; destruct l2; cbn; [done|]; set_solver).
  assert (forall z, last l1 = Some z -> z ∈ l1) as Hlast by (intros z; apply last_Some_elem_of).
  assert (fprev (hdr T b) <> b) as Hp.
  { rewrite Epv. destruct (last l1) as [z|] eqn:E; cbn; [|done]. intros ->. apply (Hdis b); [by apply Hlast|set_solver]. }
  destruct (extract_hdr b fl sl T Hn Hp) as (Hs & Hpr & Hne).
  destruct (extract_class b fl sl T _ Hc (lo_bits FL T Hok) Hn Hp) as [Hm Hbits].
  set (T' := EXTRACT_BLOCK b fl sl T) in *. clearbody T'.
  assert (matrix T fl sl = b <-> l1 = []) as Hhd.
  { rewrite Hh. destruct l1 as [|a l1]; [done|]. cbn. split; [intros ->|done]. exfalso. apply (Hdis b); set_solver. }
  split; [|done]. apply (lists_ok_update FL T T'); try done.
  - intros fl' sl' Hc'. rewrite Hm. destruct (decide ((fl', sl') = (fl, sl))) as [E|E].
    + injection E as -> ->. destruct l1 as [|a l1].
      * rewrite decide_True by (split; [done|by apply Hhd]). done.
      * rewrite decide_False; [by rewrite Hh|]. intros [_ Hx]. by apply Hhd in Hx.
    + rewrite decide_False by tauto. done.
  - apply (dll_extract (hdr T) (hdr T') 0 l1 b l2 Hd Hnd H0).
    + intros x Hx. assert (x <> b) by (intros ->; apply elem_of_app in Hx as [?|?]; [apply (Hdis b)|]; set_solver).
      assert (x <> 0) by set_solver. rewrite Hpr, Enx by done. repeat case_decide; try done; naive_solver.
    + intros x Hx. assert (x <> b) by (intros ->; apply elem_of_app in Hx as [?|?]; [apply (Hdis b)|]; set_solver).
      assert (x <> 0) by set_solver. rewrite Hne by done. repeat case_decide; try done; naive_solver.
  - apply NoDup_app. split_and!; [done| |done]. intros x Hx Hx2. apply (Hdis x Hx). set_solver.
  - intros x c' Hc' Hx. assert (forall y, y ∈ l1 ++ b :: l2 -> x <> y) as Hne'.
    { intros y Hy ->. apply Hc'. apply (lo_disj FL T Hok _ _ y Hx). by rewrite El. }
    rewrite Hpr, Hne by (apply Hne'; set_solver). rewrite !decide_False; [done| |].
    + rewrite Epv. destruct (last l1) as [z|] eqn:E; cbn; [|tauto]. intros [-> _].
      apply (Hne' z); [|done]. apply elem_of_app. left. by apply Hlast.
    + rewrite Enx. destruct l2 as [|z l2]; cbn; [tauto|]. intros [-> _]. apply (Hne' z); [set_solver|done].
  - intros x c' Hc' Hx Hx'. apply Hc', (lo_disj FL T Hok _ _ x Hx'). rewrite El. set_solver.
  - eapply bits_ok_ext; [|exact Hbits]. intros fl' sl' _ _. unfold insert, fn_insert. cbn beta.
    destruct (decide ((fl, sl) = (fl', sl'))) as [E|E].
    + injection E as <- <-. rewrite El, !Z.eqb_refl. cbn [andb]. rewrite Enx.
      destruct l1 as [|a l1]; cbn [app].
      * rewrite (proj2 (Z.eqb_eq (matrix T fl sl) b)) by (by apply Hhd). cbn [andb nonempty].
        destruct l2 as [|z l2]; cbn; [done|]. rewrite (proj2 (Z.eqb_neq z 0)); [done|set_solver].
      * rewrite (proj2 (Z.eqb_neq (matrix T fl sl) b)); [done|]. intros Hx. by apply Hhd in Hx.
    + destruct ((fl' =? fl) && (sl' =? sl)) eqn:E'; [|done]. zbool. congruence.
Qed.
