(* ===== verification/TlsfPool.v ===== *)
(** * The pool of the TLSF allocator: allocation and release.

    The blocks tile the pool ([pool_ok]); [malloc_ex] gives a block of the smallest
    class that surely fits, [free_ex] joins a block with its free neighbours, and
    [init_memory_pool] makes a pool of one free block. *)

From S2P Require Import Prelude Tlsf TlsfFacts.
From stdpp Require Import list sets.
#[local] Open Scope Z_scope.

(** ** The blocks in memory *)

Record block := Blk { adr : Z; len : Z; isfree : bool }.
Implicit Types (bl l : list block) (B : block).

Definition next B : Z := adr B + 16 + len B.
Definition free_at B : option Z := if isfree B then Some (adr B) else None.
Definition flag (pf : option Z) : Z := match pf with Some _ => 2 | None => 0 end.

(** The headers of consecutive blocks from address [a] on; [pf] is the block
    before, when it is free.  No free block follows another. *)
Fixpoint seg (h : Z -> bhdr) (a : Z) (pf : option Z) bl : Prop :=
  match bl with
  | [] => True
  | B :: bl =>
      adr B = a /\ bsize (h a) = len B + (if isfree B then 1 else 0) + flag pf /\
      (forall p, pf = Some p -> prev_hdr (h a) = p /\ isfree B = false) /\
      seg h (next B) (free_at B) bl
  end.

Fixpoint end_of (a : Z) bl : Z := match bl with [] => a | B :: bl => end_of (a + 16 + len B) bl end.
Definition tail_free (pf : option Z) bl : option Z := match last bl with Some B => free_at B | None => pf end.

Definition len_ok B : Prop := 16 <= len B /\ len B mod 16 = 0.
(** The blocks with the end block. *)
Definition closed (start : Z) bl : list block := bl ++ [Blk (end_of start bl) 0 false].

(** The blocks tile the pool, and the free ones are those in the lists of their classes. *)
Record pool_ok (start : Z) bl (FL : classes) (T : tlsf) : Prop := {
  po_start : 0 < start;
  po_len : Forall len_ok bl;
  po_span : end_of start bl < start + 2 ^ 30;
  po_seg : seg (hdr T) start None (closed start bl);
  po_lists : lists_ok FL T;
  po_free : forall c a, a ∈ FL c <-> exists n, Blk a n true ∈ bl /\ MAPPING_INSERT n = c
}.

Lemma tail_free_cons pf B bl : tail_free pf (B :: bl) = tail_free (free_at B) bl.
Proof. unfold tail_free. rewrite last_cons. by destruct (last bl). Qed.

Lemma end_of_app a l1 l2 : end_of a (l1 ++ l2) = end_of (end_of a l1) l2.
Proof. revert a. induction l1 as [|B l1 IH]; intros a; cbn; auto. Qed.

Lemma tiles_app h a pf l1 l2 :
  seg h a pf (l1 ++ l2) <-> seg h a pf l1 /\ seg h (end_of a l1) (tail_free pf l1) l2.
Proof.
  revert a pf. induction l1 as [|B l1 IH]; intros a pf; [cbn; tauto|].
  rewrite tail_free_cons. cbn [app seg end_of]. rewrite IH. unfold next. split.
  - intros (-> & ? & ? & ?). tauto.
  - intros ((-> & ? & ? & ?) & ?). tauto.
Qed.

(** A segment is about the headers at the addresses of its blocks. *)
Lemma tiles_ext h h' a pf bl :
  (forall B, B ∈ bl -> bsize (h' (adr B)) = bsize (h (adr B)) /\ prev_hdr (h' (adr B)) = prev_hdr (h (adr B))) ->
  seg h a pf bl -> seg h' a pf bl.
Proof.
  revert a pf. induction bl as [|B bl IH]; intros a pf Hh; cbn; [done|].
  intros (<- & H1 & H2 & H3). destruct (Hh B) as [-> ->]; [set_solver|]. split_and!; try done.
  apply IH; [|done]. intros B' HB'. apply Hh. set_solver.
Qed.

Definition len_pos B : Prop := 0 <= len B.

Lemma end_of_le a bl : Forall len_pos bl -> a <= end_of a bl.
Proof.
  intros Hl. revert a. induction Hl as [|B bl HB _ IH]; intros a; cbn; [lia|].
  specialize (IH (a + 16 + len B)). unfold len_pos in HB. lia.
Qed.

Lemma seg_bounds h a pf bl B : Forall len_pos bl -> seg h a pf bl -> B ∈ bl -> a <= adr B /\ next B <= end_of a bl.
Proof.
  intros Hl. revert a pf. induction Hl as [|B' bl HB' Hl IH]; intros a pf; cbn; [set_solver|].
  intros (<- & _ & _ & Hs) [->|HB]%elem_of_cons.
  - unfold next. pose proof (end_of_le (adr B' + 16 + len B') bl Hl). lia.
  - unfold next in Hs. destruct (IH _ _ Hs HB) as [H1 H2]. unfold len_pos in HB'. lia.
Qed.

Lemma len_ok_pos bl : Forall len_ok bl -> Forall len_pos bl.
Proof. intros Hl. eapply list.Forall_impl; [exact Hl|]. intros B []. unfold len_pos. lia. Qed.

Lemma seg_below h a pf bl B : Forall len_ok bl -> seg h a pf bl -> B ∈ bl -> adr B + 32 <= end_of a bl.
Proof.
  intros Hl Hs HB. destruct (seg_bounds _ _ _ _ B (len_ok_pos _ Hl) Hs HB) as [_ ?].
  rewrite list.Forall_forall in Hl. destruct (Hl B HB) as [? _]. unfold next in *. lia.
Qed.

Lemma closed_pos start bl : Forall len_ok bl -> Forall len_pos (closed start bl).
Proof. intros Hl. apply Forall_app. split; [by apply len_ok_pos|]. constructor; [by unfold len_pos; cbn|constructor]. Qed.

(** ** A block and its neighbours

    [N] is the block that follows [B], the end block at the latest. *)
Record around (h : Z -> bhdr) (start : Z) l1 B l2 N tl : Prop := {
  ar_tail : l2 ++ [Blk (end_of start (l1 ++ B :: l2)) 0 false] = N :: tl;
  ar_adr : adr B = end_of start l1;
  ar_pos : start <= adr B;
  ar_len : len_ok B /\ len B < 2 ^ 30;
  ar_size : bsize (h (adr B)) = len B + (if isfree B then 1 else 0) + flag (tail_free None l1);
  ar_prev : forall p, tail_free None l1 = Some p -> prev_hdr (h (adr B)) = p /\ isfree B = false;
  ar_seg1 : seg h start None l1;
  ar_next : adr N = next B;
  ar_nlen : 0 <= len N < 2 ^ 30 /\ len N mod 16 = 0;
  ar_nsize : bsize (h (adr N)) = len N + (if isfree N then 1 else 0) + flag (free_at B);
  ar_nprev : isfree B = true -> prev_hdr (h (adr N)) = adr B /\ isfree N = false;
  ar_seg2 : seg h (next N) (free_at N) tl;
  ar_below : forall B', B' ∈ l1 -> start <= adr B' /\ adr B' + 16 <= next B' <= adr B;
  ar_above : forall B', B' ∈ tl -> next N <= adr B'
}.

Lemma pool_around start bl FL T l1 B l2 : pool_ok start bl FL T -> bl = l1 ++ B :: l2 ->
  exists N tl, around (hdr T) start l1 B l2 N tl.
Proof.
  intros [Hst Hl Hsp Hs _ _] ->. unfold closed in Hs. rewrite <- app_assoc in Hs. cbn [app] in Hs.
  destruct (l2 ++ [_]) as [|N tl] eqn:Et; [by destruct l2|]. exists N, tl.
  pose proof Hs as Hs'. apply tiles_app in Hs' as [Hs1 Hs2]. cbn [seg] in Hs2.
  destruct Hs2 as (E1 & E2 & E3 & E4 & E5 & E6 & Hs2). rewrite <- E1 in *.
  pose proof Hl as Hl'. apply Forall_app in Hl' as [Hl1 [HB Hl2]%Forall_cons].
  assert (Forall len_pos (l2 ++ [Blk (end_of start (l1 ++ B :: l2)) 0 false])) as Hlp.
  { apply Forall_app. split; [by apply len_ok_pos|]. by repeat constructor. }
  rewrite Et in Hlp. apply Forall_cons in Hlp as [HN Htl].
  pose proof (end_of_le start l1 (len_ok_pos _ Hl1)) as Hle1.
  assert (end_of start (l1 ++ B :: l2) = end_of (next B) l2) as Eend by (rewrite end_of_app, <- E1; done).
  pose proof (end_of_le (next B) l2 (len_ok_pos _ Hl2)) as Hle2. rewrite Eend in Hsp.
  assert (len_ok N \/ len N = 0 /\ isfree N = false) as HN'.
  { destruct l2 as [|B2 l2]; injection Et as <- _; [by right|left]. by apply Forall_cons in Hl2 as [? _]. }
  assert (next N <= end_of (next B) l2 \/ len N = 0) as HN2.
  { destruct l2 as [|B2 l2]; injection Et as <- _; [by right|left]. cbn [end_of].
    apply Forall_cons in Hl2 as [_ Hl2]. unfold next at 1. rewrite E4. by apply end_of_le, len_ok_pos. }
  split; try done; try (by rewrite E4).
  - by rewrite E1.
  - unfold next in *. destruct HB. split; [by split|lia].
  - unfold len_pos, next in *. destruct HB. split; [lia|]. destruct HN' as [[_ ?]|[-> _]]; done.
  - intros Hf. rewrite E4. unfold free_at in E6. rewrite Hf in E6. by apply E6.
  - intros B' HB'. rewrite E1. destruct (seg_bounds (hdr T) start None l1 B') as [? ?]; [by apply len_ok_pos|done|done|].
    rewrite list.Forall_forall in Hl1. destruct (Hl1 B' HB'). unfold next in *. lia.
  - intros B' HB'. by apply (seg_bounds (hdr T) (next N) (free_at N) tl).
Qed.

(** The size field read with the masks of the code. *)
Lemma size_masks n (f : bool) (pf : option Z) : 0 <= n < 2 ^ 30 -> n mod 16 = 0 ->
  let z := n + (if f then 1 else 0) + flag pf in
  Z.land z BLOCK_SIZE = n /\
  (Z.land z FREE_BLOCK =? 0) = negb f /\
  (Z.land z PREV_FREE =? 0) = match pf with Some _ => false | None => true end /\
  Z.land z PREV_STATE = flag pf /\
  Z.lor z FREE_BLOCK = n + 1 + flag pf /\
  Z.lor z PREV_FREE = n + (if f then 1 else 0) + 2 /\
  Z.land z (Z.lnot PREV_FREE) = n + (if f then 1 else 0) /\
  Z.land z (Z.lnot FREE_BLOCK) = n + flag pf.
Proof.
  intros Hn H16. assert (exists q, 0 <= q < 2 ^ 29 /\ n = q * 8) as (q & Hq & ->).
  { exists (n / 16 * 2). pose proof (Z.div_mod n 16 ltac:(lia)).
    assert (0 <= n / 16) by (apply Z.div_pos; lia). assert (n / 16 < 2 ^ 26) by (apply Z.div_lt_upper_bound; lia). lia. }
  cbv zeta. rewrite <- Z.add_assoc. unfold FREE_BLOCK, PREV_FREE, PREV_STATE, flag.
  destruct f, pf; rewrite !land_bytes, !land_low, !lor_low, !land_lnot_low by lia; split_and!; simpl; try done; try lia; rewrite <- Z.add_assoc; reflexivity.
Qed.

(** ** Changes of single fields *)

Lemma lists_ok_hdr FL T T' : matrix T' = matrix T -> sl_bitmap T' = sl_bitmap T -> fl_bitmap T' = fl_bitmap T ->
  (forall x, x ∈ FL (MAPPING_INSERT 0) \/ True -> (forall c, x ∈ FL c -> fprev (hdr T' x) = fprev (hdr T x) /\ fnext (hdr T' x) = fnext (hdr T x))) ->
  lists_ok FL T -> lists_ok FL T'.
Proof.
  intros Hm Hs Hf Hh [? Hd ? ? ? ?]. split; rewrite ?Hm, ?Hs, ?Hf; try done.
  intros c. eapply dll_frame; [|apply Hd]. intros a Ha. apply (Hh a (or_intror I) c Ha).
Qed.

Lemma lists_ok_size FL b v T : lists_ok FL T -> lists_ok FL (hset hdr_size b v T).
Proof. apply lists_ok_hdr; try done. intros x _ c _. cbn. unfold insert, fn_insert. by case_decide; subst. Qed.
Lemma lists_ok_prev FL b v T : lists_ok FL T -> lists_ok FL (hset hdr_prev_hdr b v T).
Proof. apply lists_ok_hdr; try done. intros x _ c _. cbn. unfold insert, fn_insert. by case_decide; subst. Qed.
Lemma lists_ok_used FL u m T : lists_ok FL T -> lists_ok FL (set_used u m T).
Proof. by apply lists_ok_hdr. Qed.
(** A block in no list may have any links. *)
Lemma lists_ok_unlisted FL b T : (forall c, b ∉ FL c) -> lists_ok FL T -> lists_ok FL (no_free_ptr b T).
Proof.
  intros Hb. apply lists_ok_hdr; try done. intros x _ c Hx. cbn. unfold insert, fn_insert.
  assert (b <> x) by (intros ->; by apply (Hb c)). by rewrite !decide_False.
Qed.

Lemma bsize_set b v T x : bsize (hdr (hset hdr_size b v T) x) = if decide (x = b) then v else bsize (hdr T x).
Proof. cbn. unfold insert, fn_insert. repeat case_decide; subst; done. Qed.
Lemma bsize_prev b v T x : bsize (hdr (hset hdr_prev_hdr b v T) x) = bsize (hdr T x).
Proof. cbn. unfold insert, fn_insert. repeat case_decide; subst; done. Qed.
Lemma prev_set b v T x : prev_hdr (hdr (hset hdr_prev_hdr b v T) x) = if decide (x = b) then v else prev_hdr (hdr T x).
Proof. cbn. unfold insert, fn_insert. repeat case_decide; subst; done. Qed.
Lemma prev_size b v T x : prev_hdr (hdr (hset hdr_size b v T) x) = prev_hdr (hdr T x).
Proof. cbn. unfold insert, fn_insert. repeat case_decide; subst; done. Qed.
Lemma phys_free_ptr b T : same_phys (hdr T) (hdr (no_free_ptr b T)).
Proof. intros x. cbn. unfold insert, fn_insert. repeat case_decide; subst; done. Qed.

(** The first block of a class is taken out in the same way as any. *)
Lemma extract_first b fl sl T : matrix T fl sl = b -> fprev (hdr T b) = 0 -> fnext (hdr T b) <> b ->
  EXTRACT_BLOCK_HDR b fl sl T = EXTRACT_BLOCK b fl sl T.
Proof.
  intros Hm Hp Hn. unfold EXTRACT_BLOCK_HDR, EXTRACT_BLOCK. cbv zeta.
  set (nx := fnext (hdr T b)) in *. set (T1 := if negb (nx =? 0) then hset hdr_fprev nx (fprev (hdr T b)) T else T).
  assert (fprev (hdr T1 b) = 0 /\ fnext (hdr T1 b) = nx /\ matrix T1 = matrix T) as (E1 & E2 & E3).
  { unfold T1. destruct (negb (nx =? 0)); [|done]. cbn. by rewrite fn_lookup_insert_ne. }
  rewrite E1. cbn [negb Z.eqb]. rewrite E3, Hm, Z.eqb_refl, E2.
  assert (forall T0, matrix (set_matrix fl sl nx T0) fl sl = nx) as Hx.
  { intros T0. unfold set_matrix. cbn [matrix]. by rewrite !fn_lookup_insert. }
  rewrite !Hx. unfold T1. rewrite Hp. by destruct (nx =? 0).
Qed.

(** ** Allocation

    The block [b] of [n] bytes, cut to [r] bytes when what is left can be a block. *)
Definition carve (b n r : Z) : list block :=
  if sizeof_bhdr <=? n - r then [Blk b r false; Blk (b + 16 + r) (n - r - 16) true] else [Blk b n false].

(** The size an allocation looks for. *)
Definition fit (size : Z) : Z := (MAPPING_SEARCH (round_size size)).1.1.

(** The blocks a free block is among are the ones its class lists. *)
Lemma free_listed start bl FL T B : pool_ok start bl FL T -> B ∈ bl -> isfree B = true ->
  adr B ∈ FL (MAPPING_INSERT (len B)).
Proof. intros Hok HB Hf. apply (po_free _ _ _ _ Hok). exists (len B). destruct B as [a n f]. cbn in *. by subst. Qed.

Lemma block_len start bl FL T B : pool_ok start bl FL T -> B ∈ bl -> 16 <= len B < 2 ^ 30 /\ len B mod 16 = 0.
Proof.
  intros Hok HB. apply list_elem_of_split in HB as (l1 & l2 & E). destruct (pool_around start bl FL T l1 B l2 Hok E) as (N & tl & Ha).
  destruct (ar_len _ _ _ _ _ _ _ Ha) as [[? ?] ?]. done.
Qed.

(** The addresses of the blocks tell them apart. *)
Lemma around_other h start l1 B l2 N tl B' : around h start l1 B l2 N tl -> B' ∈ l1 \/ B' ∈ l2 ->
  adr B' + 16 <= adr B \/ next B <= adr B'.
Proof.
  intros Ha [Hin|Hin].
  - destruct (ar_below _ _ _ _ _ _ _ Ha B' Hin). lia.
  - right. assert (B' ∈ N :: tl) as Hin' by (rewrite <- (ar_tail _ _ _ _ _ _ _ Ha); set_solver).
    apply elem_of_cons in Hin' as [->|Hin']; [by rewrite (ar_next _ _ _ _ _ _ _ Ha)|].
    pose proof (ar_above _ _ _ _ _ _ _ Ha B' Hin') as Hab. pose proof (ar_next _ _ _ _ _ _ _ Ha) as Hn.
    destruct (ar_nlen _ _ _ _ _ _ _ Ha) as [? _]. unfold next in *. lia.
Qed.

(** [split_block] on the block [b] of [n] bytes taken out of its list; [nx] is the
    block that follows. *)
Lemma split_block_spec FL T b n r nx ln : lists_ok FL T ->
  0 < b -> 16 <= r -> r mod 16 = 0 -> r <= n < 2 ^ 30 -> n mod 16 = 0 -> nx = b + 16 + n ->
  bsize (hdr T b) = n + 1 -> bsize (hdr T nx) = ln + 2 -> 0 <= ln < 2 ^ 30 -> ln mod 16 = 0 ->
  (forall c a, a ∈ FL c -> a <= b \/ nx <= a) ->
  let tmp := n - r - 16 in let b2 := b + 16 + r in
  exists T', split_block b r T = Some T' /\
    if sizeof_bhdr <=? n - r then
      lists_ok (<[MAPPING_INSERT tmp := b2 :: FL (MAPPING_INSERT tmp)]> FL) T' /\
      (forall x, bsize (hdr T' x) = if decide (x = b) then r else if decide (x = b2) then tmp + 1 else bsize (hdr T x)) /\
      (forall x, prev_hdr (hdr T' x) = if decide (x = nx) then b2 else prev_hdr (hdr T x))
    else
      lists_ok FL T' /\
      (forall x, bsize (hdr T' x) = if decide (x = b) then n else if decide (x = nx) then ln else bsize (hdr T x)) /\
      (forall x, prev_hdr (hdr T' x) = prev_hdr (hdr T x)).
Proof.
  intros Hok Hb Hr16 Hr Hrn Hn -> Eb Enx Hln Hln16 Hout tmp b2. unfold split_block.
  destruct (size_masks n true None) as (M1 & _ & _ & M4 & _ & _ & _ & M8); [lia|done|].
  cbn [flag] in *. rewrite Z.add_0_r in *.
  assert (bytes b T = n) as -> by (unfold bytes; by rewrite Eb).
  assert (u64 (n - r) = n - r) as -> by (apply wrapu_small; lia).
  unfold GET_NEXT_BLOCK, buffer. change BHDR_OVERHEAD with 16.
  destruct (sizeof_bhdr <=? n - r) eqn:E; zbool.
  - unfold sizeof_bhdr in E. change (n - r - 16) with tmp. fold b2.
    assert (16 <= tmp < 2 ^ 30) as Htmp by (unfold tmp; lia).
    assert (tmp mod 16 = 0) as Ht16.
    { unfold tmp. rewrite Zminus_mod, (Zminus_mod n r), Hn, Hr. done. }
    destruct (size_masks tmp false None) as (_ & _ & _ & _ & M5 & _); [lia|done|].
    cbn [flag] in M5. rewrite !Z.add_0_r in M5. rewrite M5.
    pose proof (class_range tmp ltac:(lia)) as Hc.
    destruct (MAPPING_INSERT tmp) as [fl sl] eqn:Ec. rewrite (proj2 (in_matrix_ok fl sl) Hc).
    set (T2 := hset hdr_prev_hdr (b + 16 + n) b2 (hset hdr_size b2 (tmp + 1) T)).
    assert (lists_ok FL T2) as Hok2 by (by apply lists_ok_prev, lists_ok_size).
    destruct (insert_ok FL T2 b2 fl sl Hok2 Hc) as [Hok3 Hph]; [unfold b2; lia| |].
    { intros c Hin. destruct (Hout c b2 Hin); unfold b2, tmp in *; lia. }
    eexists. split; [done|]. split; [by apply lists_ok_size|].
    assert (forall x, bsize (hdr T2 x) = if decide (x = b2) then tmp + 1 else bsize (hdr T x)) as Es.
    { intros x. unfold T2. by rewrite bsize_prev, bsize_set. }
    split; intros x.
    + rewrite bsize_set. case_decide as Hx.
      * rewrite (proj2 (Hph b)), Es, decide_False by (unfold b2; lia). rewrite Eb, M4. by rewrite Z.lor_0_r.
      * by rewrite (proj2 (Hph x)), Es.
    + rewrite prev_size, (proj1 (Hph x)). unfold T2. by rewrite prev_set, prev_size.
  - destruct (size_masks ln false (Some b)) as (_ & _ & _ & _ & _ & _ & M7 & _); [done|done|].
    cbn [flag] in M7. rewrite !Z.add_0_r in M7. rewrite Enx, M7.
    set (T1 := hset hdr_size (b + 16 + n) ln T).
    assert (forall x, bsize (hdr T1 x) = if decide (x = b + 16 + n) then ln else bsize (hdr T x)) as Es.
    { intros x. apply bsize_set. }
    eexists. split; [done|]. split; [by apply lists_ok_size, lists_ok_size|].
    split; intros x; [|by rewrite prev_size; unfold T1; rewrite prev_size].
    rewrite bsize_set, !Es, (decide_False (P := b = _)) by lia. by rewrite Eb, M8, Z.add_0_r.
Qed.

(** Putting blocks in the place of one. *)
Lemma seg_replace h h' start l1 B l2 N tl mid :
  around h start l1 B l2 N tl -> Forall len_ok mid -> isfree N = false ->
  end_of (adr B) mid = next B ->
  (forall B', B' ∈ l1 \/ B' ∈ tl -> bsize (h' (adr B')) = bsize (h (adr B')) /\ prev_hdr (h' (adr B')) = prev_hdr (h (adr B'))) ->
  seg h' (adr B) (tail_free None l1) mid ->
  bsize (h' (adr N)) = len N + flag (tail_free (tail_free None l1) mid) ->
  (forall p, tail_free (tail_free None l1) mid = Some p -> prev_hdr (h' (adr N)) = p) ->
  end_of start (l1 ++ mid ++ l2) = end_of start (l1 ++ B :: l2) /\ seg h' start None (closed start (l1 ++ mid ++ l2)).
Proof.
  intros Ha Hmid HN Hend Hsame Hs HNs HNp.
  assert (end_of start (l1 ++ mid ++ l2) = end_of start (l1 ++ B :: l2)) as Ee.
  { rewrite !end_of_app, <- (ar_adr _ _ _ _ _ _ _ Ha), Hend. done. }
  split; [done|]. unfold closed. rewrite Ee, <- !app_assoc, (ar_tail _ _ _ _ _ _ _ Ha).
  rewrite !tiles_app, <- (ar_adr _ _ _ _ _ _ _ Ha), Hend. split; [|split; [done|]].
  - eapply tiles_ext; [|apply (ar_seg1 _ _ _ _ _ _ _ Ha)]. auto.
  - cbn [seg]. rewrite HN, <- (ar_next _ _ _ _ _ _ _ Ha), Z.add_0_r. split_and!; [done|done| |].
    + intros p Hp. split; [by apply HNp|done].
    + eapply tiles_ext; [|apply (ar_seg2 _ _ _ _ _ _ _ Ha)]. auto.
Qed.

Lemma lookup_update (FL : classes) c (l : list Z) c' : <[c := l]> FL c' = if decide (c' = c) then l else FL c'.
Proof. unfold insert, fn_insert. repeat case_decide; congruence. Qed.

(** The lists of the free blocks after one of them is taken out, and one is added. *)
Lemma free_taken start bl FL T l1 a n l2 k1 k2 :
  pool_ok start bl FL T -> bl = l1 ++ Blk a n true :: l2 -> FL (MAPPING_INSERT n) = k1 ++ a :: k2 ->
  forall c x, x ∈ <[MAPPING_INSERT n := k1 ++ k2]> FL c <->
    exists m, Blk x m true ∈ l1 ++ l2 /\ MAPPING_INSERT m = c.
Proof.
  intros Hok E Ek c x. destruct (pool_around start bl FL T l1 _ l2 Hok E) as (N & tl & Ha).
  assert (forall m f, Blk x m f ∈ l1 ++ l2 -> x <> a) as Hne.
  { intros m f Hin ->. destruct (around_other _ _ _ _ _ _ _ (Blk a m f) Ha) as [Ho|Ho].
    - by apply elem_of_app.
    - cbn in Ho. lia.
    - destruct (ar_len _ _ _ _ _ _ _ Ha) as [[? _] _]. unfold next in Ho. cbn in *. lia. }
  pose proof (lo_nodup FL T (po_lists _ _ _ _ Hok) (MAPPING_INSERT n)) as Hnd. rewrite Ek in Hnd.
  rewrite lookup_update. trans (x ∈ FL c /\ x <> a).
  - case_decide as Hc; [subst; rewrite Ek|].
    + apply NoDup_app in Hnd as (_ & Hd & [Hk2 _]%NoDup_cons). rewrite !elem_of_app, elem_of_cons. split.
      * intros [Hx|Hx]; (split; [by auto|]); intros ->; [apply (Hd a Hx), list_elem_of_here|done].
      * intros [[?|[?|?]] ?]; auto; done.
    + split; [|tauto]. intros Hx. split; [done|]. intros ->. apply Hc.
      apply (lo_disj FL T (po_lists _ _ _ _ Hok) _ _ a Hx). rewrite Ek. set_solver.
  - rewrite (po_free _ _ _ _ Hok c x), E. split.
    + intros [(m & Hin & Hm) Hxa]. exists m. split; [|done]. apply elem_of_app in Hin as [Hin|Hin]; [set_solver|].
      apply elem_of_cons in Hin as [[= -> ->]|Hin]; [done|set_solver].
    + intros (m & Hin & Hm). split; [|by eapply Hne]. exists m. split; [|done]. set_solver.
Qed.

(** What an allocation does to the blocks: none is big enough, or a block of the
    smallest class that is big enough is cut. *)
Definition allocates (r : Z) bl (p : Z) bl' : Prop :=
  (p = NULL /\ bl' = bl /\ forall B, B ∈ bl -> isfree B = true -> len B < r) \/
  (exists l1 b n l2, bl = l1 ++ Blk b n true :: l2 /\ r <= n /\ p = buffer b /\ bl' = l1 ++ carve b n r ++ l2 /\
     forall B, B ∈ bl -> isfree B = true -> r <= len B -> rank (MAPPING_INSERT n) <= rank (MAPPING_INSERT (len B))).

Lemma carve_pool start bl FL T l1 b n l2 r FL' T' :
  pool_ok start bl FL T -> bl = l1 ++ Blk b n true :: l2 -> 16 <= r <= n -> r mod 16 = 0 -> lists_ok FL' T' ->
  let split := sizeof_bhdr <=? n - r in let b2 := b + 16 + r in
  (forall x, bsize (hdr T' x) =
    if split then (if decide (x = b) then r else if decide (x = b2) then n - r - 16 + 1 else bsize (hdr T x))
    else (if decide (x = b) then n else if decide (x = b + 16 + n) then bsize (hdr T x) - 2 else bsize (hdr T x))) ->
  (forall x, prev_hdr (hdr T' x) = if split then (if decide (x = b + 16 + n) then b2 else prev_hdr (hdr T x)) else prev_hdr (hdr T x)) ->
  (forall c x, x ∈ FL' c <-> exists m, Blk x m true ∈ l1 ++ carve b n r ++ l2 /\ MAPPING_INSERT m = c) ->
  pool_ok start (l1 ++ carve b n r ++ l2) FL' T'.
Proof.
  intros Hok E Hr H16 Hl sp b2 Hs Hp Hfree.
  destruct (pool_around start bl FL T l1 _ l2 Hok E) as (N & tl & Ha).
  destruct (ar_len _ _ _ _ _ _ _ Ha) as [[Hn1 Hn16] Hn2]. cbn [len adr isfree] in *.
  destruct (ar_nprev _ _ _ _ _ _ _ Ha eq_refl) as [_ HNf].
  assert (tail_free None l1 = None) as Etf.
  { destruct (tail_free None l1) as [p|] eqn:Et; [|done]. by destruct (ar_prev _ _ _ _ _ _ _ Ha p Et). }
  pose proof (ar_next _ _ _ _ _ _ _ Ha) as HN. pose proof (ar_nsize _ _ _ _ _ _ _ Ha) as HNs. unfold next in HN.
  cbn [adr len free_at isfree flag] in HN, HNs.
  assert (carve b n r = if sp then [Blk b r false; Blk b2 (n - r - 16) true] else [Blk b n false]) as Ec by done.
  assert (if sp then 32 <= n - r else True) as Hsp by (unfold sp, sizeof_bhdr; by zcase). rewrite Ec in *. clearbody sp. clear Ec.
  set (mid := if sp then _ else _) in *.
  assert (Forall len_ok mid) as Hc.
  { unfold mid. destruct sp; repeat constructor; unfold len_ok; cbn; try lia; try done.
    rewrite Zminus_mod, (Zminus_mod n r), Hn16, H16. done. }
  assert (forall B', B' ∈ l1 \/ B' ∈ tl -> adr B' + 16 <= b \/ b + 16 + n < adr B') as Hout.
  { intros B' [Hin|Hin]; [left; destruct (ar_below _ _ _ _ _ _ _ Ha B' Hin); cbn in *; lia|right].
    pose proof (ar_above _ _ _ _ _ _ _ Ha B' Hin). destruct (ar_nlen _ _ _ _ _ _ _ Ha) as [? _]. unfold next in *. lia. }
  destruct (seg_replace (hdr T) (hdr T') start l1 (Blk b n true) l2 N tl mid Ha Hc HNf) as [Ee Hseg].
  - unfold mid, b2, next. destruct sp; cbn; lia.
  - intros B' HB'. destruct (Hout B' HB'); rewrite Hs, Hp; unfold b2; destruct sp; rewrite !decide_False by lia; done.
  - rewrite Etf. unfold mid. destruct sp; cbn [seg adr len isfree flag]; unfold next, free_at; cbn [adr len isfree flag].
    + fold b2. rewrite !Hs, !(decide_False (P := b2 = b)) by (unfold b2; lia). rewrite !decide_True by done.
      split_and!; try done; lia.
    + rewrite Hs, decide_True by done. split_and!; try done. lia.
  - rewrite Etf, Hs, HN. unfold mid. destruct sp; cbn [tail_free last free_at isfree adr flag].
    + rewrite !decide_False by (unfold b2; lia). rewrite <- HN, HNs, HNf. cbn. lia.
    + rewrite decide_False, decide_True by lia. rewrite <- HN, HNs, HNf. cbn. lia.
  - rewrite Etf, Hp, HN. unfold mid. destruct sp; cbn [tail_free last free_at isfree adr]; [|done].
    rewrite decide_True by done. by intros ? [= <-].
  - pose proof (po_len _ _ _ _ Hok) as Hlen. rewrite E in Hlen. apply Forall_app in Hlen as [? [_ ?]%Forall_cons].
    split; try done.
    + apply (po_start _ _ _ _ Hok).
    + apply Forall_app. split; [done|]. by apply Forall_app.
    + rewrite Ee, <- E. apply (po_span _ _ _ _ Hok).
Qed.

(** The free blocks after a cut: those before and the rest, if it is one. *)
Lemma carve_free l1 b n r l2 x m : Blk x m true ∈ l1 ++ carve b n r ++ l2 <->
  Blk x m true ∈ l1 ++ l2 \/ (sizeof_bhdr <=? n - r) = true /\ x = b + 16 + r /\ m = n - r - 16.
Proof.
  unfold carve. destruct (sizeof_bhdr <=? n - r); rewrite !elem_of_app; cbn [app]; rewrite ?elem_of_cons, ?elem_of_nil.
  - split; [intros [?|[[?|[[= -> ->]|?]]|?]]; auto; done|]. intros [[?|?]|(_ & -> & ->)]; auto 6.
  - naive_solver.
Qed.

(** The first block of a class is taken and cut. *)
Lemma take_block start bl FL T l1 b n l2 r k2 :
  pool_ok start bl FL T -> bl = l1 ++ Blk b n true :: l2 -> 16 <= r <= n -> r mod 16 = 0 ->
  FL (MAPPING_INSERT n) = b :: k2 ->
  let '(fl, sl) := MAPPING_INSERT n in
  exists T' FL', split_block b r (EXTRACT_BLOCK_HDR b fl sl T) = Some T' /\
    pool_ok start (l1 ++ carve b n r ++ l2) FL' T'.
Proof.
  intros Hok E Hr H16 Ek. pose proof (po_lists _ _ _ _ Hok) as Hl.
  destruct (pool_around start bl FL T l1 _ l2 Hok E) as (N & tl & Ha).
  destruct (ar_len _ _ _ _ _ _ _ Ha) as [[Hn1 Hn16] Hn2]. cbn [len adr isfree] in *.
  destruct (ar_nprev _ _ _ _ _ _ _ Ha eq_refl) as [HNp HNf].
  pose proof (ar_next _ _ _ _ _ _ _ Ha) as HN. pose proof (ar_nsize _ _ _ _ _ _ _ Ha) as HNs.
  pose proof (ar_size _ _ _ _ _ _ _ Ha) as Hbs. unfold next in HN. cbn [adr len isfree free_at flag] in *.
  assert (tail_free None l1 = None) as Etf.
  { destruct (tail_free None l1) as [p|] eqn:Et; [|done]. by destruct (ar_prev _ _ _ _ _ _ _ Ha p Et). }
  rewrite Etf, Z.add_0_r in Hbs. rewrite HNf, Z.add_0_r, HN in HNs.
  pose proof (free_taken start bl FL T l1 b n l2 [] k2 Hok E Ek) as Hfree. cbn [app] in Hfree.
  pose proof (lo_dll FL T Hl (MAPPING_INSERT n)) as Hd. rewrite Ek in Hd. cbn [dll] in Hd. destruct Hd as (Hb0 & Hfp & Hfn & _).
  pose proof (lo_nodup FL T Hl (MAPPING_INSERT n)) as Hnd. rewrite Ek in Hnd. apply NoDup_cons in Hnd as [Hbk _].
  assert (forall m f, Blk b m f ∈ l1 ++ l2 -> False) as Hnb.
  { intros m f Hin. destruct (around_other _ _ _ _ _ _ _ (Blk b m f) Ha) as [?|?]; [by apply elem_of_app| |]; unfold next in *; cbn in *; lia. }
  destruct (MAPPING_INSERT n) as [fl sl] eqn:Ec.
  assert (class_ok (fl, sl)) as Hc by (apply (lo_out FL T Hl _ b); rewrite Ek; set_solver).
  rewrite extract_first; [|by rewrite (lo_head FL T Hl fl sl Hc), Ek|done|].
  2:{ rewrite Hfn. destruct k2; cbn; [done|]. intros ->. apply Hbk. set_solver. }
  destruct (extract_ok FL T b fl sl [] k2 Hl Ek) as [Hl1 Hph]. cbn [app] in Hl1.
  set (T1 := EXTRACT_BLOCK b fl sl T) in *. clearbody T1. set (FL1 := <[(fl, sl) := k2]> FL) in *.
  assert (forall c x, x ∈ FL1 c -> x + 16 <= b \/ b + 16 + n <= x) as Hout.
  { intros c x (m & Hin & _)%Hfree. by apply elem_of_app, (around_other _ _ _ _ _ _ _ (Blk x m true) Ha) in Hin. }
  pose proof (ar_pos _ _ _ _ _ _ _ Ha) as Hpos. pose proof (po_start _ _ _ _ Hok) as Hst. cbn in Hpos.
  destruct (ar_nlen _ _ _ _ _ _ _ Ha) as [HNl HNl16].
  destruct (split_block_spec FL1 T1 b n r (b + 16 + n) (len N)) as (T' & HT' & Hspec); try done; try lia;
    try (rewrite (proj2 (Hph _)); done).
  { intros c x Hx. destruct (Hout c x Hx); lia. }
  exists T'. destruct (sizeof_bhdr <=? n - r) eqn:Esp.
  - destruct Hspec as (Hl' & Hs' & Hp'). eexists. split; [done|].
    eapply (carve_pool start bl FL T l1 b n l2 r _ T'); try done; rewrite ?Esp.
    + intros x. rewrite Hs', (proj2 (Hph x)). done.
    + intros x. rewrite Hp', (proj1 (Hph x)). done.
    + intros c x. rewrite lookup_update. setoid_rewrite carve_free. rewrite Esp.
      trans (x ∈ FL1 c \/ x = b + 16 + r /\ c = MAPPING_INSERT (n - r - 16)); [case_decide; set_solver|].
      rewrite Hfree. naive_solver.
  - destruct Hspec as (Hl' & Hs' & Hp'). exists FL1. split; [done|].
    eapply (carve_pool start bl FL T l1 b n l2 r _ T'); try done; rewrite ?Esp.
    + intros x. rewrite Hs', (proj2 (Hph x)). repeat case_decide; try done. subst x. lia.
    + intros x. rewrite Hp', (proj1 (Hph x)). done.
    + intros c x. setoid_rewrite carve_free. rewrite Esp, Hfree. naive_solver.
Qed.

Lemma malloc_ex_ok start bl FL T size :
  pool_ok start bl FL T -> 1 <= size <= 2 ^ 30 - 2 ^ 24 ->
  exists p T' bl' FL', malloc_ex size T = Some (p, T') /\ pool_ok start bl' FL' T' /\
    allocates (fit size) bl p bl' /\ size <= fit size.
Proof.
  intros Hok Hs. pose proof (po_lists _ _ _ _ Hok) as Hl.
  destruct (round_size_ok size Hs) as (Hr & Hr1 & Hr2).
  destruct (search_class (round_size size) ltac:(lia) Hr2) as (r & fl & sl & Es & Hc & Hrr & Hr16 & Hrank).
  unfold malloc_ex, fit. rewrite Es. cbn [fst snd].
  assert (forall B, B ∈ bl -> isfree B = true -> let c := MAPPING_INSERT (len B) in
    class_ok c /\ adr B ∈ FL c /\ (rank (fl, sl) <= rank c <-> r <= len B)) as Hfree.
  { intros B HB Hf c. destruct (block_len start bl FL T B Hok HB) as [? ?].
    split_and!; [apply class_range; lia|by eapply free_listed|apply Hrank; lia]. }
  destruct (find_block FL T fl sl Hl Hc) as (fl' & sl' & b & -> & [[-> Hnone]|(Hc' & Hge & Hb0 & Hhd & Hmin)]).
  - exists 0, T, bl, FL. split_and!; [done|done| |lia]. left. split_and!; [done|done|]. intros B HB Hf.
    destruct (Hfree B HB Hf) as (Hcb & Hin & Hiff). destruct (decide (len B < r)) as [|Hn]; [done|].
    rewrite (Hnone _ Hcb) in Hin by (apply Hiff; lia). set_solver.
  - rewrite (proj2 (Z.eqb_neq b 0)) by done. apply head_Some in Hhd as [k2 Ek].
    destruct (proj1 (po_free _ _ _ _ Hok (fl', sl') b)) as (n & Hin & En); [rewrite Ek; set_solver|].
    destruct (block_len start bl FL T _ Hok Hin) as [Hn _]. cbn [len] in Hn.
    assert (r <= n) as Hrn by (apply Hrank; [lia|]; rewrite En; lia).
    apply list_elem_of_split in Hin as (l1 & l2 & E).
    pose proof (take_block start bl FL T l1 b n l2 r k2 Hok E ltac:(lia) Hr16) as Htake. rewrite En in Htake.
    destruct (Htake Ek) as (T' & FL' & -> & Hok').
    exists (buffer b), (TLSF_ADD_SIZE b T'), (l1 ++ carve b n r ++ l2), FL'. split_and!; [done| | |lia].
    + destruct Hok' as [? ? ? ? Hl' ?]. split; try done. by apply lists_ok_used.
    + right. exists l1, b, n, l2. split_and!; try done. rewrite En. intros B HB Hf Hrl.
      destruct (Hfree B HB Hf) as (Hcb & Hin & Hiff). destruct (decide (rank (fl', sl') <= rank (MAPPING_INSERT (len B)))) as [|Hlt]; [done|].
      rewrite (Hmin _ Hcb) in Hin; [set_solver|]. split; [by apply Hiff|lia].
Qed.

(** ** Release

    The blocks from address [a] on, when the header of the first may or may not
    say that the block before it is free. *)
Definition seg_open (h : Z -> bhdr) (a : Z) bl : Prop :=
  match bl with
  | [] => False
  | N :: tl =>
      adr N = a /\ (exists pf, bsize (h a) = len N + (if isfree N then 1 else 0) + flag pf) /\
      seg h (next N) (free_at N) tl
  end.

(** The pool while the block [a] of [n] bytes is being released: it has its free
    bit, it is in no list, and its successor may not know that it is free. *)
Record releasing (start : Z) l1 (a n : Z) l2 (FL : classes) (T : tlsf) : Prop := {
  re_start : 0 < start;
  re_len1 : Forall len_ok l1;
  re_len2 : Forall len_ok l2;
  re_len : len_ok (Blk a n true);
  re_adr : a = end_of start l1;
  re_span : end_of (a + 16 + n) l2 < start + 2 ^ 30;
  re_seg1 : seg (hdr T) start None l1;
  re_size : bsize (hdr T a) = n + 1 + flag (tail_free None l1);
  re_prev : forall p, tail_free None l1 = Some p -> prev_hdr (hdr T a) = p;
  re_seg2 : seg_open (hdr T) (a + 16 + n) (l2 ++ [Blk (end_of (a + 16 + n) l2) 0 false]);
  re_lists : lists_ok FL T;
  re_free : forall c x, x ∈ FL c <-> exists m, Blk x m true ∈ l1 ++ l2 /\ MAPPING_INSERT m = c
}.

Definition absorb_next (n : Z) l2 : Z * list block :=
  match l2 with Blk _ m true :: l2 => (n + 16 + m, l2) | _ => (n, l2) end.
Definition absorb_prev l1 (b n : Z) : list block * Z * Z :=
  match last l1 with Some (Blk p m true) => (removelast l1, p, m + 16 + n) | _ => (l1, b, n) end.
(** The blocks after the release of [b]. *)
Definition release l1 (b n : Z) l2 : list block :=
  let '(n, l2) := absorb_next n l2 in
  let '(l1, b, n) := absorb_prev l1 b n in
  l1 ++ Blk b n true :: l2.

Lemma seg_open_ext h h' a bl :
  (forall B, B ∈ bl -> bsize (h' (adr B)) = bsize (h (adr B)) /\ prev_hdr (h' (adr B)) = prev_hdr (h (adr B))) ->
  seg_open h a bl -> seg_open h' a bl.
Proof.
  destruct bl as [|N tl]; [done|]. intros Hext (<- & (pf & Hs) & Htl). split; [done|]. split.
  - exists pf. by rewrite (proj1 (Hext N (list_elem_of_here _ _))).
  - eapply tiles_ext; [|exact Htl]. intros B HB. apply Hext. set_solver.
Qed.

Lemma seg_open_bounds h a bl B : Forall len_pos bl -> seg_open h a bl -> B ∈ bl -> a <= adr B /\ next B <= end_of a bl.
Proof.
  destruct bl as [|N tl]; [done|]. intros [HN Htl]%Forall_cons (<- & _ & Hs). unfold len_pos in HN. cbn [end_of].
  change (adr N + 16 + len N) with (next N).
  pose proof (end_of_le (next N) tl Htl). intros [->|HB]%elem_of_cons; [unfold next in *; lia|].
  destruct (seg_bounds _ _ _ _ B Htl Hs HB). unfold next in *. lia.
Qed.

(** The blocks other than the one being released are before or after it. *)
Lemma releasing_other start l1 a n l2 FL T B : releasing start l1 a n l2 FL T -> B ∈ l1 \/ B ∈ l2 ->
  start <= adr B /\ len_ok B /\ len B < 2 ^ 30 /\ (next B <= a \/ a + 16 + n <= adr B).
Proof.
  intros [Hst Hl1 Hl2 [Hn _] -> Hsp Hs1 _ _ Hs2 _ _] HB. cbn [len] in Hn.
  pose proof (end_of_le start l1 (len_ok_pos _ Hl1)) as Hle1.
  pose proof (end_of_le (end_of start l1 + 16 + n) l2 (len_ok_pos _ Hl2)) as Hle2.
  destruct HB as [HB|HB].
  - destruct (seg_bounds _ _ _ _ B (len_ok_pos _ Hl1) Hs1 HB).
    rewrite list.Forall_forall in Hl1. destruct (Hl1 B HB) as [? ?]. unfold len_ok, next in *. lia.
  - destruct (seg_open_bounds _ _ _ B (closed_pos _ _ Hl2) Hs2) as [? Hnx]; [set_solver|].
    unfold closed in Hnx. rewrite end_of_app in Hnx. cbn [end_of len] in Hnx.
    rewrite list.Forall_forall in Hl2. destruct (Hl2 B HB) as [? ?]. unfold len_ok, next in *. lia.
Qed.

Lemma take_out_ok FL T x m : lists_ok FL T -> bytes x T = m -> x ∈ FL (MAPPING_INSERT m) ->
  exists FL' T', take_out x T = Some T' /\ lists_ok FL' T' /\ same_phys (hdr T) (hdr T') /\
    forall c y, y ∈ FL' c <-> y ∈ FL c /\ y <> x.
Proof.
  intros Hl Hb Hx. unfold take_out. rewrite Hb. pose proof (lo_out FL T Hl _ x Hx) as Hc.
  pose proof (lo_nodup FL T Hl (MAPPING_INSERT m)) as Hnd. pose proof (lo_disj FL T Hl) as Hdisj.
  apply list_elem_of_split in Hx as (k1 & k2 & Ek). rewrite Ek in Hnd.
  destruct (MAPPING_INSERT m) as [fl sl]. rewrite (proj2 (in_matrix_ok fl sl) Hc).
  destruct (extract_ok FL T x fl sl k1 k2 Hl Ek) as [Hl' Hph]. eexists _, _. split; [done|]. split; [done|]. split; [done|].
  intros c y. rewrite lookup_update. case_decide as E.
  - subst c. rewrite Ek, !elem_of_app, elem_of_cons. apply NoDup_app in Hnd as (_ & Hd & [Hk2 _]%NoDup_cons). split.
    + intros [Hy|Hy]; (split; [auto|]); intros ->; [apply (Hd x Hy), list_elem_of_here|done].
    + intros [[?|[?|?]] ?]; auto; done.
  - split; [|tauto]. intros Hy. split; [done|]. intros ->. apply E, (Hdisj _ _ x Hy). rewrite Ek. set_solver.
Qed.

Lemma releasing_len start l1 a n l2 FL T : releasing start l1 a n l2 FL T ->
  0 < a /\ 16 <= n < 2 ^ 30 /\ n mod 16 = 0 /\ end_of (a + 16 + n) l2 < a + 2 ^ 30.
Proof.
  intros [Hst Hl1 Hl2 [Hn Hn16] -> Hsp _ _ _ _ _ _]. cbn [len] in *.
  pose proof (end_of_le start l1 (len_ok_pos _ Hl1)).
  pose proof (end_of_le (end_of start l1 + 16 + n) l2 (len_ok_pos _ Hl2)). split_and!; try done; lia.
Qed.

Lemma releasing_bytes start l1 a n l2 FL T : releasing start l1 a n l2 FL T -> bytes a T = n.
Proof.
  intros Hr. destruct (releasing_len _ _ _ _ _ _ _ Hr) as (_ & Hn & Hn16 & _). unfold bytes.
  rewrite (re_size _ _ _ _ _ _ _ Hr). by destruct (size_masks n true (tail_free None l1)) as [-> _]; [lia|done|].
Qed.

(** The header after the block. *)
Lemma releasing_next start l1 a n l2 FL T : releasing start l1 a n l2 FL T ->
  exists N tl pf, l2 ++ [Blk (end_of (a + 16 + n) l2) 0 false] = N :: tl /\ adr N = a + 16 + n /\
    bsize (hdr T (a + 16 + n)) = len N + (if isfree N then 1 else 0) + flag pf /\
    0 <= len N < 2 ^ 30 /\ len N mod 16 = 0.
Proof.
  intros Hr. destruct (releasing_len _ _ _ _ _ _ _ Hr) as (_ & Hn & _ & Hsp).
  pose proof (re_seg2 _ _ _ _ _ _ _ Hr) as Hs. pose proof (re_len2 _ _ _ _ _ _ _ Hr) as Hl2.
  destruct (l2 ++ _) as [|N tl] eqn:E; [done|]. destruct Hs as (HN & (pf & Hs) & _). exists N, tl, pf.
  split_and!; try done; destruct l2 as [|B l2]; injection E as <- _; cbn [len]; try done;
    apply Forall_cons in Hl2 as [[? ?] Hl2]; try lia; try done.
  pose proof (end_of_le (a + 16 + n + 16 + len B) l2 (len_ok_pos _ Hl2)). cbn [end_of] in *. lia.
Qed.

Lemma free_test n (f : bool) (pf : option Z) : 0 <= n < 2 ^ 30 -> n mod 16 = 0 ->
  negb (Z.land (n + (if f then 1 else 0) + flag pf) FREE_BLOCK =? 0) = f.
Proof. intros H1 H2. destruct (size_masks n f pf H1 H2) as (_ & -> & _). by destruct f. Qed.

(** The next block is joined. *)
Lemma joined_next start l1 a n m l2 FL FL' T T' :
  releasing start l1 a n (Blk (a + 16 + n) m true :: l2) FL T -> lists_ok FL' T' ->
  (forall c y, y ∈ FL' c <-> y ∈ FL c /\ y <> a + 16 + n) ->
  (forall x, bsize (hdr T' x) = if decide (x = a) then n + 16 + m + 1 + flag (tail_free None l1) else bsize (hdr T x)) ->
  (forall x, prev_hdr (hdr T' x) = prev_hdr (hdr T x)) ->
  releasing start l1 a (n + 16 + m) l2 FL' T'.
Proof.
  intros Hr Hl' Hin Hs' Hp'. pose proof (fun B => releasing_other _ _ _ _ _ _ _ B Hr) as Ho.
  destruct Hr as [Hst Hl1 Hl2 [Hn Hn16] Had Hspan Hs1 Hsz Hp Hs2 Hl Hf].
  apply Forall_cons in Hl2 as [[Hm Hm16] Hl2]. cbn [len] in *. cbn [end_of len] in Hspan.
  replace (a + 16 + n + 16 + m) with (a + 16 + (n + 16 + m)) in Hspan by lia.
  assert (seg_open (hdr T) (a + 16 + (n + 16 + m)) (l2 ++ [Blk (end_of (a + 16 + (n + 16 + m)) l2) 0 false])) as Hs2'.
  { revert Hs2. cbn [app seg_open next free_at isfree adr len end_of]. unfold next. cbn [adr len].
    replace (a + 16 + n + 16 + m) with (a + 16 + (n + 16 + m)) by lia.
    destruct l2 as [|N' tl']; cbn [app seg seg_open]; intros (_ & _ & -> & ? & _ & ?); (split; [done|]; split; [by eexists|done]). }
  assert (forall B, B ∈ l2 ++ [Blk (end_of (a + 16 + (n + 16 + m)) l2) 0 false] -> a + 16 + (n + 16 + m) <= adr B) as Hab.
  { intros B HB. by apply (seg_open_bounds _ _ _ B (closed_pos _ _ Hl2) Hs2'). }
  assert (forall B, B ∈ l1 -> adr B + 32 <= a) as Hbe.
  { intros B HB. pose proof (seg_below _ _ _ _ _ Hl1 Hs1 HB). lia. }
  split; try done.
  - split; cbn [len]; [lia|]. rewrite Z.add_mod, (Z.add_mod n 16), Hn16, Hm16 by lia. done.
  - eapply tiles_ext; [|exact Hs1]. intros B HB. rewrite Hs', Hp', decide_False; [done|]. specialize (Hbe B HB). lia.
  - by rewrite Hs', decide_True.
  - intros p Hpp. rewrite Hp'. by apply Hp.
  - eapply seg_open_ext; [|exact Hs2']. intros B HB. rewrite Hs', Hp', decide_False; [done|]. specialize (Hab B HB). lia.
  - intros c x. rewrite Hin, Hf. split.
    + intros [(k & Hk & Hc) Hx]. exists k. split; [|done].
      apply elem_of_app in Hk as [Hk|[[= -> ->]|Hk]%elem_of_cons]; try done; set_solver.
    + intros (k & Hk & Hc). split; [exists k; set_solver|]. intros ->. apply elem_of_app in Hk as [Hk|Hk].
      * specialize (Hbe _ Hk). cbn in Hbe. lia.
      * assert (Blk (a + 16 + n) k true ∈ l2 ++ [Blk (end_of (a + 16 + (n + 16 + m)) l2) 0 false]) as Hk' by set_solver.
        specialize (Hab _ Hk'). cbn in Hab. lia.
Qed.

Definition head_used l2 : Prop := forall B, head l2 = Some B -> isfree B = false.

Lemma after_free_used start l1 a n x m l2 FL T : releasing start l1 a n (Blk x m true :: l2) FL T -> head_used l2.
Proof.
  intros Hr. pose proof (re_seg2 _ _ _ _ _ _ _ Hr) as (_ & _ & Hs). intros B HB. destruct l2 as [|B' l2]; [done|].
  injection HB as ->. destruct Hs as (_ & _ & Hs & _). by destruct (Hs x).
Qed.

Lemma join_next_ok start l1 a n l2 FL T : releasing start l1 a n l2 FL T ->
  let '(n', l2') := absorb_next n l2 in
  exists FL' T', join_next a T = Some T' /\ releasing start l1 a n' l2' FL' T' /\ head_used l2'.
Proof.
  intros Hr. destruct (releasing_len _ _ _ _ _ _ _ Hr) as (Ha0 & Hn & Hn16 & Hsp).
  destruct (releasing_next _ _ _ _ _ _ _ Hr) as (N & tl & pf & El & HN & Hs & HNl & HN16).
  unfold join_next, GET_NEXT_BLOCK, buffer. rewrite (releasing_bytes _ _ _ _ _ _ _ Hr). change BHDR_OVERHEAD with 16.
  rewrite Hs, free_test by done.
  destruct l2 as [|[x m [|]] l2]; injection El as <- _; cbn [isfree len adr absorb_next] in *;
    [by exists FL, T| |exists FL, T; split_and!; try done; by intros ? [= <-]].
  subst x. pose proof (after_free_used _ _ _ _ _ _ _ _ _ Hr) as Hu. destruct (size_masks m true pf HNl HN16) as (M1 & _).
  assert (bytes (a + 16 + n) T = m) as Hb by (unfold bytes; by rewrite Hs).
  destruct (take_out_ok FL T (a + 16 + n) m (re_lists _ _ _ _ _ _ _ Hr) Hb) as (FL' & T' & -> & Hl' & Hph & Hin).
  { apply (re_free _ _ _ _ _ _ _ Hr). exists m. split; [set_solver|done]. }
  eexists FL', _. split; [done|]. split; [|done]. apply (joined_next start l1 a n m l2 FL FL' T); try done.
  - by apply lists_ok_size.
  - intros x. rewrite bsize_set, (proj2 (Hph x)). case_decide; [|done]. subst x. unfold bytes.
    rewrite !(proj2 (Hph _)), Hs, M1, (re_size _ _ _ _ _ _ _ Hr). change BHDR_OVERHEAD with 16.
    rewrite wrapu_small; [lia|]. unfold flag. destruct (tail_free _ _); lia.
  - intros x. by rewrite prev_size, (proj1 (Hph x)).
Qed.

(** The block before is joined. *)
Lemma joined_prev start l1 p m a n l2 FL FL' T T' :
  releasing start (l1 ++ [Blk p m true]) a n l2 FL T -> lists_ok FL' T' ->
  (forall c y, y ∈ FL' c <-> y ∈ FL c /\ y <> p) ->
  (forall x, bsize (hdr T' x) = if decide (x = p) then m + 16 + n + 1 else bsize (hdr T x)) ->
  (forall x, prev_hdr (hdr T' x) = prev_hdr (hdr T x)) ->
  releasing start l1 p (m + 16 + n) l2 FL' T'.
Proof.
  intros Hr Hl' Hin Hs' Hp'. pose proof (fun B => releasing_other _ _ _ _ _ _ _ B Hr) as Ho.
  destruct Hr as [Hst Hl1 Hl2 [Hn Hn16] Had Hspan Hs1 Hsz Hp Hs2 Hl Hf].
  apply Forall_app in Hl1 as [Hl1 [[Hm Hm16] _]%Forall_cons]. cbn [len] in *.
  apply tiles_app in Hs1 as [Hs1 (Epa & Eps & Epp & _)]. cbn [adr len isfree] in *. rewrite <- Epa in *.
  assert (a = p + 16 + m) as Ea by (rewrite Had, end_of_app; cbn [end_of len]; lia).
  assert (p + 16 + (m + 16 + n) = a + 16 + n) as Ee by lia.
  assert (tail_free None l1 = None) as Et.
  { destruct (tail_free None l1) as [q|] eqn:E; [|done]. by destruct (Epp q). }
  assert (forall B, B ∈ l2 ++ [Blk (end_of (a + 16 + n) l2) 0 false] -> a + 16 + n <= adr B) as Hab.
  { intros B HB. by apply (seg_open_bounds _ _ _ B (closed_pos _ _ Hl2) Hs2). }
  assert (forall B, B ∈ l1 -> adr B + 32 <= p) as Hbe.
  { intros B HB. pose proof (seg_below _ _ _ _ _ Hl1 Hs1 HB). lia. }
  split; rewrite ?Et, ?Ee; try done.
  - split; cbn [len]; [lia|]. rewrite Z.add_mod, (Z.add_mod m 16), Hn16, Hm16 by lia. done.
  - eapply tiles_ext; [|exact Hs1]. intros B HB. rewrite Hs', Hp', decide_False; [done|]. specialize (Hbe B HB). lia.
  - rewrite Hs', decide_True by done. cbn. lia.
  - eapply seg_open_ext; [|exact Hs2]. intros B HB. rewrite Hs', Hp', decide_False; [done|]. specialize (Hab B HB). lia.
  - intros c x. rewrite Hin, Hf. split.
    + intros [(k & Hk & Hc) Hx]. exists k. split; [|done]. rewrite <- app_assoc in Hk.
      apply elem_of_app in Hk as [Hk|[[= -> ->]|Hk]%elem_of_cons]; try done; set_solver.
    + intros (k & Hk & Hc). split; [exists k; set_solver|]. intros ->. apply elem_of_app in Hk as [Hk|Hk].
      * specialize (Hbe _ Hk). cbn in Hbe. lia.
      * assert (Blk p k true ∈ l2 ++ [Blk (end_of (a + 16 + n) l2) 0 false]) as Hk' by set_solver.
        specialize (Hab _ Hk'). cbn in Hab. lia.
Qed.

Lemma join_prev_ok start l1 a n l2 FL T : releasing start l1 a n l2 FL T ->
  let '(l1', a', n') := absorb_prev l1 a n in
  exists FL' T', join_prev a T = Some (a', T') /\ releasing start l1' a' n' l2 FL' T' /\ tail_free None l1' = None.
Proof.
  intros Hr. destruct (releasing_len _ _ _ _ _ _ _ Hr) as (Ha0 & Hn & Hn16 & Hsp).
  pose proof (re_size _ _ _ _ _ _ _ Hr) as Hs. pose proof (re_prev _ _ _ _ _ _ _ Hr) as Hp.
  destruct (size_masks n true (tail_free None l1)) as (M1 & _ & M3 & _); [lia|done|].
  unfold join_prev. rewrite Hs, M3. unfold absorb_prev.
  destruct l1 as [|B l1 _] using rev_ind; [by exists FL, T|].
  rewrite last_snoc. unfold tail_free in *. rewrite last_snoc in *.
  destruct B as [p m [|]]; unfold free_at in *; cbn [isfree adr] in *;
    [|exists FL, T; cbn; by rewrite last_snoc].
  rewrite removelast_last. cbn [negb]. rewrite (Hp p eq_refl).
  assert (Blk p m true ∈ (l1 ++ [Blk p m true]) ++ l2) as Hin by set_solver.
  pose proof (re_seg1 _ _ _ _ _ _ _ Hr) as Hs1. apply tiles_app in Hs1 as [Hs1 (Epa & Eps & Epp & _)].
  cbn [adr len isfree] in *. rewrite <- Epa in *.
  assert (tail_free None l1 = None) as Et.
  { destruct (tail_free None l1) as [q|] eqn:E; [|done]. by destruct (Epp q). }
  destruct (releasing_other _ _ _ _ _ _ _ (Blk p m true) Hr) as (_ & [Hm Hm16] & Hm30 & _); [left; set_solver|].
  cbn [len] in *. destruct (size_masks m true None) as (M1' & _); [lia|done|].
  assert (bytes p T = m) as Hb by (unfold bytes; by rewrite Eps, Et).
  destruct (take_out_ok FL T p m (re_lists _ _ _ _ _ _ _ Hr) Hb) as (FL' & T' & -> & Hl' & Hph & Hfl).
  { apply (re_free _ _ _ _ _ _ _ Hr). by exists m. }
  eexists FL', _. split; [done|]. split; [|done]. apply (joined_prev start l1 p m a n l2 FL FL' T); try done.
  - by apply lists_ok_size.
  - intros x. rewrite bsize_set, (proj2 (Hph x)). case_decide; [|done]. subst x. unfold bytes.
    rewrite !(proj2 (Hph _)), Hs, Eps, Et, M1. change BHDR_OVERHEAD with 16. cbn [flag].
    rewrite wrapu_small; lia.
  - intros x. by rewrite prev_size, (proj1 (Hph x)).
Qed.

(** The block enters the list of its class, and its successor is told. *)
Lemma released start l1 a n l2 FL T : releasing start l1 a n l2 FL T -> tail_free None l1 = None -> head_used l2 ->
  let '(fl, sl) := MAPPING_INSERT n in
  let T1 := INSERT_BLOCK a fl sl T in
  let T2 := hset hdr_size (a + 16 + n) (Z.lor (bsize (hdr T1 (a + 16 + n))) PREV_FREE) T1 in
  class_ok (fl, sl) /\ bytes a T1 = n /\
  exists FL', pool_ok start (l1 ++ Blk a n true :: l2) FL' (hset hdr_prev_hdr (a + 16 + n) a T2).
Proof.
  intros Hr Et Hu. destruct (releasing_len _ _ _ _ _ _ _ Hr) as (Ha0 & Hn & Hn16 & Hsp).
  destruct (releasing_next _ _ _ _ _ _ _ Hr) as (N & tl & pf & El & HN & Hs & HNl & HN16).
  pose proof (class_range n ltac:(lia)) as Hc. pose proof (releasing_bytes _ _ _ _ _ _ _ Hr) as Hb.
  destruct (MAPPING_INSERT n) as [fl sl] eqn:Ec. intros T1 T2. split; [done|].
  pose proof (fun B => releasing_other _ _ _ _ _ _ _ B Hr) as Ho.
  destruct Hr as [Hst Hl1 Hl2 HB Had Hspan Hs1 Hsz Hp Hs2 Hl Hf].
  assert (isfree N = false) as HNf by (destruct l2; injection El as <- _; [done|by apply Hu]).
  assert (forall m, Blk a m true ∈ l1 ++ l2 -> False) as Hna.
  { intros m Hin. destruct (Ho (Blk a m true)) as (_ & [? _] & _ & ?); [by apply elem_of_app|]. unfold next in *. cbn in *. lia. }
  destruct (insert_ok FL T a fl sl Hl Hc) as [Hl' Hph]; [lia| |].
  { intros c Hin. apply Hf in Hin as (m & Hm & _). by eapply Hna. }
  fold T1 in Hl', Hph. rewrite HNf in Hs. destruct (size_masks (len N) false pf HNl HN16) as (_ & _ & _ & _ & _ & M6 & _).
  assert (Z.lor (bsize (hdr T1 (a + 16 + n))) PREV_FREE = len N + 2) as Hset by (rewrite (proj2 (Hph _)), Hs, M6; lia).
  split; [unfold bytes in *; by rewrite (proj2 (Hph a))|].
  set (T3 := hset hdr_prev_hdr (a + 16 + n) a T2).
  assert (forall x, bsize (hdr T3 x) = if decide (x = a + 16 + n) then len N + 2 else bsize (hdr T x)) as Hs'.
  { intros x. unfold T3, T2. by rewrite bsize_prev, bsize_set, Hset, (proj2 (Hph x)). }
  assert (forall x, prev_hdr (hdr T3 x) = if decide (x = a + 16 + n) then a else prev_hdr (hdr T x)) as Hp'.
  { intros x. unfold T3, T2. by rewrite prev_set, prev_size, (proj1 (Hph x)). }
  eexists. split; [done| | | |by apply lists_ok_prev, lists_ok_size|].
  - apply Forall_app. split; [done|]. by constructor.
  - rewrite end_of_app, <- Had. cbn [end_of len]. done.
  - unfold closed. rewrite end_of_app, <- Had, <- app_assoc. cbn [end_of len app].
    apply tiles_app. rewrite <- Had. split; [|rewrite Et]; [|rewrite Et in Hsz].
    + eapply tiles_ext; [|exact Hs1]. intros B HB'. pose proof (seg_below _ _ _ _ _ Hl1 Hs1 HB').
      by rewrite Hs', Hp', !decide_False by lia.
    + rewrite El in *. cbn [seg adr len isfree flag]. unfold next, free_at. cbn [adr len isfree flag].
      rewrite Hs', decide_False by lia. split_and!; try done.
      { rewrite Hs', decide_True, HNf by done. lia. }
      { intros ? [= <-]. by rewrite Hp', decide_True. }
      destruct Hs2 as (_ & _ & Htl). eapply tiles_ext; [|unfold next; exact Htl].
      assert (Forall len_pos (N :: tl)) as Hlp by (rewrite <- El; by apply (closed_pos _ _ Hl2)).
      apply Forall_cons in Hlp as [HNp Htp]. intros B HB'. destruct (seg_bounds _ _ _ _ B Htp Htl HB').
      unfold len_pos, next in *. by rewrite Hs', Hp', !decide_False by lia.
  - intros c x. rewrite lookup_update. trans (x ∈ FL c \/ x = a /\ c = MAPPING_INSERT n).
    { rewrite Ec. case_decide; set_solver. }
    rewrite Hf. setoid_rewrite elem_of_app. setoid_rewrite elem_of_cons. naive_solver.
Qed.

Lemma hdr_remove b T : hdr (TLSF_REMOVE_SIZE b T) = hdr T.
Proof. done. Qed.

(** The block marked free at the start of [free_ex]. *)
Definition mark_free (b : Z) (T : tlsf) : tlsf :=
  no_free_ptr b (TLSF_REMOVE_SIZE b (hset hdr_size b (Z.lor (bsize (hdr T b)) FREE_BLOCK) T)).

Lemma marked start bl FL T l1 b n l2 : pool_ok start bl FL T -> bl = l1 ++ Blk b n false :: l2 ->
  0 < b /\ releasing start l1 b n l2 FL (mark_free b T).
Proof.
  intros Hok E. destruct (pool_around start bl FL T l1 _ l2 Hok E) as (N & tl & Ha).
  destruct (ar_len _ _ _ _ _ _ _ Ha) as [HB Hn]. pose proof HB as [Hn16 Hnm]. cbn [len adr isfree] in *.
  pose proof (ar_pos _ _ _ _ _ _ _ Ha) as Hpos. pose proof (ar_size _ _ _ _ _ _ _ Ha) as Hs. cbn [len adr isfree] in *.
  pose proof (po_start _ _ _ _ Hok) as Hst. split; [lia|]. unfold mark_free. rewrite Hs.
  destruct (size_masks n false (tail_free None l1)) as (_ & _ & _ & _ & M5 & _); [lia|done|]. rewrite M5.
  set (T1 := no_free_ptr b _).
  assert (forall m f, Blk b m f ∈ l1 ++ l2 -> False) as Hnb.
  { intros m f Hin. destruct (around_other _ _ _ _ _ _ _ (Blk b m f) Ha) as [?|?]; [by apply elem_of_app| |];
      unfold next in *; cbn in *; lia. }
  assert (forall c x, x ∈ FL c <-> exists m, Blk x m true ∈ l1 ++ l2 /\ MAPPING_INSERT m = c) as Hf.
  { intros c x. rewrite (po_free _ _ _ _ Hok c x), E. setoid_rewrite elem_of_app. setoid_rewrite elem_of_cons. naive_solver. }
  pose proof (po_len _ _ _ _ Hok) as Hl. pose proof (po_span _ _ _ _ Hok) as Hsp. pose proof (ar_adr _ _ _ _ _ _ _ Ha) as Had.
  pose proof (ar_next _ _ _ _ _ _ _ Ha) as HN. pose proof (ar_tail _ _ _ _ _ _ _ Ha) as Ht. unfold next in HN.
  rewrite E in Hl, Hsp. apply Forall_app in Hl as [Hl1 [_ Hl2]%Forall_cons]. rewrite end_of_app in Hsp, Ht.
  cbn [end_of adr len] in *. rewrite <- Had in *.
  assert (forall x, x <> b -> bsize (hdr T1 x) = bsize (hdr T x)) as Hs1.
  { intros x Hx. unfold T1. rewrite (proj2 (phys_free_ptr b _ x)). rewrite hdr_remove.
    by rewrite bsize_set, decide_False. }
  assert (forall x, prev_hdr (hdr T1 x) = prev_hdr (hdr T x)) as Hp1.
  { intros x. unfold T1. rewrite (proj1 (phys_free_ptr b _ x)). rewrite hdr_remove. by rewrite prev_size. }
  split; try done; try lia.
  - eapply tiles_ext; [|exact (ar_seg1 _ _ _ _ _ _ _ Ha)]. intros B HB'. rewrite Hp1, Hs1; [done|].
    destruct (ar_below _ _ _ _ _ _ _ Ha B HB'). cbn in *. lia.
  - unfold T1. rewrite (proj2 (phys_free_ptr b _ b)). rewrite hdr_remove. by rewrite bsize_set, decide_True.
  - intros p Hp. rewrite Hp1. by apply (ar_prev _ _ _ _ _ _ _ Ha).
  - rewrite Ht. cbn [seg_open]. split; [done|]. split.
    + exists None. rewrite Hs1 by lia. rewrite <- HN. exact (ar_nsize _ _ _ _ _ _ _ Ha).
    + eapply tiles_ext; [|exact (ar_seg2 _ _ _ _ _ _ _ Ha)]. intros B HB'. rewrite Hp1, Hs1; [done|].
      pose proof (ar_above _ _ _ _ _ _ _ Ha B HB'). destruct (ar_nlen _ _ _ _ _ _ _ Ha). unfold next in *. lia.
  - apply lists_ok_unlisted; [|by apply lists_ok_used, lists_ok_size, (po_lists _ _ _ _ Hok)].
    intros c Hin. apply Hf in Hin as (m & Hm & _). by eapply Hnb.
Qed.

Lemma free_marked start l1 b n l2 FL T : 0 < b -> releasing start l1 b n l2 FL (mark_free b T) ->
  exists T' FL', free_ex (buffer b) T = Some T' /\ pool_ok start (release l1 b n l2) FL' T'.
Proof.
  intros Hb0 Hr. unfold free_ex, buffer.
  rewrite (proj2 (Z.eqb_neq (b + BHDR_OVERHEAD) 0)) by (change BHDR_OVERHEAD with 16; lia).
  rewrite Z.add_simpl_r. fold (mark_free b T). set (T1 := mark_free b T) in *.
  clearbody T1. pose proof (join_next_ok _ _ _ _ _ _ _ Hr) as H1. unfold release.
  destruct (absorb_next n l2) as [n1 l2'] eqn:E1. destruct H1 as (FL1 & T2 & -> & Hr1 & Hu).
  pose proof (join_prev_ok _ _ _ _ _ _ _ Hr1) as H2.
  destruct (absorb_prev l1 b n1) as [[l1' a] n2]. destruct H2 as (FL2 & T3 & -> & Hr2 & Et).
  pose proof (released _ _ _ _ _ _ _ Hr2 Et Hu) as H3. rewrite (releasing_bytes _ _ _ _ _ _ _ Hr2).
  destruct (MAPPING_INSERT n2) as [fl sl]. destruct H3 as (Hc & Hb & FL' & Hok').
  rewrite (proj2 (in_matrix_ok fl sl) Hc). cbv zeta. rewrite Hb. unfold GET_NEXT_BLOCK, buffer.
  eexists _, FL'. split; [done|]. exact Hok'.
Qed.

(** C17. [free_ex] of a used block of a well-formed pool: it succeeds, and the block,
    joined with the next one and then with the previous one when they are free,
    becomes one free block.  The pool stays well formed. *)
Theorem free_ex_refines start bl FL T l1 b n l2 :
  pool_ok start bl FL T -> bl = l1 ++ Blk b n false :: l2 ->
  exists T' FL', free_ex (buffer b) T = Some T' /\ pool_ok start (release l1 b n l2) FL' T'.
Proof.
  intros Hok E. destruct (marked start bl FL T l1 b n l2 Hok E) as [Hb Hr].
  by apply (free_marked start l1 b n l2 FL T).
Qed.

(** C16. [malloc_ex] on a well-formed pool, for a size of at most 2^30 - 2^24 bytes:
    it never reads outside of the tables of classes; it gives [NULL], and leaves
    the pool as it is, only when every free block is smaller than [fit size],
    which is no less than [size]; else it takes a free block of the lowest class
    of those blocks, and cuts it to [fit size] when what is left can be a block.
    The pool stays well formed: the blocks tile it, no two free ones are
    neighbours, the free lists and their bitmaps hold the free blocks by class. *)
Theorem malloc_ex_refines start bl FL T size :
  pool_ok start bl FL T -> 1 <= size <= 2 ^ 30 - 2 ^ 24 ->
  exists p T' bl' FL', malloc_ex size T = Some (p, T') /\ pool_ok start bl' FL' T' /\
    allocates (fit size) bl p bl' /\ size <= fit size.
Proof. apply malloc_ex_ok. Qed.
