(* ===== verification/TlsfHeap.v ===== *)
(** * New pools, and the heap over several pools.

    [init_memory_pool] makes a pool of one free block; any sequence of
    [rtheap_alloc] and [rtheap_free] of live blocks keeps the live blocks apart. *)

From S2P Require Import Prelude Tlsf TlsfFacts TlsfPool.
From stdpp Require Import list sets.
#[local] Open Scope Z_scope.
#[local] Abbreviation block := TlsfPool.block.
Implicit Types (bl l : list block) (B : block).

(** ** A new pool *)

Definition no_blocks : Z * Z -> list Z := fun _ => [].

Lemma lists_ok_new h : lists_ok no_blocks (MkTlsf TLSF_SIGNATURE 0 0 NULL 0 (fun _ => 0) (fun _ _ => NULL) h).
Proof.
  split; try done; try by intros; unfold no_blocks in *; set_solver.
  - intros c. constructor.
  - split; cbn.
    + intros fl Hfl. split; [lia|]. intros sl _. apply Z.bits_0.
    + split; [lia|]. intros fl _. apply Z.bits_0.
Qed.

(** What the pool has for blocks: the size without headers, signature block and end. *)
Definition area_of (mem_pool : Z) : Z := mem_pool + 6288.
Definition pool_bytes (mem_pool_size : Z) : Z := ROUNDDOWN_SIZE (mem_pool_size - sizeof_tlsf) - 64.

Lemma pool_bytes_eq s : sizeof_tlsf + 128 <= s -> 
  64 <= pool_bytes s /\ pool_bytes s mod 16 = 0 /\ ROUNDDOWN_SIZE (s - sizeof_tlsf) = pool_bytes s + 64 /\
  pool_bytes s + 64 <= s - sizeof_tlsf < pool_bytes s + 64 + 16.
Proof.
  intros Hs. unfold pool_bytes, ROUNDDOWN_SIZE. rewrite land_align. unfold sizeof_tlsf in *.
  pose proof (Z.div_mod (s - 6280) 16 ltac:(lia)). pose proof (Z.mod_pos_bound (s - 6280) 16 ltac:(lia)).
  split_and!; try lia. replace ((s - 6280) / 16 * 16 - 64) with (((s - 6280) / 16 - 4) * 16) by lia. apply Z.mod_mul. lia.
Qed.

Lemma bytes_size b n T : 0 <= n < 2 ^ 30 -> n mod 16 = 0 -> bsize (hdr T b) = n -> bytes b T = n.
Proof.
  intros Hn Hm Hb. unfold bytes. rewrite Hb. destruct (size_masks n false None Hn Hm) as [M _].
  cbn [flag] in M. by rewrite !Z.add_0_r in M.
Qed.

Lemma process_area_ok a s T : 0 < a -> 128 <= s < 2 ^ 30 -> s mod 16 = 0 -> lists_ok no_blocks T ->
  let '(ib, T') := process_area a s T in
  ib = a /\ bytes a T' = 16 /\ releasing a [Blk a 16 false] (a + 32) (s - 64) [] no_blocks (mark_free (a + 32) T').
Proof.
  intros Ha Hs Hm Hl. unfold process_area. cbv zeta. split; [done|].
  change (if sizeof_area_info <? MIN_BLOCK_SIZE then MIN_BLOCK_SIZE else ROUNDUP_SIZE sizeof_area_info) with 16.
  set (T1 := hset hdr_size a 16 T). assert (bytes a T1 = 16) as E1.
  { apply bytes_size; [lia|done|]. unfold T1. by rewrite bsize_set, decide_True. }
  rewrite E1. unfold GET_NEXT_BLOCK, buffer. change BHDR_OVERHEAD with 16.
  replace (a + 16 + 16) with (a + 32) by lia.
  assert (ROUNDDOWN_SIZE (u64 (s - 3 * 16 - 16)) = s - 64) as ->.
  { rewrite wrapu_small by lia. unfold ROUNDDOWN_SIZE. rewrite land_align. pose proof (Z.div_mod s 16 ltac:(lia)).
    replace (s - 3 * 16 - 16) with ((s / 16 - 4) * 16) by lia. rewrite Z.div_mul by lia. lia. }
  set (T3 := no_free_ptr (a + 32) (hset hdr_size (a + 32) (s - 64) T1)).
  assert (forall x, bsize (hdr T3 x) = if decide (x = a + 32) then s - 64 else bsize (hdr T1 x)) as E3.
  { intros x. unfold T3. by rewrite (proj2 (phys_free_ptr _ _ _)), bsize_set. }
  assert (lists_ok no_blocks T3) as Hl3.
  { apply lists_ok_unlisted; [unfold no_blocks; set_solver|]. by apply lists_ok_size, lists_ok_size. }
  assert (s mod 16 = 0 -> (s - 64) mod 16 = 0) as Hm' by (intros E; rewrite Zminus_mod, E; done).
  assert (bytes (a + 32) T3 = s - 64) as E2.
  { apply bytes_size; [lia|auto|]. by rewrite E3, decide_True. }
  rewrite E2. replace (a + 32 + 16 + (s - 64)) with (a + s - 16) by lia. clearbody T3.
  set (T4 := hset hdr_size (a + s - 16) PREV_FREE (hset hdr_prev_hdr (a + s - 16) (a + 32) T3)).
  assert (forall x, bsize (hdr T4 x) = if decide (x = a + s - 16) then 2 else if decide (x = a + 32) then s - 64
      else if decide (x = a) then 16 else bsize (hdr T x)) as E4.
  { intros x. unfold T4, T1 in *. rewrite bsize_set, bsize_prev, E3. by rewrite bsize_set. }
  assert (lists_ok no_blocks T4) as Hl4 by (by apply lists_ok_size, lists_ok_prev). clearbody T4.
  split.
  { apply bytes_size; [lia|done|]. rewrite E4, !decide_False, decide_True by lia. done. }
  assert (forall x, bsize (hdr (mark_free (a + 32) T4) x) = if decide (x = a + 32) then s - 64 + 1 else bsize (hdr T4 x)) as E5.
  { intros x. unfold mark_free. rewrite (proj2 (phys_free_ptr _ _ _)), hdr_remove, bsize_set. case_decide as Hx; [|done].
    rewrite E4, decide_False, decide_True by lia.
    destruct (size_masks (s - 64) false None) as (_ & _ & _ & _ & M5 & _); [lia|auto|]. cbn [flag] in M5.
    rewrite !Z.add_0_r in M5. by rewrite M5. }
  split; try done; try (cbn [end_of len app]; lia).
  - constructor; [split; cbn; [lia|done]|constructor].
  - split; cbn [len]; [lia|auto].
  - cbn [seg adr len isfree]. rewrite E5, E4, !decide_False, decide_True by lia. split_and!; done.
  - rewrite E5, decide_True by done. cbn. lia.
  - cbn [app seg_open end_of]. replace (a + 32 + 16 + (s - 64)) with (a + s - 16) by lia. split_and!; try done.
    exists (Some 0). rewrite E5, E4, decide_False, decide_True by lia. done.
  - apply lists_ok_unlisted; [unfold no_blocks; set_solver|]. by apply lists_ok_used, lists_ok_size.
  - intros c x. split; [unfold no_blocks; set_solver|]. intros (m & Hin & _). set_solver.
Qed.

Lemma new_pool_ok size p T :
  0 < p -> p mod 8 = 0 -> sizeof_tlsf + 128 <= size < 2 ^ 30 -> tlsf_signature T <> TLSF_SIGNATURE ->
  let n := pool_bytes size in
  exists T' FL, init_memory_pool size p T = Some (n, T') /\
    pool_ok (area_of p) [Blk (area_of p) 16 false; Blk (area_of p + 32) n true] FL T' /\
    end_of (area_of p) [Blk (area_of p) 16 false; Blk (area_of p + 32) n true] + 16 =
      p + (if size mod 16 <? 8 then size - size mod 16 else size - size mod 16 + 16).
Proof.
  intros Hp Hp8 Hs Hsig n. unfold init_memory_pool.
  rewrite (proj2 (Z.eqb_neq p 0)), (proj2 (Z.eqb_neq size 0)) by (unfold sizeof_tlsf in *; lia).
  change (sizeof_tlsf + BHDR_OVERHEAD * 8) with (sizeof_tlsf + 128).
  rewrite (proj2 (Z.ltb_ge size (sizeof_tlsf + 128))) by lia. cbn [orb].
  assert (Z.land p PTR_MASK = 0) as ->.
  { change PTR_MASK with (Z.ones 3). by rewrite Z.land_ones. }
  cbn [negb Z.eqb]. rewrite (proj2 (Z.eqb_neq (tlsf_signature T) TLSF_SIGNATURE)) by done.
  change (GET_NEXT_BLOCK p (ROUNDUP_SIZE sizeof_tlsf)) with (area_of p). set (a := area_of p).
  destruct (pool_bytes_eq size ltac:(lia)) as (Hn & Hn16 & -> & Hspan). fold n in Hn, Hn16, Hspan |- *.
  assert (0 < a) as Ha by (unfold a, area_of; lia).
  pose proof (process_area_ok a (n + 64) (MkTlsf TLSF_SIGNATURE 0 0 0 0 (fun _ => 0) (fun _ _ => 0) (hdr T)) Ha
    ltac:(unfold sizeof_tlsf in *; lia)) as Hpa.
  destruct (process_area a (n + 64) _) as [ib T1]. destruct Hpa as (-> & E1 & Hr).
  { rewrite Z.add_mod, Hn16 by lia. done. }
  { apply lists_ok_new. }
  replace (n + 64 - 64) with n in Hr by lia. rewrite E1. unfold GET_NEXT_BLOCK.
  replace (buffer a + 16) with (a + 32) by (unfold buffer, BHDR_OVERHEAD, sizeof_bhdr, MIN_BLOCK_SIZE; lia).
  destruct (free_marked _ _ (a + 32) _ _ _ _ ltac:(lia) Hr) as (T' & FL & -> & Hok).
  change (release [Blk a 16 false] (a + 32) n []) with [Blk a 16 false; Blk (a + 32) n true] in Hok.
  assert (bytes (a + 32) T' = n) as E.
  { destruct (pool_around _ _ _ _ [Blk a 16 false] (Blk (a + 32) n true) [] Hok eq_refl) as (N & tl & Har).
    unfold bytes. pose proof (ar_size _ _ _ _ _ _ _ Har) as Hsz. change (bsize (hdr T' (a + 32)) = n + 1 + flag None) in Hsz.
    rewrite Hsz. by destruct (size_masks n true None) as [-> _]; [unfold sizeof_tlsf in *; lia|done|]. }
  assert (forall v, bytes (a + 32) (set_area_head v T') = n) as E' by done.
  cbv zeta. rewrite !E'. eexists _, FL. split; [done|]. split.
  - destruct Hok as [? ? ? ? Hl ?]. split; try done. apply lists_ok_used.
    by apply (lists_ok_hdr FL T').
  - cbn [end_of len]. unfold a, area_of. pose proof (Z.div_mod size 16 ltac:(lia)) as Hd.
    pose proof (Z.mod_pos_bound size 16 ltac:(lia)). unfold sizeof_tlsf in *.
    pose proof (Z.div_mod n 16 ltac:(lia)) as Hd'. rewrite Hn16 in Hd'. zcase; lia.
Qed.

(** [init_memory_pool] on memory that has no signature yet: it makes a pool of the
    signature block and one free block of all the rest.  The header of the end
    block ends where the memory given ends, less what is not a multiple of 16
    bytes, when the size is less than 8 above such a multiple; else it ends up to
    8 bytes after the memory given. *)
Theorem init_memory_pool_makes_pool size p T :
  0 < p -> p mod 8 = 0 -> sizeof_tlsf + 128 <= size < 2 ^ 30 -> tlsf_signature T <> TLSF_SIGNATURE ->
  let n := pool_bytes size in
  exists T' FL, init_memory_pool size p T = Some (n, T') /\
    pool_ok (area_of p) [Blk (area_of p) 16 false; Blk (area_of p + 32) n true] FL T' /\
    end_of (area_of p) [Blk (area_of p) 16 false; Blk (area_of p + 32) n true] + 16 =
      p + (if size mod 16 <? 8 then size - size mod 16 else size - size mod 16 + 16).
Proof. apply new_pool_ok. Qed.

(** *** Examples: a pool in 8192 bytes at address 4096 *)
Definition raw : tlsf := MkTlsf 0 0 0 0 0 (fun _ => 0) (fun _ _ => 0) (fun _ => MkBhdr 0 0 0 0).


Lemma example_pool : exists T FL, pool_ok 10384 [Blk 10384 16 false; Blk 10416 1840 true] FL T.
Proof.
  destruct (new_pool_ok 8192 4096 raw) as (T & FL & _ & H & _); [lia|done|unfold sizeof_tlsf; lia|by vm_compute|].
  exists T, FL. exact H.
Qed.

(** A block of 112 bytes for a request of 100. *)
Lemma example_pool_used : exists T FL,
  pool_ok 10384 [Blk 10384 16 false; Blk 10416 112 false; Blk 10544 1712 true] FL T.
Proof.
  destruct example_pool as (T & FL & H). destruct (malloc_ex_ok _ _ _ _ 100 H ltac:(lia)) as (p & T' & bl' & FL' & _ & H' & Ha & _).
  assert (fit 100 = 112) as E by by vm_compute. rewrite E in Ha. destruct Ha as [(_ & _ & Hn)|(l1 & b & n & l2 & El & _ & _ & -> & _)].
  - specialize (Hn (Blk 10416 1840 true)). cbn in Hn. set_solver by lia.
  - assert (l1 = [Blk 10384 16 false] /\ b = 10416 /\ n = 1840 /\ l2 = []) as (-> & -> & -> & ->).
    { destruct l1 as [|B1 l1]; [done|]. destruct l1 as [|B2 l1]; [by injection El as <- <- <- <-|]. destruct l1; done. }
    exists T', FL'. exact H'.
Qed.

Lemma malloc_ex_refines_witness : exists T FL, pool_ok 10384 [Blk 10384 16 false; Blk 10416 1840 true] FL T /\ 1 <= 100 <= 2 ^ 30 - 2 ^ 24 /\
  exists p T' bl' FL', malloc_ex 100 T = Some (p, T') /\ pool_ok 10384 bl' FL' T' /\
    allocates (fit 100) [Blk 10384 16 false; Blk 10416 1840 true] p bl' /\ 100 <= fit 100.
Proof.
  destruct example_pool as (T & FL & H). exists T, FL. split; [exact H|]. split; [lia|].
  apply (malloc_ex_refines _ _ _ _ 100 H). lia.
Defined.

Lemma free_ex_refines_witness : exists T FL,
  pool_ok 10384 [Blk 10384 16 false; Blk 10416 112 false; Blk 10544 1712 true] FL T /\
  release [Blk 10384 16 false] 10416 112 [Blk 10544 1712 true] = [Blk 10384 16 false; Blk 10416 1840 true] /\
  exists T' FL', free_ex (buffer 10416) T = Some T' /\
    pool_ok 10384 (release [Blk 10384 16 false] 10416 112 [Blk 10544 1712 true]) FL' T'.
Proof.
  destruct example_pool_used as (T & FL & H). exists T, FL. split; [exact H|]. split; [reflexivity|].
  by apply (free_ex_refines _ _ _ _ [Blk 10384 16 false] 10416 112 [Blk 10544 1712 true] H).
Defined.

(** ** The heap

    An extent whose pool, up to the end block, lies within its limits. *)
Definition ext_ok (e : extent) bl : Prop :=
  exists start FL, pool_ok start bl FL (pool e) /\ membase e <= start /\ end_of start bl <= memlim e.

Fixpoint exts_apart (es : list extent) : Prop :=
  match es with
  | [] => True
  | e :: es => (forall e', e' ∈ es -> memlim e <= membase e' \/ memlim e' <= membase e) /\ exts_apart es
  end.

Definition limits (es : list extent) : list (Z * Z) := map (fun e => (membase e, memlim e)) es.
Definition heap_ok (es : list extent) (bls : list (list block)) : Prop := Forall2 ext_ok es bls /\ exts_apart es.
Definition apart B B' : Prop := next B <= adr B' \/ next B' <= adr B.

Lemma exts_apart_limits es es' : limits es = limits es' -> exts_apart es -> exts_apart es'.
Proof.
  revert es'. induction es as [|e es IH]; intros [|e' es']; try done. intros [= Eb El E] [Ha Hes].
  split; [|by apply IH]. intros x Hx. rewrite <- Eb, <- El.
  assert ((membase x, memlim x) ∈ limits es) as Hin.
  { rewrite E. apply list_elem_of_In, (in_map (fun e => (membase e, memlim e))). by apply list_elem_of_In. }
  apply list_elem_of_In, in_map_iff in Hin as (y & [= <- <-] & Hy). by apply Ha, list_elem_of_In.
Qed.

Lemma ext_bounds e bl B : ext_ok e bl -> B ∈ bl ->
  membase e <= adr B /\ next B <= memlim e /\ 16 <= len B /\ 0 < adr B.
Proof.
  intros (start & FL & Hok & Hb & He) HB. destruct (block_len _ _ _ _ _ Hok HB) as [? _].
  pose proof HB as HB'. apply list_elem_of_split in HB' as (l1 & l2 & E).
  destruct (pool_around _ _ _ _ _ _ _ Hok E) as (N & tl & Ha). pose proof (ar_pos _ _ _ _ _ _ _ Ha).
  pose proof (po_start _ _ _ _ Hok). pose proof (po_seg _ _ _ _ Hok) as Hs. unfold closed in Hs. apply tiles_app in Hs as [Hs _].
  destruct (seg_bounds _ _ _ _ B (len_ok_pos _ (po_len _ _ _ _ Hok)) Hs HB). lia.
Qed.

Lemma ext_apart e bl B B' : ext_ok e bl -> B ∈ bl -> B' ∈ bl -> B = B' \/ apart B B'.
Proof.
  intros (start & FL & Hok & _ & _) HB HB'. apply list_elem_of_split in HB as (l1 & l2 & E).
  destruct (pool_around _ _ _ _ _ _ _ Hok E) as (N & tl & Ha). destruct (block_len _ _ _ _ _ Hok HB') as [? _].
  rewrite E in HB'. apply elem_of_app in HB' as [HB'|[->|HB']%elem_of_cons]; [|by left|]; right; unfold apart.
  - right. by apply (ar_below _ _ _ _ _ _ _ Ha).
  - left. destruct (around_other _ _ _ _ _ _ _ B' Ha) as [?|?]; [by right| |done].
    destruct (pool_around _ _ _ _ l1 _ l2 Hok E) as (N' & tl' & Ha').
    assert (B' ∈ N' :: tl') as Hin by (rewrite <- (ar_tail _ _ _ _ _ _ _ Ha'); set_solver).
    apply elem_of_cons in Hin as [->|Hin]; [by rewrite (ar_next _ _ _ _ _ _ _ Ha')|].
    pose proof (ar_above _ _ _ _ _ _ _ Ha' B' Hin). destruct (ar_nlen _ _ _ _ _ _ _ Ha') as [? _].
    pose proof (ar_next _ _ _ _ _ _ _ Ha'). unfold next in *. lia.
Qed.

(** Blocks of the heap do not overlap. *)
Lemma heap_apart es bls B B' : heap_ok es bls -> B ∈ concat bls -> B' ∈ concat bls -> B = B' \/ apart B B'.
Proof.
  intros [Hf Ha]. induction Hf as [|e bl es bls He Hf IH]; cbn [concat]; [set_solver|]. destruct Ha as [Hd Ha].
  assert (forall X Y, X ∈ bl -> Y ∈ concat bls -> apart X Y) as Hx.
  { intros X Y HX HY. clear IH Ha. destruct (ext_bounds _ _ _ He HX) as (? & ? & _).
    clear He. revert HY. induction Hf as [|e' bl' es bls He' Hf IH]; cbn [concat]; [set_solver|].
    intros [HY|HY]%elem_of_app; [|apply IH; [set_solver|done]].
    destruct (ext_bounds _ _ _ He' HY) as (? & ? & _). destruct (Hd e'); [set_solver| |]; unfold apart; lia. }
  intros [HB|HB]%elem_of_app [HB'|HB']%elem_of_app; auto; [by eapply ext_apart|].
  right. destruct (Hx B' B HB' HB); [by right|by left].
Qed.

Lemma end_of_carve start l1 b n r l2 : end_of start (l1 ++ carve b n r ++ l2) = end_of start (l1 ++ Blk b n true :: l2).
Proof. rewrite !end_of_app. unfold carve. destruct (sizeof_bhdr <=? n - r); cbn [end_of len app]; [|done]. f_equal. lia. Qed.

Lemma end_of_release start l1 b n l2 : end_of start (release l1 b n l2) = end_of start (l1 ++ Blk b n false :: l2).
Proof.
  assert (let '(n', l2') := absorb_next n l2 in forall a, end_of (a + 16 + n') l2' = end_of (a + 16 + n) l2) as Hn.
  { destruct l2 as [|[x m [|]] l2]; try done. intros a. cbn [end_of len]. f_equal. lia. }
  unfold release. destruct (absorb_next n l2) as [n' l2']. rewrite !end_of_app. cbn [end_of len]. rewrite <- Hn.
  unfold absorb_prev. destruct l1 as [|B l1 _] using rev_ind; [done|]. rewrite last_snoc.
  destruct B as [p m [|]]; [|by rewrite !end_of_app].
  rewrite removelast_last, !end_of_app. cbn [end_of len]. f_equal. lia.
Qed.

Lemma release_used l1 b n l2 B : B ∈ l1 ++ l2 -> isfree B = false -> B ∈ release l1 b n l2.
Proof.
  intros HB Hf. assert (let '(n', l2') := absorb_next n l2 in B ∈ l1 ++ l2') as Hn.
  { destruct l2 as [|[x m [|]] l2]; cbn [absorb_next]; try done.
    apply elem_of_app in HB as [?|[->|?]%elem_of_cons]; [set_solver|done|set_solver]. }
  unfold release. destruct (absorb_next n l2) as [n' l2']. unfold absorb_prev.
  destruct l1 as [|C l1 _] using rev_ind; [set_solver|]. rewrite last_snoc.
  destruct C as [p m [|]]; [|set_solver]. rewrite removelast_last.
  apply elem_of_app in Hn as [[?|HC%list_elem_of_singleton]%elem_of_app|?]; [set_solver|by subst|set_solver].
Qed.

Lemma release_other start bl FL T l1 b n l2 B : pool_ok start bl FL T -> bl = l1 ++ Blk b n false :: l2 ->
  B ∈ bl -> isfree B = false -> adr B <> b -> B ∈ release l1 b n l2.
Proof.
  intros Hok E HB Hf Hb. apply release_used; [|done]. rewrite E in HB.
  apply elem_of_app in HB as [?|[->|?]%elem_of_cons]; [set_solver|done|set_solver].
Qed.

(** What a request does in one extent. *)
Lemma ext_alloc e bl size : ext_ok e bl -> 1 <= size <= 2 ^ 30 - 2 ^ 24 ->
  exists p T' bl', malloc_ex size (pool e) = Some (p, T') /\ ext_ok (MkExtent (membase e) (memlim e) T') bl' /\
    (forall B, B ∈ bl -> isfree B = false -> B ∈ bl') /\
    (p = 0 \/ exists b n m, p = buffer b /\ Blk b n true ∈ bl /\ Blk b m false ∈ bl' /\ size <= m).
Proof.
  intros (start & FL & Hok & Hb & He) Hs. destruct (malloc_ex_ok start bl FL (pool e) size Hok Hs) as (p & T' & bl' & FL' & -> & Hok' & Hal & Hfit).
  exists p, T', bl'. split; [done|]. destruct Hal as [(-> & -> & _)|(l1 & b & n & l2 & E & Hr & -> & -> & _)].
  - split; [by exists start, FL'|]. auto.
  - split; [exists start, FL'; split; [done|]; cbn; rewrite end_of_carve, <- E; by split|]. split.
    + intros B HB Hf. rewrite E in HB. apply elem_of_app in HB as [?|[->|?]%elem_of_cons]; [set_solver|done|set_solver].
    + right. exists b, n. unfold carve. destruct (sizeof_bhdr <=? n - fit size).
      * exists (fit size). split_and!; [done|set_solver|set_solver|done].
      * exists n. split_and!; [done|set_solver|set_solver|lia].
Qed.

Lemma alloc_loop_ok es bls size : Forall2 ext_ok es bls -> 1 <= size <= 2 ^ 30 - 2 ^ 24 ->
  exists p es' bls', alloc_loop size es = Some (p, es') /\ Forall2 ext_ok es' bls' /\ limits es' = limits es /\
    (forall B, B ∈ concat bls -> isfree B = false -> B ∈ concat bls') /\
    (p = 0 \/ exists b n m, p = buffer b /\ Blk b n true ∈ concat bls /\ Blk b m false ∈ concat bls' /\ size <= m).
Proof.
  intros Hf Hs. induction Hf as [|e bl es bls He Hf IH]; cbn [alloc_loop concat]; [exists 0, [], []; split_and!; auto|].
  destruct (ext_alloc e bl size He Hs) as (p & T' & bl' & -> & He' & Hused & Hp).
  destruct (decide (p = 0)) as [->|Hp0]; cbn [negb Z.eqb].
  - destruct IH as (q & es' & bls' & -> & Hf' & Hlim & Hused' & Hq). exists q. eexists _, (bl' :: bls').
    split; [done|]. split; [by constructor|]. split; [cbn; by f_equal|]. cbn [concat]. split.
    + intros B [HB|HB]%elem_of_app Hfr; apply elem_of_app; auto.
    + destruct Hq as [Hq|(b & n & m & ? & ? & ? & ?)]; [by left|right]. exists b, n, m. split_and!; try done; set_solver.
  - rewrite (proj2 (Z.eqb_neq p 0) Hp0). exists p. eexists _, (bl' :: bls). split; [done|].
    split; [by constructor|]. split; [done|]. cbn [concat]. split.
    + intros B [HB|HB]%elem_of_app Hfr; apply elem_of_app; auto.
    + destruct Hp as [Hp|(b & n & m & ? & ? & ? & ?)]; [done|right]. exists b, n, m. split_and!; try done; set_solver.
Qed.

Lemma free_loop_ok es bls b n : heap_ok es bls -> Blk b n false ∈ concat bls ->
  exists es' bls', free_loop (buffer b) es = Some es' /\ Forall2 ext_ok es' bls' /\ limits es' = limits es /\
    forall B, B ∈ concat bls -> isfree B = false -> adr B <> b -> B ∈ concat bls'.
Proof.
  intros [Hf Ha]. induction Hf as [|e bl es bls He Hf IH]; cbn [free_loop concat]; [set_solver|]. destruct Ha as [Hd Ha].
  change (buffer b) with (b + 16) in *.
  intros [HB|HB]%elem_of_app.
  - destruct (ext_bounds _ _ _ He HB) as (H1 & H2 & H3 & _). unfold next in H2. cbn [adr len] in *.
    rewrite (proj2 (Z.ltb_lt (b + 16) (memlim e))), (proj2 (Z.leb_le (membase e) (b + 16))) by lia. cbn [andb].
    destruct He as (start & FL & Hok & Hb & Hl). apply list_elem_of_split in HB as (l1 & l2 & E).
    destruct (marked start bl FL (pool e) l1 b n l2 Hok E) as [Hb0 Hr].
    destruct (free_marked start l1 b n l2 FL (pool e) Hb0 Hr) as (T' & FL' & HT & Hok'). change (buffer b) with (b + 16) in HT.
    rewrite HT. eexists _, (release l1 b n l2 :: bls). split; [done|].
    split; [constructor; [exists start, FL'; split; [done|]; cbn; rewrite end_of_release, <- E; by split|done]|].
    split; [done|]. intros B [HB|HB]%elem_of_app Hfr Hne; cbn [concat]; apply elem_of_app; [left|by right].
    by apply (release_other start bl FL (pool e)).
  - assert ((b + 16 <? memlim e) && (membase e <=? b + 16) = false) as ->.
    { destruct (IH Ha HB) as (es' & bls' & _). clear IH. revert HB. clear es' bls'.
      induction Hf as [|e' bl' es bls He' Hf IH]; cbn [concat]; [set_solver|].
      intros [HB|HB]%elem_of_app; [|apply IH; [set_solver|by destruct Ha|done]].
      destruct (ext_bounds _ _ _ He' HB) as (H1 & H2 & H3 & _). unfold next in H2. cbn [adr len] in *.
      destruct (Hd e'); [set_solver| |]; [rewrite (proj2 (Z.ltb_ge (b + 16) (memlim e))) by lia; done|].
      rewrite (proj2 (Z.leb_gt (membase e) (b + 16))) by lia. by rewrite andb_false_r. }
    destruct (IH Ha HB) as (es' & bls' & -> & Hf' & Hlim & Hused). eexists _, (bl :: bls'). split; [done|].
    split; [by constructor|]. split; [cbn; by f_equal|]. cbn [concat].
    intros B [?|?]%elem_of_app ? ?; apply elem_of_app; auto.
Qed.

(** *** A user of the heap

    It asks for sizes and gives back, in any order, what it holds. *)
Inductive heap_op := Alloc (size : Z) | Release (k : nat).
Definition op_ok (o : heap_op) : Prop := match o with Alloc size => 0 <= size <= 2 ^ 30 - 2 ^ 24 | Release _ => True end.

(** The addresses held, with the sizes asked for. *)
Definition heap_step (o : heap_op) (live : list (Z * Z)) (h : rtheap) : option (list (Z * Z) * rtheap) :=
  match o with
  | Alloc size =>
      match rtheap_alloc h size with
      | Some (p, h) => Some (if p =? NULL then live else live ++ [(p, size)], h)
      | None => None
      end
  | Release k =>
      match live !! k with
      | Some (p, _) => match rtheap_free h p with Some h => Some (delete k live, h) | None => None end
      | None => Some (live, h)
      end
  end.
Fixpoint heap_run (os : list heap_op) (live : list (Z * Z)) (h : rtheap) : option (list (Z * Z) * rtheap) :=
  match os with
  | [] => Some (live, h)
  | o :: os => match heap_step o live h with Some (live, h) => heap_run os live h | None => None end
  end.

Definition held (bls : list (list block)) (x : Z * Z) : Prop :=
  exists b n, x.1 = buffer b /\ Blk b n false ∈ concat bls /\ x.2 <= n.
Definition live_ok (live : list (Z * Z)) (h : rtheap) bls : Prop :=
  heap_ok (extents h) bls /\ NoDup (map fst live) /\ Forall (held bls) live.

Lemma heap_len es bls B : heap_ok es bls -> B ∈ concat bls ->
  16 <= len B /\ exists e, e ∈ es /\ membase e <= adr B /\ next B <= memlim e.
Proof.
  intros [Hf _]. induction Hf as [|e bl es bls He Hf IH]; cbn [concat]; [set_solver|]. intros [HB|HB]%elem_of_app.
  - destruct (ext_bounds _ _ _ He HB) as (? & ? & ? & _). split; [done|]. exists e. split; [set_solver|done].
  - destruct (IH HB) as (? & e' & ? & ?). split; [done|]. exists e'. split; [set_solver|done].
Qed.

Lemma buffer_inj b b' : buffer b = buffer b' -> b = b'.
Proof. unfold buffer. lia. Qed.

Lemma held_mono bls bls' live (P : Z -> Prop) : Forall (held bls) live ->
  (forall x, x ∈ live -> P x.1) ->
  (forall B, B ∈ concat bls -> isfree B = false -> P (buffer (adr B)) -> B ∈ concat bls') ->
  Forall (held bls') live.
Proof.
  rewrite !list.Forall_forall. intros Hh HP Hm x Hx. destruct (Hh x Hx) as (b & n & E & HB & Hs).
  exists b, n. split_and!; try done. apply Hm; [done|done|]. cbn. rewrite <- E. by apply HP.
Qed.

Lemma fst_in (live : list (Z * Z)) p : p ∈ map fst live -> exists s, (p, s) ∈ live.
Proof.
  intros Hp%list_elem_of_In. apply in_map_iff in Hp as ([q s] & <- & Hin). exists s. by apply list_elem_of_In.
Qed.

Lemma heap_step_ok o live h bls : live_ok live h bls -> op_ok o ->
  exists live' h' bls', heap_step o live h = Some (live', h') /\
    limits (extents h') = limits (extents h) /\ live_ok live' h' bls'.
Proof.
  intros (Hh & Hnd & Hl) Ho. pose proof Hh as [Hf Ha]. destruct o as [size|k]; cbn [heap_step op_ok] in *.
  - unfold rtheap_alloc. destruct (size =? 0) eqn:Es; zbool; [by exists live, h, bls|].
    destruct (alloc_loop_ok (extents h) bls size Hf ltac:(lia)) as (p & es' & bls' & -> & Hf' & Hlim & Hused & Hp).
    assert (heap_ok es' bls') as Hh' by (split; [done|]; by eapply exts_apart_limits).
    assert (Forall (held bls') live) as Hl' by (apply (held_mono bls bls' live (fun _ => True)); auto).
    destruct (decide (p = 0)) as [->|Hp0]; [by exists live; eexists _, bls'|].
    rewrite (proj2 (Z.eqb_neq p 0) Hp0). destruct Hp as [Hp|(b & n & m & -> & Hb & Hm & Hs)]; [done|].
    eexists _, _, bls'. split; [done|]. split; [done|]. split; [done|]. split.
    + rewrite map_app. apply NoDup_app. split_and!; [done| |apply NoDup_singleton].
      intros q [s Hq]%fst_in ->%list_elem_of_singleton. rewrite list.Forall_forall in Hl.
      destruct (Hl _ Hq) as (b' & n' & E & HB & _). apply buffer_inj in E as <-.
      destruct (heap_apart _ _ _ _ Hh Hb HB) as [?|[?|?]]; [done| |];
        destruct (heap_len _ _ _ Hh Hb), (heap_len _ _ _ Hh HB); unfold next in *; cbn [adr len] in *; lia.
    + apply Forall_app. split; [done|]. constructor; [|constructor]. by exists b, m.
  - destruct (live !! k) as [[p s]|] eqn:Ek; [|by exists live, h, bls].
    pose proof (list_elem_of_lookup_2 _ _ _ Ek) as Hin. pose proof Hl as Hl2. rewrite list.Forall_forall in Hl2.
    destruct (Hl2 _ Hin) as (b & n & E & HB & Hs). cbn in E. subst p.
    unfold rtheap_free. destruct (free_loop_ok (extents h) bls b n Hh HB) as (es' & bls' & -> & Hf' & Hlim & Hused).
    assert (live ≡ₚ (buffer b, s) :: delete k live) as Hperm by (by apply delete_Permutation).
    pose proof (Permutation_map fst Hperm) as Hpm. cbn [map fst] in Hpm. rewrite Hpm in Hnd.
    apply NoDup_cons in Hnd as [Hnb Hnd]. rewrite Hperm in Hl. apply Forall_cons in Hl as [_ Hl].
    eexists _, _, bls'. split; [done|]. split; [done|]. split; [split; [done|by eapply exts_apart_limits]|]. split; [done|].
    apply (held_mono bls bls' _ (fun q => q <> buffer b) Hl).
    + intros [q s'] Hq E. cbn in E. subst q. apply Hnb. apply list_elem_of_In, in_map_iff. exists (buffer b, s').
      split; [done|by apply list_elem_of_In].
    + intros B HBB Hfr Hne. apply Hused; [done|done|congruence].
Qed.

(** C15. A heap over pools that are well formed and within the limits of their
    extents: whatever a user asks for, up to 2^30 - 2^24 bytes at a time, and in
    whatever order it gives back what it holds, no request and no release goes
    out of the tables of the pools, and the buffers held never overlap: each has
    the size asked for, within an extent. *)
Theorem heap_blocks_apart h bls os : heap_ok (extents h) bls -> Forall op_ok os ->
  exists live h', heap_run os [] h = Some (live, h') /\ limits (extents h') = limits (extents h) /\
    (forall i p r, live !! i = Some (p, r) -> exists e, e ∈ extents h' /\ membase e + BHDR_OVERHEAD <= p /\ p + r <= memlim e) /\
    forall i j p r q s, live !! i = Some (p, r) -> live !! j = Some (q, s) -> i <> j -> p + r <= q \/ q + s <= p.
Proof.
  intros Hh Hos. assert (exists live h' bls', heap_run os [] h = Some (live, h') /\
    limits (extents h') = limits (extents h) /\ live_ok live h' bls') as (live & h' & bls' & -> & Hlim & Hh' & Hnd & Hl).
  { assert (live_ok [] h bls) as Hl by (split_and!; [done|constructor|constructor]). clear Hh. revert h bls Hl.
    generalize ([] : list (Z * Z)). induction Hos as [|o os Ho Hos IH]; intros live h bls Hl; cbn [heap_run]; [by exists live, h, bls|].
    destruct (heap_step_ok o live h bls Hl Ho) as (live1 & h1 & bls1 & -> & Hlim & Hl1).
    destruct (IH live1 h1 bls1 Hl1) as (live' & h' & bls' & -> & Hlim' & Hl'). exists live', h', bls'.
    split; [done|]. split; [congruence|done]. }
  exists live, h'. split; [done|]. split; [done|]. rewrite list.Forall_forall in Hl. split.
  - intros i p r Hi. destruct (Hl _ (list_elem_of_lookup_2 _ _ _ Hi)) as (b & n & E & HB & Hs). cbn in E, Hs.
    destruct (heap_len _ _ _ Hh' HB) as (_ & e & He & ? & ?). exists e. split; [done|].
    unfold next, buffer in *. change BHDR_OVERHEAD with 16 in *. cbn [adr len] in *. lia.
  - intros i j p r q s Hi Hj Hij.
    destruct (Hl _ (list_elem_of_lookup_2 _ _ _ Hi)) as (b & n & E & HB & Hs).
    destruct (Hl _ (list_elem_of_lookup_2 _ _ _ Hj)) as (c & m & E' & HC & Hs'). cbn in E, Hs, E', Hs'.
    assert (b <> c) as Hne.
    { intros ->. apply Hij. apply (NoDup_lookup (map fst live) i j p Hnd); rewrite list_lookup_fmap; [by rewrite Hi|].
      rewrite Hj. cbn. by rewrite E, E'. }
    destruct (heap_len _ _ _ Hh' HB) as [? _], (heap_len _ _ _ Hh' HC) as [? _].
    destruct (heap_apart _ _ _ _ Hh' HB HC) as [[= ? ?]|[?|?]]; [done| |];
      unfold next, buffer in *; change BHDR_OVERHEAD with 16 in *; cbn [adr len] in *; lia.
Qed.

Lemma single_ok e bl : ext_ok e bl -> heap_ok [e] [bl].
Proof. intros He. split; [by constructor|]. split; [|done]. intros e' He'. by inversion He'. Qed.

Lemma example_heap : exists h bls, rtheap_init 1 4096 8192 false 0 (fun _ => 0) (fun _ => raw) = Some (0, h) /\
  heap_ok (extents h) bls.
Proof.
  destruct (new_pool_ok 8144 4144 raw) as (T & FL & E & H & _); [lia|done|unfold sizeof_tlsf; lia|by vm_compute|].
  exists (MkHeap 8192 [MkExtent 4144 12288 T]). exists [[Blk 10432 16 false; Blk 10464 1792 true]]. split.
  - assert (tlsf_extent 4096 8192 (fun _ => raw) = Some (MkExtent 4144 12288 T)) as Et.
    { unfold tlsf_extent. assert (u64 (8192 - sizeof_rtextent) = 8144) as -> by (vm_compute; reflexivity).
      assert (4096 + sizeof_rtextent = 4144) as -> by reflexivity. rewrite E. reflexivity. }
    unfold rtheap_init. cbn [Z.eqb andb negb]. rewrite Et. reflexivity.
  - apply single_ok. exists 10432, FL. split; [exact H|]. cbn [membase memlim end_of len]. lia.
Qed.

Lemma heap_blocks_apart_witness : exists h bls,
  rtheap_init 1 4096 8192 false 0 (fun _ => 0) (fun _ => raw) = Some (0, h) /\ heap_ok (extents h) bls /\
  exists live h', heap_run [Alloc 100; Alloc 200; Release 0; Alloc 60] [] h = Some (live, h') /\
    limits (extents h') = limits (extents h) /\
    (forall i p r, live !! i = Some (p, r) -> exists e, e ∈ extents h' /\ membase e + BHDR_OVERHEAD <= p /\ p + r <= memlim e) /\
    forall i j p r q s, live !! i = Some (p, r) -> live !! j = Some (q, s) -> i <> j -> p + r <= q \/ q + s <= p.
Proof.
  destruct example_heap as (h & bls & E & H). exists h, bls. split; [exact E|]. split; [exact H|].
  apply (heap_blocks_apart h bls [Alloc 100; Alloc 200; Release 0; Alloc 60] H).
  repeat constructor; cbn; lia.
Defined.
