(* ===== verification/Scb.v ===== *)
(** * Shared circular buffers (rtai_scb.h)

    The services on a buffer in shared memory that its users read and write
    without locks, first as single calls, then as the loads and stores that one
    sender and one receiver make while both are at work. *)

From S2P Require Import Prelude Ring.

(** The header, three [int]s, and the [SIZE] bytes that follow it. *)
Record scb := MkScb { SIZE : Z; FBYTE : Z; LBYTE : Z; SCB : list byte }.
Definition HDRSIZ := 12.

Definition set_FBYTE (v : Z) (b : scb) : scb := MkScb (SIZE b) v (LBYTE b) (SCB b).
Definition set_LBYTE (v : Z) (b : scb) : scb := MkScb (SIZE b) (FBYTE b) v (SCB b).
Definition set_SCB (v : list byte) (b : scb) : scb := MkScb (SIZE b) (FBYTE b) (LBYTE b) v.

(** [None] is the access through a null pointer when no memory is had.  [shm] is
    what [rt_shm_alloc] gives, [given] the memory of the user.  The exchange stores
    the name in the word that is to hold the size; a caller that finds the word
    set takes the buffer as it is. *)
Definition rt_scb_init (size suprt : Z) (given : scb) (shm : Z -> option scb) : option scb :=
  let '(size, m) :=
    if 1000 <? suprt then (i32 (size - (HDRSIZ + 1)), Some given)
    else (size, shm (size + HDRSIZ + 1)) in
  match m with
  | None => None
  | Some b => Some (if SIZE b =? 0 then MkScb (i32 (size + 1)) 0 0 (SCB b) else b)
  end.
Definition rt_scb_reset (b : scb) : scb := MkScb (SIZE b) 0 0 (SCB b).

(** Bytes held and bytes free, from the indices. *)
Definition avail (size fbyte lbyte : Z) : Z :=
  if fbyte <=? lbyte then lbyte - fbyte else size + lbyte - fbyte.
Definition rt_scb_avbs (b : scb) : Z := avail (SIZE b) (FBYTE b) (LBYTE b).
Definition rt_scb_bytes (b : scb) : Z := rt_scb_avbs b.
Definition rt_scb_frbs (b : scb) : Z :=
  if FBYTE b <=? LBYTE b then SIZE b + FBYTE b - LBYTE b else SIZE b - LBYTE b.

(** The tests of a receiver and of a sender. *)
Definition can_get (size fbyte lbyte msg_size : Z) : bool :=
  (0 <? msg_size) && (msg_size <=? (if 0 <=? lbyte - fbyte then lbyte - fbyte else size + (lbyte - fbyte))).
Definition can_put (size fbyte lbyte msg_size : Z) : bool :=
  (0 <? msg_size) && (msg_size <? (if fbyte - lbyte <=? 0 then size + (fbyte - lbyte) else fbyte - lbyte)).

(** The bytes copied out, from [fbyte] on, and the index after them. *)
Definition copy_out (b : scb) (msg_size : Z) : list byte * Z :=
  let size := SIZE b in let fbyte := FBYTE b in
  let tocpy := size - fbyte in
  if msg_size <? tocpy then (memread (SCB b) fbyte msg_size, fbyte + msg_size)
  else (memread (SCB b) fbyte tocpy ++ memread (SCB b) 0 (msg_size - tocpy), msg_size - tocpy).
(** The buffer with the bytes copied in, from [lbyte] on, and the index after them. *)
Definition copy_in (b : scb) (msg : list byte) (msg_size : Z) : list byte * Z :=
  let size := SIZE b in let lbyte := LBYTE b in
  let tocpy := size - lbyte in
  if msg_size <? tocpy then (memcpy (SCB b) lbyte msg msg_size, lbyte + msg_size)
  else (memcpy (memcpy (SCB b) lbyte msg tocpy) 0 (zdrop tocpy msg) (msg_size - tocpy), msg_size - tocpy).

(** The new buffer, the bytes at [msg] and the result. *)
Definition rt_scb_get (b : scb) (msg_size : Z) : scb * list byte * Z :=
  if can_get (SIZE b) (FBYTE b) (LBYTE b) msg_size then
    let '(out, f) := copy_out b msg_size in (set_FBYTE f b, out, 0)
  else (b, [], msg_size).
Definition rt_scb_evdrp (b : scb) (msg_size : Z) : list byte * Z :=
  if can_get (SIZE b) (FBYTE b) (LBYTE b) msg_size then ((copy_out b msg_size).1, 0) else ([], msg_size).
Definition rt_scb_put (b : scb) (msg : list byte) (msg_size : Z) : scb * Z :=
  if can_put (SIZE b) (FBYTE b) (LBYTE b) msg_size then
    let '(bytes, l) := copy_in b msg msg_size in (set_LBYTE l (set_SCB bytes b), 0)
  else (b, msg_size).
(** [FBYTE] stays where it is. *)
Definition rt_scb_ovrwr (b : scb) (msg : list byte) (msg_size : Z) : scb * Z :=
  if (0 <? msg_size) && (msg_size <? SIZE b) then
    let '(bytes, l) := copy_in b msg msg_size in (set_LBYTE l (set_SCB bytes b), 0)
  else (b, msg_size).

(** ** One sender and one receiver at work

    The loads of the header are in the order of the declarations; the bytes of a
    [memcpy] are copied one by one, in any order; the index is stored last.  [todo]
    are the bytes not copied yet. *)
Inductive sender :=
| SIdle
| SSize (msg : list byte)
| SFbyte (msg : list byte) (size : Z)
| SLbyte (msg : list byte) (size fbyte : Z)
| STest (msg : list byte) (size fbyte lbyte : Z)
| SCopy (msg : list byte) (size lbyte : Z) (todo : list Z).
Inductive receiver :=
| RIdle
| RSize (n : Z)
| RFbyte (n size : Z)
| RLbyte (n size fbyte : Z)
| RTest (n size fbyte lbyte : Z)
| RCopy (n size fbyte : Z) (todo : list Z) (out : list byte).

(** The shared buffer, the two sides, and what was sent and received so far. *)
Record sys := MkSys { buf : scb; snd_ : sender; rcv : receiver; sent : list byte; got : list byte }.

(** The index of byte [i] of a message at [at_], the same in either [memcpy]. *)
Definition place (size at_ i : Z) : Z := if i <? size - at_ then at_ + i else i - (size - at_).

Definition zseq (n : Z) : list Z := seqZ 0 n.

Inductive step : sys -> sys -> Prop :=
| put_call b r s g msg : step (MkSys b SIdle r s g) (MkSys b (SSize msg) r s g)
| put_size b r s g msg : step (MkSys b (SSize msg) r s g) (MkSys b (SFbyte msg (SIZE b)) r s g)
| put_fbyte b r s g msg size : step (MkSys b (SFbyte msg size) r s g) (MkSys b (SLbyte msg size (FBYTE b)) r s g)
| put_lbyte b r s g msg size f : step (MkSys b (SLbyte msg size f) r s g) (MkSys b (STest msg size f (LBYTE b)) r s g)
| put_fail b r s g msg size f l : can_put size f l (zlen msg) = false ->
    step (MkSys b (STest msg size f l) r s g) (MkSys b SIdle r s g)
| put_start b r s g msg size f l : can_put size f l (zlen msg) = true ->
    step (MkSys b (STest msg size f l) r s g) (MkSys b (SCopy msg size l (zseq (zlen msg))) r s g)
| put_byte b r s g msg size l todo1 i todo2 :
    step (MkSys b (SCopy msg size l (todo1 ++ i :: todo2)) r s g)
         (MkSys (set_SCB (<[Z.to_nat (place size l i) := zget msg i]> (SCB b)) b) (SCopy msg size l (todo1 ++ todo2)) r s g)
| put_done b r s g msg size l :
    step (MkSys b (SCopy msg size l []) r s g) (MkSys (set_LBYTE (place size l (zlen msg)) b) SIdle r (s ++ msg) g)
| get_call b p s g n : step (MkSys b p RIdle s g) (MkSys b p (RSize n) s g)
| get_size b p s g n : step (MkSys b p (RSize n) s g) (MkSys b p (RFbyte n (SIZE b)) s g)
| get_fbyte b p s g n size : step (MkSys b p (RFbyte n size) s g) (MkSys b p (RLbyte n size (FBYTE b)) s g)
| get_lbyte b p s g n size f : step (MkSys b p (RLbyte n size f) s g) (MkSys b p (RTest n size f (LBYTE b)) s g)
| get_fail b p s g n size f l : can_get size f l n = false ->
    step (MkSys b p (RTest n size f l) s g) (MkSys b p RIdle s g)
| get_start b p s g n size f l out : can_get size f l n = true -> zlen out = n ->
    step (MkSys b p (RTest n size f l) s g) (MkSys b p (RCopy n size f (zseq n) out) s g)
| get_byte b p s g n size f todo1 i todo2 out :
    step (MkSys b p (RCopy n size f (todo1 ++ i :: todo2) out) s g)
         (MkSys b p (RCopy n size f (todo1 ++ todo2) (<[Z.to_nat i := zget (SCB b) (place size f i)]> out)) s g)
| get_done b p s g n size f out :
    step (MkSys b p (RCopy n size f [] out) s g) (MkSys (set_FBYTE (place size f n) b) p RIdle s (g ++ out)).
