(* ===== verification/ScbFacts.v ===== *)
(** * Theorems on the shared circular buffers.

    Single calls move a whole message or nothing; a sender and a receiver at work
    at the same time, without locks, keep the bytes in order. *)

From S2P Require Import Prelude Ring Scb.
From stdpp Require Import list sets relations.
#[local] Open Scope Z_scope.

(** ** Indices *)

Lemma place_mod size at_ i : place size at_ i = MOD_SIZE size (at_ + i).
Proof. unfold place, MOD_SIZE. zcases; lia. Qed.

Lemma avail_range size f l : 0 <= f < size -> 0 <= l < size -> 0 <= avail size f l < size.
Proof. unfold avail. zcase; lia. Qed.

Lemma avail_end size f l : 0 <= f < size -> 0 <= l < size -> MOD_SIZE size (f + avail size f l) = l.
Proof. unfold avail, MOD_SIZE. zcases; lia. Qed.

Lemma place_range size at_ i : 0 <= at_ < size -> 0 <= i < size -> 0 <= place size at_ i < size.
Proof. unfold place. zcase; lia. Qed.

Lemma place_inj size at_ i j : 0 <= at_ < size -> 0 <= i < size -> 0 <= j < size ->
  place size at_ i = place size at_ j -> i = j.
Proof. unfold place. zcases; lia. Qed.

Lemma avail_put size f l n : 0 <= f < size -> 0 <= l < size -> 0 <= n -> avail size f l + n < size ->
  avail size f (place size l n) = avail size f l + n.
Proof. unfold avail, place. zcases; lia. Qed.

Lemma avail_get size f l n : 0 <= f < size -> 0 <= l < size -> 0 <= n <= avail size f l ->
  avail size (place size f n) l = avail size f l - n.
Proof. unfold avail, place. zcases; lia. Qed.

Lemma can_put_iff size f l n : 0 <= f < size -> 0 <= l < size ->
  can_put size f l n = true <-> 0 < n /\ n + avail size f l < size.
Proof. intros. unfold can_put, avail. rewrite andb_true_iff, !Z.ltb_lt. zcases; lia. Qed.

Lemma can_get_iff size f l n : 0 <= f < size -> 0 <= l < size ->
  can_get size f l n = true <-> 0 < n <= avail size f l.
Proof. intros. unfold can_get, avail. rewrite andb_true_iff, Z.ltb_lt, Z.leb_le. zcases; lia. Qed.

(** ** Single calls *)

Record scb_ok (b : scb) : Prop := {
  sc_f : 0 <= FBYTE b < SIZE b;
  sc_l : 0 <= LBYTE b < SIZE b;
  sc_mem : zlen (SCB b) = SIZE b
}.
Definition bytes (b : scb) : list byte := cwin (SCB b) (FBYTE b) (rt_scb_avbs b).

Lemma avbs_range b : scb_ok b -> 0 <= rt_scb_avbs b < SIZE b.
Proof. intros []. by apply avail_range. Qed.

Lemma copy_out_spec b n : scb_ok b -> 0 < n <= rt_scb_avbs b ->
  copy_out b n = (ztake n (bytes b), place (SIZE b) (FBYTE b) n).
Proof.
  intros Hok Hn. pose proof (avbs_range b Hok). destruct Hok as [Hf Hl Hm]. unfold bytes.
  rewrite <- (cwin_ztake (SCB b) (FBYTE b) (rt_scb_avbs b) n) by lia. unfold copy_out, place.
  zcase; f_equal.
  - by rewrite cwin_memread by lia.
  - rewrite <- !cwin_memread by lia. replace n with ((SIZE b - FBYTE b) + (n - (SIZE b - FBYTE b))) at 2 by lia.
    rewrite cwin_split by lia. do 3 f_equal. unfold MOD_SIZE. zcase; lia.
Qed.

Lemma copy_in_spec b msg : scb_ok b -> 0 < zlen msg < SIZE b - rt_scb_avbs b ->
  let '(m, l) := copy_in b msg (zlen msg) in
  zlen m = SIZE b /\ l = place (SIZE b) (LBYTE b) (zlen msg) /\
  cwin m (FBYTE b) (rt_scb_avbs b + zlen msg) = bytes b ++ msg.
Proof.
  intros Hok Hn. pose proof (avbs_range b Hok) as Ha. pose proof (avail_end (SIZE b) (FBYTE b) (LBYTE b)) as He.
  destruct Hok as [Hf Hl Hm]. specialize (He Hf Hl). fold (rt_scb_avbs b) in He. unfold bytes.
  set (a := rt_scb_avbs b) in *. set (n := zlen msg) in *. rewrite <- Hm in *. unfold copy_in, place. rewrite <- Hm.
  zcase.
  - split; [apply zlen_memcpy; lia|]. split; [done|].
    rewrite <- He at 1. rewrite cwin_memcpy_append by lia. f_equal. apply ztake_all. lia.
  - set (t := zlen (SCB b) - LBYTE b) in *. set (m := memcpy (SCB b) (LBYTE b) msg t).
    assert (zlen m = zlen (SCB b)) as Em by (apply zlen_memcpy; lia).
    assert (cwin m (FBYTE b) (a + t) = cwin (SCB b) (FBYTE b) a ++ ztake t msg) as E1.
    { unfold m. rewrite <- He at 1. apply cwin_memcpy_append; lia. }
    assert (zlen (zdrop t msg) = n - t) as Ed by (rewrite zlen_zdrop; lia).
    split; [rewrite zlen_memcpy; lia|]. split; [done|].
    assert (MOD_SIZE (zlen m) (FBYTE b + (a + t)) = 0) as E2 by (rewrite Em; revert He; unfold MOD_SIZE, t; zcases; lia).
    replace (a + n) with ((a + t) + (n - t)) by lia. rewrite <- E2.
    rewrite cwin_memcpy_append, E1 by lia. rewrite (ztake_all (n - t)) by lia.
    rewrite <- app_assoc. by rewrite ztake_zdrop.
Qed.

(** On a well-formed buffer of [SIZE] bytes: [rt_scb_put] takes the whole
    message behind the bytes held, when it is not empty and leaves one byte of the
    buffer free, or changes nothing and returns the size; [rt_scb_get] gives the
    oldest bytes, when that many are held, or changes nothing; [rt_scb_evdrp] gives
    the same bytes and leaves them.  [rt_scb_frbs] is one more than what
    [rt_scb_put] takes while the bytes held do not wrap around the end, and more
    than that by the bytes before the end when they do.  [rt_scb_ovrwr] counts the bytes held modulo [SIZE]: once
    it overtakes the receiver, what is left is not what was written last. *)
Theorem scb_calls b msg n : scb_ok b ->
  (let k := zlen msg in
   if (0 <? k) && (k <? SIZE b - rt_scb_avbs b)
   then exists b', rt_scb_put b msg k = (b', 0) /\ scb_ok b' /\ SIZE b' = SIZE b /\ bytes b' = bytes b ++ msg
   else rt_scb_put b msg k = (b, k)) /\
  (if (0 <? n) && (n <=? rt_scb_avbs b)
   then exists b', rt_scb_get b n = (b', ztake n (bytes b), 0) /\ scb_ok b' /\ SIZE b' = SIZE b /\
     bytes b' = zdrop n (bytes b) /\ rt_scb_evdrp b n = (ztake n (bytes b), 0)
   else rt_scb_get b n = (b, [], n) /\ rt_scb_evdrp b n = ([], n)) /\
  rt_scb_frbs b = SIZE b - rt_scb_avbs b + (if FBYTE b <=? LBYTE b then 0 else SIZE b - FBYTE b) /\
  (0 < zlen msg < SIZE b -> rt_scb_avbs (rt_scb_ovrwr b msg (zlen msg)).1 = (rt_scb_avbs b + zlen msg) mod SIZE b).
Proof.
  intros Hok. pose proof (avbs_range b Hok) as Ha. pose proof Hok as [Hf Hl Hm]. split_and!.
  - intros k. pose proof (can_put_iff (SIZE b) (FBYTE b) (LBYTE b) k Hf Hl) as Hc. fold (rt_scb_avbs b) in Hc.
    unfold rt_scb_put. destruct (can_put _ _ _ _).
    + pose proof (copy_in_spec b msg Hok ltac:(lia)) as Hi. fold k in Hi. destruct (copy_in b msg k) as [m l].
      destruct Hi as (Em & -> & Eb). assert ((0 <? k) && (k <? SIZE b - rt_scb_avbs b) = true) as -> by lia.
      eexists. split; [done|]. split; [split; cbn; [done|apply place_range; lia|done]|]. split; [done|].
      unfold bytes at 1, rt_scb_avbs. cbn. rewrite avail_put by (try done; unfold rt_scb_avbs in *; lia). exact Eb.
    + assert ((0 <? k) && (k <? SIZE b - rt_scb_avbs b) = false) as ->; [|done].
      destruct ((0 <? k) && _) eqn:E; zbool; [|done]. by assert (false = true) by (apply Hc; lia).
  - pose proof (can_get_iff (SIZE b) (FBYTE b) (LBYTE b) n Hf Hl) as Hc. fold (rt_scb_avbs b) in Hc.
    unfold rt_scb_get, rt_scb_evdrp. destruct (can_get _ _ _ _).
    + assert ((0 <? n) && (n <=? rt_scb_avbs b) = true) as -> by lia. rewrite copy_out_spec by (try done; lia).
      eexists. split; [done|]. split; [split; cbn; [apply place_range; lia|done|done]|]. split; [done|]. split; [|done].
      unfold bytes at 1, rt_scb_avbs. cbn. rewrite avail_get by (try done; unfold rt_scb_avbs in *; lia).
      rewrite place_mod. fold (rt_scb_avbs b). rewrite <- Hm at 1. unfold bytes. apply cwin_zdrop; lia.
    + assert ((0 <? n) && (n <=? rt_scb_avbs b) = false) as ->; [|done].
      destruct ((0 <? n) && _) eqn:E; zbool; [|done]. by assert (false = true) by (apply Hc; lia).
  - unfold rt_scb_frbs, rt_scb_avbs, avail. zcases; lia.
  - intros Hn. unfold rt_scb_ovrwr. rewrite (proj2 (Z.ltb_lt 0 (zlen msg))), (proj2 (Z.ltb_lt (zlen msg) (SIZE b))) by lia. cbn [andb].
    assert ((copy_in b msg (zlen msg)).2 = place (SIZE b) (LBYTE b) (zlen msg)) as E by (unfold copy_in, place; by zcase).
    destruct (copy_in b msg (zlen msg)) as [m l]. cbn in E |- *. subst l. unfold rt_scb_avbs. cbn.
    apply (Z.mod_unique_pos _ _ (if SIZE b <=? avail (SIZE b) (FBYTE b) (LBYTE b) + zlen msg then 1 else 0)).
    + apply avail_range; [done|apply place_range; lia].
    + unfold rt_scb_avbs, avail, place. zcases; lia.
Qed.

(** ** A sender and a receiver at work *)

(** What the sender has loaded is what is there, but for an index of the receiver
    that may have moved on since. *)
Definition sender_ok (b : scb) (p : sender) : Prop :=
  match p with
  | SIdle | SSize _ => True
  | SFbyte _ size => size = SIZE b
  | SLbyte _ size f => size = SIZE b /\ 0 <= f < size /\ rt_scb_avbs b <= avail size f (LBYTE b)
  | STest _ size f l => size = SIZE b /\ 0 <= f < size /\ rt_scb_avbs b <= avail size f (LBYTE b) /\ l = LBYTE b
  | SCopy msg size l todo => size = SIZE b /\ l = LBYTE b /\ rt_scb_avbs b + zlen msg < size /\
      (forall i, i ∈ todo -> 0 <= i < zlen msg) /\
      forall i, 0 <= i < zlen msg -> i ∉ todo -> zget (SCB b) (place size l i) = zget msg i
  end.
Definition receiver_ok (b : scb) (r : receiver) : Prop :=
  match r with
  | RIdle | RSize _ => True
  | RFbyte _ size => size = SIZE b
  | RLbyte _ size f => size = SIZE b /\ f = FBYTE b
  | RTest _ size f l => size = SIZE b /\ f = FBYTE b /\ 0 <= l < size /\ avail size f l <= rt_scb_avbs b
  | RCopy n size f todo out => size = SIZE b /\ f = FBYTE b /\ 0 < n <= rt_scb_avbs b /\ zlen out = n /\
      (forall i, i ∈ todo -> 0 <= i < n) /\
      forall i, 0 <= i < n -> i ∉ todo -> zget out i = zget (SCB b) (place size f i)
  end.
Record sys_ok (st : sys) : Prop := {
  sy_buf : scb_ok (buf st);
  sy_snd : sender_ok (buf st) (snd_ st);
  sy_rcv : receiver_ok (buf st) (rcv st);
  sy_bytes : sent st = got st ++ bytes (buf st)
}.

Lemma elem_of_zseq n i : i ∈ zseq n <-> 0 <= i < n.
Proof. unfold zseq. rewrite elem_of_seqZ. lia. Qed.

Lemma zget_insert {A} `{Inhabited A} (l : list A) i j x : 0 <= i < zlen l -> 0 <= j ->
  zget (<[Z.to_nat i := x]> l) j = if decide (i = j) then x else zget l j.
Proof.
  intros Hi Hj. unfold zget, zlen in *. case_decide as E.
  - subst. by rewrite list_lookup_total_insert_eq by lia.
  - rewrite list_lookup_total_insert_ne; [done|lia].
Qed.
Lemma zlen_insert {A} (l : list A) k x : zlen (<[k := x]> l) = zlen l.
Proof. unfold zlen. by rewrite length_insert. Qed.

(** A byte of a message being sent is not one of those held. *)
Lemma free_place b i j n : scb_ok b -> rt_scb_avbs b + n < SIZE b -> 0 <= i < n -> 0 <= j < rt_scb_avbs b ->
  place (SIZE b) (LBYTE b) i <> place (SIZE b) (FBYTE b) j.
Proof. intros [Hf Hl _] Hn Hi Hj. unfold rt_scb_avbs, avail, place in *. revert Hn Hj. zcases; lia. Qed.

Lemma put_byte_ok b r g s msg size l todo1 i todo2 :
  sys_ok (MkSys b (SCopy msg size l (todo1 ++ i :: todo2)) r s g) ->
  sys_ok (MkSys (set_SCB (<[Z.to_nat (place size l i) := zget msg i]> (SCB b)) b) (SCopy msg size l (todo1 ++ todo2)) r s g).
Proof.
  intros [Hok (-> & -> & Hn & Hin & Hcop) Hr Hb]. cbn [buf snd_ rcv sent got] in *.
  assert (0 <= i < zlen msg) as Hi by (apply Hin; set_solver).
  pose proof (avbs_range b Hok) as Ha. pose proof Hok as [Hf Hl Hm].
  pose proof (place_range (SIZE b) (LBYTE b) i Hl ltac:(lia)) as Hp.
  assert (forall j, 0 <= j < rt_scb_avbs b -> zget (<[Z.to_nat (place (SIZE b) (LBYTE b) i) := zget msg i]> (SCB b))
      (place (SIZE b) (FBYTE b) j) = zget (SCB b) (place (SIZE b) (FBYTE b) j)) as Hsame.
  { intros j Hj. pose proof (place_range (SIZE b) (FBYTE b) j Hf ltac:(lia)).
    rewrite zget_insert, decide_False by (try lia; by eapply free_place). done. }
  split; cbn [buf snd_ rcv sent got].
  - split; cbn; [done|done|by rewrite zlen_insert].
  - cbn. split_and!; try done; [set_solver|]. intros j Hj Hjt.
    pose proof (place_range (SIZE b) (LBYTE b) j Hl ltac:(lia)). rewrite zget_insert by lia. case_decide as E.
    + apply place_inj in E; [by subst|lia..].
    + apply Hcop; [done|]. set_solver.
  - destruct r; try exact Hr. cbn [receiver_ok] in *. destruct Hr as (-> & -> & Hn' & Ho & Hin' & Hc). split_and!; try done; [exact (proj1 Hn')|exact (proj2 Hn')|].
    intros j Hj Hjt. cbn [set_SCB SCB]. rewrite Hsame by (unfold rt_scb_avbs in *; lia). by apply Hc.
  - rewrite Hb. f_equal. unfold bytes. cbn. apply cwin_ext. intros j Hj. rewrite zlen_insert, Hm, <- !place_mod.
    symmetry. apply Hsame. exact Hj.
Qed.

Lemma put_done_ok b r g s msg size l : sys_ok (MkSys b (SCopy msg size l []) r s g) ->
  sys_ok (MkSys (set_LBYTE (place size l (zlen msg)) b) SIdle r (s ++ msg) g).
Proof.
  intros [Hok (-> & -> & Hn & _ & Hcop) Hr Hb]. cbn [buf snd_ rcv sent got] in *.
  pose proof (avbs_range b Hok) as Ha. pose proof Hok as [Hf Hl Hm]. pose proof (zlen_nonneg msg).
  set (b' := set_LBYTE _ b). assert (rt_scb_avbs b' = rt_scb_avbs b + zlen msg) as E.
  { unfold rt_scb_avbs. cbn. apply avail_put; try done. }
  split; cbn [buf snd_ rcv sent got]; [split; cbn; [done|apply place_range; lia|done]|done| |].
  - destruct r; cbn in *; rewrite ?E; try done; intuition lia.
  - rewrite Hb, <- app_assoc. f_equal. unfold bytes. rewrite E. change (FBYTE b') with (FBYTE b). change (SCB b') with (SCB b).
    rewrite cwin_split by lia. f_equal. apply zlist_eq; rewrite ?zlen_cwin; [lia|]. intros i Hi.
    rewrite zget_cwin by lia. pose proof (avail_end (SIZE b) (FBYTE b) (LBYTE b) Hf Hl) as He.
    fold (rt_scb_avbs b) in He. rewrite !Hm, He.
    rewrite <- place_mod. symmetry. apply Hcop; [lia|set_solver].
Qed.

Lemma get_done_ok b p g s n size f out : sys_ok (MkSys b p (RCopy n size f [] out) s g) ->
  sys_ok (MkSys (set_FBYTE (place size f n) b) p RIdle s (g ++ out)).
Proof.
  intros [Hok Hs (-> & -> & Hn & Ho & _ & Hcop) Hb]. cbn [buf snd_ rcv sent got] in *.
  pose proof (avbs_range b Hok) as Ha. pose proof Hok as [Hf Hl Hm].
  set (b' := set_FBYTE _ b). assert (rt_scb_avbs b' = rt_scb_avbs b - n) as E.
  { unfold rt_scb_avbs in *. cbn. apply avail_get; try done. lia. }
  assert (out = ztake n (bytes b)) as Eo.
  { unfold bytes. rewrite <- (cwin_ztake (SCB b) (FBYTE b) (rt_scb_avbs b) n) by lia.
    apply zlist_eq; rewrite ?zlen_cwin; [lia|]. intros i Hi. rewrite zget_cwin, Hm, <- place_mod by lia. apply Hcop; [lia|set_solver]. }
  split; cbn [buf snd_ rcv sent got]; [split; cbn; [apply place_range; lia|done|done]| |done|].
  - destruct p; cbn in *; rewrite ?E; try done; intuition lia.
  - rewrite Hb, <- app_assoc. f_equal. rewrite <- (ztake_zdrop n (bytes b)), <- Eo. f_equal. unfold bytes. rewrite E.
    change (FBYTE b') with (place (SIZE b) (FBYTE b) n). change (SCB b') with (SCB b).
    rewrite place_mod. rewrite <- Hm at 1. symmetry. apply cwin_zdrop; lia.
Qed.

Lemma step_ok st st' : step st st' -> sys_ok st -> sys_ok st'.
Proof.
  intros Hst Hok. destruct Hst; try by apply put_byte_ok.
  all: try by eapply put_done_ok.
  all: try by eapply get_done_ok.
  all: destruct Hok as [Hbok Hs Hr Hb]; cbn [buf snd_ rcv sent got] in *; split; cbn [buf snd_ rcv sent got]; try done.
  all: pose proof (avbs_range b Hbok); pose proof Hbok as [Hf Hl Hm]; cbn [sender_ok receiver_ok] in *.
  - subst size. split_and!; try done; lia.
  - destruct Hs as (-> & ? & ?). split_and!; try done; lia.
  - destruct Hs as (-> & Hf' & Ha & ->). apply can_put_iff in H; [|done|done]. split_and!; try done; [lia| |].
    + intros i. apply elem_of_zseq.
    + intros i Hi Hn. exfalso. apply Hn. by apply elem_of_zseq.
  - destruct Hr as (-> & ->). split_and!; try done; lia.
  - destruct Hr as (-> & -> & Hl' & Ha). apply can_get_iff in H; [|done|done]. split_and!; try done; [lia|lia| |].
    + intros i. apply elem_of_zseq.
    + intros i Hi Hn. exfalso. apply Hn. by apply elem_of_zseq.
  - destruct Hr as (-> & -> & Hn & Ho & Hin & Hc). assert (0 <= i < n) as Hi by (apply Hin; set_solver).
    split_and!; try done; [lia|lia|by rewrite zlen_insert|set_solver|].
    intros j Hj Hjt. rewrite zget_insert by lia. case_decide as E; [by subst|]. apply Hc; [done|]. set_solver.
Qed.

(** C24. A sender that calls [rt_scb_put] and a receiver that calls [rt_scb_get],
    again and again and at the same time, with no lock: however their loads, the
    bytes of their copies in any order, and their stores of the index interleave,
    what was received followed by what the buffer holds is what was sent.  So the
    bytes received are the first ones sent, in order, none torn or twice. *)
Theorem scb_lock_free b st : scb_ok b -> bytes b = [] ->
  rtc step (MkSys b SIdle RIdle [] []) st ->
  sent st = got st ++ bytes (buf st) /\ scb_ok (buf st).
Proof.
  intros Hok Hb Hst. assert (sys_ok (MkSys b SIdle RIdle [] [])) as H0 by (split; cbn; [done|done|done|by rewrite Hb]).
  remember (MkSys b SIdle RIdle [] []) as st0. clear Heqst0. induction Hst as [|x y z Hxy _ IH].
  - by destruct H0.
  - apply IH. by eapply step_ok.
Qed.

(** *** A call alone

    The memory [m] after [k] bytes of [msg] have been copied. *)
Definition copied (b : scb) (msg : list byte) (k : Z) (m : list byte) : Prop :=
  zlen m = SIZE b /\
  (forall i, 0 <= i < k -> zget m (place (SIZE b) (LBYTE b) i) = zget msg i) /\
  forall x, 0 <= x < SIZE b -> (forall i, 0 <= i < k -> x <> place (SIZE b) (LBYTE b) i) -> zget m x = zget (SCB b) x.

Lemma copied_unique b msg k m m' : scb_ok b -> 0 <= k < SIZE b -> copied b msg k m -> copied b msg k m' -> m = m'.
Proof.
  intros [Hf Hl Hm] Hk (E & Hin & Hout) (E' & Hin' & Hout'). apply zlist_eq; [congruence|]. rewrite E. intros x Hx.
  set (i := if LBYTE b <=? x then x - LBYTE b else x + SIZE b - LBYTE b).
  assert (x = place (SIZE b) (LBYTE b) i /\ 0 <= i < SIZE b) as [Hp Hi] by (unfold i, place; zcases; lia).
  destruct (decide (i < k)); [by rewrite Hp, Hin, Hin' by lia|].
  assert (forall j, 0 <= j < k -> x <> place (SIZE b) (LBYTE b) j) as Hx'.
  { intros j Hj Ej. rewrite Hp in Ej. apply place_inj in Ej; lia. }
  by rewrite Hout, Hout'.
Qed.

Lemma copied_next b msg k m : scb_ok b -> 0 <= k < SIZE b -> copied b msg k m ->
  copied b msg (k + 1) (<[Z.to_nat (place (SIZE b) (LBYTE b) k) := zget msg k]> m).
Proof.
  intros [Hf Hl Hm] Hk (E & Hin & Hout). pose proof (place_range (SIZE b) (LBYTE b) k Hl Hk).
  split; [by rewrite zlen_insert|]. split.
  - intros i Hi. pose proof (place_range (SIZE b) (LBYTE b) i Hl ltac:(lia)). rewrite zget_insert by lia.
    case_decide as Ei; [by rewrite (place_inj (SIZE b) (LBYTE b) k i Hl Hk ltac:(lia) Ei)|]. apply Hin. destruct (decide (i = k)); [by subst|lia].
  - intros x Hx Hne. rewrite zget_insert, decide_False by (first [lia|intros Ex; apply (Hne k); [lia|done]]).
    apply Hout; [done|]. intros i Hi. apply Hne. lia.
Qed.

Lemma copy_in_copied b msg : scb_ok b -> 0 < zlen msg < SIZE b -> copied b msg (zlen msg) (copy_in b msg (zlen msg)).1.
Proof.
  intros [Hf Hl Hm] Hn. unfold copied, copy_in. zcase; cbn [fst].
  - split; [rewrite zlen_memcpy; lia|]. split.
    + intros i Hi. unfold place. zcase; [|lia]. rewrite zget_memcpy by lia.
      assert ((LBYTE b <=? LBYTE b + i) && (LBYTE b + i <? LBYTE b + zlen msg) = true) as -> by lia. f_equal. lia.
    + intros x Hx Hne. rewrite zget_memcpy by lia. destruct (_ && _) eqn:E'; [zbool|done].
      exfalso. apply (Hne (x - LBYTE b)); [lia|]. unfold place. zcase; lia.
  - set (t := SIZE b - LBYTE b) in *. assert (zlen (memcpy (SCB b) (LBYTE b) msg t) = SIZE b) as E1 by (rewrite zlen_memcpy; lia).
    assert (zlen (zdrop t msg) = zlen msg - t) as E2 by (rewrite zlen_zdrop; lia).
    split; [rewrite zlen_memcpy; lia|].
    assert (forall x, 0 <= x < SIZE b -> zget (memcpy (memcpy (SCB b) (LBYTE b) msg t) 0 (zdrop t msg) (zlen msg - t)) x =
      if x <? zlen msg - t then zget msg (x + t) else if LBYTE b <=? x then zget msg (x - LBYTE b) else zget (SCB b) x) as Hz.
    { intros x Hx. rewrite !zget_memcpy by lia. rewrite Z.add_0_l, Z.sub_0_r, zget_zdrop by lia.
      rewrite (Z.add_comm t x). assert ((0 <=? x) = true) as -> by lia. cbn [andb].
      replace (LBYTE b + t) with (SIZE b) by lia. assert ((x <? SIZE b) = true) as -> by lia. by rewrite andb_true_r. }
    split.
    + intros i Hi. rewrite Hz by (apply place_range; lia). unfold place. fold t. zcases; try lia; f_equal; lia.
    + intros x Hx Hne. rewrite Hz by done. zcases; [| |done].
      * exfalso. apply (Hne (x + t)); [lia|]. unfold place. fold t. zcase; lia.
      * exfalso. apply (Hne (x - LBYTE b)); [lia|]. unfold place. fold t. zcase; lia.
Qed.

Lemma put_bytes b r s g msg : scb_ok b -> zlen msg < SIZE b ->
  rtc step (MkSys b (SCopy msg (SIZE b) (LBYTE b) (zseq (zlen msg))) r s g)
    (MkSys (set_SCB (copy_in b msg (zlen msg)).1 b) (SCopy msg (SIZE b) (LBYTE b) []) r s g) \/ zlen msg <= 0.
Proof.
  intros Hok Hn. destruct (decide (zlen msg <= 0)) as [|Hpos]; [by right|left].
  assert (forall d k m, d = Z.to_nat (zlen msg - k) -> 0 <= k <= zlen msg -> copied b msg k m ->
    exists m', copied b msg (zlen msg) m' /\
      rtc step (MkSys (set_SCB m b) (SCopy msg (SIZE b) (LBYTE b) (seqZ k (zlen msg - k))) r s g)
        (MkSys (set_SCB m' b) (SCopy msg (SIZE b) (LBYTE b) []) r s g)) as Hloop.
  { induction d as [|d IH]; intros k m Hd Hk Hc.
    - replace k with (zlen msg) in * by lia. rewrite Z.sub_diag. exists m. split; [done|apply rtc_refl].
    - destruct (IH (k + 1) (<[Z.to_nat (place (SIZE b) (LBYTE b) k) := zget msg k]> m)) as (m' & Hm' & Hst); [lia|lia|apply copied_next; [done|lia|done]|].
      exists m'. split; [done|]. rewrite seqZ_cons by lia. eapply rtc_l; [apply (put_byte _ _ _ _ _ _ _ [] k)|].
      replace (zlen msg - (k + 1)) with (Z.pred (zlen msg - k)) in Hst by lia. rewrite <- Z.add_1_r. exact Hst. }
  destruct (Hloop _ 0 (SCB b) eq_refl) as (m' & Hm' & Hst); [lia| |].
  { split; [apply Hok|]. split; [lia|done]. }
  rewrite (copied_unique b msg (zlen msg) _ _ Hok ltac:(lia) Hm' (copy_in_copied b msg Hok ltac:(lia))) in Hst.
  rewrite Z.sub_0_r in Hst. destruct b. exact Hst.
Qed.

(** The steps of a sender, run alone from an idle state, can only come back to
    an idle state as [rt_scb_put] says: there is such a run, to the buffer that
    [rt_scb_put] gives, memory included, with the message sent when it succeeds. *)
Theorem scb_put_alone b r s g msg : scb_ok b ->
  let '(b', res) := rt_scb_put b msg (zlen msg) in
  rtc step (MkSys b SIdle r s g) (MkSys b' SIdle r (if res =? 0 then s ++ msg else s) g).
Proof.
  intros Hok. pose proof (avbs_range b Hok). pose proof Hok as [Hf Hl Hm].
  pose proof (can_put_iff (SIZE b) (FBYTE b) (LBYTE b) (zlen msg) Hf Hl) as Hc. fold (rt_scb_avbs b) in Hc.
  assert (rtc step (MkSys b SIdle r s g) (MkSys b (STest msg (SIZE b) (FBYTE b) (LBYTE b)) r s g)) as Hload.
  { eapply rtc_l; [apply put_call|]. eapply rtc_l; [apply put_size|]. eapply rtc_l; [apply put_fbyte|].
    eapply rtc_l; [apply put_lbyte|]. apply rtc_refl. }
  unfold rt_scb_put. destruct (can_put _ _ _ _) eqn:Ec.
  - pose proof (proj1 Hc eq_refl) as Hn. destruct (copy_in b msg (zlen msg)) as [m l] eqn:Ei.
    assert (l = place (SIZE b) (LBYTE b) (zlen msg)) as ->.
    { assert ((copy_in b msg (zlen msg)).2 = place (SIZE b) (LBYTE b) (zlen msg)) as E by (unfold copy_in, place; by zcase).
      by rewrite Ei in E. }
    etrans; [exact Hload|]. eapply rtc_l; [by apply put_start|].
    destruct (put_bytes b r s g msg Hok ltac:(lia)) as [Hst|]; [|lia]. rewrite Ei in Hst.
    etrans; [exact Hst|]. eapply rtc_l; [apply put_done|]. apply rtc_refl.
  - etrans; [exact Hload|]. eapply rtc_l; [by apply put_fail|].
    pose proof (zlen_nonneg msg). destruct (zlen msg =? 0) eqn:E0; [|apply rtc_refl].
    zbool. assert (msg = []) as -> by (destruct msg; [done|unfold zlen in E0; cbn in E0; lia]).
    rewrite app_nil_r. apply rtc_refl.
Qed.

(** *** Examples *)

Definition example_scb : scb := MkScb 4 2 2 (repeat Byte.x00 4).
Definition ab : list byte := [Byte.x61; Byte.x62; Byte.x63].

Lemma example_ok : scb_ok example_scb.
Proof. by split. Qed.


(** The receiver sees the bytes of a message only after the index is stored. *)
Lemma scb_lock_free_witness : exists st, scb_ok example_scb /\ bytes example_scb = [] /\
  rtc step (MkSys example_scb SIdle RIdle [] []) st /\ sent st = [Byte.x61] /\
  sent st = got st ++ bytes (buf st) /\ scb_ok (buf st).
Proof.
  set (s1 := MkSys (MkScb 4 2 3 [Byte.x00; Byte.x00; Byte.x61; Byte.x00]) SIdle (RFbyte 1 4) [Byte.x61] []).
  assert (rtc step (MkSys example_scb SIdle RIdle [] []) s1) as Hst.
  { eapply rtc_l; [apply (put_call _ _ _ _ [Byte.x61])|]. eapply rtc_l; [apply put_size|].
    eapply rtc_l; [apply get_call with (n := 1)|]. eapply rtc_l; [apply put_fbyte|]. eapply rtc_l; [apply get_size|].
    eapply rtc_l; [apply put_lbyte|]. eapply rtc_l; [by apply put_start|].
    eapply rtc_l; [apply (put_byte _ _ _ _ _ _ _ [] 0 [])|]. eapply rtc_l; [apply put_done|]. apply rtc_refl. }
  exists s1. split; [exact example_ok|]. split; [reflexivity|]. split; [exact Hst|]. split; [reflexivity|].
  exact (scb_lock_free example_scb s1 example_ok eq_refl Hst).
Defined.
