(* ===== verification/Shm.v ===== *)
(** * Shared memory and the named chunks of the real time heaps (shm.c).

    The chunk of a name is had from Linux by the first that asks for it and given
    back by the last that frees it; the registry counts the users in between. *)

From S2P Require Import Prelude Registry Tlsf.
From S2P Require Heap.

Definition PAGE_SIZE := 4096.
Definition PAGE_MASK := Z.lnot (PAGE_SIZE - 1).
Definition ALIGN2PAGE (adr : Z) : Z := Z.land (u64 (adr + PAGE_SIZE - 1)) PAGE_MASK.
Definition GLOBAL_HEAP_ID := 0x9ac6d9e7.
Definition SUPRT_len := 4.

(** The registry, the chunks Linux has given and not got back, and the name a
    process passes from its allocation to its mapping. *)
Record shm := MkShm { sreg : registry; pages : list Z; tskext1 : Z }.
Definition set_sreg (r : registry) (s : shm) : shm := MkShm r (pages s) (tskext1 s).

(** [mem] is what [vmalloc] or [kmalloc] gives, 0 for nothing; [soft] tells that the
    caller is not in hard real time.  [rkmalloc] takes what alignment costs off the
    size. *)
Definition _rt_shm_alloc (soft : bool) (mem name size suprt : Z) (s : shm) : Z * shm :=
  let '(adr, r) := get_adr_cnt name (sreg s) in
  let s := set_sreg r s in
  if negb (adr =? 0) then (ALIGN2PAGE adr, s)
  else if (0 <? size) && (0 <=? suprt) && (suprt <? SUPRT_len) && soft then
    let size := i32 (Z.land (size - 1) PAGE_MASK + PAGE_SIZE) in
    if mem =? 0 then (ALIGN2PAGE 0, s)
    else
      let size := if negb (suprt =? 0) then i32 (size - (ALIGN2PAGE mem - mem)) else size in
      let '(k, r) := rt_register name mem (if negb (suprt =? 0) then - size else size) 0 (sreg s) in
      if k =? 0 then (0, s)
      else (ALIGN2PAGE mem, MkShm r (mem :: pages s) (tskext1 s))
  else (ALIGN2PAGE 0, s).

Definition _rt_shm_free (soft : bool) (name size : Z) (s : shm) : Z * shm :=
  let adr := get_adr name (sreg s) in
  if negb (size =? 0) && negb (adr =? 0) then
    let s :=
      if soft then
        let '(n, r) := drg_on_name_cnt name (sreg s) in
        let s := set_sreg r s in
        if (n =? 0) && negb (name =? GLOBAL_HEAP_ID)
        then MkShm r (filter (fun a => a <> adr) (pages s)) (tskext1 s) else s
      else s in
    (Z.abs size, s)
  else (0, s).

Definition rt_shm_alloc (soft : bool) (mem name size suprt : Z) (s : shm) : Z * shm :=
  _rt_shm_alloc soft mem name size suprt s.
Definition rt_shm_free (soft : bool) (name : Z) (s : shm) : Z * shm :=
  _rt_shm_free soft name (get_type name (sreg s)) s.

(** From user space: the size, and the name kept for the mapping that follows. *)
Definition rt_shm_alloc_usp (soft : bool) (mem name size suprt : Z) (s : shm) : Z * shm :=
  let '(adr, s) := _rt_shm_alloc soft mem name size suprt s in
  if negb (adr =? 0) then (Z.abs (get_type name (sreg s)), MkShm (sreg s) (pages s) name)
  else (0, s).

(** The mappings of a process: start, end and name. *)
Definition vma := (Z * Z * Z)%type.
Fixpoint find_vma (name size : Z) (l : list vma) : option Z :=
  match l with
  | [] => None
  | (st, en, nm) :: l => if (nm =? name) && (en - st =? size) then Some st else find_vma name size l
  end.
(** The size, and where the chunk is mapped; [arg] stays the name when it is not. *)
Definition rt_shm_size (name : Z) (l : list vma) (s : shm) : Z * Z :=
  let size := i32 (Z.abs (get_type name (sreg s))) in
  match find_vma name size l with Some st => (size, st) | None => (0, name) end.

(** A mapping is duplicated, or goes. *)
Definition rtai_shm_vm_open (name : Z) (s : shm) : shm := set_sreg (get_adr_cnt name (sreg s)).2 s.
Definition rtai_shm_vm_close (soft : bool) (name : Z) (s : shm) : shm := (rt_shm_free soft name s).2.

(** ** The heaps of a task

    What the shared memory services promise to the named chunks below: an
    allocator.  [None] is an access out of its tables. *)
Class Allocator (H : Type) := {
  halloc : Z -> H -> option (Z * H);
  hfree : Z -> H -> option H
}.
(** What its users rely on: [allocated h l] says that exactly the addresses [l] are out. A
    request of up to [alloc_limit] bytes gives none of them, or null. *)
Class AllocatorLaws (H : Type) `{Allocator H} := {
  alloc_limit : Z;
  allocated : H -> list Z -> Prop;
  halloc_law : forall h l size, allocated h l -> 0 <= size <= alloc_limit ->
    exists p h', halloc size h = Some (p, h') /\
      ((p = 0 /\ allocated h' l) \/ (p <> 0 /\ (p ∉ l) /\ allocated h' (p :: l)));
  hfree_law : forall h l p l', allocated h l -> l ≡ₚ p :: l' ->
    exists h', hfree p h = Some h' /\ allocated h' l'
}.
#[export] Instance tlsf_allocator : Allocator Tlsf.rtheap := {
  halloc := fun size h => Tlsf.rtheap_alloc h size;
  hfree := fun p h => Tlsf.rtheap_free h p
}.
#[export] Instance bsd_allocator : Allocator (Heap.rtheap * Heap.memory) := {
  halloc := fun size hm => let '(p, h, m) := Heap.rtheap_alloc hm.1 size hm.2 in Some (p, (h, m));
  hfree := fun p hm => match Heap.rtheap_free hm.1 p hm.2 with Some (_, h, m) => Some (h, m) | None => None end
}.

Section heaps.
Context {H : Type} `{Allocator H} (irandu : nat -> Z -> Z).

(** Where a heap is for the kernel and for the user of it. *)
Record window := MkWindow { kadr : Z; uadr : Z }.
(** The global heap and the group heap of the task, with the windows of Linux and of
    the task; there may be no task. *)
Record heaps := MkHeaps {
  hreg : registry; gheap : H; sheap : H; linux_win : window; task_gwin : window; task_swin : window; has_task : bool
}.
Definition set_hreg (r : registry) (s : heaps) : heaps :=
  MkHeaps r (gheap s) (sheap s) (linux_win s) (task_gwin s) (task_swin s) (has_task s).
Definition set_gheap (h : H) (s : heaps) : heaps :=
  MkHeaps (hreg s) h (sheap s) (linux_win s) (task_gwin s) (task_swin s) (has_task s).
Definition set_sheap (h : H) (s : heaps) : heaps :=
  MkHeaps (hreg s) (gheap s) h (linux_win s) (task_gwin s) (task_swin s) (has_task s).

Inductive htype := GLOBAL | SPECIFIC.
Definition task_heap (t : htype) (s : heaps) : H := match t with GLOBAL => gheap s | SPECIFIC => sheap s end.
Definition task_win (t : htype) (s : heaps) : window := match t with GLOBAL => task_gwin s | SPECIFIC => task_swin s end.
Definition set_task_heap (t : htype) (h : H) (s : heaps) : heaps :=
  match t with GLOBAL => set_gheap h s | SPECIFIC => set_sheap h s end.

Definition _rt_halloc (size : Z) (w : window) (h : H) : option (Z * H) :=
  match halloc size h with
  | Some (p, h) => Some (if negb (p =? 0) then uadr w + (p - kadr w) else 0, h)
  | None => None
  end.
Definition _rt_hfree (addr : Z) (w : window) (h : H) : option H := hfree (kadr w + (addr - uadr w)) h.

Definition rt_halloc_typed (size : Z) (t : htype) (s : heaps) : option (Z * heaps) :=
  if has_task s then
    match _rt_halloc size (task_win t s) (task_heap t s) with
    | Some (p, h) => Some (p, set_task_heap t h s)
    | None => None
    end
  else Some (0, s).
Definition rt_hfree_typed (addr : Z) (t : htype) (s : heaps) : option heaps :=
  if has_task s then
    match _rt_hfree addr (task_win t s) (task_heap t s) with
    | Some h => Some (set_task_heap t h s)
    | None => None
    end
  else Some s.

Definition IS_HPCK := 6.

Definition rt_named_halloc_typed (name size : Z) (t : htype) (s : heaps) : option (Z * heaps) :=
  if has_task s then
    let '(p, r) := get_adr_cnt name (hreg s) in
    let s := set_hreg r s in
    let w := task_win t s in
    if negb (p =? 0) then Some (uadr w + (p - kadr w), s)
    else
      match _rt_halloc size w (task_heap t s) with
      | None => None
      | Some (p, h) =>
          let s := set_task_heap t h s in
          if negb (p =? 0) then
            let '(k, r) := rt_register name (kadr w + (p - uadr w)) IS_HPCK 0 (hreg s) in
            if negb (k =? 0) then Some (p, set_hreg r s)
            else
              match _rt_hfree p w (task_heap t s) with
              | Some h => Some (0, set_task_heap t h s)
              | None => None
              end
          else Some (0, s)
      end
  else Some (0, s).

Definition rt_named_hfree_typed (adr : Z) (t : htype) (s : heaps) : option heaps :=
  if has_task s then
    let w := task_win t s in
    let name := get_name irandu (kadr w + (adr - uadr w)) (hreg s) in
    let '(n, r) := drg_on_name_cnt name (hreg s) in
    let s := set_hreg r s in
    if n =? 0 then
      match _rt_hfree adr w (task_heap t s) with
      | Some h => Some (set_task_heap t h s)
      | None => None
      end
    else Some s
  else Some s.

Definition rt_halloc (size : Z) (s : heaps) := rt_halloc_typed size SPECIFIC s.
Definition rt_hfree (adr : Z) (s : heaps) := rt_hfree_typed adr SPECIFIC s.
Definition rt_named_halloc (name size : Z) (s : heaps) := rt_named_halloc_typed name size SPECIFIC s.
Definition rt_named_hfree (adr : Z) (s : heaps) := rt_named_hfree_typed adr SPECIFIC s.
(** From user space; [glob] tells that there is a global heap. *)
Definition rt_malloc_usp (glob : bool) (size : Z) (s : heaps) :=
  if glob then rt_halloc_typed size GLOBAL s else Some (0, s).
Definition rt_free_usp (glob : bool) (adr : Z) (s : heaps) :=
  if glob then rt_hfree_typed adr GLOBAL s else Some s.
Definition rt_named_malloc_usp (glob : bool) (name size : Z) (s : heaps) :=
  if glob then rt_named_halloc_typed name size GLOBAL s else Some (0, s).
Definition rt_named_free_usp (glob : bool) (adr : Z) (s : heaps) :=
  if glob then rt_named_hfree_typed adr GLOBAL s else Some s.

(** In the kernel.  When the name cannot be registered the chunk goes to [rt_hfree],
    that is, to the group heap of the task. *)
Definition rt_named_malloc (name size : Z) (s : heaps) : option (Z * heaps) :=
  let '(p, r) := get_adr_cnt name (hreg s) in
  let s := set_hreg r s in
  if negb (p =? 0) then Some (p, s)
  else
    match _rt_halloc size (linux_win s) (gheap s) with
    | None => None
    | Some (p, h) =>
        let s := set_gheap h s in
        if negb (p =? 0) then
          let '(k, r) := rt_register name p IS_HPCK 0 (hreg s) in
          if negb (k =? 0) then Some (p, set_hreg r s)
          else match rt_hfree p s with Some s => Some (0, s) | None => None end
        else Some (0, s)
    end.
Definition rt_named_free (adr : Z) (s : heaps) : option heaps :=
  let name := get_name irandu adr (hreg s) in
  let '(n, r) := drg_on_name_cnt name (hreg s) in
  let s := set_hreg r s in
  if n =? 0 then
    match _rt_hfree adr (linux_win s) (gheap s) with
    | Some h => Some (set_gheap h s)
    | None => None
    end
  else Some s.

End heaps.
Arguments heaps : clear implicits.
