(* ===== verification/ShmFacts.v ===== *)
(** * Theorems on the shared memory. *)

From S2P Require Import Prelude Registry RegistryFacts Shm.
From stdpp Require Import list sets.
#[local] Open Scope Z_scope.

(** ** Users of one name *)

(** The caller of each is in hard real time or not. *)
Inductive shm_op := SAlloc (soft : bool) (mem size suprt : Z) | SFree (soft : bool).

(** The users are the requests that were granted and not released outside hard real time. *)
Definition shm_step (name : Z) (o : shm_op) (users : Z) (s : shm) : Z * shm :=
  match o with
  | SAlloc soft mem size suprt =>
      let '(a, s) := rt_shm_alloc soft mem name size suprt s in (if a =? 0 then users else users + 1, s)
  | SFree soft => let '(n, s) := rt_shm_free soft name s in (if (n =? 0) || negb soft then users else users - 1, s)
  end.
Fixpoint shm_run (name : Z) (os : list shm_op) (users : Z) (s : shm) : Z * shm :=
  match os with
  | [] => (users, s)
  | o :: os => let '(users, s) := shm_step name o users s in shm_run name os users s
  end.

(** What Linux gives is new, and what is asked for is an [int] with room for a page. *)
Definition op_fresh (name : Z) (s : shm) (o : shm_op) : Prop :=
  match o with
  | SAlloc _ mem size _ => size < 2 ^ 31 - PAGE_SIZE /\
      (mem = 0 \/ 1 < mem < 2 ^ 64 - PAGE_SIZE /\ mem ∉ pages s /\ forall nm, ~ binds (sreg s) nm mem)
  | SFree _ => True
  end.

(** The chunk is there as long as the name has users. *)
Record shm_ok (name : Z) (s0 : shm) (users : Z) (s : shm) : Prop := {
  so_reg : reg_ok (sreg s);
  so_others : forall nm a, nm <> name -> binds (sreg s) nm a <-> binds (sreg s0) nm a;
  so_users : users = 0 /\ pages s = pages s0 /\ (forall a, ~ binds (sreg s) name a) \/
    0 < users /\ exists a ty, pages s = a :: pages s0 /\ held (sreg s) name a ty users /\ ty <> 0 /\
      1 < a < 2 ^ 64 - PAGE_SIZE /\ a ∉ pages s0 /\ forall nm, ~ binds (sreg s0) nm a
}.

Lemma align_range a : 0 <= a < 2 ^ 64 - PAGE_SIZE -> a <= ALIGN2PAGE a < a + PAGE_SIZE.
Proof.
  intros Ha. unfold ALIGN2PAGE, PAGE_MASK. rewrite wrapu_small by (unfold PAGE_SIZE in *; lia).
  change (PAGE_SIZE - 1) with (Z.ones 12). rewrite <- Z.ldiff_land, Z.ldiff_ones_r, Z.shiftl_mul_pow2, Z.shiftr_div_pow2 by lia.
  change (2 ^ 12) with PAGE_SIZE. unfold PAGE_SIZE in *.
  pose proof (Z.div_mod (a + 4096 - 1) 4096 ltac:(lia)). pose proof (Z.mod_pos_bound (a + 4096 - 1) 4096 ltac:(lia)). lia.
Qed.

Lemma chunk_size size : 0 < size < 2 ^ 31 - PAGE_SIZE ->
  PAGE_SIZE <= i32 (Z.land (size - 1) PAGE_MASK + PAGE_SIZE) < 2 ^ 31.
Proof.
  intros Hs. unfold PAGE_MASK. change (PAGE_SIZE - 1) with (Z.ones 12).
  rewrite <- Z.ldiff_land, Z.ldiff_ones_r, Z.shiftl_mul_pow2, Z.shiftr_div_pow2 by lia. change (2 ^ 12) with PAGE_SIZE.
  unfold PAGE_SIZE in *. pose proof (Z.div_mod (size - 1) 4096 ltac:(lia)). pose proof (Z.mod_pos_bound (size - 1) 4096 ltac:(lia)).
  assert (0 <= (size - 1) / 4096) by (apply Z.div_pos; lia). rewrite wraps_small by lia. lia.
Qed.

Lemma alloc_ok name s0 users s soft mem size suprt : 1 < name -> shm_ok name s0 users s -> users + 1 < 2 ^ 16 ->
  op_fresh name s0 (SAlloc soft mem size suprt) ->
  let '(users', s') := shm_step name (SAlloc soft mem size suprt) users s in
  shm_ok name s0 users' s' /\ users <= users' <= users + 1.
Proof.
  intros Hnm [Hok Hoth Husers] Hu [Hsize Hmem]. cbn [shm_step]. unfold rt_shm_alloc, _rt_shm_alloc.
  destruct Husers as [(-> & Hp & Hno)|(Hpos & a & ty & Hp & Hh & Hty & Ha & Hap & Han)].
  - rewrite (get_adr_cnt_none _ _ Hok Hnm Hno). cbn [Z.eqb negb].
    assert (shm_ok name s0 0 (set_sreg (sreg s) s)) as Hsame by (split; cbn; auto).
    destruct ((0 <? size) && (0 <=? suprt) && (suprt <? SUPRT_len) && soft) eqn:Eb; [zbool|change (ALIGN2PAGE 0 =? 0) with true; by split; [|lia]].
    destruct Hmem as [->|(Hm & Hmp & Hmn)]; [cbn [Z.eqb]; change (ALIGN2PAGE 0 =? 0) with true; by split; [|lia]|].
    rewrite (proj2 (Z.eqb_neq mem 0)) by lia.
    pose proof (chunk_size size ltac:(lia)) as Hc. set (sz := i32 (Z.land _ _ + _)) in *. clearbody sz.
    pose proof (align_range mem ltac:(lia)) as Hal.
    set (sz' := if negb (suprt =? 0) then i32 (sz - (ALIGN2PAGE mem - mem)) else sz).
    assert (0 < sz') as Hsz. { unfold sz', PAGE_SIZE in *. destruct (negb _); [rewrite wraps_small by lia|]; lia. }
    clearbody sz'. set (t := if negb (suprt =? 0) then - sz' else sz'). assert (t <> 0) as Ht by (unfold t; destruct (negb _); lia).
    clearbody t. cbn [sreg set_sreg].
    assert (forall nm, ~ binds (sreg s) nm mem) as Hnn.
    { intros nm Hb. destruct (decide (nm = name)) as [->|Hne]; [by eapply Hno|]. apply Hoth in Hb; [by eapply Hmn|done]. }
    destruct (register_held name mem t 0 (sreg s) Hok Hnm ltac:(lia) Hno Hnn) as [(k & r' & -> & Hk & Hr & Hh & Hb)| ->].
    + rewrite (proj2 (Z.eqb_neq k 0)), (proj2 (Z.eqb_neq (ALIGN2PAGE mem) 0)) by lia. split; [|lia]. split; cbn; [done| |].
      * intros nm a Hne. rewrite Hb, Hoth by done. naive_solver.
      * right. split; [lia|]. exists mem, t. rewrite Hp. split_and!; try done; lia.
    + cbn [Z.eqb]. by split; [|lia].
  - destruct (get_adr_cnt_held _ _ _ _ _ Hok Hh) as (r' & -> & Hr & Hh' & Hb).
    rewrite (proj2 (Z.eqb_neq a 0)) by lia. cbn [negb]. pose proof (align_range a ltac:(lia)).
    rewrite (proj2 (Z.eqb_neq (ALIGN2PAGE a) 0)) by lia. split; [|lia]. split; cbn; [done| |].
    + intros nm x Hne. by rewrite Hb, Hoth.
    + right. split; [lia|]. exists a, ty. rewrite u16_small in Hh' by lia. done.
Qed.

Lemma filter_other (a : Z) (l : list Z) : a ∉ l -> filter (fun x => x <> a) l = l.
Proof.
  induction l as [|x l IH]; [done|]. intros Ha. rewrite filter_cons, decide_True by set_solver.
  f_equal. apply IH. set_solver.
Qed.

(** A release in hard real time changes nothing, and is told the size. *)
Lemma hard_free_same name s : (rt_shm_free false name s).2 = s.
Proof. unfold rt_shm_free, _rt_shm_free. by destruct (_ && _). Qed.
Lemma free_told soft name s0 users s : 1 < name -> shm_ok name s0 users s -> 0 < users -> (rt_shm_free soft name s).1 <> 0.
Proof.
  intros Hnm [Hok _ [(-> & _)|(_ & a & ty & _ & Hh & Hty & Ha & _)]] Hu; [done|].
  unfold rt_shm_free, _rt_shm_free. rewrite (get_type_held _ _ _ _ _ Hok Hh), (get_adr_binds _ _ _ Hok (held_binds _ _ _ _ _ Hh)) by lia.
  rewrite (proj2 (Z.eqb_neq ty 0)), (proj2 (Z.eqb_neq a 0)) by lia. cbn [negb andb fst]. lia.
Qed.
Lemma free_ok name s0 users s soft : 1 < name -> name <> GLOBAL_HEAP_ID -> shm_ok name s0 users s -> users < 2 ^ 16 ->
  let '(users', s') := shm_step name (SFree soft) users s in
  shm_ok name s0 users' s' /\ 0 <= users' <= users.
Proof.
  destruct soft.
  2: { intros Hnm _ Hs _. cbn [shm_step]. pose proof (hard_free_same name s) as E.
       destruct (rt_shm_free false name s) as [n s']. cbn in E. subst s'. rewrite orb_true_r. split; [done|].
       destruct Hs as [_ _ [(-> & _)|(? & _)]]; lia. }
  intros Hnm Hg Hs Hu. pose proof Hs as [Hok Hoth Husers]. cbn [shm_step]. unfold rt_shm_free, _rt_shm_free.
  destruct Husers as [(-> & Hp & Hno)|(Hpos & a & ty & Hp & Hh & Hty & Ha & Hap & Han)].
  - rewrite (get_adr_none _ _ Hok Hnm Hno). cbn [Z.eqb negb]. rewrite andb_false_r. cbn [Z.eqb negb orb]. by split; [|lia].
  - rewrite (get_type_held _ _ _ _ _ Hok Hh), (get_adr_binds _ _ _ Hok (held_binds _ _ _ _ _ Hh)) by lia.
    rewrite (proj2 (Z.eqb_neq ty 0)), (proj2 (Z.eqb_neq a 0)) by lia. cbn [negb andb orb].
    pose proof (rem_name_spec (- EFAULT) name a ty users (sreg s) Hok Hh) as Hrem. change (rem_name (- EFAULT)) with drg_on_name_cnt in Hrem.
    destruct (drg_on_name_cnt name (sreg s)) as [n r']. destruct Hrem as (Hr & Hn & Hrem). specialize (Hn ltac:(done)).
    change (- EFAULT =? 0) with false in Hrem. cbn [orb] in Hrem.
    rewrite (proj2 (Z.eqb_neq users 0)) in Hn by lia. rewrite (proj2 (Z.eqb_neq (Z.abs ty) 0)) by lia.
    rewrite (proj2 (Z.eqb_neq name GLOBAL_HEAP_ID)) by done. cbn [negb]. rewrite andb_true_r.
    destruct (users =? 1) eqn:E1; zbool.
    + assert (n = 0) as -> by lia. cbn [Z.eqb negb orb]. split; [|lia]. destruct Hrem as [Hb Hno]. split; cbn; [done| |].
      * intros nm x Hne. rewrite Hb, Hoth by done. tauto.
      * left. split; [lia|]. split.
        -- rewrite Hp, filter_cons, decide_False by tauto. apply filter_other. done.
        -- intros x Hx. by apply Hb in Hx as [_ ?].
    + rewrite (proj2 (Z.eqb_neq n 0)) by lia. cbn [negb orb]. split; [|lia]. destruct Hrem as [Hb Hh']. split; cbn; [done| |].
      * intros nm x Hne. by rewrite Hb, Hoth.
      * right. split; [lia|]. exists a, ty. by rewrite <- Hn.
Qed.

(** C25. The chunk of a name, not that of the global heap.  However the requests for a name and the releases of it
    follow one another, fewer than 2^16 of them, by callers in hard real time or not: the chunk is had from Linux once,
    it is there and registered, for the number of its users, as long as it has
    one, and the last release that is not made in hard real time gives it back and takes the name away.  A release in hard real time
    is told the size of the chunk as the others are, but the user stays counted; a first request in hard real
    time gets nothing.  Nothing else in the registry or in memory changes. *)
Theorem shm_last_user_frees name s os : 1 < name -> name <> GLOBAL_HEAP_ID -> reg_ok (sreg s) ->
  (forall a, ~ binds (sreg s) name a) -> Forall (op_fresh name s) os -> zlen os < 2 ^ 16 - 1 ->
  let '(users, s') := shm_run name os 0 s in
  0 <= users /\ reg_ok (sreg s') /\ (forall nm a, nm <> name -> binds (sreg s') nm a <-> binds (sreg s) nm a) /\
  if users =? 0 then pages s' = pages s /\ get_adr name (sreg s') = 0
  else (exists a ty, pages s' = a :: pages s /\ held (sreg s') name a ty users /\ get_adr name (sreg s') = a) /\
       (rt_shm_free false name s').1 <> 0 /\ (rt_shm_free false name s').2 = s'.
Proof.
  intros Hnm Hg Hok Hno Hos Hlen.
  assert (shm_ok name s 0 s) as H0 by (split; auto).
  assert (forall os users s1, shm_ok name s users s1 -> 0 <= users -> users + zlen os < 2 ^ 16 - 1 -> Forall (op_fresh name s) os ->
    let '(users', s') := shm_run name os users s1 in 0 <= users' /\ shm_ok name s users' s') as Hrun.
  { clear os H0 Hos Hlen. induction os as [|o os IH]; intros users s1 H1 Hu Hl Hf; cbn [shm_run]; [done|].
    apply Forall_cons in Hf as [Ho Hf]. assert (zlen (o :: os) = zlen os + 1) as E by (unfold zlen; cbn; lia).
    pose proof (zlen_nonneg os). destruct o as [soft mem size suprt|soft].
    - pose proof (alloc_ok name s users s1 soft mem size suprt Hnm H1 ltac:(lia) Ho) as Hs.
      destruct (shm_step _ _ _ _) as [u2 s2]. destruct Hs as [Hs ?]. apply IH; try done; lia.
    - pose proof (free_ok name s users s1 soft Hnm Hg H1 ltac:(lia)) as Hs.
      destruct (shm_step _ _ _ _) as [u2 s2]. destruct Hs as (Hs & ?). apply IH; try done; lia. }
  specialize (Hrun os 0 s H0 ltac:(lia) ltac:(lia) Hos). destruct (shm_run name os 0 s) as [users s'].
  destruct Hrun as [Hu Hs]. pose proof Hs as [Hr Hoth Husers]. split; [done|]. split; [done|]. split; [done|].
  destruct Husers as [(-> & Hp & Hn)|(Hpos & a & ty & Hp & Hh & _)].
  - split; [done|]. by apply get_adr_none.
  - rewrite (proj2 (Z.eqb_neq users 0)) by lia. split.
    + exists a, ty. split; [done|]. split; [done|]. apply get_adr_binds; [done|]. by eapply held_binds.
    + split; [by eapply free_told|apply hard_free_same].
Qed.

(** *** Example: two users of a chunk at 8192 *)

Definition ex_shm : shm := MkShm ex_empty [] 0.
Definition ex_ops : list shm_op :=
  [SAlloc false 0 100 0; SAlloc true 8192 100 0; SAlloc false 0 1 0; SFree false; SFree true].

Lemma shm_last_user_frees_witness :
  (shm_run 42 ex_ops 0 ex_shm).1 = 1 /\ pages (shm_run 42 ex_ops 0 ex_shm).2 = [8192] /\
  pages (shm_run 42 (ex_ops ++ [SFree true]) 0 ex_shm).2 = [] /\
  pages (shm_run 42 (ex_ops ++ [SFree false]) 0 ex_shm).2 = [8192] /\
  let '(users, s') := shm_run 42 ex_ops 0 ex_shm in
  0 <= users /\ reg_ok (sreg s') /\ (forall nm a, nm <> 42 -> binds (sreg s') nm a <-> binds (sreg ex_shm) nm a) /\
  if users =? 0 then pages s' = pages ex_shm /\ get_adr 42 (sreg s') = 0
  else (exists a ty, pages s' = a :: pages ex_shm /\ held (sreg s') 42 a ty users /\ get_adr 42 (sreg s') = a) /\
       (rt_shm_free false 42 s').1 <> 0 /\ (rt_shm_free false 42 s').2 = s'.
Proof.
  split; [by vm_compute|]. split; [by vm_compute|]. split; [by vm_compute|]. split; [by vm_compute|].
  assert (forall nm a, ~ binds (sreg ex_shm) nm a) as Hno by (intros nm a (k & _ & H1 & H2 & _); cbn in H2; lia).
  apply (shm_last_user_frees 42 ex_shm ex_ops); [lia|done|exact ex_empty_ok|apply Hno| |by vm_compute].
  assert (op_fresh 42 ex_shm (SAlloc true 8192 100 0)) as Hf.
  { split; [unfold PAGE_SIZE; lia|right]. unfold PAGE_SIZE. split; [lia|]. split; [intros Hx; by inversion Hx|]. intros nm. apply Hno. }
  assert (forall size, size < 2 ^ 31 - PAGE_SIZE -> op_fresh 42 ex_shm (SAlloc false 0 size 0)) as H0 by (intros size Hs; split; [done|by left]).
  unfold ex_ops. repeat (apply Forall_cons; split); [by apply H0|done|by apply H0|done|done|by apply Forall_nil].
Defined.
