(* ===== verification/Kvmem.v ===== *)
(** * The memory that RTAI has from Linux: kvmem.c and the extents of malloc.c.

    Linux' allocators are arguments: [got] is the address one gave, 0 for none. Pages that
    a process may map are marked reserved; [given] is what Linux gave and has not got back. *)

From S2P Require Import Prelude Heap Shm.
From S2P Require Registry Tlsf.
Import Registry (EFAULT).

Inductive source := Vmalloc | Kmalloc | Pages.
#[export] Instance source_eq_dec : EqDecision source.
Proof. solve_decision. Defined.

Record lmem := MkLmem { reserved : Z -> bool; given : list (source * Z) }.
Definition set_reserved (v : Z -> bool) (s : lmem) : lmem := MkLmem v (given s).
Definition set_given (v : list (source * Z)) (s : lmem) : lmem := MkLmem (reserved s) v.

(** [while (size > 0) { ...; adr += PAGE_SIZE; size -= PAGE_SIZE; }] on unsigned long; [None]: it has not ended. *)
Fixpoint page_loop (fuel : nat) (flag : bool) (adr size : Z) (r : Z -> bool) : option (Z -> bool) :=
  if size =? 0 then Some r
  else match fuel with
  | O => None
  | S fuel => page_loop fuel flag (u64 (adr + PAGE_SIZE)) (u64 (size - PAGE_SIZE)) (<[adr := flag]> r)
  end.
Definition page_fuel (size : Z) : nat := Z.to_nat (size / PAGE_SIZE).

(** Linux takes back what it gave by the same allocator, else it crashes. *)
Fixpoint take_back (x : source * Z) (l : list (source * Z)) : option (list (source * Z)) :=
  match l with
  | [] => None
  | y :: l => if decide (x = y) then Some l
              else match take_back x l with Some l => Some (y :: l) | None => None end
  end.

(** ** Chunks that processes can map *)

Definition rvmalloc (got size : Z) (s : lmem) : option (Z * lmem) :=
  if negb (got =? 0) then
    match page_loop (page_fuel size) true got size (reserved s) with
    | Some r => Some (got, MkLmem r ((Vmalloc, got) :: given s))
    | None => None
    end
  else Some (0, s).

Definition rvfree (mem size : Z) (s : lmem) : option lmem :=
  if negb (mem =? 0) then
    match page_loop (page_fuel size) false mem size (reserved s) with
    | Some r =>
        match take_back (Vmalloc, mem) (given s) with
        | Some l => Some (MkLmem r l)
        | None => None
        end
    | None => None
    end
  else Some s.

Definition ksource (size : Z) : source := if size <=? KMALLOC_LIMIT then Kmalloc else Pages.

(** The address and the size, which loses what the alignment of the first page costs. *)
Definition rkmalloc (got msize : Z) (s : lmem) : option (Z * Z * lmem) :=
  if negb (got =? 0) then
    let adr := ALIGN2PAGE got in
    let msize' := i32 (msize - (adr - got)) in
    match page_loop (page_fuel (u64 msize')) true adr (u64 msize') (reserved s) with
    | Some r => Some (got, msize', MkLmem r ((ksource msize, got) :: given s))
    | None => None
    end
  else Some (0, msize, s).

Definition rkfree (mem size : Z) (s : lmem) : option lmem :=
  if negb (mem =? 0) then
    match page_loop (page_fuel size) false (ALIGN2PAGE mem) size (reserved s) with
    | Some r =>
        match take_back (ksource size, mem) (given s) with
        | Some l => Some (MkLmem r l)
        | None => None
        end
    | None => None
    end
  else Some s.

(** ** Mapping *)

Definition EAGAIN := 11.
Definition PAGE_SHIFT := 12.
(** An area of a process: its place and the page of the file it begins with. *)
Record area := MkArea { vm_start : Z; vm_end : Z; vm_pgoff : Z }.

(** The checks of both functions: the position in the chunk and the size of the area. *)
Definition mmap_args (mem memsize : Z) (vma : area) : option (Z * Z) :=
  if Z.shiftr (2 ^ 64 - 1) PAGE_SHIFT <? vm_pgoff vma then None
  else
    let offset := u64 (Z.shiftl (vm_pgoff vma) PAGE_SHIFT) in
    let size := u64 (vm_end vma - vm_start vma) in
    if memsize <? u64 (size + offset) then None
    else
      let pos := u64 (mem + offset) in
      if negb (pos mod PAGE_SIZE =? 0) || negb (vm_start vma mod PAGE_SIZE =? 0) || negb (size mod PAGE_SIZE =? 0) then None
      else Some (pos, size).

(** The pages of the process with the pages of the kernel they show; [insert] is [vm_insert_page], true when
    it maps the page. *)
Fixpoint map_loop (fuel : nat) (insert : Z -> Z -> bool) (start pos size : Z) : option (Z * list (Z * Z)) :=
  if size =? 0 then Some (0, [])
  else match fuel with
  | O => None
  | S fuel =>
      if insert start pos then
        match map_loop fuel insert (u64 (start + PAGE_SIZE)) (u64 (pos + PAGE_SIZE)) (u64 (size - PAGE_SIZE)) with
        | Some (r, l) => Some (r, (start, pos) :: l)
        | None => None
        end
      else Some (- EAGAIN, [])
  end.
Definition rvmmap (insert : Z -> Z -> bool) (mem memsize : Z) (vma : area) : option (Z * list (Z * Z)) :=
  match mmap_args mem memsize vma with
  | None => Some (- EFAULT, [])
  | Some (pos, size) => map_loop (page_fuel size) insert (vm_start vma) pos size
  end.
(** [remap] is [remap_pfn_range] on the whole area. *)
Definition rkmmap (remap : Z -> Z -> Z -> bool) (mem memsize : Z) (vma : area) : Z * list (Z * Z * Z) :=
  match mmap_args mem memsize vma with
  | None => (- EFAULT, [])
  | Some (pos, size) => if remap (vm_start vma) pos size then (0, [(vm_start vma, pos, size)]) else (- EAGAIN, [])
  end.

(** ** The extents of the heaps *)

(** The extent and the bytes in it, [raw] when Linux gives it: [memset] comes after the loop that has
    counted [size] down when the memory is from [vmalloc]. *)
Definition alloc_extent (got size : Z) (suprt : bool) (raw : Z -> Z) (s : lmem) : option (Z * (Z -> Z) * lmem) :=
  let clear (n : Z) (i : Z) := if (0 <=? i) && (i <? n) then 0 else raw i in
  if suprt then Some (got, if negb (got =? 0) then clear size else raw,
                      if negb (got =? 0) then set_given ((ksource size, got) :: given s) s else s)
  else if negb (got =? 0) then
    match page_loop (page_fuel size) true got size (reserved s) with
    | Some r => Some (got, clear 0, MkLmem r ((Vmalloc, got) :: given s))
    | None => None
    end
  else Some (0, raw, s).

Definition free_extent (p size : Z) (suprt : bool) (s : lmem) : option lmem :=
  if suprt then
    match take_back (ksource size, p) (given s) with Some l => Some (set_given l s) | None => None end
  else
    match page_loop (page_fuel size) false p size (reserved s) with
    | Some r => match take_back (Vmalloc, p) (given s) with Some l => Some (MkLmem r l) | None => None end
    | None => None
    end.

(** The extents of a heap go back, from where their headers are. *)
Fixpoint free_extents (h : rtheap) (suprt : bool) (l : list rtextent) (s : lmem) : option lmem :=
  match l with
  | [] => Some s
  | e :: l =>
      match free_extent (membase e - hdrsize h) (extentsize h) suprt s with
      | Some s => free_extents h suprt l s
      | None => None
      end
  end.
Definition rtheap_destroy (h : rtheap) (suprt : bool) (s : lmem) : option lmem := free_extents h suprt (extents h) s.

(** The same for a heap with TLSF, whose pools lie behind the headers. *)
Fixpoint free_pools (esize : Z) (suprt : bool) (l : list Tlsf.extent) (s : lmem) : option lmem :=
  match l with
  | [] => Some s
  | e :: l =>
      match free_extent (Tlsf.membase e - Tlsf.sizeof_rtextent) esize suprt s with
      | Some s => free_pools esize suprt l s
      | None => None
      end
  end.
Definition tlsf_destroy (h : Tlsf.rtheap) (suprt : bool) (s : lmem) : option lmem :=
  free_pools (Tlsf.extentsize h) suprt (Tlsf.extents h) s.

(** The global heap: its size in whole pages, its only extent, and where a process maps it. *)
Definition global_heap_size (size : Z) : Z := i32 (Z.land (u64 (size + PAGE_SIZE - 1)) (u64 (Z.lnot (PAGE_SIZE - 1)))).
Definition __rtai_heap_init (got size : Z) (raw : Z -> Z) (m : memory) (s : lmem) : option (Z * option rtheap * Z * memory * lmem) :=
  let size := u64 (global_heap_size size) in
  if negb (heap_params_ok size PAGE_SIZE) then Some (1, None, 0, m, s)
  else
    match alloc_extent got size false raw s with
    | None => None
    | Some (a, raw, s) =>
        let alloc (i : nat) := if a =? 0 then None else Some (a, fun i => raw (offset_pagemap + i)) in
        match rtheap_init 0 size PAGE_SIZE (fun _ => 0) false None alloc m with
        | (inr h, m) => Some (0, Some h, match extents h with e :: _ => membase e - hdrsize h | [] => 0 end, m, s)
        | (inl _, m) => Some (1, None, 0, m, s)
        end
    end.
Definition __rtai_heap_exit (h : rtheap) (s : lmem) : option lmem := rtheap_destroy h false s.
