(* ===== verification/KvmemFacts.v ===== *)
(** * Chunks from Linux come and go whole, and a mapping shows the chunk and nothing else. *)

From S2P Require Import Prelude Heap HeapSafe HeapRun Shm Kvmem.
From S2P Require Registry.
Import Registry (EFAULT).
From stdpp Require Import list.
#[local] Open Scope Z_scope.

Definition in_pages (adr size a : Z) : Prop := exists i, 0 <= i /\ i * PAGE_SIZE < size /\ a = adr + i * PAGE_SIZE.

Lemma page_loop_pages fuel flag adr n r : 0 <= n <= Z.of_nat fuel -> 0 <= adr -> adr + n * PAGE_SIZE <= 2 ^ 64 ->
  exists r', page_loop fuel flag adr (n * PAGE_SIZE) r = Some r' /\
    (forall a, in_pages adr (n * PAGE_SIZE) a -> r' a = flag) /\ (forall a, ~ in_pages adr (n * PAGE_SIZE) a -> r' a = r a).
Proof.
  revert adr n r. induction fuel as [|fuel IH]; intros adr n r Hn Ha Hlim; cbn [page_loop].
  - replace n with 0 by lia. exists r. split; [done|]. split; [|done]. intros a (i & ? & ? & _). unfold PAGE_SIZE in *. lia.
  - zcase.
    + exists r. split; [done|]. split; [|done]. intros a (i & ? & ? & _). unfold PAGE_SIZE in *. lia.
    + assert (1 <= n) by (unfold PAGE_SIZE in *; lia). rewrite (wrapu_small 64 (_ - PAGE_SIZE)) by (unfold PAGE_SIZE in *; lia).
      replace (n * PAGE_SIZE - PAGE_SIZE) with ((n - 1) * PAGE_SIZE) by lia.
      destruct (decide (n = 1)) as [->|Hn1].
      { replace (page_loop fuel flag _ _ _) with (Some (<[adr := flag]> r)) by (by destruct fuel).
        exists (<[adr := flag]> r). split; [done|]. split.
        - intros a (i & ? & ? & ->). assert (i = 0) as -> by (unfold PAGE_SIZE in *; lia). rewrite Z.mul_0_l, Z.add_0_r. by rewrite fn_lookup_insert.
        - intros a Hout. rewrite fn_lookup_insert_ne; [done|]. intros <-. apply Hout. exists 0. unfold PAGE_SIZE. lia. }
      rewrite (wrapu_small 64) by (unfold PAGE_SIZE in *; lia).
      destruct (IH (adr + PAGE_SIZE) (n - 1) (<[adr := flag]> r)) as (r' & -> & Hin & Hout); [lia|unfold PAGE_SIZE; lia|lia|].
      exists r'. split; [done|]. split.
      * intros a (i & ? & ? & ->). destruct (decide (i = 0)) as [->|]; [|apply Hin; exists (i - 1); unfold PAGE_SIZE in *; lia].
        rewrite Hout; [rewrite Z.mul_0_l, Z.add_0_r; by rewrite fn_lookup_insert|]. intros (j & ? & _ & ?). unfold PAGE_SIZE in *. lia.
      * intros a Ha'. rewrite Hout.
        -- rewrite fn_lookup_insert_ne; [done|]. intros <-. apply Ha'. exists 0. unfold PAGE_SIZE in *. lia.
        -- intros (i & ? & ? & ->). apply Ha'. exists (i + 1). unfold PAGE_SIZE in *. lia.
Qed.

(** A size that is not whole pages is never counted down to 0. *)
Lemma page_loop_never fuel flag adr size r : size mod PAGE_SIZE <> 0 -> page_loop fuel flag adr size r = None.
Proof.
  revert adr size r. induction fuel as [|fuel IH]; intros adr size r Hs; cbn [page_loop].
  - zcase; [|done]. subst size. by rewrite Zmod_0_l in Hs.
  - zcase; [subst size; by rewrite Zmod_0_l in Hs|]. apply IH. unfold wrapu, PAGE_SIZE in *. rewrite Z.mod_mod_divide by (by exists (2 ^ 52)).
    rewrite Zminus_mod, Z_mod_same_full, Z.sub_0_r. by rewrite Zmod_mod.
Qed.

Lemma page_fuel_ok n : 0 <= n -> 0 <= n <= Z.of_nat (page_fuel (n * PAGE_SIZE)).
Proof. intros Hn. unfold page_fuel. rewrite Z.div_mul by done. lia. Qed.

Lemma take_back_given x l : take_back x (x :: l) = Some l.
Proof. cbn [take_back]. by rewrite decide_True. Qed.

(** The marks of pages after a chunk has come and gone: clear on its pages, as they were elsewhere. *)
Definition unreserved (adr size : Z) (r r' : Z -> bool) : Prop := forall a,
  (in_pages adr size a -> r' a = false) /\ (~ in_pages adr size a -> r' a = r a).

Lemma loops_cancel n adr r r1 : 0 <= n -> 0 <= adr -> adr + n * PAGE_SIZE <= 2 ^ 64 ->
  (forall a, ~ in_pages adr (n * PAGE_SIZE) a -> r1 a = r a) ->
  exists r2, page_loop (page_fuel (n * PAGE_SIZE)) false adr (n * PAGE_SIZE) r1 = Some r2 /\ unreserved adr (n * PAGE_SIZE) r r2.
Proof.
  intros Hn Ha Hl Hr. destruct (page_loop_pages (page_fuel (n * PAGE_SIZE)) false adr n r1 (page_fuel_ok n Hn) Ha Hl) as (r2 & -> & Hin & Hout).
  exists r2. split; [done|]. intros a. split; [apply Hin|]. intros Hn'. rewrite Hout by done. by apply Hr.
Qed.

(** A chunk of [n] pages from [vmalloc] comes and goes. *)
Lemma rv_roundtrip got n s : 0 < got -> 0 <= n -> got + n * PAGE_SIZE <= 2 ^ 64 ->
  exists s1, rvmalloc got (n * PAGE_SIZE) s = Some (got, s1) /\ (forall a, in_pages got (n * PAGE_SIZE) a -> reserved s1 a = true) /\
  exists s2, rvfree got (n * PAGE_SIZE) s1 = Some s2 /\ given s2 = given s /\ unreserved got (n * PAGE_SIZE) (reserved s) (reserved s2).
Proof.
  intros Hg Hn Hl. unfold rvmalloc, rvfree. rewrite (proj2 (Z.eqb_neq got 0)) by lia. cbn [negb].
  destruct (page_loop_pages (page_fuel (n * PAGE_SIZE)) true got n (reserved s) (page_fuel_ok n Hn) ltac:(lia) Hl) as (r1 & -> & Hin & Hout).
  eexists. split; [done|]. split; [exact Hin|]. cbn [reserved given].
  destruct (loops_cancel n got (reserved s) r1 Hn ltac:(lia) Hl Hout) as (r2 & -> & Hu). rewrite take_back_given. by eexists.
Qed.

Lemma align_mult a : 0 <= a < 2 ^ 64 -> a mod PAGE_SIZE = 0 -> ALIGN2PAGE a = a.
Proof.
  intros Ha Hm. unfold ALIGN2PAGE, PAGE_MASK, PAGE_SIZE in *. replace (4096 - 1) with (Z.ones 12) by reflexivity.
  rewrite <- Z.ldiff_land, Z.ldiff_ones_r, Z.shiftl_mul_pow2, Z.shiftr_div_pow2 by lia. change (2 ^ 12) with 4096.
  pose proof (Z.div_mod a 4096 ltac:(lia)) as Hd. rewrite Hm in Hd.
  assert (u64 (a + 4096 - 1) = a + 4096 - 1) as ->.
  { apply wrapu_small. assert (a / 4096 < 4503599627370496) by (apply Z.div_lt_upper_bound; lia). change (2 ^ 64) with (4503599627370496 * 4096). lia. }
  replace (a + 4096 - 1) with (4095 + a / 4096 * 4096) by lia. rewrite Z.div_add, Z.div_small by lia. lia.
Qed.
Lemma align_page a : 0 <= a < 2 ^ 64 - PAGE_SIZE -> ALIGN2PAGE a mod PAGE_SIZE = 0 /\ a <= ALIGN2PAGE a < a + PAGE_SIZE.
Proof.
  intros Ha. unfold ALIGN2PAGE, PAGE_MASK, PAGE_SIZE in *. replace (4096 - 1) with (Z.ones 12) by reflexivity.
  rewrite <- Z.ldiff_land, Z.ldiff_ones_r, Z.shiftl_mul_pow2, Z.shiftr_div_pow2 by lia. change (2 ^ 12) with 4096.
  rewrite wrapu_small by lia. replace (a + 4096 - 1) with (a + 4095) by lia.
  split; [by rewrite Z.mod_mul|]. pose proof (Z.mod_pos_bound (a + 4095) 4096 ltac:(lia)). pose proof (Z.div_mod (a + 4095) 4096 ltac:(lia)). lia.
Qed.

(** A chunk of [n] pages from [kmalloc] or [__get_free_pages]: when it begins at a page it comes and goes; when it
    does not the loop that marks its pages never ends. *)
Lemma rk_roundtrip got n s : 0 < got -> 0 < n -> n * PAGE_SIZE < 2 ^ 31 -> got + n * PAGE_SIZE <= 2 ^ 64 - PAGE_SIZE ->
  if decide (got mod PAGE_SIZE = 0) then
    exists s1, rkmalloc got (n * PAGE_SIZE) s = Some (got, n * PAGE_SIZE, s1) /\
      (forall a, in_pages got (n * PAGE_SIZE) a -> reserved s1 a = true) /\
    exists s2, rkfree got (n * PAGE_SIZE) s1 = Some s2 /\ given s2 = given s /\ unreserved got (n * PAGE_SIZE) (reserved s) (reserved s2)
  else forall fuel, page_loop fuel true (ALIGN2PAGE got) (u64 (i32 (n * PAGE_SIZE - (ALIGN2PAGE got - got)))) (reserved s) = None.
Proof.
  intros Hg Hn Hi Hl. destruct (align_page got) as [Hp Hr]; [unfold PAGE_SIZE in *; lia|]. destruct (decide (got mod PAGE_SIZE = 0)) as [E|E].
  - unfold rkmalloc, rkfree. rewrite (proj2 (Z.eqb_neq got 0)) by lia. cbn [negb]. rewrite align_mult by (unfold PAGE_SIZE in *; done || lia).
    rewrite Z.sub_diag, Z.sub_0_r, wraps_small by (unfold PAGE_SIZE in *; lia). rewrite (wrapu_small 64) by (unfold PAGE_SIZE in *; lia).
    destruct (page_loop_pages (page_fuel (n * PAGE_SIZE)) true got n (reserved s) (page_fuel_ok n ltac:(lia)) ltac:(lia)) as (r1 & -> & Hin & Hout);
      [unfold PAGE_SIZE in *; lia|]. eexists. split; [done|]. split; [exact Hin|]. cbn [reserved given].
    destruct (loops_cancel n got (reserved s) r1) as (r2 & -> & Hu); [lia|lia|unfold PAGE_SIZE in *; lia|done|]. rewrite take_back_given. by eexists.
  - intros fuel. apply page_loop_never. assert (got < ALIGN2PAGE got) by (apply Z.le_neq; split; [lia|congruence]).
    rewrite wraps_small by (unfold PAGE_SIZE in *; lia). rewrite wrapu_small by (unfold PAGE_SIZE in *; lia). intros E2. apply E.
    replace got with (ALIGN2PAGE got + ((n * PAGE_SIZE - (ALIGN2PAGE got - got)) + - n * PAGE_SIZE)) by ring.
    rewrite Zplus_mod, Hp, Z_mod_plus_full, E2. done.
Qed.

(** ** Mapping *)

Lemma map_loop_pages fuel insert start pos n : 0 <= n <= Z.of_nat fuel -> 0 <= start -> 0 <= pos ->
  start + n * PAGE_SIZE < 2 ^ 64 -> pos + n * PAGE_SIZE <= 2 ^ 64 ->
  exists r l, map_loop fuel insert start pos (n * PAGE_SIZE) = Some (r, l) /\ (r = 0 \/ r = - EAGAIN) /\
    (forall u k, (u, k) ∈ l -> exists i, 0 <= i < n /\ u = start + i * PAGE_SIZE /\ k = pos + i * PAGE_SIZE) /\
    (r = 0 -> forall i, 0 <= i < n -> (start + i * PAGE_SIZE, pos + i * PAGE_SIZE) ∈ l).
Proof.
  revert start pos n. induction fuel as [|fuel IH]; intros start pos n Hn Hs Hp Hls Hlp; cbn [map_loop].
  - replace n with 0 by lia. exists 0, []. split_and!; [done|by left|by intros u k H%elem_of_nil|lia].
  - unfold PAGE_SIZE in *. zcase.
    { exists 0, []. split_and!; [done|by left|by intros u k H%elem_of_nil|lia]. }
    destruct (insert start pos); [|exists (- EAGAIN), []; split_and!; [done|by right|by intros u k H%elem_of_nil|done]].
    rewrite (wrapu_small 64 (start + _)), (wrapu_small 64 (_ - _)) by lia. replace (n * 4096 - 4096) with ((n - 1) * 4096) by lia.
    destruct (decide (n = 1)) as [->|Hn1].
    + replace (map_loop fuel insert _ _ _) with (Some (0, @nil (Z * Z))) by (by destruct fuel).
      exists 0, [(start, pos)]. split_and!; [done|by left| |].
      * intros u k [= -> ->]%list_elem_of_singleton. exists 0. lia.
      * intros _ i Hi. assert (i = 0) as -> by lia. rewrite !Z.mul_0_l, !Z.add_0_r. by left.
    + rewrite (wrapu_small 64) by lia.
      destruct (IH (start + 4096) (pos + 4096) (n - 1)) as (r & l & -> & Hr & Hl & Hall); [lia..|].
      exists r, ((start, pos) :: l). split_and!; [done|done| |].
      * intros u k [[= -> ->]|Hin]%elem_of_cons; [exists 0; lia|]. destruct (Hl u k Hin) as (i & ? & -> & ->). exists (i + 1). lia.
      * intros Er i Hi. destruct (decide (i = 0)) as [->|]; [rewrite !Z.mul_0_l, !Z.add_0_r; by left|]. right.
        replace (start + i * 4096) with (start + 4096 + (i - 1) * 4096) by lia. replace (pos + i * 4096) with (pos + 4096 + (i - 1) * 4096) by lia.
        apply Hall; [done|lia].
Qed.

(** What a mapping of the chunk at [mem] into the area may show and must when it returns 0. *)
Definition maps_chunk (mem memsize : Z) (vma : area) (r : Z) (l : list (Z * Z)) : Prop :=
  (r = 0 \/ r = - EAGAIN \/ r = - EFAULT /\ l = []) /\
  (forall u k, (u, k) ∈ l -> vm_start vma <= u /\ u + PAGE_SIZE <= vm_end vma /\ mem <= k /\ k + PAGE_SIZE <= mem + memsize /\
    k - mem = u - vm_start vma + vm_pgoff vma * PAGE_SIZE) /\
  (r = 0 -> forall i, 0 <= i -> vm_start vma + i * PAGE_SIZE < vm_end vma ->
    (vm_start vma + i * PAGE_SIZE, mem + (vm_pgoff vma + i) * PAGE_SIZE) ∈ l).

Lemma maps_nothing mem memsize vma : maps_chunk mem memsize vma (- EFAULT) [].
Proof. split_and!; [by right; right|by intros u k H%elem_of_nil|done]. Qed.

(** Mapping a chunk of [memsize] bytes at [mem] into an area of a process, when the place in the file
    and the size do not leave 64 bits: it ends; it shows the process pages of the chunk only, each at the place in the area that
    it has in the chunk after [vm_pgoff] pages; when it returns 0 all the area is mapped, and -EFAULT and -EAGAIN are
    the other results. *)
Theorem rvmmap_maps insert mem memsize vma : 0 <= mem -> 0 <= memsize -> mem + memsize < 2 ^ 64 ->
  0 <= vm_pgoff vma -> 0 <= vm_start vma <= vm_end vma -> vm_end vma < 2 ^ 64 ->
  vm_end vma - vm_start vma + vm_pgoff vma * PAGE_SIZE < 2 ^ 64 ->
  exists r l, rvmmap insert mem memsize vma = Some (r, l) /\ maps_chunk mem memsize vma r l.
Proof.
  intros Hm Hms Hml Hpg Hse Hel Hw. unfold rvmmap, mmap_args. pose proof (maps_nothing mem memsize vma) as Hfault.
  zcase; [by eexists _, _|]. rewrite Z.shiftl_mul_pow2 by done. change (2 ^ PAGE_SHIFT) with PAGE_SIZE.
  rewrite (wrapu_small 64 (vm_pgoff vma * PAGE_SIZE)) by (unfold PAGE_SIZE in *; lia).
  rewrite (wrapu_small 64 (vm_end vma - vm_start vma)) by lia. rewrite (wrapu_small 64 (_ + _ * PAGE_SIZE)) by (unfold PAGE_SIZE in *; lia).
  zcase; [by eexists _, _|]. rewrite (wrapu_small 64 (mem + _)) by (unfold PAGE_SIZE in *; lia).
  zcase; [by eexists _, _|]. assert ((vm_end vma - vm_start vma) mod PAGE_SIZE = 0) as E3 by done.
  set (size := vm_end vma - vm_start vma) in *. pose proof (Z.div_mod size PAGE_SIZE ltac:(done)) as Hd. rewrite E3, Z.add_0_r, Z.mul_comm in Hd.
  set (n := size / PAGE_SIZE) in *. assert (0 <= n) by (apply Z.div_pos; [lia|done]). rewrite Hd.
  destruct (map_loop_pages (page_fuel (n * PAGE_SIZE)) insert (vm_start vma) (mem + vm_pgoff vma * PAGE_SIZE) n) as (r & l & -> & Hr & Hin & Hall);
    [by apply page_fuel_ok|lia|unfold PAGE_SIZE in *; lia|lia|unfold PAGE_SIZE in *; lia|].
  exists r, l. split; [done|]. split; [tauto|]. split.
  - intros u k (i & Hi & -> & ->)%Hin. unfold PAGE_SIZE in *. lia.
  - intros Er i Hi Hlt. replace (mem + (vm_pgoff vma + i) * PAGE_SIZE) with (mem + vm_pgoff vma * PAGE_SIZE + i * PAGE_SIZE) by ring.
    apply Hall; [done|]. split; [done|]. unfold PAGE_SIZE in *. lia.
Qed.


(** The check of the place and the size is on 64 bits: near the end of the file it lets the pages before the chunk through. *)
Example rvmmap_wraps : rvmmap (fun _ _ => true) 0x100000 8192 (MkArea 0x7000 0x9000 (2 ^ 52 - 1)) =
  Some (0, [(0x7000, 0xff000); (0x8000, 0x100000)]).
Proof. vm_compute. reflexivity. Qed.

(** ** The extents *)

(** An extent from [vmalloc] is not cleared, one from [kmalloc] is. *)
Lemma extent_bytes got n suprt raw s : 0 < got -> 0 <= n -> got + n * PAGE_SIZE <= 2 ^ 64 ->
  exists raw' s', alloc_extent got (n * PAGE_SIZE) suprt raw s = Some (got, raw', s') /\
    forall i, 0 <= i < n * PAGE_SIZE -> raw' i = if suprt then 0 else raw i.
Proof.
  intros Hg Hn Hl. unfold alloc_extent. rewrite (proj2 (Z.eqb_neq got 0)) by lia. cbn [negb]. destruct suprt.
  - eexists _, _. split; [done|]. intros i Hi. cbn beta. destruct ((0 <=? i) && (i <? n * PAGE_SIZE)) eqn:E; [done|]. zbool. lia.
  - destruct (page_loop_pages (page_fuel (n * PAGE_SIZE)) true got n (reserved s) (page_fuel_ok n Hn) ltac:(lia) Hl) as (r1 & -> & _).
    eexists _, _. split; [done|]. intros i Hi. cbn beta. destruct ((0 <=? i) && (i <? 0)) eqn:E; [|done]. zbool. lia.
Qed.

(** ** The global heap *)

Lemma global_size_eq size : 0 < size < 2 ^ 31 - PAGE_SIZE -> exists n, 0 < n /\ global_heap_size size = n * PAGE_SIZE /\ n * PAGE_SIZE < 2 ^ 31 /\
  size <= n * PAGE_SIZE < size + PAGE_SIZE.
Proof.
  intros Hs. unfold global_heap_size. unfold PAGE_SIZE in *. change (4096 - 1) with (2 ^ 12 - 1). rewrite round_up by lia.
  change (2 ^ 12) with 4096. pose proof (up_bounds size 4096 ltac:(lia)). exists ((size + 4096 - 1) / 4096).
  rewrite wraps_small by lia. split_and!; lia.
Qed.

(** C34. The global heap, from its initialisation with memory that [vmalloc] gives to the exit of the module: it is in order, all free, when
    the byte that [vmalloc] left after the page map is not 1, with its size in whole pages; its address is that of the memory,
    where [rt_shm] maps it from; and the exit gives Linux the memory back and clears the marks of its pages, the only ones set. *)
Theorem global_heap_roundtrip got size raw m s : 0 < size < 2 ^ 31 - PAGE_SIZE -> heap_params_ok (global_heap_size size) PAGE_SIZE = true ->
  0 < got -> got + global_heap_size size < 2 ^ 64 ->
  raw (offset_pagemap + (global_heap_size size - heap_hdrsize (global_heap_size size) PAGE_SIZE) / PAGE_SIZE) <> RTHEAP_PCONT ->
  exists h m' s1, __rtai_heap_init got size raw m s = Some (0, Some h, got, m', s1) /\ heap_ok h m' no_blocks [] /\
    (forall a, in_pages got (global_heap_size size) a -> reserved s1 a = true) /\
  exists s2, __rtai_heap_exit h s1 = Some s2 /\ given s2 = given s /\ unreserved got (global_heap_size size) (reserved s) (reserved s2).
Proof.
  intros Hs Hpar Hg Hl Hraw. destruct (global_size_eq size Hs) as (n & Hn & En & Hn31 & _). unfold __rtai_heap_init.
  rewrite En in *. assert (0 < n * PAGE_SIZE) by (unfold PAGE_SIZE; lia). rewrite (wrapu_small 64 (n * PAGE_SIZE)) by lia. rewrite Hpar. cbn [negb]. unfold alloc_extent.
  rewrite (proj2 (Z.eqb_neq got 0)) by lia. cbn [negb].
  destruct (page_loop_pages (page_fuel (n * PAGE_SIZE)) true got n (reserved s) (page_fuel_ok n ltac:(lia)) ltac:(lia) ltac:(lia)) as (r1 & -> & Hin & Hout).
  rewrite (proj2 (Z.eqb_neq got 0)) by lia. set (raw1 := fun i => (fun j => if (0 <=? j) && (j <? 0) then 0 else raw j) (offset_pagemap + i)).
  destruct (rtheap_init_kernel got (n * PAGE_SIZE) PAGE_SIZE raw1 (fun _ => 0) m Hpar Hg Hl) as (h & m' & E & Hok & (e & Ee & Eb) & _ & Ex).
  { unfold raw1. destruct (_ && _) eqn:E; [zbool; lia|done]. }
  cbv zeta. change (rtheap_init 0 _ _ _ _ _ _ m) with (rtheap_init 0 (n * PAGE_SIZE) PAGE_SIZE (fun _ => 0) false None (fun _ => Some (got, raw1)) m).
  rewrite E, Ee. exists h, m', (MkLmem r1 ((Vmalloc, got) :: given s)).
  split; [by replace (membase e - hdrsize h) with got by lia|]. split; [done|]. split; [exact Hin|].
  unfold __rtai_heap_exit, rtheap_destroy. rewrite Ee. cbn [free_extents]. unfold free_extent. rewrite Ex.
  replace (membase e - hdrsize h) with got by lia. cbn [reserved given].
  destruct (loops_cancel n got (reserved s) r1) as (r2 & -> & Hu); [lia..|done|]. rewrite take_back_given. by eexists.
Qed.

Lemma global_heap_roundtrip_witness : exists h m' s1,
  __rtai_heap_init 0x200000 100000 (fun _ => 0) (fun _ => 0) (MkLmem (fun _ => false) []) = Some (0, Some h, 0x200000, m', s1) /\ heap_ok h m' no_blocks [] /\
  (forall a, in_pages 0x200000 (global_heap_size 100000) a -> reserved s1 a = true) /\
  exists s2, __rtai_heap_exit h s1 = Some s2 /\ given s2 = [] /\ unreserved 0x200000 (global_heap_size 100000) (fun _ => false) (reserved s2).
Proof.
  apply (global_heap_roundtrip 0x200000 100000 (fun _ => 0) (fun _ => 0) (MkLmem (fun _ => false) [])); [by unfold PAGE_SIZE|by vm_compute|lia|by vm_compute|done].
Defined.
