(* ===== verification/ShmDev.v ===== *)
(** * The device of the shared memory, the group heaps in it, and what a process makes of both
    (shm.c and the functions of rtai_shm.h for processes). *)

From S2P Require Import Prelude Registry Kvmem Shm.
From Stdlib Require Import Sorted.

(** ** The device *)

(** [mmap]: the chunk whose name the process left is mapped into the area [vma]; [task0] tells that the process
    has a task, [current] is the process. *)
Definition rtai_shm_f_mmap (insert : Z -> Z -> bool) (remap : Z -> Z -> Z -> bool) (task0 : bool) (current : Z) (vma : area) (s : shm) :
    option (Z * Z * shm) :=
  let name := tskext1 s in
  let s := MkShm (sreg s) (pages s) (if task0 then current else 0) in
  let size := get_type name (sreg s) in
  if size <? 0 then Some ((rkmmap remap (ALIGN2PAGE (get_adr name (sreg s))) (- size) vma).1, name, s)
  else
    match rvmmap insert (get_adr name (sreg s)) size vma with
    | Some (r, _) => Some (r, name, s)
    | None => None
    end.

(** The requests of [ioctl], with what the structure at [uarg] holds. *)
Inductive shm_request :=
  | SHM_ALLOC (name arg suprt : Z)
  | SHM_FREE (name : Z)
  | SHM_SIZE (name : Z)
  | HEAP_SET (name arg : Z)
  | OTHER (cmd : Z).

(** The result, and the word that the request names by its address: with [stack_args]
    (CONFIG_RTAI_USE_STACK_ARGS) the kernel works on the memory of the process, else on a copy. [pname] is that
    address. The heap of [HEAP_SET] is [rt_set_heap] below. *)
Definition rtai_shm_f_ioctl (stack_args soft : bool) (mem pname : Z) (areas : list vma) (r : shm_request) (s : shm) : Z * Z * shm :=
  match r with
  | SHM_ALLOC name arg suprt => let '(z, s) := rt_shm_alloc_usp soft mem name (i32 arg) (i32 suprt) s in (z, name, s)
  | SHM_FREE name =>
      let n := if stack_args then pname else name in
      let '(z, s) := _rt_shm_free soft n (get_type n (sreg s)) s in (z, name, s)
  | SHM_SIZE name => let '(size, st) := rt_shm_size name areas s in (size, if stack_args then st else name, s)
  | HEAP_SET name _ => (0, name, s)
  | OTHER _ => (0, 0, s)
  end.

(** ** The group heaps *)

(** Where the heap of a chunk is, its size, and with it where its descriptor comes to lie: at the end. *)
Definition heap_place (sizeof_rtheap heap type : Z) : Z * Z :=
  let hptr := ALIGN2PAGE heap in
  (hptr, i32 (Z.land (u64 (Z.abs type - sizeof_rtheap - (hptr - heap))) (u64 PAGE_MASK))).

Section heaps.
(** [init] is what [rtheap_init] makes of the heap for the memory at [hptr]: the heap and the word at [hptr], where the extent is linked. *)
Context {H : Type} (sizeof_rtheap rtai_global_heap_adr : Z) (init : Z -> Z -> H -> Z * H).

(** What lies in a chunk: the int at its first page, and the descriptor. *)
Record chunk := MkChunk { first_word : Z; descriptor : H }.

(** The first that comes initialises the heap; [None]: there is no such name, and the code follows a null pointer. *)
Definition rt_set_heap (name adr : Z) (c : chunk) (s : heaps H) : option (chunk * heaps H) :=
  let '(hptr, size) := heap_place sizeof_rtheap (get_adr name (hreg s)) (get_type name (hreg s)) in
  if hptr =? 0 then None
  else
    let c := if first_word c =? 0 then let '(w, h) := init hptr size (descriptor c) in MkChunk (i32 w) h else c in
    let s :=
      if has_task s then
        if name =? GLOBAL_HEAP_ID
        then MkHeaps (hreg s) (gheap s) (sheap s) (linux_win s) (MkWindow rtai_global_heap_adr adr) (task_swin s) true
        else MkHeaps (hreg s) (gheap s) (descriptor c) (linux_win s) (task_gwin s) (MkWindow hptr adr) true
      else s in
    Some (c, s).

(** The bytes asked for in whole pages and the descriptor. *)
Definition heap_request (size : Z) : Z := i32 (Z.land (i32 (size - 1)) PAGE_MASK + PAGE_SIZE + sizeof_rtheap).

(** [c] is what lies in the chunk that is there or comes. *)
Definition rt_heap_open (soft : bool) (mem name size suprt : Z) (c : chunk) (k : shm) (s : heaps H) : option (Z * chunk * shm * heaps H) :=
  let '(adr, k) := rt_shm_alloc soft mem name (heap_request size) suprt k in
  let s := set_hreg (sreg k) s in
  if negb (adr =? 0) then
    match rt_set_heap name adr c s with
    | Some (c, s) => Some (adr, c, k, s)
    | None => None
    end
  else Some (0, c, k, s).

(** The module registers the global heap, and shows it to Linux' tasks where it is. *)
Definition __rtai_shm_init (misc_register : Z) (global_size : Z) (set_rt_fun_entries : Z) (s : heaps H) : Z * heaps H :=
  if misc_register <? 0 then (- 16, s)
  else
    let s := set_hreg (rt_register GLOBAL_HEAP_ID rtai_global_heap_adr global_size 0 (hreg s)).2 s in
    let w := MkWindow rtai_global_heap_adr rtai_global_heap_adr in
    (set_rt_fun_entries, MkHeaps (hreg s) (gheap s) (sheap s) w (task_gwin s) (task_swin s) (has_task s)).
End heaps.
Arguments chunk : clear implicits.

(** [while (_rt_shm_free(name, type))] for one slot of the registry. *)
Fixpoint free_all (fuel : nat) (soft : bool) (name type : Z) (s : shm) : option shm :=
  let '(z, s) := _rt_shm_free soft name type s in
  if z =? 0 then Some s
  else match fuel with O => None | S fuel => free_all fuel soft name type s end.
(** At the exit of the module the objects whose type is a size are chunks, and go whoever uses them. *)
Fixpoint exit_slots (fuel : nat) (soft : bool) (n : nat) (slot : Z) (s : shm) : option shm :=
  match n with
  | O => Some s
  | S n =>
      match rt_get_registry_slot slot (sreg s) with
      | Some e =>
          if PAGE_SIZE <=? Z.abs (type e) then
            match free_all fuel soft (Registry.name e) (type e) s with
            | Some s => exit_slots fuel soft n (slot + 1) s
            | None => None
            end
          else exit_slots fuel soft n (slot + 1) s
      | None => exit_slots fuel soft n (slot + 1) s
      end
  end.
Definition __rtai_shm_exit (fuel : nat) (soft : bool) (s : shm) : option shm :=
  let s := set_sreg (drg_on_name_cnt GLOBAL_HEAP_ID (sreg s)).2 s in
  exit_slots fuel soft (Z.to_nat (max_slots (sreg s))) 1 s.

(** ** A process *)

(** Linux' place for a new area of a process, where it enters it among the others, and what goes with [munmap]: the areas that
    close and those that stay. *)
Class LinuxMm := {
  get_unmapped_area : Z -> Z -> list vma -> option Z;
  insert_vm_area : vma -> list vma -> list vma;
  do_munmap : Z -> Z -> list vma -> option (list vma * list vma)
}.
Definition vma_apart (st en : Z) (v : vma) : Prop := v.1.2 <= st \/ en <= v.1.1.
Definition vma_before (v w : vma) : Prop := v.1.2 <= w.1.1.
(** The areas of a process, [mm->mmap]: by address, apart, of whole pages. *)
Definition areas_ok (l : list vma) : Prop :=
  StronglySorted vma_before l /\ Forall (fun v => v.1.1 mod PAGE_SIZE = 0 /\ v.1.1 < v.1.2) l.
(** What mmap(2) and munmap(2) say of them, and Linux of its list. *)
Class LinuxMmLaws `{LinuxMm} := {
  unmapped_area_free : forall start len l a, get_unmapped_area start len l = Some a ->
    0 < a /\ a + len < 2 ^ 63 /\ a mod PAGE_SIZE = 0 /\ Forall (vma_apart a (a + len)) l;
  insert_area : forall v l, areas_ok l -> v.1.1 mod PAGE_SIZE = 0 -> v.1.1 < v.1.2 -> Forall (vma_apart v.1.1 v.1.2) l ->
    exists l1 l2, l = l1 ++ l2 /\ insert_vm_area v l = l1 ++ v :: l2 /\ areas_ok (insert_vm_area v l);
  munmap_unaligned : forall a len l, a mod PAGE_SIZE <> 0 -> do_munmap a len l = None;
  munmap_area : forall l1 st en nm l2, st mod PAGE_SIZE = 0 -> st < en -> Forall (vma_apart st en) (l1 ++ l2) ->
    do_munmap st (en - st) (l1 ++ (st, en, nm) :: l2) = Some ([(st, en, nm)], l1 ++ l2)
}.

Section process.
Context `{LinuxMm} (stack_args soft : bool) (insert : Z -> Z -> bool) (remap : Z -> Z -> Z -> bool) (task0 : bool) (current pname : Z).

Record process := MkProcess { kern : shm; areas : list vma }.
Definition set_kern (k : shm) (p : process) : process := MkProcess k (areas p).

Definition ioctl (mem : Z) (r : shm_request) (p : process) : Z * Z * process :=
  let '(z, w, k) := rtai_shm_f_ioctl stack_args soft mem pname (areas p) r (kern p) in (z, w, set_kern k p).

Definition MAP_FAILED := - 1.
(** [mmap] of the device: the area is there when the driver maps it. *)
Definition mmap (start size : Z) (p : process) : option (Z * process) :=
  let len := Z.land (u64 (size + PAGE_SIZE - 1)) PAGE_MASK in
  match get_unmapped_area start len (areas p) with
  | None => Some (MAP_FAILED, p)
  | Some a =>
      match rtai_shm_f_mmap insert remap task0 current (MkArea a (a + len) 0) (kern p) with
      | None => None
      | Some (r, name, k) =>
          if r =? 0 then Some (a, MkProcess k (insert_vm_area (a, a + len, name) (areas p))) else Some (MAP_FAILED, set_kern k p)
      end
  end.
(** [munmap]: the areas that go are closed. *)
Definition munmap (adr size : Z) (p : process) : Z * process :=
  match do_munmap adr size (areas p) with
  | None => (-1, p)
  | Some (closed, kept) => (0, MkProcess (foldl (fun k v => rtai_shm_vm_close soft v.2 k) (kern p) closed) kept)
  end.

(** [_rt_shm_alloc] of the process: [hook] is what opening the device gave; the second result is the request for
    the heap, if there is one. *)
Definition usp_shm_alloc (hook mem start name size suprt : Z) (isheap : bool) (p : process) : option (Z * option shm_request * process) :=
  if hook <=? 0 then Some (0, None, p)
  else
    let '(size, _, p) := ioctl mem (SHM_ALLOC name size suprt) p in
    let size := i32 size in
    if negb (size =? 0) then
      match mmap start size p with
      | None => None
      | Some (adr, p) =>
          if adr =? MAP_FAILED then
            let '(_, _, p) := ioctl mem (SHM_FREE name) p in Some (adr, None, p)
          else Some (adr, if isheap then Some (HEAP_SET name adr) else None, p)
      end
    else Some (0, None, p).

(** [rt_shm_free] of the process: it leaves the release to the close of the area. *)
Definition usp_shm_free (hook name : Z) (p : process) : Z * process :=
  if hook <=? 0 then (0, p)
  else
    let '(size, name, p) := ioctl 0 (SHM_SIZE name) p in
    let size := i32 size in
    if negb (size =? 0) then
      let '(r, p) := munmap name size p in (if negb (r =? 0) then 0 else size, p)
    else (size, p).
End process.
