(* ===== verification/ShmDevFacts.v ===== *)
(** * The group heaps have their room, and what a process gets and loses by its calls. *)

From S2P Require Import Prelude Registry RegistryFacts Shm ShmFacts Kvmem ShmDev.
From S2P Require KvmemFacts.
From Stdlib Require Import Sorted.
From stdpp Require Import list.
#[local] Open Scope Z_scope.

(** ** The place of a group heap *)

Lemma mask_down x : Z.land x PAGE_MASK = x / PAGE_SIZE * PAGE_SIZE.
Proof.
  unfold PAGE_MASK. change (PAGE_SIZE - 1) with (Z.ones 12).
  rewrite <- Z.ldiff_land, Z.ldiff_ones_r, Z.shiftl_mul_pow2, Z.shiftr_div_pow2 by lia. done.
Qed.
Lemma mask_down64 x : 0 <= x < 2 ^ 64 -> Z.land (u64 x) (u64 PAGE_MASK) = x / PAGE_SIZE * PAGE_SIZE.
Proof. intros Hx. unfold PAGE_MASK. change (PAGE_SIZE - 1) with (2 ^ 12 - 1). by rewrite HeapSafe.round_up by lia. Qed.

(** The size of the chunk that [rt_shm_alloc] has for a request. *)
Definition chunk_bytes (size : Z) : Z := i32 (Z.land (size - 1) PAGE_MASK + PAGE_SIZE).

(** A group heap in a chunk that begins at a page has at least the bytes asked for, in whole pages from the
    start of the chunk, and its descriptor lies after them and within the chunk. *)
Lemma heap_open_room sizeof_rtheap heap size type : 0 < size -> 0 < sizeof_rtheap -> size + sizeof_rtheap + 2 * PAGE_SIZE < 2 ^ 31 ->
  0 < heap -> heap + 2 ^ 31 < 2 ^ 64 -> heap mod PAGE_SIZE = 0 -> Z.abs type = chunk_bytes (heap_request sizeof_rtheap size) ->
  let '(hptr, bytes) := heap_place sizeof_rtheap heap type in
  hptr = heap /\ size <= bytes /\ bytes mod PAGE_SIZE = 0 /\ hptr + bytes + sizeof_rtheap <= heap + Z.abs type.
Proof.
  intros Hs Hd Hb Hh Hl Hm Ht. unfold heap_place. rewrite KvmemFacts.align_mult by (done || lia). rewrite Ht. clear type Ht.
  unfold heap_request, chunk_bytes. rewrite !mask_down. pose proof (Z.div_mod (size - 1) PAGE_SIZE ltac:(done)).
  pose proof (Z.mod_pos_bound (size - 1) PAGE_SIZE ltac:(done)). unfold PAGE_SIZE in *.
  rewrite (wraps_small 32 (size - 1)) by lia. set (q := (size - 1) / 4096) in *. rewrite (wraps_small 32 (q * 4096 + _ + _)) by lia.
  set (r := q * 4096 + 4096 + sizeof_rtheap - 1). pose proof (Z.div_mod r 4096 ltac:(lia)). pose proof (Z.mod_pos_bound r 4096 ltac:(lia)).
  rewrite (wraps_small 32 (_ * 4096 + _)) by (subst r; lia). set (t := r / 4096 * 4096 + 4096) in *.
  rewrite Z.sub_diag, Z.sub_0_r. rewrite mask_down64 by (subst t r; lia). unfold PAGE_SIZE in *.
  pose proof (Z.div_mod (t - sizeof_rtheap) 4096 ltac:(lia)). pose proof (Z.mod_pos_bound (t - sizeof_rtheap) 4096 ltac:(lia)).
  rewrite wraps_small by (subst t r; lia).
  assert (q + 1 <= (t - sizeof_rtheap) / 4096) by (apply Z.div_le_lower_bound; subst t r; lia).
  split_and!; [done|lia|by rewrite Z.mod_mul|lia].
Qed.

(** ** The calls of a process *)

Section process.
Context `{LinuxMmLaws} (stack_args : bool) (insert : Z -> Z -> bool) (remap : Z -> Z -> Z -> bool) (task0 : bool) (current pname : Z).
Abbreviation alloc_usp := (usp_shm_alloc stack_args true insert remap task0 current pname).
Abbreviation free_usp := (usp_shm_free stack_args true pname).

(** The registry and the chunks are what counts. *)
Lemma shm_ok_tskext name s0 users s v : shm_ok name s0 users s -> shm_ok name s0 users (MkShm (sreg s) (pages s) v).
Proof. intros [? ? ?]. by constructor. Qed.

Lemma rt_shm_alloc_usp_ok name s0 users s mem size suprt : 1 < name -> shm_ok name s0 users s -> users + 1 < 2 ^ 16 ->
  op_fresh name s0 (SAlloc true mem size suprt) ->
  let '(z, s') := rt_shm_alloc_usp true mem name size suprt s in
  shm_ok name s0 (if z =? 0 then users else users + 1) s' /\ (z <> 0 -> tskext1 s' = name /\ z = Z.abs (get_type name (sreg s'))).
Proof.
  intros Hnm Hs Hu Hf. pose proof (alloc_ok name s0 users s true mem size suprt Hnm Hs Hu Hf) as Ha. cbn [shm_step] in Ha.
  unfold rt_shm_alloc_usp. unfold rt_shm_alloc in Ha. destruct (_rt_shm_alloc true mem name size suprt s) as [a s1].
  destruct (Z.eqb_spec a 0) as [->|Hne]; cbn [negb]; destruct Ha as [Hok Hle]; [by split|]. cbn [sreg tskext1].
  destruct (so_users _ _ _ _ Hok) as [(E & _)|(Hpos & x & ty & _ & Hh & Hty & Hx & _)].
  { pose proof (so_users _ _ _ _ Hs) as [(? & _)|(? & _)]; lia. }
  pose proof (get_type_held _ _ _ _ _ (so_reg _ _ _ _ Hok) Hh ltac:(lia)) as Et. rewrite Et.
  rewrite (proj2 (Z.eqb_neq (Z.abs ty) 0)) by lia. split; [by apply shm_ok_tskext|done].
Qed.

(** The area of a chunk is closed: a user less. *)
Lemma vm_close_ok name s0 users s : 1 < name -> name <> GLOBAL_HEAP_ID -> shm_ok name s0 users s -> 0 < users < 2 ^ 16 ->
  shm_ok name s0 (users - 1) (rtai_shm_vm_close true name s).
Proof.
  intros Hnm Hg Hs Hu. pose proof (free_ok name s0 users s true Hnm Hg Hs ltac:(lia)) as Hf. cbn [shm_step] in Hf. unfold rtai_shm_vm_close.
  pose proof (free_told true name s0 users s Hnm Hs ltac:(lia)) as Ht.
  destruct (rt_shm_free true name s) as [z s']. cbn [fst] in Ht. rewrite (proj2 (Z.eqb_neq z 0) Ht) in Hf. apply Hf.
Qed.

(** What [find_vma] finds: the first area of the chunk by address. *)
Definition chunk_area (name size : Z) (v : vma) : Prop := v.2 = name /\ v.1.2 - v.1.1 = size.
Lemma find_vma_first name size v l : v ∈ l -> chunk_area name size v ->
  exists l1 st l2, find_vma name size l = Some st /\ l = l1 ++ (st, st + size, name) :: l2 /\
    Forall (fun v => ~ chunk_area name size v) l1.
Proof.
  intros Hv Hc. induction l as [|[[st en] nm] l IH]; [by apply elem_of_nil in Hv|]. cbn [find_vma].
  destruct ((nm =? name) && (en - st =? size)) eqn:E.
  - zbool. subst nm. exists [], st, l. split; [done|]. split; [cbn; do 3 f_equal; lia|constructor].
  - apply elem_of_cons in Hv as [->|Hv].
    + destruct Hc as [Hn Hs]. cbn in Hn, Hs. rewrite (proj2 (Z.eqb_eq _ _) Hn), (proj2 (Z.eqb_eq _ _) Hs) in E. done.
    + destruct (IH Hv) as (l1 & st' & l2 & Hf & -> & Hl). exists ((st, en, nm) :: l1), st', l2. split; [done|]. split; [done|].
      constructor; [|done]. intros [Hn Hs]. cbn in Hn, Hs. rewrite (proj2 (Z.eqb_eq _ _) Hn), (proj2 (Z.eqb_eq _ _) Hs) in E. done.
Qed.
(** The first place of two. *)
Lemma first_place {A} (P : A -> Prop) (x y : A) (l1 l2 k1 k2 : list A) :
  l1 ++ x :: l2 = k1 ++ y :: k2 -> P x -> P y -> Forall (fun v => ~ P v) l1 -> Forall (fun v => ~ P v) k1 ->
  l1 ++ l2 = k1 ++ k2.
Proof.
  revert k1. induction l1 as [|z l1 IH]; intros [|w k1] E Hx Hy Hl Hk; cbn in *.
  - by injection E as -> ->.
  - injection E as -> _. by apply Forall_cons in Hk as [? _].
  - injection E as -> _. by apply Forall_cons in Hl as [? _].
  - injection E as -> E. f_equal. apply Forall_cons in Hl as [_ ?]. apply Forall_cons in Hk as [_ ?]. by apply IH.
Qed.
(** One of the areas is apart from the others. *)
Lemma areas_others l1 v l2 : areas_ok (l1 ++ v :: l2) -> v.1.1 mod PAGE_SIZE = 0 /\ v.1.1 < v.1.2 /\ Forall (vma_apart v.1.1 v.1.2) (l1 ++ l2).
Proof.
  intros [Hs Hf]. apply Forall_app in Hf as [_ Hf]. apply Forall_cons in Hf as [[Hp Hlt] _]. split; [done|]. split; [done|].
  clear Hp Hlt. induction l1 as [|w l1 IH]; cbn [app] in *.
  - apply StronglySorted_inv in Hs as [_ Hs]. eapply Forall_impl; [exact Hs|]. intros w Hw. by right.
  - apply StronglySorted_inv in Hs as [Hs Hw]. constructor; [|by apply IH]. left.
    apply Forall_app in Hw as [_ Hw]. by apply Forall_cons in Hw as [? _].
Qed.

(** The state of a process that has asked for the chunk and got [a]. *)
Definition got_chunk (name : Z) (s0 : shm) (users a : Z) (p p1 : process) : Prop :=
  exists size, size <> 0 /\ size = i32 (Z.abs (get_type name (sreg (kern p1)))) /\
    areas p1 = insert_vm_area (a, a + Z.land (u64 (size + PAGE_SIZE - 1)) PAGE_MASK, name) (areas p) /\ shm_ok name s0 (users + 1) (kern p1) /\
    a mod PAGE_SIZE = 0 /\ Forall (vma_apart a (a + Z.land (u64 (size + PAGE_SIZE - 1)) PAGE_MASK)) (areas p).

Lemma alloc_usp_ok hook mem start name size suprt isheap p s0 users a q p1 : 1 < name -> name <> GLOBAL_HEAP_ID ->
  shm_ok name s0 users (kern p) -> users + 1 < 2 ^ 16 -> op_fresh name s0 (SAlloc true mem (i32 size) (i32 suprt)) ->
  (stack_args = true -> 1 < pname /\ pname <> name /\ forall x, ~ binds (sreg s0) pname x) ->
  alloc_usp hook mem start name size suprt isheap p = Some (a, q, p1) -> a <> 0 ->
  if a =? MAP_FAILED then areas p1 = areas p /\ shm_ok name s0 (if stack_args then users + 1 else users) (kern p1)
  else got_chunk name s0 users a p p1.
Proof.
  intros Hnm Hg Hs Hu Hf Hpn E Ha. unfold usp_shm_alloc, ioctl in E. destruct (hook <=? 0); [by injection E as <- <- <-|].
  cbn [rtai_shm_f_ioctl] in E. pose proof (rt_shm_alloc_usp_ok name s0 users (kern p) mem (i32 size) (i32 suprt) Hnm Hs Hu Hf) as Hr.
  destruct (rt_shm_alloc_usp true mem name (i32 size) (i32 suprt) (kern p)) as [z k]. cbn [set_kern areas kern] in E.
  destruct (Z.eqb_spec (i32 z) 0) as [|Hz]; cbn [negb] in E; [by injection E as <- <- <-|].
  assert (z <> 0) as Hz0 by (intros ->; by apply Hz). rewrite (proj2 (Z.eqb_neq z 0) Hz0) in Hr. destruct Hr as [Hok Ht].
  destruct (Ht Hz0) as [Etk Ez]. unfold mmap in E. cbn [set_kern areas kern] in E.
  assert (forall k1, shm_ok name s0 (users + 1) k1 -> shm_ok name s0 (if stack_args then users + 1 else users)
    (let '(_, k2) := _rt_shm_free true (if stack_args then pname else name) (get_type (if stack_args then pname else name) (sreg k1)) k1 in k2)) as Hfree.
  { intros k1 Hk1. destruct stack_args.
    - destruct (Hpn eq_refl) as (Hp1 & Hpne & Hpb). unfold _rt_shm_free.
      rewrite (get_adr_none (sreg k1) pname (so_reg _ _ _ _ Hk1) Hp1); [by rewrite andb_false_r|].
      intros x Hx. apply (so_others _ _ _ _ Hk1) in Hx; [by eapply Hpb|done].
    - pose proof (vm_close_ok name s0 (users + 1) k1 Hnm Hg Hk1) as Hc. unfold rtai_shm_vm_close, rt_shm_free in Hc.
      destruct (_rt_shm_free true name _ k1) as [y k2]. replace users with (users + 1 - 1) by lia. apply Hc.
      destruct (so_users _ _ _ _ Hs) as [(? & _)|(? & _)]; lia. }
  set (len := Z.land (u64 (i32 z + PAGE_SIZE - 1)) PAGE_MASK) in *.
  destruct (get_unmapped_area start len (areas p)) as [b|] eqn:Eb.
  - destruct (unmapped_area_free _ _ _ _ Eb) as (Hb0 & Hb1 & Hbp & Hbf).
    destruct (rtai_shm_f_mmap insert remap task0 current (MkArea b (b + len) 0) k) as [[[r nm] k1]|] eqn:Em; [|done].
    assert (nm = name /\ sreg k1 = sreg k /\ pages k1 = pages k) as (-> & Er & Ep).
    { unfold rtai_shm_f_mmap in Em. cbv zeta in Em. cbn [sreg] in Em. rewrite Etk in Em. destruct (get_type name (sreg k) <? 0); [by injection Em as <- <- <-|].
      destruct (rvmmap insert _ _ _) as [[? ?]|]; [by injection Em as <- <- <-|done]. }
    assert (shm_ok name s0 (users + 1) k1) as Hok1 by (destruct Hok as [H1 H2 H3]; constructor; rewrite ?Er, ?Ep; done).
    destruct (r =? 0).
    + rewrite (proj2 (Z.eqb_neq b MAP_FAILED)) in E by (unfold MAP_FAILED; lia). injection E as <- <- <-.
      rewrite (proj2 (Z.eqb_neq b MAP_FAILED)) by (unfold MAP_FAILED; lia). exists (i32 z). cbn [kern areas]. rewrite Er. split_and!; try done. by rewrite Ez.
    + rewrite Z.eqb_refl in E. cbn [kern set_kern areas] in E. specialize (Hfree k1 Hok1).
      destruct (_rt_shm_free _ _ _ k1) as [y k2]. injection E as <- <- <-. rewrite Z.eqb_refl. by split.
  - rewrite Z.eqb_refl in E. cbn [kern set_kern areas] in E. specialize (Hfree k Hok).
    destruct (_rt_shm_free _ _ _ k) as [y k2]. injection E as <- <- <-. rewrite Z.eqb_refl. by split.
Qed.

(** C35. A process, by Linux calls and so not in hard real time, asks for a chunk and gets an answer that is not null; the chunk
    is of whole pages.  When the mapping fails the process has
    no area, and the chunk is freed; but with CONFIG_RTAI_USE_STACK_ARGS the address of the name is taken for the name, and
    the user stays counted.  When it succeeds the process has the area and is counted once more; if it then frees the chunk,
    the area of the chunk with the lowest address is closed, which is the new one when the process had no other, and is counted; but without
    CONFIG_RTAI_USE_STACK_ARGS the place of the area does not come
    back to the process, which unmaps at its name: if this is not a multiple of the size of a page nothing is released, and 0 is the result. *)
Theorem process_chunk hook mem start name size suprt isheap p s0 users a q p1 : 1 < name -> name <> GLOBAL_HEAP_ID ->
  name mod PAGE_SIZE <> 0 -> 0 < hook -> areas_ok (areas p) -> shm_ok name s0 users (kern p) -> users + 1 < 2 ^ 16 ->
  op_fresh name s0 (SAlloc true mem (i32 size) (i32 suprt)) -> (stack_args = true -> 1 < pname /\ pname <> name /\ forall x, ~ binds (sreg s0) pname x) ->
  alloc_usp hook mem start name size suprt isheap p = Some (a, q, p1) -> a <> 0 ->
  let T := Z.abs (get_type name (sreg (kern p1))) in T mod PAGE_SIZE = 0 -> T < 2 ^ 31 ->
  if a =? MAP_FAILED then areas p1 = areas p /\ shm_ok name s0 (if stack_args then users + 1 else users) (kern p1)
  else areas p1 = insert_vm_area (a, a + T, name) (areas p) /\ areas_ok (areas p1) /\ shm_ok name s0 (users + 1) (kern p1) /\
    let '(z, p2) := free_usp hook name p1 in
    if stack_args then
      z = T /\ shm_ok name s0 users (kern p2) /\
      (exists l1 st l2, areas p1 = l1 ++ (st, st + T, name) :: l2 /\ areas p2 = l1 ++ l2 /\ Forall (fun v => ~ chunk_area name T v) l1) /\
      (Forall (fun v => ~ chunk_area name T v) (areas p) -> areas p2 = areas p)
    else z = 0 /\ p2 = p1.
Proof.
  intros Hnm Hg Hna Hk Hao Hs Hu Hf Hpn E Ha T Hm Hlt.
  pose proof (alloc_usp_ok hook mem start name size suprt isheap p s0 users a q p1 Hnm Hg Hs Hu Hf Hpn E Ha) as Hr.
  destruct (a =? MAP_FAILED); [done|]. destruct Hr as (sz & Hsz & Esz & Ea & Hok & Hap & Hfree). fold T in Esz.
  assert (0 <= T) by (unfold T; lia).
  rewrite wraps_small in Esz by lia. rewrite Esz in *. clear sz Esz.
  rewrite (KvmemFacts.align_mult T ltac:(lia) Hm : Z.land (u64 (T + PAGE_SIZE - 1)) PAGE_MASK = T) in *.
  destruct (insert_area (a, a + T, name) (areas p)) as (k1 & k2 & Ek & Ei & Hao1); [done|done|cbn; lia|done|]. rewrite <- Ea in *.
  split; [done|]. split; [done|]. split; [exact Hok|]. unfold usp_shm_free, ioctl. rewrite (proj2 (Z.leb_gt hook 0)) by lia.
  cbn [rtai_shm_f_ioctl]. unfold rt_shm_size. fold T. rewrite (wraps_small 32 T) by lia.
  assert (chunk_area name T (a, a + T, name)) as Hnew by (split; cbn; [done|lia]).
  destruct (find_vma_first name T (a, a + T, name) (areas p1)) as (l1 & st & l2 & -> & Ep1 & Hl1);
    [rewrite Ei; apply elem_of_app; right; left|done|].
  rewrite (wraps_small 32 T) by lia. rewrite (proj2 (Z.eqb_neq T 0)) by done. cbn [negb].
  assert (set_kern (kern p1) p1 = p1) as -> by (by destruct p1). unfold munmap. destruct stack_args.
  - rewrite Ep1 in Hao1. destruct (areas_others _ _ _ Hao1) as (Hst & Hlt2 & Hap2). cbn [fst snd] in Hst, Hlt2, Hap2.
    pose proof (munmap_area l1 st (st + T) name l2 Hst Hlt2 Hap2) as Hmu. replace (st + T - st) with T in Hmu by lia.
    rewrite Ep1. unfold vma in Hmu |- *. rewrite Hmu. cbn [Z.eqb negb foldl kern areas]. split; [done|]. split_and!.
    + replace users with (users + 1 - 1) by lia.
      apply vm_close_ok; try done. destruct (so_users _ _ _ _ Hs) as [(? & _)|(? & _)]; lia.
    + by exists l1, st, l2.
    + rewrite Ek. intros Hno. apply Forall_app in Hno as [Hno _]. rewrite Ei in Ep1. symmetry in Ep1.
      by eapply (first_place (chunk_area name T)); [exact Ep1|split; cbn; [done|lia]|..].
  - rewrite munmap_unaligned by done. by split.
Qed.
End process.

(** *** Example: a process with an area of another chunk *)

Fixpoint put_area (v : vma) (l : list vma) : list vma :=
  match l with
  | [] => [v]
  | w :: l => if v.1.2 <=? w.1.1 then v :: w :: l else w :: put_area v l
  end.
Lemma put_area_ok v l : areas_ok l -> v.1.1 mod PAGE_SIZE = 0 -> v.1.1 < v.1.2 -> Forall (vma_apart v.1.1 v.1.2) l ->
  exists l1 l2, l = l1 ++ l2 /\ put_area v l = l1 ++ v :: l2 /\ Forall (fun w => vma_before w v) l1 /\ Forall (vma_before v) l2.
Proof.
  intros [Hs Hf] Hp Hlt Hap. induction l as [|w l IH]; cbn [put_area]; [by exists [], []|].
  apply StronglySorted_inv in Hs as [Hs Hw]. apply Forall_cons in Hf as [Hw' Hf]. apply Forall_cons in Hap as [Hwv Hap].
  destruct (Z.leb_spec v.1.2 w.1.1) as [Hle|Hgt].
  - exists [], (w :: l). split_and!; try done. constructor; [done|]. eapply Forall_impl; [exact Hw|]. unfold vma_before. intros u Hu. lia.
  - destruct (IH Hs Hf Hap) as (l1 & l2 & -> & -> & H1 & H2). exists (w :: l1), l2. split_and!; try done.
    constructor; [|done]. destruct Hwv; unfold vma_before in *; lia.
Qed.
Lemma sorted_insert v l1 l2 : areas_ok (l1 ++ l2) -> v.1.1 mod PAGE_SIZE = 0 -> v.1.1 < v.1.2 ->
  Forall (fun w => vma_before w v) l1 -> Forall (vma_before v) l2 -> areas_ok (l1 ++ v :: l2).
Proof.
  intros [Hs Hf] Hp Hlt H1 H2. split.
  - induction l1 as [|w l1 IH]; cbn [app] in *; [by constructor|]. apply StronglySorted_inv in Hs as [Hs Hw].
    apply Forall_cons in Hf as [_ Hf]. apply Forall_cons in H1 as [Hwv H1]. constructor; [by apply IH|].
    apply Forall_app in Hw as [Hw1 Hw2]. apply Forall_app. split; [done|]. by constructor.
  - apply Forall_app in Hf as [? ?]. apply Forall_app. split; [done|]. by constructor.
Qed.
Fixpoint take_area (a en : Z) (l : list vma) : option (vma * list vma) :=
  match l with
  | [] => None
  | v :: l => if (v.1.1 =? a) && (v.1.2 =? en) then Some (v, l)
              else match take_area a en l with Some (w, l) => Some (w, v :: l) | None => None end
  end.
(** New areas below all others, as Linux does it. *)
Definition free_place (len : Z) (l : list vma) : option Z :=
  if (0 <=? len) && (len mod PAGE_SIZE =? 0) then
    let top := foldr (fun v t => Z.min v.1.1 t) 131072 l in
    if (top mod PAGE_SIZE =? 0) && (len <? top) then Some (top - len) else None
  else None.
Lemma free_place_ok len l a : free_place len l = Some a ->
  0 < a /\ a + len < 2 ^ 63 /\ a mod PAGE_SIZE = 0 /\ Forall (vma_apart a (a + len)) l.
Proof.
  unfold free_place. destruct (_ && _) eqn:E; [|done]. destruct ((_ mod _ =? 0) && _) eqn:E2; [|done]. zbool. intros [= <-].
  assert (foldr (fun v t => Z.min v.1.1 t) 131072 l <= 131072 /\ Forall (fun v => foldr (fun v t => Z.min v.1.1 t) 131072 l <= v.1.1) l) as [Ht Hl].
  { clear. induction l as [|v l [IH1 IH2]]; cbn [foldr]; [by split|]. split; [lia|]. constructor; [lia|].
    eapply Forall_impl; [exact IH2|]. intros w Hw. cbn beta in *. lia. }
  set (top := foldr _ _ _) in *. clearbody top. split_and!; [lia|lia| |].
  - by rewrite Zminus_mod, H, H2.
  - eapply Forall_impl; [exact Hl|]. intros v Hv. right. cbn beta in Hv. lia.
Qed.
#[local] Instance ex_mm : LinuxMm := {
  get_unmapped_area := fun _ len l => free_place len l;
  insert_vm_area := put_area;
  do_munmap := fun a len l =>
    if a mod PAGE_SIZE =? 0 then
      match take_area a (a + len) l with Some (v, l) => Some ([v], l) | None => Some ([], l) end
    else None
}.
#[local] Instance ex_mm_laws : LinuxMmLaws.
Proof.
  constructor; cbn [get_unmapped_area do_munmap insert_vm_area ex_mm].
  - intros start len l a. apply free_place_ok.
  - intros v l Hl Hp Hlt Hap. destruct (put_area_ok v l Hl Hp Hlt Hap) as (l1 & l2 & -> & -> & H1 & H2).
    exists l1, l2. split_and!; [done..|by apply sorted_insert].
  - intros a len l Ha. by rewrite (proj2 (Z.eqb_neq _ 0) Ha).
  - intros l1 st en nm l2 Hst Hlt Hap. rewrite (proj2 (Z.eqb_eq _ 0) Hst). replace (st + (en - st)) with en by lia.
    assert (take_area st en (l1 ++ (st, en, nm) :: l2) = Some ((st, en, nm), l1 ++ l2)) as ->; [|done].
    induction l1 as [|v l1 IH]; cbn [app take_area fst snd]; [by rewrite !Z.eqb_refl|]. cbn [app] in Hap.
    apply Forall_cons in Hap as [Hv Hap]. destruct ((v.1.1 =? st) && (v.1.2 =? en)) eqn:E; [|by rewrite IH].
    zbool. unfold vma_apart in Hv. lia.
Qed.

Definition ex_process : process := MkProcess ex_shm [(131072, 135168, 9)].
Definition ex_asked (stack_args : bool) : option (Z * option shm_request * process) :=
  usp_shm_alloc stack_args true (fun _ _ => true) (fun _ _ _ => true) false 0 7 3 8192 0 42 100 0 false ex_process.

Lemma process_chunk_witness : exists q p1, ex_asked true = Some (126976, q, p1) /\
  let T := Z.abs (get_type 42 (sreg (kern p1))) in
  if 126976 =? MAP_FAILED then areas p1 = areas ex_process /\ shm_ok 42 ex_shm (if true then 0 + 1 else 0) (kern p1)
  else areas p1 = insert_vm_area (126976, 126976 + T, 42) (areas ex_process) /\ areas_ok (areas p1) /\ shm_ok 42 ex_shm (0 + 1) (kern p1) /\
    let '(z, p2) := usp_shm_free true true 7 3 42 p1 in
    if true then
      z = T /\ shm_ok 42 ex_shm 0 (kern p2) /\
      (exists l1 st l2, areas p1 = l1 ++ (st, st + T, 42) :: l2 /\ areas p2 = l1 ++ l2 /\ Forall (fun v => ~ chunk_area 42 T v) l1) /\
      (Forall (fun v => ~ chunk_area 42 T v) (areas ex_process) -> areas p2 = areas ex_process)
    else z = 0 /\ p2 = p1.
Proof.
  destruct (ex_asked true) as [[[a q] p1]|] eqn:E; [|by vm_compute in E].
  assert (a = 126976 /\ Z.abs (get_type 42 (sreg (kern p1))) = 4096) as [-> Ht].
  { assert (match ex_asked true with Some (a, _, p1) => a = 126976 /\ Z.abs (get_type 42 (sreg (kern p1))) = 4096 | None => False end) as Hc
      by (split; vm_compute; reflexivity). by rewrite E in Hc. }
  exists q, p1. split; [done|].
  assert (forall nm x, ~ binds (sreg ex_shm) nm x) as Hno by (intros nm x (k & _ & H1 & H2 & _); cbn in H2; lia).
  apply (process_chunk true (fun _ _ => true) (fun _ _ _ => true) false 0 7 3 8192 0 42 100 0 false ex_process ex_shm 0 126976 q p1);
    [lia|done|done|lia| | |lia| | |exact E|lia|by rewrite Ht|by rewrite Ht].
  - split; [repeat constructor|]. constructor; [by vm_compute|constructor].
  - constructor; [exact ex_empty_ok|done|]. left. split_and!; [done..|]. intros x. apply Hno.
  - split; [unfold PAGE_SIZE; vm_compute; done|]. right. split; [unfold PAGE_SIZE; lia|]. split; [by apply not_elem_of_nil|]. intros nm. apply Hno.
  - intros _. split_and!; [lia|done|]. intros x. apply Hno.
Defined.
