(* ===== verification/Fifo.v ===== *)
(** * Real time FIFOs: fifos.c.

    A FIFO joins real time tasks, which never wait for it, and Linux processes,
    which may sleep in it.  Its buffer works like a mailbox's; its semaphores
    are binary, with their own queues of sleeping processes, and a process is
    woken through a ring that a service request empties. *)

From S2P Require Import Prelude Resume Ring MbxRing.

(** ** State *)

(** Processes, and the three semaphores of each FIFO. *)
Abbreviation pid := Z.
Inductive fsem := FSnd (minor : nat) | FRcv (minor : nat) | FSem (minor : nat).
#[export] Instance fsem_eq_dec : EqDecision fsem.
Proof. solve_decision. Defined.

Record F_SEM := MkFsem { free : Z; fqueue : list pid }.
Record FIFO := MkFifo {
  fbuf : mbxbuf; waiting : option pid; opncnt : Z; malloc_type : Z;
  pol_asyn_pended : Z; fhandler : Z; fname : list byte
}.
(** A ring of requests: [in], [out] and the slots. *)
Record reqq (A : Type) := MkReqq { rin : Z; rout : Z; slot : Z -> option A }.
Arguments MkReqq {A} _ _ _. Arguments rin {A} _. Arguments rout {A} _. Arguments slot {A} _ _.

Record fst := MkFst {
  fifos : nat -> FIFO; fsems : fsem -> F_SEM;
  blocked : pid -> Z; lxprio : pid -> Z;    (* LX_TASK and rt_priority *)
  current : pid; sigpend : pid -> bool;     (* signal_pending() *)
  polled : nat -> bool;                     (* waitqueue_active() || asynq *)
  taskq : reqq pid; pol_asyn_q : reqq nat
}.

Definition MAX_FIFOS := 64.
Definition MAXREQS := 64.
Definition ENODEV := 19.
Definition EINVAL := 22.
Definition ENOMEM := 12.
Definition EBADF := 9.
Definition EBUSY := 16.
Definition EAGAIN := 11.
Definition EFAULT := 14.
Definition ERESTARTSYS := 512.

Definition fifo_set (f : FIFO -> FIFO) (m : nat) (s : fst) : fst :=
  MkFst (<[m := f (fifos s m)]> (fifos s)) (fsems s) (blocked s) (lxprio s) (current s)
    (sigpend s) (polled s) (taskq s) (pol_asyn_q s).
Definition fsem_set (m : fsem) (v : F_SEM) (s : fst) : fst :=
  MkFst (fifos s) (<[m := v]> (fsems s)) (blocked s) (lxprio s) (current s)
    (sigpend s) (polled s) (taskq s) (pol_asyn_q s).
Definition blocked_set (p : pid) (v : Z) (s : fst) : fst :=
  MkFst (fifos s) (fsems s) (<[p := v]> (blocked s)) (lxprio s) (current s)
    (sigpend s) (polled s) (taskq s) (pol_asyn_q s).
Definition taskq_set (v : reqq pid) (s : fst) : fst :=
  MkFst (fifos s) (fsems s) (blocked s) (lxprio s) (current s) (sigpend s) (polled s) v (pol_asyn_q s).
Definition pol_asyn_set (v : reqq nat) (s : fst) : fst :=
  MkFst (fifos s) (fsems s) (blocked s) (lxprio s) (current s) (sigpend s) (polled s) (taskq s) v.
Definition set_fbuf (b : mbxbuf) (f : FIFO) : FIFO :=
  MkFifo b (waiting f) (opncnt f) (malloc_type f) (pol_asyn_pended f) (fhandler f) (fname f).
Definition set_waiting (w : option pid) (f : FIFO) : FIFO :=
  MkFifo (fbuf f) w (opncnt f) (malloc_type f) (pol_asyn_pended f) (fhandler f) (fname f).
Definition set_opncnt (n : Z) (f : FIFO) : FIFO :=
  MkFifo (fbuf f) (waiting f) n (malloc_type f) (pol_asyn_pended f) (fhandler f) (fname f).
Definition set_malloc_type (n : Z) (f : FIFO) : FIFO :=
  MkFifo (fbuf f) (waiting f) (opncnt f) n (pol_asyn_pended f) (fhandler f) (fname f).
Definition set_pended (n : Z) (f : FIFO) : FIFO :=
  MkFifo (fbuf f) (waiting f) (opncnt f) (malloc_type f) n (fhandler f) (fname f).
Definition set_fhandler (h : Z) (f : FIFO) : FIFO :=
  MkFifo (fbuf f) (waiting f) (opncnt f) (malloc_type f) (pol_asyn_pended f) h (fname f).
Definition set_fname (n : list byte) (f : FIFO) : FIFO :=
  MkFifo (fbuf f) (waiting f) (opncnt f) (malloc_type f) (pol_asyn_pended f) (fhandler f) n.

(** ** Queues and rings *)

(** The priority order of [enqueue_blocked]: a larger [rt_priority] goes first. *)
Fixpoint lx_insert (prio : pid -> Z) (p : pid) (l : list pid) : list pid :=
  match l with
  | [] => [p]
  | x :: l' => if prio p <=? prio x then x :: lx_insert prio p l' else p :: l
  end.
Definition enqueue_blocked (p : pid) (m : fsem) (s : fst) : fst :=
  let s := blocked_set p 1 s in
  fsem_set m (MkFsem (free (fsems s m)) (lx_insert (lxprio s) p (fqueue (fsems s m)))) s.
Definition dequeue_blocked (p : pid) (m : fsem) (s : fst) : fst :=
  let s := blocked_set p 0 s in
  fsem_set m (MkFsem (free (fsems s m)) (filter (fun x => x <> p) (fqueue (fsems s m)))) s.

Definition req_put {A} (v : A) (q : reqq A) : reqq A :=
  MkReqq (Z.land (rin q + 1) (MAXREQS - 1)) (rout q) (<[rin q := Some v]> (slot q)).
Definition pend_task (p : pid) (s : fst) : fst := taskq_set (req_put p (taskq s)) s.

(** The first loop of [rtf_sysrq_handler]: the processes to wake, in order. *)
Fixpoint drain {A} (fuel : nat) (q : reqq A) : option (list (option A) * reqq A) :=
  match fuel with
  | O => None
  | S fuel =>
      if rout q =? rin q then Some ([], q)
      else match drain fuel (MkReqq (rin q) (Z.land (rout q + 1) (MAXREQS - 1)) (slot q)) with
           | Some (l, q') => Some (slot q (rout q) :: l, q')
           | None => None
           end
  end.
Definition rtf_sysrq_handler (s : fst) : option (list (option pid) * list (option nat) * fst) :=
  match drain (S (Z.to_nat MAXREQS)) (taskq s), drain (S (Z.to_nat MAXREQS)) (pol_asyn_q s) with
  | Some (l1, q1), Some (l2, q2) =>
      let s := pol_asyn_set q2 (taskq_set q1 s) in
      Some (l1, l2, foldl (fun s m => match m with Some m => fifo_set (set_pended 0) m s | None => s end) s l2)
  | _, _ => None
  end.

(** ** Semaphores *)

(** [mbx_sem_signal]; a FIFO is given for the semaphores of its buffer. *)
Definition mbx_sem_signal (m : fsem) (fifop : option nat) (s : fst) : fst :=
  match fqueue (fsems s m) with
  | p :: _ => pend_task p (dequeue_blocked p m s)
  | [] =>
      let s := fsem_set m (MkFsem 1 []) s in
      match fifop with
      | Some n =>
          let f := fifos s n in
          if (pol_asyn_pended f =? 0)
             && (negb (avbs (fbuf f) =? 0) || negb (frbs (fbuf f) =? 0)) && polled s n
          then pol_asyn_set (req_put n (pol_asyn_q s)) (fifo_set (set_pended 1) n s)
          else s
      | None => s
      end
  end.

Definition mbx_signal (n : nat) (s : fst) : fst :=
  match waiting (fifos s n) with
  | Some p => pend_task p (fifo_set (set_waiting None) n s)
  | None => s
  end.

Definition mbx_sem_wait_if (m : fsem) (s : fst) : Z * fst :=
  if negb (free (fsems s m) =? 0) then (1, fsem_set m (MkFsem 0 (fqueue (fsems s m))) s) else (0, s).

(** A process that is still in the queue leaves it, and frees the semaphore
    when it was the last one. *)
Definition leave_sem (p : pid) (m : fsem) (s : fst) : fst :=
  let s := dequeue_blocked p m s in
  match fqueue (fsems s m) with [] => fsem_set m (MkFsem 1 []) s | _ => s end.

Definition mbx_sem_wait (m : fsem) (s : fst) : res fst Z :=
  let p := current s in
  if free (fsems s m) =? 0 then
    sched* s := stop LinuxSleep (enqueue_blocked p m s) in
    let ret := if sigpend s p then - ERESTARTSYS else 0 in
    if negb (blocked s p =? 0) then Done (if ret =? 0 then -1 else ret) (leave_sem p m s)
    else Done ret s
  else Done 0 (fsem_set m (MkFsem 0 (fqueue (fsems s m))) s).

(** With a timeout; a signal returns at once, and leaves the queue as it is. *)
Definition mbx_sem_wait_timed (m : fsem) (s : fst) : res fst Z :=
  let p := current s in
  if free (fsems s m) =? 0 then
    sched* s := stop LinuxSleep (enqueue_blocked p m s) in
    if sigpend s p then Done (- ERESTARTSYS) s
    else if negb (blocked s p =? 0) then Done (-1) (leave_sem p m s)
    else Done 0 s
  else Done 0 (fsem_set m (MkFsem 0 (fqueue (fsems s m))) s).

(** [mbx_wait], [mbx_wait_timed]: sleep while the counter is zero. *)
Definition mbx_wait (n : nat) (fravbs : mbxbuf -> Z) (s : fst) : res fst Z :=
  let p := current s in
  if fravbs (fbuf (fifos s n)) =? 0 then
    sched* s := stop LinuxSleep (fifo_set (set_waiting (Some p)) n s) in
    if sigpend s p then Done (- ERESTARTSYS) s
    else if bool_decide (waiting (fifos s n) = Some p)
    then Done (-1) (fifo_set (set_waiting None) n s)
    else Done 0 s
  else Done 0 s.
Definition mbx_wait_timed := mbx_wait.

Definition mbx_sem_init (m : fsem) (value : Z) (s : fst) : fst := fsem_set m (MkFsem value []) s.
Definition mbx_sem_delete (m : fsem) (s : fst) : fst :=
  let l := fqueue (fsems s m) in
  fsem_set m (MkFsem (free (fsems s m)) []) (foldl (fun s p => pend_task p s) s l).

(** ** The buffer

    The routines are those of the mailboxes, word for word but for the copy
    from and to user space; the preview reads at the local [fbyte]. *)
Definition mbx_put : mbxbuf -> list byte -> Z -> mbxbuf * Z := mbxput.
Definition mbx_ovrwr_put : mbxbuf -> list byte -> Z -> mbxbuf * Z := mbxovrwrput.
Definition mbx_get : mbxbuf -> Z -> mbxbuf * list byte * Z := mbxget.
Definition mbx_evdrp (b : mbxbuf) (n : Z) : list byte * Z := mbxevdrp b n true.

Definition mbx_init (n : nat) (sz : Z) (mem : list byte) (s : fst) : fst :=
  let s := mbx_sem_init (FSnd n) 1 s in
  let s := mbx_sem_init (FRcv n) 1 s in
  fifo_set (fun f => set_fbuf (mbxbuf_init sz mem) (set_waiting None f)) n s.
Definition mbx_delete (n : nat) (s : fst) : fst :=
  mbx_sem_delete (FRcv n) (mbx_sem_delete (FSnd n) (mbx_signal n s)).

(** Put into and get out of the FIFO's buffer. *)
Definition fput (n : nat) (msg : list byte) (s : fst) : list byte * fst :=
  let '(b, rest) := mbx_put (fbuf (fifos s n)) msg (zlen msg) in
  (zdrop (zlen msg - rest) msg, fifo_set (set_fbuf b) n s).
Definition fget (n : nat) (k : Z) (s : fst) : list byte * Z * fst :=
  let '(b, out, rest) := mbx_get (fbuf (fifos s n)) k in
  (out, rest, fifo_set (set_fbuf b) n s).

(** ** Sending *)

Fixpoint send_loop (fuel : nat) (n : nat) (msg : list byte) (s : fst) : res fst Z :=
  if zlen msg =? 0 then Done 0 (mbx_sem_signal (FSnd n) (Some n) s)
  else match fuel with
  | O => NoFuel s
  | S fuel =>
      let* (r, s) := mbx_wait n frbs s in
      if negb (r =? 0) then Done (zlen msg) (mbx_sem_signal (FSnd n) (Some n) s)
      else
        let '(msg, s) := fput n msg s in
        send_loop fuel n msg (mbx_signal n s)
  end.
Definition mbx_send (fuel : nat) (n : nat) (msg : list byte) (s : fst) : res fst Z :=
  let* (r, s) := mbx_sem_wait (FSnd n) s in
  if negb (r =? 0) then Done (zlen msg) s else send_loop fuel n msg s.
Definition mbx_send_timed (fuel : nat) (n : nat) (msg : list byte) (s : fst) : res fst Z :=
  let* (r, s) := mbx_sem_wait_timed (FSnd n) s in
  if negb (r =? 0) then Done (zlen msg) s else send_loop fuel n msg s.

(** The part of a conditional send once the semaphore is taken. *)
Definition send_now (n : nat) (msg : list byte) (s : fst) : Z * fst :=
  let s := fsem_set (FSnd n) (MkFsem 0 (fqueue (fsems s (FSnd n)))) s in
  let '(msg, s) := fput n msg s in
  (zlen msg, mbx_sem_signal (FSnd n) (Some n) (mbx_signal n s)).
Definition mbx_send_wp (n : nat) (msg : list byte) (s : fst) : Z * fst :=
  if negb (free (fsems s (FSnd n)) =? 0) && negb (frbs (fbuf (fifos s n)) =? 0)
  then send_now n msg s else (zlen msg, s).
Definition mbx_send_if (n : nat) (msg : list byte) (s : fst) : Z * fst :=
  if negb (free (fsems s (FSnd n)) =? 0) && (zlen msg <=? frbs (fbuf (fifos s n)))
  then send_now n msg s else (zlen msg, s).
Definition mbx_ovrwr_send (n : nat) (msg : list byte) (s : fst) : Z * fst :=
  if negb (free (fsems s (FSnd n)) =? 0) then
    let s := fsem_set (FSnd n) (MkFsem 0 (fqueue (fsems s (FSnd n)))) s in
    let '(b, r) := mbx_ovrwr_put (fbuf (fifos s n)) msg (zlen msg) in
    let s := fifo_set (set_fbuf b) n s in
    (r, mbx_sem_signal (FSnd n) (Some n) (mbx_signal n s))
  else (zlen msg, s).

(** ** Receiving *)

Fixpoint receive_loop (fuel : nat) (n : nat) (k : Z) (got : list byte) (s : fst) : res fst (Z * list byte) :=
  if k =? 0 then Done (0, got) (mbx_sem_signal (FRcv n) (Some n) s)
  else match fuel with
  | O => NoFuel s
  | S fuel =>
      let* (r, s) := mbx_wait n avbs s in
      if negb (r =? 0) then Done (k, got) (mbx_sem_signal (FRcv n) (Some n) s)
      else
        let '(out, k, s) := fget n k s in
        receive_loop fuel n k (got ++ out) (mbx_signal n s)
  end.
Definition mbx_receive (fuel : nat) (n : nat) (k : Z) (s : fst) : res fst (Z * list byte) :=
  let* (r, s) := mbx_sem_wait (FRcv n) s in
  if negb (r =? 0) then Done (k, []) s else receive_loop fuel n k [] s.
Definition mbx_receive_timed (fuel : nat) (n : nat) (k : Z) (s : fst) : res fst (Z * list byte) :=
  let* (r, s) := mbx_sem_wait_timed (FRcv n) s in
  if negb (r =? 0) then Done (k, []) s else receive_loop fuel n k [] s.

(** [mbx_receive_wjo] waits for the first bytes only. *)
Definition mbx_receive_wjo (n : nat) (k : Z) (s : fst) : res fst (Z * list byte) :=
  let* (r, s) := mbx_sem_wait (FRcv n) s in
  if negb (r =? 0) then Done (k, []) s
  else if k =? 0 then Done (k, []) (mbx_sem_signal (FRcv n) (Some n) s)
  else
    let* (r, s) := mbx_wait n avbs s in
    if negb (r =? 0) then Done (k, []) (mbx_sem_signal (FRcv n) (Some n) s)
    else
      let '(out, k, s) := fget n k s in
      Done (k, out) (mbx_sem_signal (FRcv n) (Some n) (mbx_signal n s)).

Definition receive_now (n : nat) (k : Z) (s : fst) : Z * list byte * fst :=
  let s := fsem_set (FRcv n) (MkFsem 0 (fqueue (fsems s (FRcv n)))) s in
  let '(out, k, s) := fget n k s in
  (k, out, mbx_sem_signal (FRcv n) (Some n) (mbx_signal n s)).
Definition mbx_receive_wp (n : nat) (k : Z) (s : fst) : Z * list byte * fst :=
  if negb (free (fsems s (FRcv n)) =? 0) && negb (avbs (fbuf (fifos s n)) =? 0)
  then receive_now n k s else (k, [], s).
Definition mbx_receive_if (n : nat) (k : Z) (s : fst) : Z * list byte * fst :=
  if negb (free (fsems s (FRcv n)) =? 0) && (k <=? avbs (fbuf (fifos s n)))
  then receive_now n k s else (k, [], s).

(** ** The services *)

(** [VALID_FIFO]: the error, 0 for a FIFO in use. *)
Definition VALID_FIFO (minor : Z) (s : fst) : Z :=
  if MAX_FIFOS <=? minor then - ENODEV
  else if opncnt (fifos s (Z.to_nat minor)) =? 0 then - EINVAL else 0.

(** The wait of [rtf_reset] and [rtf_resize] until no sender is at work: the
    send semaphore is taken, or a process waits in the FIFO. *)
Fixpoint quiesce (fuel : nat) (n : nat) (s : fst) : res fst Z :=
  let '(semval, s) := mbx_sem_wait_if (FSnd n) s in
  if negb (semval =? 0) || negb (bool_decide (waiting (fifos s n) = None)) then Done semval s
  else match fuel with
       | O => NoFuel s
       | S fuel => sched* s := stop LinuxSleep s in quiesce fuel n s
       end.

Definition rtf_reset (fuel : nat) (minor : Z) (s : fst) : res fst Z :=
  let e := VALID_FIFO minor s in
  if negb (e =? 0) then Done e s
  else
    let n := Z.to_nat minor in
    let* (r, s) := mbx_sem_wait (FRcv n) s in
    if negb (r =? 0) then Done (- EBADF) s
    else
      let* (semval, s) := quiesce fuel n s in
      let b := fbuf (fifos s n) in
      let s := fifo_set (set_fbuf (MkMbxbuf (size b) 0 0 0 (size b) (bufadr b))) n s in
      let s := if negb (semval =? 0) then mbx_sem_signal (FSnd n) (Some n) s else mbx_signal n s in
      Done 0 (mbx_sem_signal (FRcv n) (Some n) s).

(** [newbuf] is what [kmalloc] or [vmalloc] gives. *)
Definition kmalloc_limit := 4096 * 32.
Definition rtf_resize (fuel : nat) (minor sz : Z) (newbuf : option (list byte)) (s : fst) : res fst Z :=
  let e := VALID_FIFO minor s in
  if negb (e =? 0) then Done e s
  else if sz =? 0 then Done (- EINVAL) s
  else match newbuf with
  | None => Done (- ENOMEM) s
  | Some newbuf =>
    let n := Z.to_nat minor in
    let* (r, s) := mbx_sem_wait (FRcv n) s in
    if negb (r =? 0) then Done (- EBADF) s
    else
      let* (semval, s) := quiesce fuel n s in
      if sz <? avbs (fbuf (fifos s n)) then
        let s := if negb (semval =? 0) then mbx_sem_signal (FSnd n) (Some n) s else s in
        Done (- EBUSY) (mbx_sem_signal (FRcv n) (Some n) s)
      else
        let '(b, out, rest) := mbx_get (fbuf (fifos s n)) sz in
        let b := MkMbxbuf (size b) 0 (sz - rest) (sz - rest) rest (out ++ zdrop (zlen out) newbuf) in
        let grown := MkMbxbuf sz (fbyte b) (lbyte b) (avbs b) (frbs b) (bufadr b) in
        let s := fifo_set (set_malloc_type (if sz <=? kmalloc_limit then 1 else 2)) n s in
        let s :=
          if negb (semval =? 0) then mbx_sem_signal (FSnd n) (Some n) (fifo_set (set_fbuf grown) n s)
          else if size b <? sz then mbx_signal n (fifo_set (set_fbuf grown) n s)
          else fifo_set (set_fbuf b) n s in
        Done sz (mbx_sem_signal (FRcv n) (Some n) s)
  end.

Definition rtf_create (fuel : nat) (minor sz : Z) (mem : option (list byte)) (s : fst) : res fst Z :=
  if MAX_FIFOS <=? minor then Done (- ENODEV) s
  else
    let n := Z.to_nat minor in
    if opncnt (fifos s n) =? 0 then
      match mem with
      | None => Done (- ENOMEM) s
      | Some mem =>
          let s := fifo_set (fun f => set_malloc_type (if sz <=? kmalloc_limit then 1 else 2)
                                        (set_fhandler 0 (set_opncnt 1 f))) n s in
          let s := mbx_sem_init (FSem n) 0 (mbx_init n sz mem s) in
          Done 0 (fifo_set (set_pended 0) n s)
      end
    else
      let* (_, s) := (if size (fbuf (fifos s n)) <? sz then rtf_resize fuel minor sz mem s else Done 0 s) in
      Done 0 (fifo_set (fun f => set_opncnt (opncnt f + 1) f) n s).

Definition rtf_destroy (minor : Z) (s : fst) : Z * fst :=
  let e := VALID_FIFO minor s in
  if negb (e =? 0) then (e, s)
  else
    let n := Z.to_nat minor in
    let s := fifo_set (fun f => set_opncnt (opncnt f - 1) f) n s in
    let s :=
      if opncnt (fifos s n) =? 0 then
        let s := mbx_delete n (fifo_set (set_fhandler 0) n s) in
        fifo_set (fun f => set_fname [] (set_pended 0 f)) n s
      else s in
    (opncnt (fifos s n), s).

Definition rtf_create_handler (minor handler : Z) (s : fst) : Z * fst :=
  if (MAX_FIFOS <=? minor) || (handler =? 0) then (- EINVAL, s)
  else (0, fifo_set (set_fhandler handler) (Z.to_nat minor) s).

(** The services that never wait return how many bytes they have moved. *)
Definition rtf_put (minor : Z) (msg : list byte) (s : fst) : Z * fst :=
  let e := VALID_FIFO minor s in
  if negb (e =? 0) then (e, s)
  else let '(r, s) := mbx_send_wp (Z.to_nat minor) msg s in (zlen msg - r, s).
Definition rtf_put_if (minor : Z) (msg : list byte) (s : fst) : Z * fst :=
  let e := VALID_FIFO minor s in
  if negb (e =? 0) then (e, s)
  else let '(r, s) := mbx_send_if (Z.to_nat minor) msg s in (zlen msg - r, s).
Definition rtf_ovrwr_put (minor : Z) (msg : list byte) (s : fst) : Z * fst :=
  let e := VALID_FIFO minor s in
  if negb (e =? 0) then (e, s) else mbx_ovrwr_send (Z.to_nat minor) msg s.
Definition rtf_get (minor k : Z) (s : fst) : Z * list byte * fst :=
  let e := VALID_FIFO minor s in
  if negb (e =? 0) then (e, [], s)
  else let '(r, out, s) := mbx_receive_wp (Z.to_nat minor) k s in (k - r, out, s).
Definition rtf_get_if (minor k : Z) (s : fst) : Z * list byte * fst :=
  let e := VALID_FIFO minor s in
  if negb (e =? 0) then (e, [], s)
  else let '(r, out, s) := mbx_receive_if (Z.to_nat minor) k s in (k - r, out, s).
Definition rtf_evdrp (minor k : Z) (s : fst) : Z * list byte :=
  let e := VALID_FIFO minor s in
  if negb (e =? 0) then (e, [])
  else let '(out, r) := mbx_evdrp (fbuf (fifos s (Z.to_nat minor))) k in (k - r, out).
Definition rtf_get_avbs (minor : Z) (s : fst) : Z :=
  let e := VALID_FIFO minor s in if negb (e =? 0) then e else avbs (fbuf (fifos s (Z.to_nat minor))).
Definition rtf_get_frbs (minor : Z) (s : fst) : Z :=
  let e := VALID_FIFO minor s in if negb (e =? 0) then e else frbs (fbuf (fifos s (Z.to_nat minor))).

Definition rtf_sem_init (minor value : Z) (s : fst) : Z * fst :=
  let e := VALID_FIFO minor s in
  if negb (e =? 0) then (e, s) else (0, mbx_sem_init (FSem (Z.to_nat minor)) value s).
Definition rtf_sem_post (minor : Z) (s : fst) : Z * fst :=
  let e := VALID_FIFO minor s in
  if negb (e =? 0) then (e, s) else (0, mbx_sem_signal (FSem (Z.to_nat minor)) None s).
Definition rtf_sem_trywait (minor : Z) (s : fst) : Z * fst :=
  let e := VALID_FIFO minor s in
  if negb (e =? 0) then (e, s) else mbx_sem_wait_if (FSem (Z.to_nat minor)) s.
Definition rtf_sem_destroy (minor : Z) (s : fst) : Z * fst :=
  let e := VALID_FIFO minor s in
  if negb (e =? 0) then (e, s) else (0, mbx_sem_delete (FSem (Z.to_nat minor)) s).

(** ** The device file; [hret] is what the handler of the FIFO returns. *)

Definition rtf_read (n : nat) (k : Z) (nonblock : bool) (hret : Z) (s : fst) : res fst (Z * list byte) :=
  if nonblock then
    let '(r, out, s) := mbx_receive_wp n k s in
    if k - r =? 0 then Done (- EAGAIN, out) s
    else Done (if hret <? 0 then hret else k - r, out) s
  else
    let* (ro, s) := mbx_receive_wjo n k s in
    let c := k - ro.1 in
    if c =? 0 then Done (c, ro.2) s else Done (if hret <? 0 then hret else c, ro.2) s.

Definition rtf_write (fuel : nat) (n : nat) (msg : list byte) (nonblock : bool) (hret : Z) (s : fst) : res fst Z :=
  if nonblock then
    let '(r, s) := mbx_send_wp n msg s in
    if zlen msg - r =? 0 then Done (- EAGAIN) s
    else Done (if hret <? 0 then hret else zlen msg - r) s
  else
    let* (r, s) := mbx_send fuel n msg s in
    Done (if hret <? 0 then hret else zlen msg - r) s.
