(* ===== verification/Msg.v ===== *)
(** * Messages and remote procedure calls: msg.c.

    A sender hands its message to a task that waits for it, or queues in the
    task's [msg_queue] in priority order and passes its priority on; a caller
    of a procedure waits in the [ret_queue] until the answer. *)

From S2P Require Import Prelude Resume MbxRing Kernel Sched Tasks Sem Api.

Definition RTP_HIGERR := PInt RT_RWLINV.
Definition TASK_INVAL := PInt RTE_OBJINV.
Definition SEND_RCV_BYTES := 0xFFFFFFFF.
Definition RT_SCHED_LOWEST_PRIORITY := 0x3fffFfff.

(** [CHECK_SENDER_MAGIC] and [CHECK_RECEIVER_MAGIC]. *)
Definition sender_arg (task : ptr) (s : kst) : option tid :=
  match task with
  | PTask t => if valid_task t s then Some t else None
  | _ => None
  end.
Definition receiver_arg_ok (task : ptr) (s : kst) : bool :=
  match task with PTask t => valid_task t s | p => is_null p end.

(** ** Building blocks *)

(** The receiver waits, for anybody or for [cur]. *)
Definition receiver_ready (t cur : tid) (s : kst) : bool :=
  has (state (tasks s t)) RT_SCHED_RECEIVE &&
  (is_null (msgq_task (tasks s t)) || same (msgq_task (tasks s t)) (PTask cur)).

(** Give the message to the waiting receiver; whether that has readied it. *)
Definition hand_over (t cur : tid) (m : msgword) (s : kst) : bool * kst :=
  let s := tset set_msg t m s in
  let s := tset set_msgq_task t (PTask cur) s in
  let s := tset set_retq_task t NULL s in
  unblock (Z.lor RT_SCHED_RECEIVE RT_SCHED_DELAYED) t (rem_timed_task t s).

(** [msg_not_sent]. *)
Definition msg_not_sent (cur t : tid) (s : kst) : ptr * kst :=
  let retp := blocked_on (tasks s cur) in
  let '(r, s) :=
    if negb (same retp RTP_OBJREM) then
      let s := dequeue_blocked cur (set_task_prio_from_resq t s).2 in
      (PInt (if above_higerr retp then RTE_TIMOUT else RTE_UNBLKD), s)
    else (PInt RTE_OBJREM, tset set_prio_passed_to cur NULL s) in
  (r, tset set_msgq_task cur (PTask cur) s).

(** [msg_not_received]. *)
Definition msg_not_received (cur : tid) (s : kst) : ptr * kst :=
  let s := tset set_retq_task cur NULL s in
  (PInt (if negb (same (blocked_on (tasks s cur)) RTP_UNBLKD) then RTE_TIMOUT else RTE_UNBLKD), s).

(** [if (rt_current->msg_queue.task != rt_current) msg_not_sent();]. *)
Definition sent (cur t : tid) (s : kst) : ptr * kst :=
  if negb (same (msgq_task (tasks s cur)) (PTask cur)) then msg_not_sent cur t s else (PTask t, s).

(** ** Sending *)

Definition send_block (t cur : tid) (timeout : bool) (s : kst) : res kst unit :=
  let s := enqueue_blocked cur (QMsg t) 0 s in
  let s := tset set_state cur
             (Z.lor (state (tasks s cur))
                (if timeout then Z.lor RT_SCHED_SEND RT_SCHED_DELAYED else RT_SCHED_SEND)) s in
  let* (_, s) := pass_prio (PTask t) cur s in
  let s := rem_ready_current cur s in
  rt_schedule (if timeout then enq_timed_task cur s else s).

Definition rt_send (task : ptr) (m : msgword) (s : kst) : res kst ptr :=
  match sender_arg task s with
  | None => Done TASK_INVAL s
  | Some t =>
      let cur := rt_current s in
      sched* s :=
        if receiver_ready t cur s then
          let '(woken, s) := hand_over t cur m s in
          if woken then RT_SCHEDULE t s else Done tt s
        else
          let s := tset set_msgq_task cur (PTask t) (tset set_msg cur m s) in
          send_block t cur false s in
      let '(r, s) := sent cur t s in Done r s
  end.

Definition rt_send_if (task : ptr) (m : msgword) (s : kst) : res kst ptr :=
  match sender_arg task s with
  | None => Done TASK_INVAL s
  | Some t =>
      let cur := rt_current s in
      if receiver_ready t cur s then
        let '(woken, s) := hand_over t cur m s in
        sched* s := (if woken then RT_SCHEDULE t s else Done tt s) in
        if negb (same (msgq_task (tasks s cur)) (PTask cur)) then
          Done NULL (tset set_msgq_task cur (PTask cur) s)
        else Done (PTask t) s
      else Done NULL s
  end.

Definition rt_send_until (task : ptr) (m : msgword) (time : Z) (s : kst) : res kst ptr :=
  match sender_arg task s with
  | None => Done TASK_INVAL s
  | Some t =>
      let cur := rt_current s in
      sched* s :=
        if receiver_ready t cur s then
          let '(woken, s) := hand_over t cur m s in
          if woken then RT_SCHEDULE t s else Done tt s
        else
          let s := tset set_resume_time cur time (tset set_msgq_task cur (PTask t) s) in
          if smp_time_h s (cpuid s) <? time then
            send_block t cur true (tset set_msg cur m s)
          else Done tt s in
      let '(r, s) := sent cur t s in Done r s
  end.
Definition rt_send_timed (task : ptr) (m : msgword) (delay : Z) (s : kst) : res kst ptr :=
  rt_send_until task m (rt_get_time s + delay) s.

(** ** Remote procedure calls *)

(** The answer, when the call has been returned: [*result = rt_current->msg]. *)
Definition rpc_end (cur t : tid) (s : kst) : (ptr * option msgword) * kst :=
  if same (msgq_task (tasks s cur)) (PTask cur)
  then ((PTask t, Some (msg (tasks s cur))), s)
  else let '(r, s) := msg_not_sent cur t s in ((r, None), s).

(** The caller blocks in the queue where it has been put. *)
Definition rpc_wait (t cur : tid) (st : Z) (timeout : bool) (s : kst) : res kst (ptr * option msgword) :=
  let s := tset set_state cur
             (Z.lor (state (tasks s cur)) (if timeout then Z.lor st RT_SCHED_DELAYED else st)) s in
  let* (_, s) := pass_prio (PTask t) cur s in
  let s := rem_ready_current cur s in
  let s := tset set_msgq_task cur (PTask t) s in
  let s := if timeout then enq_timed_task cur s else s in
  sched* s := RT_SCHEDULE_BOTH t s in
  let '(r, s) := rpc_end cur t s in Done r s.

Definition rpc_ready (t cur : tid) (m : msgword) (s : kst) : kst :=
  let s := (hand_over t cur m (tset set_msg cur m s)).2 in
  enqueue_blocked cur (QRet t) 0 s.
Definition rpc_queue (t cur : tid) (m : msgword) (s : kst) : kst :=
  enqueue_blocked cur (QMsg t) 0 (tset set_msg cur m s).

Definition rt_rpc (task : ptr) (m : msgword) (s : kst) : res kst (ptr * option msgword) :=
  match sender_arg task s with
  | None => Done (TASK_INVAL, None) s
  | Some t =>
      let cur := rt_current s in
      if receiver_ready t cur s then rpc_wait t cur RT_SCHED_RETURN false (rpc_ready t cur m s)
      else rpc_wait t cur RT_SCHED_RPC false (rpc_queue t cur m s)
  end.

Definition rt_rpc_if (task : ptr) (m : msgword) (s : kst) : res kst (ptr * option msgword) :=
  match sender_arg task s with
  | None => Done (TASK_INVAL, None) s
  | Some t =>
      let cur := rt_current s in
      if receiver_ready t cur s then rpc_wait t cur RT_SCHED_RETURN false (rpc_ready t cur m s)
      else Done (NULL, None) s
  end.

Definition rt_rpc_until (task : ptr) (m : msgword) (time : Z) (s : kst) : res kst (ptr * option msgword) :=
  match sender_arg task s with
  | None => Done (TASK_INVAL, None) s
  | Some t =>
      let cur := rt_current s in
      let s := tset set_resume_time cur time s in
      if time <=? smp_time_h s (cpuid s) then Done (NULL, None) s
      else if receiver_ready t cur s then rpc_wait t cur RT_SCHED_RETURN true (rpc_ready t cur m s)
      else rpc_wait t cur RT_SCHED_RPC true (rpc_queue t cur m s)
  end.
Definition rt_rpc_timed (task : ptr) (m : msgword) (delay : Z) (s : kst) : res kst (ptr * option msgword) :=
  rt_rpc_until task m (rt_get_time s + delay) s.

Definition rt_isrpc (t : tid) (s : kst) : Z := Z.land (state (tasks s t)) RT_SCHED_RETURN.

(** [_rt_return]: the answer [result] to the caller [t]. *)
Definition _rt_return (t cur : tid) (result : msgword) (s : kst) : res kst unit :=
  let s := dequeue_blocked t s in
  let '(sched, s) := set_task_prio_from_resq cur s in
  let s := tset set_msg t result s in
  let s := tset set_msgq_task t (PTask t) s in
  let '(woken, s) := unblock (Z.lor RT_SCHED_RETURN RT_SCHED_DELAYED) t (rem_timed_task t s) in
  if woken then if negb (sched =? 0) then RT_SCHEDULE_BOTH t s else RT_SCHEDULE t s
  else if negb (sched =? 0) then rt_schedule s else Done tt s.

Definition waits_answer (t cur : tid) (s : kst) : bool :=
  has (state (tasks s t)) RT_SCHED_RETURN && same (msgq_task (tasks s t)) (PTask cur).

Definition rt_return (task : ptr) (result : msgword) (s : kst) : res kst ptr :=
  match sender_arg task s with
  | None => Done TASK_INVAL s
  | Some t =>
      let cur := rt_current s in
      if waits_answer t cur s then sched* s := _rt_return t cur result s in Done (PTask t) s
      else Done NULL s
  end.

(** ** Receiving *)

(** Has [t] sent to [cur], and waits for it to be received. *)
Definition has_sent (t cur : tid) (s : kst) : bool :=
  has (state (tasks s t)) (Z.lor RT_SCHED_SEND RT_SCHED_RPC)
  && same (msgq_task (tasks s t)) (PTask cur).

(** Take the message of the waiting sender [t]. *)
Definition accept (t cur : tid) (s : kst) : res kst msgword :=
  let s := rem_timed_task t (dequeue_blocked t s) in
  let m := msg (tasks s t) in
  let s := tset set_msgq_task cur (PTask t) s in
  if has (state (tasks s t)) RT_SCHED_SEND then
    let s := tset set_msgq_task t (PTask t) s in
    let '(sched, s) := set_task_prio_from_resq cur s in
    let '(woken, s) := unblock (Z.lor RT_SCHED_SEND RT_SCHED_DELAYED) t s in
    sched* s := (if woken then if negb (sched =? 0) then RT_SCHEDULE_BOTH t s else RT_SCHEDULE t s
                 else Done tt s) in
    Done m s
  else
    let s := enqueue_blocked t (QRet cur) 0 s in
    Done m (tset set_state t
              (Z.lor (clear (state (tasks s t)) (Z.lor RT_SCHED_RPC RT_SCHED_DELAYED)) RT_SCHED_RETURN) s).

(** A proxy is answered at once. *)
Definition answer_proxy (task : ptr) (cur : tid) (s : kst) : res kst unit :=
  match task with
  | PTask t =>
      match proxy (tasks s t) with
      | Some p => if same (receiver p) cur then let* (_, s) := rt_return task (Word 0) s in Done tt s
                  else Done tt s
      | None => Done tt s
      end
  | _ => Done tt s
  end.

(** The end of the receives. *)
Definition receive_end (cur : tid) (m : option msgword) (s : kst) : res kst (ptr * option msgword) :=
  let '(task, s) :=
    if negb (is_null (retq_task (tasks s cur))) then msg_not_received cur s
    else (msgq_task (tasks s cur), s) in
  let s := tset set_msgq_task cur (PTask cur) s in
  sched* s := answer_proxy task cur s in
  Done (task, m) s.

Definition receive_from (task : ptr) (cur : tid) (s : kst) : ptr :=
  if is_null task then first_msg cur s else task.

(** Nobody has sent: the caller waits, for [t] or, when that is itself, for anybody. *)
Definition receive_block (t cur : tid) (timeout : bool) (s : kst) : res kst unit :=
  let s := tset set_state cur
             (Z.lor (state (tasks s cur))
                (if timeout then Z.lor RT_SCHED_RECEIVE RT_SCHED_DELAYED else RT_SCHED_RECEIVE)) s in
  let s := rem_ready_current cur s in
  let s := tset set_msgq_task cur (if negb (same t cur) then PTask t else NULL) s in
  rt_schedule (if timeout then enq_timed_task cur s else s).

Definition rt_receive (task : ptr) (s : kst) : res kst (ptr * option msgword) :=
  if negb (receiver_arg_ok task s) then Done (TASK_INVAL, None) s
  else
    let cur := rt_current s in
    match receive_from task cur s with
    | PTask t =>
        if has_sent t cur s then
          let* (m, s) := accept t cur s in receive_end cur (Some m) s
        else
          let s := tset set_retq_task cur RTP_HIGERR s in
          sched* s := receive_block t cur false s in
          receive_end cur (Some (msg (tasks s cur))) s
    | _ => Fault s
    end.

Definition rt_receive_if (task : ptr) (s : kst) : res kst (ptr * option msgword) :=
  if negb (receiver_arg_ok task s) then Done (TASK_INVAL, None) s
  else
    let cur := rt_current s in
    match receive_from task cur s with
    | PTask t =>
        if has_sent t cur s then
          let* (m, s) := accept t cur s in
          let '(task, s) :=
            if negb (is_null (retq_task (tasks s cur))) then (NULL, tset set_retq_task cur NULL s)
            else (msgq_task (tasks s cur), s) in
          let s := tset set_msgq_task cur (PTask cur) s in
          sched* s := answer_proxy task cur s in
          Done (task, Some m) s
        else Done (NULL, None) s
    | _ => Fault s
    end.

Definition rt_receive_until (task : ptr) (time : Z) (s : kst) : res kst (ptr * option msgword) :=
  if negb (receiver_arg_ok task s) then Done (TASK_INVAL, None) s
  else
    let cur := rt_current s in
    match receive_from task cur s with
    | PTask t =>
        if has_sent t cur s then
          let* (m, s) := accept t cur s in receive_end cur (Some m) s
        else
          let s := tset set_resume_time cur time (tset set_retq_task cur RTP_HIGERR s) in
          if smp_time_h s (cpuid s) <? time then
            sched* s := receive_block t cur true s in
            receive_end cur (Some (msg (tasks s cur))) s
          else receive_end cur None s
    | _ => Fault s
    end.
Definition rt_receive_timed (task : ptr) (delay : Z) (s : kst) : res kst (ptr * option msgword) :=
  rt_receive_until task (rt_get_time s + delay) s.

(** Look at the message of a waiting sender. *)
Definition rt_evdrp (task : ptr) (s : kst) : res kst (ptr * option msgword) :=
  if negb (receiver_arg_ok task s) then Done (TASK_INVAL, None) s
  else
    let cur := rt_current s in
    match receive_from task cur s with
    | PTask t => if has_sent t cur s then Done (PTask t, Some (msg (tasks s t))) s
                 else Done (NULL, None) s
    | _ => Fault s
    end.

(** ** Messages of any size *)

Definition memcopy (dst src n : Z) (s : kst) : kst :=
  set_umem (<[dst := ztake n (umem s src) ++ zdrop n (umem s dst)]> (umem s)) s.

(** The control block a message points to. *)
Definition mcb_of (m : msgword) (s : kst) : option mcb_t :=
  match m with
  | McbStack t => Some (stackmcb (tasks s t))
  | McbField t => Some (mcb (tasks s t))
  | Word _ => None
  end.

(** [SET_RPC_MCB] and [SET_SEND_MCB], in the frame of the caller. *)
Definition set_rpc_mcb (smsg rmsg ssize rsize : Z) (s : kst) : kst :=
  tset set_stackmcb (rt_current s) (Mcb smsg ssize rmsg rsize) s.
Definition set_send_mcb (m size : Z) (s : kst) : kst :=
  tset set_stackmcb (rt_current s) (Mcb m size 0 (i32 SEND_RCV_BYTES)) s.

(** The part of a call with a control block: nothing for a null task. *)
Definition with_mcb (task : ptr) (setm : kst -> kst)
    (call : msgword -> kst -> res kst (ptr * option msgword)) (s : kst) : res kst ptr :=
  if is_null task then Done NULL s
  else let* (r, s) := call (McbStack (rt_current s)) (setm s) in Done r.1 s.

Definition rt_rpcx (task : ptr) (smsg rmsg ssize rsize : Z) : kst -> res kst ptr :=
  with_mcb task (set_rpc_mcb smsg rmsg ssize rsize) (rt_rpc task).
Definition rt_rpcx_if (task : ptr) (smsg rmsg ssize rsize : Z) : kst -> res kst ptr :=
  with_mcb task (set_rpc_mcb smsg rmsg ssize rsize) (rt_rpc_if task).
Definition rt_rpcx_until (task : ptr) (smsg rmsg ssize rsize time : Z) : kst -> res kst ptr :=
  with_mcb task (set_rpc_mcb smsg rmsg ssize rsize) (fun m => rt_rpc_until task m time).
Definition rt_rpcx_timed (task : ptr) (smsg rmsg ssize rsize delay : Z) : kst -> res kst ptr :=
  with_mcb task (set_rpc_mcb smsg rmsg ssize rsize) (fun m => rt_rpc_timed task m delay).
Definition rt_sendx (task : ptr) (m size : Z) : kst -> res kst ptr :=
  with_mcb task (set_send_mcb m size) (rt_rpc task).
Definition rt_sendx_until (task : ptr) (m size time : Z) : kst -> res kst ptr :=
  with_mcb task (set_send_mcb m size) (fun w => rt_rpc_until task w time).
Definition rt_sendx_timed (task : ptr) (m size delay : Z) : kst -> res kst ptr :=
  with_mcb task (set_send_mcb m size) (fun w => rt_rpc_timed task w delay).

Definition rt_sendx_if (task : ptr) (m size : Z) (s : kst) : res kst ptr :=
  match sender_arg task s with
  | None => Done TASK_INVAL s
  | Some t =>
      let cur := rt_current s in
      if receiver_ready t cur s then
        let c := mcb (tasks s t) in
        let s := tset set_mcb t (Mcb m size (rbuf c) (rbytes c)) s in
        let '(woken, s) := hand_over t cur (McbField t) s in
        sched* s := (if woken then RT_SCHEDULE t s else Done tt s) in
        if negb (same (msgq_task (tasks s cur)) (PTask cur)) then
          Done NULL (tset set_msgq_task cur (PTask cur) s)
        else Done (PTask t) s
      else Done NULL s
  end.

Definition rt_returnx (task : ptr) (m size : Z) (s : kst) : res kst ptr :=
  match sender_arg task s with
  | None => Done TASK_INVAL s
  | Some t =>
      let cur := rt_current s in
      if waits_answer t cur s then
        match mcb_of (msg (tasks s t)) s with
        | None => Fault s
        | Some c =>
            let size := if rbytes c <? size then rbytes c else size in
            let s := if negb (m =? 0) && (0 <? size) then memcopy (rbuf c) m size s else s in
            sched* s := _rt_return t cur (Word 0) s in Done (PTask t) s
        end
      else Done NULL s
  end.

(** [DO_RCV_MSG]: copy what fits; the sender of an [rt_sendx] is answered.  The
    second result is [*len]. *)
Definition DO_RCV_MSG (task : ptr) (m size : Z) (w : option msgword) (s : kst) : res kst (ptr * Z) :=
  match task, w with
  | PTask _, Some w =>
      match mcb_of w s with
      | None => Fault s
      | Some c =>
          let len := if size <=? sbytes c then size else sbytes c in
          let s := if negb (m =? 0) && negb (len =? 0) then memcopy m (sbuf c) len s else s in
          if (rbuf c =? 0) && (u32 (rbytes c) =? SEND_RCV_BYTES) then
            let* (_, s) := rt_return task (Word 0) s in Done (task, len) s
          else Done (task, len) s
      end
  | _, _ => Done (task, 0) s
  end.
Definition rcvx (call : kst -> res kst (ptr * option msgword)) (m size : Z) (s : kst) : res kst (ptr * Z) :=
  let* (r, s) := call s in DO_RCV_MSG r.1 m size r.2 s.

Definition rt_evdrpx (task : ptr) (m size : Z) : kst -> res kst (ptr * Z) := rcvx (rt_evdrp task) m size.
Definition rt_receivex (task : ptr) (m size : Z) : kst -> res kst (ptr * Z) := rcvx (rt_receive task) m size.
Definition rt_receivex_if (task : ptr) (m size : Z) : kst -> res kst (ptr * Z) := rcvx (rt_receive_if task) m size.
Definition rt_receivex_until (task : ptr) (m size time : Z) : kst -> res kst (ptr * Z) :=
  rcvx (rt_receive_until task time) m size.
Definition rt_receivex_timed (task : ptr) (m size delay : Z) : kst -> res kst (ptr * Z) :=
  rcvx (rt_receive_timed task delay) m size.

(** ** Proxies *)

(** [proxy_task]: send the pending messages, then suspend; each of the [fuel]
    turns sends one message or suspends. *)
Fixpoint proxy_task (fuel : nat) (me : tid) (s : kst) : res kst unit :=
  match fuel with
  | O => Done tt s
  | S fuel =>
      match proxy (tasks s me) with
      | None => Fault s
      | Some p =>
          if negb (nmsgs p =? 0) then
            let s := tset set_proxy me (Some (MkProxy (receiver p) (pmsg p) (nmsgs p - 1) (nbytes p))) s in
            let* (_, s) := rt_rpc (PTask (receiver p)) (Word (pmsg p)) s in
            proxy_task fuel me s
          else
            let* (_, s) := rt_task_suspend (Some me) s in
            proxy_task fuel me s
      end
  end.

(** [__rt_proxy_attach]: [px] is the descriptor [rt_malloc] gives, [stack] the
    stack; [agent] is the body of the proxy task. *)
Definition __rt_proxy_attach (agent : Z) (task : option tid) (px : option tid) (stack : option Z)
    (m nbytes prio : Z) (s : kst) : ptr * kst :=
  let cur := rt_current s in
  let t := default cur task in
  if negb (valid_task t s) then (NULL, s)
  else match px with
  | None => (NULL, s)
  | Some x =>
      let prio := if prio =? -1 then
                    if base_priority (tasks s cur) =? RT_SCHED_LINUX_PRIORITY
                    then RT_SCHED_LOWEST_PRIORITY else base_priority (tasks s cur)
                  else prio in
      let '(e, s) := rt_task_init x agent 0 stack prio 0 0 s in
      if negb (e =? 0) then (NULL, s)
      else (PTask x, tset set_proxy x (Some (MkProxy t m 0 nbytes)) s)
  end.

Definition rt_proxy_detach (t : tid) (s : kst) : res kst Z := task_delete t s.

Definition rt_trigger (t : tid) (s : kst) : res kst ptr :=
  match proxy (tasks s t) with
  | Some p =>
      if valid_task t s then
        let s := tset set_proxy t (Some (MkProxy (receiver p) (pmsg p) (nmsgs p + 1) (nbytes p))) s in
        let* (_, s) := rt_task_resume t s in Done (PTask (receiver p)) s
      else Done NULL s
  | None => Done NULL s
  end.
