(* ===== verification/MsgFacts.v ===== *)
(** * Theorems on messages: a remote procedure call as a protocol.

    A caller [A] and a server [B].  The call goes through phases: the message
    waits, it has been received, it has been answered; or the caller gives up,
    or the server is gone.  The caller's side assumes of the others that they
    move the call along these phases only; the server's side, the receive and
    the return, is proved to do so. *)

From S2P Require Import Prelude Resume MbxRing Kernel KernelFacts Sched Keeps Tasks Sem Api Msg.
From S2P Require Import SemFacts.
From stdpp Require Import list sets relations.
#[local] Open Scope Z_scope.

(** ** What passing a priority does not touch *)

Record talk (s s' : kst) : Prop := {
  tk_msg : forall x, msg (tasks s' x) = msg (tasks s x);
  tk_msgq : forall x, msgq_task (tasks s' x) = msgq_task (tasks s x);
  tk_retq : forall x, retq_task (tasks s' x) = retq_task (tasks s x);
  tk_proxy : forall x, proxy (tasks s' x) = proxy (tasks s x);
  tk_magic : forall x, magic (tasks s' x) = magic (tasks s x)
}.
#[export] Instance talk_preorder : PreOrder talk.
Proof. split; [by intros s|]. intros s1 s2 s3 [] []. split; intros; congruence. Qed.
Lemma keeps_talk s s' : keeps s s' -> talk s s'.
Proof. by intros []. Qed.
#[local] Hint Resolve keeps_talk : core.

Lemma prio_turn_talk t p map s : let '(_, _, s') := prio_turn t p map s in talk s s'.
Proof.
  unfold prio_turn. set (s0 := tset set_priority t p s).
  assert (talk s s0) as H0 by (apply keeps_talk, keeps_tset; apply _).
  destruct (_ =? _).
  - unfold reprio_ready. destruct (_ || _); [|done]. etrans; [exact H0|].
    apply keeps_talk. etrans; [|apply keeps_enq_ready]. keep.
  - destruct (inherits t s0); [|done]. destruct (is_first t q s0); [done|]. etrans; [exact H0|by split].
Qed.

Lemma pass_prio_talk to from s map s' : pass_prio to from s = Done map s' -> talk s s'.
Proof.
  unfold pass_prio. generalize (pass_fuel s) (priority (tasks s from)) 0. intros fuel p. revert to s map.
  induction fuel as [|fuel IH]; intros to s map map0; cbn [pass_prio_loop].
  - destruct to as [z|t| |]; try done; [by destruct z; intros [= _ <-]|].
    destruct (_ <? _); [done|]. by intros [= _ <-].
  - destruct to as [z|t| |]; try done; [by destruct z; intros [= _ <-]|].
    destruct (_ <? _); [|by intros [= _ <-]]. pose proof (prio_turn_talk t p map0 s) as Ht.
    destruct (prio_turn t p map0 s) as [[[to|] m] s1]; [|by intros [= _ <-]].
    intros H. etrans; [exact Ht|]. by eapply IH.
Qed.

(** Taking back a priority. *)
Lemma keeps_set_task_prio t s : keeps s (set_task_prio_from_resq t s).2.
Proof. unfold set_task_prio_from_resq. destruct (_ =? 0); [apply keeps_renq|done]. Qed.

(** ** Joining a queue whose waiters pass their priority on *)

(** [A] joins [q] between [s] and [s']; for everybody else less is waited for than before. *)
Record joins (U : list tid) (A : tid) (q : qid) (s s' : kst) : Prop := {
  jo_sems : sems s' = sems s;
  jo_queue : queues s' q ≡ₚ A :: queues s q;
  jo_queues : forall q', q' <> q -> queues s' q' = queues s q';
  jo_inherits : forall x q', x <> A -> inherits x s' = Some q' -> inherits x s = Some q' /\
    has (state (tasks s' x)) RT_SCHED_SEMAPHORE = has (state (tasks s x)) RT_SCHED_SEMAPHORE;
  jo_self : inherits A s' = Some q /\ has (state (tasks s' A)) RT_SCHED_SEMAPHORE = false;
  jo_heads : forall q', queue_task q' s' = queue_task q' s \/ queue_task q' s' = NULL \/
    exists u, u ∈ U /\ queue_task q' s' = PTask u
}.

Lemma joins_waits_ok U A q s s' : joins U A q s s' -> waits_ok U s ->
  NoDup (queues s q) -> (forall q', A ∉ queues s q') ->
  (queue_task q s' = NULL \/ exists u, u ∈ U /\ queue_task q s' = PTask u) -> waits_ok U s'.
Proof.
  intros [Hs Hq Hqs Hi [Hi1 Hi2] Hh] Hw Hn HA Hhead x q0 Hx Hx0.
  destruct (decide (x = A)) as [->|Hne].
  - rewrite Hi1 in Hx0. injection Hx0 as <-. split; [rewrite Hq; apply elem_of_cons; by left|].
    split; [rewrite Hq; by apply NoDup_cons|]. split; [intros q' Hq'; by rewrite Hqs|].
    unfold holder. by rewrite Hi2.
  - destruct (Hi x q0 Hne Hx0) as [Hx1 Hsem]. destruct (Hw x q0 Hx Hx1) as (H1 & H2 & H3 & H4).
    split; [|split; [|split]].
    + destruct (decide (q0 = q)) as [->|]; [|by rewrite Hqs]. rewrite Hq. apply elem_of_cons. by right.
    + destruct (decide (q0 = q)) as [->|]; [|by rewrite Hqs]. rewrite Hq. by apply NoDup_cons.
    + intros q' Hq'. destruct (decide (q' = q)) as [->|]; [|rewrite Hqs by done; by apply H3].
      rewrite Hq. apply not_elem_of_cons. split; [done|]. by apply H3.
    + unfold holder in *. rewrite Hsem. destruct (has (state (tasks s x)) _); [by rewrite Hs|].
      destruct (Hh q0) as [->|[->|Hu]]; [exact H4|by left|by right].
Qed.

(** ** Waking the other side *)

Lemma enq_ready_other t x s : x <> t -> tasks (enq_ready_task t s) x = tasks s x.
Proof.
  intros Hx. unfold enq_ready_task, NON_RTAI_TASK_RESUME. cbv zeta. destruct (negb _); [done|].
  unfold pend_wake_up_srq. cbn. unfold insert, fn_insert. by rewrite !decide_False by congruence.
Qed.
Lemma enq_ready_prio t s x : priority (tasks (enq_ready_task t s) x) = priority (tasks s x).
Proof.
  unfold enq_ready_task, NON_RTAI_TASK_RESUME. cbv zeta. destruct (negb _); [done|].
  unfold pend_wake_up_srq. cbn. unfold insert, fn_insert. by repeat case_decide; subst.
Qed.
Lemma unblock_other mask t x s : x <> t -> tasks (unblock mask t s).2 x = tasks s x.
Proof.
  intros Hx. unfold unblock. destruct (_ =? _); [done|]. cbv zeta. destruct (_ =? _); cbn [snd].
  - rewrite enq_ready_other by done. by rewrite tset_other by congruence.
  - by rewrite tset_other by congruence.
Qed.
(** The bits that are not woken stay. *)
Lemma unblock_has mask t s M :
  Z.land (Z.lnot mask) M = M -> has RT_SCHED_READY M = false ->
  has (Z.lor RT_SCHED_READY RT_SCHED_SFTRDY) M = false ->
  forall x, has (state (tasks (unblock mask t s).2 x)) M = has (state (tasks s x)) M.
Proof.
  intros HM H1 H2 x. destruct (decide (x = t)) as [->|Hx]; [|by rewrite unblock_other].
  assert (has (clear (state (tasks s t)) mask) M = has (state (tasks s t)) M) as Hc.
  { unfold has, clear. by rewrite <- Z.land_assoc, HM. }
  unfold unblock. destruct (_ =? _) eqn:E0; [done|]. cbv zeta. rewrite tset_same. cbn [state set_state].
  destruct (clear _ _ =? _) eqn:E1; cbn [snd]; [|rewrite tset_same; exact Hc]. zbool.
  rewrite <- Hc, E1. unfold enq_ready_task, NON_RTAI_TASK_RESUME. cbv zeta. rewrite H1.
  destruct (negb _); cbn [tasks rset set_ready]; [rewrite tset_same; exact H1|].
  unfold pend_wake_up_srq. cbn. unfold insert, fn_insert. rewrite !decide_True by done. exact H2.
Qed.

(** ** The phases of a call *)

Section call.
Context (A B : tid) (m : msgword).

Inductive phase := Waiting | Received | Answered | GivenUp | Gone.
(** What the others may do to the call: receive it, answer it, end its wait, go. *)
Inductive moves : phase -> phase -> Prop :=
| mv_receive : moves Waiting Received
| mv_answer : moves Received Answered
| mv_release : moves Waiting Answered
| mv_unblock ph : ph <> Answered -> moves ph GivenUp
| mv_remove ph : ph <> Answered -> moves ph Gone.

Abbreviation off s := ((A ∉ queues s (QMsg B)) /\ (A ∉ queues s (QRet B))).
Definition in_phase (ph : phase) (s : kst) : Prop :=
  match ph with
  | Waiting => msgq_task (tasks s A) = PTask B /\ blocked_on (tasks s A) = PQueue (QMsg B) /\
      msg (tasks s A) = m /\ A ∈ queues s (QMsg B) /\ (A ∉ queues s (QRet B))
  | Received => msgq_task (tasks s A) = PTask B /\ blocked_on (tasks s A) = PQueue (QRet B) /\
      A ∈ queues s (QRet B) /\ (A ∉ queues s (QMsg B))
  | Answered => msgq_task (tasks s A) = PTask A /\ off s
  | GivenUp => msgq_task (tasks s A) = PTask B /\ blocked_on (tasks s A) = RTP_UNBLKD
  | Gone => msgq_task (tasks s A) = PTask B /\ blocked_on (tasks s A) = RTP_OBJREM
  end.
Definition in_call (s : kst) : Prop := exists ph, in_phase ph s.
(** The others act within the protocol. *)
Definition call_rely (s s' : kst) : Prop :=
  forall ph, in_phase ph s -> exists ph', rtc moves ph ph' /\ in_phase ph' s'.

Lemma in_phase_keeps ph s s' : keeps s s' -> in_phase ph s -> in_phase ph s'.
Proof.
  intros []. destruct ph; cbn; by rewrite ?k_msgq, ?k_blocked, ?k_msg, ?k_queues.
Qed.
Lemma in_call_keeps s s' : keeps s s' -> in_call s -> in_call s'.
Proof. intros Hk [ph H]. exists ph. by eapply in_phase_keeps. Qed.
Lemma in_call_rely s s' : in_call s -> call_rely s s' -> in_call s'.
Proof. intros [ph H] Hr. destruct (Hr ph H) as (ph' & _ & H'). by exists ph'. Qed.

Abbreviation callwp := (wp in_call call_rely).
Lemma call_schedule_both s : in_call s -> callwp (RT_SCHEDULE_BOTH B s) (fun _ s' => in_call s').
Proof. apply safe_RT_SCHEDULE_BOTH; [apply in_call_keeps|done|apply in_call_rely]. Qed.

(** The outcome of a call: the answer, or an error; the caller is itself again. *)
Definition call_ended (r : ptr * option msgword) (s : kst) : Prop :=
  msgq_task (tasks s A) = PTask A /\
  (r = (PTask B, Some (msg (tasks s A))) /\ off s \/
   (r = (PInt RTE_TIMOUT, None) \/ r = (PInt RTE_UNBLKD, None)) /\ (forall q, A ∉ queues s q) \/
   r = (PInt RTE_OBJREM, None)).

Lemma dequeue_blocked_off t s q : t ∉ queues (dequeue_blocked t s) q.
Proof. change (t ∉ unlink t (queues s q)). rewrite elem_of_unlink. by intros [? _]. Qed.
Lemma dequeue_blocked_other t x s : x <> t -> tasks (dequeue_blocked t s) x = tasks s x.
Proof.
  intros. unfold dequeue_blocked. rewrite tset_other by congruence.
  change (tasks (tset set_prio_passed_to t NULL s) x = tasks s x). by rewrite tset_other by congruence.
Qed.

Lemma rpc_end_ok s : A <> B -> in_call s -> let '(r, s') := rpc_end A B s in call_ended r s'.
Proof.
  intros HAB [ph Hph]. unfold rpc_end.
  destruct (decide (msgq_task (tasks s A) = PTask A)) as [Ea|Ea].
  - rewrite bool_decide_true by done. split; [done|]. left. split; [done|].
    destruct ph; cbn in Hph; destruct Hph as [Hm Hph]; rewrite Ea in Hm; congruence.
  - rewrite bool_decide_false by done. unfold msg_not_sent.
    pose proof (keeps_set_task_prio B s) as Hk. set (s1 := (set_task_prio_from_resq B s).2) in *.
    destruct (decide (blocked_on (tasks s A) = RTP_OBJREM)) as [Er|Er].
    + rewrite Er, bool_decide_true by done. cbn [negb]. split; [by rewrite tset_same|]. by right; right.
    + rewrite bool_decide_false by done. cbn [negb]. split; [by rewrite tset_same|]. right; left. split.
      * destruct ph; cbn in Hph; destruct Hph as [Hm Hph]; try done.
        -- destruct Hph as [-> _]. by left.
        -- destruct Hph as [-> _]. by left.
        -- rewrite Hph. by right.
      * intros q. apply dequeue_blocked_off.
Qed.

(** ** The caller *)

Record handed (t cur : tid) (w : msgword) (s s' : kst) : Prop := {
  ho_queues : queues s' = queues s;
  ho_sems : sems s' = sems s;
  ho_all : all_tasks s' = all_tasks s;
  ho_other : forall x, x <> t -> tasks s' x = tasks s x;
  ho_msg : msg (tasks s' t) = w;
  ho_msgq : msgq_task (tasks s' t) = PTask cur;
  ho_retq : retq_task (tasks s' t) = NULL;
  ho_blocked : blocked_on (tasks s' t) = blocked_on (tasks s t);
  ho_has : forall M, M ∈ [RT_SCHED_SEMAPHORE; Z.lor RT_SCHED_SEND (Z.lor RT_SCHED_RPC RT_SCHED_RETURN)] ->
    forall x, has (state (tasks s' x)) M = has (state (tasks s x)) M
}.
Lemma all_tasks_keeps s s' : keeps s s' -> all_tasks s' = all_tasks s.
Proof. intros []. unfold all_tasks. by rewrite k_tun, k_tasklist. Qed.

Lemma rem_timed_tasks t s : tasks (rem_timed_task t s) = tasks s.
Proof. unfold rem_timed_task. by destruct (has _ _). Qed.

Lemma hand_over_handed t cur w s : handed t cur w s (hand_over t cur w s).2.
Proof.
  unfold hand_over. set (s3 := tset set_retq_task t NULL _).
  assert (keeps s3 (unblock (Z.lor RT_SCHED_RECEIVE RT_SCHED_DELAYED) t (rem_timed_task t s3)).2) as Hk.
  { etrans; [apply keeps_rem_timed|apply keeps_unblock]. }
  assert (forall {X} (g : RT_TASK -> X) x, (forall v r, g (set_retq_task v r) = g r) ->
    (forall v r, g (set_msgq_task v r) = g r) -> (forall v r, g (set_msg v r) = g r) -> g (tasks s3 x) = g (tasks s x)) as Hg.
  { intros X g x H1 H2 H3. unfold s3. rewrite !tset_field; auto. }
  split.
  - apply (k_queues _ _ Hk).
  - apply (k_sems _ _ Hk).
  - apply (all_tasks_keeps _ _ Hk).
  - intros x Hx. rewrite unblock_other, rem_timed_tasks by done. unfold s3. by rewrite !tset_other by congruence.
  - rewrite (k_msg _ _ Hk). unfold s3. rewrite !(tset_field _ msg), tset_same by done. done.
  - rewrite (k_msgq _ _ Hk). unfold s3. rewrite (tset_field _ msgq_task), tset_same by done. done.
  - rewrite (k_retq _ _ Hk). unfold s3. by rewrite tset_same.
  - rewrite (k_blocked _ _ Hk). by apply Hg.
  - intros M HM x. rewrite unblock_has; [rewrite rem_timed_tasks; by rewrite (Hg _ state)|..];
      repeat (apply elem_of_cons in HM as [->|HM]; [by vm_compute|]); by apply elem_of_nil in HM.
Qed.

(** What a caller needs of the rest of the system. *)
Record call_pre (s : kst) : Prop := {
  cp_state : state (tasks s A) = RT_SCHED_READY;
  cp_unqueued : forall q, A ∉ queues s q;
  cp_nodup : NoDup (queues s (QMsg B)) /\ NoDup (queues s (QRet B));
  cp_waits : waits_ok (all_tasks s) s;
  cp_tasks : A ∈ all_tasks s /\ B ∈ all_tasks s;
  cp_head : msgq_task (tasks s B) = NULL \/ exists u, u ∈ all_tasks s /\ msgq_task (tasks s B) = PTask u
}.

Lemma inherits_ext s s' x : sems s' = sems s -> blocked_on (tasks s' x) = blocked_on (tasks s x) ->
  (forall M, M ∈ [RT_SCHED_SEMAPHORE; Z.lor RT_SCHED_SEND (Z.lor RT_SCHED_RPC RT_SCHED_RETURN)] ->
    has (state (tasks s' x)) M = has (state (tasks s x)) M) -> inherits x s' = inherits x s.
Proof.
  intros Hs Hb HM. unfold inherits. rewrite Hb, Hs.
  rewrite !HM by (repeat first [apply list_elem_of_here | apply list_elem_of_further]). done.
Qed.

(** A state in which the caller is about to join a queue, and what it has left as it was. *)
Record about (s s1 : kst) : Prop := {
  ab_sems : sems s1 = sems s;
  ab_queues : queues s1 = queues s;
  ab_all : all_tasks s1 = all_tasks s;
  ab_state : state (tasks s1 A) = RT_SCHED_READY;
  ab_inherits : forall x, x <> A -> inherits x s1 = inherits x s;
  ab_sem : forall x, x <> A -> has (state (tasks s1 x)) RT_SCHED_SEMAPHORE = has (state (tasks s x)) RT_SCHED_SEMAPHORE;
  ab_heads : forall q, queue_task q s1 = queue_task q s \/ queue_task q s1 = NULL \/
    exists u, u ∈ all_tasks s /\ queue_task q s1 = PTask u
}.
Definition enter (q : qid) (st : Z) (s1 : kst) : kst :=
  let s2 := enqueue_blocked A q 0 s1 in tset set_state A (Z.lor (state (tasks s2 A)) st) s2.

Lemma enter_task q st s1 x : x <> A -> tasks (enter q st s1) x = tasks s1 x.
Proof.
  intros Hx. unfold enter, enqueue_blocked. cbv zeta. rewrite tset_other by congruence.
  change (tasks (tset set_blocked_on A (PQueue q) s1) x = tasks s1 x). by rewrite tset_other by congruence.
Qed.
Lemma enter_self q st s1 : tasks (enter q st s1) A =
  set_state (Z.lor (state (tasks s1 A)) st) (set_blocked_on (PQueue q) (tasks s1 A)).
Proof.
  unfold enter, enqueue_blocked. cbv zeta. rewrite tset_same.
  change (tasks (qset ?q ?l ?s) A) with (tasks s A). by rewrite tset_same.
Qed.
Lemma enter_queue q st s1 : queues (enter q st s1) q ≡ₚ A :: queues s1 q.
Proof. apply (enqueue_blocked_perm A q 0 s1). Qed.
Lemma enter_queues q st s1 q' : q' <> q -> queues (enter q st s1) q' = queues s1 q'.
Proof.
  intros Hq. unfold enter, enqueue_blocked. cbv zeta.
  change (queues (tset ?f ?t ?v ?s) q') with (queues s q'). by rewrite qset_other by congruence.
Qed.

(** The states that go with the two queues. *)
Definition msg_wait (q : qid) (st : Z) : Prop :=
  match q with
  | QMsg t => t = B /\ (st = RT_SCHED_RPC \/ st = Z.lor RT_SCHED_RPC RT_SCHED_DELAYED)
  | QRet t => t = B /\ (st = RT_SCHED_RETURN \/ st = Z.lor RT_SCHED_RETURN RT_SCHED_DELAYED)
  | _ => False
  end.

Lemma enter_waits_ok q st s s1 : call_pre s -> A <> B -> msg_wait q st -> about s s1 ->
  (queue_task q s1 = NULL \/ exists u, u ∈ all_tasks s /\ queue_task q s1 = PTask u) ->
  waits_ok (all_tasks (enter q st s1)) (enter q st s1).
Proof.
  intros [Hst Hun [Hn1 Hn2] Hw Ht Hh] HAB Hq [Sm Qs Al St In Se Hd] Hhead.
  change (all_tasks (enter q st s1)) with (all_tasks s1). rewrite Al.
  assert (forall q', queue_task q' (enter q st s1) = queue_task q' s1) as Hqt.
  { assert (forall {X} (g : RT_TASK -> X) x, (forall v r, g (set_state v r) = g r) ->
      (forall v r, g (set_blocked_on v r) = g r) -> g (tasks (enter q st s1) x) = g (tasks s1 x)) as Hg.
    { intros X g x H1 H2. destruct (decide (x = A)) as [->|]; [|by rewrite enter_task].
      by rewrite enter_self, H1, H2. }
    intros [m0|t|t|c|t]; [done|by apply (Hg _ msgq_task)|by apply (Hg _ retq_task)|done|done]. }
  apply (joins_waits_ok _ A q s); [|done| |done|].
  - split.
    + done.
    + by rewrite enter_queue, Qs.
    + intros q' Hq'. by rewrite enter_queues, Qs.
    + intros x q' Hx. rewrite <- (In x Hx), <- (Se x Hx), enter_task by done. intros <-. split; [|done].
      symmetry. apply inherits_ext; [done|by rewrite enter_task|intros; by rewrite enter_task].
    + unfold inherits. rewrite enter_self. cbn [state set_state set_blocked_on blocked_on]. rewrite St.
      destruct q as [|t|t| |]; try done; cbn in Hq; destruct Hq as [_ [-> | ->]]; split; by vm_compute.
    + intros q'. rewrite Hqt. apply Hd.
  - destruct q as [|t|t| |]; cbn in Hq; try done; by destruct Hq as [-> _].
  - by rewrite Hqt.
Qed.

Lemma rem_ready_current_task {X} (g : RT_TASK -> X) t s x : (forall v r, g (set_lnxstate v r) = g r) ->
  g (tasks (rem_ready_current t s) x) = g (tasks s x).
Proof.
  intros Hg. unfold rem_ready_current, NON_RTAI_TASK_SUSPEND. cbv zeta.
  destruct (_ =? 0); [|done]. change (tasks (runlink t ?s) x) with (tasks s x). by rewrite tset_field.
Qed.

(** The caller has joined the queue: from here it waits. *)
Lemma rpc_wait_ok q st s s1 : call_pre s -> A <> B -> msg_wait q st -> about s s1 ->
  (queue_task q s1 = NULL \/ exists u, u ∈ all_tasks s /\ queue_task q s1 = PTask u) ->
  msg (tasks s1 A) = m ->
  exists s5, rpc_wait B A st false (enqueue_blocked A q 0 s1) =
      (sched* s := RT_SCHEDULE_BOTH B s5 in let '(r, s) := rpc_end A B s in Done r s) /\
    in_phase (match q with QMsg _ => Waiting | _ => Received end) s5 /\
    priority (tasks s5 B) <= priority (tasks s1 A) /\
    msg (tasks s5 B) = msg (tasks s1 B) /\ msgq_task (tasks s5 B) = msgq_task (tasks s1 B) /\
    retq_task (tasks s5 B) = retq_task (tasks s1 B).
Proof.
  intros Hpre HAB Hq Hab Hhead Hm.
  pose proof (enter_waits_ok q st s s1 Hpre HAB Hq Hab Hhead) as Hw. set (s2 := enter q st s1) in *.
  assert (all_tasks s2 = all_tasks s) as Eall by (change (all_tasks s2) with (all_tasks s1); apply Hab).
  destruct (pass_prio_ok (PTask B) A s2 Hw) as (map & s3 & Hp & Hle & [_ Pb Pq _ _] & _).
  { right. exists B. rewrite Eall. split; [apply Hpre|done]. }
  pose proof (pass_prio_talk _ _ _ _ _ Hp) as [Tm Tq Tr _ _].
  pose proof (keeps_rem_current A s3) as Hk. set (s4 := rem_ready_current A s3) in *.
  set (s5 := tset set_msgq_task A (PTask B) s4). exists s5.
  assert (forall {X} (g : RT_TASK -> X), (forall v r, g (set_msgq_task v r) = g r) -> forall x, g (tasks s5 x) = g (tasks s4 x)) as H5.
  { intros X g Hg x. unfold s5. by rewrite tset_field. }
  assert (forall x, x <> A -> tasks s2 x = tasks s1 x) as H2 by (intros; by apply enter_task).
  assert (queues s5 = queues s3) as Eq by (change (queues s4 = queues s3); apply (k_queues _ _ Hk)).
  split; [|split; [|split; [|split; [|split]]]].
  - unfold rpc_wait. fold (enter q st s1). fold s2. by rewrite Hp.
  - assert (msgq_task (tasks s5 A) = PTask B) as E1 by (unfold s5; by rewrite tset_same).
    assert (blocked_on (tasks s5 A) = PQueue q) as E2.
    { rewrite (H5 _ blocked_on), (k_blocked _ _ Hk), Pb by done. unfold s2. by rewrite enter_self. }
    assert (msg (tasks s5 A) = m) as E3.
    { rewrite (H5 _ msg), (k_msg _ _ Hk), Tm by done. unfold s2. by rewrite enter_self. }
    assert (A ∈ queues s5 q) as E4.
    { rewrite Eq, Pq. unfold s2. rewrite enter_queue. apply elem_of_cons. by left. }
    assert (forall q', q' <> q -> A ∉ queues s5 q') as E5.
    { intros q' Hq'. rewrite Eq, Pq. unfold s2. rewrite enter_queues by done. rewrite (ab_queues _ _ Hab). apply Hpre. }
    destruct q as [|t|t| |]; try done; cbn in Hq; destruct Hq as [-> _]; unfold in_phase; split_and!; try done; by apply E5.
  - rewrite (H5 _ priority) by done. unfold s4. rewrite rem_ready_current_task by done.
    etrans; [by apply Hle|]. unfold s2. by rewrite enter_self.
  - by rewrite (H5 _ msg), (k_msg _ _ Hk), Tm, H2 by first [done|congruence].
  - unfold s5. rewrite tset_other by done. by rewrite (k_msgq _ _ Hk), Tq, H2 by first [done|congruence].
  - by rewrite (H5 _ retq_task), (k_retq _ _ Hk), Tr, H2 by first [done|congruence].
Qed.

Lemma about_queue s : call_pre s -> about s (tset set_msg A m s).
Proof.
  intros []. split; try done.
  - by rewrite (tset_field _ state).
  - intros x Hx. apply inherits_ext; [done|by rewrite tset_other by congruence..].
  - intros x Hx. by rewrite tset_other by congruence.
  - intros q. left. destruct q; cbn [queue_task]; try done; by rewrite tset_field.
Qed.
Lemma about_ready s : call_pre s -> A <> B -> about s (hand_over B A m (tset set_msg A m s)).2.
Proof.
  intros Hpre HAB. pose proof (about_queue s Hpre) as [Sm Qs Al St In Se Hd].
  pose proof (hand_over_handed B A m (tset set_msg A m s)) as [].
  split; try congruence.
  - by rewrite ho_other0.
  - intros x Hx. rewrite <- In by done. apply inherits_ext; [done| |intros; by apply ho_has0].
    destruct (decide (x = B)) as [->|]; [done|by rewrite ho_other0].
  - intros x Hx. rewrite <- Se by done. apply ho_has0. apply list_elem_of_here.
  - intros q. destruct (decide (q = QMsg B)) as [->|Hq1]; [right; right; exists A; cbn; split; [apply Hpre|done]|].
    destruct (decide (q = QRet B)) as [->|Hq2]; [by right; left|].
    left. destruct q; cbn [queue_task]; try done; (rewrite ho_other0 by congruence; by rewrite tset_field).
Qed.

(** C11. A remote procedure call, on the caller's side.  The message is handed to a server
    that waits for it, and queued for any other one, in a phase of the protocol; the server is no lower
    than the caller from then on.  Whatever the others do within the protocol, the call never
    faults, it stops in a phase of the protocol only, and when it returns the caller is
    its own again and has the server's answer, or an error and has left all queues,
    or the server is gone. *)
Theorem rt_rpc_correct s : rt_current s = A -> A <> B -> valid_task B s = true -> call_pre s ->
  (exists s1, rt_rpc (PTask B) m s = (sched* s := RT_SCHEDULE_BOTH B s1 in let '(r, s) := rpc_end A B s in Done r s) /\
     priority (tasks s1 B) <= priority (tasks s A) /\
     if receiver_ready B A s then
       in_phase Received s1 /\ msg (tasks s1 B) = m /\ msgq_task (tasks s1 B) = PTask A /\ retq_task (tasks s1 B) = NULL
     else in_phase Waiting s1 /\ msg (tasks s1 B) = msg (tasks s B)) /\
  wp in_call call_rely (rt_rpc (PTask B) m s) call_ended.
Proof.
  intros Hcur HAB Hv Hpre.
  assert (exists s1, rt_rpc (PTask B) m s = (sched* s := RT_SCHEDULE_BOTH B s1 in let '(r, s) := rpc_end A B s in Done r s) /\
     priority (tasks s1 B) <= priority (tasks s A) /\
     if receiver_ready B A s then
       in_phase Received s1 /\ msg (tasks s1 B) = m /\ msgq_task (tasks s1 B) = PTask A /\ retq_task (tasks s1 B) = NULL
     else in_phase Waiting s1 /\ msg (tasks s1 B) = msg (tasks s B)) as H.
  { unfold rt_rpc, sender_arg. rewrite Hv, Hcur. destruct (receiver_ready B A s).
    - pose proof (hand_over_handed B A m (tset set_msg A m s)) as Ho.
      destruct (rpc_wait_ok (QRet B) RT_SCHED_RETURN s (hand_over B A m (tset set_msg A m s)).2) as (s5 & E & Hph & Hle & E1 & E2 & E3);
        try done; [by split; [|left]|by apply about_ready| | |].
      + left. apply (ho_retq _ _ _ _ _ Ho).
      + rewrite (ho_other _ _ _ _ _ Ho) by done. by rewrite tset_same.
      + exists s5. split; [exact E|]. split.
        { etrans; [exact Hle|]. rewrite (ho_other _ _ _ _ _ Ho) by done. by rewrite tset_field. }
        split; [done|]. by rewrite E1, E2, E3, (ho_msg _ _ _ _ _ Ho), (ho_msgq _ _ _ _ _ Ho), (ho_retq _ _ _ _ _ Ho).
    - destruct (rpc_wait_ok (QMsg B) RT_SCHED_RPC s (tset set_msg A m s)) as (s5 & E & Hph & Hle & E1 & E2 & E3);
        try done; [by split; [|left]|by apply about_queue| | |].
      + cbn [queue_task]. rewrite (tset_field _ msgq_task) by done. apply Hpre.
      + by rewrite tset_same.
      + exists s5. split; [exact E|]. split; [etrans; [exact Hle|]; by rewrite tset_field|].
        split; [done|]. rewrite E1. by rewrite tset_other. }
  split; [exact H|]. destruct H as (s1 & -> & _ & Hph). apply wp_rbind.
  eapply wp_mono; [apply call_schedule_both|].
  - destruct (receiver_ready B A s); destruct Hph as [Hph _]; by eexists.
  - intros [] s2 H2. pose proof (rpc_end_ok s2 HAB H2) as He. by destruct (rpc_end A B s2) as [r s3].
Qed.

(** ** The server *)

(** What of the server's the others leave alone while it ends a receive. *)
Definition got_message (s : kst) : Prop :=
  msgq_task (tasks s B) = PTask A /\ retq_task (tasks s B) = NULL /\
  (forall p, proxy (tasks s A) = Some p -> receiver p <> B).
Lemma got_message_keeps s s' : keeps s s' -> got_message s -> got_message s'.
Proof. intros []. unfold got_message. by rewrite k_msgq, k_retq, k_proxy. Qed.

Lemma receive_end_ok G R w s : got_message s ->
  wp G R (receive_end B (Some w) s) (fun r s' => r = (PTask A, Some w) /\ msgq_task (tasks s' B) = PTask B).
Proof.
  intros (Hq & Hr & Hp). unfold receive_end. rewrite Hr. change (negb (is_null NULL)) with false. cbn iota.
  rewrite Hq. unfold answer_proxy. rewrite (tset_field _ proxy) by done.
  destruct (proxy (tasks s A)) as [p|]; [|cbn [rbind wp]; by rewrite tset_same].
  rewrite bool_decide_false by (by apply Hp). cbn [rbind wp]. by rewrite tset_same.
Qed.

(** How a call goes on when it has readied the other task. *)
Definition goes_on (r : kst -> res kst unit) : Prop :=
  r = RT_SCHEDULE_BOTH A \/ r = RT_SCHEDULE A \/ r = rt_schedule \/ r = Done tt.
Lemma goes_on_safe G R (P : kst -> Prop) r s : goes_on r ->
  (forall s s', keeps s s' -> P s -> P s') -> (forall s, P s -> G s) -> (forall s s', P s -> R s s' -> P s') ->
  P s -> wp G R (r s) (fun _ s' => P s').
Proof.
  intros [->|[->|[->| ->]]] H1 H2 H3 HP.
  - by eapply safe_RT_SCHEDULE_BOTH.
  - by eapply safe_RT_SCHEDULE.
  - by eapply safe_rt_schedule.
  - done.
Qed.

(** *** What becomes of a caller whose wait ends *)

(** The bits of [mask] go; if nothing else holds the caller [t0] it is readied, in its processor's chain or, when it
    is not in hard real time, by a request to Linux. *)
Definition released (mask : Z) (t0 : RT_TASK) (s1 : kst) : Prop :=
  let st := clear (state t0) mask in
  (if st =? RT_SCHED_READY then
     if is_hard t0 =? 0 then
       state (tasks s1 A) = Z.lor RT_SCHED_READY RT_SCHED_SFTRDY /\
       exists k, wake_up_srq s1 (cpuid s1) = klist_put (default 0 (lnxtsk t0)) k
     else state (tasks s1 A) = RT_SCHED_READY /\ A ∈ ready s1 (runnable_on_cpus t0)
   else state (tasks s1 A) = st) /\
  (has (state t0) RT_SCHED_DELAYED = true -> forall c, A ∉ timed s1 c).
(** The scheduler runs then: for the processor of the caller, if it was readied, and for the server's own, if its priority has fallen; a
    receive that readies nobody leaves it out. *)
Definition reschedule (mask : Z) (alone : bool) (s s1 : kst) : kst -> res kst unit :=
  let changed := negb (priority (tasks s1 B) =? priority (tasks s B)) in
  if clear (state (tasks s A)) mask =? RT_SCHED_READY then if changed then RT_SCHEDULE_BOTH A else RT_SCHEDULE A
  else if alone && changed then rt_schedule else Done tt.
Lemma reschedule_goes_on mask alone s s1 : goes_on (reschedule mask alone s s1).
Proof. unfold goes_on, reschedule. destruct (_ =? RT_SCHED_READY), (negb _), alone; cbn; auto. Qed.

Lemma unblock_released mask t0 s : state t0 <> RT_SCHED_READY ->
  state (tasks s A) = state t0 -> is_hard (tasks s A) = is_hard t0 -> lnxtsk (tasks s A) = lnxtsk t0 ->
  runnable_on_cpus (tasks s A) = runnable_on_cpus t0 -> (has (state t0) RT_SCHED_DELAYED = true -> forall c, A ∉ timed s c) ->
  let '(woken, s') := unblock mask A s in woken = (clear (state t0) mask =? RT_SCHED_READY) /\ released mask t0 s'.
Proof.
  intros Hst Es Eh El Er Ht. unfold unblock. rewrite Es, (proj2 (Z.eqb_neq _ _) Hst). cbv zeta. rewrite tset_same. cbn [state set_state].
  destruct (clear (state t0) mask =? RT_SCHED_READY) eqn:Ec; (split; [done|]); unfold released; rewrite Ec.
  - split; [|by intros Hd; unfold enq_ready_task; destruct (negb _); apply (Ht Hd)].
    unfold enq_ready_task. rewrite !tset_same. cbn [is_hard set_state]. rewrite Eh. destruct (is_hard t0 =? 0) eqn:E0; cbn [negb].
    + unfold NON_RTAI_TASK_RESUME, pend_wake_up_srq. split.
      * change (tasks (set_wake_up_srq _ ?x) A) with (tasks x A). rewrite !tset_same. cbn [state set_state]. zbool. by rewrite Ec.
      * eexists. cbn [wake_up_srq set_wake_up_srq]. change (cpuid (set_wake_up_srq _ ?x)) with (cpuid x).
        unfold insert, fn_insert. rewrite decide_True by done. rewrite !tset_same. cbn [lnxtsk set_state]. by rewrite El.
    + cbn [runnable_on_cpus set_state]. rewrite Er. split.
      * change (tasks (rset ?c ?l ?x) A) with (tasks x A). rewrite tset_same. cbn [state set_state]. by zbool.
      * rewrite rset_same, elem_of_ready_insert. by left.
  - split; [by rewrite tset_same|done].
Qed.

(** The priority the server falls back to: its own, or that of the first who waits to be received. *)
Definition fallen (waiters : list tid) (s : kst) : Z :=
  match waiters with
  | x :: _ => Z.min (priority (tasks s x)) (base_priority (tasks s B))
  | [] => base_priority (tasks s B)
  end.
Lemma set_task_prio_fallen s : let '(sched, s') := set_task_prio_from_resq B s in
  (owndres (tasks s B) = 0 -> priority (tasks s' B) = fallen (queues s (QMsg B)) s) /\
  (sched =? 0) = (priority (tasks s' B) =? priority (tasks s B)) /\ (forall x, x <> B -> tasks s' x = tasks s x) /\ timed s' = timed s.
Proof.
  unfold set_task_prio_from_resq. destruct (Z.eqb_spec (owndres (tasks s B)) 0) as [Ho|Ho]; [|split_and!; try done; by rewrite !Z.eqb_refl].
  unfold _set_task_prio_from_resq, renq_ready_task. set (v := match queues s (QMsg B) with [] => _ | _ => _ end).
  assert (v = fallen (queues s (QMsg B)) s) as <-.
  { unfold v, fallen. destruct (queues s (QMsg B)) as [|x l]; [done|].
    destruct (priority (tasks s x) <? base_priority (tasks s B)) eqn:Ex; zbool; lia. }
  destruct (Z.eqb_spec (priority (tasks s B)) v) as [Ev|Ev]; cbn [negb]; [split_and!; try done; by rewrite !Z.eqb_refl|].
  set (s2 := if _ =? _ then _ else _).
  assert (priority (tasks s2 B) = v) as Ep.
  { unfold s2. destruct (_ =? _); [|by rewrite tset_same]. rewrite enq_ready_prio. change (tasks (runlink B ?s)) with (tasks s).
    by rewrite tset_same. }
  split_and!; [done| | |].
  - rewrite Ep. symmetry. rewrite (proj2 (Z.eqb_neq _ _)) by congruence. done.
  - intros x Hx. unfold s2. destruct (_ =? _); [rewrite enq_ready_other by done; change (tasks (runlink B ?s)) with (tasks s)|];
      by rewrite tset_other by congruence.
  - unfold s2. destruct (_ =? _); [|done]. unfold enq_ready_task. by destruct (negb _).
Qed.

(** The move the server has made is one of the protocol. *)
Lemma moved ph ph' s s1 : A <> B -> in_phase ph s -> in_phase ph' s1 -> moves ph ph' -> call_rely s s1.
Proof.
  intros HAB H H1 Hm ph0 H0. exists ph'. split; [|done].
  assert (ph0 = ph) as ->; [|by apply rtc_once].
  destruct ph0, ph; cbn in H, H0; unfold RT_UNBLKD, RT_OBJREM in *; intuition congruence.
Qed.

(** What a receive makes of the sender [A]: released when it only sends, else put among those that wait for an answer. *)
Definition received (s s1 : kst) (r : kst -> res kst unit) : Prop :=
  if has (state (tasks s A)) RT_SCHED_SEND then
    in_phase Answered s1 /\ released (Z.lor RT_SCHED_SEND RT_SCHED_DELAYED) (tasks s A) s1 /\
    r = reschedule (Z.lor RT_SCHED_SEND RT_SCHED_DELAYED) false s s1 /\
    (owndres (tasks s B) = 0 -> priority (tasks s1 B) = fallen (unlink A (queues s (QMsg B))) s)
  else
    in_phase Received s1 /\ r = Done tt /\ priority (tasks s1 B) = priority (tasks s B) /\
    state (tasks s1 A) = Z.lor (clear (state (tasks s A)) (Z.lor RT_SCHED_RPC RT_SCHED_DELAYED)) RT_SCHED_RETURN /\
    (has (state (tasks s A)) RT_SCHED_DELAYED = true -> forall c, A ∉ timed s1 c).

(** The sender without its place in the queue and among the timed tasks. *)
Record taken_off (s s2 : kst) : Prop := {
  to_field : forall {X} (g : RT_TASK -> X), (forall v r, g (set_prio_passed_to v r) = g r) ->
    (forall v r, g (set_blocked_on v r) = g r) -> forall x, g (tasks s2 x) = g (tasks s x);
  to_queues : forall q, queues s2 q = unlink A (queues s q);
  to_timed : has (state (tasks s A)) RT_SCHED_DELAYED = true -> forall c, A ∉ timed s2 c
}.
Lemma take_off s : taken_off s (rem_timed_task A (dequeue_blocked A s)).
Proof.
  pose proof (keeps_rem_timed A (dequeue_blocked A s)) as Hk.
  assert (forall {X} (g : RT_TASK -> X), (forall v r, g (set_prio_passed_to v r) = g r) ->
    (forall v r, g (set_blocked_on v r) = g r) -> forall x, g (tasks (dequeue_blocked A s) x) = g (tasks s x)) as Hg.
  { intros X g H1 H2 x. destruct (decide (x = A)) as [->|Hx]; [|by rewrite dequeue_blocked_other].
    unfold dequeue_blocked. rewrite tset_same, H2. change (tasks (qunlink A ?s) A) with (tasks s A). by rewrite tset_same, H1. }
  split.
  - intros X g H1 H2 x. rewrite rem_timed_tasks. by apply Hg.
  - intros q. by rewrite (k_queues _ _ Hk).
  - intros Hd c. unfold rem_timed_task. rewrite (Hg _ state), Hd by done. change (A ∉ unlink A (timed (dequeue_blocked A s) c)).
    rewrite elem_of_unlink. by intros [? _].
Qed.

Lemma accept_send s s2 : A <> B -> taken_off s s2 -> has (state (tasks s A)) RT_SCHED_SEND = true ->
  let s4 := tset set_msgq_task A (PTask A) (tset set_msgq_task B (PTask A) s2) in
  let '(sched, s5) := set_task_prio_from_resq B s4 in
  let '(woken, s6) := unblock (Z.lor RT_SCHED_SEND RT_SCHED_DELAYED) A s5 in
  keeps s4 s6 /\ received s s6 (if woken then if negb (sched =? 0) then RT_SCHEDULE_BOTH A else RT_SCHEDULE A else Done tt).
Proof.
  intros HAB [Hg Hq Ht] Hsend s4. pose proof (set_task_prio_fallen s4) as Hprio. pose proof (keeps_set_task_prio B s4) as Hk5.
  destruct (set_task_prio_from_resq B s4) as [sched s5]. cbn [snd] in Hk5. destruct Hprio as (Hp & Hsch & Hother & Htimed).
  assert (forall {X} (g : RT_TASK -> X), (forall v r, g (set_prio_passed_to v r) = g r) -> (forall v r, g (set_blocked_on v r) = g r) ->
    (forall v r, g (set_msgq_task v r) = g r) -> forall x, g (tasks s4 x) = g (tasks s x)) as H4.
  { intros X g H1 H2 H3 x. unfold s4. rewrite !tset_field by done. by apply Hg. }
  assert (forall {X} (g : RT_TASK -> X), (forall v r, g (set_prio_passed_to v r) = g r) -> (forall v r, g (set_blocked_on v r) = g r) ->
    (forall v r, g (set_msgq_task v r) = g r) -> g (tasks s5 A) = g (tasks s A)) as H5.
  { intros X g H1 H2 H3. rewrite Hother by done. by apply H4. }
  pose proof (keeps_unblock (Z.lor RT_SCHED_SEND RT_SCHED_DELAYED) A s5) as Hk6.
  pose proof (unblock_other (Z.lor RT_SCHED_SEND RT_SCHED_DELAYED) A B s5 ltac:(congruence)) as EB.
  pose proof (unblock_released (Z.lor RT_SCHED_SEND RT_SCHED_DELAYED) (tasks s A) s5) as Hrel.
  destruct (unblock _ A s5) as [woken s6]. cbn [snd] in Hk6, EB.
  destruct Hrel as [-> Hrel]; [by intros E; rewrite E in Hsend|by apply (H5 _ state)|by apply (H5 _ is_hard)|by apply (H5 _ lnxtsk)
    |by apply (H5 _ runnable_on_cpus)|intros Hd c; rewrite Htimed; by apply Ht|].
  assert (keeps s4 s6) as Hk by (by etrans). split; [done|]. unfold received. rewrite Hsend. split_and!; [|done| |].
  - apply (in_phase_keeps Answered _ _ Hk). split; [unfold s4; by rewrite tset_same|].
    split; change (queues s4) with (queues s2); rewrite Hq, elem_of_unlink; by intros [? _].
  - unfold reschedule. rewrite EB, Hsch, (H4 _ priority) by done.
    generalize (clear (state (tasks s A)) (Z.lor RT_SCHED_SEND RT_SCHED_DELAYED) =? RT_SCHED_READY).
    intros b. generalize (negb (priority (tasks s5 B) =? priority (tasks s B))). intros []; by destruct b.
  - intros Ho. rewrite EB, Hp by (by rewrite (H4 _ owndres)). change (queues s4 (QMsg B)) with (queues s2 (QMsg B)). rewrite Hq.
    unfold fallen. rewrite (H4 _ base_priority) by done. destruct (unlink A (queues s (QMsg B))) as [|x l]; [done|].
    by rewrite (H4 _ priority).
Qed.

Lemma accept_ok s : A <> B -> in_phase Waiting s -> retq_task (tasks s B) = NULL ->
  (forall p, proxy (tasks s A) = Some p -> receiver p <> B) ->
  exists s1 r, accept A B s = (sched* s := r s1 in Done m s) /\ goes_on r /\
    received s s1 r /\ got_message s1 /\ (forall q, q <> QRet B -> queues s1 q = unlink A (queues s q)).
Proof.
  intros HAB (Hmq & Hbl & Hm & Hin & Hnot) Hr Hp. unfold accept.
  pose proof (take_off s) as Hoff. set (s2 := rem_timed_task A (dequeue_blocked A s)) in *.
  pose proof (@to_field _ _ Hoff) as Hg. pose proof (to_queues _ _ Hoff) as Hq2.
  set (s3 := tset set_msgq_task B (PTask A) s2).
  assert (msg (tasks s2 A) = m) as -> by by rewrite (Hg _ msg).
  assert (state (tasks s3 A) = state (tasks s A)) as Est by (unfold s3; by rewrite (tset_field _ state), (Hg _ state)).
  assert (got_message s3) as Hgot3.
  { unfold got_message, s3. rewrite (tset_field _ retq_task), (tset_field _ proxy), tset_same, (Hg _ retq_task), (Hg _ proxy) by done.
    done. }
  rewrite Est. destruct (has (state (tasks s A)) RT_SCHED_SEND) eqn:Hsend.
  - pose proof (accept_send s s2 HAB Hoff Hsend) as Hs. cbv zeta in Hs. fold s3 in Hs.
    set (s4 := tset set_msgq_task A (PTask A) s3) in *. destruct (set_task_prio_from_resq B s4) as [sched s5].
    destruct (unblock _ A s5) as [woken s6]. destruct Hs as [Hk Hs].
    exists s6, (if woken then if negb (sched =? 0) then RT_SCHEDULE_BOTH A else RT_SCHEDULE A else Done tt).
    split; [by destruct woken, (negb (sched =? 0))|]. split; [unfold goes_on; destruct woken, (negb (sched =? 0)); auto|].
    split; [exact Hs|]. split; [|intros q _; rewrite (k_queues _ _ Hk); apply Hq2].
    apply (got_message_keeps _ _ Hk). destruct Hgot3 as (G1 & G2 & G3). unfold got_message, s4.
    rewrite (tset_field _ retq_task), (tset_field _ proxy), tset_other by done. done.
  - set (s4 := enqueue_blocked A (QRet B) 0 s3). set (s5 := tset set_state A _ s4). exists s5, (Done tt).
    split; [done|]. split; [by do 3 right|].
    assert (forall {X} (g : RT_TASK -> X), (forall v r, g (set_state v r) = g r) -> forall x, g (tasks s5 x) = g (tasks s4 x)) as H5.
    { intros X g H x. unfold s5. by rewrite tset_field. }
    assert (forall {X} (g : RT_TASK -> X), (forall v r, g (set_blocked_on v r) = g r) -> forall x, g (tasks s4 x) = g (tasks s3 x)) as H4.
    { intros X g H x. unfold s4, enqueue_blocked. cbv zeta. change (tasks (qset ?q ?l ?s) x) with (tasks s x). by rewrite tset_field. }
    assert (in_phase Received s5) as Hph.
    { cbn [in_phase]. rewrite (H5 _ msgq_task), (H5 _ blocked_on), (H4 _ msgq_task) by done.
      unfold s3. rewrite tset_other, (Hg _ msgq_task) by first [done|congruence].
      unfold s4. rewrite enqueue_blocked_blocked, decide_True by done. split; [done|]. split; [done|].
      change (queues s5) with (queues s4). unfold s4. rewrite elem_of_enqueue_blocked. split; [by left|].
      change (A ∉ queues (enter (QRet B) 0 s3) (QMsg B)). rewrite enter_queues by done.
      change (A ∉ queues s2 (QMsg B)). rewrite Hq2, elem_of_unlink. by intros [? _]. }
    split; [|split].
    + unfold received. rewrite Hsend. split; [done|]. split; [done|]. split; [|split].
      * rewrite (H5 _ priority), (H4 _ priority) by done. unfold s3. rewrite (tset_field _ priority) by done. by apply (Hg _ priority).
      * unfold s5. rewrite tset_same. cbn [state set_state]. by rewrite (H4 _ state), Est.
      * exact (to_timed _ _ Hoff).
    + destruct Hgot3 as (G1 & G2 & G3). unfold got_message.
      rewrite (H5 _ msgq_task), (H5 _ retq_task), (H5 _ proxy), (H4 _ msgq_task), (H4 _ retq_task), (H4 _ proxy) by done. done.
    + intros q Hq. change (queues s5 q) with (queues (enter (QRet B) 0 s3) q). rewrite enter_queues by done. apply Hq2.
Qed.

(** C12. A receive, on the server's side, with the caller's message waiting: asked for, or
    first in the queue.  The server gets that message and the caller's name.  A caller that
    only sends is released: its state loses the wait, it leaves the timed tasks, and if it is not held otherwise it is readied and the scheduler
    runs; a server without resources falls back to its base priority or to that of the first who still waits.  One that called is queued for the
    answer, its state tells so, it is not timed any more and the server keeps its priority.  Both are moves of the protocol.  Every queue but that one loses the caller and
    nothing else; and as long as the others leave the server's words alone the receive
    never faults and returns that message. *)
Theorem rt_receive_correct task s : rt_current s = B -> A <> B -> in_phase Waiting s ->
  task = PTask A /\ valid_task A s = true \/ task = NULL /\ head (queues s (QMsg B)) = Some A ->
  has (state (tasks s A)) (Z.lor RT_SCHED_SEND RT_SCHED_RPC) = true -> retq_task (tasks s B) = NULL ->
  (forall p, proxy (tasks s A) = Some p -> receiver p <> B) ->
  (exists s1 r, req (rt_receive task s) (sched* s := r s1 in receive_end B (Some m) s) /\
     received s s1 r /\ call_rely s s1 /\
     forall q, q <> QRet B -> queues s1 q = unlink A (queues s q)) /\
  wp got_message (fun _ => got_message) (rt_receive task s)
    (fun r s' => r = (PTask A, Some m) /\ msgq_task (tasks s' B) = PTask B).
Proof.
  intros Hcur HAB Hph Htask Hst Hr Hp.
  destruct (accept_ok s HAB Hph Hr Hp) as (s1 & r & Ea & Hgo & Hrec & Hgot & Hq).
  assert (rt_receive task s = (let* (w, s) := accept A B s in receive_end B (Some w) s)) as E.
  { pose proof Hph as (Hmq & _). unfold rt_receive. rewrite Hcur.
    assert (has_sent A B s = true) as Hs.
    { unfold has_sent. rewrite Hst, Hmq. by rewrite bool_decide_true by done. }
    destruct Htask as [[-> Hv]|[-> Hh]]; unfold receiver_arg_ok, receive_from.
    - rewrite Hv. cbn [negb]. change (is_null (PTask A)) with false. cbn iota. by rewrite Hs.
    - change (is_null NULL) with true. cbn [negb]. cbn iota. unfold first_msg.
      destruct (queues s (QMsg B)) as [|x l]; [done|]. injection Hh as ->. by rewrite Hs. }
  assert (req (rt_receive task s) (sched* s := r s1 in receive_end B (Some m) s)) as Hreq.
  { rewrite E, Ea. by rewrite rbind_assoc. }
  split.
  - exists s1, r. split; [done|]. split; [done|]. split; [|done]. unfold received in Hrec.
    destruct (has (state (tasks s A)) RT_SCHED_SEND); destruct Hrec as [Hph1 _].
    + eapply (moved Waiting Answered); try done. constructor.
    + eapply (moved Waiting Received); try done. constructor.
  - rewrite Hreq. apply wp_rbind. eapply wp_mono.
    + apply (goes_on_safe _ _ got_message); [done|exact got_message_keeps|done|done|done].
    + intros [] s2 H2. by apply receive_end_ok.
Qed.

(** A task that leaves a queue takes no part in the priority of another. *)
Lemma fallen_dequeued t l s : B <> t -> fallen l (dequeue_blocked t s) = fallen l s.
Proof.
  intros Ht. unfold fallen. rewrite dequeue_blocked_other by done. destruct l as [|x l]; [done|].
  destruct (decide (x = t)) as [->|Hx]; [|by rewrite dequeue_blocked_other].
  f_equal. unfold dequeue_blocked. rewrite tset_same. change (tasks (qunlink t ?s) t) with (tasks s t). by rewrite tset_same.
Qed.

(** C13. A return, on the server's side.  The answer of a caller that waits for it is given, and the
    caller released, a move of the protocol: its state loses the wait, it leaves the timed tasks, and if it is not held otherwise,
    as by a suspension, it is readied and the scheduler runs; the caller leaves all
    queues, and a server without resources falls back to its base
    priority or to that of the first who still waits to be received.  For any
    other task nothing happens and the result is null. *)
Theorem rt_return_correct w s : rt_current s = B -> A <> B -> valid_task A s = true ->
  if has (state (tasks s A)) RT_SCHED_RETURN && bool_decide (msgq_task (tasks s A) = PTask B) then
    in_phase Received s ->
    exists s1, rt_return (PTask A) w s =
        (sched* s := reschedule (Z.lor RT_SCHED_RETURN RT_SCHED_DELAYED) true s s1 s1 in Done (PTask A) s) /\
      in_phase Answered s1 /\ msg (tasks s1 A) = w /\ call_rely s s1 /\
      released (Z.lor RT_SCHED_RETURN RT_SCHED_DELAYED) (tasks s A) s1 /\
      (forall q, queues s1 q = unlink A (queues s q)) /\
      (owndres (tasks s B) = 0 -> priority (tasks s1 B) = fallen (queues s (QMsg B)) s)
  else rt_return (PTask A) w s = Done NULL s.
Proof.
  intros Hcur HAB Hv. unfold rt_return, sender_arg, waits_answer. rewrite Hv, Hcur.
  destruct (has (state (tasks s A)) RT_SCHED_RETURN && _) eqn:Hc; [|done]. intros Hph. unfold _rt_return.
  apply andb_true_iff in Hc as [Hret _].
  set (s1 := dequeue_blocked A s). pose proof (set_task_prio_fallen s1) as Hprio.
  pose proof (keeps_set_task_prio B s1) as Hk2.
  assert (tasks s1 B = tasks s B) as EB1 by (unfold s1; by rewrite dequeue_blocked_other by congruence).
  assert (queues s1 (QMsg B) = queues s (QMsg B)) as Eq1 by (apply unlink_notin, Hph).
  rewrite EB1, Eq1 in Hprio. destruct (set_task_prio_from_resq B s1) as [sched s2]. cbn [snd] in Hk2.
  destruct Hprio as (Hp & Hsch & Hother & Htimed). rewrite Hsch.
  set (s3 := tset set_msgq_task A (PTask A) _).
  assert (forall {X} (g : RT_TASK -> X), (forall v r, g (set_prio_passed_to v r) = g r) -> (forall v r, g (set_blocked_on v r) = g r) ->
    (forall v r, g (set_msg v r) = g r) -> (forall v r, g (set_msgq_task v r) = g r) -> g (tasks s3 A) = g (tasks s A)) as Hg.
  { intros X g H1 H2 H3 H4. unfold s3. rewrite !tset_same, H4, H3, Hother by done. unfold s1, dequeue_blocked.
    rewrite tset_same, H2. change (tasks (qunlink A ?s) A) with (tasks s A). by rewrite tset_same, H1. }
  pose proof (keeps_rem_timed A s3) as Hk4. set (s4 := rem_timed_task A s3) in *.
  assert (forall x, tasks s4 x = tasks s3 x) as E4 by (intros x; unfold s4; by rewrite rem_timed_tasks).
  assert (has (state (tasks s A)) RT_SCHED_DELAYED = true -> forall c, A ∉ timed s4 c) as Ht4.
  { intros Hd c. unfold s4, rem_timed_task. rewrite (Hg _ state), Hd by done. change (A ∉ unlink A (timed s3 c)).
    rewrite elem_of_unlink. by intros [? _]. }
  pose proof (keeps_unblock (Z.lor RT_SCHED_RETURN RT_SCHED_DELAYED) A s4) as Hk5.
  pose proof (unblock_other (Z.lor RT_SCHED_RETURN RT_SCHED_DELAYED) A B s4 ltac:(congruence)) as EB.
  pose proof (unblock_released (Z.lor RT_SCHED_RETURN RT_SCHED_DELAYED) (tasks s A) s4) as Hrel. rewrite !E4 in Hrel.
  destruct (unblock _ A s4) as [woken s5]. cbn [snd] in Hk5, EB.
  destruct Hrel as [-> Hrel]; [by intros E; rewrite E in Hret|by apply (Hg _ state)|by apply (Hg _ is_hard)|by apply (Hg _ lnxtsk)
    |by apply (Hg _ runnable_on_cpus)|exact Ht4|].
  assert (tasks s5 B = tasks s2 B) as EB5 by (rewrite EB, E4; unfold s3; by rewrite !tset_other).
  assert (keeps s3 s5) as Hk by (by etrans).
  assert (forall q, queues s5 q = unlink A (queues s q)) as Hq.
  { intros q. rewrite (k_queues _ _ Hk). change (queues s3 q) with (queues s2 q). by rewrite (k_queues _ _ Hk2). }
  assert (in_phase Answered s5) as Hph5.
  { split; [rewrite (k_msgq _ _ Hk); unfold s3; by rewrite tset_same|].
    split; rewrite Hq, elem_of_unlink; by intros [? _]. }
  exists s5. split; [unfold reschedule; rewrite EB5; by repeat case_match|].
  split; [done|]. split.
  { rewrite (k_msg _ _ Hk). unfold s3. rewrite (tset_field _ msg), tset_same by done. done. }
  split; [eapply (moved Received Answered); try done; constructor|]. split; [done|]. split; [done|].
  intros Ho. rewrite EB5, Hp by done. apply fallen_dequeued. congruence.
Qed.
End call.

(** ** Instances: task 1 calls task 2 *)

(** Task 2 waits for anybody's message. *)
Definition ex_call : kst :=
  set_tasklist (fun _ => [Tsk 1; Tsk 2]) (set_smp_current (fun _ => Tsk 1) (rset 0 [Tsk 1]
    (with_tasks [(1%nat, fun t => set_base_priority 3 (set_priority 3 (set_msgq_task (PTask (Tsk 1)) t)));
       (2%nat, fun t => set_base_priority 7 (set_priority 7 (set_retq_task RTP_HIGERR (set_state (Z.lor RT_SCHED_READY RT_SCHED_RECEIVE) t))))]
      idle_kst))).
(** What task 2 does while task 1 waits: it ends its receive and returns 9, which makes
    the processor task 1's again. *)
Definition ex_server (_ : nat) (s : kst) : kst :=
  match receive_end (Tsk 2) (Some (msg (tasks s (Tsk 2)))) (set_smp_current (fun _ => Tsk 2) s) with
  | Done r s =>
      match rt_return r.1 (Word 9) s with Stop _ s _ => s | Done _ s => s | _ => idle_kst end
  | _ => idle_kst
  end.

Lemma ex_call_pre : call_pre (Tsk 1) (Tsk 2) ex_call.
Proof.
  assert (all_tasks ex_call = [Linux 0; Tsk 1; Tsk 2]) as E by (vm_compute; reflexivity).
  split; rewrite ?E.
  - by vm_compute.
  - intros q. apply not_elem_of_nil.
  - split; apply NoDup_nil_2.
  - intros t q Ht. repeat (apply elem_of_cons in Ht as [->|Ht]; [vm_compute; discriminate|]). by apply elem_of_nil in Ht.
  - split; set_solver.
  - left. by vm_compute.
Qed.

Lemma rt_rpc_correct_witness :
  match run 5 ex_server (rt_rpc (PTask (Tsk 2)) (Word 7) ex_call) with
  | Some (r, s) => r = (PTask (Tsk 2), Some (Word 9)) /\ rt_current s = Tsk 1
  | None => False
  end /\
  wp (in_call (Tsk 1) (Tsk 2) (Word 7)) (call_rely (Tsk 1) (Tsk 2) (Word 7))
    (rt_rpc (PTask (Tsk 2)) (Word 7) ex_call) (call_ended (Tsk 1) (Tsk 2)).
Proof.
  split; [by vm_compute|].
  apply (rt_rpc_correct (Tsk 1) (Tsk 2) (Word 7) ex_call); [by vm_compute|done|by vm_compute|exact ex_call_pre].
Defined.

(** Task 1 waits in queue [q] of task 2, which runs. *)
Definition ex_queued (q : qid) (st : Z) : kst :=
  set_tasklist (fun _ => [Tsk 1; Tsk 2]) (set_smp_current (fun _ => Tsk 2) (rset 0 [Tsk 2]
    (qset q [Tsk 1]
    (with_tasks [(1%nat, fun t => set_priority 3 (set_msgq_task (PTask (Tsk 2)) (set_blocked_on (PQueue q)
         (set_msg (Word 7) (set_state (Z.lor RT_SCHED_READY st) t)))));
       (2%nat, fun t => set_base_priority 7 (set_priority 3 (set_msgq_task (PTask (Tsk 2)) t)))]
      idle_kst)))).

Lemma rt_receive_correct_witness :
  let s := ex_queued (QMsg (Tsk 2)) RT_SCHED_SEND in
  exists s1 (r : kst -> res kst unit), req (rt_receive NULL s) (sched* s := r s1 in receive_end (Tsk 2) (Some (Word 7)) s) /\
    received (Tsk 1) (Tsk 2) (Word 7) s s1 r /\ call_rely (Tsk 1) (Tsk 2) (Word 7) s s1.
Proof.
  intros s. destruct (rt_receive_correct (Tsk 1) (Tsk 2) (Word 7) NULL s) as [(s1 & r & H1 & H2 & H3 & _) _].
  - by vm_compute.
  - done.
  - repeat split; try by vm_compute.
    + apply (bool_decide_unpack _). by vm_compute.
    + apply (bool_decide_unpack _). by vm_compute.
  - right. by vm_compute.
  - by vm_compute.
  - by vm_compute.
  - intros p Hp. assert (proxy (tasks s (Tsk 1)) = None) as E by by vm_compute. congruence.
  - exists s1, r. split; [exact H1|]. split; [exact H2|exact H3].
Defined.

Lemma rt_return_correct_witness :
  let s := ex_queued (QRet (Tsk 2)) RT_SCHED_RETURN in
  exists s1, rt_return (PTask (Tsk 1)) (Word 9) s =
      (sched* s := reschedule (Tsk 1) (Tsk 2) (Z.lor RT_SCHED_RETURN RT_SCHED_DELAYED) true s s1 s1 in Done (PTask (Tsk 1)) s) /\
    msg (tasks s1 (Tsk 1)) = Word 9 /\ released (Tsk 1) (Z.lor RT_SCHED_RETURN RT_SCHED_DELAYED) (tasks s (Tsk 1)) s1 /\
    priority (tasks s1 (Tsk 2)) = 7.
Proof.
  intros s. pose proof (rt_return_correct (Tsk 1) (Tsk 2) (Word 7) (Word 9) s) as H.
  destruct H as (s1 & H1 & _ & H3 & _ & H5 & _ & H4).
  - by vm_compute.
  - done.
  - by vm_compute.
  - repeat split; try by vm_compute.
    + apply (bool_decide_unpack _). by vm_compute.
    + apply (bool_decide_unpack _). by vm_compute.
  - exists s1. split; [exact H1|]. split; [exact H3|]. split; [exact H5|]. rewrite H4; by vm_compute.
Defined.
