(* ===== verification/Named.v ===== *)
(** * Objects by name and tasks by number: the named services of sem.c, mbx.c,
    api.c and the pid based messages of msg.c.

    The registry, the heap and the scheduler at work together: an object is had
    from the heap, initialised, and registered; a second initialisation of the
    name finds it and counts; the last deletion takes it apart. *)

From S2P Require Import Prelude Resume Nam2num Ring MbxRing Kernel Registry Shm Sched Tasks Sem Mbx Api Msg.
From stdpp Require Import list.
#[local] Open Scope Z_scope.

Section named.
Context {H : Type} `{Allocator H}.
(** Sizes of the structures; the descriptor at an address and its address; what
    fresh memory holds; the address of a control block and of the variable
    [replylen] on the stack of a task; where the addresses of the kernel start. *)
Context (sizeof_SEM sizeof_RWL sizeof_SPL sizeof_MBX sizeof_RT_TASK : Z).
Context (task_at : Z -> tid) (task_adr : tid -> Z) (fresh : Z -> Z -> list byte).
Context (block_adr : msgword -> Z) (replylen_adr : tid -> Z) (PAGE_OFFSET : Z).

(** A control block of these calls.  A state is the kernel, the registry, the global heap; where the buffer of each mailbox is;
    the extended control block on the stack of each task, if it is in one of the calls
    below, and the 32 bytes of its name. *)
Record MSGCB := MkMsgcb { cmd : Z; cb_sbuf : Z; cb_sbytes : Z; cb_rbuf : Z; cb_rbytes : Z }.
Record ext := MkExt {
  ker : kst; reg : registry; heap : H; bufadr : nat -> Z; msgcb : tid -> option MSGCB; task_name : tid -> list Z
}.
Definition set_ker (k : kst) (s : ext) : ext := MkExt k (reg s) (heap s) (bufadr s) (msgcb s) (task_name s).
Definition set_reg (r : registry) (s : ext) : ext := MkExt (ker s) r (heap s) (bufadr s) (msgcb s) (task_name s).
Definition set_heap (h : H) (s : ext) : ext := MkExt (ker s) (reg s) h (bufadr s) (msgcb s) (task_name s).
Definition set_bufadr (f : nat -> Z) (s : ext) : ext := MkExt (ker s) (reg s) (heap s) f (msgcb s) (task_name s).
Definition set_msgcb (f : tid -> option MSGCB) (s : ext) : ext := MkExt (ker s) (reg s) (heap s) (bufadr s) f (task_name s).
Definition set_task_name (f : tid -> list Z) (s : ext) : ext := MkExt (ker s) (reg s) (heap s) (bufadr s) (msgcb s) f.

(** A call of the kernel. *)
Definition lift {A} (r : res kst A) (s : ext) : res ext A := within ker set_ker r s.
Definition rt_malloc (size : Z) (s : ext) : res ext Z :=
  match halloc size (heap s) with Some (p, h) => Done p (set_heap h s) | None => Fault s end.
Definition rt_free (p : Z) (s : ext) : res ext unit :=
  match hfree p (heap s) with Some h => Done tt (set_heap h s) | None => Fault s end.
Definition rt_get_adr_cnt (name : Z) (s : ext) : Z * ext :=
  let '(a, r) := get_adr_cnt name (reg s) in (a, set_reg r s).
Definition register (name adr type : Z) (s : ext) : Z * ext :=
  let '(k, r) := rt_register name adr type 0 (reg s) in (k, set_reg r s).
Definition rt_drg_on_adr_cnt (adr : Z) (s : ext) : Z * ext :=
  let '(n, r) := drg_on_adr_cnt adr (reg s) in (n, set_reg r s).
Definition rt_drg_on_adr (adr : Z) (s : ext) : Z * ext :=
  let '(n, r) := drg_on_adr adr (reg s) in (n, set_reg r s).

Definition IS_TASK := 0.
Definition IS_SEM := 1.
Definition IS_RWL := 2.
Definition IS_SPL := 3.
Definition IS_MBX := 4.

Definition sem_at (a : Z) : semid := Sem (Z.to_nat a).

(** ** Semaphores and locks *)

(** What is written through [handle] when the semaphore is there already. *)
Inductive handle_write := HNone | HOne | HPointer.

Definition _rt_typed_named_sem_init (sem_name value type handle : Z) (s : ext) : res ext (Z * handle_write) :=
  let '(sem, s) := rt_get_adr_cnt sem_name s in
  if negb (sem =? 0) then
    Done (sem, if handle =? 0 then HNone else if PAGE_OFFSET <? handle then HOne else HPointer) s
  else
    let* (sem, s) := rt_malloc sizeof_SEM s in
    if negb (sem =? 0) then
      let s := set_ker (rt_typed_sem_init (sem_at sem) value type (ker s)) s in
      let '(k, s) := register sem_name sem IS_SEM s in
      if negb (k =? 0) then Done (sem, HNone) s
      else
        let* (_, s) := lift (rt_sem_delete (sem_at sem) (ker s)) s in
        let* (_, s) := rt_free sem s in Done (0, HNone) s
    else let* (_, s) := rt_free sem s in Done (0, HNone) s.

Definition rt_named_sem_delete (sem : Z) (s : ext) : res ext Z :=
  let '(ret, s) := rt_drg_on_adr_cnt sem s in
  if ret =? 0 then
    let* (r, s) := lift (rt_sem_delete (sem_at sem) (ker s)) s in
    if r =? 0 then let* (_, s) := rt_free sem s in Done 0 s else Done RTE_OBJINV s
  else Done ret s.

Definition _rt_named_rwl_init (rwl_name : Z) (s : ext) : res ext Z :=
  let '(rwl, s) := rt_get_adr_cnt rwl_name s in
  if negb (rwl =? 0) then Done rwl s
  else
    let* (rwl, s) := rt_malloc sizeof_RWL s in
    if negb (rwl =? 0) then
      let s := set_ker (rt_typed_rwl_init (Z.to_nat rwl) RESEM_RECURS (ker s)) s in
      let '(k, s) := register rwl_name rwl IS_RWL s in
      if negb (k =? 0) then Done rwl s
      else
        let* (_, s) := lift (rt_rwl_delete (Z.to_nat rwl) (ker s)) s in
        let* (_, s) := rt_free rwl s in Done 0 s
    else let* (_, s) := rt_free rwl s in Done 0 s.

Definition rt_named_rwl_delete (rwl : Z) (s : ext) : res ext Z :=
  let '(ret, s) := rt_drg_on_adr_cnt rwl s in
  if ret =? 0 then
    let* (r, s) := lift (rt_rwl_delete (Z.to_nat rwl) (ker s)) s in
    if r =? 0 then let* (_, s) := rt_free rwl s in Done 0 s else Done RTE_OBJINV s
  else Done ret s.

Definition _rt_named_spl_init (spl_name : Z) (s : ext) : res ext Z :=
  let '(spl, s) := rt_get_adr_cnt spl_name s in
  if negb (spl =? 0) then Done spl s
  else
    let* (spl, s) := rt_malloc sizeof_SPL s in
    if negb (spl =? 0) then
      let s := set_ker (rt_spl_init (Z.to_nat spl) (ker s)) s in
      let '(k, s) := register spl_name spl IS_SPL s in
      if negb (k =? 0) then Done spl s
      else let* (_, s) := rt_free spl s in Done 0 s
    else let* (_, s) := rt_free spl s in Done 0 s.

Definition rt_named_spl_delete (spl : Z) (s : ext) : res ext Z :=
  let '(ret, s) := rt_drg_on_adr_cnt spl s in
  if ret =? 0 then let* (_, s) := rt_free spl s in Done 0 s else Done ret s.

(** ** Mailboxes *)

(** [rt_mbx_delete] with the buffer it frees. *)
Definition mbx_delete (fuel : nat) (mbx : Z) (s : ext) : res ext Z :=
  let* (r, s) := lift (rt_mbx_delete fuel (Z.to_nat mbx) (ker s)) s in
  if r =? 0 then let* (_, s) := rt_free (bufadr s (Z.to_nat mbx)) s in Done r s else Done r s.

(** [fuel] bounds the waiters [rt_mbx_delete] wakes; the result of the
    initialisation is not looked at. *)
Definition _rt_typed_named_mbx_init (fuel : nat) (mbx_name size qtype : Z) (s : ext) : res ext Z :=
  let '(mbx, s) := rt_get_adr_cnt mbx_name s in
  if negb (mbx =? 0) then Done mbx s
  else
    let* (mbx, s) := rt_malloc sizeof_MBX s in
    if negb (mbx =? 0) then
      let* (buf, s) := rt_malloc size s in
      let mem := if buf =? 0 then None else Some (fresh buf size) in
      let s := set_ker (rt_typed_mbx_init (Z.to_nat mbx) size qtype mem (ker s)).2 s in
      let s := set_bufadr (<[Z.to_nat mbx := buf]> (bufadr s)) s in
      let '(k, s) := register mbx_name mbx IS_MBX s in
      if negb (k =? 0) then Done mbx s
      else
        let* (_, s) := mbx_delete fuel mbx s in
        let* (_, s) := rt_free mbx s in Done 0 s
    else let* (_, s) := rt_free mbx s in Done 0 s.

Definition rt_named_mbx_delete (fuel : nat) (mbx : Z) (s : ext) : res ext Z :=
  let '(ret, s) := rt_drg_on_adr_cnt mbx s in
  if ret =? 0 then
    let* (r, s) := mbx_delete fuel mbx s in
    if r =? 0 then let* (_, s) := rt_free mbx s in Done 0 s else Done (- EFAULT) s
  else Done ret s.

(** ** Tasks *)

(** [init] is [rt_task_init] or [rt_task_init_cpuid]; its arguments are in it. *)
Definition named_task_init (init : tid -> kst -> Z * kst) (task_name : list Z) (s : ext) : res ext Z :=
  let name := nam2num task_name in
  let task := get_adr name (reg s) in
  if negb (task =? 0) then Done task s
  else
    let* (task, s) := rt_malloc sizeof_RT_TASK s in
    if negb (task =? 0) then
      let '(e, k) := init (task_at task) (ker s) in
      let s := set_ker k s in
      if e =? 0 then
        let '(r, s) := register name task IS_TASK s in
        if negb (r =? 0) then Done task s
        else
          let* (_, s) := lift (task_delete (task_at task) (ker s)) s in
          let* (_, s) := rt_free task s in Done 0 s
      else let* (_, s) := rt_free task s in Done 0 s
    else let* (_, s) := rt_free task s in Done 0 s.
Definition rt_named_task_init (task_name : list Z) (thread data : Z) (stack : option Z) (prio uses sig : Z)
    (s : ext) : res ext Z :=
  named_task_init (fun t => rt_task_init t thread data stack prio uses sig) task_name s.
Definition rt_named_task_init_cpuid (task_name : list Z) (thread data : Z) (stack : option Z) (prio uses sig : Z)
    (run_on_cpu : nat) (s : ext) : res ext Z :=
  named_task_init (fun t => rt_task_init_cpuid t thread data stack prio uses sig run_on_cpu) task_name s.

Definition rt_named_task_delete (task : Z) (s : ext) : res ext Z :=
  let* (r, s) := lift (task_delete (task_at task) (ker s)) s in
  let* (_, s) := (if r =? 0 then rt_free task s else Done tt s) in
  let '(k, s) := rt_drg_on_adr task s in Done k s.

(** ** Messages by number *)

Definition SYNCMSG := 0.
Definition PROXY := -1.
Definition EPERM := 1.
Definition ESRCH := 3.

Definition pid2rttask (pid : Z) (s : ext) : option tid := rt_find_task_by_pid pid (ker s).
Definition rttask2pid (t : tid) (s : ext) : Z := tasktid (tasks (ker s) t).
(** [pid ? pid2rttask(pid) : 0]. *)
Definition pid_arg (pid : Z) (s : ext) : option tid := if pid =? 0 then None else pid2rttask pid s.
Definition caller (s : ext) : tid := rt_current (ker s).

(** The block a message points to; a word that points to no such block is not one to
    follow. *)
Definition msgcb_of (m : msgword) (s : ext) : option MSGCB :=
  match m with McbStack t => msgcb s t | _ => None end.
Definition word_int (m : msgword) : Z := match m with Word z => z | _ => block_adr m end.

Definition rt_Send (pid smsg rmsg ssize rsize : Z) (s : ext) : res ext Z :=
  match pid2rttask pid s with
  | None => Done (- ESRCH) s
  | Some task =>
      let cur := caller s in
      let s := set_msgcb (<[cur := Some (MkMsgcb SYNCMSG smsg ssize rmsg rsize)]> (msgcb s)) s in
      let* (r, s) := lift (rt_rpc (PTask task) (McbStack cur) (ker s)) s in
      let s := set_msgcb (<[cur := None]> (msgcb s)) s in
      let '(replier, replylen) := r in
      if is_null replier then Done (- EINVAL) s
      else if negb (same replier (PTask task)) then Done (- ESRCH) s
      else match replylen with Some l => Done (i32 (word_int l)) s | None => Fault s end
  end.

(** What is received, and [*msglen]; [none] is returned for a task without a number. *)
Definition take_block (task : tid) (cb : option msgword) (msg maxsize none : Z) (s : ext) : res ext (Z * option Z) :=
  let pid := rttask2pid task s in
  if negb (pid =? 0) then
    match cb ≫= fun m => msgcb_of m s with
    | None => Fault s
    | Some cb =>
        let len := if maxsize <=? cb_sbytes cb then maxsize else cb_sbytes cb in
        let s := if negb (len =? 0) then set_ker (memcopy msg (cb_sbuf cb) len (ker s)) s else s in
        Done (pid, Some len) s
    end
  else Done (none, None) s.

Definition RTE_HIGERR := RTE_RWLINV.
Definition rt_Receive (pid msg maxsize : Z) (s : ext) : res ext (Z * option Z) :=
  let* (r, s) := lift (rt_receive (task_ptr (pid_arg pid s)) (ker s)) s in
  match r.1 with
  | PTask task => take_block task r.2 msg maxsize (- ESRCH) s
  | PInt z => if RTE_HIGERR <? z then Fault s else Done (- EINVAL, None) s
  | _ => Fault s
  end.

(** A code of the timed receive is taken for a task. *)
Definition rt_Creceive (pid msg maxsize delay : Z) (s : ext) : res ext (Z * option Z) :=
  let task := task_ptr (pid_arg pid s) in
  let* (r, s) := lift (if negb (delay =? 0) then rt_receive_timed task delay (ker s)
                       else rt_receive_if task (ker s)) s in
  match r.1 with
  | PTask task => take_block task r.2 msg maxsize 0 s
  | p => if is_null p then Done (0, None) s else Fault s
  end.

(** The control block is read from the message of the task before it is known to wait
    for an answer. *)
Definition rt_Reply (pid mesg size : Z) (s : ext) : res ext Z :=
  match pid2rttask pid s with
  | None => Done (- ESRCH) s
  | Some task =>
      match msgcb_of (msg (tasks (ker s) task)) s with
      | None => Fault s
      | Some cb =>
          if cmd cb =? SYNCMSG then
            let retlen := if size <=? cb_rbytes cb then size else cb_rbytes cb in
            let s := if negb (retlen =? 0) then set_ker (memcopy (cb_rbuf cb) mesg retlen (ker s)) s else s in
            let* (retask, s) := lift (rt_return (PTask task) (Word retlen) (ker s)) s in
            if is_null retask then Done (- EINVAL) s
            else if negb (same retask (PTask task)) then Done (- ESRCH) s
            else Done 0 s
          else Done (- EPERM) s
      end
  end.

(** ** Proxies by number *)

(** Each of the [fuel] turns sends one message or suspends. *)
Fixpoint Proxy_loop (fuel : nat) (me : tid) (s : ext) : res ext unit :=
  match fuel with
  | O => Done tt s
  | S fuel =>
      match proxy (tasks (ker s) me) with
      | None => Fault s
      | Some p =>
          if negb (nmsgs p =? 0) then
            let s := set_ker (tset set_proxy me (Some (MkProxy (receiver p) (pmsg p) (nmsgs p - 1) (nbytes p))) (ker s)) s in
            let* (_, s) := lift (rt_rpc (PTask (receiver p)) (McbStack me) (ker s)) s in
            Proxy_loop fuel me s
          else
            let* (_, s) := lift (rt_task_suspend (Some me) (ker s)) s in
            Proxy_loop fuel me s
      end
  end.
Definition Proxy_Task (fuel : nat) (me : tid) (s : ext) : res ext unit :=
  match proxy (tasks (ker s) me) with
  | None => Fault s
  | Some p =>
      let cb := MkMsgcb PROXY (pmsg p) (nbytes p) (replylen_adr me) 8 in
      Proxy_loop fuel me (set_msgcb (<[me := Some cb]> (msgcb s)) s)
  end.

(** The proxy with its descriptor from the heap; [stack] is the stack it is given, [text]
    where its message is kept. *)
Definition proxy_attach (agent : Z) (task : option tid) (stack : option Z) (text mesg nbytes prio : Z)
    (s : ext) : res ext ptr :=
  if negb (valid_task (default (caller s) task) (ker s)) then Done NULL s
  else
    let* (px, s) := rt_malloc sizeof_RT_TASK s in
    if px =? 0 then Done NULL s
    else
      let '(p, k) := __rt_proxy_attach agent task (Some (task_at px)) stack text nbytes prio (ker s) in
      let s := set_ker k s in
      if is_null p then let* (_, s) := rt_free px s in Done NULL s
      else
        let s := if negb (mesg =? 0) && negb (nbytes =? 0) then set_ker (memcopy text mesg nbytes (ker s)) s else s in
        Done p s.
Definition rt_Proxy_attach (agent : Z) (stack : option Z) (text pid mesg nbytes prio : Z) (s : ext) : res ext Z :=
  let* (p, s) := proxy_attach agent (pid_arg pid s) stack text mesg nbytes prio s in
  match p with
  | PTask t => Done (rttask2pid t s) s
  | _ => Done (- ENOMEM) s
  end.

Definition rt_Proxy_detach (pid : Z) (s : ext) : res ext Z :=
  match pid2rttask pid s with
  | None => Fault s
  | Some px =>
      let* (r, s) := lift (task_delete px (ker s)) s in
      if r =? 0 then let* (_, s) := rt_free (task_adr px) s in Done 0 s else Done (- EINVAL) s
  end.

Definition rt_Trigger (pid : Z) (s : ext) : res ext Z :=
  match pid2rttask pid s with
  | None => Done (- ESRCH) s
  | Some px =>
      match proxy (tasks (ker s) px) with
      | Some p =>
          if valid_task px (ker s) then
            let s := set_ker (tset set_proxy px (Some (MkProxy (receiver p) (pmsg p) (nmsgs p + 1) (nbytes p))) (ker s)) s in
            let* (_, s) := lift (rt_task_resume px (ker s)) s in
            Done (rttask2pid (receiver p) s) s
          else Done (- EINVAL) s
      | None => Done (- EINVAL) s
      end
  end.

(** ** Names of tasks *)

Definition RTAI_MAX_NAME_LENGTH := 32.
(** [strncpy] fills up with zeros; the copy from the user stops after the terminator and
    leaves the rest. A string is its characters without the terminator. *)
Definition strncpy (src : list Z) (n : Z) : list Z := ztake n (src ++ replicate (Z.to_nat n) 0).
Definition strncpy_from_user (dst src : list Z) (n : Z) : list Z :=
  let copied := ztake n (src ++ [0]) in copied ++ zdrop (zlen copied) dst.
(** The characters before the first zero. *)
Fixpoint cstr (l : list Z) : list Z :=
  match l with
  | [] => []
  | c :: l => if c =? 0 then [] else c :: cstr l
  end.
(** [!strncmp(a, b, n)]. *)
Definition same_name (a b : list Z) (n : Z) : bool := bool_decide (cstr (ztake n a) = cstr (ztake n b)).

(** [lnx] is the current Linux task; [ours] tells that the two tests on the first
    characters of its name fail. *)
Definition rt_Name_attach (lnx : Z) (ours : bool) (argname : list Z) (s : ext) : Z * ext :=
  let task := default (caller s) (tskext (ker s) lnx) in
  let nm := if ours then strncpy argname RTAI_MAX_NAME_LENGTH
            else strncpy_from_user (task_name s task) argname RTAI_MAX_NAME_LENGTH in
  let nm := <[31%nat := 0]> nm in
  let s := set_task_name (<[task := nm]> (task_name s)) s in
  (if 31 <? zlen (cstr nm) then - EINVAL else rttask2pid task s, s).

Fixpoint find_name (nm : list Z) (cpus : list nat) (s : ext) : option tid :=
  match cpus with
  | [] => None
  | c :: cpus =>
      match list_find (fun t => same_name nm (task_name s t) 31 = true) (tasklist (ker s) c) with
      | Some (_, t) => Some t
      | None => find_name nm cpus s
      end
  end.
(** [stack] is what the array [argname] holds on entry; a name of 32 characters and more
    is followed by what comes after the array, here nothing. *)
Definition rt_Name_locate (stack : list Z) (adr : Z) (uargname : list Z) (s : ext) : Z :=
  let nm := if PAGE_OFFSET <? adr then strncpy uargname RTAI_MAX_NAME_LENGTH
            else strncpy_from_user stack uargname RTAI_MAX_NAME_LENGTH in
  match find_name nm (seq 0 (online_cpus (tun (ker s)))) s with
  | Some t => rttask2pid t s
  | None =>
      let task := get_adr (nam2num (cstr nm)) (reg s) in
      if (zlen (cstr nm) <=? 6) && negb (task =? 0) then rttask2pid (task_at task) s else 0
  end.

Definition rt_Name_detach (pid : Z) (s : ext) : res ext Z :=
  match pid2rttask pid s with
  | None => Fault s
  | Some t => Done 0 (set_task_name (<[t := <[0%nat := 0]> (task_name s t)]> (task_name s)) s)
  end.
End named.
