(* ===== verification/NamedFacts.v ===== *)
(** * Theorems on the objects by name. *)

From S2P Require Import Prelude Resume Kernel KernelFacts Registry RegistryFacts Shm Sem Mbx Named.
From stdpp Require Import list.
#[local] Open Scope Z_scope.

Section shared.
Context {H : Type} `{Allocator H}.
Context (sizeof_SEM sizeof_RWL sizeof_SPL sizeof_MBX : Z) (fresh : Z -> Z -> list byte) (PAGE_OFFSET : Z).

(** ** Requests for a name and deletions of its object *)

Inductive object := NSem | NRwl | NSpl | NMbx.
(** The arguments of a request: value, type, where to tell; size and policy. *)
Inductive named_op := NInit (value type handle : Z) | NDelete.

Definition named_init (fuel : nat) (o : object) (name value type handle : Z) (s : ext) : res ext Z :=
  match o with
  | NSem => let* (r, s) := _rt_typed_named_sem_init sizeof_SEM PAGE_OFFSET name value type handle s in Done r.1 s
  | NRwl => _rt_named_rwl_init sizeof_RWL name s
  | NSpl => _rt_named_spl_init sizeof_SPL name s
  | NMbx => _rt_typed_named_mbx_init sizeof_MBX fresh fuel name value type s
  end.
Definition named_delete (fuel : nat) (o : object) (adr : Z) (s : ext) : res ext Z :=
  match o with
  | NSem => rt_named_sem_delete adr s
  | NRwl => rt_named_rwl_delete adr s
  | NSpl => rt_named_spl_delete adr s
  | NMbx => rt_named_mbx_delete fuel adr s
  end.
Definition named_call (fuel : nat) (o : object) (name adr : Z) (c : named_op) (s : ext) : res ext Z :=
  match c with
  | NInit value type handle => named_init fuel o name value type handle s
  | NDelete => named_delete fuel o adr s
  end.
Fixpoint named_run (fuel : nat) (o : object) (name adr : Z) (cs : list named_op) (s : ext) : res ext (list Z) :=
  match cs with
  | [] => Done [] s
  | c :: cs =>
      let* (r, s) := named_call fuel o name adr c s in
      let* (rs, s) := named_run fuel o name adr cs s in Done (r :: rs) s
  end.

(** What the calls should return, and the users they leave; [None] if one of them is the
    last user's deletion. *)
Fixpoint shared (adr : Z) (cs : list named_op) (users : Z) : option (list Z * Z) :=
  match cs with
  | [] => Some ([], users)
  | NInit _ _ _ :: cs => '(rs, u) ← shared adr cs (users + 1); Some (adr :: rs, u)
  | NDelete :: cs =>
      if users =? 1 then None else '(rs, u) ← shared adr cs (users - 1); Some (users - 1 :: rs, u)
  end.

(** What takes an object apart: its own deletion, then its memory goes back. *)
Definition take_apart (fuel : nat) (o : object) (adr : Z) (s : ext) : res ext Z :=
  let free r s := if r =? 0 then let* (_, s) := rt_free adr s in Done 0 s
                  else Done (match o with NMbx => - EFAULT | _ => RTE_OBJINV end) s in
  match o with
  | NSem => let* (r, s) := lift (rt_sem_delete (sem_at adr) (ker s)) s in free r s
  | NRwl => let* (r, s) := lift (rt_rwl_delete (Z.to_nat adr) (ker s)) s in free r s
  | NSpl => free 0 s
  | NMbx => let* (r, s) := mbx_delete fuel adr s in free r s
  end.

Lemma shared_range adr cs users rs u : shared adr cs users = Some (rs, u) -> 1 <= users ->
  1 <= u <= users + zlen cs.
Proof.
  revert users rs u. induction cs as [|c cs IH]; intros users rs u; cbn [shared].
  - intros [= <- <-]. unfold zlen. cbn. lia.
  - assert (zlen (c :: cs) = zlen cs + 1) as -> by (unfold zlen; cbn; lia). destruct c as [v t h|].
    + destruct (shared adr cs _) as [[rs' u']|] eqn:E; [|done]. cbn. intros [= <- <-] ?.
      apply IH in E; lia.
    + destruct (users =? 1) eqn:E1; [done|]. destruct (shared adr cs _) as [[rs' u']|] eqn:E; [|done]. cbn.
      intros [= <- <-] ?. zbool. apply IH in E; lia.
Qed.

Section one.
Context (fuel : nat) (o : object) (name adr ty : Z) (Hadr : 1 < adr).

(** A request while there are users counts one more of them, and nothing else. *)
Lemma named_init_held value type handle users (s : ext) :
  reg_ok (reg s) -> held (reg s) name adr ty users -> 0 <= users < 2 ^ 16 - 1 ->
  exists r, named_init fuel o name value type handle s = Done adr (set_reg r s) /\
    reg_ok r /\ held r name adr ty (users + 1) /\ forall nm a, binds r nm a <-> binds (reg s) nm a.
Proof using Hadr.
  intros Hok Hh Hu. destruct (get_adr_cnt_held _ _ _ _ _ Hok Hh) as (r & Hg & Hr & Hh' & Hb).
  rewrite u16_small in Hh' by lia. exists r. split; [|done].
  destruct o; cbn [named_init]; unfold _rt_typed_named_sem_init, _rt_named_rwl_init, _rt_named_spl_init,
    _rt_typed_named_mbx_init, rt_get_adr_cnt; rewrite Hg, (proj2 (Z.eqb_neq adr 0)) by lia; done.
Qed.

(** A deletion while there are others leaves everything but the count as it is; the last
    one takes the name away and then the object apart. *)
Lemma named_delete_held users (s : ext) :
  reg_ok (reg s) -> held (reg s) name adr ty users -> 1 <= users ->
  exists r, reg_ok r /\
    if users =? 1 then
      named_delete fuel o adr s = take_apart fuel o adr (set_reg r s) /\ get_adr name r = 0 /\
      forall nm a, binds r nm a <-> binds (reg s) nm a /\ nm <> name
    else named_delete fuel o adr s = Done (users - 1) (set_reg r s) /\ held r name adr ty (users - 1) /\
      forall nm a, binds r nm a <-> binds (reg s) nm a.
Proof using Hadr.
  intros Hok Hh Hu. pose proof (rem_adr_spec (- EFAULT) name adr ty users (reg s) Hok Hh) as Hs.
  change (rem_adr (- EFAULT)) with drg_on_adr_cnt in Hs. destruct (drg_on_adr_cnt adr (reg s)) as [n r] eqn:E.
  destruct Hs as (Hr & Hn & Hs). specialize (Hn ltac:(done)). rewrite (proj2 (Z.eqb_neq users 0)) in Hn by lia.
  change (- EFAULT =? 0) with false in Hs. cbn [orb] in Hs. exists r. split; [done|].
  assert (rt_drg_on_adr_cnt adr s = (n, set_reg r s)) as Ed by (unfold rt_drg_on_adr_cnt; by rewrite E).
  destruct (users =? 1) eqn:E1; zbool.
  - destruct Hs as [Hb Hno]. split; [|done]. subst n. destruct o; cbn [named_delete take_apart];
      unfold rt_named_sem_delete, rt_named_rwl_delete, rt_named_spl_delete, rt_named_mbx_delete; rewrite Ed;
      (rewrite (proj2 (Z.eqb_eq (users - 1) 0)) by lia); done.
  - destruct Hs as [Hb Hh']. rewrite Hn in Hh'. split; [|done]. subst n. destruct o; cbn [named_delete];
      unfold rt_named_sem_delete, rt_named_rwl_delete, rt_named_spl_delete, rt_named_mbx_delete; rewrite Ed;
      (rewrite (proj2 (Z.eqb_neq (users - 1) 0)) by lia); done.
Qed.
End one.

(** C26. An object by name and its users.  While an object is registered, requests for its
    name and deletions by users that are not the last, in any order, return
    at once: a request the address of the object, a deletion the users left; the kernel, the
    heap and every other name are as before, only the count has changed.  The last user's
    deletion takes the name away before it takes the object apart. *)
Theorem named_object_shared fuel o name adr ty users cs rs left (s : ext) :
  1 < adr -> reg_ok (reg s) -> held (reg s) name adr ty users -> 1 <= users -> users + zlen cs < 2 ^ 16 ->
  shared adr cs users = Some (rs, left) ->
  exists r, named_run fuel o name adr cs s = Done rs (set_reg r s) /\
    reg_ok r /\ held r name adr ty left /\ (forall nm a, binds r nm a <-> binds (reg s) nm a) /\
    (left = 1 -> exists r', named_delete fuel o adr (set_reg r s) = take_apart fuel o adr (set_reg r' s) /\
       reg_ok r' /\ get_adr name r' = 0 /\ forall nm a, binds r' nm a <-> binds (reg s) nm a /\ nm <> name).
Proof.
  intros Hadr. revert users rs s. induction cs as [|c cs IH]; intros users rs s Hok Hh Hu Hl; cbn [shared named_run].
  - intros [= <- <-]. exists (reg s). split; [by destruct s|]. do 3 (split; [done|]). intros ->.
    destruct (named_delete_held fuel o name adr ty Hadr 1 s Hok Hh ltac:(lia)) as (r' & Hr' & He & Hno & Hb).
    exists r'. split; [|done]. rewrite <- He. by destruct s.
  - assert (zlen (c :: cs) = zlen cs + 1) as E by (unfold zlen; cbn; lia). rewrite E in Hl.
    pose proof (zlen_nonneg cs). destruct c as [v t h|]; cbn [named_call].
    + destruct (shared adr cs _) as [[rs' u']|] eqn:Es; [|done]. cbn. intros [= <- <-].
      destruct (named_init_held fuel o name adr ty Hadr v t h users s Hok Hh ltac:(lia)) as (r & -> & Hr & Hh' & Hb).
      cbn [rbind]. destruct (IH (users + 1) rs' (set_reg r s)) as (r2 & -> & Hr2 & Hh2 & Hb2 & Hlast); try done; [lia|lia|].
      exists r2. split; [done|]. do 2 (split; [done|]). split; [intros; by rewrite Hb2, <- Hb|].
      intros Hx. destruct (Hlast Hx) as (r' & ? & ? & ? & Hb'). exists r'. split; [done|]. do 2 (split; [done|]).
      intros. by rewrite Hb', <- Hb.
    + destruct (users =? 1) eqn:E1; [done|]. destruct (shared adr cs _) as [[rs' u']|] eqn:Es; [|done]. cbn. intros [= <- <-].
      destruct (named_delete_held fuel o name adr ty Hadr users s Hok Hh Hu) as (r & Hr & Hd). rewrite E1 in Hd.
      destruct Hd as (-> & Hh' & Hb). zbool. cbn [rbind].
      destruct (IH (users - 1) rs' (set_reg r s)) as (r2 & -> & Hr2 & Hh2 & Hb2 & Hlast); try done; [lia|lia|].
      exists r2. split; [done|]. do 2 (split; [done|]). split; [intros; by rewrite Hb2, <- Hb|].
      intros Hx. destruct (Hlast Hx) as (r' & ? & ? & ? & Hb'). exists r'. split; [done|]. do 2 (split; [done|]).
      intros. by rewrite Hb', <- Hb.
Qed.
End shared.

(** *** Example: a semaphore called 42, at address 600

    The heap of the example has one block. *)

#[local] Instance one_block : Allocator (list Z) := {
  halloc := fun _ h => Some (match h with [] => (600, [600]) | _ => (0, h) end);
  hfree := fun p h => Some (filter (fun q => q <> p) h)
}.
Definition ex_ext : ext (H := list Z) := MkExt idle_kst ex_empty [] (fun _ => 0) (fun _ => None) (fun _ => []).
Definition ex_created : ext (H := list Z) :=
  match named_init 64 64 64 64 (fun _ _ => []) 0 5 NSem 42 1 2 0 ex_ext with Done _ s => s | _ => ex_ext end.
Definition ex_calls : list named_op := [NInit 1 2 0; NInit 1 2 0; NDelete; NInit 1 2 0; NDelete; NDelete].

Lemma named_object_shared_witness :
  heap ex_created = [600] /\ semmagic (sems (ker ex_created) (sem_at 600)) = RT_SEM_MAGIC /\
  (exists r, named_run 64 64 64 64 (fun _ _ => []) 0 5 NSem 42 600 ex_calls ex_created = Done [600; 600; 2; 600; 2; 1] (set_reg r ex_created) /\
    reg_ok r /\ held r 42 600 IS_SEM 1 /\ (forall nm a, binds r nm a <-> binds (reg ex_created) nm a) /\
    (1 = 1 -> exists r', named_delete 5 NSem 600 (set_reg r ex_created) = take_apart 5 NSem 600 (set_reg r' ex_created) /\
       reg_ok r' /\ get_adr 42 r' = 0 /\ forall nm a, binds r' nm a <-> binds (reg ex_created) nm a /\ nm <> 42)).
Proof.
  split; [by vm_compute|]. split; [by vm_compute|].
  assert (forall nm a, ~ binds ex_empty nm a) as Hno by (intros nm a (k & _ & H1 & H2 & _); cbn in H2; lia).
  destruct (register_held 42 600 IS_SEM 0 ex_empty ex_empty_ok ltac:(lia) ltac:(lia) (Hno 42)
    (fun nm => Hno nm 600)) as [(k & r' & E & _ & Hr & Hh & _)|E]; [|apply (f_equal fst) in E; by vm_compute in E].
  assert (reg ex_created = r') as Er by (apply (f_equal snd) in E; cbn [snd] in E; rewrite <- E; by vm_compute).
  apply (named_object_shared 64 64 64 64 (fun _ _ => []) 0 5 NSem 42 600 IS_SEM 1 ex_calls);
    [lia|by rewrite Er|by rewrite Er|lia|by vm_compute|by vm_compute].
Defined.
