(* ===== verification/AllocFacts.v ===== *)
(** * Both heaps are allocators in the sense their users rely on. *)

From S2P Require Import Prelude Tlsf TlsfFacts TlsfPool TlsfHeap Shm.
From S2P Require Heap HeapExt HeapSafe.
From stdpp Require Import list.
#[local] Open Scope Z_scope.

Definition tlsf_allocated (h : Tlsf.rtheap) (l : list Z) : Prop :=
  exists bls live, live_ok live h bls /\ map fst live ≡ₚ l.

Lemma tlsf_halloc_law h l size : tlsf_allocated h l -> 0 <= size <= 2 ^ 30 - 2 ^ 24 ->
  exists p h', halloc size h = Some (p, h') /\
    ((p = 0 /\ tlsf_allocated h' l) \/ (p <> 0 /\ (p ∉ l) /\ tlsf_allocated h' (p :: l))).
Proof.
  intros (bls & live & Hok & Hl) Hs.
  destruct (heap_step_ok (Alloc size) live h bls Hok Hs) as (live' & h' & bls' & E & _ & Hok').
  cbn [heap_step] in E. cbn [halloc tlsf_allocator]. destruct (Tlsf.rtheap_alloc h size) as [[q h2]|] eqn:Ea; [|done].
  injection E as E1 E2. subst h2. rename q into p. exists p, h'. split; [done|]. destruct (Z.eqb_spec p Tlsf.NULL) as [->|Hp].
  - left. split; [done|]. exists bls', live'. by rewrite <- E1 in Hok' |- *.
  - right. split; [done|]. assert (map fst live' ≡ₚ p :: l) as Hl'.
    { rewrite <- E1, map_app. cbn. by rewrite Hl, Permutation_app_comm. }
    split; [|by exists bls', live']. pose proof Hok' as (_ & Hnd & _). rewrite Hl' in Hnd.
    by apply NoDup_cons in Hnd as [? _].
Qed.

Lemma tlsf_hfree_law h l p l' : tlsf_allocated h l -> l ≡ₚ p :: l' ->
  exists h', hfree p h = Some h' /\ tlsf_allocated h' l'.
Proof.
  intros (bls & live & Hok & Hl) Hp.
  assert (p ∈ map fst live) as Hin by (rewrite Hl, Hp; apply list_elem_of_here).
  destruct (fst_in _ _ Hin) as [sz Hin']. apply list_elem_of_lookup_1 in Hin' as [k Hk].
  destruct (heap_step_ok (Release k) live h bls Hok I) as (live' & h' & bls' & E & _ & Hok').
  cbn [heap_step] in E. rewrite Hk in E. cbn [hfree tlsf_allocator].
  destruct (Tlsf.rtheap_free h p) as [h2|]; [|done]. injection E as E1 E2. subst h2.
  exists h'. split; [done|]. exists bls', live'. split; [done|]. rewrite <- E1.
  pose proof (Permutation_map fst (delete_Permutation _ _ _ Hk)) as Hpm. cbn in Hpm.
  apply (Permutation_cons_inv (a := p)). by rewrite <- Hpm, Hl.
Qed.

#[export] Instance tlsf_laws : AllocatorLaws Tlsf.rtheap := {
  alloc_limit := 2 ^ 30 - 2 ^ 24;
  allocated := tlsf_allocated;
  halloc_law := tlsf_halloc_law;
  hfree_law := tlsf_hfree_law
}.

(** ** The heap without TLSF *)

Definition bsd_allocated (hm : Heap.rtheap * Heap.memory) (l : list Z) : Prop :=
  exists bl blocks, HeapSafe.heap_ok hm.1 hm.2 bl blocks /\ map fst blocks ≡ₚ l.

Lemma bsd_halloc_law hm l size : bsd_allocated hm l -> 0 <= size <= 2 ^ 64 - 2 ^ 22 ->
  exists p h', halloc size hm = Some (p, h') /\
    ((p = 0 /\ bsd_allocated h' l) \/ (p <> 0 /\ (p ∉ l) /\ bsd_allocated h' (p :: l))).
Proof.
  destruct hm as [h m]. intros (bl & blocks & Hok & Hl) Hs. cbn [fst snd] in Hok.
  destruct (HeapExt.heap_page h (HeapSafe.ok_params _ _ _ _ Hok)) as (H4 & Ep & _).
  assert (Heap.pagesize h <= 2 ^ 22) by (rewrite Ep; apply Z.pow_le_mono_r; lia).
  pose proof (HeapSafe.rtheap_alloc_ok h m bl blocks size Hok ltac:(lia) ltac:(lia)) as Hp. cbn [halloc bsd_allocator fst snd].
  destruct (Heap.rtheap_alloc h size m) as [[p h'] m']. exists p, (h', m'). split; [done|].
  destruct Hp as [(-> & -> & -> & _)|(Hp & _ & _ & _ & _ & (bl' & Hok') & _)].
  - left. split; [done|]. by exists bl, blocks.
  - right. split; [done|]. pose proof (HeapSafe.ok_live _ _ _ _ Hok') as Hnd. cbn [map fst] in Hnd. rewrite Hl in Hnd.
    apply NoDup_cons in Hnd as [Hn _]. split; [done|]. eexists bl', _. split; [exact Hok'|]. cbn [map fst]. by rewrite Hl.
Qed.

Lemma bsd_hfree_law hm l p l' : bsd_allocated hm l -> l ≡ₚ p :: l' -> exists h', hfree p hm = Some h' /\ bsd_allocated h' l'.
Proof.
  destruct hm as [h m]. intros (bl & blocks & Hok & Hl) Hp. cbn [fst snd] in Hok.
  assert (p ∈ map fst blocks) as Hin by (rewrite Hl, Hp; apply list_elem_of_here).
  destruct (fst_in _ _ Hin) as [b Hb]. apply list_elem_of_lookup_1 in Hb as [k Hk]. pose proof (delete_Permutation _ _ _ Hk) as Hpm.
  destruct (HeapSafe.rtheap_free_ok h m bl blocks Hok p b (delete k blocks) Hpm) as (h' & m' & bl' & E & Hok' & _).
  exists (h', m'). cbn [hfree bsd_allocator fst snd]. rewrite E. split; [done|]. exists bl', (delete k blocks). split; [exact Hok'|].
  pose proof (Permutation_map fst Hpm) as Hpf. cbn [map fst] in Hpf. apply (Permutation_cons_inv (a := p)). by rewrite <- Hpf, Hl.
Qed.

#[export] Instance bsd_laws : AllocatorLaws (Heap.rtheap * Heap.memory) := {
  alloc_limit := 2 ^ 64 - 2 ^ 22;
  allocated := bsd_allocated;
  halloc_law := bsd_halloc_law;
  hfree_law := bsd_hfree_law
}.
