(* ===== verification/Sig.v ===== *)
(** * Signals between tasks: signal.c.

    A task that catches a signal has a host: a task that runs the handler while the
    catcher is kept from running.  The state is that of the named services with a
    table of signals for each task. *)

From S2P Require Import Prelude Resume Kernel Shm Sched Tasks Sem Api Named.
From stdpp Require Import list.
#[local] Open Scope Z_scope.

Definition MAXSIGNALS := 16.
Definition SIGNAL_ENBIT := 0.
Definition SIGNAL_PNDBIT := 1.
Definition RT_SCHED_SIGSUSP := Z.shiftl 1 15.

Record rt_signal_t := MkSignal { flags : Z; sigtask : option tid }.
(** [task->rt_signals]: null, the one that marks a host, or the table of a catcher. *)
Inductive signals := SNone | SHost | STable (t : Z -> rt_signal_t).

Section signal.
Context {H : Type} `{Allocator H}.
Context (sizeof_signals sizeof_RT_TASK : Z) (task_at : Z -> tid) (task_adr : tid -> Z).

Record sst := MkSst { sext : ext (H := H); rt_signals : tid -> signals; pstate : tid -> Z }.
Definition set_sext (x : ext) (s : sst) : sst := MkSst x (rt_signals s) (pstate s).
Definition set_rt_signals (f : tid -> signals) (s : sst) : sst := MkSst (sext s) f (pstate s).
Definition set_pstate (f : tid -> Z) (s : sst) : sst := MkSst (sext s) (rt_signals s) f.
Definition sker (s : sst) : kst := ker (sext s).
Definition set_sker (k : kst) (s : sst) : sst := set_sext (set_ker k (sext s)) s.
Definition on_ker {A} (r : res kst A) (s : sst) : res sst A := within sker set_sker r s.
Definition on_ext {A} (r : res ext A) (s : sst) : res sst A := within sext set_sext r s.

(** [RT_SIGNALS[signal]]; what is beyond the table, and the table of a host, cannot be
    followed. *)
Definition sig_at (t : tid) (signal : Z) (s : sst) : option rt_signal_t :=
  match rt_signals s t with
  | STable f => if signal <? MAXSIGNALS then Some (f signal) else None
  | _ => None
  end.
Definition set_sig (t : tid) (signal : Z) (v : rt_signal_t) (s : sst) : sst :=
  match rt_signals s t with
  | STable f => set_rt_signals (<[t := STable (<[signal := v]> f)]> (rt_signals s)) s
  | _ => s
  end.
Definition set_flags (fl : Z -> Z) (t : tid) (signal : Z) (s : sst) : sst :=
  match sig_at t signal s with
  | Some g => set_sig t signal (MkSignal (fl (flags g)) (sigtask g)) s
  | None => s
  end.
Definition no_signals (t : tid) (s : sst) : bool :=
  match rt_signals s t with SNone => true | _ => false end.

(** The answer of [rt_request_signal_]: to the caller, and to the task that waits for it. *)
Definition request_answer (task : option tid) (retval : Z) (s : sst) : res sst Z :=
  match task with
  | None => Fault s
  | Some t =>
      let s := set_sker (tset set_retval t retval (sker s)) s in
      let* (_, s) := on_ker (rt_task_resume t (sker s)) s in Done retval s
  end.
Definition rt_request_signal_ (sigt task : option tid) (signal : Z) (s : sst) : res sst Z :=
  match sigt, task with
  | Some g, Some t =>
      if negb (0 <=? signal) then request_answer task (- EINVAL) s
      else
        let* (ok, s) :=
          if no_signals t s then
            let* (p, s) := on_ext (rt_malloc sizeof_signals (sext s)) s in
            if negb (p =? 0) then
              let s := set_rt_signals (<[t := STable (fun _ => MkSignal 0 None)]> (rt_signals s)) s in
              Done true (set_pstate (<[t := 0]> (pstate s)) s)
            else Done false s
          else Done true s in
        if ok then
          match sig_at t signal s with
          | None => Fault s
          | Some _ =>
              let s := set_flags (fun _ => Z.shiftl 1 SIGNAL_ENBIT) t signal s in
              let s := set_rt_signals (<[g := SHost]> (rt_signals s)) s in
              match sig_at t signal s with
              | None => Fault s
              | Some e => request_answer task 0 (set_sig t signal (MkSignal (flags e) (Some g)) s)
              end
          end
        else request_answer task (- ENOMEM) s
  | _, _ => request_answer task (- EINVAL) s
  end.

(** Let the host run if it is waiting, the catcher [task], if any, stopped. *)
Definition rt_exec_signal (sigt task : option tid) (s : sst) : res sst unit :=
  match sigt with
  | None => Fault s
  | Some g =>
      let k := sker s in
      if 0 <? suspdepth (tasks k g) then
        let k := tset set_suspdepth g (suspdepth (tasks k g) - 1) k in
        let s := set_sker k s in
        if suspdepth (tasks k g) =? 0 then
          let s :=
            match task with
            | Some t =>
                let s := set_sker (tset set_priority g (priority (tasks k t)) k) s in
                let n := pstate s t in
                let s := set_pstate (<[t := n + 1]> (pstate s)) s in
                if n =? 0 then
                  let k := rem_ready_task t (sker s) in
                  set_sker (tset set_state t (Z.lor (state (tasks k t)) RT_SCHED_SIGSUSP) k) s
                else s
            | None => s
            end in
          let k := sker s in
          let k := tset set_state g (clear (state (tasks k g)) RT_SCHED_SIGSUSP) k in
          let k := tset set_retval g (match task with Some t => task_adr t | None => 0 end) k in
          on_ker (RT_SCHEDULE g (enq_ready_task g k)) s
        else Done tt s
      else Done tt s
  end.

Definition task_or_current (task : option tid) (s : sst) : tid := default (rt_current (sker s)) task.

Definition rt_release_signal (signal : Z) (task : option tid) (s : sst) : res sst Z :=
  let t := task_or_current task s in
  if (0 <=? signal) && negb (no_signals t s) then
    match sig_at t signal s with
    | None => Fault s
    | Some (MkSignal _ None) => Done (- EINVAL) s
    | Some (MkSignal _ (Some g)) =>
        let s := set_sker (tset set_priority g (priority (tasks (sker s) t)) (sker s)) s in
        let s := set_rt_signals (<[g := SNone]> (rt_signals s)) s in
        match sig_at t signal s with
        | None => Fault s
        | Some e =>
            let* (_, s) := rt_exec_signal (sigtask e) None s in
            match sig_at t signal s with
            | None => Fault s
            | Some e => Done 0 (set_sig t signal (MkSignal (flags e) None) s)
            end
        end
    end
  else Done (- EINVAL) s.

(** The loop of [rt_trigger_signal]: once more for each signal that has come while the
    handler ran. *)
Fixpoint trigger_loop (fuel : nat) (signal : Z) (t : tid) (s : sst) : res sst unit :=
  match fuel with
  | O => NoFuel s
  | S fuel =>
      match sig_at t signal s with
      | None => Fault s
      | Some e =>
          if Z.testbit (flags e) SIGNAL_ENBIT then
            let s := set_flags (fun f => Z.clearbit f SIGNAL_ENBIT) t signal s in
            let* (_, s) := rt_exec_signal (sigtask e) (Some t) s in
            match sig_at t signal s with
            | None => Fault s
            | Some e =>
                let s := set_flags (fun f => Z.setbit f SIGNAL_ENBIT) t signal s in
                let s := set_flags (fun f => Z.clearbit f SIGNAL_PNDBIT) t signal s in
                if Z.testbit (flags e) SIGNAL_PNDBIT then trigger_loop fuel signal t s else Done tt s
            end
          else Done tt (set_flags (fun f => Z.setbit f SIGNAL_PNDBIT) t signal s)
      end
  end.
Definition rt_trigger_signal (fuel : nat) (signal : Z) (task : option tid) (s : sst) : res sst unit :=
  let t := task_or_current task s in
  if (0 <=? signal) && negb (no_signals t s) then
    match sig_at t signal s with
    | None => Fault s
    | Some (MkSignal _ None) => Done tt s
    | Some _ => trigger_loop fuel signal t s
    end
  else Done tt s.

(** [rt_enable_signal] and [rt_disable_signal]. *)
Definition change_enable (fl : Z -> Z) (signal : Z) (task : option tid) (s : sst) : res sst unit :=
  let t := task_or_current task s in
  if (0 <=? signal) && negb (no_signals t s) then
    match sig_at t signal s with
    | None => Fault s
    | Some _ => Done tt (set_flags fl t signal s)
    end
  else Done tt s.
Definition rt_enable_signal : Z -> option tid -> sst -> res sst unit :=
  change_enable (fun f => Z.setbit f SIGNAL_ENBIT).
Definition rt_disable_signal : Z -> option tid -> sst -> res sst unit :=
  change_enable (fun f => Z.clearbit f SIGNAL_ENBIT).

Definition rt_signal_helper (task : option tid) (s : sst) : res sst Z :=
  match task with
  | Some t => let* (_, s) := on_ker (rt_task_suspend (Some t) (sker s)) s in Done (i32 (retval (tasks (sker s) t))) s
  | None => Done (Z.of_nat (runnable_on_cpus (tasks (sker s) (rt_current (sker s))))) s
  end.

(** The host waits for the next signal; the catcher goes on when no host of it runs. *)
Definition rt_wait_signal (g t : tid) (s : sst) : res sst Z :=
  if negb (no_signals g s) then
    let n := suspdepth (tasks (sker s) g) in
    let s := set_sker (tset set_suspdepth g (n + 1) (sker s)) s in
    let* (_, s) :=
      if n =? 0 then
        let k := sker s in
        let k := tset set_state g (Z.lor (state (tasks k g)) RT_SCHED_SIGSUSP) k in
        let s := set_sker (rem_ready_current g k) s in
        let s :=
          if 0 <? pstate s t then
            let s := set_pstate (<[t := pstate s t - 1]> (pstate s)) s in
            if pstate s t =? 0 then
              let k := sker s in
              let k := tset set_state t (clear (state (tasks k t)) RT_SCHED_SIGSUSP) k in
              set_sker (if state (tasks k t) =? RT_SCHED_READY then enq_ready_task t k else k) s
            else s
          else s in
        on_ker (rt_schedule (sker s)) s
      else Done tt s in
    Done (i32 (retval (tasks (sker s) g))) s
  else Done 0 s.

(** The body of the host: [sighdl] is the handler. *)
Fixpoint host_loop (fuel : nat) (sighdl : Z -> tid -> sst -> res sst unit) (g t : tid) (signal : Z) (s : sst)
    : res sst unit :=
  match fuel with
  | O => NoFuel s
  | S fuel =>
      let* (r, s) := rt_wait_signal g t s in
      if negb (r =? 0) then
        let* (_, s) := sighdl signal t s in host_loop fuel sighdl g t signal s
      else Done tt s
  end.
Definition signal_suprt_fun (fuel : nat) (sighdl : Z -> tid -> sst -> res sst unit) (g t : tid) (signal : Z)
    (s : sst) : res sst unit :=
  let* (r, s) := rt_request_signal_ (Some g) (Some t) signal s in
  let* (_, s) := (if r =? 0 then host_loop fuel sighdl g t signal s else Done tt s) in
  on_ext (rt_free (task_adr g) (sext s)) s.

(** [sighdl] is the address of the handler, [suprt_fun] that of the body and [arg] that of
    its argument, on the stack of the caller; [stack] is the stack of the host. *)
Definition rt_request_signal (suprt_fun arg : Z) (stack : option Z) (signal sighdl : Z) (s : sst) : res sst Z :=
  let t := rt_current (sker s) in
  if (0 <=? signal) && negb (sighdl =? 0) then
    let* (p, s) := on_ext (rt_malloc sizeof_RT_TASK (sext s)) s in
    if negb (p =? 0) then
      let g := task_at p in
      let '(e, k) := rt_task_init_cpuid g suprt_fun arg stack (priority (tasks (sker s) t)) 0 0
                       (runnable_on_cpus (tasks (sker s) t)) (sker s) in
      let s := set_sker k s in
      if e =? 0 then
        let* (_, s) := on_ker (rt_task_resume g (sker s)) s in
        let* (_, s) := on_ker (rt_task_suspend (Some t) (sker s)) s in
        Done (i32 (retval (tasks (sker s) t))) s
      else let* (_, s) := on_ext (rt_free p (sext s)) s in Done (- EINVAL) s
    else Done (- EINVAL) s
  else Done (- EINVAL) s.
End signal.
