(* ===== verification/Sys.v ===== *)
(** * The requests of real time processes: sys.c.

    A request carries the number of a service and its arguments.  A service of the
    tables is called for the task of the process, in hard real time directly and in soft real
    time through the scheduler, with the buffers the table asks for copied in
    and out; the requests from 1000 on are served here. *)

From S2P Require Import Prelude Resume MbxRing Nam2num Kernel Registry Shm Sched Tasks Lxrt Sem Mbx Api Msg Named.
From stdpp Require Import list.
#[local] Open Scope Z_scope.

(** ** The encoding of requests and of the types of services *)

Definition GT_NR_SYSCALLS := Z.shiftl 1 11.
Definition MAX_FUN_EXT := 32.
Definition ENCODE_LXRT_REQ (dynx srq lsize : Z) : Z :=
  Z.lor (Z.lor (Z.lor (Z.shiftl dynx 24) (Z.shiftl srq 12)) GT_NR_SYSCALLS) lsize.
Definition SRQ (x : Z) : Z := Z.land (Z.shiftr x 12) 0xFFF.
Definition LXRT_NARG (x : Z) : Z := Z.land x (GT_NR_SYSCALLS - 1).
Definition INDX (x : Z) : Z := Z.land (Z.shiftr x 24) (MAX_FUN_EXT - 1).

(** Which argument is a buffer and which one its size, for two that are read and two that are
    written. *)
Definition field3 (v : Z) (at_ : Z) : Z := Z.shiftl (Z.land v 0x7) at_.
Definition UR1 (bf sz : Z) : Z := Z.lor (field3 bf 3) (field3 sz 6).
Definition UR2 (bf sz : Z) : Z := Z.lor (field3 bf 9) (field3 sz 12).
Definition UW1 (bf sz : Z) : Z := Z.lor (field3 bf 19) (field3 sz 22).
Definition UW2 (bf sz : Z) : Z := Z.lor (field3 bf 25) (field3 sz 28).
Definition NEED_TO_RW (x : Z) : bool := negb (Z.land x 0xFFFFFFFE =? 0).
Definition NEED_TO_W (x : Z) : bool := negb (Z.land x (Z.shiftl 0x3F 19) =? 0).
Definition NEED_TO_W2ND (x : Z) : bool := negb (Z.land x (Z.shiftl 0x3F 25) =? 0).
Definition NEED_TO_R (x : Z) : bool := negb (Z.land x (Z.shiftl 0x3F 3) =? 0).
Definition NEED_TO_R2ND (x : Z) : bool := negb (Z.land x (Z.shiftl 0x3F 9) =? 0).
Definition get3 (x at_ : Z) : Z := Z.land (Z.shiftr x at_) 0x7.
Definition USP_RBF1 (x : Z) : Z := get3 x 3.
Definition USP_RSZ1 (x : Z) : Z := get3 x 6.
Definition USP_RBF2 (x : Z) : Z := get3 x 9.
Definition USP_RSZ2 (x : Z) : Z := get3 x 12.
Definition USP_WBF1 (x : Z) : Z := get3 x 19.
Definition USP_WSZ1 (x : Z) : Z := get3 x 22.
Definition USP_WBF2 (x : Z) : Z := get3 x 25.
Definition USP_WSZ2 (x : Z) : Z := get3 x 28.

Definition ENOSYS := 38.
Definition EACCES := 13.
Definition ENODEV := 19.
Definition FORCE_SOFT := 0x80000000.
Definition USRLAND_MAX_MSG_SIZE := 128.
Definition sizeof_long := 8.
Definition set_tun := ltac:(setter eta_kst tun).

(** Requests that are served here. *)
Definition LXRT_GET_ADR := 1000.
Definition LXRT_GET_NAME := 1001.
Definition LXRT_TASK_INIT := 1002.
Definition LXRT_TASK_DELETE := 1003.
Definition LXRT_SEM_INIT := 1004.
Definition LXRT_SEM_DELETE := 1005.
Definition LXRT_MBX_INIT := 1006.
Definition LXRT_MBX_DELETE := 1007.
Definition MAKE_SOFT_RT := 1008.
Definition MAKE_HARD_RT := 1009.
Definition PRINT_TO_SCREEN := 1010.
Definition NONROOT_HRT := 1011.
Definition RT_BUDDY := 1012.
Definition HRT_USE_FPU := 1013.
Definition GET_USP_FLAGS := 1015.
Definition SET_USP_FLAGS := 1016.
Definition GET_USP_FLG_MSK := 1017.
Definition SET_USP_FLG_MSK := 1018.
Definition IS_HARD := 1019.
Definition LINUX_SERVER := 1020.
Definition HARD_SOFT_TOGGLER := 1023.
Definition PRINTK := 1024.
Definition GET_EXECTIME := 1025.
Definition GET_TIMEORIG := 1026.
Definition LXRT_RWL_INIT := 1027.
Definition LXRT_RWL_DELETE := 1028.
Definition LXRT_SPL_INIT := 1029.
Definition LXRT_SPL_DELETE := 1030.
Definition SCHED_LATENCIES := 1031.
Definition GET_CPU_FREQ := 1032.
(** The entries of the table that are called from here. *)
Definition TYPED_SEM_INIT := 39.
Definition SEM_DELETE := 40.
Definition RWL_INIT := 54.
Definition RWL_DELETE := 55.
Definition SPL_INIT := 67.
Definition SPL_DELETE := 68.
Definition TYPED_MBX_INIT := 75.
Definition MBX_DELETE := 76.
Definition PROXY_DETACH := 121.
Definition IS_PRX := 5.
Definition RT_SCHED_LOWEST_PRIORITY := 0x3fffFfff.
Definition CAP_IPC_LOCK := 14.
Definition CAP_SYS_RAWIO := 17.
Definition CAP_SYS_NICE := 23.

Section sys.
Context {H : Type} `{Allocator H}.
Context (sizeof_SEM sizeof_RWL sizeof_SPL sizeof_MBX sizeof_RT_TASK sizeof_fun_args : Z).
Context (task_at : Z -> tid) (task_adr : tid -> Z) (irandu : nat -> Z -> Z).
(** The address of the table of the module itself.  What an argument that was not passed
    is read as; the number of a Linux task; what a printing gives; the time of day in
    seconds and microseconds; how a long lies in memory. *)
Context (rt_fun_lxrt : Z).
Context (junk : nat -> Z) (pid_of : Z -> Z) (rt_printk : list byte -> Z).
Context (timeofday : kst -> Z * Z) (long_bytes : Z -> list byte).
(** How often a process is woken for nothing before it runs; whether a signal is pending
    for it; whether it could be moved to a processor and whether it has a user memory. *)
Context (fuel : nat) (pending moved has_mm : Z -> bool).

(** A service of a table: its type, and what it does. *)
Record service := MkService { s_type : Z; s_fun : list Z -> ext (H := H) -> res (ext (H := H)) Z }.

(** The state the requests work on; the tables are at addresses, 0 is no table; the fields
    by [tid] are of the tasks, those by a number of the Linux tasks. *)
Record sys := MkSys {
  yext : ext (H := H);
  tables : Z -> Z -> service;
  rt_fun_ext : Z -> Z;
  fun_args : tid -> list Z;
  msg_buf : tid -> Z * Z;
  usp_flags : tid -> Z;
  usp_flags_mask : tid -> Z;
  linux_syscall_server : tid -> Z;
  exectime : tid -> Z * Z;
  tskext1 : Z -> Z;
  perms : list (Z * Z);
  lnx_fpu : Z -> bool;
  boot_epoch : Z * Z
}.
Definition eta_sys (s : sys) : sys :=
  MkSys (yext s) (tables s) (rt_fun_ext s) (fun_args s) (msg_buf s) (usp_flags s) (usp_flags_mask s)
    (linux_syscall_server s) (exectime s) (tskext1 s) (perms s) (lnx_fpu s) (boot_epoch s).
Definition set_yext := ltac:(setter eta_sys yext).
Definition set_rt_fun_ext := ltac:(setter eta_sys rt_fun_ext).
Definition set_fun_args := ltac:(setter eta_sys fun_args).
Definition set_msg_buf := ltac:(setter eta_sys msg_buf).
Definition set_usp_flags := ltac:(setter eta_sys usp_flags).
Definition set_usp_flags_mask := ltac:(setter eta_sys usp_flags_mask).
Definition set_linux_syscall_server := ltac:(setter eta_sys linux_syscall_server).
Definition set_exectime := ltac:(setter eta_sys exectime).
Definition set_tskext1 := ltac:(setter eta_sys tskext1).
Definition set_perms := ltac:(setter eta_sys perms).
Definition set_lnx_fpu := ltac:(setter eta_sys lnx_fpu).
Definition set_boot_epoch := ltac:(setter eta_sys boot_epoch).

Definition yker (s : sys) : kst := ker (yext s).
Definition yreg (s : sys) : registry := reg (yext s).
Definition ytask (s : sys) (t : tid) : RT_TASK := tasks (yker s) t.
Definition set_yker (k : kst) (s : sys) : sys := set_yext (set_ker k (yext s)) s.
Definition yset {A} (f : A -> RT_TASK -> RT_TASK) (t : tid) (v : A) (s : sys) : sys := set_yker (tset f t v (yker s)) s.
Definition in_ker {A} (r : res kst A) (s : sys) : res sys A := within yker set_yker r s.
Definition in_ext {A} (r : res ext A) (s : sys) : res sys A := within yext set_yext r s.
Definition ymalloc (size : Z) (s : sys) : res sys Z := in_ext (rt_malloc size (yext s)) s.
Definition yfree (p : Z) (s : sys) : res sys unit := in_ext (rt_free p (yext s)) s.
(** Registration for Linux task [lnx]. *)
Definition yregister (name adr type lnx : Z) (s : sys) : Z * sys :=
  let '(k, r) := rt_register name adr type lnx (yreg s) in (k, set_yext (set_reg r (yext s)) s).
Definition ydrg_on_adr (adr : Z) (s : sys) : Z * sys :=
  let '(k, x) := rt_drg_on_adr adr (yext s) in (k, set_yext x s).

Definition argn (k : nat) (arg : list Z) : Z := default (junk k) (arg !! k).
Definition RTAI_MAX_FUN_ARGS := 9%nat.
(** [RTAI_FUN_ARGS] and [RTAI_FUNARGS]. *)
Definition fun_arguments (arg : list Z) : list Z := map (fun k => argn k arg) (seq 0 RTAI_MAX_FUN_ARGS).

(** A call of an entry of the module's own table. *)
Definition lxrt_call (index : Z) (args : list Z) (s : sys) : res sys Z :=
  in_ext (s_fun (tables s rt_fun_lxrt index) args (yext s)) s.
Definition lxrt_typed_sem_init (sem count type : Z) (s : sys) : res sys Z :=
  lxrt_call TYPED_SEM_INIT [sem; i32 count; i32 type] s.
Definition lxrt_typed_mbx_init (mbx bufsize type : Z) (s : sys) : res sys Z :=
  let* (r, s) := lxrt_call TYPED_MBX_INIT [mbx; i32 bufsize; i32 type] s in Done (i32 r) s.
Definition lxrt_typed_rwl_init (rwl type : Z) (s : sys) : res sys Z := lxrt_call RWL_INIT [rwl; i32 type] s.
Definition lxrt_spl_init (spl : Z) (s : sys) : res sys Z := lxrt_call SPL_INIT [spl] s.
Definition lxrt_Proxy_detach (pid : Z) (s : sys) : res sys Z := lxrt_call PROXY_DETACH [i32 pid] s.
Definition GENERIC_DELETE (index object : Z) (s : sys) : res sys Z :=
  let* (r, s) := lxrt_call index [object] s in Done (i32 r) s.

(** ** Calling a service *)

(** [narg] is the size of the arguments in bytes. *)
Definition lxrt_fun_call (t : tid) (f : list Z -> ext -> res ext Z) (narg : Z) (arg : list Z) (s : sys)
    : res sys unit :=
  if 0 <? is_hard (tasks (yker s) t) then
    let* (ret, s) := in_ext (f (fun_arguments arg) (yext s)) s in
    let s := set_yker (tset set_retval t ret (yker s)) s in
    if is_hard (tasks (yker s) t) =? 0 then in_ker (rt_schedule_soft_tail t (yker s)) s else Done tt s
  else
    let n := narg / sizeof_long in
    let s := set_fun_args (<[t := ztake n arg ++ zdrop n (fun_args s t)]> (fun_args s)) s in
    let* (_, s) := in_ker (soft_enter fuel t (yker s)) s in
    let* (ret, s) := in_ext (f (fun_arguments (fun_args s t)) (yext s)) s in
    in_ker (soft_leave t ret (yker s)) s.

(** A size: the argument that holds it, or a long; [int] keeps the low bits. *)
Definition usp_size (need : bool) (sz : Z) (arg : list Z) : Z :=
  if need then i32 (if negb (sz =? 0) then argn (Z.to_nat (sz - 1)) arg else sizeof_long) else 0.

(** The buffer of the task is made larger when [msg_size] does not fit. *)
Definition new_max (msg_size : Z) : Z := Z.quot (i32 (Z.shiftl msg_size 7)) 100.
Definition grow_buf (first : bool) (t : tid) (msg_size : Z) (s : sys) : res sys unit :=
  let max := max_msg_size (tasks (yker s) t) in
  if (if first then max.1 else max.2) <? msg_size then
    let* (_, s) := yfree (if first then (msg_buf s t).1 else (msg_buf s t).2) s in
    let n := new_max msg_size in
    let s := set_yker (tset set_max_msg_size t (if first then (n, max.2) else (max.1, n)) (yker s)) s in
    let* (p, s) := ymalloc n s in
    let b := msg_buf s t in
    Done tt (set_msg_buf (<[t := if first then (p, b.2) else (b.1, p)]> (msg_buf s)) s)
  else Done tt s.

(** The buffers of one pair of arguments: grown and filled; the arguments after, and the
    user's address of what will be written. *)
Definition pass_buf (first : bool) (t : tid) (rsize wsize rbf wbf : Z) (arg : list Z) (s : sys)
    : res sys (list Z * Z) :=
  let msg_size := if wsize <? rsize then rsize else wsize in
  if 0 <? msg_size then
    let* (_, s) := grow_buf first t msg_size s in
    let buf := if first then (msg_buf s t).1 else (msg_buf s t).2 in
    let i := Z.to_nat (rbf - 1) in
    let '(arg, s) :=
      if negb (rsize =? 0) && negb (argn i arg =? 0) then
        (<[i := buf]> arg, set_yker (memcopy buf (argn i arg) rsize (yker s)) s)
      else (arg, s) in
    if negb (wsize =? 0) then
      let j := Z.to_nat (wbf - 1) in Done (<[j := buf]> arg, argn j arg) s
    else Done (arg, 0) s
  else Done (arg, 0) s.

Definition lxrt_fun_call_wbuf (t : tid) (f : list Z -> ext -> res ext Z) (narg : Z) (arg : list Z) (type : Z)
    (s : sys) : res sys unit :=
  let rsize := usp_size (NEED_TO_R type) (USP_RSZ1 type) arg in
  let r2size := usp_size (NEED_TO_R type && NEED_TO_R2ND type) (USP_RSZ2 type) arg in
  let wsize := usp_size (NEED_TO_W type) (USP_WSZ1 type) arg in
  let w2size := usp_size (NEED_TO_W type && NEED_TO_W2ND type) (USP_WSZ2 type) arg in
  let* (aw, s) := pass_buf true t rsize wsize (USP_RBF1 type) (USP_WBF1 type) arg s in
  let* (aw2, s) := pass_buf false t r2size w2size (USP_RBF2 type) (USP_WBF2 type) aw.1 s in
  let* (_, s) := lxrt_fun_call t f narg aw2.1 s in
  if negb (wsize =? 0) then
    let s := set_yker (memcopy aw.2 (msg_buf s t).1 wsize (yker s)) s in
    if negb (w2size =? 0) then Done tt (set_yker (memcopy aw2.2 (msg_buf s t).2 w2size (yker s)) s)
    else Done tt s
  else Done tt s.

(** ** Hard and soft *)

Definition rt_make_hard_real_time (task : option tid) (s : sys) : res sys unit :=
  match task with
  | Some t =>
      if valid_task t (yker s) && (is_hard (tasks (yker s) t) =? 0) then
        in_ker (steal_from_linux fuel t (match lnxtsk (tasks (yker s) t) with Some l => pending l | None => false end)
                  (yker s)) s
      else Done tt s
  | None => Done tt s
  end.
Definition give_back (t : tid) (keeprio : Z) (s : sys) : res sys unit :=
  let* (_, s) := in_ker (give_back_to_linux t keeprio (yker s)) s in Done tt s.
Definition rt_make_soft_real_time (task : option tid) (s : sys) : res sys unit :=
  match task with
  | Some t =>
      if valid_task t (yker s) && negb (is_hard (tasks (yker s) t) =? 0) then
        if 0 <? is_hard (tasks (yker s) t) then give_back t 0 s
        else Done tt (set_yker (tset set_is_hard t 0 (yker s)) s)
      else Done tt s
  | None => Done tt s
  end.

(** ** A process becomes a task and stops being one *)

(** [hweight32]: how many of the 32 low bits are set. *)
Definition hweight32 (m : Z) : nat := length (filter (fun i => Z.testbit m (Z.of_nat i) = true) (seq 0 32)).
Definition ycpus (allowed : Z) (k : kst) : nat :=
  if (1 <? online_cpus (tun k))%nat && negb (allowed =? 0) then
    if (1 <? hweight32 allowed)%nat then get_min_tasks_cpuid allowed k else ffnz allowed
  else cpuid k.
(** Linux does not move the task [cur]: its task stays where it is. *)
Definition put_current_on_cpu (cur : Z) (k : kst) : option kst :=
  if moved cur then Some k
  else match tskext k cur with
       | Some t => Some (tset set_runnable_on_cpus t (cpuid k) k)
       | None => None
       end.
(** What [set_rtext] clears besides the fields of the kernel. *)
Definition rtext_fields (t : tid) (cur : Z) (s : sys) : sys :=
  let s := set_linux_syscall_server (<[t := 0]> (linux_syscall_server s)) s in
  let s := set_usp_flags (<[t := 0]> (usp_flags s)) s in
  let s := set_usp_flags_mask (<[t := 0]> (usp_flags_mask s)) s in
  let s := set_exectime (<[t := (0, 0)]> (exectime s)) s in
  let s := set_msg_buf (<[t := (0, (msg_buf s t).2)]> (msg_buf s)) s in
  set_tskext1 (<[cur := cur]> (tskext1 s)) s.

(** The task with its buffers, once the three have been had. *)
Definition task_setup (cur name prio max_msg_size cpus_allowed buf0 buf1 adr : Z) (s : sys) : res sys bool :=
  let t := task_at adr in
  let s := yset set_magic t 0 s in
  let '(e, k) := set_rtext t prio 0 0 (ycpus cpus_allowed (yker s)) cur (moved cur) (has_mm cur) (yker s) in
  if e =? 0 then
    let s := rtext_fields t cur (set_yker k s) in
    let s := set_msg_buf (<[t := (buf0, buf1)]> (msg_buf s)) s in
    let s := yset set_max_msg_size t (max_msg_size, max_msg_size) s in
    let '(r, s) := yregister name adr IS_TASK 0 s in
    if negb (r =? 0) then Done true (set_yker (rt_set_task_pid t (yker (yset set_state t 0 s))) s)
    else let* (_, s) := in_ext (lift (clr_rtext rt_sem_signal t (yker s)) (yext s)) s in Done false s
  else Done false s.

(** [__task_init] of the Linux task [cur]. *)
Definition __task_init (cur name prio max_msg_size cpus_allowed : Z) (s : sys) : res sys Z :=
  match tskext (yker s) cur with
  | Some t =>
      match put_current_on_cpu cur (yker s) with
      | Some k => Done (task_adr t) (set_yker k s)
      | None => Fault s
      end
  | None =>
      if negb (get_adr name (yreg s) =? 0) then Done 0 s
      else
        let prio := if RT_SCHED_LOWEST_PRIORITY <? prio then RT_SCHED_LOWEST_PRIORITY else prio in
        let max_msg_size := if max_msg_size =? 0 then USRLAND_MAX_MSG_SIZE else max_msg_size in
        let* (buf0, s) := ymalloc max_msg_size s in
        if buf0 =? 0 then Done 0 s
        else
          let* (buf1, s) := ymalloc max_msg_size s in
          if buf1 =? 0 then let* (_, s) := yfree buf0 s in Done 0 s
          else
            let* (adr, s) := ymalloc (sizeof_RT_TASK + 3 * sizeof_fun_args) s in
            let* (ok, s) := (if negb (adr =? 0)
                             then let* (ok, s) := task_setup cur name prio max_msg_size cpus_allowed buf0 buf1 adr s in
                                  if ok then Done true s else let* (_, s) := yfree adr s in Done false s
                             else Done false s) in
            if ok then Done adr s
            else
              let* (_, s) := yfree buf0 s in
              let* (_, s) := yfree buf1 s in Done 0 s
  end.

Definition EPERM := 1.
Definition __task_delete (cur adr : Z) (s : sys) : res sys Z :=
  let t := task_at adr in
  if bool_decide (lnxtsk (ytask s t) = Some cur) then
    let* (_, s) := (if 0 <? is_hard (ytask s t) then rt_make_soft_real_time (Some t) s else Done tt s) in
    let s := set_yker (set_tskext (<[cur := None]> (tskext (yker s))) (yker s)) s in
    let s := set_tskext1 (<[cur := 0]> (tskext1 s)) s in
    let* (r, s) := in_ker (clr_rtext rt_sem_signal t (yker s)) s in
    if negb (r =? 0) then Done (- EFAULT) s
    else
      let* (_, s) := yfree (msg_buf s t).1 s in
      let* (_, s) := yfree (msg_buf s t).2 s in
      let* (_, s) := yfree adr s in
      let '(k, s) := ydrg_on_adr adr s in
      Done (if k =? 0 then - ENODEV else 0) s
  else Done (- EPERM) s.

(** ** The requests *)

(** [arg0.i = i; return arg0.ll]: the high half stays. *)
Definition arg0_int (arg0 i : Z) : Z := i64 (Z.lor (Z.land arg0 0xFFFFFFFF00000000) (u32 i)).
Definition deref (adr : Z) : option tid := if adr =? 0 then None else Some (task_at adr).
Definition adr_of (t : option tid) : Z := match t with Some t => task_adr t | None => 0 end.
Definition put_user (adr : Z) (l : list byte) (s : sys) : sys :=
  set_yker (set_umem (<[adr := l ++ drop (length l) (umem (yker s) adr)]> (umem (yker s))) (yker s)) s.
Definition on_task (adr : Z) (f : tid -> sys -> res sys Z) (s : sys) : res sys Z :=
  match deref adr with Some t => f t s | None => Fault s end.

(** A semaphore, a mailbox or a lock by its name; [init] tells whether it could be made. *)
Definition request_init (cur size type name : Z) (init : Z -> sys -> res sys bool) (s : sys) : res sys Z :=
  if negb (get_adr name (yreg s) =? 0) then Done 0 s
  else
    let* (p, s) := ymalloc size s in
    if negb (p =? 0) then
      let* (ok, s) := init p s in
      if ok then
        let '(k, s) := yregister name p type cur s in
        if negb (k =? 0) then Done (i64 p) s else let* (_, s) := yfree p s in Done 0 s
      else let* (_, s) := yfree p s in Done 0 s
    else Done 0 s.
Definition request_delete (index p : Z) (s : sys) : res sys Z :=
  let* (r, s) := GENERIC_DELETE index p s in
  if negb (r =? 0) then Done (arg0_int p (- EFAULT)) s
  else
    let* (_, s) := yfree p s in
    let '(k, s) := ydrg_on_adr p s in Done (arg0_int p k) s.
Definition init_sem (cnt typ p : Z) (s : sys) : res sys bool :=
  let* (_, s) := lxrt_typed_sem_init p cnt typ s in Done true s.
Definition init_mbx (size qtype p : Z) (s : sys) : res sys bool :=
  let* (r, s) := lxrt_typed_mbx_init p size qtype s in Done (0 <=? r) s.
Definition init_rwl (type p : Z) (s : sys) : res sys bool :=
  let* (_, s) := lxrt_typed_rwl_init p type s in Done true s.
Definition init_spl (p : Z) (s : sys) : res sys bool :=
  let* (_, s) := lxrt_spl_init p s in Done true s.

Definition printk_request (arg0 display nch : Z) (s : sys) : res sys Z :=
  if nch <? 0 then Fault s else Done (arg0_int arg0 (rt_printk (ztake nch (umem (yker s) display)))) s.
Definition set_lxrt_perm (cur perm : Z) (s : sys) : sys := set_perms ((cur, perm) :: perms s) s.
Definition use_fpu (adr use : Z) (s : sys) : res sys Z :=
  on_task adr (fun t s =>
    match lnxtsk (ytask s t) with
    | Some l => Done 0 (set_lnx_fpu (<[l := negb (use =? 0)]> (lnx_fpu s)) s)
    | None => Fault s
    end) s.
Definition bool_int (b : bool) : Z := if b then 1 else 0.
Definition soft_forced (t : tid) (flags : Z) (s : sys) : sys :=
  yset set_force_soft t (bool_int ((0 <? is_hard (ytask s t)) && negb (Z.land flags FORCE_SOFT =? 0))) s.
Definition SET_USP_FLAGS_of (t : tid) (flags : Z) (s : sys) : sys :=
  soft_forced t (Z.land flags (usp_flags_mask s t)) (set_usp_flags (<[t := flags]> (usp_flags s)) s).
Definition SET_USP_FLG_MSK_of (t : tid) (mask : Z) (s : sys) : sys :=
  soft_forced t (Z.land (usp_flags s t) mask) (set_usp_flags_mask (<[t := mask]> (usp_flags_mask s)) s).

(** [toggler] is the configuration option. *)
Definition hard_soft_toggler (toggler : bool) (adr : Z) (task : option tid) (s : sys) : res sys Z :=
  match deref adr ≫= fun t => lnxtsk (ytask s t) with
  | Some l => Done (pid_of l) s
  | None =>
      match task with
      | Some t =>
          if toggler then
            let* (_, s) := (if 0 <? is_hard (ytask s t) then rt_make_soft_real_time (Some t) s
                            else rt_make_hard_real_time (Some t) s) in Done 0 s
          else Done 0 s
      | None => Done 0 s
      end
  end.
Definition is_hard_request (cur adr : Z) (s : sys) : Z :=
  match (if adr =? 0 then tskext (yker s) cur else Some (task_at adr)) with
  | Some t => is_hard (ytask s t)
  | None => 0
  end.
Definition longs_bytes (l : list Z) : list byte := l ≫= long_bytes.
Definition exectime_request (adr to : Z) (s : sys) : res sys Z :=
  on_task adr (fun t s =>
    let '(e0, e1) := exectime s t in
    Done 0 (if negb (e0 =? 0) && negb (e1 =? 0) then put_user to (longs_bytes [e0; e1; tsc (yker s)]) s else s)) s.
(** [_rt_get_boot_epoch]. *)
Definition _rt_get_boot_epoch (k : kst) : Z * Z :=
  let '(sec, usec) := timeofday k in
  let f := clock_freq (tun k) in
  (i64 (sec * f + rtai_imuldiv usec f 1000000 - tsc k),
   i64 (sec * 1000000000 + usec * 1000 - rtai_llimd (tsc k) 1000000000 f)).
(** The epochs of the module are used in turn; [boot_epoch] is the one in use. *)
Definition rt_get_boot_epoch (s : sys) : sys := set_boot_epoch (_rt_get_boot_epoch (yker s)) s.
Definition timeorig_request (to : Z) (s : sys) : sys :=
  if negb (to =? 0) then
    let e := _rt_get_boot_epoch (yker s) in put_user to (longs_bytes [e.1; e.2]) s
  else rt_get_boot_epoch s.

(** ** The task that makes the Linux calls of another *)

Definition server_priority (p : Z) : Z := if BASE_SOFT_PRIORITY <=? p then p - BASE_SOFT_PRIORITY else p.
Definition unblock_all (t : tid) (s : sys) : res sys Z :=
  in_ker (rt_task_masked_unblock t (Z.lnot RT_SCHED_READY) (yker s)) s.
(** [serv] is where the process keeps the list of calls, [adr] the task it serves. *)
Definition server_start (cur serv adr : Z) (s : sys) : res sys Z :=
  on_task adr (fun t s =>
    let* (_, s) := (if negb (linux_syscall_server s t =? 0) then
                      match deref serv with
                      | Some v => unblock_all v s
                      | None => Fault s
                      end
                    else Done 0 s) in
    let s := set_linux_syscall_server (<[t := serv]> (linux_syscall_server s)) s in
    if bool_decide (lnxtsk (ytask s t) = None) then Fault s
    else
      let* (v, s) := __task_init cur adr (server_priority (base_priority (ytask s t))) 0
                       (i32 (Z.shiftl 1 (Z.of_nat (runnable_on_cpus (ytask s t))))) s in
      let s := set_linux_syscall_server (<[t := v]> (linux_syscall_server s)) s in
      on_task v (fun vt s =>
        Done (i64 v) (set_linux_syscall_server (<[vt := serv]> (linux_syscall_server s)) s)) s) s.
Definition server_end (adr : Z) (s : sys) : res sys Z :=
  let t := if adr =? 0 then rt_current (yker s) else task_at adr in
  let v := linux_syscall_server s t in
  match deref v with
  | Some vt =>
      let s := set_linux_syscall_server (<[t := 0]> (linux_syscall_server s)) s in
      let s := yset set_suspdepth vt (- RTE_HIGERR) s in
      let* (_, s) := unblock_all vt s in Done 0 s
  | None => Done 0 s
  end.

(** The latencies of the kernel and of the processes. *)
Definition sched_latencies (klat ulat : Z) (s : sys) : sys :=
  let n := tun (yker s) in
  set_yker (set_tun (MkTun (clock_freq n) (sched_latency n) (setup_time_TIMER_CPUNIT n) (oneshot_span n)
                       (satdelay n) (TIMER_FREQ n) (i32 klat) (i32 ulat) (online_cpus n) (NR_CPUS n)) (yker s)) s.

Definition lxrt_own_request (toggler : bool) (cur srq : Z) (arg : list Z) (task : option tid) (s : sys) : res sys Z :=
  let a0 := argn 0 arg in
  let a k := argn k arg in
  if srq =? LXRT_GET_ADR then Done (i64 (get_adr a0 (yreg s))) s
  else if srq =? LXRT_GET_NAME then Done (i64 (get_name irandu a0 (yreg s))) s
  else if srq =? LXRT_TASK_INIT then
    let* (r, s) := __task_init cur a0 (i32 (a 1%nat)) (i32 (a 3%nat)) (i32 (a 4%nat)) s in Done (i64 r) s
  else if srq =? LXRT_TASK_DELETE then
    let adr := if a0 =? 0 then adr_of task else a0 in
    if adr =? 0 then Fault s
    else let* (r, s) := __task_delete cur adr s in Done (arg0_int a0 r) s
  else if srq =? LXRT_SEM_INIT then request_init cur sizeof_SEM IS_SEM a0 (init_sem (a 1%nat) (a 2%nat)) s
  else if srq =? LXRT_SEM_DELETE then request_delete SEM_DELETE a0 s
  else if srq =? LXRT_MBX_INIT then request_init cur sizeof_MBX IS_MBX a0 (init_mbx (a 1%nat) (a 2%nat)) s
  else if srq =? LXRT_MBX_DELETE then request_delete MBX_DELETE a0 s
  else if srq =? LXRT_RWL_INIT then request_init cur sizeof_RWL IS_SEM a0 (init_rwl (a 1%nat)) s
  else if srq =? LXRT_RWL_DELETE then request_delete RWL_DELETE a0 s
  else if srq =? LXRT_SPL_INIT then request_init cur sizeof_SPL IS_SEM a0 init_spl s
  else if srq =? LXRT_SPL_DELETE then request_delete SPL_DELETE a0 s
  else if srq =? MAKE_HARD_RT then let* (_, s) := rt_make_hard_real_time task s in Done 0 s
  else if srq =? MAKE_SOFT_RT then let* (_, s) := rt_make_soft_real_time task s in Done 0 s
  else if (srq =? PRINT_TO_SCREEN) || (srq =? PRINTK) then printk_request a0 a0 (i64 (a 1%nat)) s
  else if srq =? NONROOT_HRT then
    Done 0 (set_lxrt_perm cur CAP_SYS_NICE (set_lxrt_perm cur CAP_SYS_RAWIO (set_lxrt_perm cur CAP_IPC_LOCK s)))
  else if srq =? RT_BUDDY then Done (i64 (if tskext1 s cur =? cur then adr_of task else 0)) s
  else if srq =? HRT_USE_FPU then use_fpu a0 (a 1%nat) s
  else if srq =? GET_USP_FLAGS then on_task a0 (fun t s => Done (i64 (usp_flags s t)) s) s
  else if srq =? SET_USP_FLAGS then on_task a0 (fun t s => Done 0 (SET_USP_FLAGS_of t (a 1%nat) s)) s
  else if srq =? GET_USP_FLG_MSK then on_task a0 (fun t s => Done (i64 (usp_flags_mask s t)) s) s
  else if srq =? SET_USP_FLG_MSK then
    match task with Some t => Done 0 (SET_USP_FLG_MSK_of t a0 s) | None => Fault s end
  else if srq =? HARD_SOFT_TOGGLER then hard_soft_toggler toggler a0 task s
  else if srq =? IS_HARD then Done (is_hard_request cur a0 s) s
  else if srq =? GET_EXECTIME then exectime_request a0 (a 1%nat) s
  else if srq =? GET_TIMEORIG then Done 0 (timeorig_request a0 s)
  else if srq =? LINUX_SERVER then
    if negb (i32 (a 1%nat) =? 0) then server_start cur (a 4%nat) (a 6%nat) s else server_end (a 6%nat) s
  else if srq =? SCHED_LATENCIES then Done 0 (sched_latencies a0 (a 1%nat) s)
  else if srq =? GET_CPU_FREQ then Done (clock_freq (tun (yker s))) s
  else Done (arg0_int a0 (- ENOSYS)) s.

(** [arg] holds the arguments of the request. *)
Definition handle_lxrt_request (toggler : bool) (cur lxsrq : Z) (arg : list Z) (task : option tid) (s : sys)
    : res sys Z :=
  let srq := SRQ lxsrq in
  if srq <? MAX_LXRT_FUN then
    let funcm := rt_fun_ext s (INDX lxsrq) in
    if funcm =? 0 then Done (- ENOSYS) s
    else
      let f := tables s funcm srq in
      if s_type f =? 0 then in_ext (s_fun f (fun_arguments arg) (yext s)) s
      else
        match task with
        | None => Fault s
        | Some t =>
            let* (_, s) := (if NEED_TO_RW (s_type f)
                            then lxrt_fun_call_wbuf t (s_fun f) (LXRT_NARG lxsrq) arg (s_type f) s
                            else lxrt_fun_call t (s_fun f) (LXRT_NARG lxsrq) arg s) in
            Done (retval (ytask s t)) s
        end
  else lxrt_own_request toggler cur srq arg task s.

Definition signal_pending (t : tid) (s : sys) : bool :=
  match lnxtsk (ytask s t) with Some l => pending l | None => false end.
Definition check_to_soften_harden (t : tid) (s : sys) : res sys unit :=
  if negb (force_soft (ytask s t) =? 0) then
    let* (_, s) := (if 0 <? is_hard (ytask s t) then give_back t 0 s else Done tt (yset set_is_hard t 0 s)) in
    let s := yset set_force_soft t 0 s in
    Done tt (set_usp_flags (<[t := Z.land (usp_flags s t) (Z.lnot FORCE_SOFT)]> (usp_flags s)) s)
  else if is_hard (ytask s t) <? 0 then in_ker (steal_from_linux fuel t (signal_pending t s) (yker s)) s
  else Done tt s.

Definition rtai_lxrt_invoke (toggler : bool) (cur lxsrq : Z) (arg : list Z) (task : option tid) (s : sys)
    : res sys Z :=
  match task with
  | Some t =>
      let* (_, s) := check_to_soften_harden t s in
      let* (retval, s) := handle_lxrt_request toggler cur lxsrq arg task s in
      let* (_, s) := check_to_soften_harden t s in
      if negb (unblocked (ytask s t) =? 0) then
        let* (_, s) := (if 0 <? is_hard (ytask s t) then give_back t (-1) s else Done tt s) in
        Done retval (yset set_unblocked t 0 s)
      else Done retval s
  | None => handle_lxrt_request toggler cur lxsrq arg None s
  end.

(** ** The tables of the extensions *)

Definition set_rt_fun_ext_index (fun_ idx : Z) (s : sys) : Z * sys :=
  if (0 <? idx) && (idx <? MAX_FUN_EXT) && (rt_fun_ext s idx =? 0)
  then (0, set_rt_fun_ext (<[idx := fun_]> (rt_fun_ext s)) s) else (- EACCES, s).
Definition reset_rt_fun_ext_index (fun_ idx : Z) (s : sys) : sys :=
  if (0 <? idx) && (idx <? MAX_FUN_EXT) && (rt_fun_ext s idx =? fun_)
  then set_rt_fun_ext (<[idx := 0]> (rt_fun_ext s)) s else s.
Definition init_fun_ext (s : sys) : sys := set_rt_fun_ext (<[0 := rt_fun_lxrt]> (rt_fun_ext s)) s.

(** ** The end of a process *)

Definition is_process_registered (cur : Z) (s : sys) : Z :=
  match tskext (yker s) cur with
  | Some t => (hash_find_adr (task_adr t) (slots (yreg s)) (max_slots (yreg s)) false).1
  | None => 0
  end.
Definition ydrg_on_name_cnt (name : Z) (s : sys) : Z * sys :=
  let '(k, r) := drg_on_name_cnt name (yreg s) in (k, set_yext (set_reg r (yext s)) s).

(** What is done with an object by its type. *)
Definition release_object (type adr : Z) (s : sys) : res sys unit :=
  let remove index := let* (_, s) := GENERIC_DELETE index adr s in yfree adr s in
  if type =? IS_SEM then remove SEM_DELETE
  else if type =? IS_RWL then remove RWL_DELETE
  else if type =? IS_SPL then remove SPL_DELETE
  else if type =? IS_MBX then remove MBX_DELETE
  else if type =? IS_PRX then
    let* (_, s) := lxrt_Proxy_detach (rttask2pid (task_at adr) (yext s)) s in Done tt s
  else if (type =? IS_TASK) && bool_decide (lnxtsk (ytask s (task_at adr)) = None) then Fault s
  else Done tt s.
(** The [n] slots from [slot] on. *)
Fixpoint release_slots (cur : Z) (n : nat) (slot : Z) (s : sys) : res sys unit :=
  match n with
  | O => Done tt s
  | S n =>
      match rt_get_registry_slot slot (yreg s) with
      | None => release_slots cur n (slot + 1) s
      | Some entry =>
          if negb (tsk entry =? cur) then release_slots cur n (slot + 1) s
          else
            let '(k, s) := ydrg_on_name_cnt (Registry.name entry) s in
            if k <=? 0 then release_slots cur n (slot + 1) s
            else
              let* (_, s) := release_object (Registry.type entry) (Registry.adr entry) s in
              release_slots cur n (slot + 1) s
      end
  end.
Definition linux_process_termination (cur : Z) (s : sys) : res sys unit :=
  if is_process_registered cur s =? 0 then Done tt s
  else
    let* (_, s) := release_slots cur (Z.to_nat (max_slots (yreg s))) 1 s in
    match tskext (yker s) cur with
    | Some t =>
        let* (r, s) := in_ker (clr_rtext rt_sem_signal t (yker s)) s in
        if r =? 0 then
          let '(_, s) := ydrg_on_adr (task_adr t) s in
          let* (_, s) := yfree (msg_buf s t).1 s in
          let* (_, s) := yfree (msg_buf s t).2 s in
          let* (_, s) := yfree (task_adr t) s in
          Done tt (set_yker (set_tskext (<[cur := None]> (tskext (yker s))) (yker s)) s)
        else Done tt s
    | None => Done tt s
    end.
End sys.
