(* ===== verification/SysFacts.v ===== *)
(** * Theorems on the requests of the processes. *)

From S2P Require Import Prelude Resume Kernel Registry RegistryFacts Shm Named NamedFacts Sys.
From stdpp Require Import list.
#[local] Open Scope Z_scope.

(** ** Encoding and decoding *)

(** A field of three bits at [p], read at [q]. *)
Lemma get3_field3 v p q : 0 <= p -> 0 <= q -> p = q \/ p + 3 <= q \/ q + 3 <= p ->
  get3 (field3 v p) q = if p =? q then Z.land v 7 else 0.
Proof.
  intros Hp Hq Hd. unfold get3, field3. apply Z.bits_inj_iff'. intros n Hn.
  change 7 with (Z.ones 3). rewrite Z.land_spec, Z.shiftr_spec, Z.shiftl_spec, Z.land_spec by lia.
  rewrite !Z.testbit_ones by lia.
  destruct (Z.eqb_spec p q) as [->|Hne].
  - replace (n + q - q) with n by lia. rewrite Z.land_spec, Z.testbit_ones by lia.
    by destruct (Z.testbit v n), (0 <=? n), (n <? 3).
  - rewrite Z.bits_0. destruct (Z.ltb_spec n 3); [|by rewrite !andb_false_r].
    destruct (Z.leb_spec 0 (n + q - p)); [|by rewrite !andb_false_r].
    destruct (Z.ltb_spec (n + q - p) 3); [lia|]. by rewrite !andb_false_r.
Qed.
Lemma get3_lor x y q : get3 (Z.lor x y) q = Z.lor (get3 x q) (get3 y q).
Proof. unfold get3. by rewrite Z.shiftr_lor, Z.land_lor_distr_l. Qed.
Lemma get3_small v : 0 <= v < 8 -> Z.land v 7 = v.
Proof. intros Hv. change 7 with (Z.ones 3). rewrite Z.land_ones by lia. by apply Z.mod_small. Qed.

(** The sum of a multiple of [2 ^ n] and what lies below. *)
Lemma shift_lor_low a b n : 0 <= n -> 0 <= b < 2 ^ n -> Z.lor (Z.shiftl a n) b = a * 2 ^ n + b.
Proof.
  intros Hn Hb. rewrite <- Z.shiftl_mul_pow2, <- Z.add_lor_land by lia.
  enough (Z.land (Z.shiftl a n) b = 0) as -> by lia.
  apply Z.bits_inj_iff'. intros i Hi. rewrite Z.land_spec, Z.bits_0, Z.shiftl_spec by lia.
  destruct (Z.ltb_spec i n).
  - by rewrite Z.testbit_neg_r by lia.
  - rewrite <- (Z.mod_small b (2 ^ n)) by lia. by rewrite Z.mod_pow2_bits_high, andb_false_r by lia.
Qed.

Lemma encode_sum dynx srq lsize : 0 <= dynx < MAX_FUN_EXT -> 0 <= srq < 2 ^ 12 -> 0 <= lsize < GT_NR_SYSCALLS ->
  ENCODE_LXRT_REQ dynx srq lsize = dynx * 2 ^ 24 + srq * 2 ^ 12 + 2 ^ 11 + lsize.
Proof.
  intros Hd Hs Hl. unfold ENCODE_LXRT_REQ. rewrite <- !Z.lor_assoc.
  change GT_NR_SYSCALLS with (2 ^ 11) in *. unfold MAX_FUN_EXT in Hd.
  change (2 ^ 11) with (Z.shiftl 1 11) at 1.
  rewrite (shift_lor_low 1 lsize 11), (shift_lor_low srq _ 12), (shift_lor_low dynx _ 24) by lia. lia.
Qed.

Lemma decode_request dynx srq lsize : 0 <= dynx < MAX_FUN_EXT -> 0 <= srq < 2 ^ 12 -> 0 <= lsize < GT_NR_SYSCALLS ->
  let req := ENCODE_LXRT_REQ dynx srq lsize in
  (INDX req, SRQ req, LXRT_NARG req) = (dynx, srq, lsize) /\ GT_NR_SYSCALLS <= req < 2 ^ 29.
Proof.
  intros Hd Hs Hl req. unfold req. rewrite (encode_sum _ _ _ Hd Hs Hl).
  unfold MAX_FUN_EXT in Hd. change GT_NR_SYSCALLS with (2 ^ 11) in *. split; [|lia].
  unfold INDX, SRQ, LXRT_NARG. change (MAX_FUN_EXT - 1) with (Z.ones 5). change 0xFFF with (Z.ones 12).
  change (GT_NR_SYSCALLS - 1) with (Z.ones 11). rewrite !Z.land_ones, !Z.shiftr_div_pow2 by lia.
  assert ((dynx * 2 ^ 24 + srq * 2 ^ 12 + 2 ^ 11 + lsize) / 2 ^ 24 = dynx) as ->
    by (symmetry; apply (Z.div_unique _ _ _ (srq * 2 ^ 12 + 2 ^ 11 + lsize)); lia).
  assert ((dynx * 2 ^ 24 + srq * 2 ^ 12 + 2 ^ 11 + lsize) / 2 ^ 12 = dynx * 2 ^ 12 + srq) as ->
    by (symmetry; apply (Z.div_unique _ _ _ (2 ^ 11 + lsize)); lia).
  f_equal; [f_equal|].
  - by apply Z.mod_small.
  - symmetry. apply (Z.mod_unique _ _ dynx); lia.
  - symmetry. apply (Z.mod_unique _ _ (dynx * 2 ^ 13 + srq * 2 + 1)); lia.
Qed.

(** C27. Requests of processes: what is packed in the number of a request comes out of it - the extension, the
    service and the size of the arguments - and the number is none of a Linux call and none of
    the services below [GT_NR_SYSCALLS]; what is packed in the type of a service comes
    out as well: which arguments are buffers read and written, and which their sizes. *)
Theorem request_roundtrip dynx srq lsize rb1 rs1 rb2 rs2 wb1 ws1 wb2 ws2 :
  0 <= dynx < MAX_FUN_EXT -> 0 <= srq < 2 ^ 12 -> 0 <= lsize < GT_NR_SYSCALLS ->
  Forall (fun v => 0 <= v < 8) [rb1; rs1; rb2; rs2; wb1; ws1; wb2; ws2] ->
  let req := ENCODE_LXRT_REQ dynx srq lsize in
  let type := Z.lor (Z.lor (UR1 rb1 rs1) (UR2 rb2 rs2)) (Z.lor (UW1 wb1 ws1) (UW2 wb2 ws2)) in
  (INDX req, SRQ req, LXRT_NARG req) = (dynx, srq, lsize) /\ GT_NR_SYSCALLS <= req < 2 ^ 29 /\
  [USP_RBF1 type; USP_RSZ1 type; USP_RBF2 type; USP_RSZ2 type; USP_WBF1 type; USP_WSZ1 type; USP_WBF2 type; USP_WSZ2 type]
    = [rb1; rs1; rb2; rs2; wb1; ws1; wb2; ws2].
Proof.
  intros Hd Hs Hl Hf req type. destruct (decode_request _ _ _ Hd Hs Hl) as [He Hr]. split; [exact He|]. split; [exact Hr|].
  repeat (apply Forall_cons in Hf as [? Hf]). unfold type, UR1, UR2, UW1, UW2.
  unfold USP_RBF1, USP_RSZ1, USP_RBF2, USP_RSZ2, USP_WBF1, USP_WSZ1, USP_WBF2, USP_WSZ2.
  rewrite !get3_lor, !get3_field3 by lia. cbn [Z.eqb Pos.eqb].
  by rewrite ?Z.lor_0_r, ?Z.lor_0_l, !get3_small by done.
Qed.

Lemma request_roundtrip_witness :
  (INDX (ENCODE_LXRT_REQ 3 120 32), SRQ (ENCODE_LXRT_REQ 3 120 32), LXRT_NARG (ENCODE_LXRT_REQ 3 120 32)) = (3, 120, 32) /\
  GT_NR_SYSCALLS <= ENCODE_LXRT_REQ 3 120 32 < 2 ^ 29 /\
  let type := Z.lor (Z.lor (UR1 2 3) (UR2 0 0)) (Z.lor (UW1 4 0) (UW2 5 6)) in
  [USP_RBF1 type; USP_RSZ1 type; USP_RBF2 type; USP_RSZ2 type; USP_WBF1 type; USP_WSZ1 type; USP_WBF2 type; USP_WSZ2 type]
    = [2; 3; 0; 0; 4; 0; 5; 6].
Proof.
  apply (request_roundtrip 3 120 32 2 3 0 0 4 0 5 6); [by vm_compute..|]. repeat constructor; lia.
Defined.

(** ** The end of a process *)

Section exit.
Context {H : Type} `{Allocator H} (task_at : Z -> tid) (rt_fun_lxrt : Z).
Implicit Types (s : sys (H := H)).

Definition set_yreg (r : registry) s : sys := set_yext (set_reg r (yext s)) s.
Abbreviation release_slots := (release_slots task_at rt_fun_lxrt).
Abbreviation release_object := (release_object task_at rt_fun_lxrt).

Lemma slot_held r k e : reg_ok r -> slot (max_slots r) k -> rt_get_registry_slot k r = Some e ->
  held r (Registry.name e) (Registry.adr e) (Registry.type e) (Registry.count e).
Proof.
  intros Hok Hk He. unfold rt_get_registry_slot in He. destruct (Z.ltb_spec NONAME (Registry.name (slots r k))); [|done].
  injection He as <-. by exists k.
Qed.

(** The end of a process, at an object [e] it has registered and which is counted [count e] times: if the process was its
    last user the name is taken away and nothing else is done, the object keeps its memory
    and is never deleted; if there are other users, they keep the name and one
    count less, and the object is deleted and freed under them. *)
Theorem exit_releases_object cur n k e s :
  reg_ok (yreg s) -> slot (max_slots (yreg s)) k -> rt_get_registry_slot k (yreg s) = Some e -> tsk e = cur ->
  exists r, reg_ok r /\
    (Registry.count e = 1 -> release_slots cur (S n) k s = release_slots cur n (k + 1) (set_yreg r s) /\
       get_adr (Registry.name e) r = 0 /\
       forall nm a, binds r nm a <-> binds (yreg s) nm a /\ nm <> Registry.name e) /\
    (1 < Registry.count e ->
       release_slots cur (S n) k s =
         (let* (_, s) := release_object (Registry.type e) (Registry.adr e) (set_yreg r s) in release_slots cur n (k + 1) s) /\
       held r (Registry.name e) (Registry.adr e) (Registry.type e) (Registry.count e - 1) /\
       get_adr (Registry.name e) r = Registry.adr e).
Proof.
  intros Hok Hk He Ht. pose proof (slot_held _ _ _ Hok Hk He) as Hh.
  pose proof (rem_name_spec (- EFAULT) _ _ _ _ _ Hok Hh) as Hr. cbn [Sys.release_slots]. rewrite He, Ht, Z.eqb_refl. cbn [negb].
  unfold ydrg_on_name_cnt, drg_on_name_cnt. destruct (rem_name (- EFAULT) (Registry.name e) (yreg s)) as [c r].
  destruct Hr as (Hok' & Hc & Hr). specialize (Hc ltac:(done)). exists r. split; [done|].
  change (- EFAULT =? 0) with false in Hr. cbn [orb] in Hr. split.
  - intros E. rewrite E in *. cbn in Hc. subst c. by destruct Hr.
  - intros Hgt. destruct (Z.eqb_spec (Registry.count e) 0); [lia|]. destruct (Z.eqb_spec (Registry.count e) 1); [lia|].
    subst c. destruct (Z.leb_spec (Registry.count e - 1) 0); [lia|]. destruct Hr as [_ Hr].
    split_and!; [done|done|]. apply get_adr_binds; [done|]. by eapply held_binds.
Qed.
End exit.

(** *** Example: process 7 ends, it has registered semaphore 42 at address 600, which another process uses *)

#[local] Instance no_blocks : Allocator (list Z) := { halloc := fun _ h => Some (0, h); hfree := fun _ h => Some h }.
Definition ex_registered : registry := (rt_register 42 600 IS_SEM 7 ex_empty).2.
Definition ex_shared : registry := (get_adr_cnt 42 ex_registered).2.
Definition ex_dead : sys (H := list Z) :=
  MkSys (set_reg ex_shared ex_ext) (fun _ _ => MkService 0 (fun _ s => Done 0 s)) (fun _ => 0) (fun _ => [])
    (fun _ => (0, 0)) (fun _ => 0) (fun _ => 0) (fun _ => 0) (fun _ => (0, 0)) (fun _ => 0) [] (fun _ => false) (0, 0).
Definition ex_slot : entry := default empty_entry (rt_get_registry_slot 1 ex_shared).

