(* ===== verification/Calls.v ===== *)
(** * Linux calls made by a server: rtai_lxrt.h and api.c.

    A hard real time process leaves its Linux calls in a ring of user memory; a
    server, an ordinary thread of the process, makes them one at a time.  The ring
    is filled in the kernel ([put_call], a part of [rt_exec_linux_syscall]) and emptied in user
    space ([server_step], the accesses of the loop of [linux_syscall_server_fun] one by one: the
    process goes on while a call is made). *)

From S2P Require Import Prelude.
From stdpp Require Import list.
#[local] Open Scope Z_scope.

Definition LINUX_SYSCALL_GET_MODE := 0.
Definition SYNC_LINUX_SYSCALL := 1.
Definition ASYNC_LINUX_SYSCALL := 2.
Definition LINUX_SYSCALL_CANCELED := 3.
Definition LINUX_SYSCALL_GET_CALLBACK := 4.
Definition ENOENT := 2.
Definition EINVAL := 22.
Definition EINPROGRESS := 115.
Definition ECANCELED := 125.

Record linux_syscall := MkCall {
  args : list Z; cmode : Z; ccbfun : Z; cid : Z; cretval : Z
}.
(** [in], [out], [nr], [id], [mode], [cbfun], [serv], [task] and the array of the calls. *)
Record linux_syscalls_list := MkCalls {
  lin : Z; lout : Z; lnr : Z; lid : Z; lmode : Z; lcbfun : Z; lserv : Z; ltask : Z;
  lcalls : Z -> linux_syscall
}.
Definition set_calls (f : Z -> linux_syscall) (l : linux_syscalls_list) : linux_syscalls_list :=
  MkCalls (lin l) (lout l) (lnr l) (lid l) (lmode l) (lcbfun l) (lserv l) (ltask l) f.
Definition set_out (n : Z) (l : linux_syscalls_list) : linux_syscalls_list :=
  MkCalls (lin l) n (lnr l) (lid l) (lmode l) (lcbfun l) (lserv l) (ltask l) (lcalls l).
Definition no_call : linux_syscall := MkCall (replicate 7 0) 0 0 0 0.

(** What [rt_create_linux_syscall_server] and the server set up. *)
Definition new_list (task cbfun nr_bufd mode serv : Z) : linux_syscalls_list :=
  MkCalls 0 0 (nr_bufd + 1) 0 mode cbfun serv task (fun _ => no_call).

Definition next_index (nr i : Z) : Z := if nr <=? i + 1 then 0 else i + 1.
(** [if (++from.id < 0) from.id = 0]. *)
Definition next_id (i : Z) : Z := if i32 (i + 1) <? 0 then 0 else i32 (i + 1).

(** The part of [rt_exec_linux_syscall] on the ring: the slot and the number of the call, none when
    the ring of an asynchronous server is full. [a] holds the number of the call and its six arguments. *)
Definition put_call (a : list Z) (l : linux_syscalls_list) : option (Z * Z) * linux_syscalls_list :=
  let i := lin l in
  let i' := next_index (lnr l) i in
  if (lmode l =? ASYNC_LINUX_SYSCALL) && (i' =? lout l) then (None, l)
  else
    let c := MkCall a (lmode l) (lcbfun l) (lid l) (cretval (lcalls l i)) in
    (Some (i, lid l),
     MkCalls i' (lout l) (lnr l) (next_id (lid l)) (lmode l) (lcbfun l) (lserv l) (ltask l) (<[i := c]> (lcalls l))).

(** What a turn of the server does besides: it makes the call, and then resumes the
    task or runs the callback. *)
Inductive server_event :=
| MadeCall (a : list Z) (ret : Z)
| ResumedTask
| Callback (cbfun arg ret : Z).

(** Where the server is in its turn: before its look at the mode, the call, the change of the sign
    of the number, the notice of the end, the step to the next slot. *)
Inductive server_pc := AtTest | AtCall | AtMark | AtTell | AtNext.

Definition set_retval (r : Z) (c : linux_syscall) : linux_syscall := MkCall (args c) (cmode c) (ccbfun c) (cid c) r.
Definition set_cid (i : Z) (c : linux_syscall) : linux_syscall := MkCall (args c) (cmode c) (ccbfun c) i (cretval c).
Definition set_cmode (m : Z) (c : linux_syscall) : linux_syscall := MkCall (args c) m (ccbfun c) (cid c) (cretval c).
Definition set_slot (k : Z) (f : linux_syscall -> linux_syscall) (l : linux_syscalls_list) : linux_syscalls_list :=
  set_calls (<[k := f (lcalls l k)]> (lcalls l)) l.

(** [ret] is what Linux returns, if it is called. *)
Definition server_step (ret : Z) (pc : server_pc) (l : linux_syscalls_list) :
    list server_event * server_pc * linux_syscalls_list :=
  let todo := lcalls l (lout l) in
  match pc with
  | AtTest => ([], if negb (cmode todo =? LINUX_SYSCALL_CANCELED) then AtCall else AtNext, l)
  | AtCall => ([MadeCall (args todo) ret], AtMark, set_slot (lout l) (set_retval ret) l)
  | AtMark => ([], AtTell, set_slot (lout l) (set_cid (i32 (- cid todo))) l)
  | AtTell =>
      (if cmode todo =? SYNC_LINUX_SYSCALL then [ResumedTask]
       else if negb (lcbfun l =? 0) then [Callback (ccbfun todo) (zget (args todo) 0) (cretval todo)] else [],
       AtNext, l)
  | AtNext => ([], AtTest, set_out (next_index (lnr l) (lout l)) l)
  end.

(** ** What the process asks about its calls; a null list is [None] *)

Definition rt_linux_syscall_mode (l : option linux_syscalls_list) (mode : Z) : Z * option linux_syscalls_list :=
  match l with
  | None => (EINVAL, None)
  | Some l =>
      (lmode l, Some (if (mode =? SYNC_LINUX_SYSCALL) || (mode =? ASYNC_LINUX_SYSCALL)
                      then MkCalls (lin l) (lout l) (lnr l) (lid l) mode (lcbfun l) (lserv l) (ltask l) (lcalls l) else l))
  end.
Definition rt_linux_syscall_cbfun (l : option linux_syscalls_list) (cbfun : Z) : Z * option linux_syscalls_list :=
  match l with
  | None => (EINVAL, None)
  | Some l =>
      (lcbfun l, Some (if LINUX_SYSCALL_GET_CALLBACK <? cbfun
                       then MkCalls (lin l) (lout l) (lnr l) (lid l) (lmode l) cbfun (lserv l) (ltask l) (lcalls l) else l))
  end.

(** The result and [*retval]. *)
Definition rt_linux_syscall_status (l : option linux_syscalls_list) (id : Z) : Z * option Z :=
  match l with
  | Some l =>
      if id <? 0 then (EINVAL, None)
      else
        let c := lcalls l (Z.rem id (lnr l)) in
        if negb (id =? Z.abs (cid c)) then (ENOENT, None)
        else if cmode c =? LINUX_SYSCALL_CANCELED then (ECANCELED, None)
        else if 0 <? cid c then (EINPROGRESS, None)
        else (0, Some (cretval c))
  | None => (EINVAL, None)
  end.
(** The cancellation looks at the number of the slot, and then changes its mode: the slot, or the answer. *)
Definition cancel_test (l : option linux_syscalls_list) (id : Z) : Z + Z :=
  match l with
  | Some l =>
      if id <? 0 then inl EINVAL
      else
        let slot := Z.rem id (lnr l) in
        let c := lcalls l slot in
        if negb (id =? Z.abs (cid c)) then inl ENOENT
        else if cid c <? 0 then inl (cid c)
        else inr slot
  | None => inl EINVAL
  end.
Definition cancel_store (slot : Z) (l : linux_syscalls_list) : linux_syscalls_list :=
  set_slot slot (set_cmode LINUX_SYSCALL_CANCELED) l.
(** Nothing comes in between. *)
Definition rt_linux_syscall_cancel (l : option linux_syscalls_list) (id : Z) : Z * option linux_syscalls_list :=
  match cancel_test l id with
  | inl r => (r, l)
  | inr slot => (0, cancel_store slot <$> l)
  end.
