(* ===== verification/CallsFacts.v ===== *)
(** * The ring of Linux calls keeps the history of the calls.

    The process and its server go on at the same time: while a call is made the process may
    make others, ask and cancel. *)

From S2P Require Import Prelude Calls.
From stdpp Require Import list relations.
#[local] Open Scope Z_scope.

(** ** The history

    What has become of each call of a process, in order: it waits; it was cancelled before the server
    looked at it; the server has looked, has made it, has marked it as made.  The
    flag tells that a cancellation came too late. *)
Inductive outcome := Pending | Cancelled | Calling (late : bool) | Called (late : bool) (ret : Z) | Made (late : bool) (ret : Z).
Abbreviation history := (list (list Z * outcome)).
(** The calls made, as the server has made them. *)
Definition made_of (e : list Z * outcome) : option server_event :=
  match e.2 with Called _ r | Made _ r => Some (MadeCall e.1 r) | _ => None end.
(** The calls the server has made, out of its events. *)
Definition call_of (e : server_event) : option server_event :=
  match e with MadeCall _ _ => Some e | _ => None end.

(** A step of the server, and the store of a cancellation. *)
Definition advance (ret : Z) (pc : server_pc) (e : list Z * outcome) : list Z * outcome :=
  match pc, e.2 with
  | AtTest, Pending => (e.1, Calling false)
  | AtCall, Calling late => (e.1, Called late ret)
  | AtMark, Called late r => (e.1, Made late r)
  | _, _ => e
  end.
Definition cancelled (e : list Z * outcome) : list Z * outcome :=
  match e.2 with
  | Pending | Cancelled => (e.1, Cancelled)
  | Calling _ => (e.1, Calling true)
  | Called _ r => (e.1, Called true r)
  | Made _ r => (e.1, Made true r)
  end.

(** History; calls the server has left behind and where it is; the call the process is
    cancelling, between its look and its store; the calls made; the ring. *)
Record cstate := MkC {
  hist : history; left : nat; spc : server_pc; cancelling : option Z; made : list server_event; ring : linux_syscalls_list
}.

(** What may happen next.  The process is one: between the two accesses of a cancellation it
    does nothing else, but the server does.  A server at the beginning of its turn waits until
    it is resumed, for each call once. *)
Inductive move := Call (a : list Z) | Serve (ret : Z) | CancelTest (id : Z) | CancelStore.
Definition cmove (mv : move) (st : cstate) : option cstate :=
  match mv with
  | Call a =>
      if cancelling st is Some _ then None
      else if 2 ^ 31 <=? Z.of_nat (length (hist st)) + 1 then None
      else
        let '(p, l) := put_call a (ring st) in
        Some (MkC (if p is Some _ then hist st ++ [(a, Pending)] else hist st) (left st) (spc st) None (made st) l)
  | Serve ret =>
      if match spc st with AtTest => negb (left st <? length (hist st))%nat | _ => false end then None
      else
        let '(ev, pc, l) := server_step ret (spc st) (ring st) in
        Some (MkC (alter (advance ret (spc st)) (left st) (hist st))
          (match spc st with AtNext => S (left st) | _ => left st end) pc (cancelling st) (made st ++ omap call_of ev) l)
  | CancelTest id =>
      if cancelling st is Some _ then None
      else
        match cancel_test (Some (ring st)) id with
        | inl _ => Some st
        | inr _ => Some (MkC (hist st) (left st) (spc st) (Some id) (made st) (ring st))
        end
  | CancelStore =>
      match cancelling st with
      | Some id => Some (MkC (alter cancelled (Z.to_nat id) (hist st)) (left st) (spc st) None (made st)
                     (cancel_store (Z.rem id (lnr (ring st))) (ring st)))
      | None => None
      end
  end.
Definition cstep (st st' : cstate) : Prop := exists mv, cmove mv st = Some st'.

(** ** What the ring holds of the history *)

Definition mode_of (late : bool) : Z := if late then LINUX_SYSCALL_CANCELED else ASYNC_LINUX_SYSCALL.
Definition shows (k : nat) (e : list Z * outcome) (c : linux_syscall) : Prop :=
  args c = e.1 /\
  match e.2 with
  | Pending => cmode c = ASYNC_LINUX_SYSCALL /\ cid c = Z.of_nat k
  | Cancelled => cmode c = LINUX_SYSCALL_CANCELED /\ cid c = Z.of_nat k
  | Calling late => cmode c = mode_of late /\ cid c = Z.of_nat k
  | Called late r => cmode c = mode_of late /\ cid c = Z.of_nat k /\ cretval c = r
  | Made late r => cmode c = mode_of late /\ cid c = - Z.of_nat k /\ cretval c = r
  end.
#[export] Instance server_pc_eq_dec : EqDecision server_pc.
Proof. solve_decision. Defined.
(** The outcomes a call can have where the server is. *)
Definition waits (o : outcome) : Prop := o = Pending \/ o = Cancelled.
Definition is_left (o : outcome) : Prop := o = Cancelled \/ exists late r, o = Made late r.
Definition at_pc (pc : server_pc) (o : outcome) : Prop :=
  match pc with
  | AtTest => waits o
  | AtCall => exists late, o = Calling late
  | AtMark => exists late r, o = Called late r
  | AtTell => exists late r, o = Made late r
  | AtNext => is_left o
  end.

Record ring_ok (st : cstate) : Prop := {
  ro_nr : 2 <= lnr (ring st);
  ro_mode : lmode (ring st) = ASYNC_LINUX_SYSCALL;
  ro_id : lid (ring st) = Z.of_nat (length (hist st));
  ro_lt : Z.of_nat (length (hist st)) < 2 ^ 31;
  ro_in : lin (ring st) = Z.of_nat (length (hist st)) mod lnr (ring st);
  ro_out : lout (ring st) = Z.of_nat (left st) mod lnr (ring st);
  ro_left : (left st <= length (hist st))%nat;
  ro_at : spc st <> AtTest -> (left st < length (hist st))%nat;
  ro_room : Z.of_nat (length (hist st)) - Z.of_nat (left st) < lnr (ring st);
  ro_shows : forall k e, hist st !! k = Some e -> Z.of_nat (length (hist st)) <= Z.of_nat k + lnr (ring st) ->
    shows k e (lcalls (ring st) (Z.of_nat k mod lnr (ring st)));
  ro_fresh : forall j, Z.of_nat (length (hist st)) <= j < lnr (ring st) -> cid (lcalls (ring st) j) = 0;
  ro_before : forall k e, hist st !! k = Some e -> (k < left st)%nat -> is_left e.2;
  ro_pc : forall e, hist st !! left st = Some e -> at_pc (spc st) e.2;
  ro_after : forall k e, hist st !! k = Some e -> (left st < k)%nat -> waits e.2;
  ro_cancel : forall id, cancelling st = Some id -> 0 <= id /\
    Z.of_nat (length (hist st)) <= id + lnr (ring st) /\ (is_Some (hist st !! Z.to_nat id) \/ hist st = [] /\ id = 0);
  ro_made : made st = omap made_of (hist st)
}.

(** ** Arithmetic of the ring *)

Lemma next_index_mod nr x : 0 < nr -> next_index nr (x mod nr) = (x + 1) mod nr.
Proof.
  intros Hn. unfold next_index. pose proof (Z.mod_pos_bound x nr Hn) as Hb.
  pose proof (Z.div_mod x nr ltac:(lia)) as Hx.
  destruct (Z.leb_spec nr (x mod nr + 1)).
  - apply (Z.mod_unique _ _ (x / nr + 1)); [left; lia|]. nia.
  - apply (Z.mod_unique _ _ (x / nr)); [left; lia|]. nia.
Qed.

Lemma slot_insert nr x y (f : Z -> linux_syscall) c :
  0 < nr -> x <> y -> Z.abs (x - y) < nr -> (<[x mod nr := c]> f) (y mod nr) = f (y mod nr).
Proof. intros Hn Hxy Hd. apply fn_lookup_insert_ne. intros E. apply Hxy. by eapply slot_inj. Qed.

Lemma next_id_small i : 0 <= i -> i + 1 < 2 ^ 31 -> next_id i = i + 1.
Proof.
  intros Hi Hl. unfold next_id. rewrite wraps_small by (change (2 ^ (32 - 1)) with (2 ^ 31); lia).
  destruct (Z.ltb_spec (i + 1) 0); lia.
Qed.

(** The slot of any number holds the last call with that remainder, or none yet. *)
Lemma slot_holder nr len j :
  0 < nr -> 0 <= j < nr -> 0 <= len ->
  len <= j \/ exists k, 0 <= k < len /\ len <= k + nr /\ k mod nr = j.
Proof.
  intros Hn Hj Hl. destruct (Z.le_gt_cases len j) as [|Hjl]; [by left|right].
  pose proof (Z.mod_pos_bound (len - 1 - j) nr Hn) as Hb.
  pose proof (Z.div_mod (len - 1 - j) nr ltac:(lia)) as Hd.
  exists (len - 1 - (len - 1 - j) mod nr). pose proof (Z.mod_le (len - 1 - j) nr ltac:(lia) Hn).
  split_and!; [lia|lia|lia|].
  symmetry. apply (Z.mod_unique _ _ ((len - 1 - j) / nr)); [left; lia|lia].
Qed.

Lemma alter_at {A} (g : A -> A) k (l : list A) x y : l !! k = Some x -> alter g k l !! k = Some y -> g x = y.
Proof. intros Hx. rewrite list_lookup_alter_eq, Hx. by intros [= <-]. Qed.
Lemma alter_same {A} (g : A -> A) k (l : list A) x : l !! k = Some x -> g x = x -> alter g k l = l.
Proof.
  intros Hk Hg. apply list_eq. intros i. destruct (decide (i = k)) as [->|].
  - by rewrite list_lookup_alter_eq, Hk; cbn; rewrite Hg.
  - by rewrite list_lookup_alter_ne.
Qed.

(** The slot of one call is rewritten with its entry of the history; the others stay. *)
Lemma shows_update nr (h : history) (f : Z -> linux_syscall) c k0 g e0 :
  0 < nr -> h !! k0 = Some e0 -> Z.of_nat (length h) <= Z.of_nat k0 + nr -> shows k0 (g e0) c ->
  (forall k e, h !! k = Some e -> Z.of_nat (length h) <= Z.of_nat k + nr -> shows k e (f (Z.of_nat k mod nr))) ->
  forall k e, alter g k0 h !! k = Some e -> Z.of_nat (length h) <= Z.of_nat k + nr ->
    shows k e ((<[Z.of_nat k0 mod nr := c]> f) (Z.of_nat k mod nr)).
Proof.
  intros Hn H0 Hw0 Hc Hsh k e Hk Hw. destruct (decide (k = k0)) as [->|Hne].
  - rewrite <- (alter_at _ _ _ _ _ H0 Hk). by rewrite fn_lookup_insert.
  - rewrite list_lookup_alter_ne in Hk by done.
    pose proof (lookup_lt_Some _ _ _ Hk). pose proof (lookup_lt_Some _ _ _ H0).
    rewrite slot_insert by lia. by apply Hsh.
Qed.

Lemma fresh_update nr (h : history) (f : Z -> linux_syscall) c k0 :
  0 < nr -> (k0 < length h)%nat ->
  (forall j, Z.of_nat (length h) <= j < nr -> cid (f j) = 0) ->
  forall j, Z.of_nat (length h) <= j < nr -> cid ((<[Z.of_nat k0 mod nr := c]> f) j) = 0.
Proof.
  intros Hn Hk Hf j Hj. rewrite fn_lookup_insert_ne; [by apply Hf|]. rewrite Z.mod_small; lia.
Qed.

(** ** The invariant is kept *)

Lemma put_call_ok a st p l' :
  put_call a (ring st) = (Some p, l') -> Z.of_nat (length (hist st)) + 1 < 2 ^ 31 -> cancelling st = None ->
  ring_ok st -> ring_ok (MkC (hist st ++ [(a, Pending)]) (left st) (spc st) None (made st) l').
Proof.
  destruct st as [h n pc ca ev l]. cbn. intros Hp Hlt -> [Hnr Hm Hid Hl Hin Hout Hs Hat Hroom Hsh Hfr Hbe Hpc Haf _ Hev].
  cbn in *. unfold put_call in Hp. rewrite Hm, Hin, Hout, next_index_mod in Hp by lia. cbn in Hp.
  destruct (Z.eqb_spec ((Z.of_nat (length h) + 1) mod lnr l) (Z.of_nat n mod lnr l)) as [|Hne]; [done|].
  injection Hp as <- <-.
  assert (Z.of_nat (length h) + 1 - Z.of_nat n <> lnr l) as Hnf.
  { intros E. apply Hne. replace (Z.of_nat (length h) + 1) with (Z.of_nat n + 1 * lnr l) by lia.
    apply Z.mod_add. lia. }
  assert (Z.of_nat (length (h ++ [(a, Pending)])) = Z.of_nat (length h) + 1) as Hlen
    by (rewrite length_app; cbn; lia).
  assert (forall k e, (h ++ [(a, Pending)]) !! k = Some e -> h !! k = Some e \/ k = length h /\ e = (a, Pending)) as Happ.
  { intros k e [Hk|[Hk1 Hk]]%lookup_app_Some; [by left|right].
    apply list_lookup_singleton_Some in Hk as [Hk <-]. split; [lia|done]. }
  constructor; cbn -[Z.of_nat]; rewrite ?Hlen; try done; try lia.
  - rewrite Hid, next_id_small by lia. lia.
  - intros k e [Hk|[-> ->]]%Happ Hw.
    + pose proof (lookup_lt_Some _ _ _ Hk). rewrite slot_insert by lia. apply Hsh; [done|lia].
    + rewrite fn_lookup_insert. by cbn.
  - intros j Hj. rewrite fn_lookup_insert_ne; [apply Hfr; lia|].
    rewrite Z.mod_small by lia. lia.
  - intros k e [Hk|[-> ->]]%Happ Hw; [by eapply Hbe|lia].
  - intros e [Hk|[Hn ->]]%Happ; [by apply Hpc|].
    destruct pc; try (specialize (Hat ltac:(done)); lia). by left.
  - intros k e [Hk|[-> ->]]%Happ Hw; [by eapply Haf|by left].
  - by rewrite omap_app, app_nil_r.
Qed.

(** A call of the history and its slot change. *)
Lemma ring_ok_slot st k e g f pc ca ev :
  ring_ok st -> hist st !! k = Some e -> Z.of_nat (length (hist st)) <= Z.of_nat k + lnr (ring st) ->
  shows k (g e) (f (Z.of_nat k mod lnr (ring st))) ->
  (forall j, j <> Z.of_nat k mod lnr (ring st) -> f j = lcalls (ring st) j) ->
  ((k < left st)%nat -> is_left (g e).2) -> (k = left st -> at_pc pc (g e).2) -> ((left st < k)%nat -> waits (g e).2) ->
  k = left st \/ pc = spc st -> ca = None \/ ca = cancelling st -> ev = omap made_of (alter g k (hist st)) ->
  ring_ok (MkC (alter g k (hist st)) (left st) pc ca ev (set_calls f (ring st))).
Proof.
  intros [Hnr Hm Hid Hl Hin Hout Hs Hat Hroom Hsh Hfr Hbe Hpc Haf Hca Hev] Hk Hw Hc Hf H1 H2 H3 Hpc' Hca' Hev'.
  pose proof (lookup_lt_Some _ _ _ Hk) as Hkl.
  assert (forall j e', alter g k (hist st) !! j = Some e' -> j = k /\ e' = g e \/ hist st !! j = Some e' /\ j <> k) as Halt.
  { intros j e' Hj. destruct (decide (j = k)) as [->|Hjk]; [left|right].
    - split; [done|]. symmetry. by eapply alter_at.
    - by rewrite list_lookup_alter_ne in Hj. }
  constructor; cbn -[Z.of_nat]; rewrite ?length_alter; try done.
  - intros Hq. destruct Hpc' as [->|Hq']; [done|]. rewrite Hq' in Hq. by apply Hat.
  - intros j e' [[-> ->]|[Hj Hjk]]%Halt Hwj; [done|].
    rewrite Hf; [by apply Hsh|]. intros E. apply Hjk, Nat2Z.inj. pose proof (lookup_lt_Some _ _ _ Hj).
    destruct (decide (Z.of_nat j = Z.of_nat k)) as [|Hne]; [done|]. exfalso. apply Hne.
    eapply (slot_inj (lnr (ring st))); [lia|exact E|lia].
  - intros j Hj. rewrite Hf; [by apply Hfr|]. rewrite Z.mod_small; lia.
  - intros j e' [[-> ->]|[Hj Hjk]]%Halt Hjl; [by apply H1|by eapply Hbe].
  - intros e' [[<- ->]|[Hj Hjk]]%Halt; [by apply H2|]. destruct Hpc' as [->| ->]; [done|by apply Hpc].
  - intros j e' [[-> ->]|[Hj Hjk]]%Halt Hjl; [by apply H3|by eapply Haf].
  - intros id Hid'. destruct Hca' as [->| ->]; [done|]. destruct (Hca _ Hid') as (? & ? & [[e' ?]|[E _]]); [|by rewrite E in Hk].
    split; [done|]. split; [done|]. left. apply lookup_lt_is_Some. rewrite length_alter. by eapply lookup_lt_Some.
Qed.

Lemma waits_not_made e : waits e.2 -> made_of e = None.
Proof. unfold made_of. by intros [-> | ->]. Qed.
Lemma omap_waits (h : history) : (forall k e, h !! k = Some e -> waits e.2) -> omap made_of h = [].
Proof.
  induction h as [|e h IH]; intros Hw; [done|]. cbn. rewrite (waits_not_made e) by (by apply (Hw 0%nat)).
  apply IH. intros k. apply (Hw (S k)).
Qed.
(** A call that is made is the last one made. *)
Lemma omap_alter_last (h : history) k e g :
  h !! k = Some e -> made_of e = None -> (forall j e', h !! j = Some e' -> (k < j)%nat -> waits e'.2) ->
  omap made_of (alter g k h) = omap made_of h ++ option_list (made_of (g e)).
Proof.
  revert k. induction h as [|e0 h IH]; intros [|k] Hk Hn Hw; try done; cbn in *.
  - injection Hk as ->. rewrite (omap_waits h) by (intros j e' Hj; apply (Hw (S j)); [done|lia]).
    rewrite Hn. by destruct (made_of (g e)).
  - rewrite (IH k Hk Hn) by (intros j e' Hj Hlt; apply (Hw (S j)); [done|lia]). by destruct (made_of e0).
Qed.
Lemma omap_alter_same (h : history) k e g : h !! k = Some e -> made_of (g e) = made_of e ->
  omap made_of (alter g k h) = omap made_of h.
Proof.
  revert k. induction h as [|e0 h IH]; intros [|k] Hk Hg; try done; cbn in *.
  - injection Hk as ->. by rewrite Hg.
  - by rewrite (IH k Hk Hg).
Qed.
Lemma set_calls_same l : set_calls (lcalls l) l = l.
Proof. by destruct l. Qed.

(** The server leaves a call behind. *)
Lemma leave_ok st : ring_ok st -> spc st = AtNext ->
  ring_ok (MkC (hist st) (S (left st)) AtTest (cancelling st) (made st) (set_out (next_index (lnr (ring st)) (lout (ring st))) (ring st))).
Proof.
  intros [Hnr Hm Hid Hl Hin Hout Hs Hat Hroom Hsh Hfr Hbe Hpc Haf Hca Hev] Hn.
  rewrite Hn in *. specialize (Hat ltac:(done)).
  constructor; cbn -[Z.of_nat]; try done; try lia.
  - rewrite Hout, next_index_mod by lia. f_equal. lia.
  - intros k e Hk Hlt. destruct (decide (k = left st)) as [->|]; [by apply Hpc|]. eapply Hbe; [done|lia].
  - intros e Hk. apply (Haf _ _ Hk). lia.
  - intros k e Hk Hlt. apply (Haf _ _ Hk). lia.
Qed.

Lemma server_ok st ret ev pc l :
  ring_ok st -> (left st < length (hist st))%nat -> server_step ret (spc st) (ring st) = (ev, pc, l) ->
  ring_ok (MkC (alter (advance ret (spc st)) (left st) (hist st))
    (match spc st with AtNext => S (left st) | _ => left st end) pc (cancelling st) (made st ++ omap call_of ev) l).
Proof.
  intros Ho Hlt Hst. destruct (lookup_lt_is_Some_2 _ _ Hlt) as [e He].
  pose proof (ro_pc _ Ho _ He) as Hpc. pose proof (ro_room _ Ho) as Hroom. pose proof (ro_nr _ Ho) as Hnr.
  pose proof (ro_shows _ Ho _ _ He ltac:(lia)) as Hsh. pose proof (ro_out _ Ho) as Hout.
  pose proof (ro_lt _ Ho) as Hll. pose proof (ro_made _ Ho) as Hmade.
  assert (forall j e', hist st !! j = Some e' -> (left st < j)%nat -> waits e'.2) as Haf by apply Ho.
  assert (forall g, made_of (g e) = made_of e -> made st ++ [] = omap made_of (alter g (left st) (hist st))) as Hsame.
  { intros g Hg. by rewrite app_nil_r, Hmade, (omap_alter_same _ _ e). }
  assert (forall g f pc, shows (left st) (g e) (f (Z.of_nat (left st) mod lnr (ring st))) ->
    (forall j, j <> Z.of_nat (left st) mod lnr (ring st) -> f j = lcalls (ring st) j) -> at_pc pc (g e).2 ->
    forall ev, ev = omap made_of (alter g (left st) (hist st)) ->
    ring_ok (MkC (alter g (left st) (hist st)) (left st) pc (cancelling st) ev (set_calls f (ring st)))) as Hslot.
  { intros g f pc0 Hs1 Hf Hp ev0 Hev. eapply ring_ok_slot; try done; try lia; auto. }
  assert (forall c j, j <> Z.of_nat (left st) mod lnr (ring st) ->
    (<[Z.of_nat (left st) mod lnr (ring st) := c]> (lcalls (ring st))) j = lcalls (ring st) j) as Hins.
  { intros c j Hj. by apply fn_lookup_insert_ne. }
  unfold server_step in Hst. rewrite Hout in Hst. destruct Hsh as [Ha Hsh]. destruct e as [a o]. cbn in *.
  destruct (spc st) eqn:Hspc; cbn in Hpc.
  - destruct Hpc as [-> | ->]; destruct Hsh as [Hmo Hc]; rewrite Hmo in Hst; cbn in Hst;
      injection Hst as <- <- <-; rewrite <- (set_calls_same (ring st)).
    + apply Hslot; [by cbn|done|by eexists|by apply Hsame].
    + apply Hslot; [by cbn|done|by left|by apply Hsame].
  - destruct Hpc as [late ->]. destruct Hsh as [Hmo Hc]. injection Hst as <- <- <-. apply Hslot.
    + rewrite fn_lookup_insert. by cbn.
    + apply Hins.
    + by eexists _, _.
    + rewrite (omap_alter_last _ _ (a, Calling late)) by done. by rewrite Hmade, Ha.
  - destruct Hpc as (late & r & ->). destruct Hsh as (Hmo & Hc & Hr). injection Hst as <- <- <-. apply Hslot.
    + rewrite fn_lookup_insert. cbn. rewrite Hc, wraps_small; [done|lia|]. change (2 ^ (32 - 1)) with (2 ^ 31). lia.
    + apply Hins.
    + by eexists _, _.
    + by apply Hsame.
  - destruct Hpc as (late & r & ->). destruct Hsh as (Hmo & Hc & Hr). injection Hst as <- <- <-.
    rewrite <- (set_calls_same (ring st)). cbn [lcalls set_calls].
    replace (omap call_of _) with (@nil server_event) by (by repeat destruct (_ =? _)).
    apply Hslot; [by cbn|done|by right; eexists _, _|by apply Hsame].
  - injection Hst as <- <- <-.
    assert (alter (advance ret AtNext) (left st) (hist st) = hist st) as ->.
    { eapply alter_same; [done|]. by destruct o. }
    cbn. rewrite app_nil_r, <- Hout. by apply leave_ok.
Qed.

Lemma shows_cid k e c : shows k e c -> Z.abs (cid c) = Z.of_nat k.
Proof.
  intros [_ Hs]. destruct (e.2); [..|destruct Hs as (_ & -> & _); lia];
    first [destruct Hs as (_ & -> & _); lia|destruct Hs as (_ & ->); lia].
Qed.

(** A slot whose number is [id] holds the call [id], one of the last. *)
Lemma slot_number st id :
  ring_ok st -> 0 <= id -> Z.abs (cid (lcalls (ring st) (id mod lnr (ring st)))) = id ->
  (hist st = [] /\ id = 0) \/ exists e, hist st !! Z.to_nat id = Some e /\ Z.of_nat (length (hist st)) <= id + lnr (ring st) /\
    shows (Z.to_nat id) e (lcalls (ring st) (id mod lnr (ring st))).
Proof.
  intros Ho Hid Hc. pose proof (ro_nr _ Ho) as Hnr.
  destruct (slot_holder (lnr (ring st)) (Z.of_nat (length (hist st))) (id mod lnr (ring st))) as [Hf|(k & Hk & Hw & Hm)];
    [lia|apply Z.mod_pos_bound; lia|lia| |].
  - rewrite (ro_fresh _ Ho) in Hc by (split; [done|apply Z.mod_pos_bound; lia]). left.
    assert (id = 0) as -> by lia. rewrite Zmod_0_l in Hf. split; [|done]. apply nil_length_inv. lia.
  - right. destruct (lookup_lt_is_Some_2 (hist st) (Z.to_nat k)) as [e He]; [lia|].
    pose proof (ro_shows _ Ho _ _ He ltac:(lia)) as Hsh. rewrite Z2Nat.id, Hm in Hsh by lia.
    assert (k = id) as ->; [|by eauto].
    apply shows_cid in Hsh. lia.
Qed.

Lemma cancel_test_ok st id slot :
  ring_ok st -> cancel_test (Some (ring st)) id = inr slot ->
  ring_ok (MkC (hist st) (left st) (spc st) (Some id) (made st) (ring st)).
Proof.
  intros Ho Ht. pose proof (ro_nr _ Ho) as Hnr. unfold cancel_test in Ht.
  destruct (Z.ltb_spec id 0) as [|Hid]; [done|]. rewrite Z.rem_mod_nonneg in Ht by lia.
  destruct (Z.eqb_spec id (Z.abs (cid (lcalls (ring st) (id mod lnr (ring st)))))) as [Hc|]; [|done].
  destruct (slot_number _ _ Ho Hid ltac:(lia)) as [[Hh ->]|(e & He & Hw & _)];
    destruct Ho; constructor; cbn; try done; intros id' [= <-].
  - rewrite Hh. cbn. split_and!; [lia|lia|by right].
  - rewrite He. split_and!; [lia|lia|by left].
Qed.
(** Number 0 is found in a slot without a call: nothing was asked yet. *)
Lemma cancel_none_ok st : ring_ok st -> hist st = [] ->
  ring_ok (MkC (alter cancelled (Z.to_nat 0) (hist st)) (left st) (spc st) None (made st)
             (cancel_store (Z.rem 0 (lnr (ring st))) (ring st))).
Proof.
  intros Ho Hh. pose proof (ro_nr _ Ho) as Hnr. rewrite Z.rem_0_l by lia. rewrite Hh.
  destruct Ho. rewrite Hh in *. constructor; cbn; try done.
  intros j Hj. destruct (decide (j = 0)) as [->|]; [|by rewrite fn_lookup_insert_ne; [auto|]].
  rewrite fn_lookup_insert. cbn. by apply ro_fresh0.
Qed.
Lemma cancel_store_ok st id :
  ring_ok st -> cancelling st = Some id ->
  ring_ok (MkC (alter cancelled (Z.to_nat id) (hist st)) (left st) (spc st) None (made st)
             (cancel_store (Z.rem id (lnr (ring st))) (ring st))).
Proof.
  intros Ho Hc. pose proof (ro_nr _ Ho) as Hnr. destruct (ro_cancel _ Ho _ Hc) as (Hid & Hw & [[e He]|[Hh ->]]); [|by apply cancel_none_ok].
  assert (Z.rem id (lnr (ring st)) = Z.of_nat (Z.to_nat id) mod lnr (ring st)) as ->.
  { rewrite Z.rem_mod_nonneg by lia. f_equal. lia. }
  pose proof (ro_shows _ Ho _ _ He ltac:(lia)) as [Ha Hsh].
  assert (forall k, hist st !! Z.to_nat id = Some e -> k = left st -> Z.to_nat id = k -> at_pc (spc st) e.2) as Hp.
  { intros k _ -> Hk. apply Ho. congruence. }
  eapply ring_ok_slot; try done; auto; try lia.
  - rewrite fn_lookup_insert. destruct e as [a []]; cbn in *; (split; [done|]); (split; [done|]); apply Hsh.
  - intros j Hj. by apply fn_lookup_insert_ne.
  - intros Hlt. destruct (ro_before _ Ho _ _ He Hlt) as [Hx|(la & r & Hx)]; destruct e as [a o]; cbn in *; subst o;
      [by left|right; by eexists _, _].
  - intros Hk. specialize (Hp _ He Hk eq_refl). destruct e as [a o]. cbn in *. destruct (spc st); cbn in *.
    + destruct Hp as [-> | ->]; by right.
    + destruct Hp as [? ->]. by eexists.
    + destruct Hp as (? & ? & ->). by eexists _, _.
    + destruct Hp as (? & ? & ->). by eexists _, _.
    + destruct Hp as [->|(? & ? & ->)]; [by left|right; by eexists _, _].
  - intros Hlt. destruct (ro_after _ Ho _ _ He Hlt) as [Hx|Hx]; destruct e as [a o]; cbn in *; subst o; by right.
  - rewrite (omap_alter_same _ _ e) by (done || by destruct e as [a []]). apply Ho.
Qed.

Lemma cstep_ok st st' : cstep st st' -> ring_ok st -> ring_ok st'.
Proof.
  intros [[a|ret|id|] Hm] Ho; cbn [cmove] in Hm.
  - destruct (cancelling st) eqn:Hc; [done|]. destruct (Z.leb_spec (2 ^ 31) (Z.of_nat (length (hist st)) + 1)); [done|].
    destruct (put_call a (ring st)) as [[p|] l] eqn:Hp; injection Hm as <-; [by eapply put_call_ok|].
    unfold put_call in Hp. destruct (_ && _); [|done]. injection Hp as <-. rewrite <- Hc. by destruct st.
  - destruct (server_step ret (spc st) (ring st)) as [[ev pc] l] eqn:Hs.
    assert ((left st < length (hist st))%nat) as Hlt.
    { destruct (decide (spc st = AtTest)) as [E|E]; [|by apply (ro_at _ Ho)].
      rewrite E in Hm. by destruct (Nat.ltb_spec (left st) (length (hist st))). }
    rewrite (proj2 (Nat.ltb_lt _ _) Hlt) in Hm. cbn [negb] in Hm.
    replace (match spc st with AtTest => false | _ => false end) with false in Hm by (by destruct (spc st)).
    injection Hm as <-. by apply server_ok.
  - destruct (cancelling st) eqn:Hc; [done|].
    destruct (cancel_test (Some (ring st)) id) eqn:Ht; injection Hm as <-; [done|by eapply cancel_test_ok].
  - destruct (cancelling st) eqn:Hc; [|done]. injection Hm as <-. by apply cancel_store_ok.
Qed.

Definition call_start (task cbfun nr serv : Z) : cstate :=
  MkC [] 0 AtTest None [] (new_list task cbfun nr ASYNC_LINUX_SYSCALL serv).
Lemma call_start_ok task cbfun nr serv : 1 <= nr -> ring_ok (call_start task cbfun nr serv).
Proof. intros Hn. constructor; cbn; try done; try lia; rewrite ?Zmod_0_l; done || intros k e Hk; done. Qed.
Lemma reachable_ok st st' : rtc cstep st st' -> ring_ok st -> ring_ok st'.
Proof. induction 1; eauto using cstep_ok. Qed.

(** What was cancelled in time stays so. *)
Lemma alter_keeps (g : list Z * outcome -> list Z * outcome) (i : nat) (h : history) (k : nat) e :
  h !! k = Some e -> g e = e -> alter g i h !! k = Some e.
Proof.
  intros Hk Hg. destruct (decide (i = k)) as [->|]; [by rewrite list_lookup_alter_eq, Hk; cbn; rewrite Hg|].
  by rewrite list_lookup_alter_ne.
Qed.
Lemma cancelled_stays st st' k a : rtc cstep st st' ->
  hist st !! k = Some (a, Cancelled) -> hist st' !! k = Some (a, Cancelled).
Proof.
  induction 1 as [|st st1 st' [mv Hm] _ IH]; [done|]. intros Hk. apply IH. clear IH.
  destruct mv as [b|ret|id|]; cbn [cmove] in Hm.
  - destruct (cancelling st); [done|]. destruct (_ <=? _); [done|]. destruct (put_call b (ring st)) as [[p|] l];
      injection Hm as <-; cbn; [by apply lookup_app_l_Some|done].
  - destruct (match spc st with AtTest => _ | _ => _ end); [done|].
    destruct (server_step ret (spc st) (ring st)) as [[ev pc] l]. injection Hm as <-. cbn.
    apply alter_keeps; [done|]. by destruct (spc st).
  - destruct (cancelling st); [done|]. by destruct (cancel_test _ _); injection Hm as <-.
  - destruct (cancelling st); [|done]. injection Hm as <-. cbn. by apply alter_keeps.
Qed.

(** What a process is told of its call [id]: the last [nr] calls are remembered. *)
Definition status_of (nr : Z) (h : history) (id : Z) : Z * option Z :=
  match h !! Z.to_nat id with
  | Some e =>
      if Z.of_nat (length h) <=? id + nr then
        match e.2 with
        | Pending | Calling false | Called false _ => (EINPROGRESS, None)
        | Cancelled | Calling true | Called true _ | Made true _ => (ECANCELED, None)
        | Made false ret => (0, Some ret)
        end
      else (ENOENT, None)
  | None => (ENOENT, None)
  end.

Lemma status_ok st id :
  ring_ok st -> 0 < id -> rt_linux_syscall_status (Some (ring st)) id = status_of (lnr (ring st)) (hist st) id.
Proof.
  intros Ho Hid. pose proof (ro_nr _ Ho) as Hnr. unfold rt_linux_syscall_status, status_of.
  destruct (Z.ltb_spec id 0); [lia|]. rewrite Z.rem_mod_nonneg by lia.
  destruct (Z.eqb_spec id (Z.abs (cid (lcalls (ring st) (id mod lnr (ring st)))))) as [Hc|Hc]; cbn [negb].
  - destruct (slot_number _ id Ho ltac:(lia) (eq_sym Hc)) as [[_ ->]|(e & He & Hw & Hsh)]; [lia|]. rewrite He.
    destruct (Z.leb_spec (Z.of_nat (length (hist st))) (id + lnr (ring st))); [|lia].
    destruct Hsh as [_ Hsh]. set (c := lcalls (ring st) (id mod lnr (ring st))) in *.
    destruct (e.2) as [| |[]|[] r|[] r].
    all: try (destruct Hsh as (-> & -> & Hr)); try (destruct Hsh as [-> ->]); cbn [mode_of].
    all: try done; rewrite ?(proj2 (Z.ltb_lt 0 _)) by lia; try done.
    rewrite (proj2 (Z.ltb_ge 0 _)) by lia. by rewrite Hr.
  - destruct (hist st !! Z.to_nat id) as [e|] eqn:He; [|done].
    destruct (Z.leb_spec (Z.of_nat (length (hist st))) (id + lnr (ring st))); [|done].
    pose proof (shows_cid _ _ _ (ro_shows _ Ho _ _ He ltac:(lia))) as Hsh. rewrite Z2Nat.id in Hsh by lia. lia.
Qed.

(** The number 0 has no sign: the first call is told to be made, whether it is or not. *)
Definition was_cancelled (o : outcome) : bool :=
  match o with Cancelled | Calling true | Called true _ | Made true _ => true | _ => false end.
Lemma first_call_status st e :
  ring_ok st -> hist st !! 0%nat = Some e -> Z.of_nat (length (hist st)) <= lnr (ring st) ->
  rt_linux_syscall_status (Some (ring st)) 0 =
    if was_cancelled e.2 then (ECANCELED, None) else (0, Some (cretval (lcalls (ring st) 0))).
Proof.
  intros Ho Hk Hw. pose proof (ro_shows _ Ho _ _ Hk ltac:(lia)) as [_ Hs]. cbn [Z.of_nat] in Hs.
  pose proof (ro_nr _ Ho) as Hnr. rewrite Zmod_0_l in Hs.
  unfold rt_linux_syscall_status. rewrite Z.rem_0_l by lia. set (c := lcalls (ring st) 0) in *.
  destruct (e.2) as [| |[]|[] r|[] r]; first [destruct Hs as (-> & -> & _)|destruct Hs as [-> ->]]; done.
Qed.

(** C8. Linux calls of a real time process, asynchronous server: whatever the order of calls, of the
    accesses of the server and of those of cancellations, the server makes the calls in the
    order they were asked for, each once and with its arguments, and passes over those only that were
    cancelled before it looked at them, which are never made.  The status of a call is what has
    become of it, as long as not more than [nr] calls followed, but for two cases the code gets wrong: a
    call cancelled later than that is made and reported as cancelled, and the first call, number 0, is
    reported as made, with what the slot holds for its result, even before it is.  Fewer than 2^31 calls. *)
Theorem linux_call_status task cbfun nr serv st :
  1 <= nr -> rtc cstep (call_start task cbfun nr serv) st ->
  made st = omap made_of (hist st) /\
  (forall k e, hist st !! k = Some e ->
     ((k < left st)%nat -> e.2 = Cancelled \/ exists late r, e.2 = Made late r) /\
     ((left st < k)%nat -> e.2 = Pending \/ e.2 = Cancelled) /\
     ((left st <= k)%nat -> args (lcalls (ring st) (Z.of_nat k mod lnr (ring st))) = e.1)) /\
  (forall k a st', hist st !! k = Some (a, Cancelled) -> rtc cstep st st' -> hist st' !! k = Some (a, Cancelled)) /\
  (forall id, 0 < id -> rt_linux_syscall_status (Some (ring st)) id = status_of (lnr (ring st)) (hist st) id) /\
  (forall e, hist st !! 0%nat = Some e -> Z.of_nat (length (hist st)) <= lnr (ring st) ->
     rt_linux_syscall_status (Some (ring st)) 0 =
       if was_cancelled e.2 then (ECANCELED, None) else (0, Some (cretval (lcalls (ring st) 0)))).
Proof.
  intros Hn Hr. pose proof (reachable_ok _ _ Hr (call_start_ok _ _ _ _ Hn)) as Ho. split_and!.
  - apply (ro_made _ Ho).
  - intros k e Hk. split_and!.
    + by apply (ro_before _ Ho).
    + by apply (ro_after _ Ho).
    + intros Hle. apply (ro_shows _ Ho _ _ Hk). pose proof (ro_room _ Ho). lia.
  - intros k a st' Hk Hr'. by eapply cancelled_stays.
  - intros id Hid. by apply status_ok.
  - intros e He Hl. by apply first_call_status.
Qed.

(** A run: a call; a second, cancelled in time; a third, cancelled while it is made. *)
Fixpoint cmoves (mvs : list move) (st : cstate) : cstate :=
  match mvs with
  | [] => st
  | mv :: mvs => match cmove mv st with Some st' => cmoves mvs st' | None => st end
  end.
Lemma cmoves_rtc mvs st : rtc cstep st (cmoves mvs st).
Proof.
  revert st. induction mvs as [|mv mvs IH]; intros st; cbn; [done|].
  destruct (cmove mv st) eqn:Hm; [|done]. eapply rtc_l; [by exists mv|apply IH].
Qed.
Definition ex_moves : list move :=
  [Call [10]; Call [11]; CancelTest 1; Serve 0; CancelStore] ++ replicate 4 (Serve 70) ++ replicate 2 (Serve 71) ++
  [Call [12]; Serve 0; CancelTest 2; Serve 72; CancelStore; Serve 0; Serve 0; Serve 0].
Definition ex_calls : cstate := cmoves ex_moves (call_start 7 0 2 8).
Example cancelled_while_made :
  hist ex_calls = [([10], Made false 70); ([11], Cancelled); ([12], Made true 72)] /\
  made ex_calls = [MadeCall [10] 70; MadeCall [12] 72] /\
  rt_linux_syscall_status (Some (ring ex_calls)) 2 = (ECANCELED, None).
Proof. by vm_compute. Qed.
Lemma linux_call_status_witness :
  made ex_calls = omap made_of (hist ex_calls) /\
  (forall id, 0 < id -> rt_linux_syscall_status (Some (ring ex_calls)) id = status_of (lnr (ring ex_calls)) (hist ex_calls) id).
Proof.
  destruct (linux_call_status 7 0 2 8 ex_calls) as (H1 & _ & _ & H2 & _); [lia|apply cmoves_rtc|].
  by split.
Defined.
