(* ===== verification/Intercept.v ===== *)
(** * What the scheduler takes from Linux: sched.c, and the threads of sys.c.

    The system calls, the traps, the signals and the exit of processes go through the
    scheduler first.  A call that is not for real time and comes from a hard real
    time process is made by its server, or makes the process soft. *)

From S2P Require Import Prelude Resume MbxRing Nam2num Kernel Registry Shm Sched Tasks Lxrt Sem Mbx Api Msg Named Calls Sys.
From stdpp Require Import list.
#[local] Open Scope Z_scope.

Definition RTAI_SYSCALL_NR := 0x70000000.
Definition RTAI_NR_SRQS := 32.

(** The registers of a call. *)
Record pt_regs := MkRegs { LINUX_SYSCALL_NR : Z; REG1 : Z; REG2 : Z; REG3 : Z; REG4 : Z; REG5 : Z; REG6 : Z }.
Inductive kevent := SIGWAKE (lnx : Z) | EXIT (lnx : Z) | OtherEvent.
Record kthread_fun_args := MkKthread { kfun : Z; kargs : Z; kthread : Z }.

Section intercept.
Context {H : Type} `{Allocator H}.
Context (sizeof_SEM sizeof_RWL sizeof_SPL sizeof_MBX sizeof_RT_TASK sizeof_fun_args sizeof_kthread_fun_args : Z).
Context (task_at : Z -> tid) (task_adr : tid -> Z) (irandu : nat -> Z -> Z).
Context (rt_fun_lxrt : Z).
Context (junk : nat -> Z) (pid_of : Z -> Z) (rt_printk : list byte -> Z).
Context (timeofday : kst -> Z * Z) (long_bytes : Z -> list byte).
Context (fuel : nat) (pending moved has_mm : Z -> bool) (toggler : bool).
(** The arguments the process has at an address; the trap handler of a task for a vector; the requests of the services
    below; whether the processor is left in hard real time mode; the thread Linux makes. *)
Context (uargs : Z -> list Z) (trap_handler : tid -> Z -> option (kst -> res kst Z)).
Context (rtai_usrq_dispatcher : Z -> Z -> Z) (in_hrt_mode : kst -> bool) (kthread_run : Z -> Z -> nat -> Z).

(** The requests' state, the lists of Linux calls by address, what the processes' words
    hold, the threads that wait to be created and those that were. *)
Record ist := MkIst {
  isys : sys (H := H);
  ilists : Z -> linux_syscalls_list;
  uword : Z -> Z;
  kthread_to_create : Z * Z * (Z -> Z);
  kthread_at : Z -> kthread_fun_args;
  kthread_server_sem : Z;
  kthread_server_stop : bool;
  started : list (Z * Z)
}.
Definition eta_ist (s : ist) : ist :=
  MkIst (isys s) (ilists s) (uword s) (kthread_to_create s) (kthread_at s) (kthread_server_sem s)
    (kthread_server_stop s) (started s).
Definition set_isys := ltac:(setter eta_ist isys).
Definition set_ilists := ltac:(setter eta_ist ilists).
Definition set_uword := ltac:(setter eta_ist uword).
Definition set_kthread_to_create := ltac:(setter eta_ist kthread_to_create).
Definition set_kthread_at := ltac:(setter eta_ist kthread_at).
Definition set_kthread_server_sem := ltac:(setter eta_ist kthread_server_sem).
Definition set_started := ltac:(setter eta_ist started).

Definition iker (s : ist) : kst := yker (isys s).
Definition itask (s : ist) (t : tid) : RT_TASK := tasks (iker s) t.
Definition set_iker (k : kst) (s : ist) : ist := set_isys (set_yker k (isys s)) s.
Definition on_kernel {A} (r : res kst A) (s : ist) : res ist A := within iker set_iker r s.
Definition on_sys {A} (r : res sys A) (s : ist) : res ist A := within isys set_isys r s.
Definition iset {A} (f : A -> RT_TASK -> RT_TASK) (t : tid) (v : A) (s : ist) : ist := set_iker (tset f t v (iker s)) s.
Definition force_soft_now (t : tid) (keeprio : Z) (s : ist) : res ist unit := on_sys (give_back t keeprio (isys s)) s.

(** ** Linux calls through the server *)

Definition regs_args (r : pt_regs) : list Z := [LINUX_SYSCALL_NR r; REG1 r; REG2 r; REG3 r; REG4 r; REG5 r; REG6 r].

(** The result goes to the register of the call's result. *)
Definition rt_exec_linux_syscall (rt_current : tid) (syscalls : Z) (regs : pt_regs) (s : ist) : res ist Z :=
  let from := ilists s syscalls in
  match put_call (regs_args regs) from with
  | (None, _) => Done (-1) s
  | (Some (i, id), l) =>
      let s := set_ilists (<[syscalls := l]> (ilists s)) s in
      if lserv from =? 0 then Fault s
      else
        let serv := task_at (lserv from) in
        let* (_, s) := (if (- lnr from) <=? suspdepth (itask s serv) then
                          let s := iset set_priority serv (priority (itask s rt_current) + BASE_SOFT_PRIORITY) s in
                          on_kernel (rt_task_resume serv (iker s)) s
                        else Done 0 s) in
        if lmode from =? SYNC_LINUX_SYSCALL then
          let* (_, s) := on_kernel (rt_task_suspend (Some rt_current) (iker s)) s in
          Done (cretval (lcalls (ilists s syscalls) i)) s
        else Done id s
  end.

Definition lxrt_intercept_linux_syscall (regs : pt_regs) (task : option tid) (s : ist) : res ist (Z * option Z) :=
  match task with
  | Some t =>
      if 0 <? is_hard (itask s t) then
        if negb (linux_syscall_server (isys s) t =? 0) then
          let serv := task_at (linux_syscall_server (isys s) t) in
          let* (r, s) := rt_exec_linux_syscall t (linux_syscall_server (isys s) serv) regs s in Done (1, Some r) s
        else let* (_, s) := force_soft_now t (-1) s in Done (0, None) s
      else Done (0, None) s
  | None => Done (0, None) s
  end.

Definition invoke (cur lxsrq arg : Z) (task : option tid) (s : ist) : res ist Z :=
  on_sys (rtai_lxrt_invoke sizeof_SEM sizeof_RWL sizeof_SPL sizeof_MBX sizeof_RT_TASK sizeof_fun_args task_at task_adr
            irandu rt_fun_lxrt junk pid_of rt_printk timeofday long_bytes fuel pending moved has_mm toggler cur
            (u32 lxsrq) (uargs arg) task (isys s)) s.
Definition serve_request (cur : Z) (task : option tid) (regs : pt_regs) (s : ist) : res ist unit :=
  let* (retval, s) := (if RTAI_NR_SRQS <? REG1 regs then invoke cur (REG1 regs) (REG2 regs) task s
                       else Done (rtai_usrq_dispatcher (REG1 regs) (REG2 regs)) s) in
  Done tt (set_uword (<[REG3 regs := retval]> (uword s)) s).
Definition to_linux (s : ist) : Z := if in_hrt_mode (iker s) then 1 else 0.

(** [cur] is the Linux task that calls; the second result is that of a Linux call made by a server. *)
Definition lxrt_intercept_syscall (cur : Z) (regs : pt_regs) (s : ist) : res ist (Z * option Z) :=
  let task := tskext (iker s) cur in
  if RTAI_SYSCALL_NR <=? LINUX_SYSCALL_NR regs then
    let* (_, s) := (match task with
                    | Some t =>
                        if negb (unblocked (itask s t) =? 0) then
                          let* (_, s) := (if 0 <? is_hard (itask s t) then force_soft_now t (-1) s else Done tt s) in
                          let s := iset set_unblocked t 0 s in
                          Done tt (set_uword (<[REG4 regs := 1]> (uword s)) s)
                        else serve_request cur task regs s
                    | None => serve_request cur task regs s
                    end) in
    Done (to_linux s, None) s
  else lxrt_intercept_linux_syscall regs task s.
Definition lxrt_intercept_fastcall (cur : Z) (regs : pt_regs) (s : ist) : res ist Z :=
  let* (_, s) := serve_request cur (tskext (iker s) cur) regs s in Done (to_linux s) s.

(** ** Traps and events *)

(** [trap_handler] of a task without a process; else the process is made soft and Linux handles the trap. *)
Definition lxrt_handle_trap (vec : Z) (s : ist) : res ist Z :=
  let t := rt_current (iker s) in
  if bool_decide (lnxtsk (itask s t) = None) then
    match trap_handler t vec with
    | Some h => on_kernel (h (iker s)) s
    | None => let* (_, s) := on_kernel (rt_task_suspend (Some t) (iker s)) s in Done 1 s
    end
  else if 0 <? is_hard (itask s t) then let* (_, s) := force_soft_now t (-1) s in Done 0 s
  else Done 0 s.

Definition lxrt_intercept_exit (lnx : Z) (s : ist) : res ist Z :=
  match tskext (iker s) lnx with
  | Some t =>
      let* (_, s) := (if 0 <? is_hard (itask s t) then force_soft_now t 0 s else Done tt s) in
      let* (_, s) := on_sys (linux_process_termination task_at task_adr rt_fun_lxrt lnx (isys s)) s in Done 0 s
  | None => Done 0 s
  end.
Definition lxrt_intercept_kevents (e : kevent) (s : ist) : res ist Z :=
  match e with
  | SIGWAKE lnx => on_kernel (lxrt_intercept_sig_wakeup lnx (iker s)) s
  | EXIT lnx => lxrt_intercept_exit lnx s
  | OtherEvent => Done 0 s
  end.

(** [lxrt_killall] once the timers are stopped: the tasks of each processor, [n] bounds how many one has. *)
Fixpoint kill_loop (n : nat) (c : nat) (s : ist) : res ist unit :=
  match head (tasklist (iker s) c) with
  | None => Done tt s
  | Some t =>
      match n with
      | O => NoFuel s
      | S n => let* (_, s) := on_kernel (rt_task_delete rt_sem_signal t (iker s)) s in kill_loop n c s
      end
  end.
Fixpoint killall_cpus (n : nat) (cs : list nat) (s : ist) : res ist unit :=
  match cs with
  | [] => Done tt s
  | c :: cs => let* (_, s) := kill_loop n c s in killall_cpus n cs s
  end.
Definition lxrt_killall (n : nat) (s : ist) : res ist unit := killall_cpus n (seq 0 (NR_CPUS (tun (iker s)))) s.

(** ** Kernel threads *)

(** Out of hard real time a thread is created at once, else by the server. *)
Definition start_thread (k : kthread_fun_args) (s : ist) : ist :=
  let lnx := kthread_run (kfun k) (kargs k) (length (started s)) in
  let s := set_started (started s ++ [(kfun k, kargs k)]) s in
  if negb (kthread k =? 0) then set_uword (<[kthread k := lnx]> (uword s)) s else s.
Definition rt_thread_create (k : kthread_fun_args) (s : ist) : res ist unit :=
  if is_hard (itask s (rt_current (iker s))) =? 0 then Done tt (start_thread k s)
  else
    let* (p, s) := on_sys (ymalloc sizeof_kthread_fun_args (isys s)) s in
    if p =? 0 then Fault s
    else
      let s := set_kthread_at (<[p := k]> (kthread_at s)) s in
      let '(i, o, q) := kthread_to_create s in
      let s := set_kthread_to_create (u64 (i + 1), o, <[Z.land i (MAX_WAKEUP_SRQ - 1) := p]> q) s in
      Done tt (set_kthread_server_sem (kthread_server_sem s + 1) s).

(** What the server does each time it is woken, [n] bounds the threads it creates. *)
Fixpoint create_loop (n : nat) (s : ist) : res ist unit :=
  let '(i, o, q) := kthread_to_create s in
  if kthread_server_stop s || (o =? i) then Done tt s
  else match n with
       | O => NoFuel s
       | S n =>
           let p := q (Z.land o (MAX_WAKEUP_SRQ - 1)) in
           let s := set_kthread_to_create (i, u64 (o + 1), q) s in
           let s := start_thread (kthread_at s p) s in
           let* (_, s) := on_sys (yfree p (isys s)) s in
           create_loop n s
       end.

(** [rt_thread_init] of the Linux task [cur]; Linux priorities and names are not kept. *)
Definition rt_thread_init (cur name priority cpus_allowed : Z) (s : ist) : res ist Z :=
  let s := set_isys (set_lnx_fpu (<[cur := true]> (lnx_fpu (isys s))) (isys s)) s in
  let name := if negb (name =? 0) then name else get_name irandu 0 (yreg (isys s)) in
  let* (t, s) := on_sys (__task_init sizeof_RT_TASK sizeof_fun_args task_at task_adr moved has_mm cur name priority 0
                           cpus_allowed (isys s)) s in
  if t =? 0 then Done 0 s
  else let* (_, s) := on_sys (rt_make_hard_real_time fuel pending (Some (task_at t)) (isys s)) s in Done t s.
Definition rt_thread_delete (cur adr : Z) (s : ist) : res ist Z :=
  on_sys (__task_delete task_at cur adr (isys s)) s.
End intercept.
