(* ===== verification/InterceptFacts.v ===== *)
(** * The kernel threads that hard real time tasks ask for are created. *)

From S2P Require Import Prelude Resume Kernel KernelFacts Registry Shm Named Sys Intercept.
From stdpp Require Import list.
#[local] Open Scope Z_scope.

Section kthreads.
Context {H : Type} `{AllocatorLaws H} (sizeof_kthread_fun_args : Z) (kthread_run : Z -> Z -> nat -> Z).
Context (Hsize : 0 <= sizeof_kthread_fun_args <= alloc_limit).
Implicit Types (s : ist (H := H)) (w : list kthread_fun_args).

(** Tasks ask for threads; the server runs now and then. *)
Inductive kthread_op := Ask (k : kthread_fun_args) | Serve.
Definition kthread_call (o : kthread_op) s : res ist unit :=
  match o with
  | Ask k => rt_thread_create sizeof_kthread_fun_args kthread_run k s
  | Serve => create_loop kthread_run (Z.to_nat MAX_WAKEUP_SRQ) s
  end.
Fixpoint kthread_ops (os : list kthread_op) s : res ist unit :=
  match os with
  | [] => Done tt s
  | o :: os => sched* s := kthread_call o s in kthread_ops os s
  end.

(** No more than 64 wait, [n] at the beginning. *)
Fixpoint fits (n : Z) (os : list kthread_op) : bool :=
  match os with
  | [] => true
  | Ask _ :: os => (n <? MAX_WAKEUP_SRQ) && fits (n + 1) os
  | Serve :: os => fits 0 os
  end.
(** The threads started, and those that wait, [w] at the beginning. *)
Fixpoint served w (os : list kthread_op) : list kthread_fun_args * list kthread_fun_args :=
  match os with
  | [] => ([], w)
  | Ask k :: os => served (w ++ [k]) os
  | Serve :: os => let '(a, w') := served [] os in (w ++ a, w')
  end.

(** ** The requests that wait *)

Definition iheap s : H := heap (yext (isys s)).
Definition set_iheap (h : H) s : ist := set_isys (set_yext (set_heap h (yext (isys s))) (isys s)) s.
Definition hard_caller s : Prop := is_hard (itask s (rt_current (iker s))) <> 0.

Record waiting (l : list Z) w (ps : list Z) s : Prop := {
  wa_hard : hard_caller s;
  wa_stop : kthread_server_stop s = false;
  wa_len : length ps = length w;
  wa_max : zlen w <= MAX_WAKEUP_SRQ;
  wa_heap : exists l0, l0 ≡ₚ ps ++ l /\ allocated (iheap s) l0;
  wa_out : 0 <= (kthread_to_create s).1.2 < 2 ^ 64;
  wa_in : (kthread_to_create s).1.1 = u64 ((kthread_to_create s).1.2 + zlen w);
  wa_slots : forall j p k, ps !! j = Some p -> w !! j = Some k ->
    (kthread_to_create s).2 (((kthread_to_create s).1.2 + Z.of_nat j) mod 64) = p /\ kthread_at s p = k
}.

Lemma snoc_at {A} (l : list A) x n : length l = n -> (l ++ [x]) !! n = Some x.
Proof. intros <-. by apply list_lookup_middle. Qed.

Lemma slot_mod x : Z.land x (MAX_WAKEUP_SRQ - 1) = x mod 64.
Proof. change (MAX_WAKEUP_SRQ - 1) with (Z.ones 6). by rewrite Z.land_ones. Qed.
Lemma u64_mod x : u64 x mod 64 = x mod 64.
Proof. apply Z.mod_mod_divide. exists (2 ^ 58). reflexivity. Qed.

Lemma malloc_on_sys s p h' size : halloc size (iheap s) = Some (p, h') ->
  on_sys (ymalloc size (isys s)) s = Done p (set_iheap h' s).
Proof. intros E. unfold on_sys, ymalloc, in_ext, rt_malloc. unfold iheap in E. by rewrite E. Qed.
Lemma free_on_sys s p h' : hfree p (iheap s) = Some h' -> on_sys (yfree p (isys s)) s = Done tt (set_iheap h' s).
Proof. intros E. unfold on_sys, yfree, in_ext, rt_free. unfold iheap in E. by rewrite E. Qed.

(** The request is put at the end, unless there is no memory for it. *)
Lemma ask_waits l w ps s k : waiting l w ps s -> zlen w < MAX_WAKEUP_SRQ ->
  (exists ps' s', kthread_call (Ask k) s = Done tt s' /\ waiting l (w ++ [k]) ps' s' /\ started s' = started s) \/
  (exists s', kthread_call (Ask k) s = Fault s' /\ exists h, halloc sizeof_kthread_fun_args h = Some (0, iheap s')).
Proof.
  intros [Hh Hst Hl Hm (l0 & Hl0 & Ha) Ho Hi Hsl] Hw.
  destruct (halloc_law _ _ _ Ha Hsize) as (p & h' & E & Hp).
  cbn [kthread_call]. unfold rt_thread_create. rewrite (proj2 (Z.eqb_neq _ _) Hh).
  rewrite (malloc_on_sys _ _ _ _ E). cbn [rbind].
  destruct Hp as [[-> _]|(Hp0 & Hpn & Ha')]; [right; eexists; split; [done|]; by exists (iheap s)|left].
  rewrite (proj2 (Z.eqb_neq _ _) Hp0). cbn [kthread_to_create set_iheap set_isys set_kthread_at].
  destruct (kthread_to_create s) as [[i o] q] eqn:Eq. cbn [fst snd] in *. subst i.
  eexists (ps ++ [p]), _. split; [done|]. split; [|done].
  assert (zlen (w ++ [k]) = zlen w + 1) as Hz by (rewrite zlen_app; done).
  constructor; cbn -[zlen Z.modulo lookup]; rewrite ?Hz; try done; try lia.
  - rewrite !length_app, Hl. done.
  - exists (p :: l0). split; [|done]. rewrite Hl0, <- app_assoc. apply Permutation_middle.
  - unfold wrapu. rewrite Z.add_mod_idemp_l by done. f_equal. lia.
  - intros j p' k' Hj Hk. rewrite slot_mod, u64_mod.
    destruct (decide (j = length w)) as [->|Hjw].
    + rewrite snoc_at in Hj by done. rewrite snoc_at in Hk by done. injection Hj as <-. injection Hk as <-.
      unfold zlen. by rewrite !fn_lookup_insert.
    + assert (j < length w)%nat as Hjl.
      { apply lookup_lt_Some in Hk. rewrite length_app in Hk. cbn in Hk. lia. }
      rewrite lookup_app_l in Hj by lia. rewrite lookup_app_l in Hk by lia. destruct (Hsl _ _ _ Hj Hk) as [<- <-].
      rewrite !fn_lookup_insert_ne; [done| |].
      * intros ->. apply Hpn. rewrite Hl0. apply elem_of_app. left. by eapply list_elem_of_lookup_2.
      * intros E2. unfold zlen, MAX_WAKEUP_SRQ in *. apply slot_inj in E2; lia.
Qed.

Definition thread_of (k : kthread_fun_args) : Z * Z := (kfun k, kargs k).

Lemma u64_index x y : (u64 x + y) mod 64 = (x + y) mod 64.
Proof. rewrite <- Z.add_mod_idemp_l, u64_mod by done. by apply Z.add_mod_idemp_l. Qed.

(** A turn of the server's loop starts the first thread that waits. *)
Lemma serve_first n l k w p ps s : waiting l (k :: w) (p :: ps) s ->
  exists s', create_loop kthread_run (S n) s = create_loop kthread_run n s' /\
    waiting l w ps s' /\ started s' = started s ++ [thread_of k].
Proof.
  intros [Hh Hst Hl Hm (l0 & Hl0 & Ha) Ho Hi Hsl].
  destruct (hfree_law _ _ _ (ps ++ l) Ha Hl0) as (h' & E & Ha').
  cbn [create_loop]. destruct (kthread_to_create s) as [[i o] q] eqn:Eq. cbn [fst snd] in *. subst i.
  assert (zlen (k :: w) = zlen w + 1) as Hz by (unfold zlen; cbn; lia). rewrite Hz in *.
  pose proof (zlen_nonneg w) as Hwn. unfold MAX_WAKEUP_SRQ in Hm.
  rewrite Hst. destruct (Z.eqb_spec o (u64 (o + (zlen w + 1)))) as [Ho2|_]; cbn [orb].
  { exfalso. unfold wrapu in Ho2. rewrite <- (Z.mod_small o (2 ^ 64)) in Ho2 at 1 by lia.
    apply slot_inj in Ho2; lia. }
  destruct (Hsl 0%nat p k eq_refl eq_refl) as [Hq Hk]. rewrite Z.add_0_r in Hq.
  rewrite slot_mod, Hq.
  match goal with |- context [on_sys (yfree p (isys ?x)) ?x] => set (s2 := x) end.
  assert (iheap s2 = iheap s) as Eh by (unfold s2, start_thread; by destruct (negb _)).
  rewrite <- Eh in E. rewrite (free_on_sys _ _ _ E). cbn [rbind].
  eexists. split; [done|]. unfold s2, start_thread. cbn [kthread_at set_kthread_to_create].
  rewrite Hk. split; [|by destruct (negb _)].
  assert (forall s3, kthread_to_create s3 = (u64 (o + (zlen w + 1)), u64 (o + 1), q) ->
            kthread_at s3 = kthread_at s -> hard_caller s3 -> kthread_server_stop s3 = false ->
            waiting l w ps (set_iheap h' s3)) as Hw; [|by destruct (negb _); apply Hw].
  intros s3 Eq3 Ek3 Hh3 Hst3. assert (kthread_to_create (set_iheap h' s3) = kthread_to_create s3) as E3 by done.
  constructor; rewrite ?E3, ?Eq3; cbn [fst snd]; try done; try lia.
  - cbn in Hl. lia.
  - unfold MAX_WAKEUP_SRQ. lia.
  - by exists (ps ++ l).
  - by apply wrapu_range.
  - unfold wrapu. rewrite Z.add_mod_idemp_l by done. f_equal. lia.
  - intros j p' k' Hj Hk'. rewrite u64_index. destruct (Hsl (S j) p' k' Hj Hk') as [<- <-].
    split; [f_equal; f_equal; lia|by rewrite <- Ek3].
Qed.

Lemma serve_all n l w ps s : waiting l w ps s -> (length w <= n)%nat ->
  exists s', create_loop kthread_run n s = Done tt s' /\ waiting l [] [] s' /\
    started s' = started s ++ map thread_of w.
Proof.
  revert n ps s. induction w as [|k w IH]; intros n ps s Hw Hn; pose proof (wa_len _ _ _ _ Hw) as Hl.
  - destruct ps; [|done]. exists s. split; [|split; [done|by rewrite app_nil_r]].
    pose proof (wa_in _ _ _ _ Hw) as Hi. pose proof (wa_out _ _ _ _ Hw) as Ho.
    destruct n; cbn [create_loop]; destruct (kthread_to_create s) as [[i o] q]; cbn [fst snd] in *; subst i;
      unfold wrapu; rewrite Z.add_0_r, Z.mod_small, Z.eqb_refl, orb_true_r by lia; done.
  - destruct ps as [|p ps]; [done|]. destruct n as [|n]; [cbn in Hn; lia|].
    destruct (serve_first n _ _ _ _ _ _ Hw) as (s1 & -> & Hw1 & Hs1).
    destruct (IH n ps s1 Hw1 ltac:(cbn in Hn; lia)) as (s' & -> & Hw' & Hs'). exists s'. split_and!; [done|done|].
    by rewrite Hs', Hs1, <- app_assoc.
Qed.

(** C10. Kernel threads: whatever the order in which hard real time tasks ask for threads and the server runs, the
    server always comes to an end and starts every thread that was asked for, once and in
    the order they were asked for, and gives the memory of the requests back, provided at most 64 requests
    wait at a time; only when the heap has no block for a request is the null pointer it
    gives followed. *)
Theorem kthreads_started l s ops :
  waiting l [] [] s -> fits 0 ops = true ->
  (exists s' ps, kthread_ops ops s = Done tt s' /\ waiting l (served [] ops).2 ps s' /\
     started s' = started s ++ map thread_of (served [] ops).1) \/
  (exists s' h, kthread_ops ops s = Fault s' /\ halloc sizeof_kthread_fun_args h = Some (0, iheap s')).
Proof.
  change 0 with (zlen (@nil kthread_fun_args)) at 1. generalize (@nil kthread_fun_args) as w. generalize (@nil Z) as ps.
  revert s. induction ops as [|o ops IH]; intros s ps w Hw Hf.
  - left. exists s, ps. cbn. by rewrite app_nil_r.
  - destruct o as [k|]; cbn [fits served] in *.
    + apply andb_prop in Hf as [Hf1 Hf]. zbool. cbn [kthread_ops].
      destruct (ask_waits _ _ _ _ k Hw Hf1) as [(ps' & s1 & -> & Hw1 & Hs1)|(s1 & -> & h & Eh)];
        [|right; by exists s1, h].
      cbn [rbind]. rewrite <- Hs1. apply (IH s1 ps'); [done|]. by rewrite zlen_app.
    + cbn [kthread_ops kthread_call].
      destruct (serve_all (Z.to_nat MAX_WAKEUP_SRQ) _ _ _ _ Hw) as (s1 & -> & Hw1 & Hs1).
      { pose proof (wa_max _ _ _ _ Hw). unfold zlen in *. lia. }
      cbn [rbind]. destruct (IH s1 [] [] Hw1 Hf) as [(s' & ps' & E & Hw' & Hs')|Hoom]; [left|by right].
      exists s', ps'. split; [done|]. destruct (served [] ops) as [a w']. cbn [fst snd] in *. split; [done|].
      by rewrite Hs', Hs1, map_app, <- app_assoc.
Qed.
End kthreads.

(** *** Example: a heap that never reuses a block, two threads before a turn and one after *)

#[local] Instance new_blocks : Allocator Z := { halloc := fun size h => Some (h, h + size + 1); hfree := fun _ h => Some h }.
Lemma new_blocks_halloc (h : Z) (l : list Z) size : 0 < h /\ (forall p, p ∈ l -> p < h) -> 0 <= size <= 2 ^ 30 ->
  exists p h', halloc size h = Some (p, h') /\
    ((p = 0 /\ 0 < h' /\ forall p, p ∈ l -> p < h') \/
     (p <> 0 /\ (p ∉ l) /\ 0 < h' /\ forall q, q ∈ p :: l -> q < h')).
Proof.
  intros [Hh Hl] Hs. exists h, (h + size + 1). split; [done|right]. split_and!; [lia| |lia|].
  - intros Hin%Hl. lia.
  - intros q [->|Hq%Hl]%elem_of_cons; lia.
Qed.
Lemma new_blocks_hfree (h : Z) (l : list Z) p (l' : list Z) : 0 < h /\ (forall p, p ∈ l -> p < h) -> l ≡ₚ p :: l' ->
  exists h', hfree p h = Some h' /\ 0 < h' /\ forall p, p ∈ l' -> p < h'.
Proof. intros [Hh Hl] Hp. exists h. split_and!; try done. intros q Hq. apply Hl. rewrite Hp. by right. Qed.
#[local] Instance new_blocks_laws : AllocatorLaws Z := {
  alloc_limit := 2 ^ 30;
  allocated := fun h l => 0 < h /\ forall p, p ∈ l -> p < h;
  halloc_law := new_blocks_halloc;
  hfree_law := new_blocks_hfree
}.
Definition ex_kthread (n : Z) := MkKthread (100 + n) n 0.
Definition ex_service : service (H := Z) := MkService 0 (fun _ s => Done 0 s).
Definition ex_hard : kst := tset set_is_hard (rt_current idle_kst) 1 idle_kst.
Definition ex_sys : sys (H := Z) :=
  MkSys (MkExt ex_hard (MkReg (fun _ => empty_entry) 1) 1 (fun _ => 0) (fun _ => None) (fun _ => []))
    (fun _ _ => ex_service) (fun _ => 0) (fun _ => []) (fun _ => (0, 0)) (fun _ => 0) (fun _ => 0) (fun _ => 0)
    (fun _ => (0, 0)) (fun _ => 0) [] (fun _ => false) (0, 0).
Definition ex_ist : ist (H := Z) :=
  MkIst ex_sys (fun _ => Calls.new_list 0 0 0 0 0) (fun _ => 0) (7, 7, fun _ => 0) (fun _ => ex_kthread 0) 0 false [].
Definition ex_ops := [Ask (ex_kthread 1); Ask (ex_kthread 2); Serve; Ask (ex_kthread 3); Serve].

Lemma kthreads_started_witness :
  served [] ex_ops = ([ex_kthread 1; ex_kthread 2; ex_kthread 3], []) /\
  match kthread_ops 24 (fun _ _ _ => 5) ex_ops ex_ist with
  | Done _ s => started s = [(101, 1); (102, 2); (103, 3)] | _ => False end /\
  ((exists s' ps, kthread_ops 24 (fun _ _ _ => 5) ex_ops ex_ist = Done tt s' /\ waiting [] (served [] ex_ops).2 ps s' /\
     started s' = started ex_ist ++ map thread_of (served [] ex_ops).1) \/
   (exists s' h, kthread_ops 24 (fun _ _ _ => 5) ex_ops ex_ist = Fault s' /\ halloc 24 h = Some (0, iheap s'))).
Proof.
  split; [reflexivity|]. split; [by vm_compute|].
  apply (kthreads_started 24 (fun _ _ _ => 5)); [cbn; lia| |by vm_compute].
  constructor; [by vm_compute|done|done|by vm_compute| |cbn; lia|by vm_compute|done].
  exists []. cbn. split; [done|]. split; [lia|]. intros p Hp. by apply not_elem_of_nil in Hp.
Defined.
