(* ===== verification/Hal.v ===== *)
(** * Service requests, interrupts, timers and traps: rtai_hal.c.

    Service requests are pended from real time and run later, in Linux; processes call
    handlers by number, or ask which number a label has.  Interrupts of the real time
    domain are dispatched to their handlers.  What I-pipe, Linux and the handlers do is in the arguments. *)

From S2P Require Import Prelude Resume Kernel Sched Tasks.
From stdpp Require Import list.
#[local] Open Scope Z_scope.

Definition RTAI_NR_SRQS := 32.
Definition EBUSY := 16.
Definition EINVAL := 22.
Definition IRQF_SHARED := 0x80.
Definition RTAI_SYSCALL_NR := 0x70000000.

Record sysreq := MkSysreq { k_handler : Z; u_handler : Z; label : Z }.
(** The times of a processor. *)
Record rt_times := MkTimes { linux_tick : Z; periodic_tick : Z; tick_time : Z; linux_time : Z; intr_time : Z }.
Definition set_linux_tick (v : Z) (t : rt_times) : rt_times :=
  MkTimes v (periodic_tick t) (tick_time t) (linux_time t) (intr_time t).
Definition set_linux_time (v : Z) (t : rt_times) : rt_times :=
  MkTimes (linux_tick t) (periodic_tick t) (tick_time t) v (intr_time t).

Section hal.
(** The number of interrupts, of those of the hardware, and the isolated processors. *)
Context (RTAI_NR_IRQS IPIPE_NR_XIRQS IsolCpusMask : Z).

Record hal := MkHal {
  sysreq_map : Z; sysreq_pending : Z; sysreq_running : Z; sysreq_table : Z -> sysreq;
  srq_pended : nat -> bool;                (* by processor: hal_pend_uncond(rtai_sysreq_virq, cpuid) *)
  irq_handler : Z -> Z; irq_cookie : Z -> Z;   (* rtai_domain.irqs *)
  cpumask : Z -> Z;
  old_affinity : Z -> Z; affinity : Z -> Z;
  linux_irq : Z -> Z * Z;                  (* flags, count *)
  action_flags : Z -> option Z;            (* of the first action Linux has for the interrupt *)
  pended_irqs : list Z;
  trap_handler : Z;
  rt_smp_times : nat -> rt_times; rt_linux_hrt_next_shot : Z;
  called : list (Z * Z * Z)                (* handlers run, oldest first *)
}.
Definition eta_hal (h : hal) : hal :=
  MkHal (sysreq_map h) (sysreq_pending h) (sysreq_running h) (sysreq_table h) (srq_pended h) (irq_handler h)
    (irq_cookie h) (cpumask h) (old_affinity h) (affinity h) (linux_irq h) (action_flags h) (pended_irqs h)
    (trap_handler h) (rt_smp_times h)
    (rt_linux_hrt_next_shot h) (called h).
Definition set_map := ltac:(setter eta_hal sysreq_map).
Definition set_pending := ltac:(setter eta_hal sysreq_pending).
Definition set_running := ltac:(setter eta_hal sysreq_running).
Definition set_table := ltac:(setter eta_hal sysreq_table).
Definition set_srq_pended := ltac:(setter eta_hal srq_pended).
Definition set_irq_handler := ltac:(setter eta_hal irq_handler).
Definition set_irq_cookie := ltac:(setter eta_hal irq_cookie).
Definition set_cpumask := ltac:(setter eta_hal cpumask).
Definition set_old_affinity := ltac:(setter eta_hal old_affinity).
Definition set_affinity := ltac:(setter eta_hal affinity).
Definition set_linux_irq := ltac:(setter eta_hal linux_irq).
Definition set_action_flags := ltac:(setter eta_hal action_flags).
Definition set_pended_irqs := ltac:(setter eta_hal pended_irqs).
Definition set_trap_handler := ltac:(setter eta_hal trap_handler).
Definition set_times := ltac:(setter eta_hal rt_smp_times).
Definition set_next_shot := ltac:(setter eta_hal rt_linux_hrt_next_shot).
Definition set_called := ltac:(setter eta_hal called).

(** ** Service requests *)

(** [ffz]: the lowest bit that is not set. *)
Definition ffz (m : Z) : nat := ffnz (Z.lnot m).
Definition srq_bit (srq : Z) (m : Z) : bool := Z.testbit m srq.

(** The map has 64 bits and the table 32 entries: what is beyond it is not followed. *)
Definition rt_request_srq (label_ k_handler_ u_handler_ : Z) (h : hal) : res hal Z :=
  if k_handler_ =? 0 then Done (- EINVAL) h
  else if negb (sysreq_map h =? Z.ones 64) then
    let srq := Z.of_nat (ffz (sysreq_map h)) in
    let h := set_map (Z.setbit (sysreq_map h) srq) h in
    if RTAI_NR_SRQS <=? srq then Fault h
    else Done srq (set_table (<[srq := MkSysreq k_handler_ u_handler_ label_]> (sysreq_table h)) h)
  else Done (- EBUSY) h.

Definition rt_free_srq (srq : Z) (h : hal) : Z * hal :=
  if (srq <? 1) || (RTAI_NR_SRQS <=? srq) then (- EINVAL, h)
  else if srq_bit srq (sysreq_map h) then (0, set_map (Z.clearbit (sysreq_map h) srq) h)
  else (- EINVAL, h).

(** The bit first, which the dispatcher of any processor can see, then the interrupt of the processor. *)
Definition pend_bit (srq : Z) (h : hal) : hal := set_pending (Z.setbit (sysreq_pending h) srq) h.
Definition pend_virq (cpu : nat) (h : hal) : hal := set_srq_pended (<[cpu := true]> (srq_pended h)) h.
Definition srq_number (srq : Z) : bool := (0 <? srq) && (srq <? RTAI_NR_SRQS).
Definition rt_pend_linux_srq (srq : Z) (cpu : nat) (h : hal) : hal :=
  if srq_number srq then pend_virq cpu (pend_bit srq h) else h.

(** The dispatcher, an access at a time: the processors run it side by side, and requests are pended
    meanwhile.  Where it is: not called; before the lock; at the reads of the loop's condition; with a
    request chosen, before each thing done to it; in its handler; before the last unlock. *)
Inductive lsrq_pc :=
| LIdle | LLock | LTest | LMask (pending : Z) | LSet (srq : Z) | LClear (srq : Z) | LUnlock (srq : Z)
| LMap (srq : Z) | LCall (srq : Z) | LIn (srq : Z) | LOut (srq : Z) | LEnd.
(** What can be told of it from outside: a request is pended, taken, and answered by its handler or passed over. *)
Inductive srq_event := Pended (srq : Z) | Took (srq : Z) | Ran (f srq label : Z) | Passed (srq : Z).
(** The lock [rtai_lsrq_lock] is the flag; none: the lock is not free. *)
Definition rtai_lsrq_dispatcher (pc : lsrq_pc) (locked : bool) (h : hal) : option (list srq_event * lsrq_pc * bool * hal) :=
  match pc with
  | LIdle => None
  | LLock => if locked then None else Some ([], LTest, true, h)
  | LTest => Some ([], LMask (sysreq_pending h), locked, h)
  | LMask p =>
      let pending := Z.ldiff p (sysreq_running h) in
      Some ([], if pending =? 0 then LEnd else LSet (Z.of_nat (ffnz pending)), locked, h)
  | LSet srq => Some ([], LClear srq, locked, set_running (Z.setbit (sysreq_running h) srq) h)
  | LClear srq => Some ([Took srq], LUnlock srq, locked, set_pending (Z.clearbit (sysreq_pending h) srq) h)
  | LUnlock srq => Some ([], LMap srq, false, h)
  | LMap srq => if srq_bit srq (sysreq_map h) then Some ([], LCall srq, locked, h) else Some ([Passed srq], LOut srq, locked, h)
  | LCall srq =>
      let q := sysreq_table h srq in
      Some ([Ran (k_handler q) srq (label q)], LIn srq, locked, set_called (called h ++ [(k_handler q, srq, label q)]) h)
  | LIn srq => Some ([], LOut srq, locked, h)
  | LOut srq => Some ([], LLock, locked, set_running (Z.clearbit (sysreq_running h) srq) h)
  | LEnd => Some ([], LIdle, false, h)
  end.

(** [u_run] is what a handler of the user side returns. *)
Definition find_label (h : hal) (label_ : Z) : option Z :=
  option_map snd (list_find (fun srq => srq_bit srq (sysreq_map h) = true /\ label (sysreq_table h srq) = label_)
                    (map Z.of_nat (seq 1 (Z.to_nat RTAI_NR_SRQS - 1)))).
Definition rtai_usrq_dispatcher (u_run : Z -> Z -> Z) (srq label_ : Z) (h : hal) : Z :=
  if (0 <? srq) && (srq <? RTAI_NR_SRQS) && srq_bit srq (sysreq_map h) && negb (u_handler (sysreq_table h srq) =? 0)
  then u_run (u_handler (sysreq_table h srq)) label_
  else default 0 (find_label h label_).

(** ** Interrupts *)

Section irq.
(** I-pipe's registration and release of a handler; whether the affinity of an interrupt can be changed;
    Linux' request and release. *)
Context (ipipe_request_irq : Z -> Z -> Z -> hal -> Z * hal) (ipipe_free_irq : Z -> hal -> hal).
Context (can_set : Z -> bool) (hal_set_irq_affinity : Z -> Z -> hal -> hal).
Context (request_irq : Z -> Z -> hal -> Z * hal) (free_irq : Z -> hal -> hal).

Definition rt_assign_irq_to_cpu (irq mask : Z) (h : hal) : Z * hal :=
  if (IPIPE_NR_XIRQS <=? irq) || negb (can_set irq) then (0, h)
  else
    let oldmask := affinity h irq in
    let h := hal_set_irq_affinity irq mask h in
    (oldmask, if negb (oldmask =? 0) then set_old_affinity (<[irq := u32 oldmask]> (old_affinity h)) h else h).
Definition rt_reset_irq_to_sym_mode (irq : Z) (h : hal) : Z * hal :=
  if IPIPE_NR_XIRQS <=? irq then (0, h)
  else if old_affinity h irq =? 0 then (u64 (- EINVAL), h)
  else
    let oldmask := affinity h irq in
    let h := hal_set_irq_affinity irq (old_affinity h irq) h in
    (oldmask, set_old_affinity (<[irq := 0]> (old_affinity h)) h).

(** The interrupts Linux keeps off the isolated processors at start, and what the end gives to them. *)
Definition isolate_irqs (orig : Z -> Z) (h : hal) : (Z -> Z) * hal :=
  if IsolCpusMask =? 0 then (orig, h)
  else foldl (fun '(orig, h) i =>
          let '(m, h) := rt_assign_irq_to_cpu (Z.of_nat i) (u64 (Z.lnot IsolCpusMask)) h in
          (<[Z.of_nat i := u32 m]> orig, h)) (orig, h) (seq 0 (Z.to_nat IPIPE_NR_XIRQS)).
Definition restore_irqs (orig : Z -> Z) (h : hal) : hal :=
  if IsolCpusMask =? 0 then h
  else foldl (fun h i => (rt_reset_irq_to_sym_mode (i32 (orig (Z.of_nat i))) h).2) h (seq 0 (Z.to_nat IPIPE_NR_XIRQS)).

Definition rt_request_irq (irq handler cookie : Z) (h : hal) : Z * hal :=
  let '(ret, h) := ipipe_request_irq irq handler cookie h in
  if (ret =? 0) && negb (IsolCpusMask =? 0) && (irq <? IPIPE_NR_XIRQS) then
    let '(m, h) := rt_assign_irq_to_cpu irq IsolCpusMask h in (ret, set_cpumask (<[irq := u32 m]> (cpumask h)) h)
  else (ret, h).
Definition rt_release_irq (irq : Z) (h : hal) : Z * hal :=
  let h := ipipe_free_irq irq h in
  if negb (IsolCpusMask =? 0) && (irq <? IPIPE_NR_XIRQS) then (0, (rt_assign_irq_to_cpu irq (cpumask h irq) h).2)
  else (0, h).
Definition rt_set_irq_cookie (irq cookie : Z) (h : hal) : hal :=
  if irq <? RTAI_NR_IRQS then set_irq_cookie (<[irq := cookie]> (irq_cookie h)) h else h.

Definition rt_request_linux_irq (irq handler : Z) (h : hal) : Z * hal :=
  if RTAI_NR_IRQS <=? irq then (- EINVAL, h)
  else
    let '(fl, n) := linux_irq h irq in
    let h := set_linux_irq (<[irq := (fl, n + 1)]> (linux_irq h)) h in
    let h := match action_flags h irq with
             | Some f => if n =? 0 then
                 set_action_flags (<[irq := Some (Z.lor f IRQF_SHARED)]> (action_flags h))
                   (set_linux_irq (<[irq := (f, n + 1)]> (linux_irq h)) h) else h
             | None => h
             end in
    request_irq irq handler h.
Definition rt_free_linux_irq (irq : Z) (h : hal) : Z * hal :=
  if (RTAI_NR_IRQS <=? irq) || ((linux_irq h irq).2 =? 0) then (- EINVAL, h)
  else
    let h := free_irq irq h in
    let '(fl, n) := linux_irq h irq in
    let h := set_linux_irq (<[irq := (fl, n - 1)]> (linux_irq h)) h in
    (0, match action_flags h irq with
        | Some f => if n - 1 =? 0 then set_action_flags (<[irq := Some fl]> (action_flags h)) h else h
        | None => h
        end).
Definition rt_pend_linux_irq (irq : Z) (h : hal) : hal := set_pended_irqs (irq :: pended_irqs h) h.
Definition usr_rt_pend_linux_irq (irq : Z) (h : hal) : hal := rt_pend_linux_irq irq h.
End irq.

(** [i_run] is a handler at work, in real time mode; [stalled] tells that Linux has its interrupts off. The
    result tells whether the pipeline is flushed. *)
Definition rtai_hirq_dispatcher (i_run : Z -> Z -> Z -> hal -> hal) (stalled : hal -> bool) (irq : Z) (h : hal) :
    bool * hal :=
  if negb (irq_handler h irq =? 0) then
    let h := i_run (irq_handler h irq) irq (irq_cookie h irq) h in
    (negb (stalled h), h)
  else (true, h).

(** ** Timers *)

Section timers.
(** The rates of the two clocks and of Linux' tick; the time stamp counter; the mode I-pipe starts the timer of a
    processor in; the function Linux calls for its next shot. *)
Context (clock_freq TIMER_FREQ HZ : Z) (rdtsc : hal -> Z) (ipipe_timer_start : nat -> hal -> Z * hal)
        (ipipe_timer_stop : nat -> hal -> hal) (own_next_shot : Z).
Definition CLOCK_EVT_MODE_UNUSED := 0.
Definition CLOCK_EVT_MODE_SHUTDOWN := 1.
Definition CLOCK_EVT_MODE_PERIODIC := 2.
Definition CLOCK_EVT_MODE_ONESHOT := 3.
Definition tick_counts : Z := rtai_llimd (Z.quot (1000000000 + Z.quot HZ 2) HZ) clock_freq 1000000000.
Definition times_alter (f : rt_times -> rt_times) (c : nat) (h : hal) : hal :=
  set_times (<[c := f (rt_smp_times h c)]> (rt_smp_times h)) h.

Definition rt_linux_hrt_set_mode (mode : Z) (h : hal) : hal :=
  if (mode =? CLOCK_EVT_MODE_ONESHOT) || (mode =? CLOCK_EVT_MODE_SHUTDOWN) then times_alter (set_linux_tick 0) 0 h
  else if mode =? CLOCK_EVT_MODE_PERIODIC then times_alter (set_linux_tick (i32 tick_counts)) 0 h
  else h.
Definition _rt_linux_hrt_next_shot (delay : Z) (h : hal) : Z * hal :=
  (0, times_alter (fun t => set_linux_time (i64 (tick_time t + rtai_llimd delay TIMER_FREQ 1000000000)) t) 0 h).

(** The timer of processor [c] has started in mode [ret]. *)
Definition timer_started (ret : Z) (c : nat) (h : hal) : hal :=
  let h := if (ret =? CLOCK_EVT_MODE_ONESHOT) || (ret =? CLOCK_EVT_MODE_UNUSED)
           then times_alter (set_linux_tick 0) c h
           else times_alter (set_linux_tick (i32 tick_counts)) 0 h in
  let t := linux_tick (rt_smp_times h c) in
  let now := rdtsc h in
  times_alter (fun _ => MkTimes t t now (i64 (now + t)) (i64 (now + t))) c h.
(** The timers of [c] and of those before it are stopped. *)
Fixpoint stop_timers (c : nat) (h : hal) : hal :=
  let h := ipipe_timer_stop c h in
  match c with O => h | S c => stop_timers c h end.
Fixpoint start_timers (n c : nat) (h : hal) : Z * hal :=
  match n with
  | O => (0, h)
  | S n =>
      let '(ret, h) := ipipe_timer_start c h in
      if (ret <? 0) || (ret =? CLOCK_EVT_MODE_SHUTDOWN) then (-1, stop_timers c h)
      else start_timers n (S c) (timer_started ret c h)
  end.
(** [n] processors are active. *)
Definition rt_request_timers (n : nat) (h : hal) : Z * hal :=
  let h := if rt_linux_hrt_next_shot h =? 0 then set_next_shot own_next_shot h else h in
  start_timers n 0 h.
Definition rt_free_timers (n : nat) (h : hal) : hal :=
  set_next_shot 0 (foldl (fun h c => ipipe_timer_stop c h) h (seq 0 n)).

Definition CAL_LOOPS := 200.
(** [dt] is the time of [CAL_LOOPS] settings of the timer. *)
Definition rtai_calibrate_hard_timer (dt : Z) : Z :=
  rtai_imuldiv (Z.quot (i32 dt + CAL_LOOPS / 2) CAL_LOOPS) 1000000000 clock_freq.
End timers.

(** ** System calls without the scheduler *)

(** A call with a number of RTAI's is a service request; its result is what the user finds. *)
Definition hal_intercept_syscall (u_run : Z -> Z -> Z) (nr srq label_ : Z) (h : hal) : Z * option Z :=
  (0, if RTAI_SYSCALL_NR <=? nr then Some (rtai_usrq_dispatcher u_run srq label_ h) else None).

(** ** Traps *)

Definition rt_set_trap_handler (handler : Z) (h : hal) : Z * hal := (trap_handler h, set_trap_handler handler h).
Definition SIGILL := 4.
Definition SIGTRAP := 5.
Definition SIGBUS := 7.
Definition SIGFPE := 8.
Definition SIGSEGV := 11.
Definition trap2sig (trap : Z) : Z :=
  zget ([SIGFPE; SIGTRAP; SIGSEGV; SIGTRAP; SIGSEGV; SIGSEGV; SIGILL; SIGSEGV; SIGSEGV; SIGFPE; SIGSEGV; SIGBUS;
         SIGBUS; SIGSEGV; SIGSEGV; 0; SIGFPE; SIGBUS; SIGSEGV; SIGFPE] ++ replicate 12 0) trap.
(** Whether the trap has been taken care of.  In hard mode a trap of the FPU is, after the
    FPU of a task that uses it was restored; [t_run] is the handler at work. *)
Definition rtai_trap_fault (hard : bool) (t_run : Z -> Z -> Z -> hal -> Z * hal) (trap : Z) (h : hal) : Z * hal :=
  if negb hard then (0, h)
  else if trap =? 7 then (1, h)
  else if negb (trap_handler h =? 0) then
    let '(r, h) := t_run (trap_handler h) trap (trap2sig trap) h in (if r =? 0 then 0 else 1, h)
  else (0, h).
End hal.
