(* ===== verification/HalFacts.v ===== *)
(** * Service requests: rtai_hal.c.

    Which numbers the requests get, what happens when the table is full, and that the
    dispatchers of all processors, running side by side, answer everything that was pended. *)

From S2P Require Import Prelude Resume Kernel Sched Tasks Hal.
From stdpp Require Import list relations.
#[local] Open Scope Z_scope.

(** ** Bits of a map *)

Lemma testbit_above w m i : 0 <= m < 2 ^ w -> 0 <= w <= i -> Z.testbit m i = false.
Proof.
  intros Hm Hi. destruct (decide (m = 0)) as [->|]; [apply Z.testbit_0_l|].
  apply Z.bits_above_log2; [lia|]. assert (Z.log2 m < w) by (apply Z.log2_lt_pow2; lia). lia.
Qed.

(** ** Numbers of requests *)

Lemma ffnz_from_first n i m :
  (exists j, i <= j < i + n /\ Z.testbit m (Z.of_nat j) = true)%nat ->
  let k := ffnz_from n i m in
  (i <= k < i + n)%nat /\ Z.testbit m (Z.of_nat k) = true /\ (forall j, (i <= j < k)%nat -> Z.testbit m (Z.of_nat j) = false).
Proof.
  revert i. induction n as [|n IH]; intros i (j & Hj & Hb); simpl; [lia|].
  destruct (Z.testbit m (Z.of_nat i)) eqn:E.
  - split_and!; [lia..|done|intros; lia].
  - destruct (IH (S i)) as (? & ? & Hf).
    { exists j. split; [|done]. destruct (decide (j = i)) as [->|]; [congruence|lia]. }
    split_and!; [lia..|done|]. intros j' ?. destruct (decide (j' = i)) as [->|]; [done|]. apply Hf. lia.
Qed.

Definition srq_free (m : Z) (srq : Z) : Prop := 0 <= srq < RTAI_NR_SRQS /\ Z.testbit m srq = false.
Lemma ffz_first m srq :
  srq_free m srq ->
  srq_free m (Z.of_nat (ffz m)) /\ (forall i, 0 <= i < Z.of_nat (ffz m) -> Z.testbit m i = true).
Proof.
  unfold srq_free, RTAI_NR_SRQS. intros [Hr Hb]. unfold ffz, ffnz.
  destruct (ffnz_from_first 64 0 (Z.lnot m)) as (? & Hk & Hf).
  { exists (Z.to_nat srq). split; [lia|]. rewrite Z2Nat.id, Z.lnot_spec, Hb by lia. done. }
  set (k := ffnz_from 64 0 (Z.lnot m)) in *.
  assert (Hall : forall i, 0 <= i < Z.of_nat k -> Z.testbit m i = true).
  { intros i ?. specialize (Hf (Z.to_nat i) ltac:(lia)). rewrite Z2Nat.id, Z.lnot_spec in Hf by lia.
    by apply negb_false_iff in Hf. }
  split; [|done]. rewrite Z.lnot_spec in Hk by lia. apply negb_true_iff in Hk. split; [|done].
  split; [lia|]. destruct (Z.lt_ge_cases (Z.of_nat k) 32); [done|].
  rewrite Hall in Hb by lia. done.
Qed.
Lemma ffz_full m : (forall i, 0 <= i < RTAI_NR_SRQS -> Z.testbit m i = true) -> 0 <= m < Z.ones 64 -> RTAI_NR_SRQS <= Z.of_nat (ffz m).
Proof.
  intros Hf Hm. unfold ffz, ffnz, RTAI_NR_SRQS in *.
  assert (exists j, 0 <= j < 64 /\ Z.testbit m j = false) as (j & Hj & Hb).
  { destruct (decide (Forall (fun j => Z.testbit m (Z.of_nat j) = true) (seq 0 64))) as [Ha|Ha].
    - exfalso. enough (m = Z.ones 64) by lia. apply Z.bits_inj'. intros i Hi. rewrite Z.testbit_ones_nonneg by lia.
      destruct (Z.ltb_spec i 64).
      + rewrite Forall_forall in Ha. rewrite <- (Z2Nat.id i) by lia. apply Ha, elem_of_seq. lia.
      + apply (testbit_above 64); [|lia]. rewrite Z.ones_equiv in Hm. lia.
    - apply not_Forall_Exists, Exists_exists in Ha as (j & Hj & Hb); [|apply _]. apply elem_of_seq in Hj.
      exists (Z.of_nat j). split; [lia|]. by apply not_true_is_false. }
  destruct (ffnz_from_first 64 0 (Z.lnot m)) as (? & Hk & _).
  { exists (Z.to_nat j). split; [lia|]. rewrite Z2Nat.id, Z.lnot_spec, Hb by lia. done. }
  rewrite Z.lnot_spec in Hk by lia. apply negb_true_iff in Hk.
  destruct (Z.lt_ge_cases (Z.of_nat (ffnz_from 64 0 (Z.lnot m))) 32); [|done]. rewrite Hf in Hk by lia. done.
Qed.

(** A service request gets the lowest free number, never one in use and always below 32 while there is
    one; it is recorded under that number alone, its label leads to a request with that label, and its release frees the
    number again.  When all 32 numbers are taken, one of them by the code itself, the request is written beyond the table. *)
Theorem srq_requests (label_ k u : Z) (h : hal) :
  0 <= sysreq_map h < Z.ones 64 -> Z.testbit (sysreq_map h) 0 = true -> k <> 0 ->
  ((exists srq, srq_free (sysreq_map h) srq) ->
   exists srq h', rt_request_srq label_ k u h = Done srq h'
    /\ srq_free (sysreq_map h) srq /\ 1 <= srq /\ (forall i, 0 <= i < srq -> Z.testbit (sysreq_map h) i = true)
    /\ sysreq_table h' = <[srq := MkSysreq k u label_]> (sysreq_table h)
    /\ (forall i, 0 <= i -> Z.testbit (sysreq_map h') i = Z.testbit (sysreq_map h) i || (i =? srq))
    /\ (exists i, find_label h' label_ = Some i /\ label (sysreq_table h' i) = label_ /\ Z.testbit (sysreq_map h') i = true)
    /\ exists h'', rt_free_srq srq h' = (0, h'') /\ sysreq_map h'' = sysreq_map h)
  /\ ((forall srq, ~ srq_free (sysreq_map h) srq) -> exists h', rt_request_srq label_ k u h = Fault h').
Proof.
  intros Hm H0 Hk. unfold rt_request_srq.
  rewrite (proj2 (Z.eqb_neq k 0)), (proj2 (Z.eqb_neq (sysreq_map h) _)) by lia. cbn [negb]. split.
  - intros [x Hx]. destruct (ffz_first _ _ Hx) as [Hf Hlow]. destruct (Hf) as [Hr Hb].
    rewrite (proj2 (Z.leb_gt _ _)) by lia.
    set (srq := Z.of_nat (ffz (sysreq_map h))) in *. eexists srq, _. split; [done|]. simpl.
    assert (1 <= srq) by (destruct (decide (srq = 0)) as [E|]; [rewrite E in Hb; congruence|lia]).
    assert (Hset : forall i, 0 <= i ->
      Z.testbit (Z.setbit (sysreq_map h) srq) i = Z.testbit (sysreq_map h) i || (i =? srq)).
    { intros i ?. rewrite Z.setbit_eqb by lia. rewrite orb_comm. f_equal. apply Z.eqb_sym. }
    split_and!; [done..| |].
    + unfold find_label. destruct (list_find _ _) as [[? y]|] eqn:E; simpl.
      * apply list_find_Some in E as (_ & [? ?] & _). by exists y.
      * rewrite list_find_None, Forall_forall in E. exfalso. apply (E srq).
        -- apply list_elem_of_fmap. exists (Z.to_nat srq). split; [lia|]. unfold RTAI_NR_SRQS in *. apply elem_of_seq. lia.
        -- unfold srq_bit. simpl. rewrite Hset, Z.eqb_refl, orb_true_r, fn_lookup_insert by lia. done.
    + unfold rt_free_srq, srq_bit. simpl.
      rewrite (proj2 (Z.ltb_ge _ _)), (proj2 (Z.leb_gt _ _)), Hset, Z.eqb_refl, orb_true_r by lia. simpl.
      eexists. split; [done|]. simpl. apply Z.bits_inj'. intros i Hi. rewrite Z.clearbit_eqb, Hset by lia.
      destruct (Z.eqb_spec srq i) as [->|]; [rewrite Z.eqb_refl, Hb; done|].
      rewrite (proj2 (Z.eqb_neq i srq)) by lia. by rewrite orb_false_r, andb_true_r.
  - intros Hfull. rewrite (proj2 (Z.leb_le RTAI_NR_SRQS _)); [by eexists|]. apply ffz_full; [|lia].
    intros i Hi. apply not_false_is_true. intros Hb. by apply (Hfull i).
Qed.

(** ** The dispatcher on all processors *)

Lemma ffnz_first m j : 0 <= j < 64 -> Z.testbit m j = true ->
  Z.testbit m (Z.of_nat (ffnz m)) = true /\ (forall i, 0 <= i < Z.of_nat (ffnz m) -> Z.testbit m i = false).
Proof.
  intros Hj Hb. destruct (ffnz_from_first 64 0 m) as (_ & H1 & H2).
  { exists (Z.to_nat j). split; [lia|]. by rewrite Z2Nat.id by lia. }
  split; [exact H1|]. intros i Hi. rewrite <- (Z2Nat.id i) by lia. apply H2. unfold ffnz in Hi. lia.
Qed.

(** The state of all: the lock, where the dispatcher of each processor is, the processors between
    the two accesses of a pend, what was told so far. *)
Record srqs := MkSrqs { sh : hal; slock : bool; spcs : nat -> lsrq_pc; sinpend : list nat; slog : list srq_event }.

(** Of the first [n] processors any may pend a request at any time, be it in a handler; the interrupt of a
    processor whose dispatcher is idle calls it; requests come and go. *)
Inductive smove :=
| Pend (srq : Z) (cpu : nat) | Virq (i : nat) | Start (cpu : nat) | Disp (cpu : nat)
| Tables (m : Z) (t : Z -> sysreq).
Definition smoves (n : nat) (mv : smove) (st : srqs) : option srqs :=
  match mv with
  | Pend srq cpu =>
      if srq_number srq && (cpu <? n)%nat
      then Some (MkSrqs (pend_bit srq (sh st)) (slock st) (spcs st) (cpu :: sinpend st) (slog st ++ [Pended srq])) else None
  | Virq i =>
      if sinpend st !! i is Some cpu
      then Some (MkSrqs (pend_virq cpu (sh st)) (slock st) (spcs st) (delete i (sinpend st)) (slog st)) else None
  | Start cpu =>
      if spcs st cpu is LIdle then
        if srq_pended (sh st) cpu
        then Some (MkSrqs (set_srq_pended (<[cpu := false]> (srq_pended (sh st))) (sh st)) (slock st) (<[cpu := LLock]> (spcs st))
                     (sinpend st) (slog st))
        else None
      else None
  | Disp cpu =>
      if rtai_lsrq_dispatcher (spcs st cpu) (slock st) (sh st) is Some (ev, pc, lock, h)
      then Some (MkSrqs h lock (<[cpu := pc]> (spcs st)) (sinpend st) (slog st ++ ev)) else None
  | Tables m t => Some (MkSrqs (set_table t (set_map m (sh st))) (slock st) (spcs st) (sinpend st) (slog st))
  end.
(** The moves that serve what was pended. *)
Definition serves (mv : smove) : bool := match mv with Virq _ | Start _ | Disp _ => true | _ => false end.
Definition sstep (n : nat) (st st' : srqs) : Prop := exists mv, smoves n mv st = Some st'.
Definition dstep (n : nat) (st st' : srqs) : Prop := exists mv, serves mv = true /\ smoves n mv st = Some st'.

(** The requests that are pended, and those taken but not answered yet; none when something
    is taken that was not pended, or taken twice, or answered and not taken. *)
Definition replay1 (w : option (Z * Z)) (e : srq_event) : option (Z * Z) :=
  match w with
  | Some (p, t) =>
      match e with
      | Pended s => Some (Z.setbit p s, t)
      | Took s => if Z.testbit p s && negb (Z.testbit t s) then Some (Z.clearbit p s, Z.setbit t s) else None
      | Ran _ s _ | Passed s => if Z.testbit t s then Some (p, Z.clearbit t s) else None
      end
  | None => None
  end.
Definition replay (l : list srq_event) : option (Z * Z) := foldl replay1 (Some (0, 0)) l.

(** *** What the dispatchers keep *)

Definition holds (pc : lsrq_pc) : bool :=
  match pc with LTest | LMask _ | LSet _ | LClear _ | LUnlock _ | LEnd => true | _ => false end.
Definition owns (pc : lsrq_pc) : option Z :=
  match pc with LClear s | LUnlock s | LMap s | LCall s | LIn s | LOut s => Some s | _ => None end.
Definition taken (pc : lsrq_pc) : option Z := match pc with LUnlock s | LMap s | LCall s => Some s | _ => None end.
(** The dispatcher is to look at request [i] again. *)
Definition sees (i : Z) (pc : lsrq_pc) : bool :=
  match pc with LIdle | LEnd => false | LMask p => Z.testbit p i | _ => true end.

Definition lock_ok (lock : bool) (pcs : nat -> lsrq_pc) : Prop :=
  (forall c c', holds (pcs c) = true -> holds (pcs c') = true -> c = c') /\
  (lock = true <-> exists c, holds (pcs c) = true).
(** Bit [i] of [m] is set where one processor, and one only, has [f pc = Some i]. *)
Definition owner_ok (f : lsrq_pc -> option Z) (m : Z) (pcs : nat -> lsrq_pc) : Prop :=
  (forall c s, f (pcs c) = Some s -> 0 <= s) /\
  (forall c c' s, f (pcs c) = Some s -> f (pcs c') = Some s -> c = c') /\
  (forall i, Z.testbit m i = true <-> exists c, f (pcs c) = Some i).
Definition chosen_ok (p r : Z) (pc : lsrq_pc) : Prop :=
  match pc with
  | LMask q => forall i, Z.testbit q i = true -> Z.testbit p i = true
  | LSet s => Z.testbit p s = true /\ Z.testbit r s = false
  | LClear s => Z.testbit p s = true
  | _ => True
  end.

Lemma lock_set lock lock' pcs c pc :
  lock_ok lock pcs ->
  (lock' = lock /\ holds pc = holds (pcs c)) \/ (lock = false /\ lock' = true /\ holds pc = true) \/
    (holds (pcs c) = true /\ lock' = false /\ holds pc = false) ->
  lock_ok lock' (<[c := pc]> pcs).
Proof.
  intros [Hu Hl] Hc.
  assert (forall c', c' <> c -> holds ((<[c := pc]> pcs) c') = holds (pcs c')) as Hne.
  { intros c' Hn. by rewrite fn_lookup_insert_ne. }
  assert (holds ((<[c := pc]> pcs) c) = holds pc) as He by (by rewrite fn_lookup_insert).
  split.
  - intros c1 c2. destruct (decide (c1 = c)) as [->|H1], (decide (c2 = c)) as [->|H2]; [done|..];
      rewrite ?He, ?Hne by done; intros Ha Hb; [..|by apply Hu].
    + destruct Hc as [[_ E]|[(Hf & _ & _)|(_ & _ & E)]]; [apply Hu; congruence| |congruence].
      assert (lock = true) by (apply Hl; eauto). congruence.
    + destruct Hc as [[_ E]|[(Hf & _ & _)|(_ & _ & E)]]; [apply Hu; congruence| |congruence].
      assert (lock = true) by (apply Hl; eauto). congruence.
  - destruct Hc as [[-> E]|[(Hf & -> & E)|(E & -> & E')]].
    + rewrite Hl. split; intros [c' Hc']; exists c'; destruct (decide (c' = c)) as [->|];
        rewrite ?He, ?Hne in * by done; congruence.
    + split; [|done]. intros _. exists c. by rewrite He.
    + split; [done|]. intros [c' Hc']. destruct (decide (c' = c)) as [->|Hn]; [congruence|].
      rewrite Hne in Hc' by done. by pose proof (Hu c' c Hc' E).
Qed.

Lemma owner_same f m pcs c pc : owner_ok f m pcs -> f pc = f (pcs c) -> owner_ok f m (<[c := pc]> pcs).
Proof.
  intros Ho Hf. assert (forall c', f ((<[c := pc]> pcs) c') = f (pcs c')) as He.
  { intros c'. destruct (decide (c' = c)) as [->|]; [by rewrite fn_lookup_insert|by rewrite fn_lookup_insert_ne]. }
  destruct Ho as (H1 & H2 & H3). split_and!.
  - intros c' s. rewrite He. apply H1.
  - intros c1 c2 s. rewrite !He. apply H2.
  - intros i. setoid_rewrite He. apply H3.
Qed.
Lemma owner_gets f m pcs c pc s :
  owner_ok f m pcs -> f (pcs c) = None -> f pc = Some s -> 0 <= s -> Z.testbit m s = false ->
  owner_ok f (Z.setbit m s) (<[c := pc]> pcs).
Proof.
  intros (H1 & H2 & H3) Hn Hs Hp Hm.
  assert (forall c', f ((<[c := pc]> pcs) c') = if decide (c' = c) then Some s else f (pcs c')) as He.
  { intros c'. destruct (decide (c' = c)) as [->|]; [by rewrite fn_lookup_insert|by rewrite fn_lookup_insert_ne]. }
  assert (forall c', f (pcs c') <> Some s) as Hno.
  { intros c' E. assert (Z.testbit m s = true) by (apply H3; eauto). congruence. }
  split_and!.
  - intros c' s'. rewrite He. destruct (decide _); [congruence|apply H1].
  - intros c1 c2 s'. rewrite !He. pose proof (Hno c1). pose proof (Hno c2).
    destruct (decide (c1 = c)), (decide (c2 = c)); intros; [congruence..|by eapply H2].
  - intros i. rewrite Z.setbit_eqb, orb_true_iff, H3, Z.eqb_eq by done. setoid_rewrite He. split.
    + intros [->|[c' E]]; [exists c; by rewrite decide_True|]. exists c'. rewrite decide_False; congruence.
    + intros [c' E]. destruct (decide _); [left; congruence|right; eauto].
Qed.
Lemma owner_loses f m pcs c pc s :
  owner_ok f m pcs -> f (pcs c) = Some s -> f pc = None -> owner_ok f (Z.clearbit m s) (<[c := pc]> pcs).
Proof.
  intros (H1 & H2 & H3) Hn Hs.
  assert (forall c', f ((<[c := pc]> pcs) c') = if decide (c' = c) then None else f (pcs c')) as He.
  { intros c'. destruct (decide (c' = c)) as [->|]; [by rewrite fn_lookup_insert|by rewrite fn_lookup_insert_ne]. }
  split_and!.
  - intros c' s'. rewrite He. destruct (decide _); [congruence|apply H1].
  - intros c1 c2 s'. rewrite !He.
    destruct (decide (c1 = c)), (decide (c2 = c)); intros; [congruence..|by eapply H2].
  - intros i. rewrite Z.clearbit_eqb, andb_true_iff, negb_true_iff, H3, Z.eqb_neq. setoid_rewrite He. split.
    + intros [[c' E] Hi]. exists c'. rewrite decide_False; [done|congruence].
    + intros [c' E]. destruct (decide _) as [|Hc]; [done|]. split; [eauto|]. intros ->. by apply Hc, (H2 _ _ i).
Qed.

(** The others of the dispatchers look at what they have chosen under the lock only. *)
Lemma chosen_keep p r p' r' pc :
  chosen_ok p r pc -> (forall i, Z.testbit p i = true -> Z.testbit p' i = true) ->
  (forall i, Z.testbit r' i = true -> Z.testbit r i = true) -> chosen_ok p' r' pc.
Proof.
  intros Hc Hp Hr. destruct pc; cbn in *; try done; auto.
  destruct Hc as [? Hf]. split; [auto|]. destruct (Z.testbit r' srq) eqn:E; [|done]. rewrite (Hr _ E) in Hf. done.
Qed.
Lemma chosen_free p r pc : holds pc = false -> chosen_ok p r pc.
Proof. by destruct pc. Qed.
Lemma chosen_set p r p' r' lock pcs c pc :
  lock_ok lock pcs -> (forall c, chosen_ok p r (pcs c)) -> chosen_ok p' r' pc ->
  holds (pcs c) = true \/ (forall i, Z.testbit p i = true -> Z.testbit p' i = true) /\
    (forall i, Z.testbit r' i = true -> Z.testbit r i = true) ->
  forall c', chosen_ok p' r' ((<[c := pc]> pcs) c').
Proof.
  intros [Hu _] Ha Hc Hk c'. destruct (decide (c' = c)) as [->|Hn]; [by rewrite fn_lookup_insert|].
  rewrite fn_lookup_insert_ne by done. destruct Hk as [Hh|[Hp Hr]]; [|by eapply chosen_keep].
  apply chosen_free. destruct (holds (pcs c')) eqn:E; [|done]. by pose proof (Hu _ _ E Hh).
Qed.

(** All together; the pends that were told, [p] and [t], are those of the state. *)
Definition calls_soon (st : srqs) : Prop := sinpend st <> [] \/ exists c, srq_pended (sh st) c = true.
Record srqs_ok (n : nat) (st : srqs) : Prop := {
  so_range : forall i, Z.testbit (sysreq_pending (sh st)) i = true -> 0 < i < RTAI_NR_SRQS;
  so_lock : lock_ok (slock st) (spcs st);
  so_run : owner_ok owns (sysreq_running (sh st)) (spcs st);
  so_pc : forall c, chosen_ok (sysreq_pending (sh st)) (sysreq_running (sh st)) (spcs st c);
  so_log : exists t, replay (slog st) = Some (sysreq_pending (sh st), t) /\ owner_ok taken t (spcs st);
  so_wake : forall i, Z.testbit (sysreq_pending (sh st)) i = true -> calls_soon st \/ exists c, sees i (spcs st c) = true;
  so_cpus : (forall c, (c ∈ sinpend st \/ srq_pended (sh st) c = true \/ spcs st c <> LIdle) -> (c < n)%nat)
}.

Lemma replay_app l e : replay (l ++ [e]) = replay1 (replay l) e.
Proof. unfold replay. by rewrite foldl_app. Qed.

Lemma pend_ok n st st' srq cpu : smoves n (Pend srq cpu) st = Some st' -> srqs_ok n st -> srqs_ok n st'.
Proof.
  cbn [smoves]. destruct (srq_number srq) eqn:Hs; [|done]. destruct (Nat.ltb_spec cpu n); [|done].
  intros [= <-] [Hr Hl Ho Hp (t & Hg & Ht) Hw Hc].
  apply andb_true_iff in Hs as [H1 H2]. apply Z.ltb_lt in H1, H2.
  assert (forall i, Z.testbit (Z.setbit (sysreq_pending (sh st)) srq) i = true <->
    srq = i \/ Z.testbit (sysreq_pending (sh st)) i = true) as Hb.
  { intros i. rewrite Z.setbit_eqb, orb_true_iff, Z.eqb_eq by lia. done. }
  constructor; cbn; try done.
  - intros i [<-|Hi]%Hb; [done|by apply Hr].
  - intros c. eapply chosen_keep; [apply Hp| |done]. intros i Hi. apply Hb. by right.
  - exists t. split; [|done]. by rewrite replay_app, Hg.
  - intros i _. left. by left.
  - intros c [[->|Hi]%elem_of_cons|Hx]; [done|apply Hc; auto|apply Hc; auto].
Qed.
Lemma tables_ok n st m t : srqs_ok n st -> srqs_ok n (MkSrqs (set_table t (set_map m (sh st))) (slock st) (spcs st) (sinpend st) (slog st)).
Proof. by intros []. Qed.
Lemma virq_ok n st st' i : smoves n (Virq i) st = Some st' -> srqs_ok n st -> srqs_ok n st'.
Proof.
  cbn [smoves]. destruct (sinpend st !! i) as [cpu|] eqn:Hi; [|done].
  intros [= <-] [Hr Hl Ho Hp (t & Hg & Ht) Hw Hc].
  constructor; cbn; try done; [by exists t| |].
  - intros j _. left. right. exists cpu. cbn. by rewrite fn_lookup_insert.
  - intros c Hx. destruct (decide (c = cpu)) as [->|Hn]; [apply Hc; left; by eapply list_elem_of_lookup_2|].
    rewrite fn_lookup_insert_ne in Hx by done. apply Hc. destruct Hx as [Hx|Hx]; [left|by right].
    rewrite (delete_Permutation _ _ _ Hi). by right.
Qed.
Lemma start_ok n st st' cpu : smoves n (Start cpu) st = Some st' -> srqs_ok n st -> srqs_ok n st'.
Proof.
  cbn [smoves]. destruct (spcs st cpu) eqn:Hpc; try done. destruct (srq_pended (sh st) cpu) eqn:Hv; [|done].
  intros [= <-] [Hr Hl Ho Hp (t & Hg & Ht) Hw Hc].
  constructor; cbn; try done.
  - eapply lock_set; [done|]. left. by rewrite Hpc.
  - apply owner_same; [done|]. by rewrite Hpc.
  - eapply chosen_set; [done..|]. by right.
  - exists t. split; [done|]. apply owner_same; [done|]. by rewrite Hpc.
  - intros i Hi. right. exists cpu. by rewrite fn_lookup_insert.
  - intros c Hx. destruct (decide (c = cpu)) as [->|Hn]; [apply Hc; auto|]. rewrite !fn_lookup_insert_ne in Hx by done. by apply Hc.
Qed.

(** A step of a dispatcher that neither ends it nor fixes what it sees leaves somebody who looks. *)
Lemma wake_keep (st : srqs) (h : hal) cpu pc :
  (forall i, Z.testbit (sysreq_pending h) i = true -> Z.testbit (sysreq_pending (sh st)) i = true /\ sees i pc = true) ->
  forall i, Z.testbit (sysreq_pending h) i = true -> exists c, sees i ((<[cpu := pc]> (spcs st)) c) = true.
Proof. intros Hs i Hi. exists cpu. rewrite fn_lookup_insert. by apply Hs. Qed.
(** Where the dispatcher ends, what it has seen pended runs on another processor, which will look again. *)
Lemma wake_end n st cpu p i :
  srqs_ok n st -> spcs st cpu = LMask p -> Z.ldiff p (sysreq_running (sh st)) = 0 ->
  Z.testbit (sysreq_pending (sh st)) i = true -> calls_soon st \/ exists c, sees i ((<[cpu := LEnd]> (spcs st)) c) = true.
Proof.
  intros Hok Hpc Hz Hi. destruct (so_wake _ _ Hok i Hi) as [|[c Hc]]; [by left|right].
  destruct (decide (c = cpu)) as [->|Hn]; [|exists c; by rewrite fn_lookup_insert_ne].
  rewrite Hpc in Hc. cbn in Hc.
  assert (Z.testbit (sysreq_running (sh st)) i = true) as Hr.
  { apply (f_equal (fun m => Z.testbit m i)) in Hz. rewrite Z.ldiff_spec, Hc, Z.testbit_0_l in Hz. cbn in Hz. by apply negb_false_iff. }
  apply (so_run _ _ Hok) in Hr as [c' Hc']. exists c'. rewrite fn_lookup_insert_ne.
  - by destruct (spcs st c').
  - intros ->. by rewrite Hpc in Hc'.
Qed.

(** A step of the dispatcher of [cpu]: what is to be shown of it. *)
Lemma disp_ok_of n st cpu h lock pc ev :
  srqs_ok n st -> spcs st cpu <> LIdle -> srq_pended h = srq_pended (sh st) ->
  (forall i, Z.testbit (sysreq_pending h) i = true -> Z.testbit (sysreq_pending (sh st)) i = true) ->
  (lock = slock st /\ holds pc = holds (spcs st cpu)) \/ (slock st = false /\ lock = true /\ holds pc = true) \/
    (holds (spcs st cpu) = true /\ lock = false /\ holds pc = false) ->
  owner_ok owns (sysreq_running h) (<[cpu := pc]> (spcs st)) ->
  chosen_ok (sysreq_pending h) (sysreq_running h) pc ->
  holds (spcs st cpu) = true \/ (sysreq_pending h = sysreq_pending (sh st) /\
    (forall i, Z.testbit (sysreq_running h) i = true -> Z.testbit (sysreq_running (sh st)) i = true)) ->
  (exists t, replay (slog st ++ ev) = Some (sysreq_pending h, t) /\ owner_ok taken t (<[cpu := pc]> (spcs st))) ->
  (forall i, Z.testbit (sysreq_pending h) i = true -> calls_soon st \/ exists c, sees i ((<[cpu := pc]> (spcs st)) c) = true) ->
  srqs_ok n (MkSrqs h lock (<[cpu := pc]> (spcs st)) (sinpend st) (slog st ++ ev)).
Proof.
  intros Hok Hpc Hv Hsub Hl Hr Hc Hk Hlog Hw. constructor; cbn; try done.
  - intros i Hi. by apply (so_range _ _ Hok), Hsub.
  - eapply lock_set; [apply Hok|done].
  - eapply chosen_set; [apply Hok|apply Hok|done|]. destruct Hk as [|[-> Hk]]; [by left|by right].
  - unfold calls_soon in *. cbn. by rewrite Hv.
  - intros c. rewrite Hv. intros Hx. apply (so_cpus _ _ Hok). destruct (decide (c = cpu)) as [->|]; [by right; right|].
    by rewrite fn_lookup_insert_ne in Hx.
Qed.

Lemma mask_choice n st cpu p : srqs_ok n st -> spcs st cpu = LMask p -> Z.ldiff p (sysreq_running (sh st)) <> 0 ->
  let s := Z.of_nat (ffnz (Z.ldiff p (sysreq_running (sh st)))) in
  Z.testbit (sysreq_pending (sh st)) s = true /\ Z.testbit (sysreq_running (sh st)) s = false /\
  (forall i, 0 <= i < s -> Z.testbit (Z.ldiff p (sysreq_running (sh st))) i = false).
Proof.
  intros Hok Hpc Hz. pose proof (so_pc _ _ Hok cpu) as Hc. rewrite Hpc in Hc. cbn in Hc.
  assert (exists j, 0 <= j /\ Z.testbit (Z.ldiff p (sysreq_running (sh st))) j = true) as (j & Hj & Hb).
  { destruct (bool_decide (Forall (fun j => Z.testbit (Z.ldiff p (sysreq_running (sh st))) j = false) (seqZ 0 32))) eqn:E.
    - exfalso. apply Hz, Z.bits_inj'. intros i Hi. rewrite Z.testbit_0_l.
      destruct (Z.testbit (Z.ldiff p _) i) eqn:Ei; [|done]. exfalso.
      apply bool_decide_eq_true in E. rewrite Forall_forall in E.
      assert (Hp : Z.testbit p i = true) by (rewrite Z.ldiff_spec, andb_true_iff in Ei; apply Ei).
      apply Hc, (so_range _ _ Hok) in Hp. unfold RTAI_NR_SRQS in Hp. rewrite E in Ei; [done|]. apply elem_of_seqZ. lia.
    - apply bool_decide_eq_false in E. apply not_Forall_Exists in E; [|intros ?; apply _].
      apply Exists_exists in E as (j & Hj & Hb). apply elem_of_seqZ in Hj. exists j. split; [lia|]. by apply not_false_iff_true. }
  assert (j < 64).
  { rewrite Z.ldiff_spec, andb_true_iff in Hb. destruct Hb as [Hp _]. apply Hc, (so_range _ _ Hok) in Hp. unfold RTAI_NR_SRQS in Hp. lia. }
  destruct (ffnz_first _ j ltac:(lia) Hb) as [H1 H2]. cbn zeta. split_and!; [| |exact H2].
  - rewrite Z.ldiff_spec, andb_true_iff in H1. apply Hc, H1.
  - rewrite Z.ldiff_spec, andb_true_iff, negb_true_iff in H1. apply H1.
Qed.

Lemma clearbit_sub m s i : Z.testbit (Z.clearbit m s) i = true -> Z.testbit m i = true.
Proof. rewrite Z.clearbit_eqb, andb_true_iff. by intros []. Qed.
Lemma took_ok n st cpu s t :
  srqs_ok n st -> spcs st cpu = LClear s -> replay (slog st) = Some (sysreq_pending (sh st), t) -> owner_ok taken t (spcs st) ->
  exists t, replay (slog st ++ [Took s]) = Some (Z.clearbit (sysreq_pending (sh st)) s, t) /\
    owner_ok taken t (<[cpu := LUnlock s]> (spcs st)).
Proof.
  intros Hok Hpc Hg Ht. pose proof (so_pc _ _ Hok cpu) as Hp. rewrite Hpc in Hp. cbn in Hp.
  destruct (so_run _ _ Hok) as (H0 & H1 & _).
  assert (Z.testbit t s = false) as Hts.
  { apply not_true_iff_false. intros [c Hc]%Ht. assert (c = cpu) as ->; [|by rewrite Hpc in Hc].
    apply (H1 _ _ s); [by destruct (spcs st c)|by rewrite Hpc]. }
  exists (Z.setbit t s). rewrite replay_app, Hg. cbn [replay1]. rewrite Hp, Hts. split; [done|].
  apply owner_gets; [done|by rewrite Hpc|done|apply (H0 cpu); by rewrite Hpc|done].
Qed.
Lemma answered_ok n st cpu s t pc e :
  srqs_ok n st -> taken (spcs st cpu) = Some s -> taken pc = None -> replay (slog st) = Some (sysreq_pending (sh st), t) ->
  owner_ok taken t (spcs st) -> (e = Passed s \/ exists f l, e = Ran f s l) ->
  exists t, replay (slog st ++ [e]) = Some (sysreq_pending (sh st), t) /\ owner_ok taken t (<[cpu := pc]> (spcs st)).
Proof.
  intros Hok Hpc Hn Hg Ht He. assert (Z.testbit t s = true) as Hts by (apply Ht; eauto).
  exists (Z.clearbit t s). rewrite replay_app, Hg.
  split; [destruct He as [->|(f & l & ->)]; cbn [replay1]; by rewrite Hts|by apply owner_loses].
Qed.
Lemma disp_ok n st st' cpu : smoves n (Disp cpu) st = Some st' -> srqs_ok n st -> srqs_ok n st'.
Proof.
  cbn [smoves]. intros Hm Hok. pose proof (so_pc _ _ Hok cpu) as Hch. pose proof (so_log _ _ Hok) as (t & Hg & Ht).
  pose proof (so_run _ _ Hok) as Hrun. pose proof (so_lock _ _ Hok) as [_ Hlk].
  assert (holds (spcs st cpu) = true -> slock st = true) as Hh by (intros; apply Hlk; eauto).
  assert (exists t, replay (slog st ++ []) = Some (sysreq_pending (sh st), t) /\ owner_ok taken t (spcs st)) as Hsame
    by (exists t; by rewrite app_nil_r).
  destruct (spcs st cpu) as [| | |p|s|s|s|s|s|s|s|] eqn:Hpc; cbn [rtai_lsrq_dispatcher chosen_ok holds] in Hm, Hch, Hh; [done|..].
  1: destruct (slock st) eqn:Hlock; [done|].
  3: destruct (Z.eqb_spec (Z.ldiff p (sysreq_running (sh st))) 0) as [Hz|Hz];
    [|pose proof (mask_choice _ _ _ _ Hok Hpc Hz) as Hs; cbn zeta in Hs; set (s := Z.of_nat (ffnz _)) in *; clearbody s].
  8: destruct (srq_bit s (sysreq_map (sh st))).
  all: injection Hm as <-; apply disp_ok_of; rewrite ?Hpc, ?Hlock; try done; cbn; auto;
    try (apply owner_same; [done|by rewrite Hpc]);
    try (exists t; rewrite app_nil_r; split; [done|apply owner_same; [done|by rewrite Hpc]]);
    try (intros i Hi; right; exists cpu; by rewrite fn_lookup_insert).
  - intros i Hi. by eapply wake_end.
  - split; apply Hs.
  - apply owner_gets; [done|by rewrite Hpc|done| |apply Hch].
    destruct Hch as [Hp _]. apply (so_range _ _ Hok) in Hp. lia.
  - apply Hch.
  - apply clearbit_sub.
  - by eapply took_ok.
  - eapply answered_ok; [done|by rewrite Hpc|done..|by left].
  - eapply answered_ok; [done|by rewrite Hpc|done..|by right; eexists _, _].
  - apply owner_loses; [done|by rewrite Hpc|done].
  - right. split; [done|apply clearbit_sub].
  - intros i Hi. destruct (so_wake _ _ Hok i Hi) as [|[c Hc]]; [by left|right]. exists c.
    rewrite fn_lookup_insert_ne; [done|]. intros ->. by rewrite Hpc in Hc.
Qed.

Lemma sstep_ok n st st' : sstep n st st' -> srqs_ok n st -> srqs_ok n st'.
Proof.
  intros [[srq cpu|i|cpu|cpu|m t] Hm]; [by eapply pend_ok|by eapply virq_ok|by eapply start_ok|by eapply disp_ok|].
  injection Hm as <-. apply tables_ok.
Qed.
Lemma dstep_sstep n st st' : dstep n st st' -> sstep n st st'.
Proof. intros (mv & _ & Hm). by exists mv. Qed.
Lemma sreachable_ok n st st' : rtc (sstep n) st st' -> srqs_ok n st -> srqs_ok n st'.
Proof. induction 1; eauto using sstep_ok. Qed.

(** Nothing pended, every dispatcher idle. *)
Definition srq_start (h : hal) : srqs := MkSrqs h false (fun _ => LIdle) [] [].
Definition nothing_pended (h : hal) : Prop :=
  sysreq_pending h = 0 /\ sysreq_running h = 0 /\ (forall c, srq_pended h c = false).
Lemma srq_start_ok n h : nothing_pended h -> srqs_ok n (srq_start h).
Proof.
  intros (Hp & Hr & Hv). constructor; cbn; try done; rewrite ?Hp, ?Hr.
  - intros i. by rewrite Z.testbit_0_l.
  - split; [done|]. split; [done|]. by intros [].
  - split_and!; try done. intros i. rewrite Z.testbit_0_l. split; [done|]. by intros [].
  - exists 0. split; [done|]. split_and!; try done. intros i. rewrite Z.testbit_0_l. split; [done|]. by intros [].
  - intros i. by rewrite Z.testbit_0_l.
  - intros c [Hc|[Hc|Hc]]; [by apply elem_of_nil in Hc|by rewrite Hv in Hc|done].
Qed.

(** *** It ends, once nothing more is pended *)

Definition rank (pc : lsrq_pc) : nat :=
  match pc with
  | LIdle => 0 | LEnd => 1 | LClear _ => 1 | LSet _ => 2 | LMask _ => 3 | LTest => 4 | LLock => 5
  | LOut _ => 6 | LIn _ => 7 | LCall _ => 8 | LMap _ => 9 | LUnlock _ => 10
  end.
Definition cost (st : srqs) (c : nat) : nat := rank (spcs st c) + (if srq_pended (sh st) c then 6 else 0).
Definition pend_cost (p : Z) (i : nat) : nat := if Z.testbit p (Z.of_nat i) then 10 else 0.
Definition work (n : nat) (st : srqs) : nat :=
  7 * length (sinpend st) + sum_list (map (cost st) (seq 0 n)) + sum_list (map (pend_cost (sysreq_pending (sh st))) (seq 0 32)).

Lemma sum_change (f g : nat -> nat) c k n :
  (k <= c < k + n)%nat -> (forall i, i <> c -> g i = f i) ->
  (sum_list (map g (seq k n)) + f c = sum_list (map f (seq k n)) + g c)%nat.
Proof.
  intros Hc Hne. revert k Hc. induction n as [|n IH]; intros k Hc; [lia|]. cbn.
  destruct (decide (c = k)) as [->|Hk].
  - assert (map g (seq (S k) n) = map f (seq (S k) n)) as ->; [|lia].
    apply map_ext_in. intros i [Hi _]%in_seq. apply Hne. lia.
  - rewrite (Hne k) by lia. specialize (IH (S k) ltac:(lia)). lia.
Qed.
Lemma pend_cost_clear p s :
  0 <= s < 32 -> Z.testbit p s = true ->
  (sum_list (map (pend_cost (Z.clearbit p s)) (seq 0 32)) + 10 = sum_list (map (pend_cost p) (seq 0 32)))%nat.
Proof.
  intros Hs Hp. pose proof (sum_change (pend_cost p) (pend_cost (Z.clearbit p s)) (Z.to_nat s) 0 32 ltac:(lia)) as Hc.
  assert (pend_cost p (Z.to_nat s) = 10%nat) as H1 by (unfold pend_cost; by rewrite Z2Nat.id, Hp by lia).
  assert (pend_cost (Z.clearbit p s) (Z.to_nat s) = 0%nat) as H2.
  { unfold pend_cost. by rewrite Z2Nat.id, Z.clearbit_eqb, Z.eqb_refl, andb_false_r by lia. }
  rewrite H1, H2, Nat.add_0_r in Hc. apply Hc. intros i Hi. unfold pend_cost. rewrite Z.clearbit_eqb.
  rewrite (proj2 (Z.eqb_neq s (Z.of_nat i))) by lia. by rewrite andb_true_r.
Qed.

Lemma disp_rank n st cpu ev pc lock h :
  srqs_ok n st -> rtai_lsrq_dispatcher (spcs st cpu) (slock st) (sh st) = Some (ev, pc, lock, h) ->
  srq_pended h = srq_pended (sh st) /\
  (rank pc + sum_list (map (pend_cost (sysreq_pending h)) (seq 0 32)) <
   rank (spcs st cpu) + sum_list (map (pend_cost (sysreq_pending (sh st))) (seq 0 32)))%nat.
Proof.
  intros Hok Hd. pose proof (so_pc _ _ Hok cpu) as Hc.
  destruct (spcs st cpu) as [| | |p|s|s|s|s|s|s|s|]; cbn [rtai_lsrq_dispatcher chosen_ok] in Hd, Hc; [done|..].
  1: destruct (slock st); [done|].
  7: destruct (srq_bit s (sysreq_map (sh st))).
  all: injection Hd as <- <- <- <-; (split; [done|]);
    cbn [rank sysreq_pending set_pending set_running set_called]; try lia.
  - destruct (_ =? 0); cbn [rank]; lia.
  - pose proof (so_range _ _ Hok s Hc) as Hs. unfold RTAI_NR_SRQS in Hs.
    pose proof (pend_cost_clear (sysreq_pending (sh st)) s ltac:(lia) Hc). cbn [sysreq_pending set_pending]. lia.
Qed.

(** The work after a change at [c] *)
Lemma work_change n st st' c :
  (c < n)%nat -> (forall i, i <> c -> spcs st' i = spcs st i /\ srq_pended (sh st') i = srq_pended (sh st) i) ->
  (cost st' c + 7 * length (sinpend st') + sum_list (map (pend_cost (sysreq_pending (sh st'))) (seq 0 32)) <
   cost st c + 7 * length (sinpend st) + sum_list (map (pend_cost (sysreq_pending (sh st))) (seq 0 32)))%nat ->
  (work n st' < work n st)%nat.
Proof.
  intros Hc Hne Hlt. unfold work. pose proof (sum_change (cost st) (cost st') c 0 n ltac:(lia)) as Hs.
  lapply Hs; [lia|]. intros i Hi. unfold cost. by destruct (Hne i Hi) as [-> ->].
Qed.
Lemma dstep_work n st st' : srqs_ok n st -> dstep n st st' -> (work n st' < work n st)%nat.
Proof.
  intros Hok ([srq cpu|i|cpu|cpu|m t] & Hs & Hm); try done; cbn [smoves] in Hm.
  - destruct (sinpend st !! i) as [cpu|] eqn:Hi; [|done]. injection Hm as <-.
    apply work_change with cpu; unfold cost; cbn.
    + apply (so_cpus _ _ Hok). left. by eapply list_elem_of_lookup_2.
    + intros j Hj. by rewrite fn_lookup_insert_ne.
    + pose proof (lookup_lt_Some _ _ _ Hi). rewrite length_delete, fn_lookup_insert by done.
      destruct (srq_pended (sh st) cpu); lia.
  - destruct (spcs st cpu) eqn:Hpc; try done. destruct (srq_pended (sh st) cpu) eqn:Hv; [|done]. injection Hm as <-.
    apply work_change with cpu; unfold cost; cbn.
    + apply (so_cpus _ _ Hok). auto.
    + intros j Hj. by rewrite !fn_lookup_insert_ne.
    + rewrite !fn_lookup_insert, Hpc, Hv. cbn. lia.
  - destruct (rtai_lsrq_dispatcher _ _ _) as [[[[ev pc] lock] h]|] eqn:Hd; [|done]. injection Hm as <-.
    destruct (disp_rank _ _ _ _ _ _ _ Hok Hd) as [Hv Hr].
    apply work_change with cpu; unfold cost; cbn -[seq].
    + apply (so_cpus _ _ Hok). right; right. intros E. by rewrite E in Hd.
    + intros j Hj. by rewrite fn_lookup_insert_ne, Hv.
    + rewrite fn_lookup_insert, Hv. lia.
Qed.
Lemma dsteps_bound n st st' k : srqs_ok n st -> nsteps (dstep n) k st st' -> (k + work n st' <= work n st)%nat.
Proof.
  intros Hok Hn. induction Hn as [|k st st1 st' Hs _ IH]; [done|].
  pose proof (dstep_work _ _ _ Hok Hs). specialize (IH (sstep_ok _ _ _ (dstep_sstep _ _ _ Hs) Hok)). lia.
Qed.

Definition all_served (st : srqs) : Prop :=
  (forall c, spcs st c = LIdle) /\ nothing_pended (sh st) /\ sinpend st = [] /\ replay (slog st) = Some (0, 0).

Lemma no_pends m : (forall i, Z.testbit m i = true -> False) -> m = 0.
Proof.
  intros Hm. apply Z.bits_inj'. intros i _. rewrite Z.testbit_0_l. destruct (Z.testbit m i) eqn:E; [by destruct (Hm i)|done].
Qed.
Lemma disp_goes n st cpu : spcs st cpu <> LIdle -> (spcs st cpu = LLock -> slock st = false) -> exists st', dstep n st st'.
Proof.
  intros Hi Hl. assert (exists x, rtai_lsrq_dispatcher (spcs st cpu) (slock st) (sh st) = Some x) as [[[[ev pc] lock] h] Hx].
  { destruct (spcs st cpu); cbn; eauto; [done|rewrite Hl by done; eauto|destruct (srq_bit _ _); eauto]. }
  eexists. exists (Disp cpu). split; [done|]. cbn [smoves]. by rewrite Hx.
Qed.
#[export] Instance lsrq_pc_eq_dec : EqDecision lsrq_pc.
Proof. solve_decision. Defined.
Lemma serves_or_done n st : srqs_ok n st -> (exists st', dstep n st st') \/ all_served st.
Proof.
  intros Hok. destruct (sinpend st) as [|cpu l] eqn:Hin.
  2: { left. eexists. exists (Virq 0). split; [done|]. cbn [smoves]. by rewrite Hin. }
  destruct (slock st) eqn:Hlock.
  { left. apply (so_lock _ _ Hok) in Hlock as [c Hc]. eapply (disp_goes _ _ c); intros E; by rewrite E in Hc. }
  destruct (decide (Exists (fun c => spcs st c <> LIdle \/ srq_pended (sh st) c = true) (seq 0 n))) as [He|He].
  - left. apply Exists_exists in He as (c & _ & Hc). destruct (decide (spcs st c = LIdle)) as [Hi|Hi]; [|by apply (disp_goes _ _ c)].
    destruct Hc as [|Hc]; [done|]. eexists. exists (Start c). split; [done|]. cbn [smoves]. by rewrite Hi, Hc.
  - right. assert (forall c, spcs st c = LIdle /\ srq_pended (sh st) c = false) as Hq.
    { intros c. rewrite <- Forall_Exists_neg, Forall_forall in He.
      assert ((c < n)%nat -> ~ (spcs st c <> LIdle \/ srq_pended (sh st) c = true)) as Hc
        by (intros; apply He, elem_of_seq; lia).
      pose proof (so_cpus _ _ Hok c) as Hcpu.
      destruct (decide (spcs st c = LIdle)); [|exfalso; apply Hc; auto].
      destruct (srq_pended (sh st) c) eqn:E; [exfalso; apply Hc; auto|done]. }
    assert (sysreq_pending (sh st) = 0) as Hp.
    { apply no_pends. intros i Hi. destruct (so_wake _ _ Hok i Hi) as [[|[c Hc]]|[c Hc]]; [done|..].
      - destruct (Hq c). congruence.
      - destruct (Hq c) as [E _]. by rewrite E in Hc. }
    destruct (so_log _ _ Hok) as (t & Hg & Ht).
    split_and!; [apply Hq| |done|].
    + split_and!; [done| |apply Hq]. apply no_pends. intros i [c Hc]%(so_run _ _ Hok).
      destruct (Hq c) as [E _]. by rewrite E in Hc.
    + rewrite Hg, Hp. do 2 f_equal. apply no_pends. intros i [c Hc]%Ht. destruct (Hq c) as [E _]. by rewrite E in Hc.
Qed.

(** What a move tells of a request is so. *)
Lemma told_true n st st1 e : sstep n st st1 -> slog st1 = slog st ++ [e] ->
  match e with
  | Ran f s l => f = k_handler (sysreq_table (sh st) s) /\ l = label (sysreq_table (sh st) s)
  | Passed s => srq_bit s (sysreq_map (sh st)) = false
  | Pended s => srq_number s = true
  | Took _ => True
  end.
Proof.
  intros [mv Hm] Hl. assert (forall ev, slog st1 = slog st ++ ev -> ev = [e]) as Hev.
  { intros ev Hx. rewrite Hx in Hl. by apply app_inv_head in Hl. }
  assert (slog st1 = slog st -> False) as Hno by (intros Hx; rewrite <- (app_nil_r (slog st)) in Hx at 1; by apply Hev in Hx).
  destruct mv as [srq cpu|i|cpu|cpu|m t]; cbn [smoves] in Hm.
  - destruct (srq_number srq) eqn:Hs; [|done]. destruct (_ <? _)%nat; [|done]. injection Hm as <-.
    by pose proof (Hev _ eq_refl) as [= <-].
  - destruct (_ !! _); [|done]. injection Hm as <-. by destruct Hno.
  - destruct (spcs st cpu); try done. destruct (srq_pended _ _); [|done]. injection Hm as <-. by destruct Hno.
  - destruct (rtai_lsrq_dispatcher _ _ _) as [[[[ev pc] lock] h]|] eqn:Hd; [|done]. injection Hm as <-.
    pose proof (Hev _ eq_refl) as ->.
    destruct (spcs st cpu); cbn [rtai_lsrq_dispatcher] in Hd; try done.
    + by destruct (slock st).
    + by injection Hd as <- _ _ _.
    + destruct (srq_bit srq (sysreq_map (sh st))) eqn:Hb; [done|]. by injection Hd as <- _ _ _.
    + by injection Hd as <- _ _ _.
  - injection Hm as <-. by destruct Hno.
Qed.

(** C28. Service requests, pended at any time and on any processor, by a handler too, while the
    dispatchers of all processors run and requests come and go.  Two processors never serve one
    request at the same time.  What was told so far can be replayed: a request is taken only if it was pended since it was last
    taken, is not taken again before it is answered, and each taking is answered once, by the handler
    and label the table has then, or by nothing when the request does not exist then.  A dispatcher takes the lowest number
    of those pended that no other serves.  When nothing more is pended the dispatchers end, after a bounded number
    of steps, and cannot stop before all is served: every pend was followed by a taking and its answer. *)
Theorem lsrq_dispatcher_runs n h st :
  nothing_pended h -> rtc (sstep n) (srq_start h) st ->
  (forall c c' s, owns (spcs st c) = Some s -> owns (spcs st c') = Some s -> c = c') /\
  (exists t, replay (slog st) = Some (sysreq_pending (sh st), t)) /\
  (forall st1 e, sstep n st st1 -> slog st1 = slog st ++ [e] ->
     match e with
     | Ran f s l => f = k_handler (sysreq_table (sh st) s) /\ l = label (sysreq_table (sh st) s)
     | Passed s => srq_bit s (sysreq_map (sh st)) = false
     | _ => True
     end) /\
  (forall c s, spcs st c = LMask s -> Z.ldiff s (sysreq_running (sh st)) <> 0 ->
     exists st1 k, smoves n (Disp c) st = Some st1 /\ spcs st1 c = LSet k /\ Z.testbit (sysreq_pending (sh st)) k = true /\
       (forall i, 0 <= i < k -> Z.testbit (Z.ldiff s (sysreq_running (sh st))) i = false)) /\
  (forall k st', nsteps (dstep n) k st st' -> (k <= work n st)%nat) /\
  (forall st', rtc (dstep n) st st' -> (exists st'', dstep n st' st'') \/ all_served st').
Proof.
  intros Hn Hr. pose proof (sreachable_ok _ _ _ Hr (srq_start_ok n h Hn)) as Hok. split_and!.
  - apply (so_run _ _ Hok).
  - destruct (so_log _ _ Hok) as (t & Hg & _). by exists t.
  - intros st1 e Hs Hl. pose proof (told_true _ _ _ _ Hs Hl). by destruct e.
  - intros c p Hc Hz. destruct (mask_choice _ _ _ _ Hok Hc Hz) as (H1 & _ & H2).
    eexists _, _. cbn [smoves]. rewrite Hc. cbn [rtai_lsrq_dispatcher]. rewrite (proj2 (Z.eqb_neq _ _) Hz).
    split; [done|]. cbn [spcs]. rewrite fn_lookup_insert. by split_and!.
  - intros k st' Hk. pose proof (dsteps_bound _ _ _ _ Hok Hk). lia.
  - intros st' Hd. apply serves_or_done. eapply sreachable_ok; [|exact Hok].
    eapply rtc_subrel; [|exact Hd]. apply dstep_sstep.
Qed.

(** ** At work *)

(** Requests 1 and 2 exist and 4 does not; request 1 is pended again while its handler runs; the
    other processor, called for that, takes request 2 and leaves 1 to the first one. *)
Definition hal0 : hal :=
  MkHal 7 0 0 (fun srq => MkSysreq (100 + srq) 0 (200 + srq)) (fun _ => false) (fun _ => 0) (fun _ => 0) (fun _ => 0) (fun _ => 0)
    (fun _ => 0) (fun _ => (0, 0)) (fun _ => None) [] 0 (fun _ => MkTimes 0 0 0 0 0) 0 [].
Fixpoint srun (n : nat) (mvs : list smove) (st : srqs) : srqs :=
  match mvs with
  | [] => st
  | mv :: mvs => match smoves n mv st with Some st' => srun n mvs st' | None => st end
  end.
Lemma srun_rtc n mvs st : rtc (sstep n) st (srun n mvs st).
Proof.
  revert st. induction mvs as [|mv mvs IH]; intros st; cbn; [done|].
  destruct (smoves n mv st) eqn:Hm; [|done]. eapply rtc_l; [by exists mv|apply IH].
Qed.
Definition ex_srqs : srqs :=
  srun 2 ([Pend 4 0; Pend 2 0; Pend 1 1; Virq 0; Start 1] ++ replicate 8 (Disp 1) ++ [Pend 1 0; Virq 0; Start 0] ++
          replicate 8 (Disp 0) ++ replicate 10 (Disp 1)) (srq_start hal0).
Example pended_in_handler :
  slog ex_srqs = [Pended 4; Pended 2; Pended 1; Took 1; Ran 101 1 201; Pended 1; Took 2; Ran 102 2 202; Took 1; Ran 101 1 201].
Proof. vm_compute. reflexivity. Qed.
Lemma lsrq_dispatcher_runs_witness :
  nothing_pended hal0 /\ rtc (sstep 2) (srq_start hal0) ex_srqs /\
  (exists t, replay (slog ex_srqs) = Some (sysreq_pending (sh ex_srqs), t)).
Proof.
  destruct (lsrq_dispatcher_runs 2 hal0 ex_srqs) as (_ & H & _); [done|apply srun_rtc|].
  split; [done|]. split; [apply srun_rtc|exact H].
Defined.
