(* ===== verification/FifoDev.v ===== *)
(** * The device file of the FIFOs and FIFOs by name: fifos.c.

    The commands of [rtf_ioctl], the other entries of the device file, the services
    of user space tasks, and the names. A buffer to be written is the list of its bytes; a name is
    its characters without the terminator. *)

From S2P Require Import Prelude Resume Ring MbxRing Fifo.
#[local] Open Scope Z_scope.

Definition RTF_NAMELEN := 15.
Definition DEFAULT_SIZE := 1000.
Definition ENOTTY := 25.
Definition POLLIN := 1.
Definition POLLOUT := 4.
Definition POLLRDNORM := 0x40.
Definition POLLWRNORM := 0x100.

(** ** Names *)

(** [!strncmp(a, b, RTF_NAMELEN)]. *)
Definition same_name (a b : list byte) : bool := bool_decide (ztake RTF_NAMELEN a = ztake RTF_NAMELEN b).

(** The walk of [rtf_named_create] over the [n] FIFOs from [minor] on: the first free one, if the
    name does not come before. *)
Fixpoint free_minor (n minor : nat) (nm : list byte) (s : fst) : option nat :=
  match n with
  | O => None
  | S n =>
      if same_name nm (fname (fifos s minor)) then None
      else if (opncnt (fifos s minor) =? 0) && bool_decide (fname (fifos s minor) = []) then Some minor
      else free_minor n (S minor) nm s
  end.
Definition rtf_named_create (fuel : nat) (nm : list byte) (sz : Z) (mem : option (list byte)) (s : fst) : res fst Z :=
  if RTF_NAMELEN <? zlen nm then Done (- EINVAL) s
  else match free_minor (Z.to_nat MAX_FIFOS) 0 nm s with
  | None => Done (- EBUSY) s
  | Some minor =>
      let s := fifo_set (set_fname nm) minor s in
      let* (err, s) := rtf_create fuel (Z.of_nat minor) sz mem s in
      if err <? 0 then Done err (fifo_set (set_fname []) minor s) else Done (Z.of_nat minor) s
  end.
Definition rtf_create_named (fuel : nat) (nm : list byte) (mem : option (list byte)) (s : fst) : res fst Z :=
  rtf_named_create fuel nm DEFAULT_SIZE mem s.

Definition named_minor (nm : list byte) (s : fst) (minor : nat) : bool :=
  negb (opncnt (fifos s minor) =? 0) && same_name nm (fname (fifos s minor)).
Definition rtf_getfifobyname (nm : list byte) (s : fst) : Z :=
  if RTF_NAMELEN <? zlen nm then - EINVAL
  else match list_find (fun m => named_minor nm s m = true) (seq 0 (Z.to_nat MAX_FIFOS)) with
       | Some (_, m) => Z.of_nat m
       | None => - ENODEV
       end.

(** ** Services of user space tasks *)

Definition rtf_ovrwr_put_user : Z -> list byte -> fst -> Z * fst := rtf_ovrwr_put.
Definition rtf_put_user : Z -> list byte -> fst -> Z * fst := rtf_put.
Definition rtf_get_user : Z -> Z -> fst -> Z * list byte * fst := rtf_get.
Definition rtf_put_if_user : Z -> list byte -> fst -> Z * fst := rtf_put_if.
Definition rtf_get_if_user : Z -> Z -> fst -> Z * list byte * fst := rtf_get_if.

(** ** The device file *)

Definition rtf_open (fuel minor : nat) (mem : option (list byte)) (s : fst) : res fst Z :=
  rtf_create fuel (Z.of_nat minor) DEFAULT_SIZE mem s.
(** Sleepers in poll are woken; the release of the asynchronous notification is Linux'. *)
Definition rtf_release (minor : nat) (s : fst) : Z * fst := rtf_destroy (Z.of_nat minor) s.
Definition rtf_poll (minor : nat) (s : fst) : Z :=
  let b := fbuf (fifos s minor) in
  Z.lor (if avbs b =? 0 then 0 else Z.lor POLLIN POLLRDNORM) (if frbs b =? 0 then 0 else Z.lor POLLOUT POLLWRNORM).
Definition rtf_llseek (fuel minor : nat) (s : fst) : res fst Z := rtf_reset fuel (Z.of_nat minor) s.

Record fifo_info := MkInfo {
  fifo_number : nat; info_size : Z; info_opncnt : Z; info_avbs : Z; info_frbs : Z; info_name : list byte
}.
(** The commands with what they bring; memory for a buffer is what the kernel had to give. *)
Inductive fifo_cmd :=
| RESET | RESIZE (sz : Z) (mem : option (list byte)) | SUSPEND_TIMED (delay : Z) | OPEN_SIZED (sz : Z) (mem : option (list byte))
| READ_ALL_AT_ONCE (cnt : Z) | EAVESDROP (cnt : Z) | READ_TIMED (cnt delay : Z) | READ_IF (cnt : Z)
| WRITE_TIMED (msg : list byte) (delay : Z) | WRITE_IF (msg : list byte) | OVRWRITE (msg : list byte)
| RTF_SEM_INIT (value : Z) | RTF_SEM_WAIT | RTF_SEM_TRYWAIT | RTF_SEM_TIMED_WAIT (delay : Z) | RTF_SEM_POST | RTF_SEM_DESTROY
| SET_ASYNC_SIG (sig : Z) | FIONREAD
| RTF_GET_N_FIFOS | RTF_GET_FIFO_INFO (first n : Z)
| RTF_NAMED_CREATE (nm : list byte) (sz : Z) (mem : option (list byte)) | RTF_CREATE_NAMED (nm : list byte) (mem : option (list byte))
| RTF_NAME_LOOKUP (nm : list byte) | TCGETS | OtherCmd.
(** What goes to the user besides the result. *)
Inductive reply := NoReply | Bytes (l : list byte) | Number (n : Z) | Infos (l : list fifo_info).

(** The state with the signal of the module. *)
Record fdev := MkFdev { dfst : fst; async_sig : Z }.
Definition set_dfst (s : fst) (d : fdev) : fdev := MkFdev s (async_sig d).
Definition on_fst {A} (r : res fst A) (d : fdev) : res fdev A := within dfst set_dfst r d.

Section ioctl.
(** [hret] is what the handler of the FIFO returns; [fuel] bounds the turns of a transfer. *)
Context (fuel : nat) (hret : Z).
(** The result of a transfer of [count] bytes, of which [rest] were not moved. *)
Definition handled (count : Z) : Z := if hret <? 0 then hret else count.
Definition after_read (cnt rest : Z) (out : list byte) (s : fst) : res fst (Z * reply) :=
  let count := cnt - rest in
  Done (if negb (count =? 0) then handled count else 0, Bytes out) s.

Definition info_of (s : fst) (i : nat) : fifo_info :=
  let f := fifos s i in
  MkInfo i (size (fbuf f)) (opncnt f) (avbs (fbuf f)) (frbs (fbuf f)) (fname f).
(** [i] from [first] while it is a FIFO and fewer than [n] were told. *)
Definition infos (first n : Z) (s : fst) : list fifo_info :=
  map (info_of s) (seq (Z.to_nat first) (Z.to_nat (Z.min n (MAX_FIFOS - first)))).

Definition simple (r : res fst Z) : res fst (Z * reply) := let* (r, s) := r in Done (r, NoReply) s.

Definition ioctl_fst (minor : nat) (cmd : fifo_cmd) (s : fst) : res fst (Z * reply) :=
  match cmd with
  | RESET => simple (rtf_reset fuel (Z.of_nat minor) s)
  | RESIZE sz mem => simple (rtf_resize fuel (Z.of_nat minor) sz mem s)
  | SUSPEND_TIMED _ =>
      sched* s := stop LinuxSleep s in
      Done (if sigpend s (current s) then - ERESTARTSYS else 0, NoReply) s
  | OPEN_SIZED sz mem => simple (rtf_create fuel (Z.of_nat minor) sz mem s)
  | READ_ALL_AT_ONCE cnt => let* (ro, s) := mbx_receive fuel minor cnt s in after_read cnt ro.1 ro.2 s
  | EAVESDROP cnt => let '(out, rest) := mbx_evdrp (fbuf (fifos s minor)) cnt in Done (cnt - rest, Bytes out) s
  | READ_TIMED cnt delay =>
      if delay =? 0 then
        let '(rest, out, s) := mbx_receive_wp minor cnt s in
        if cnt - rest =? 0 then Done (- EAGAIN, Bytes out) s else after_read cnt rest out s
      else let* (ro, s) := mbx_receive_timed fuel minor cnt s in after_read cnt ro.1 ro.2 s
  | READ_IF cnt => let '(rest, out, s) := mbx_receive_if minor cnt s in after_read cnt rest out s
  | WRITE_TIMED msg delay =>
      if delay =? 0 then
        let '(rest, s) := mbx_send_wp minor msg s in
        if zlen msg - rest =? 0 then Done (- EAGAIN, NoReply) s else Done (handled (zlen msg - rest), NoReply) s
      else let* (rest, s) := mbx_send_timed fuel minor msg s in Done (handled (zlen msg - rest), NoReply) s
  | WRITE_IF msg =>
      if negb (zlen msg =? 0) then
        let '(rest, s) := mbx_send_wp minor msg s in
        if zlen msg - rest =? 0 then Done (- EAGAIN, NoReply) s else Done (handled (zlen msg - rest), NoReply) s
      else Done (handled 0, NoReply) s
  | OVRWRITE msg => let '(r, s) := mbx_ovrwr_send minor msg s in Done (r, NoReply) s
  | RTF_SEM_INIT value => Done (0, NoReply) (mbx_sem_init (FSem minor) value s)
  | RTF_SEM_WAIT => simple (mbx_sem_wait (FSem minor) s)
  | RTF_SEM_TRYWAIT => let '(r, s) := mbx_sem_wait_if (FSem minor) s in Done (r, NoReply) s
  | RTF_SEM_TIMED_WAIT _ => simple (mbx_sem_wait_timed (FSem minor) s)
  | RTF_SEM_POST => Done (0, NoReply) (mbx_sem_signal (FSem minor) None s)
  | RTF_SEM_DESTROY => Done (0, NoReply) (mbx_sem_delete (FSem minor) s)
  | FIONREAD => Done (0, Number (avbs (fbuf (fifos s minor)))) s
  | RTF_GET_N_FIFOS => Done (MAX_FIFOS, NoReply) s
  | RTF_GET_FIFO_INFO first n => let l := infos first n s in Done (zlen l, Infos l) s
  | RTF_NAMED_CREATE nm sz mem => simple (rtf_named_create fuel nm sz mem s)
  | RTF_CREATE_NAMED nm mem => simple (rtf_create_named fuel nm mem s)
  | RTF_NAME_LOOKUP nm => Done (rtf_getfifobyname nm s, NoReply) s
  | SET_ASYNC_SIG _ => Done (0, NoReply) s
  | TCGETS => Done (- ENOTTY, NoReply) s
  | OtherCmd => Done (- EINVAL, NoReply) s
  end.
Definition rtf_ioctl (minor : nat) (cmd : fifo_cmd) (d : fdev) : res fdev (Z * reply) :=
  let* (r, d) := on_fst (ioctl_fst minor cmd (dfst d)) d in
  Done r (match cmd with SET_ASYNC_SIG sig => MkFdev (dfst d) sig | _ => d end).
End ioctl.
