(* ===== verification/FifoDevFacts.v ===== *)
(** * FIFOs by name: fifos.c.

    A name leads to the FIFO that was created with it, to no other, and is gone with
    the FIFO; and a name that a later FIFO has can be given again. *)

From S2P Require Import Prelude Resume Ring MbxRing Fifo FifoDev.

Lemma fifo_set_eq f m s : fifos (fifo_set f m s) m = f (fifos s m).
Proof. simpl. by rewrite fn_lookup_insert. Qed.
Lemma fifo_set_ne f m j s : m <> j -> fifos (fifo_set f m s) j = fifos s j.
Proof. intros. simpl. by rewrite fn_lookup_insert_ne. Qed.

Lemma free_minor_Some n i nm s m :
  free_minor n i nm s = Some m ->
  (i <= m < i + n)%nat /\ opncnt (fifos s m) = 0 /\ fname (fifos s m) = []
  /\ (forall j, (i <= j < m)%nat -> same_name nm (fname (fifos s j)) = false).
Proof.
  revert i. induction n as [|n IH]; intros i; simpl; [done|].
  destruct (same_name nm (fname (fifos s i))) eqn:E; [done|]. destruct (_ && _) eqn:Ef.
  - intros [= <-]. apply andb_true_iff in Ef as [Ho Hn]. apply Z.eqb_eq in Ho. apply bool_decide_eq_true in Hn.
    split_and!; [lia..|done|done|intros; lia].
  - intros Hm. destruct (IH _ Hm) as (? & ? & ? & Hj). split_and!; [lia..|done|done|].
    intros j ?. destruct (decide (j = i)) as [->|]; [done|]. apply Hj. lia.
Qed.

Lemma same_name_iff a b : zlen a <= RTF_NAMELEN -> zlen b <= RTF_NAMELEN -> same_name a b = true <-> a = b.
Proof. intros. unfold same_name. rewrite bool_decide_eq_true. by rewrite !ztake_all. Qed.

(** The search looks at the names of the FIFOs in use only. *)
Definition name_part (f : FIFO) : option (list byte) := if opncnt f =? 0 then None else Some (fname f).
Lemma getfifobyname_same nm s s' :
  (forall j, named_minor nm s j = named_minor nm s' j) -> rtf_getfifobyname nm s = rtf_getfifobyname nm s'.
Proof.
  intros Hs. unfold rtf_getfifobyname.
  by rewrite (list_find_ext (fun m => named_minor nm s m = true) (fun m => named_minor nm s' m = true)) by (intros; by rewrite Hs).
Qed.
Lemma getfifobyname_first nm s m :
  zlen nm <= RTF_NAMELEN -> (m < Z.to_nat MAX_FIFOS)%nat -> named_minor nm s m = true ->
  (forall j, (j < m)%nat -> named_minor nm s j = false) -> rtf_getfifobyname nm s = Z.of_nat m.
Proof.
  intros Hn Hm Hf Hj. unfold rtf_getfifobyname. rewrite (proj2 (Z.ltb_ge _ _)) by done.
  rewrite (proj2 (list_find_Some _ _ m m)); [done|]. split_and!; [by rewrite lookup_seq_lt by lia|done|].
  intros j y Hy ?. apply lookup_seq in Hy as [-> ?]. rewrite Hj; done.
Qed.

(** What a creation and a destruction do to the FIFO itself. *)
Lemma rtf_create_new fuel m sz mem s :
  (m < Z.to_nat MAX_FIFOS)%nat -> opncnt (fifos s m) = 0 ->
  exists s', rtf_create fuel (Z.of_nat m) sz (Some mem) s = Done 0 s'
    /\ opncnt (fifos s' m) = 1 /\ fname (fifos s' m) = fname (fifos s m) /\ fbuf (fifos s' m) = mbxbuf_init sz mem
    /\ waiting (fifos s' m) = None /\ (forall j, j <> m -> fifos s' j = fifos s j).
Proof.
  intros Hm Ho. unfold rtf_create. rewrite (proj2 (Z.leb_gt _ _)) by (unfold MAX_FIFOS in *; lia).
  rewrite Nat2Z.id, Ho, Z.eqb_refl. eexists. split; [reflexivity|].
  split_and!; try (simpl; rewrite !fn_lookup_insert; done).
  intros j Hj. simpl. rewrite !fn_lookup_insert_ne by done. done.
Qed.
Lemma fifos_sem_delete m s : fifos (mbx_sem_delete m s) = fifos s.
Proof.
  unfold mbx_sem_delete. change (fifos (fsem_set m ?v ?x)) with (fifos x).
  generalize (fqueue (fsems s m)). intros l. revert s. induction l as [|p l IH]; intros s; [done|]. simpl. by rewrite IH.
Qed.
Lemma rtf_destroy_last m s :
  (m < Z.to_nat MAX_FIFOS)%nat -> opncnt (fifos s m) = 1 -> waiting (fifos s m) = None ->
  exists s', rtf_destroy (Z.of_nat m) s = (0, s')
    /\ opncnt (fifos s' m) = 0 /\ fname (fifos s' m) = [] /\ (forall j, j <> m -> fifos s' j = fifos s j).
Proof.
  intros Hm Ho Hw. unfold rtf_destroy, VALID_FIFO. rewrite (proj2 (Z.leb_gt _ _)) by (unfold MAX_FIFOS in *; lia).
  rewrite Nat2Z.id, Ho. cbv zeta. cbn [Z.eqb negb]. rewrite fifo_set_eq. cbn [opncnt set_opncnt].
  rewrite Ho, (proj2 (Z.eqb_eq (1 - 1) 0)) by done.
  eexists. split.
  { f_equal. rewrite fifo_set_eq. cbn [opncnt set_fname set_pended]. unfold mbx_delete. rewrite !fifos_sem_delete.
    unfold mbx_signal. rewrite !fifo_set_eq. cbn [waiting set_fhandler set_opncnt]. rewrite Hw, !fifo_set_eq.
    cbn [opncnt set_fhandler set_opncnt]. lia. }
  unfold mbx_delete, mbx_signal. rewrite !fifo_set_eq. cbn [waiting set_fhandler set_opncnt]. rewrite Hw. split_and!.
  - cbn [opncnt set_fname set_pended]. rewrite !fifos_sem_delete, !fifo_set_eq. cbn [opncnt set_fhandler set_opncnt]. lia.
  - done.
  - intros j Hj. by rewrite fifo_set_ne, !fifos_sem_delete, !fifo_set_ne by done.
Qed.

(** A FIFO created by name is the first free one, is empty and of the size that was asked for, and is found by its
    name from then on; every other name leads where it led; and when it is destroyed every name leads where it led before.
    When no FIFO is free before one of that name, the creation changes nothing and tells so. *)
Theorem rtf_named_create_found (fuel : nat) (nm : list byte) (sz : Z) (mem : list byte) (s : fst) :
  zlen nm <= RTF_NAMELEN ->
  match free_minor (Z.to_nat MAX_FIFOS) 0 nm s with
  | None => rtf_named_create fuel nm sz (Some mem) s = Done (- EBUSY) s
  | Some m =>
      exists s', rtf_named_create fuel nm sz (Some mem) s = Done (Z.of_nat m) s'
        /\ rtf_getfifobyname nm s' = Z.of_nat m /\ opncnt (fifos s m) = 0
        /\ fbuf (fifos s' m) = mbxbuf_init sz mem /\ fname (fifos s' m) = nm
        /\ (forall nm', nm' <> nm -> rtf_getfifobyname nm' s' = rtf_getfifobyname nm' s)
        /\ exists s'', rtf_destroy (Z.of_nat m) s' = (0, s'') /\ forall nm', rtf_getfifobyname nm' s'' = rtf_getfifobyname nm' s
  end.
Proof.
  intros Hn. unfold rtf_named_create. rewrite (proj2 (Z.ltb_ge _ _)) by done.
  destruct (free_minor _ _ _ _) as [m|] eqn:E; [|done].
  apply free_minor_Some in E as (Hm & Ho & Hfn & Hj). simpl in Hm.
  set (s0 := fifo_set (set_fname nm) m s).
  destruct (rtf_create_new fuel m sz mem s0) as (s' & -> & Ho' & Hn' & Hb' & Hw' & Hrest); [lia|by unfold s0; rewrite fifo_set_eq|].
  cbn [rbind]. exists s'. split; [reflexivity|].
  assert (Hother : forall j, j <> m -> fifos s' j = fifos s j).
  { intros j ?. rewrite Hrest by done. unfold s0. by rewrite fifo_set_ne. }
  assert (Hname : fname (fifos s' m) = nm) by (rewrite Hn'; unfold s0; by rewrite fifo_set_eq).
  assert (Hzero : forall nm' x, opncnt (fifos x m) = 0 -> named_minor nm' x m = false).
  { intros nm' x Hx. unfold named_minor. by rewrite Hx. }
  split_and!; [|done|done|done| |].
  - apply getfifobyname_first; [done|lia| |].
    + unfold named_minor. rewrite Ho', Hname. apply andb_true_iff. split; [done|]. by apply same_name_iff.
    + intros j ?. unfold named_minor. rewrite Hother by lia. rewrite Hj by lia. by rewrite andb_false_r.
  - intros nm' Hne. destruct (decide (RTF_NAMELEN < zlen nm')) as [Hl|Hl].
    { unfold rtf_getfifobyname. by rewrite (proj2 (Z.ltb_lt _ _)). }
    apply getfifobyname_same. intros j. destruct (decide (j = m)) as [->|].
    + rewrite (Hzero _ _ Ho). unfold named_minor. rewrite Hname. apply andb_false_iff. right.
      apply not_true_is_false. rewrite same_name_iff by lia. done.
    + unfold named_minor. by rewrite Hother.
  - destruct (rtf_destroy_last m s') as (s'' & E & Ho2 & _ & Hr2); [lia|done|done|].
    exists s''. split; [done|]. intros nm'. apply getfifobyname_same. intros j. destruct (decide (j = m)) as [->|].
    + by rewrite !Hzero.
    + unfold named_minor. by rewrite Hr2, Hother.
Qed.

(** FIFO 1 is in use under a name; FIFO 0 is free. *)
Definition fifo_named (nm : list byte) (n : Z) : FIFO := MkFifo (MkMbxbuf 0 0 0 0 0 []) None n 0 0 0 nm.
Definition fst0 (nm : list byte) : fst :=
  MkFst (fun m => if (m =? 1)%nat then fifo_named nm 1 else fifo_named [] 0) (fun _ => MkFsem 0 []) (fun _ => 0) (fun _ => 0) 1
    (fun _ => false) (fun _ => false) (MkReqq 0 0 (fun _ => None)) (MkReqq 0 0 (fun _ => None)).


(** The first free FIFO is taken before the names of those that follow are looked at: two FIFOs have one name. *)
Example two_fifos_one_name :
  exists s', rtf_named_create 0 [Byte.x61] 4 (Some (replicate 4 Byte.x00)) (fst0 [Byte.x61]) = Done 0 s'
    /\ fname (fifos s' 0) = fname (fifos s' 1) /\ opncnt (fifos s' 0) = 1 /\ opncnt (fifos s' 1) = 1.
Proof. eexists. split; [reflexivity|]. by vm_compute. Qed.
