(* ===== verification/Srq.v ===== *)
(** * The numbers of requests

    include/rtai_lxrt.h numbers the services a process can ask for: 0 to 188 are indices of the
    table that the modules fill (src/sched/api.c), 1000 and above are served by src/sched/sys.c itself.
    Those that [Sys] uses are there; the numbers of the group "not recovered yet" are numbers of the
    first group again. *)

From S2P Require Import Prelude.

(** The table of the core has index 0 (include/rtai_lxrt.h). *)
Definition BIDX := 0.


(** Scheduler. *)
Definition YIELD := 0.
Definition SUSPEND := 1.
Definition RESUME := 2.
Definition MAKE_PERIODIC := 3.
Definition WAIT_PERIOD := 4.
Definition SLEEP := 5.
Definition SLEEP_UNTIL := 6.
Definition START_TIMER := 7.
Definition STOP_TIMER := 8.
Definition GET_TIME := 9.
Definition COUNT2NANO := 10.
Definition NANO2COUNT := 11.
Definition BUSY_SLEEP := 12.
Definition SET_PERIODIC_MODE := 13.
Definition SET_ONESHOT_MODE := 14.
Definition SIGNAL_HANDLER := 15.
Definition TASK_USE_FPU := 16.
Definition GET_TASK_INFO := 17.
Definition HARD_TIMER_COUNT := 18.
Definition GET_TIME_NS := 19.
Definition GET_CPU_TIME_NS := 20.
Definition SET_RUNNABLE_ON_CPUS := 21.
Definition SET_RUNNABLE_ON_CPUID := 22.
Definition GET_TIMER_CPU := 23.
Definition START_RT_APIC_TIMERS := 24.
Definition HARD_TIMER_COUNT_CPUID := 25.
Definition COUNT2NANO_CPUID := 26.
Definition NANO2COUNT_CPUID := 27.
Definition GET_TIME_CPUID := 28.
Definition GET_TIME_NS_CPUID := 29.
Definition MAKE_PERIODIC_NS := 30.
Definition SET_SCHED_POLICY := 31.
Definition SET_RESUME_END := 32.
Definition SPV_RMS := 33.
Definition WAKEUP_SLEEPING := 34.
Definition CHANGE_TASK_PRIO := 35.
Definition SET_RESUME_TIME := 36.
Definition SET_PERIOD := 37.
Definition HARD_TIMER_RUNNING := 38.

(** Semaphores. *)
Definition NAMED_SEM_INIT := 41.
Definition NAMED_SEM_DELETE := 42.
Definition SEM_SIGNAL := 43.
Definition SEM_WAIT := 44.
Definition SEM_WAIT_IF := 45.
Definition SEM_WAIT_UNTIL := 46.
Definition SEM_WAIT_TIMED := 47.
Definition SEM_BROADCAST := 48.
Definition SEM_WAIT_BARRIER := 49.
Definition SEM_COUNT := 50.
Definition COND_WAIT := 51.
Definition COND_WAIT_UNTIL := 52.
Definition COND_WAIT_TIMED := 53.
Definition NAMED_RWL_INIT := 56.
Definition NAMED_RWL_DELETE := 57.
Definition RWL_RDLOCK := 58.
Definition RWL_RDLOCK_IF := 59.
Definition RWL_RDLOCK_UNTIL := 60.
Definition RWL_RDLOCK_TIMED := 61.
Definition RWL_WRLOCK := 62.
Definition RWL_WRLOCK_IF := 63.
Definition RWL_WRLOCK_UNTIL := 64.
Definition RWL_WRLOCK_TIMED := 65.
Definition RWL_UNLOCK := 66.
Definition NAMED_SPL_INIT := 69.
Definition NAMED_SPL_DELETE := 70.
Definition SPL_LOCK := 71.
Definition SPL_LOCK_IF := 72.
Definition SPL_LOCK_TIMED := 73.
Definition SPL_UNLOCK := 74.

(** Mail boxes. *)
Definition NAMED_MBX_INIT := 77.
Definition NAMED_MBX_DELETE := 78.
Definition MBX_SEND := 79.
Definition MBX_SEND_WP := 80.
Definition MBX_SEND_IF := 81.
Definition MBX_SEND_UNTIL := 82.
Definition MBX_SEND_TIMED := 83.
Definition MBX_RECEIVE := 84.
Definition MBX_RECEIVE_WP := 85.
Definition MBX_RECEIVE_IF := 86.
Definition MBX_RECEIVE_UNTIL := 87.
Definition MBX_RECEIVE_TIMED := 88.
Definition MBX_EVDRP := 89.
Definition MBX_OVRWR_SEND := 90.

(** Short intertask messages. *)
Definition SENDMSG := 91.
Definition SEND_IF := 92.
Definition SEND_UNTIL := 93.
Definition SEND_TIMED := 94.
Definition RECEIVEMSG := 95.
Definition RECEIVE_IF := 96.
Definition RECEIVE_UNTIL := 97.
Definition RECEIVE_TIMED := 98.
Definition RPCMSG := 99.
Definition RPC_IF := 100.
Definition RPC_UNTIL := 101.
Definition RPC_TIMED := 102.
Definition EVDRP := 103.
Definition ISRPC := 104.
Definition RETURNMSG := 105.

(** Extended intertask messages. *)
Definition RPCX := 106.
Definition RPCX_IF := 107.
Definition RPCX_UNTIL := 108.
Definition RPCX_TIMED := 109.
Definition SENDX := 110.
Definition SENDX_IF := 111.
Definition SENDX_UNTIL := 112.
Definition SENDX_TIMED := 113.
Definition RETURNX := 114.
Definition RECEIVEX := 115.
Definition RECEIVEX_IF := 116.
Definition RECEIVEX_UNTIL := 117.
Definition RECEIVEX_TIMED := 118.
Definition EVDRPX := 119.

(** Proxies. *)
Definition PROXY_ATTACH := 120.
Definition PROXY_TRIGGER := 122.

(** Synchronous user space specific intertask messages and related proxies. *)
Definition RT_SEND := 123.
Definition RT_RECEIVE := 124.
Definition RT_CRECEIVE := 125.
Definition RT_REPLY := 126.
Definition RT_PROXY_ATTACH := 127.
Definition RT_PROXY_DETACH := 128.
Definition RT_TRIGGER := 129.
Definition RT_NAME_ATTACH := 130.
Definition RT_NAME_DETACH := 131.
Definition RT_NAME_LOCATE := 132.

(** Pqueue. *)
Definition MQ_OPEN := 133.
Definition MQ_RECEIVE := 134.
Definition MQ_SEND := 135.
Definition MQ_CLOSE := 136.
Definition MQ_GETATTR := 137.
Definition MQ_SETATTR := 138.
Definition MQ_NOTIFY := 139.
Definition MQ_UNLINK := 140.
Definition MQ_TIMEDRECEIVE := 141.
Definition MQ_TIMEDSEND := 142.

(** Named tasks init/delete. *)
Definition NAMED_TASK_INIT := 143.
Definition NAMED_TASK_INIT_CPUID := 144.
Definition NAMED_TASK_DELETE := 145.

(** Registry. *)
Definition GET_ADR := 146.
Definition GET_NAME := 147.

(** A semaphore extension. *)
Definition COND_SIGNAL := 148.

(** New shm. *)
Definition SHM_ALLOC := 149.
Definition SHM_FREE := 150.
Definition SHM_SIZE := 151.
Definition HEAP_SET := 152.
Definition HEAP_ALLOC := 153.
Definition HEAP_FREE := 154.
Definition HEAP_NAMED_ALLOC := 155.
Definition HEAP_NAMED_FREE := 156.
Definition MALLOC := 157.
Definition FREE := 158.
Definition NAMED_MALLOC := 159.
Definition NAMED_FREE := 160.
Definition SUSPEND_IF := 161.
Definition SUSPEND_UNTIL := 162.
Definition SUSPEND_TIMED := 163.
Definition IRQ_WAIT := 164.
Definition IRQ_WAIT_IF := 165.
Definition IRQ_WAIT_UNTIL := 166.
Definition IRQ_WAIT_TIMED := 167.
Definition IRQ_SIGNAL := 168.
Definition REQUEST_IRQ_TASK := 169.
Definition RELEASE_IRQ_TASK := 170.
Definition SCHED_LOCK := 171.
Definition SCHED_UNLOCK := 172.
Definition PEND_LINUX_IRQ := 173.
Definition SET_LINUX_SYSCALL_MODE := 174.
Definition REQUEST_RTC := 175.
Definition RELEASE_RTC := 176.
Definition RT_GETTID := 177.
Definition GET_REAL_TIME := 178.
Definition GET_REAL_TIME_NS := 179.
Definition MQ_REG_USP_NOTIFIER := 180.
Definition RT_SIGNAL_HELPER := 181.
Definition RT_SIGNAL_WAITSIG := 182.
Definition RT_SIGNAL_REQUEST := 183.
Definition RT_SIGNAL_RELEASE := 184.
Definition RT_SIGNAL_ENABLE := 185.
Definition RT_SIGNAL_DISABLE := 186.
Definition RT_SIGNAL_TRIGGER := 187.
Definition SEM_RT_POLL := 188.

(** Not recovered yet. *)

(** Qblk's. *)
Definition RT_INITTICKQUEUE := 69.
Definition RT_RELEASETICKQUEUE := 70.
Definition RT_QDYNALLOC := 71.
Definition RT_QDYNFREE := 72.
Definition RT_QDYNINIT := 73.
Definition RT_QBLKWAIT := 74.
Definition RT_QBLKREPEAT := 75.
Definition RT_QBLKSOON := 76.
Definition RT_QBLKDEQUEUE := 77.
Definition RT_QBLKCANCEL := 78.
Definition RT_QSYNC := 79.
Definition RT_QRECEIVE := 80.
Definition RT_QLOOP := 81.
Definition RT_QSTEP := 82.
Definition RT_QBLKBEFORE := 83.
Definition RT_QBLKAFTER := 84.
Definition RT_QBLKUNHOOK := 85.
Definition RT_QBLKRELEASE := 86.
Definition RT_QBLKCOMPLETE := 87.
Definition RT_QHOOKFLUSH := 88.
Definition RT_QBLKATHEAD := 89.
Definition RT_QBLKATTAIL := 90.
Definition RT_QHOOKINIT := 91.
Definition RT_QHOOKRELEASE := 92.
Definition RT_QBLKSCHEDULE := 93.
Definition RT_GETTICKQUEUEHOOK := 94.

(** Testing. *)
Definition RT_BOOM := 95.
Definition RTAI_MALLOC := 96.
Definition RT_FREE := 97.
Definition RT_MMGR_STATS := 98.
Definition RT_STOMP := 99.

(** VC. *)
Definition RT_VC_ATTACH := 100.
Definition RT_VC_RELEASE := 101.
Definition RT_VC_RESERVE := 102.

(** Linux Signal Support. *)
Definition RT_GET_LINUX_SIGNAL := 103.
Definition RT_GET_ERRNO := 104.
Definition RT_SET_LINUX_SIGNAL_HANDLER := 105.

(** Of the requests above 1000, those that nothing serves. *)
Definition USP_SIGHDL := 1014.
Definition ALLOC_REGISTER := 1021.
Definition DELETE_DEREGISTER := 1022.
