(* ===== verification/User.v ===== *)
(** * The user interface: requests of a process

    In include/rtai_lxrt.h and its companions every service has an inline function for processes, which
    puts the arguments in a structure on the stack and gives its address, its size and the number of the
    service to [rtai_lxrt] (include/asm-x86/rtai_lxrt.h).  This file has the structures and the requests
    as data, what such a function does as a program of requests and Linux calls, and the functions of
    rtai_lxrt.h; those of the other headers are in [UserIpc] and [UserFifo].

    The width of a C type and the place of a field in a structure are those of x86-64, where the three
    members of the union that [rtai_lxrt] returns are 64 bits at the same place: a function converts the
    64 bits to the type of its result, whichever member it names. *)

From S2P Require Import Prelude Kernel Sys Srq.

(** ** C types and structures *)

Inductive cty := Void | Int | Uint | Long | Ulong | Rtime | Ptr.
Definition narrow (t : cty) : bool := match t with Int | Uint => true | _ => false end.
(** The value an object of the type holds after it is assigned [z]. *)
Definition conv (t : cty) (z : Z) : Z :=
  match t with
  | Void => 0 | Int => i32 z | Uint => u32 z | Long | Rtime => i64 z | Ulong | Ptr => u64 z
  end.
Definition in_cty (t : cty) (z : Z) : Prop := conv t z = z.

(** A field of a structure; without a value it is not initialised. *)
Record cfield := MkF { ftype : cty; fvalue : option Z }.
Definition F (t : cty) (v : Z) : cfield := MkF t (Some v).
Definition dummy (t : cty) : cfield := MkF t None.

(** The structure as 64 bit words, the first field in the low bits; [junk] is what the stack had. *)
Definition bits (f : cfield) (old : Z) : Z := (if narrow (ftype f) then u32 else u64) (default old (fvalue f)).
Fixpoint words (junk : nat -> Z) (k : nat) (l : list cfield) : list Z :=
  match l with
  | [] => []
  | f :: l' =>
      if narrow (ftype f) then
        match l' with
        | g :: l'' =>
            if narrow (ftype g) then (bits f (junk k) + 2 ^ 32 * bits g (Z.shiftr (junk k) 32)) :: words junk (S k) l''
            else (bits f (junk k) + 2 ^ 32 * u32 (Z.shiftr (junk k) 32)) :: words junk (S k) l'
        | [] => [bits f (junk k) + 2 ^ 32 * u32 (Z.shiftr (junk k) 32)]
        end
      else bits f (junk k) :: words junk (S k) l'
  end.
(** Every structure here has a field of 64 bits, so its size is that of its words. *)
Definition SIZARG (l : list cfield) : Z := sizeof_long * zlen (words (fun _ => 0) 0 l).

(** ** Requests *)

Record request := Req { r_dynx : Z; r_lsize : Z; r_srq : Z; r_arg : list cfield }.
Definition lxrt_code (r : request) : Z := ENCODE_LXRT_REQ (r_dynx r) (r_srq r) (r_lsize r).

(** An object in memory: a structure or bytes.  A command of a device brings nothing, a number or an object. *)
Inductive object := Struct (l : list cfield) | Str (l : list Z).
Inductive ioctl_arg := NoArg | Val (z : Z) | Obj (o : object).
(** The calls of Linux and its C library that the functions make. *)
Inductive linux_call :=
| SchedGetPriorityMax (policy : Z) | SchedSetscheduler (policy prio : Z) | Iopl | Mlockall
| AttrSetstacksize (size : Z) | PthreadCreate (fun_ args : Z) | PthreadJoin (thread : Z)
| Open (path : list Z) (flags : Z) | Close (fd : Z) | Ioctl (fd cmd : Z) (arg : ioctl_arg)
| Mmap (start size fd : Z) | Munmap (adr size : Z).

(** A function of the interface: it returns, has a request served and goes on with the 64 bits of the reply, calls
    Linux and goes on with the result, puts an object on its stack and goes on with its address, or reads memory. *)
Inductive uprog :=
| URet (r : Z)
| Lxrt (r : request) (k : Z -> uprog)
| Linux (c : linux_call) (k : Z -> uprog)
| Alloca (o : object) (k : Z -> uprog)
| Load (adr : Z) (t : cty) (k : Z -> uprog)
| Store (adr : Z) (t : cty) (v : Z) (k : uprog).
Fixpoint ubind (u : uprog) (f : Z -> uprog) : uprog :=
  match u with
  | URet r => f r
  | Lxrt r k => Lxrt r (fun z => ubind (k z) f)
  | Linux c k => Linux c (fun z => ubind (k z) f)
  | Alloca o k => Alloca o (fun z => ubind (k z) f)
  | Load a t k => Load a t (fun z => ubind (k z) f)
  | Store a t v k => Store a t v (ubind k f)
  end.
Notation "'let!' x ':=' u 'in' f" := (ubind u (fun x => f)) (at level 10, x name, u at level 100, f at level 200) : rtai_scope.

(** [rtai_lxrt] with a structure of its own size, and with the size of the first of its words. *)
Definition rtai_lxrt (t : cty) (dynx srq : Z) (arg : list cfield) : uprog :=
  Lxrt (Req dynx (SIZARG arg) srq arg) (fun r => URet (conv t r)).
Definition rtai_lxrt_sized (t : cty) (dynx lsize srq : Z) (arg : list cfield) : uprog :=
  Lxrt (Req dynx lsize srq arg) (fun r => URet (conv t r)).
Definition linux (c : linux_call) : uprog := Linux c URet.
(** The result of a system call is what the kernel returned; where that is the negative of an error the C library
    keeps the error as errno and returns -1. *)
Definition errno_of (r : Z) : option Z := if (-4096 <? r) && (r <? 0) then Some (- r) else None.
Definition libc (c : linux_call) : uprog :=
  let! r := linux c in URet (match errno_of r with Some _ => -1 | None => i32 r end).
(** [ret < 0 ? -errno : ret]. *)
Definition or_errno (c : linux_call) : uprog :=
  let! r := linux c in URet (match errno_of r with Some e => - e | None => i32 r end).

(** ** Names *)

Definition rt_get_adr (name : Z) : uprog := rtai_lxrt Ptr BIDX LXRT_GET_ADR [F Ulong name].
Definition rt_get_name (adr : Z) : uprog := rtai_lxrt Ulong BIDX LXRT_GET_NAME [F Ptr adr].

(** ** Tasks and threads *)

(** [SCHED_OTHER] is Linux' policy without priorities; the others take the distance to their highest priority. *)
Definition SCHED_OTHER := 0.
Definition SCHED_FIFO := 1.
Definition rt_task_init_schmod (name priority stack_size max_msg_size policy cpus_allowed : Z) : uprog :=
  let! name := if name =? 0 then rt_get_name 0 else URet name in
  let! prio := if policy =? SCHED_OTHER then URet 0
               else let! m := libc (SchedGetPriorityMax policy) in
                    URet (if i32 (m - priority) <? 1 then 1 else i32 (m - priority)) in
  let! r := libc (SchedSetscheduler policy prio) in
  if r <? 0 then URet 0
  else
    let! _ := linux Iopl in
    let! _ := linux Mlockall in
    rtai_lxrt Ptr BIDX LXRT_TASK_INIT
      [F Ulong name; F Long priority; F Long stack_size; F Long max_msg_size; F Long cpus_allowed].
(** [PthreadCreate] gives the thread, or 0 when it could not be made. *)
Definition RT_THREAD_STACK_MIN := 16384.
Definition if_hard (hs srq : Z) (arg : list cfield) : uprog :=
  if negb (hs =? 0) then rtai_lxrt Void BIDX srq arg else URet 0.
Definition rt_thread_create (fun_ args stack_size : Z) : uprog :=
  let! r := linux (AttrSetstacksize (if RT_THREAD_STACK_MIN <? stack_size then stack_size else RT_THREAD_STACK_MIN)) in
  if r =? 0 then
    let! hs := rtai_lxrt Ulong BIDX IS_HARD [F Ulong 0] in
    let! _ := if_hard hs MAKE_SOFT_RT [F Ulong hs] in
    let! thread := linux (PthreadCreate fun_ args) in
    let! _ := if_hard hs MAKE_HARD_RT [F Ulong hs] in
    URet (conv Long thread)
  else URet 0.
Definition rt_thread_join (thread : Z) : uprog := linux (PthreadJoin thread).

(** ** Servers of Linux calls *)

Definition rt_set_linux_syscall_mode (mode cbfun : Z) : uprog :=
  rtai_lxrt Int BIDX SET_LINUX_SYSCALL_MODE [F Long mode; F Ptr cbfun].
(** The structure is a [linux_syscalls_list], of which two fields are set. *)
Definition rt_destroy_linux_syscall_server (task : Z) : uprog :=
  rtai_lxrt Void BIDX LINUX_SERVER
    [dummy Int; dummy Int; F Int 0; dummy Int; dummy Int; dummy Ptr; dummy Ptr; dummy Ptr; F Ptr task].
Definition rt_thread_init (name priority max_msg_size policy cpus_allowed : Z) : uprog :=
  rt_task_init_schmod name priority 0 max_msg_size policy cpus_allowed.

(** ** Services on tasks, and time *)

Definition rt_task_init (name priority stack_size max_msg_size : Z) : uprog :=
  rt_task_init_schmod name priority 0 max_msg_size SCHED_FIFO 0xFF.
Definition rt_set_sched_policy (task policy rr_quantum_ns : Z) : uprog :=
  rtai_lxrt Void BIDX SET_SCHED_POLICY [F Ptr task; F Long policy; F Long rr_quantum_ns].
Definition rt_change_prio (task priority : Z) : uprog :=
  rtai_lxrt Int BIDX CHANGE_TASK_PRIO [F Ptr task; F Long priority].
Definition rt_make_soft_real_time : uprog := rtai_lxrt Void BIDX MAKE_SOFT_RT [dummy Ulong].
Definition rt_thread_delete (task : Z) : uprog :=
  let! _ := rt_make_soft_real_time in rtai_lxrt Int BIDX LXRT_TASK_DELETE [F Ptr task].
Definition rt_task_yield : uprog := rtai_lxrt Int BIDX YIELD [dummy Ulong].
Definition rt_task_suspend (task : Z) : uprog := rtai_lxrt Int BIDX SUSPEND [F Ptr task].
Definition rt_task_suspend_if (task : Z) : uprog := rtai_lxrt Int BIDX SUSPEND_IF [F Ptr task].
Definition rt_task_suspend_until (task time : Z) : uprog :=
  rtai_lxrt Int BIDX SUSPEND_UNTIL [F Ptr task; F Rtime time].
Definition rt_task_suspend_timed (task delay : Z) : uprog :=
  rtai_lxrt Int BIDX SUSPEND_TIMED [F Ptr task; F Rtime delay].
Definition rt_task_resume (task : Z) : uprog := rtai_lxrt Int BIDX RESUME [F Ptr task].
Definition rt_sched_lock : uprog := rtai_lxrt Void BIDX SCHED_LOCK [dummy Long].
Definition rt_sched_unlock : uprog := rtai_lxrt Void BIDX SCHED_UNLOCK [dummy Long].
Definition rt_pend_linux_irq (irq : Z) : uprog := rtai_lxrt Void BIDX PEND_LINUX_IRQ [F Ulong irq].
Definition rt_irq_wait (irq : Z) : uprog := rtai_lxrt Int BIDX IRQ_WAIT [F Ulong irq].
Definition rt_irq_wait_if (irq : Z) : uprog := rtai_lxrt Int BIDX IRQ_WAIT_IF [F Ulong irq].
Definition rt_irq_wait_until (irq time : Z) : uprog :=
  rtai_lxrt Int BIDX IRQ_WAIT_UNTIL [F Ulong irq; F Rtime time].
Definition rt_irq_wait_timed (irq delay : Z) : uprog :=
  rtai_lxrt Int BIDX IRQ_WAIT_TIMED [F Ulong irq; F Rtime delay].
Definition rt_irq_signal (irq : Z) : uprog := rtai_lxrt Int BIDX IRQ_SIGNAL [F Ulong irq].
Definition rt_request_irq_task (irq handler type affine2task : Z) : uprog :=
  rtai_lxrt Int BIDX REQUEST_IRQ_TASK [F Ulong irq; F Ptr handler; F Long type; F Long affine2task].
Definition rt_release_irq_task (irq : Z) : uprog := rtai_lxrt Int BIDX RELEASE_IRQ_TASK [F Ulong irq].
Definition rt_task_make_periodic (task start_time period : Z) : uprog :=
  rtai_lxrt Int BIDX MAKE_PERIODIC [F Ptr task; F Rtime start_time; F Rtime period].
Definition rt_task_make_periodic_relative_ns (task start_delay period : Z) : uprog :=
  rtai_lxrt Int BIDX MAKE_PERIODIC_NS [F Ptr task; F Rtime start_delay; F Rtime period].
Definition rt_task_wait_period : uprog := rtai_lxrt Int BIDX WAIT_PERIOD [dummy Ulong].
Definition rt_sleep (delay : Z) : uprog := rtai_lxrt Int BIDX SLEEP [F Rtime delay].
Definition rt_sleep_until (time : Z) : uprog := rtai_lxrt Int BIDX SLEEP_UNTIL [F Rtime time].
Definition rt_is_hard_timer_running : uprog := rtai_lxrt Int BIDX HARD_TIMER_RUNNING [dummy Ulong].
Definition start_rt_timer (period : Z) : uprog :=
  let! hs := rtai_lxrt Int BIDX IS_HARD [F Long 0] in
  let! _ := if_hard hs MAKE_SOFT_RT [F Long 0] in
  let! retval := rtai_lxrt Rtime BIDX START_TIMER [F Long period] in
  let! _ := if_hard hs MAKE_HARD_RT [F Long period] in
  URet retval.
Definition stop_rt_timer : uprog :=
  let! hs := rtai_lxrt Long BIDX IS_HARD [F Long 0] in
  let! _ := if_hard hs MAKE_SOFT_RT [F Long hs] in
  let! _ := rtai_lxrt Void BIDX STOP_TIMER [F Long hs] in
  if_hard hs MAKE_HARD_RT [F Long hs].
Definition rt_request_rtc (rtc_freq handler : Z) : uprog :=
  rtai_lxrt Void BIDX REQUEST_RTC [F Long rtc_freq; F Ptr handler].
Definition rt_release_rtc : uprog := rtai_lxrt Void BIDX RELEASE_RTC [dummy Ulong].
Definition rt_get_time : uprog := rtai_lxrt Rtime BIDX GET_TIME [dummy Ulong].
Definition rt_get_real_time : uprog := rtai_lxrt Rtime BIDX GET_REAL_TIME [dummy Ulong].
Definition rt_get_real_time_ns : uprog := rtai_lxrt Rtime BIDX GET_REAL_TIME_NS [dummy Ulong].
Definition count2nano (count : Z) : uprog := rtai_lxrt Rtime BIDX COUNT2NANO [F Rtime count].
Definition nano2count (nanos : Z) : uprog := rtai_lxrt Rtime BIDX NANO2COUNT [F Rtime nanos].
Definition rt_busy_sleep (ns : Z) : uprog := rtai_lxrt Void BIDX BUSY_SLEEP [F Long ns].
Definition rt_set_periodic_mode : uprog := rtai_lxrt Void BIDX SET_PERIODIC_MODE [dummy Ulong].
Definition rt_set_oneshot_mode : uprog := rtai_lxrt Void BIDX SET_ONESHOT_MODE [dummy Ulong].
Definition rt_task_signal_handler (task handler : Z) : uprog :=
  rtai_lxrt Int BIDX SIGNAL_HANDLER [F Ptr task; F Ptr handler].
Definition rt_task_use_fpu (task use_fpu_flag : Z) : uprog :=
  let arg := [F Ptr task; F Long use_fpu_flag] in
  let! buddy := rtai_lxrt Ptr BIDX RT_BUDDY arg in
  if negb (buddy =? task) then rtai_lxrt Int BIDX TASK_USE_FPU arg
  else let! _ := rtai_lxrt Void BIDX HRT_USE_FPU arg in URet 0.
Definition rt_buddy_task_use_fpu (task use_fpu_flag : Z) : uprog :=
  rtai_lxrt Int BIDX TASK_USE_FPU [F Ptr task; F Long use_fpu_flag].
Definition rt_task_get_info (task task_info : Z) : uprog :=
  if task_info =? 0 then URet (- EINVAL)
  else
    let! r := rtai_lxrt Long BIDX GET_TASK_INFO [F Ptr task; F Ptr task_info] in
    URet (if r =? 0 then 0 else - EINVAL).
(** A [RT_TASK_INFO] has a period, a base priority and a priority. *)
Definition rt_get_priorities (task priority base_priority : Z) : uprog :=
  if (priority =? 0) || (base_priority =? 0) then URet (- EINVAL)
  else
    Alloca (Struct [dummy Rtime; dummy Long; dummy Long]) (fun task_info =>
      let! r := rt_task_get_info task task_info in
      if r =? 0 then
        Load (task_info + 16) Long (fun p => Store priority Int (conv Int p)
          (Load (task_info + 8) Long (fun b => Store base_priority Int (conv Int b) (URet 0))))
      else URet (- EINVAL)).
Definition rt_hard_timer_tick : uprog := rtai_lxrt Int BIDX HARD_TIMER_COUNT [dummy Long].
Definition rt_get_time_ns : uprog := rtai_lxrt Rtime BIDX GET_TIME_NS [dummy Ulong].
Definition rt_get_cpu_time_ns : uprog := rtai_lxrt Rtime BIDX GET_CPU_TIME_NS [dummy Ulong].
Definition rt_set_runnable_on_cpus (task cpu_mask : Z) : uprog :=
  rtai_lxrt Void BIDX SET_RUNNABLE_ON_CPUS [F Ptr task; F Ulong cpu_mask].
Definition rt_set_runnable_on_cpuid (task cpuid : Z) : uprog :=
  rtai_lxrt Void BIDX SET_RUNNABLE_ON_CPUID [F Ptr task; F Ulong cpuid].
Definition rt_get_timer_cpu : uprog := rtai_lxrt Int BIDX GET_TIMER_CPU [dummy Ulong].
Definition start_rt_apic_timers (setup_mode rcvr_jiffies_cpuid : Z) : uprog :=
  rtai_lxrt Void BIDX START_RT_APIC_TIMERS [F Ptr setup_mode; F Ulong rcvr_jiffies_cpuid].
Definition rt_hard_timer_tick_cpuid (cpuid : Z) : uprog :=
  rtai_lxrt Int BIDX HARD_TIMER_COUNT_CPUID [F Long cpuid].
Definition count2nano_cpuid (count cpuid : Z) : uprog :=
  rtai_lxrt Rtime BIDX COUNT2NANO_CPUID [F Rtime count; F Ulong cpuid].
Definition nano2count_cpuid (nanos cpuid : Z) : uprog :=
  rtai_lxrt Rtime BIDX NANO2COUNT_CPUID [F Rtime nanos; F Ulong cpuid].
Definition rt_get_time_cpuid (cpuid : Z) : uprog := rtai_lxrt Rtime BIDX GET_TIME_CPUID [F Ulong cpuid].
Definition rt_get_time_ns_cpuid (cpuid : Z) : uprog := rtai_lxrt Rtime BIDX GET_TIME_NS_CPUID [F Ulong cpuid].
Definition rt_boom : uprog := rtai_lxrt Void BIDX RT_BOOM [F Long 0].
Definition rt_mmgr_stats : uprog := rtai_lxrt Void BIDX RT_MMGR_STATS [F Long 0].
Definition rt_stomp : uprog := rtai_lxrt Void BIDX RT_STOMP [F Long 0].
Definition rt_get_linux_signal (task : Z) : uprog := rtai_lxrt Int BIDX RT_GET_LINUX_SIGNAL [F Ptr task].
Definition rt_get_errno (task : Z) : uprog := rtai_lxrt Int BIDX RT_GET_ERRNO [F Ptr task].
Definition rt_set_linux_signal_handler (task handler : Z) : uprog :=
  rtai_lxrt Int BIDX RT_SET_LINUX_SIGNAL_HANDLER [F Ptr task; F Ptr handler].
(** [text] is what [vsnprintf] makes of the arguments: it stores what fits, ends it with a 0 and returns the length
    of the whole. *)
Definition VSNPRINTF_BUF_SIZE := 256.
Definition rt_printk (text : list Z) : uprog :=
  let shown := ztake (VSNPRINTF_BUF_SIZE - 1) text in
  Alloca (Str (shown ++ repeat 0 (Z.to_nat (VSNPRINTF_BUF_SIZE - zlen shown)))) (fun display =>
    let! _ := rtai_lxrt Void BIDX PRINTK [F Ptr display; F Long (zlen text)] in URet (conv Int (zlen text))).
Definition rtai_print_to_screen (text : list Z) : uprog :=
  let shown := ztake (VSNPRINTF_BUF_SIZE - 1) text in
  Alloca (Str (shown ++ repeat 0 (Z.to_nat (VSNPRINTF_BUF_SIZE - zlen shown)))) (fun display =>
    let! _ := rtai_lxrt Void BIDX PRINTK [F Ptr display; F Long (zlen text)] in URet (conv Int (zlen text))).
Definition rt_usp_signal_handler (handler : Z) : uprog := rtai_lxrt Int BIDX USP_SIGHDL [F Ptr handler].
Definition rt_get_usp_flags (rt_task : Z) : uprog := rtai_lxrt Ulong BIDX GET_USP_FLAGS [F Ptr rt_task].
Definition rt_get_usp_flags_mask (rt_task : Z) : uprog := rtai_lxrt Ulong BIDX GET_USP_FLG_MSK [F Ptr rt_task].
Definition rt_set_usp_flags (rt_task flags : Z) : uprog :=
  rtai_lxrt Void BIDX SET_USP_FLAGS [F Ptr rt_task; F Ulong flags].
Definition rt_set_usp_flags_mask (flags_mask : Z) : uprog :=
  rtai_lxrt Void BIDX SET_USP_FLG_MSK [F Ulong flags_mask].
Definition rt_get_linux_tid (task : Z) : uprog := rtai_lxrt Int BIDX HARD_SOFT_TOGGLER [F Ptr task].
Definition rt_agent : uprog := rtai_lxrt Ptr BIDX RT_BUDDY [dummy Ulong].
Definition rt_gettid : uprog := rtai_lxrt Int BIDX RT_GETTID [dummy Ulong].
Definition rt_make_hard_real_time : uprog := rtai_lxrt Void BIDX MAKE_HARD_RT [dummy Ulong].
Definition rt_allow_nonroot_hrt : uprog := rtai_lxrt Void BIDX NONROOT_HRT [dummy Ulong].
Definition rt_is_hard_real_time (rt_task : Z) : uprog := rtai_lxrt Int BIDX IS_HARD [F Ptr rt_task].
Definition rt_task_set_resume_end_times (resume end_ : Z) : uprog :=
  rtai_lxrt Void BIDX SET_RESUME_END [F Rtime resume; F Rtime end_].
Definition rt_set_resume_time (rt_task new_resume_time : Z) : uprog :=
  rtai_lxrt Int BIDX SET_RESUME_TIME [F Ptr rt_task; F Rtime new_resume_time].
Definition rt_set_period (rt_task new_period : Z) : uprog :=
  rtai_lxrt Int BIDX SET_PERIOD [F Ptr rt_task; F Rtime new_period].
Definition rt_spv_RMS (cpuid : Z) : uprog := rtai_lxrt Void BIDX SPV_RMS [F Long cpuid].
Definition rt_task_masked_unblock (task mask : Z) : uprog :=
  rtai_lxrt Int BIDX WAKEUP_SLEEPING [F Ptr task; F Ulong mask].
Definition rt_get_exectime (task exectime : Z) : uprog :=
  rtai_lxrt Void BIDX GET_EXECTIME [F Ptr task; F Ptr exectime].
Definition rt_gettimeorig (time_orig : Z) : uprog := rtai_lxrt Void BIDX GET_TIMEORIG [F Ptr time_orig].
Definition ftask_init (name priority : Z) : uprog :=
  rtai_lxrt Ptr BIDX LXRT_TASK_INIT [F Ulong name; F Long priority; F Long 0; F Long 0; F Long 0].
Definition start_ftimer (period ftick_freq : Z) : uprog :=
  let! _ := rtai_lxrt Void BIDX (if period =? 0 then SET_ONESHOT_MODE else SET_PERIODIC_MODE) [F Long period] in
  let! _ := rtai_lxrt Void BIDX REQUEST_RTC [F Long ftick_freq; F Ptr 0] in
  rtai_lxrt Rtime BIDX START_TIMER [F Long period].
Definition stop_ftimer : uprog :=
  let! _ := rtai_lxrt Void BIDX RELEASE_RTC [dummy Long] in
  rtai_lxrt Rtime BIDX STOP_TIMER [dummy Long].
Definition rt_sched_latencies (klat ulat period : Z) : uprog :=
  rtai_lxrt Int BIDX SCHED_LATENCIES [F Long klat; F Long ulat; F Long period].
Definition rt_get_cpu_freq : uprog := rtai_lxrt Uint BIDX GET_CPU_FREQ [dummy Ulong].
