(* ===== verification/UserIpc.v ===== *)
(** * The user interface of semaphores, mailboxes, messages, shared memory and signals

    The functions for processes of include/rtai_sem.h, rtai_rwl.h, rtai_spl.h, rtai_mbx.h, rtai_msg.h,
    rtai_shm.h and rtai_signal.h, as programs of requests ([User]). *)

From Stdlib Require Import Ascii String.
From S2P Require Import Prelude Nam2num Kernel Sys Srq User.

(** ** Semaphores and conditions *)

Definition rt_typed_sem_init (name value type : Z) : uprog :=
  let! name := if name =? 0 then rt_get_name 0 else URet name in
  rtai_lxrt Ptr BIDX LXRT_SEM_INIT [F Ulong name; F Long value; F Long type].
Definition rt_sem_delete (sem : Z) : uprog := rtai_lxrt Int BIDX LXRT_SEM_DELETE [F Ptr sem].
Definition rt_typed_named_sem_init (name : list Z) (value type : Z) : uprog :=
  rtai_lxrt Ptr BIDX NAMED_SEM_INIT [F Ulong (nam2num name); F Long value; F Long type; F Ptr 0].
Definition rt_named_sem_delete (sem : Z) : uprog := rtai_lxrt Int BIDX NAMED_SEM_DELETE [F Ptr sem].
Definition rt_sem_signal (sem : Z) : uprog := rtai_lxrt Int BIDX SEM_SIGNAL [F Ptr sem].
Definition rt_sem_broadcast (sem : Z) : uprog := rtai_lxrt Int BIDX SEM_BROADCAST [F Ptr sem].
Definition rt_sem_wait (sem : Z) : uprog := rtai_lxrt Int BIDX SEM_WAIT [F Ptr sem].
Definition rt_sem_wait_if (sem : Z) : uprog := rtai_lxrt Int BIDX SEM_WAIT_IF [F Ptr sem].
Definition rt_sem_wait_until (sem time : Z) : uprog :=
  rtai_lxrt Int BIDX SEM_WAIT_UNTIL [F Ptr sem; F Rtime time].
Definition rt_sem_wait_timed (sem delay : Z) : uprog :=
  rtai_lxrt Int BIDX SEM_WAIT_TIMED [F Ptr sem; F Rtime delay].
Definition rt_sem_wait_barrier (sem : Z) : uprog := rtai_lxrt Int BIDX SEM_WAIT_BARRIER [F Ptr sem].
Definition rt_sem_count (sem : Z) : uprog := rtai_lxrt Int BIDX SEM_COUNT [F Ptr sem].
Definition rt_cond_signal (cnd : Z) : uprog := rtai_lxrt Int BIDX COND_SIGNAL [F Ptr cnd].
Definition rt_cond_wait (cnd mutex : Z) : uprog := rtai_lxrt Int BIDX COND_WAIT [F Ptr cnd; F Ptr mutex].
Definition rt_cond_wait_until (cnd mutex time : Z) : uprog :=
  rtai_lxrt Int BIDX COND_WAIT_UNTIL [F Ptr cnd; F Ptr mutex; F Rtime time].
Definition rt_cond_wait_timed (cnd mutex delay : Z) : uprog :=
  rtai_lxrt Int BIDX COND_WAIT_TIMED [F Ptr cnd; F Ptr mutex; F Rtime delay].
(** With the option CONFIG_RTAI_RT_POLL; the last field tells the kernel that the structures are the process's. *)
Definition rt_poll (with_poll : bool) (pdsa nr timeout : Z) : uprog :=
  if with_poll then rtai_lxrt Int BIDX SEM_RT_POLL [F Ptr pdsa; F Ulong nr; F Rtime timeout; F Long 0]
  else URet RTE_OBJINV.

(** ** Readers-writer locks *)

Definition rt_typed_rwl_init (name type : Z) : uprog :=
  rtai_lxrt Ptr BIDX LXRT_RWL_INIT [F Ulong name; F Long type].
Definition rt_rwl_delete (rwl : Z) : uprog := rtai_lxrt Int BIDX LXRT_RWL_DELETE [F Ptr rwl].
Definition rt_named_rwl_init (name : list Z) : uprog :=
  rtai_lxrt Ptr BIDX NAMED_RWL_INIT [F Ulong (nam2num name)].
Definition rt_named_rwl_delete (rwl : Z) : uprog := rtai_lxrt Int BIDX NAMED_RWL_DELETE [F Ptr rwl].
Definition rt_rwl_rdlock (rwl : Z) : uprog := rtai_lxrt Int BIDX RWL_RDLOCK [F Ptr rwl].
Definition rt_rwl_rdlock_if (rwl : Z) : uprog := rtai_lxrt Int BIDX RWL_RDLOCK_IF [F Ptr rwl].
Definition rt_rwl_rdlock_until (rwl time : Z) : uprog :=
  rtai_lxrt Int BIDX RWL_RDLOCK_UNTIL [F Ptr rwl; F Rtime time].
Definition rt_rwl_rdlock_timed (rwl delay : Z) : uprog :=
  rtai_lxrt Int BIDX RWL_RDLOCK_TIMED [F Ptr rwl; F Rtime delay].
Definition rt_rwl_wrlock (rwl : Z) : uprog := rtai_lxrt Int BIDX RWL_WRLOCK [F Ptr rwl].
Definition rt_rwl_wrlock_if (rwl : Z) : uprog := rtai_lxrt Int BIDX RWL_WRLOCK_IF [F Ptr rwl].
Definition rt_rwl_wrlock_until (rwl time : Z) : uprog :=
  rtai_lxrt Int BIDX RWL_WRLOCK_UNTIL [F Ptr rwl; F Rtime time].
Definition rt_rwl_wrlock_timed (rwl delay : Z) : uprog :=
  rtai_lxrt Int BIDX RWL_WRLOCK_TIMED [F Ptr rwl; F Rtime delay].
Definition rt_rwl_unlock (rwl : Z) : uprog := rtai_lxrt Int BIDX RWL_UNLOCK [F Ptr rwl].

(** ** Spinlocks *)

Definition rt_spl_init (name : Z) : uprog := rtai_lxrt Ptr BIDX LXRT_SPL_INIT [F Ulong name].
Definition rt_spl_delete (spl : Z) : uprog := rtai_lxrt Int BIDX LXRT_SPL_DELETE [F Ptr spl].
Definition rt_named_spl_init (name : list Z) : uprog :=
  rtai_lxrt Ptr BIDX NAMED_SPL_INIT [F Ulong (nam2num name)].
Definition rt_named_spl_delete (spl : Z) : uprog := rtai_lxrt Int BIDX NAMED_SPL_DELETE [F Ptr spl].
Definition rt_spl_lock (spl : Z) : uprog := rtai_lxrt Int BIDX SPL_LOCK [F Ptr spl].
Definition rt_spl_lock_if (spl : Z) : uprog := rtai_lxrt Int BIDX SPL_LOCK_IF [F Ptr spl].
Definition rt_spl_lock_timed (spl delay : Z) : uprog :=
  rtai_lxrt Int BIDX SPL_LOCK_TIMED [F Ptr spl; F Rtime delay].
Definition rt_spl_unlock (spl : Z) : uprog := rtai_lxrt Int BIDX SPL_UNLOCK [F Ptr spl].

(** ** Mailboxes *)

Definition rt_typed_mbx_init (name size qtype : Z) : uprog :=
  rtai_lxrt Ptr BIDX LXRT_MBX_INIT [F Ulong name; F Long size; F Long qtype].
Definition rt_mbx_delete (mbx : Z) : uprog := rtai_lxrt Int BIDX LXRT_MBX_DELETE [F Ptr mbx].
Definition rt_typed_named_mbx_init (name : list Z) (size type : Z) : uprog :=
  rtai_lxrt Ptr BIDX NAMED_MBX_INIT [F Ulong (nam2num name); F Long size; F Long type].
Definition rt_named_mbx_delete (mbx : Z) : uprog := rtai_lxrt Int BIDX NAMED_MBX_DELETE [F Ptr mbx].
Definition rt_mbx_send (mbx msg msg_size : Z) : uprog :=
  rtai_lxrt Int BIDX MBX_SEND [F Ptr mbx; F Ptr msg; F Long msg_size; F Long 0].
Definition rt_mbx_send_wp (mbx msg msg_size : Z) : uprog :=
  rtai_lxrt Int BIDX MBX_SEND_WP [F Ptr mbx; F Ptr msg; F Long msg_size; F Long 0].
Definition rt_mbx_send_if (mbx msg msg_size : Z) : uprog :=
  rtai_lxrt Int BIDX MBX_SEND_IF [F Ptr mbx; F Ptr msg; F Long msg_size; F Long 0].
Definition rt_mbx_send_until (mbx msg msg_size time : Z) : uprog :=
  rtai_lxrt Int BIDX MBX_SEND_UNTIL [F Ptr mbx; F Ptr msg; F Long msg_size; F Rtime time; F Long 0].
Definition rt_mbx_send_timed (mbx msg msg_size delay : Z) : uprog :=
  rtai_lxrt Int BIDX MBX_SEND_TIMED [F Ptr mbx; F Ptr msg; F Long msg_size; F Rtime delay; F Long 0].
Definition rt_mbx_ovrwr_send (mbx msg msg_size : Z) : uprog :=
  rtai_lxrt Int BIDX MBX_OVRWR_SEND [F Ptr mbx; F Ptr msg; F Long msg_size; F Long 0].
Definition rt_mbx_evdrp (mbx msg msg_size : Z) : uprog :=
  rtai_lxrt Int BIDX MBX_EVDRP [F Ptr mbx; F Ptr msg; F Long msg_size; F Long 0].
Definition rt_mbx_receive (mbx msg msg_size : Z) : uprog :=
  rtai_lxrt Int BIDX MBX_RECEIVE [F Ptr mbx; F Ptr msg; F Long msg_size; F Long 0].
Definition rt_mbx_receive_wp (mbx msg msg_size : Z) : uprog :=
  rtai_lxrt Int BIDX MBX_RECEIVE_WP [F Ptr mbx; F Ptr msg; F Long msg_size; F Long 0].
Definition rt_mbx_receive_if (mbx msg msg_size : Z) : uprog :=
  rtai_lxrt Int BIDX MBX_RECEIVE_IF [F Ptr mbx; F Ptr msg; F Long msg_size; F Long 0].
Definition rt_mbx_receive_until (mbx msg msg_size time : Z) : uprog :=
  rtai_lxrt Int BIDX MBX_RECEIVE_UNTIL [F Ptr mbx; F Ptr msg; F Long msg_size; F Rtime time; F Long 0].
Definition rt_mbx_receive_timed (mbx msg msg_size delay : Z) : uprog :=
  rtai_lxrt Int BIDX MBX_RECEIVE_TIMED [F Ptr mbx; F Ptr msg; F Long msg_size; F Rtime delay; F Long 0].

(** ** Messages *)

Definition rt_send (task msg : Z) : uprog := rtai_lxrt Ptr BIDX SENDMSG [F Ptr task; F Ulong msg].
Definition rt_send_if (task msg : Z) : uprog := rtai_lxrt Ptr BIDX SEND_IF [F Ptr task; F Ulong msg].
Definition rt_send_until (task msg time : Z) : uprog :=
  rtai_lxrt Ptr BIDX SEND_UNTIL [F Ptr task; F Ulong msg; F Rtime time].
Definition rt_send_timed (task msg delay : Z) : uprog :=
  rtai_lxrt Ptr BIDX SEND_TIMED [F Ptr task; F Ulong msg; F Rtime delay].
Definition rt_evdrp (task msg : Z) : uprog := rtai_lxrt Ptr BIDX EVDRP [F Ptr task; F Ptr msg].
Definition rt_receive (task msg : Z) : uprog := rtai_lxrt Ptr BIDX RECEIVEMSG [F Ptr task; F Ptr msg].
Definition rt_receive_if (task msg : Z) : uprog := rtai_lxrt Ptr BIDX RECEIVE_IF [F Ptr task; F Ptr msg].
Definition rt_receive_until (task msg time : Z) : uprog :=
  rtai_lxrt Ptr BIDX RECEIVE_UNTIL [F Ptr task; F Ptr msg; F Rtime time].
Definition rt_receive_timed (task msg delay : Z) : uprog :=
  rtai_lxrt Ptr BIDX RECEIVE_TIMED [F Ptr task; F Ptr msg; F Rtime delay].
Definition rt_rpc (task to_do result : Z) : uprog :=
  rtai_lxrt Ptr BIDX RPCMSG [F Ptr task; F Ulong to_do; F Ptr result].
Definition rt_rpc_if (task to_do result : Z) : uprog :=
  rtai_lxrt Ptr BIDX RPC_IF [F Ptr task; F Ulong to_do; F Ptr result].
Definition rt_rpc_until (task to_do result time : Z) : uprog :=
  rtai_lxrt Ptr BIDX RPC_UNTIL [F Ptr task; F Ulong to_do; F Ptr result; F Rtime time].
Definition rt_rpc_timed (task to_do result delay : Z) : uprog :=
  rtai_lxrt Ptr BIDX RPC_TIMED [F Ptr task; F Ulong to_do; F Ptr result; F Rtime delay].
Definition rt_isrpc (task : Z) : uprog := rtai_lxrt Int BIDX ISRPC [F Ptr task].
Definition rt_return (task result : Z) : uprog := rtai_lxrt Ptr BIDX RETURNMSG [F Ptr task; F Ulong result].
Definition rt_rpcx (task smsg rmsg ssize rsize : Z) : uprog :=
  rtai_lxrt Ptr BIDX RPCX [F Ptr task; F Ptr smsg; F Ptr rmsg; F Long ssize; F Long rsize].
Definition rt_rpcx_if (task smsg rmsg ssize rsize : Z) : uprog :=
  rtai_lxrt Ptr BIDX RPCX_IF [F Ptr task; F Ptr smsg; F Ptr rmsg; F Long ssize; F Long rsize].
Definition rt_rpcx_until (task smsg rmsg ssize rsize time : Z) : uprog :=
  rtai_lxrt Ptr BIDX RPCX_UNTIL [F Ptr task; F Ptr smsg; F Ptr rmsg; F Long ssize; F Long rsize; F Rtime time].
Definition rt_rpcx_timed (task smsg rmsg ssize rsize delay : Z) : uprog :=
  rtai_lxrt Ptr BIDX RPCX_TIMED [F Ptr task; F Ptr smsg; F Ptr rmsg; F Long ssize; F Long rsize; F Rtime delay].
Definition rt_sendx (task msg size : Z) : uprog :=
  rtai_lxrt Ptr BIDX SENDX [F Ptr task; F Ptr msg; F Long size].
Definition rt_sendx_if (task msg size : Z) : uprog :=
  rtai_lxrt Ptr BIDX SENDX_IF [F Ptr task; F Ptr msg; F Long size].
Definition rt_sendx_until (task msg size time : Z) : uprog :=
  rtai_lxrt Ptr BIDX SENDX_UNTIL [F Ptr task; F Ptr msg; F Long size; F Rtime time].
Definition rt_sendx_timed (task msg size delay : Z) : uprog :=
  rtai_lxrt Ptr BIDX SENDX_TIMED [F Ptr task; F Ptr msg; F Long size; F Rtime delay].
Definition rt_returnx (task msg size : Z) : uprog :=
  rtai_lxrt Ptr BIDX RETURNX [F Ptr task; F Ptr msg; F Long size].
Definition rt_evdrpx (task msg size len : Z) : uprog :=
  rtai_lxrt Ptr BIDX EVDRPX [F Ptr task; F Ptr msg; F Long size; F Ptr len].
Definition rt_receivex (task msg size len : Z) : uprog :=
  rtai_lxrt Ptr BIDX RECEIVEX [F Ptr task; F Ptr msg; F Long size; F Ptr len].
Definition rt_receivex_if (task msg size len : Z) : uprog :=
  rtai_lxrt Ptr BIDX RECEIVEX_IF [F Ptr task; F Ptr msg; F Long size; F Ptr len].
Definition rt_receivex_until (task msg size len time : Z) : uprog :=
  rtai_lxrt Ptr BIDX RECEIVEX_UNTIL [F Ptr task; F Ptr msg; F Long size; F Ptr len; F Rtime time].
Definition rt_receivex_timed (task msg size len delay : Z) : uprog :=
  rtai_lxrt Ptr BIDX RECEIVEX_TIMED [F Ptr task; F Ptr msg; F Long size; F Ptr len; F Rtime delay].
Definition rt_proxy_attach (proxy msg nbytes priority : Z) : uprog :=
  rtai_lxrt Ptr BIDX PROXY_ATTACH [F Ptr proxy; F Ptr msg; F Long nbytes; F Long priority].
Definition rt_proxy_detach (proxy : Z) : uprog := rtai_lxrt Int BIDX PROXY_DETACH [F Ptr proxy].
Definition rt_trigger (proxy : Z) : uprog := rtai_lxrt Ptr BIDX PROXY_TRIGGER [F Ptr proxy].
Definition rt_Send (pid smsg rmsg ssize rsize : Z) : uprog :=
  rtai_lxrt Int BIDX RT_SEND [F Long pid; F Ptr smsg; F Ptr rmsg; F Ulong ssize; F Ulong rsize].
Definition rt_Receive (pid msg maxsize msglen : Z) : uprog :=
  rtai_lxrt Int BIDX RT_RECEIVE [F Long pid; F Ptr msg; F Ulong maxsize; F Ptr msglen].
Definition rt_Creceive (pid msg maxsize msglen delay : Z) : uprog :=
  rtai_lxrt Int BIDX RT_CRECEIVE [F Long pid; F Ptr msg; F Ulong maxsize; F Ptr msglen; F Rtime delay].
Definition rt_Reply (pid msg size : Z) : uprog :=
  rtai_lxrt Int BIDX RT_REPLY [F Long pid; F Ptr msg; F Ulong size].
Definition rt_Proxy_attach (pid msg nbytes priority : Z) : uprog :=
  rtai_lxrt Int BIDX RT_PROXY_ATTACH [F Long pid; F Ptr msg; F Long nbytes; F Long priority].
Definition rt_Proxy_detach (pid : Z) : uprog := rtai_lxrt Int BIDX RT_PROXY_DETACH [F Long pid].
Definition rt_Trigger (pid : Z) : uprog := rtai_lxrt Int BIDX RT_TRIGGER [F Long pid].
Definition rt_Alias_attach (name : Z) : uprog := rtai_lxrt Int BIDX RT_NAME_ATTACH [F Ptr name].
Definition rt_Name_locate (host name : Z) : uprog := rtai_lxrt Int BIDX RT_NAME_LOCATE [F Ptr host; F Ptr name].
Definition rt_Name_detach (pid : Z) : uprog := rtai_lxrt Int BIDX RT_NAME_DETACH [F Long pid].

(** Functions of a module that is no longer there: their numbers are those of other services now. *)
Definition rt_InitTickQueue : uprog := rtai_lxrt Int BIDX RT_INITTICKQUEUE [dummy Ulong].
Definition rt_ReleaseTickQueue : uprog := rtai_lxrt Void BIDX RT_RELEASETICKQUEUE [dummy Ulong].
Definition rt_qDynAlloc (n : Z) : uprog := rtai_lxrt Ulong BIDX RT_QDYNALLOC [F Ulong n].
Definition rt_qDynFree (n : Z) : uprog := rtai_lxrt Ulong BIDX RT_QDYNFREE [F Long n].
Definition rt_qDynInit (q fun_ data evn : Z) : uprog :=
  let! r := rtai_lxrt Ptr BIDX RT_QDYNINIT [F Ptr 0; F Ptr fun_; F Ptr data; F Long evn] in
  if q =? 0 then URet r else Store q Ptr r (URet r).
Definition rt_qBlkWait (q t : Z) : uprog := rtai_lxrt Void BIDX RT_QBLKWAIT [F Ptr q; F Rtime t].
Definition rt_qBlkRepeat (q t : Z) : uprog := rtai_lxrt Void BIDX RT_QBLKREPEAT [F Ptr q; F Rtime t].
Definition rt_qBlkSoon (q : Z) : uprog := rtai_lxrt Void BIDX RT_QBLKSOON [F Ptr q].
Definition rt_qBlkDequeue (q : Z) : uprog := rtai_lxrt Void BIDX RT_QBLKDEQUEUE [F Ptr q].
Definition rt_qBlkCancel (q : Z) : uprog := rtai_lxrt Void BIDX RT_QBLKCANCEL [F Ptr q].
Definition rt_qBlkBefore (cur nxt : Z) : uprog := rtai_lxrt Void BIDX RT_QBLKBEFORE [F Ptr cur; F Ptr nxt].
Definition rt_qBlkAfter (cur prv : Z) : uprog := rtai_lxrt Void BIDX RT_QBLKAFTER [F Ptr cur; F Ptr prv].
Definition rt_qBlkUnhook (q : Z) : uprog := rtai_lxrt Ptr BIDX RT_QBLKUNHOOK [F Ptr q].
Definition rt_qBlkRelease (q : Z) : uprog := rtai_lxrt Void BIDX RT_QBLKRELEASE [F Ptr q].
Definition rt_qBlkComplete (q : Z) : uprog := rtai_lxrt Void BIDX RT_QBLKCOMPLETE [F Ptr q].
Definition rt_qSync : uprog := rtai_lxrt Int BIDX RT_QSYNC [dummy Ulong].
Definition rt_qReceive (target buf maxlen msglen : Z) : uprog :=
  rtai_lxrt Int BIDX RT_QRECEIVE [F Long target; F Ptr buf; F Ulong maxlen; F Ptr msglen].
Definition rt_qLoop : uprog := rtai_lxrt Void BIDX RT_QLOOP [dummy Ulong].
Definition rt_qStep : uprog := rtai_lxrt Rtime BIDX RT_QSTEP [dummy Ulong].
Definition rt_qHookFlush (h : Z) : uprog := rtai_lxrt Void BIDX RT_QHOOKFLUSH [F Ptr h].
Definition rt_qBlkAtHead (q h : Z) : uprog := rtai_lxrt Void BIDX RT_QBLKATHEAD [F Ptr q; F Ptr h].
Definition rt_qBlkAtTail (q h : Z) : uprog := rtai_lxrt Void BIDX RT_QBLKATTAIL [F Ptr q; F Ptr h].
Definition rt_qHookInit (h c a : Z) : uprog :=
  let! r := rtai_lxrt Ptr BIDX RT_QHOOKINIT [F Ptr 0; F Ptr c; F Ptr a] in
  if h =? 0 then URet r else Store h Ptr r (URet r).
Definition rt_qHookRelease (h : Z) : uprog := rtai_lxrt Void BIDX RT_QHOOKRELEASE [F Ptr h].
Definition rt_qBlkSchedule (q t : Z) : uprog := rtai_lxrt Void BIDX RT_QBLKSCHEDULE [F Ptr q; F Rtime t].
Definition rt_GetTickQueueHook : uprog := rtai_lxrt Ptr BIDX RT_GETTICKQUEUEHOOK [dummy Ulong].
Definition rt_vc_reserve : uprog := rtai_lxrt Int BIDX RT_VC_RESERVE [dummy Ulong].
Definition rt_vc_attach (pid : Z) : uprog := rtai_lxrt Int BIDX RT_VC_ATTACH [F Long pid].
Definition rt_vc_release (pid : Z) : uprog := rtai_lxrt Int BIDX RT_VC_RELEASE [F Long pid].

(** ** Shared memory *)

Definition O_RDWR := 2.
Definition RTAI_SHM_DEV : list Z := map (fun c => Z.of_nat (nat_of_ascii c)) (list_ascii_of_string "/dev/rtai_shm").
(** What [mmap] returns when it fails. *)
Definition MAP_FAILED := 2 ^ 64 - 1.
Definition _rt_shm_alloc (start name size suprt isheap : Z) : uprog :=
  let! hook := libc (Open RTAI_SHM_DEV O_RDWR) in
  if hook <=? 0 then URet 0
  else
    let! size := libc (Ioctl hook SHM_ALLOC (Obj (Struct [F Ulong name; F Long size; F Long suprt]))) in
    let! adr := if negb (size =? 0) then
                  let! adr := linux (Mmap start (u64 size) hook) in
                  if adr =? MAP_FAILED then let! _ := libc (Ioctl hook SHM_FREE (Obj (Struct [F Ulong name]))) in URet adr
                  else if negb (isheap =? 0) then
                    let! _ := libc (Ioctl hook HEAP_SET (Obj (Struct [F Ulong name; F Long (i64 adr); F Long suprt]))) in
                    URet adr
                  else URet adr
                else URet 0 in
    let! _ := libc (Close hook) in URet adr.
(** The kernel replaces the name by the address ([Shm.rt_shm_size]). *)
Definition rt_shm_free (name : Z) : uprog :=
  Alloca (Struct [F Ulong name]) (fun nameadr =>
    let! hook := libc (Open RTAI_SHM_DEV O_RDWR) in
    if hook <=? 0 then URet 0
    else
      let! size := libc (Ioctl hook SHM_SIZE (Obj (Struct [F Ptr nameadr]))) in
      let! size := if negb (size =? 0) then
                     Load nameadr Ulong (fun adr =>
                       let! r := libc (Munmap adr (u64 size)) in URet (if negb (r =? 0) then 0 else size))
                   else URet size in
      let! _ := libc (Close hook) in URet size).
Definition rt_halloc (size : Z) : uprog := rtai_lxrt Ptr BIDX HEAP_ALLOC [F Long size].
Definition rt_hfree (addr : Z) : uprog := rtai_lxrt Void BIDX HEAP_FREE [F Ptr addr].
Definition rt_named_halloc (name size : Z) : uprog :=
  rtai_lxrt Ptr BIDX HEAP_NAMED_ALLOC [F Ulong name; F Long size].
Definition rt_named_hfree (addr : Z) : uprog := rtai_lxrt Void BIDX HEAP_NAMED_FREE [F Ptr addr].
Definition rt_malloc (size : Z) : uprog := rtai_lxrt Ptr BIDX MALLOC [F Long size].
Definition rt_free (addr : Z) : uprog := rtai_lxrt Void BIDX FREE [F Ptr addr].
Definition rt_named_malloc (name size : Z) : uprog :=
  rtai_lxrt Ptr BIDX NAMED_MALLOC [F Ulong name; F Long size].
Definition rt_named_free (addr : Z) : uprog := rtai_lxrt Void BIDX NAMED_FREE [F Ptr addr].

(** ** Signals *)

Definition RTAI_SIGNALS_IDX := BIDX.
(** [signal_suprt_fun] is the address of the function of the helper's thread; the request for the processor
    gives the whole structure, of which its size is one word. *)
Definition SIGNAL_TASK_STACK_SIZE := 64 * 1024.
Definition rt_request_signal (signal_suprt_fun signal sighdl : Z) : uprog :=
  if (0 <=? signal) && negb (sighdl =? 0) then
    let! task := rt_agent in
    let! cpuid := rtai_lxrt_sized Ulong RTAI_SIGNALS_IDX 8 RT_SIGNAL_HELPER
                    [F Ptr 0; F Ptr task; F Long signal; F Ptr sighdl; F Ulong 0] in
    Alloca (Struct [F Ptr 0; F Ptr task; F Long signal; F Ptr sighdl; F Ulong cpuid]) (fun arg =>
      let! thread := rt_thread_create signal_suprt_fun arg SIGNAL_TASK_STACK_SIZE in
      if negb (thread =? 0)
      then rtai_lxrt_sized Int RTAI_SIGNALS_IDX 8 RT_SIGNAL_HELPER [F Ptr task; F Long signal; F Ptr sighdl; F Ulong cpuid]
      else URet (- EINVAL))
  else URet (- EINVAL).
Definition rt_release_signal (signal task : Z) : uprog :=
  rtai_lxrt Int RTAI_SIGNALS_IDX RT_SIGNAL_RELEASE [F Long signal; F Ptr task].
Definition rt_enable_signal (signal task : Z) : uprog :=
  rtai_lxrt Void RTAI_SIGNALS_IDX RT_SIGNAL_ENABLE [F Long signal; F Ptr task].
Definition rt_disable_signal (signal task : Z) : uprog :=
  rtai_lxrt Void RTAI_SIGNALS_IDX RT_SIGNAL_DISABLE [F Long signal; F Ptr task].
Definition rt_trigger_signal (signal task : Z) : uprog :=
  rtai_lxrt Void RTAI_SIGNALS_IDX RT_SIGNAL_TRIGGER [F Long signal; F Ptr task].
