(* ===== verification/UserFifo.v ===== *)
(** * The user interface of the FIFOs

    include/rtai_fifos.h gives processes two ways to a FIFO: requests to the table of the FIFO module, like
    those of [UserIpc], and commands to its device file. *)

From S2P Require Import Prelude Sys User.

(** ** Requests *)

Definition FUN_FIFOS_LXRT_INDX := 10.
Definition _CREATE := 0.
Definition _DESTROY := 1.
Definition _PUT := 2.
Definition _GET := 3.
Definition _RESET := 4.
Definition _RESIZE := 5.
Definition _SEM_INIT := 6.
Definition _SEM_DESTRY := 7.
Definition _SEM_POST := 8.
Definition _SEM_TRY := 9.
Definition _CREATE_NAMED := 10.
Definition _GETBY_NAME := 11.
Definition _OVERWRITE := 12.
Definition _PUT_IF := 13.
Definition _GET_IF := 14.
Definition _NAMED_CREATE := 15.
Definition _AVBS := 16.
Definition _FRBS := 17.

Definition rtf_create (fifo size : Z) : uprog :=
  rtai_lxrt Int FUN_FIFOS_LXRT_INDX _CREATE [F Ulong fifo; F Ulong size].
Definition rtf_destroy (fifo : Z) : uprog := rtai_lxrt Int FUN_FIFOS_LXRT_INDX _DESTROY [F Ulong fifo].
Definition rtf_put (fifo buf count : Z) : uprog :=
  rtai_lxrt Int FUN_FIFOS_LXRT_INDX _PUT [F Ulong fifo; F Ptr buf; F Long count].
Definition rtf_put_if (fifo buf count : Z) : uprog :=
  rtai_lxrt Int FUN_FIFOS_LXRT_INDX _PUT_IF [F Ulong fifo; F Ptr buf; F Long count].
Definition rtf_get (fifo buf count : Z) : uprog :=
  rtai_lxrt Int FUN_FIFOS_LXRT_INDX _GET [F Ulong fifo; F Ptr buf; F Long count].
Definition rtf_get_if (fifo buf count : Z) : uprog :=
  rtai_lxrt Int FUN_FIFOS_LXRT_INDX _GET_IF [F Ulong fifo; F Ptr buf; F Long count].
Definition rtf_get_avbs (fifo : Z) : uprog := rtai_lxrt Int FUN_FIFOS_LXRT_INDX _AVBS [F Ulong fifo].
Definition rtf_get_frbs (fifo : Z) : uprog := rtai_lxrt Int FUN_FIFOS_LXRT_INDX _FRBS [F Ulong fifo].
Definition rtf_reset_lxrt (fifo : Z) : uprog := rtai_lxrt Int FUN_FIFOS_LXRT_INDX _RESET [F Ulong fifo].
Definition rtf_resize_lxrt (fifo size : Z) : uprog :=
  rtai_lxrt Int FUN_FIFOS_LXRT_INDX _RESIZE [F Ulong fifo; F Ulong size].
Definition rtf_sem_init_lxrt (fifo value : Z) : uprog :=
  rtai_lxrt Int FUN_FIFOS_LXRT_INDX _SEM_INIT [F Ulong fifo; F Ulong value].
Definition rtf_sem_post_lxrt (fifo : Z) : uprog := rtai_lxrt Int FUN_FIFOS_LXRT_INDX _SEM_POST [F Ulong fifo].
Definition rtf_sem_trywait_lxrt (fifo : Z) : uprog := rtai_lxrt Int FUN_FIFOS_LXRT_INDX _SEM_TRY [F Ulong fifo].
Definition rtf_sem_destroy_lxrt (fifo : Z) : uprog :=
  rtai_lxrt Int FUN_FIFOS_LXRT_INDX _SEM_DESTRY [F Ulong fifo].
(** [name] is a string, so without its final 0; the copy is as long and has none. *)
Definition rtf_named_create_lxrt (name : list Z) (size : Z) : uprog :=
  Alloca (Str name) (fun lname => rtai_lxrt Int FUN_FIFOS_LXRT_INDX _NAMED_CREATE [F Ptr lname; F Long size]).
Definition rtf_create_named_lxrt (name : list Z) : uprog :=
  Alloca (Str name) (fun lname => rtai_lxrt Int FUN_FIFOS_LXRT_INDX _CREATE_NAMED [F Ptr lname]).
Definition rtf_getfifobyname_lxrt (name : list Z) : uprog :=
  Alloca (Str name) (fun lname => rtai_lxrt Int FUN_FIFOS_LXRT_INDX _GETBY_NAME [F Ptr lname]).
Definition rtf_ovrwr_put (fifo buf count : Z) : uprog :=
  rtai_lxrt Int FUN_FIFOS_LXRT_INDX _OVERWRITE [F Ulong fifo; F Ptr buf; F Long count].

(** ** Commands of the device *)

Definition RESET := 1.
Definition RESIZE := 2.
Definition RTF_SUSPEND_TIMED := 3.
Definition OPEN_SIZED := 4.
Definition READ_ALL_AT_ONCE := 5.
Definition READ_TIMED := 6.
Definition WRITE_TIMED := 7.
Definition RTF_SEM_INIT := 8.
Definition RTF_SEM_WAIT := 9.
Definition RTF_SEM_TRYWAIT := 10.
Definition RTF_SEM_TIMED_WAIT := 11.
Definition RTF_SEM_POST := 12.
Definition RTF_SEM_DESTROY := 13.
Definition SET_ASYNC_SIG := 14.
Definition EAVESDROP := 19.
Definition OVRWRITE := 20.
Definition READ_IF := 21.
Definition WRITE_IF := 22.
Definition RTF_NAMED_CREATE := 23.
Definition RTF_GET_N_FIFOS := 15.
Definition RTF_GET_FIFO_INFO := 16.
Definition RTF_CREATE_NAMED := 17.
Definition RTF_NAME_LOOKUP := 18.
Definition RTF_NAMELEN := 15.
Definition O_RDONLY := 0.

Definition rtf_reset (fd : Z) : uprog := or_errno (Ioctl fd RESET NoArg).
Definition rtf_resize (fd size : Z) : uprog := or_errno (Ioctl fd RESIZE (Val size)).
Definition rtf_suspend_timed (fd ms_delay : Z) : uprog := or_errno (Ioctl fd RTF_SUSPEND_TIMED (Val ms_delay)).
Definition rtf_open_sized (dev : list Z) (perm size : Z) : uprog :=
  let! fd := or_errno (Open dev perm) in
  if fd <? 0 then URet fd
  else
    let! r := or_errno (Ioctl fd RESIZE (Val size)) in
    if r <? 0 then let! _ := libc (Close fd) in URet r else URet fd.
(** The structure of a transfer: a pointer and longs. *)
Definition transfer (buf count : Z) : ioctl_arg := Obj (Struct [F Ptr buf; F Long count]).
Definition transfer_timed (buf count delay : Z) : ioctl_arg := Obj (Struct [F Ptr buf; F Long count; F Long delay]).
Definition rtf_evdrp (fd buf count : Z) : uprog := or_errno (Ioctl fd EAVESDROP (transfer buf count)).
Definition rtf_read_all_at_once (fd buf count : Z) : uprog :=
  or_errno (Ioctl fd READ_ALL_AT_ONCE (transfer buf count)).
Definition rtf_read_timed (fd buf count ms_delay : Z) : uprog :=
  or_errno (Ioctl fd READ_TIMED (transfer_timed buf count ms_delay)).
Definition rtf_read_if (fd buf count : Z) : uprog := or_errno (Ioctl fd READ_IF (transfer buf count)).
Definition rtf_write_timed (fd buf count ms_delay : Z) : uprog :=
  or_errno (Ioctl fd WRITE_TIMED (transfer_timed buf count ms_delay)).
Definition rtf_overwrite (fd buf count : Z) : uprog := or_errno (Ioctl fd OVRWRITE (transfer buf count)).
Definition rtf_write_if (fd buf count : Z) : uprog := or_errno (Ioctl fd WRITE_IF (transfer buf count)).
Definition rtf_sem_init (fd value : Z) : uprog := or_errno (Ioctl fd RTF_SEM_INIT (Val value)).
Definition rtf_sem_wait (fd : Z) : uprog := or_errno (Ioctl fd RTF_SEM_WAIT NoArg).
Definition rtf_sem_trywait (fd : Z) : uprog := or_errno (Ioctl fd RTF_SEM_TRYWAIT NoArg).
Definition rtf_sem_timed_wait (fd ms_delay : Z) : uprog :=
  or_errno (Ioctl fd RTF_SEM_TIMED_WAIT (Val ms_delay)).
Definition rtf_sem_post (fd : Z) : uprog := or_errno (Ioctl fd RTF_SEM_POST NoArg).
Definition rtf_sem_destroy (fd : Z) : uprog := or_errno (Ioctl fd RTF_SEM_DESTROY NoArg).
Definition rtf_set_async_sig (fd signum : Z) : uprog := or_errno (Ioctl fd SET_ASYNC_SIG (Val signum)).

(** ** FIFOs by name *)

Section names.
(** The name of the device of a FIFO, by the template of the configuration. *)
Context (template : Z -> list Z).
Definition rtf_getfifobyminor (minor len : Z) : list Z := ztake (len - 1) (template minor).
(** [strncpy] into the [RTF_NAMELEN + 1] bytes of the buffer, which fills the rest with zeros. *)
Definition name_buffer (name : list Z) : list Z := name ++ repeat 0 (Z.to_nat (RTF_NAMELEN + 1 - zlen name)).
(** What the three functions have in common, [arg] being what they give with the command. *)
Definition by_name (name : list Z) (cmd : Z) : uprog :=
  if RTF_NAMELEN <? zlen name then URet (-1)
  else
    let! fd := or_errno (Open (rtf_getfifobyminor 0 (RTF_NAMELEN + 1)) O_RDONLY) in
    if fd <? 0 then URet fd
    else
      let! minor := or_errno (Ioctl fd cmd (Obj (Str (name_buffer name)))) in
      let! _ := libc (Close fd) in URet minor.
Definition rtf_getfifobyname (name : list Z) : uprog := by_name name RTF_NAME_LOOKUP.
(** The size is one more argument of [ioctl], which takes no more than it has. *)
Definition rtf_named_create (name : list Z) (size : Z) : uprog := by_name name RTF_NAMED_CREATE.
Definition rtf_create_named (name : list Z) : uprog := by_name name RTF_CREATE_NAMED.
End names.
