(* ===== verification/Entries.v ===== *)
(** * The services the modules offer to processes

    Each module has a list of its services with the code of their arguments and their numbers, which it enters
    in the table of the core when it is loaded ([Lxrt.set_rt_fun_entries]); the FIFO module has a table of its own.
    The types of the services are those of their declarations in the headers, of their definitions where
    these are local to a file. *)

From Stdlib Require Import String.
From S2P Require Import Prelude Lxrt Sys Srq User UserFifo.

(** ** Declarations *)

Record proto := Proto { pname : string; pparams : list cty; pret : cty }.
Arguments Proto _%_string _ _.

(** include/rtai_sched.h: time and timers, tasks. *)
Definition sched_protos : list proto :=
  [Proto "rt_set_runnable_on_cpus" [Ptr; Ulong] Void; Proto "rt_set_runnable_on_cpuid" [Ptr; Uint] Void;
   Proto "rt_set_sched_policy" [Ptr; Int; Int] Void; Proto "rt_get_timer_cpu" [] Int;
   Proto "rt_is_hard_timer_running" [] Int; Proto "rt_set_periodic_mode" [] Void;
   Proto "rt_set_oneshot_mode" [] Void; Proto "start_rt_timer" [Int] Rtime;
   Proto "start_rt_apic_timers" [Ptr; Uint] Void; Proto "stop_rt_timer" [] Void;
   Proto "rt_task_signal_handler" [Ptr; Ptr] Int; Proto "rt_task_use_fpu" [Ptr; Int] Int;
   Proto "rt_hard_timer_tick_count" [] Int; Proto "rt_hard_timer_tick_count_cpuid" [Int] Int;
   Proto "count2nano" [Rtime] Rtime; Proto "nano2count" [Rtime] Rtime;
   Proto "count2nano_cpuid" [Rtime; Uint] Rtime; Proto "nano2count_cpuid" [Rtime; Uint] Rtime;
   Proto "rt_get_time" [] Rtime; Proto "rt_get_time_cpuid" [Uint] Rtime; Proto "rt_get_time_ns" [] Rtime;
   Proto "rt_get_time_ns_cpuid" [Uint] Rtime; Proto "rt_get_cpu_time_ns" [] Rtime;
   Proto "rt_get_real_time" [] Rtime; Proto "rt_get_real_time_ns" [] Rtime; Proto "rt_spv_RMS" [Int] Void;
   Proto "rt_change_prio" [Ptr; Int] Int; Proto "rt_sched_lock" [] Void; Proto "rt_sched_unlock" [] Void;
   Proto "rt_task_yield" [] Void].
Definition task_protos : list proto :=
  [Proto "rt_task_suspend" [Ptr] Int; Proto "rt_task_suspend_if" [Ptr] Int;
   Proto "rt_task_suspend_until" [Ptr; Rtime] Int; Proto "rt_task_suspend_timed" [Ptr; Rtime] Int;
   Proto "rt_task_resume" [Ptr] Int; Proto "rt_set_linux_syscall_mode" [Long; Ptr] Int;
   Proto "rt_task_make_periodic_relative_ns" [Ptr; Rtime; Rtime] Int;
   Proto "rt_task_make_periodic" [Ptr; Rtime; Rtime] Int;
   Proto "rt_task_set_resume_end_times" [Rtime; Rtime] Void; Proto "rt_set_resume_time" [Ptr; Rtime] Int;
   Proto "rt_set_period" [Ptr; Rtime] Int; Proto "rt_task_wait_period" [] Int;
   Proto "rt_busy_sleep" [Int] Void; Proto "rt_sleep" [Rtime] Int; Proto "rt_sleep_until" [Rtime] Int;
   Proto "rt_task_masked_unblock" [Ptr; Ulong] Int;
   Proto "rt_named_task_init" [Ptr; Ptr; Long; Int; Int; Int; Ptr] Ptr;
   Proto "rt_named_task_init_cpuid" [Ptr; Ptr; Long; Int; Int; Int; Ptr; Uint] Ptr;
   Proto "rt_named_task_delete" [Ptr] Int].
(** src/sched/sched.c, and rtai_hal.c. *)
Definition sched_static_protos : list proto :=
  [Proto "rt_gettid" [] Int; Proto "rt_task_get_info_user" [Ptr; Ptr] Int].
Definition hal_protos : list proto :=
  [Proto "usr_rt_pend_linux_irq" [Uint] Void].
Definition registry_protos : list proto :=
  [Proto "rt_get_name" [Ptr] Ulong; Proto "rt_get_adr" [Ulong] Ptr].
Definition signal_protos : list proto :=
  [Proto "rt_signal_helper" [Ptr] Int; Proto "rt_request_signal_" [Ptr; Ptr; Long] Int;
   Proto "rt_release_signal" [Long; Ptr] Int; Proto "rt_enable_signal" [Long; Ptr] Void;
   Proto "rt_disable_signal" [Long; Ptr] Void; Proto "rt_trigger_signal" [Long; Ptr] Void;
   Proto "rt_wait_signal" [Ptr; Ptr] Int].
Definition sem_protos : list proto :=
  [Proto "_rt_poll" [Ptr; Ulong; Rtime; Int] Int; Proto "rt_typed_sem_init" [Ptr; Int; Int] Void;
   Proto "rt_sem_delete" [Ptr] Int; Proto "_rt_typed_named_sem_init" [Ulong; Int; Int; Ptr] Ptr;
   Proto "rt_named_sem_delete" [Ptr] Int; Proto "rt_sem_signal" [Ptr] Int; Proto "rt_sem_broadcast" [Ptr] Int;
   Proto "rt_sem_wait" [Ptr] Int; Proto "rt_sem_wait_if" [Ptr] Int; Proto "rt_sem_wait_until" [Ptr; Rtime] Int;
   Proto "rt_sem_wait_timed" [Ptr; Rtime] Int; Proto "rt_sem_wait_barrier" [Ptr] Int;
   Proto "rt_sem_count" [Ptr] Int; Proto "rt_cond_signal" [Ptr] Int; Proto "rt_cond_wait" [Ptr; Ptr] Int;
   Proto "rt_cond_wait_until" [Ptr; Ptr; Rtime] Int; Proto "rt_cond_wait_timed" [Ptr; Ptr; Rtime] Int].
Definition rwl_protos : list proto :=
  [Proto "rt_typed_rwl_init" [Ptr; Int] Int; Proto "rt_rwl_delete" [Ptr] Int;
   Proto "_rt_named_rwl_init" [Ulong] Ptr; Proto "rt_named_rwl_delete" [Ptr] Int;
   Proto "rt_rwl_rdlock" [Ptr] Int; Proto "rt_rwl_rdlock_if" [Ptr] Int;
   Proto "rt_rwl_rdlock_until" [Ptr; Rtime] Int; Proto "rt_rwl_rdlock_timed" [Ptr; Rtime] Int;
   Proto "rt_rwl_wrlock" [Ptr] Int; Proto "rt_rwl_wrlock_if" [Ptr] Int;
   Proto "rt_rwl_wrlock_until" [Ptr; Rtime] Int; Proto "rt_rwl_wrlock_timed" [Ptr; Rtime] Int;
   Proto "rt_rwl_unlock" [Ptr] Int].
Definition spl_protos : list proto :=
  [Proto "rt_spl_init" [Ptr] Int; Proto "rt_spl_delete" [Ptr] Int; Proto "_rt_named_spl_init" [Ulong] Ptr;
   Proto "rt_named_spl_delete" [Ptr] Int; Proto "rt_spl_lock" [Ptr] Int; Proto "rt_spl_lock_if" [Ptr] Int;
   Proto "rt_spl_lock_timed" [Ptr; Ulong] Int; Proto "rt_spl_unlock" [Ptr] Int].
Definition mbx_protos : list proto :=
  [Proto "rt_typed_mbx_init" [Ptr; Int; Int] Int; Proto "rt_mbx_delete" [Ptr] Int;
   Proto "_rt_mbx_send" [Ptr; Ptr; Int; Int] Int; Proto "_rt_mbx_send_wp" [Ptr; Ptr; Int; Int] Int;
   Proto "_rt_mbx_send_if" [Ptr; Ptr; Int; Int] Int;
   Proto "_rt_mbx_send_until" [Ptr; Ptr; Int; Rtime; Int] Int;
   Proto "_rt_mbx_send_timed" [Ptr; Ptr; Int; Rtime; Int] Int;
   Proto "_rt_mbx_ovrwr_send" [Ptr; Ptr; Int; Int] Int; Proto "_rt_mbx_evdrp" [Ptr; Ptr; Int; Int] Int;
   Proto "_rt_mbx_receive" [Ptr; Ptr; Int; Int] Int; Proto "_rt_mbx_receive_wp" [Ptr; Ptr; Int; Int] Int;
   Proto "_rt_mbx_receive_if" [Ptr; Ptr; Int; Int] Int;
   Proto "_rt_mbx_receive_until" [Ptr; Ptr; Int; Rtime; Int] Int;
   Proto "_rt_mbx_receive_timed" [Ptr; Ptr; Int; Rtime; Int] Int;
   Proto "_rt_typed_named_mbx_init" [Ulong; Int; Int] Ptr; Proto "rt_named_mbx_delete" [Ptr] Int].
Definition msg_protos : list proto :=
  [Proto "rt_send" [Ptr; Ulong] Ptr; Proto "rt_send_if" [Ptr; Ulong] Ptr;
   Proto "rt_send_until" [Ptr; Ulong; Rtime] Ptr; Proto "rt_send_timed" [Ptr; Ulong; Rtime] Ptr;
   Proto "rt_evdrp" [Ptr; Ptr] Ptr; Proto "rt_receive" [Ptr; Ptr] Ptr; Proto "rt_receive_if" [Ptr; Ptr] Ptr;
   Proto "rt_receive_until" [Ptr; Ptr; Rtime] Ptr; Proto "rt_receive_timed" [Ptr; Ptr; Rtime] Ptr;
   Proto "rt_rpc" [Ptr; Ulong; Ptr] Ptr; Proto "rt_rpc_if" [Ptr; Ulong; Ptr] Ptr;
   Proto "rt_rpc_until" [Ptr; Ulong; Ptr; Rtime] Ptr; Proto "rt_rpc_timed" [Ptr; Ulong; Ptr; Rtime] Ptr;
   Proto "rt_isrpc" [Ptr] Int; Proto "rt_return" [Ptr; Ulong] Ptr;
   Proto "rt_rpcx" [Ptr; Ptr; Ptr; Int; Int] Ptr; Proto "rt_rpcx_if" [Ptr; Ptr; Ptr; Int; Int] Ptr;
   Proto "rt_rpcx_until" [Ptr; Ptr; Ptr; Int; Int; Rtime] Ptr;
   Proto "rt_rpcx_timed" [Ptr; Ptr; Ptr; Int; Int; Rtime] Ptr; Proto "rt_sendx" [Ptr; Ptr; Int] Ptr;
   Proto "rt_sendx_if" [Ptr; Ptr; Int] Ptr; Proto "rt_sendx_until" [Ptr; Ptr; Int; Rtime] Ptr;
   Proto "rt_sendx_timed" [Ptr; Ptr; Int; Rtime] Ptr; Proto "rt_returnx" [Ptr; Ptr; Int] Ptr;
   Proto "rt_evdrpx" [Ptr; Ptr; Int; Ptr] Ptr; Proto "rt_receivex" [Ptr; Ptr; Int; Ptr] Ptr;
   Proto "rt_receivex_if" [Ptr; Ptr; Int; Ptr] Ptr; Proto "rt_receivex_until" [Ptr; Ptr; Int; Ptr; Rtime] Ptr;
   Proto "rt_receivex_timed" [Ptr; Ptr; Int; Ptr; Rtime] Ptr].
Definition proxy_protos : list proto :=
  [Proto "rt_proxy_attach" [Ptr; Ptr; Int; Int] Ptr; Proto "rt_proxy_detach" [Ptr] Int;
   Proto "rt_trigger" [Ptr] Ptr; Proto "rt_Send" [Int; Ptr; Ptr; Ulong; Ulong] Int;
   Proto "rt_Receive" [Int; Ptr; Ulong; Ptr] Int; Proto "rt_Creceive" [Int; Ptr; Ulong; Ptr; Rtime] Int;
   Proto "rt_Reply" [Int; Ptr; Ulong] Int; Proto "rt_Proxy_attach" [Int; Ptr; Int; Int] Int;
   Proto "rt_Proxy_detach" [Int] Int; Proto "rt_Trigger" [Int] Int; Proto "rt_Name_attach" [Ptr] Int;
   Proto "rt_Name_locate" [Ptr; Ptr] Int; Proto "rt_Name_detach" [Int] Int].
Definition shm_protos : list proto :=
  [Proto "rt_shm_free" [Ulong] Int; Proto "rt_halloc" [Int] Ptr; Proto "rt_hfree" [Ptr] Void;
   Proto "rt_named_halloc" [Ulong; Int] Ptr; Proto "rt_named_hfree" [Ptr] Void].
(** src/ipc/shm/shm.c. *)
Definition shm_static_protos : list proto :=
  [Proto "rt_shm_alloc_usp" [Ulong; Int; Int] Int; Proto "rt_shm_size" [Ptr] Int;
   Proto "rt_set_heap" [Ulong; Ptr] Void; Proto "rt_malloc_usp" [Int] Ptr; Proto "rt_free_usp" [Ptr] Void;
   Proto "rt_named_malloc_usp" [Ulong; Int] Ptr; Proto "rt_named_free_usp" [Ptr] Void].
(** include/rtai_fifos.h and src/ipc/fifos/fifos.c. *)
Definition fifo_protos : list proto :=
  [Proto "rtf_create" [Uint; Int] Int; Proto "rtf_create_named" [Ptr] Int; Proto "rtf_getfifobyname" [Ptr] Int;
   Proto "rtf_reset" [Uint] Int; Proto "rtf_destroy" [Uint] Int; Proto "rtf_resize" [Uint; Int] Int;
   Proto "rtf_sem_init" [Uint; Int] Int; Proto "rtf_sem_post" [Uint] Int; Proto "rtf_sem_trywait" [Uint] Int;
   Proto "rtf_sem_destroy" [Uint] Int; Proto "rtf_get_avbs" [Uint] Int; Proto "rtf_get_frbs" [Uint] Int].
Definition fifo_user_protos : list proto :=
  [Proto "rtf_ovrwr_put_user" [Uint; Ptr; Int] Int; Proto "rtf_put_user" [Uint; Ptr; Int] Int;
   Proto "rtf_get_user" [Uint; Ptr; Int] Int; Proto "rtf_put_if_user" [Uint; Ptr; Int] Int;
   Proto "rtf_get_if_user" [Uint; Ptr; Int] Int].
Definition protos : list proto :=
  sched_protos ++ task_protos ++ sched_static_protos ++ hal_protos ++ registry_protos ++ signal_protos ++ sem_protos ++
  rwl_protos ++ spl_protos ++ mbx_protos ++ msg_protos ++ proxy_protos ++ shm_protos ++ shm_static_protos ++
  fifo_protos ++ fifo_user_protos.
Definition proto_of (n : string) : option proto := List.find (fun p => String.eqb (pname p) n) protos.

(** ** The lists of the modules *)

Record entry := Entry { etype : Z; ename : string; eindex : Z }.
Arguments Entry _ _%_string _.

Definition rt_sched_entries : list entry :=
  [Entry 0 "rt_set_runnable_on_cpus" SET_RUNNABLE_ON_CPUS;
   Entry 0 "rt_set_runnable_on_cpuid" SET_RUNNABLE_ON_CPUID; Entry 0 "rt_set_sched_policy" SET_SCHED_POLICY;
   Entry 0 "rt_get_timer_cpu" GET_TIMER_CPU; Entry 0 "rt_is_hard_timer_running" HARD_TIMER_RUNNING;
   Entry 0 "rt_set_periodic_mode" SET_PERIODIC_MODE; Entry 0 "rt_set_oneshot_mode" SET_ONESHOT_MODE;
   Entry 0 "start_rt_timer" START_TIMER; Entry 0 "start_rt_apic_timers" START_RT_APIC_TIMERS;
   Entry 0 "stop_rt_timer" STOP_TIMER; Entry 0 "rt_task_signal_handler" SIGNAL_HANDLER;
   Entry 0 "rt_task_use_fpu" TASK_USE_FPU; Entry 0 "rt_hard_timer_tick_count" HARD_TIMER_COUNT;
   Entry 0 "rt_hard_timer_tick_count_cpuid" HARD_TIMER_COUNT_CPUID; Entry 0 "count2nano" COUNT2NANO;
   Entry 0 "nano2count" NANO2COUNT; Entry 0 "count2nano_cpuid" COUNT2NANO_CPUID;
   Entry 0 "nano2count_cpuid" NANO2COUNT_CPUID; Entry 0 "rt_get_time" GET_TIME;
   Entry 0 "rt_get_time_cpuid" GET_TIME_CPUID; Entry 0 "rt_get_time_ns" GET_TIME_NS;
   Entry 0 "rt_get_time_ns_cpuid" GET_TIME_NS_CPUID; Entry 0 "rt_get_cpu_time_ns" GET_CPU_TIME_NS;
   Entry 0 "rt_task_get_info_user" GET_TASK_INFO; Entry 0 "rt_spv_RMS" SPV_RMS;
   Entry 1 "rt_change_prio" CHANGE_TASK_PRIO; Entry 0 "rt_sched_lock" SCHED_LOCK;
   Entry 0 "rt_sched_unlock" SCHED_UNLOCK; Entry 1 "rt_task_yield" YIELD; Entry 1 "rt_task_suspend" SUSPEND;
   Entry 1 "rt_task_suspend_if" SUSPEND_IF; Entry 1 "rt_task_suspend_until" SUSPEND_UNTIL;
   Entry 1 "rt_task_suspend_timed" SUSPEND_TIMED; Entry 1 "rt_task_resume" RESUME;
   Entry 1 "rt_set_linux_syscall_mode" SET_LINUX_SYSCALL_MODE;
   Entry 1 "rt_task_make_periodic_relative_ns" MAKE_PERIODIC_NS;
   Entry 1 "rt_task_make_periodic" MAKE_PERIODIC; Entry 1 "rt_task_set_resume_end_times" SET_RESUME_END;
   Entry 0 "rt_set_resume_time" SET_RESUME_TIME; Entry 0 "rt_set_period" SET_PERIOD;
   Entry 1 "rt_task_wait_period" WAIT_PERIOD; Entry 0 "rt_busy_sleep" BUSY_SLEEP; Entry 1 "rt_sleep" SLEEP;
   Entry 1 "rt_sleep_until" SLEEP_UNTIL; Entry 0 "rt_task_masked_unblock" WAKEUP_SLEEPING;
   Entry 0 "rt_named_task_init" NAMED_TASK_INIT; Entry 0 "rt_named_task_init_cpuid" NAMED_TASK_INIT_CPUID;
   Entry 0 "rt_named_task_delete" NAMED_TASK_DELETE; Entry 0 "rt_get_name" GET_NAME;
   Entry 0 "rt_get_adr" GET_ADR; Entry 0 "usr_rt_pend_linux_irq" PEND_LINUX_IRQ;
   Entry 0 "rt_gettid" RT_GETTID; Entry 0 "rt_get_real_time" GET_REAL_TIME;
   Entry 0 "rt_get_real_time_ns" GET_REAL_TIME_NS; Entry 1 "rt_signal_helper" RT_SIGNAL_HELPER;
   Entry 1 "rt_wait_signal" RT_SIGNAL_WAITSIG; Entry 1 "rt_request_signal_" RT_SIGNAL_REQUEST;
   Entry 1 "rt_release_signal" RT_SIGNAL_RELEASE; Entry 1 "rt_enable_signal" RT_SIGNAL_ENABLE;
   Entry 1 "rt_disable_signal" RT_SIGNAL_DISABLE; Entry 1 "rt_trigger_signal" RT_SIGNAL_TRIGGER].
(** [with_poll] is CONFIG_RTAI_RT_POLL. *)
Definition rt_sem_entries (with_poll : bool) : list entry :=
  [Entry 0 "rt_typed_sem_init" TYPED_SEM_INIT; Entry 0 "rt_sem_delete" SEM_DELETE;
   Entry 0 "_rt_typed_named_sem_init" NAMED_SEM_INIT; Entry 0 "rt_named_sem_delete" NAMED_SEM_DELETE;
   Entry 1 "rt_sem_signal" SEM_SIGNAL; Entry 1 "rt_sem_broadcast" SEM_BROADCAST;
   Entry 1 "rt_sem_wait" SEM_WAIT; Entry 1 "rt_sem_wait_if" SEM_WAIT_IF;
   Entry 1 "rt_sem_wait_until" SEM_WAIT_UNTIL; Entry 1 "rt_sem_wait_timed" SEM_WAIT_TIMED;
   Entry 1 "rt_sem_wait_barrier" SEM_WAIT_BARRIER; Entry 1 "rt_sem_count" SEM_COUNT;
   Entry 1 "rt_cond_signal" COND_SIGNAL; Entry 1 "rt_cond_wait" COND_WAIT;
   Entry 1 "rt_cond_wait_until" COND_WAIT_UNTIL; Entry 1 "rt_cond_wait_timed" COND_WAIT_TIMED;
   Entry 0 "rt_typed_rwl_init" RWL_INIT; Entry 0 "rt_rwl_delete" RWL_DELETE;
   Entry 0 "_rt_named_rwl_init" NAMED_RWL_INIT; Entry 0 "rt_named_rwl_delete" NAMED_RWL_DELETE;
   Entry 1 "rt_rwl_rdlock" RWL_RDLOCK; Entry 1 "rt_rwl_rdlock_if" RWL_RDLOCK_IF;
   Entry 1 "rt_rwl_rdlock_until" RWL_RDLOCK_UNTIL; Entry 1 "rt_rwl_rdlock_timed" RWL_RDLOCK_TIMED;
   Entry 1 "rt_rwl_wrlock" RWL_WRLOCK; Entry 1 "rt_rwl_wrlock_if" RWL_WRLOCK_IF;
   Entry 1 "rt_rwl_wrlock_until" RWL_WRLOCK_UNTIL; Entry 1 "rt_rwl_wrlock_timed" RWL_WRLOCK_TIMED;
   Entry 1 "rt_rwl_unlock" RWL_UNLOCK; Entry 0 "rt_spl_init" SPL_INIT; Entry 0 "rt_spl_delete" SPL_DELETE;
   Entry 0 "_rt_named_spl_init" NAMED_SPL_INIT; Entry 0 "rt_named_spl_delete" NAMED_SPL_DELETE;
   Entry 1 "rt_spl_lock" SPL_LOCK; Entry 1 "rt_spl_lock_if" SPL_LOCK_IF;
   Entry 1 "rt_spl_lock_timed" SPL_LOCK_TIMED; Entry 1 "rt_spl_unlock" SPL_UNLOCK] ++
  if with_poll then [Entry 1 "_rt_poll" SEM_RT_POLL] else [].
Definition rt_mbx_entries : list entry :=
  [Entry 0 "rt_typed_mbx_init" TYPED_MBX_INIT; Entry 0 "rt_mbx_delete" MBX_DELETE;
   Entry 1 "_rt_mbx_send" MBX_SEND; Entry 1 "_rt_mbx_send_wp" MBX_SEND_WP;
   Entry 1 "_rt_mbx_send_if" MBX_SEND_IF; Entry 1 "_rt_mbx_send_until" MBX_SEND_UNTIL;
   Entry 1 "_rt_mbx_send_timed" MBX_SEND_TIMED; Entry 1 "_rt_mbx_ovrwr_send" MBX_OVRWR_SEND;
   Entry 1 "_rt_mbx_evdrp" MBX_EVDRP; Entry 1 "_rt_mbx_receive" MBX_RECEIVE;
   Entry 1 "_rt_mbx_receive_wp" MBX_RECEIVE_WP; Entry 1 "_rt_mbx_receive_if" MBX_RECEIVE_IF;
   Entry 1 "_rt_mbx_receive_until" MBX_RECEIVE_UNTIL; Entry 1 "_rt_mbx_receive_timed" MBX_RECEIVE_TIMED;
   Entry 0 "_rt_typed_named_mbx_init" NAMED_MBX_INIT; Entry 0 "rt_named_mbx_delete" NAMED_MBX_DELETE].
Definition rt_msg_entries : list entry :=
  [Entry 1 "rt_send" SENDMSG; Entry 1 "rt_send_if" SEND_IF; Entry 1 "rt_send_until" SEND_UNTIL;
   Entry 1 "rt_send_timed" SEND_TIMED; Entry (UW1 2 0) "rt_evdrp" EVDRP;
   Entry (UW1 2 0) "rt_receive" RECEIVEMSG; Entry (UW1 2 0) "rt_receive_if" RECEIVE_IF;
   Entry (UW1 2 0) "rt_receive_until" RECEIVE_UNTIL; Entry (UW1 2 0) "rt_receive_timed" RECEIVE_TIMED;
   Entry (UW1 3 0) "rt_rpc" RPCMSG; Entry (UW1 3 0) "rt_rpc_if" RPC_IF;
   Entry (UW1 3 0) "rt_rpc_until" RPC_UNTIL; Entry (UW1 3 0) "rt_rpc_timed" RPC_TIMED;
   Entry 0 "rt_isrpc" ISRPC; Entry 1 "rt_return" RETURNMSG; Entry (Z.lor (UR1 2 4) (UW1 3 5)) "rt_rpcx" RPCX;
   Entry (Z.lor (UR1 2 4) (UW1 3 5)) "rt_rpcx_if" RPCX_IF;
   Entry (Z.lor (UR1 2 4) (UW1 3 5)) "rt_rpcx_until" RPCX_UNTIL;
   Entry (Z.lor (UR1 2 4) (UW1 3 5)) "rt_rpcx_timed" RPCX_TIMED; Entry (UR1 2 3) "rt_sendx" SENDX;
   Entry (UR1 2 3) "rt_sendx_if" SENDX_IF; Entry (UR1 2 3) "rt_sendx_until" SENDX_UNTIL;
   Entry (UR1 2 3) "rt_sendx_timed" SENDX_TIMED; Entry (UR1 2 3) "rt_returnx" RETURNX;
   Entry (Z.lor (UW1 2 3) (UW2 4 0)) "rt_evdrpx" EVDRPX;
   Entry (Z.lor (UW1 2 3) (UW2 4 0)) "rt_receivex" RECEIVEX;
   Entry (Z.lor (UW1 2 3) (UW2 4 0)) "rt_receivex_if" RECEIVEX_IF;
   Entry (Z.lor (UW1 2 3) (UW2 4 0)) "rt_receivex_until" RECEIVEX_UNTIL;
   Entry (Z.lor (UW1 2 3) (UW2 4 0)) "rt_receivex_timed" RECEIVEX_TIMED;
   Entry (UR1 2 3) "rt_proxy_attach" PROXY_ATTACH; Entry 1 "rt_proxy_detach" PROXY_DETACH;
   Entry 1 "rt_trigger" PROXY_TRIGGER; Entry (Z.lor (UR1 2 4) (UW1 3 5)) "rt_Send" RT_SEND;
   Entry (Z.lor (UW1 2 3) (UW2 4 0)) "rt_Receive" RT_RECEIVE;
   Entry (Z.lor (UW1 2 3) (UW2 4 0)) "rt_Creceive" RT_CRECEIVE; Entry (UR1 2 3) "rt_Reply" RT_REPLY;
   Entry (UR1 2 3) "rt_Proxy_attach" RT_PROXY_ATTACH; Entry 1 "rt_Proxy_detach" RT_PROXY_DETACH;
   Entry 1 "rt_Trigger" RT_TRIGGER; Entry 1 "rt_Name_attach" RT_NAME_ATTACH;
   Entry 0 "rt_Name_locate" RT_NAME_LOCATE; Entry 1 "rt_Name_detach" RT_NAME_DETACH].
(** [with_malloc] is CONFIG_RTAI_MALLOC. *)
Definition rt_shm_entries (with_malloc : bool) : list entry :=
  [Entry 0 "rt_shm_alloc_usp" SHM_ALLOC; Entry 0 "rt_shm_free" SHM_FREE; Entry 0 "rt_shm_size" SHM_SIZE] ++
  if with_malloc then
  [Entry 0 "rt_set_heap" HEAP_SET; Entry 0 "rt_halloc" HEAP_ALLOC; Entry 0 "rt_hfree" HEAP_FREE;
   Entry 0 "rt_named_halloc" HEAP_NAMED_ALLOC; Entry 0 "rt_named_hfree" HEAP_NAMED_FREE;
   Entry 0 "rt_malloc_usp" MALLOC; Entry 0 "rt_free_usp" FREE; Entry 0 "rt_named_malloc_usp" NAMED_MALLOC;
   Entry 0 "rt_named_free_usp" NAMED_FREE]
  else [].

(** The table of the FIFOs; what is not named in it is null. *)
Definition rtai_fifos_fun : list entry :=
  [Entry 0 "rtf_create" _CREATE; Entry 0 "rtf_destroy" _DESTROY; Entry 0 "rtf_put_user" _PUT;
   Entry 0 "rtf_get_user" _GET; Entry 0 "rtf_reset" _RESET; Entry 0 "rtf_resize" _RESIZE;
   Entry 0 "rtf_sem_init" _SEM_INIT; Entry 0 "rtf_sem_destroy" _SEM_DESTRY; Entry 0 "rtf_sem_post" _SEM_POST;
   Entry 0 "rtf_sem_trywait" _SEM_TRY; Entry 0 "rtf_create_named" _CREATE_NAMED;
   Entry 0 "rtf_getfifobyname" _GETBY_NAME; Entry 0 "rtf_ovrwr_put_user" _OVERWRITE;
   Entry 0 "rtf_put_if_user" _PUT_IF; Entry 0 "rtf_get_if_user" _GET_IF; Entry 0 "rtf_get_avbs" _AVBS;
   Entry 0 "rtf_get_frbs" _FRBS].

(** ** The table of the core *)

Section table.
(** [adr] is the address of a function. *)
Context (adr : string -> Z).
Definition native (e : entry) : native_entry := (FunEntry (etype e) (adr (ename e)), eindex e).
(** A list ends with a null function. *)
Definition native_list (l : list entry) : list native_entry := map native l ++ [(FunEntry 0 0, 0)].
Definition init_rt_fun_lxrt : Z -> rt_fun_entry := fun _ => FunEntry 1 (adr "nihil").
Definition load_module (l : list entry) (tab : Z -> rt_fun_entry) : Z -> rt_fun_entry :=
  (set_rt_fun_entries (adr "nihil") (native_list l) tab).2.
End table.
