(* ===== verification/UserFacts.v ===== *)
(** * What the functions of the user interface have done for the process

    The services the requests reach when all modules are loaded, with what arguments, and whether their results
    come back: a contract for every function that is one request. *)

From Stdlib Require Import String.
From S2P Require Import Prelude Nam2num Lxrt Sys Srq User UserIpc UserFifo Entries.

(** ** Reaching a service *)

(** All modules with both options. *)
Definition modules : list (list entry) :=
  [rt_sched_entries; rt_sem_entries true; rt_mbx_entries; rt_msg_entries; rt_shm_entries true].
Definition at_index (i : Z) (l : list entry) : option entry := List.find (fun e => eindex e =? i) l.
Definition reached (r : request) : option entry :=
  if r_dynx r =? BIDX then at_index (r_srq r) (concat modules)
  else if r_dynx r =? FUN_FIFOS_LXRT_INDX then at_index (r_srq r) rtai_fifos_fun else None.

(** The arguments a function with parameters [ts] finds in the words it is called with. *)
Definition received (ts : list cty) (ws : list Z) : list Z := zip_with conv ts ws.
(** A request brings a function its arguments whatever is in the memory the process did not set; if a result of type
    [t] comes back, it is the result of the program, whatever the function left in the rest of its register. *)
Definition brings (r : request) (ts : list cty) (args : list Z) : Prop :=
  forall junk stack, received ts (fun_arguments junk (words stack 0 (r_arg r))) = args.
Definition delivers (u : uprog) (reach : request -> Prop) (ts : list cty) (t : option cty) (args : list Z) : Prop :=
  exists r k, u = Lxrt r k /\ reach r /\ brings r ts args /\
    match t with Some t => forall raw v, conv t raw = v -> k raw = URet v | None => True end.

(** What a request above the services is answered with (src/sched/sys.c): its arguments and its result. *)
Definition own_proto (srq : Z) : option (list cty * cty) :=
  option_map snd (List.find (fun p => fst p =? srq)
    [(LXRT_GET_ADR, ([Ulong], Ptr)); (LXRT_GET_NAME, ([Ptr], Ulong));
     (LXRT_TASK_INIT, ([Ulong; Int; Long; Int; Int], Ptr)); (LXRT_TASK_DELETE, ([Ptr], Int));
     (LXRT_SEM_INIT, ([Ulong; Int; Int], Ptr)); (LXRT_SEM_DELETE, ([Ptr], Int));
     (LXRT_MBX_INIT, ([Ulong; Int; Int], Ptr)); (LXRT_MBX_DELETE, ([Ptr], Int));
     (LXRT_RWL_INIT, ([Ulong; Int], Ptr)); (LXRT_RWL_DELETE, ([Ptr], Int));
     (LXRT_SPL_INIT, ([Ulong], Ptr)); (LXRT_SPL_DELETE, ([Ptr], Int));
     (MAKE_HARD_RT, ([], Void)); (MAKE_SOFT_RT, ([], Void)); (NONROOT_HRT, ([], Void));
     (RT_BUDDY, ([], Ptr)); (GET_USP_FLAGS, ([Ptr], Ulong)); (SET_USP_FLAGS, ([Ptr; Ulong], Void));
     (GET_USP_FLG_MSK, ([Ptr], Ulong)); (SET_USP_FLG_MSK, ([Ulong], Void)); (HARD_SOFT_TOGGLER, ([Ptr], Int));
     (IS_HARD, ([Ptr], Int)); (GET_EXECTIME, ([Ptr; Ptr], Void)); (GET_TIMEORIG, ([Ptr], Void));
     (SCHED_LATENCIES, ([Int; Int], Int)); (GET_CPU_FREQ, ([], Ulong))]).

(** A function with its parameters, what it calls and with what. *)
Inductive contract :=
| All (t : cty) (f : Z -> contract)
| AllNames (f : list Z -> contract)
| If (P : Prop) (c : contract)
| Serves (u : uprog) (service : string) (args : list Z)
| Own (u : uprog) (srq : Z) (args : list Z)
| Called (u : uprog) (service : string) (args : list Z)
| OwnCalled (u : uprog) (srq : Z) (args : list Z)
| Strays (u : uprog) (service : string)
| Nowhere (u : uprog).
Arguments Serves _ _%_string _.
Arguments Called _ _%_string _.
Arguments Strays _ _%_string.
Definition served_by (service : string) (p : proto) (r : request) : Prop :=
  exists e, reached r = Some e /\ ename e = service /\ proto_of service = Some p.
Fixpoint holds (c : contract) : Prop :=
  match c with
  | All t f => forall z, in_cty t z -> holds (f z)
  | AllNames f => forall l, holds (f l)
  | If P c => P -> holds c
  | Serves u service args => exists p, delivers u (served_by service p) (pparams p) (Some (pret p)) args
  | Called u service args => exists p, delivers u (served_by service p) (pparams p) None args
  | Own u srq args =>
      exists p, own_proto srq = Some p /\ delivers u (fun r => r_dynx r = BIDX /\ r_srq r = srq) p.1 (Some p.2) args
  | OwnCalled u srq args =>
      exists p, own_proto srq = Some p /\ delivers u (fun r => r_dynx r = BIDX /\ r_srq r = srq) p.1 None args
  | Strays u service => exists r k e, u = Lxrt r k /\ reached r = Some e /\ ename e = service
  | Nowhere u => exists r k, u = Lxrt r k /\ reached r = None /\ own_proto (r_srq r) = None
  end.

(** ** The functions of each header *)

(** include/rtai_lxrt.h. *)
Definition task_contracts : list contract :=
  [All Int (fun mode => All Ptr (fun cbfun =>
      Serves (rt_set_linux_syscall_mode mode cbfun) "rt_set_linux_syscall_mode" [mode; cbfun]));
   All Ptr (fun task => All Int (fun policy => All Int (fun rr_quantum_ns =>
      Serves (rt_set_sched_policy task policy rr_quantum_ns) "rt_set_sched_policy" [task; policy; rr_quantum_ns])));
   All Ptr (fun task => All Int (fun priority =>
      Serves (rt_change_prio task priority) "rt_change_prio" [task; priority]));
   Called rt_task_yield "rt_task_yield" [];
   All Ptr (fun task => Serves (rt_task_suspend task) "rt_task_suspend" [task]);
   All Ptr (fun task => Serves (rt_task_suspend_if task) "rt_task_suspend_if" [task]);
   All Ptr (fun task => All Rtime (fun time =>
      Serves (rt_task_suspend_until task time) "rt_task_suspend_until" [task; time]));
   All Ptr (fun task => All Rtime (fun delay =>
      Serves (rt_task_suspend_timed task delay) "rt_task_suspend_timed" [task; delay]));
   All Ptr (fun task => Serves (rt_task_resume task) "rt_task_resume" [task]);
   Serves rt_sched_lock "rt_sched_lock" [];
   Serves rt_sched_unlock "rt_sched_unlock" [];
   All Uint (fun irq => Serves (rt_pend_linux_irq irq) "usr_rt_pend_linux_irq" [irq]);
   All Ptr (fun task => All Rtime (fun start_time => All Rtime (fun period =>
      Serves (rt_task_make_periodic task start_time period) "rt_task_make_periodic" [task; start_time; period])));
   All Ptr (fun task => All Rtime (fun start_delay => All Rtime (fun period =>
      Serves (rt_task_make_periodic_relative_ns task start_delay period) "rt_task_make_periodic_relative_ns" [task; start_delay; period])));
   Serves rt_task_wait_period "rt_task_wait_period" [];
   All Rtime (fun delay => Serves (rt_sleep delay) "rt_sleep" [delay]);
   All Rtime (fun time => Serves (rt_sleep_until time) "rt_sleep_until" [time]);
   Serves rt_is_hard_timer_running "rt_is_hard_timer_running" [];
   Serves rt_get_time "rt_get_time" [];
   Serves rt_get_real_time "rt_get_real_time" [];
   Serves rt_get_real_time_ns "rt_get_real_time_ns" [];
   All Rtime (fun count => Serves (count2nano count) "count2nano" [count]);
   All Rtime (fun nanos => Serves (nano2count nanos) "nano2count" [nanos]);
   All Int (fun ns => Serves (rt_busy_sleep ns) "rt_busy_sleep" [ns]);
   Serves rt_set_periodic_mode "rt_set_periodic_mode" [];
   Serves rt_set_oneshot_mode "rt_set_oneshot_mode" [];
   All Ptr (fun task => All Ptr (fun handler =>
      Serves (rt_task_signal_handler task handler) "rt_task_signal_handler" [task; handler]));
   All Ptr (fun task => All Int (fun use_fpu_flag =>
      Serves (rt_buddy_task_use_fpu task use_fpu_flag) "rt_task_use_fpu" [task; use_fpu_flag]));
   Serves rt_hard_timer_tick "rt_hard_timer_tick_count" [];
   Serves rt_get_time_ns "rt_get_time_ns" [];
   Serves rt_get_cpu_time_ns "rt_get_cpu_time_ns" [];
   All Ptr (fun task => All Ulong (fun cpu_mask =>
      Serves (rt_set_runnable_on_cpus task cpu_mask) "rt_set_runnable_on_cpus" [task; cpu_mask]));
   All Ptr (fun task => All Uint (fun cpuid =>
      Serves (rt_set_runnable_on_cpuid task cpuid) "rt_set_runnable_on_cpuid" [task; cpuid]));
   Serves rt_get_timer_cpu "rt_get_timer_cpu" [];
   All Ptr (fun setup_mode => All Uint (fun rcvr_jiffies_cpuid =>
      Serves (start_rt_apic_timers setup_mode rcvr_jiffies_cpuid) "start_rt_apic_timers" [setup_mode; rcvr_jiffies_cpuid]));
   All Int (fun cpuid => Serves (rt_hard_timer_tick_cpuid cpuid) "rt_hard_timer_tick_count_cpuid" [cpuid]);
   All Rtime (fun count => All Uint (fun cpuid =>
      Serves (count2nano_cpuid count cpuid) "count2nano_cpuid" [count; cpuid]));
   All Rtime (fun nanos => All Uint (fun cpuid =>
      Serves (nano2count_cpuid nanos cpuid) "nano2count_cpuid" [nanos; cpuid]));
   All Uint (fun cpuid => Serves (rt_get_time_cpuid cpuid) "rt_get_time_cpuid" [cpuid]);
   All Uint (fun cpuid => Serves (rt_get_time_ns_cpuid cpuid) "rt_get_time_ns_cpuid" [cpuid]);
   Serves rt_gettid "rt_gettid" [];
   All Rtime (fun resume => All Rtime (fun end_ =>
      Serves (rt_task_set_resume_end_times resume end_) "rt_task_set_resume_end_times" [resume; end_]));
   All Ptr (fun rt_task => All Rtime (fun new_resume_time =>
      Serves (rt_set_resume_time rt_task new_resume_time) "rt_set_resume_time" [rt_task; new_resume_time]));
   All Ptr (fun rt_task => All Rtime (fun new_period =>
      Serves (rt_set_period rt_task new_period) "rt_set_period" [rt_task; new_period]));
   All Int (fun cpuid => Serves (rt_spv_RMS cpuid) "rt_spv_RMS" [cpuid]);
   All Ptr (fun task => All Ulong (fun mask =>
      Serves (rt_task_masked_unblock task mask) "rt_task_masked_unblock" [task; mask]))].
(** include/rtai_sem.h. *)
Definition sem_contracts : list contract :=
  [AllNames (fun name => All Int (fun value => All Int (fun type =>
      Serves (rt_typed_named_sem_init name value type) "_rt_typed_named_sem_init" [u64 (nam2num name); value; type; 0])));
   All Ptr (fun sem => Serves (rt_named_sem_delete sem) "rt_named_sem_delete" [sem]);
   All Ptr (fun sem => Serves (rt_sem_signal sem) "rt_sem_signal" [sem]);
   All Ptr (fun sem => Serves (rt_sem_broadcast sem) "rt_sem_broadcast" [sem]);
   All Ptr (fun sem => Serves (rt_sem_wait sem) "rt_sem_wait" [sem]);
   All Ptr (fun sem => Serves (rt_sem_wait_if sem) "rt_sem_wait_if" [sem]);
   All Ptr (fun sem => All Rtime (fun time => Serves (rt_sem_wait_until sem time) "rt_sem_wait_until" [sem; time]));
   All Ptr (fun sem => All Rtime (fun delay =>
      Serves (rt_sem_wait_timed sem delay) "rt_sem_wait_timed" [sem; delay]));
   All Ptr (fun sem => Serves (rt_sem_wait_barrier sem) "rt_sem_wait_barrier" [sem]);
   All Ptr (fun sem => Serves (rt_sem_count sem) "rt_sem_count" [sem]);
   All Ptr (fun cnd => Serves (rt_cond_signal cnd) "rt_cond_signal" [cnd]);
   All Ptr (fun cnd => All Ptr (fun mutex => Serves (rt_cond_wait cnd mutex) "rt_cond_wait" [cnd; mutex]));
   All Ptr (fun cnd => All Ptr (fun mutex => All Rtime (fun time =>
      Serves (rt_cond_wait_until cnd mutex time) "rt_cond_wait_until" [cnd; mutex; time])));
   All Ptr (fun cnd => All Ptr (fun mutex => All Rtime (fun delay =>
      Serves (rt_cond_wait_timed cnd mutex delay) "rt_cond_wait_timed" [cnd; mutex; delay])));
   All Ptr (fun pdsa => All Ulong (fun nr => All Rtime (fun timeout =>
      Serves (rt_poll true pdsa nr timeout) "_rt_poll" [pdsa; nr; timeout; 0])))].
(** include/rtai_rwl.h. *)
Definition rwl_contracts : list contract :=
  [AllNames (fun name => Serves (rt_named_rwl_init name) "_rt_named_rwl_init" [u64 (nam2num name)]);
   All Ptr (fun rwl => Serves (rt_named_rwl_delete rwl) "rt_named_rwl_delete" [rwl]);
   All Ptr (fun rwl => Serves (rt_rwl_rdlock rwl) "rt_rwl_rdlock" [rwl]);
   All Ptr (fun rwl => Serves (rt_rwl_rdlock_if rwl) "rt_rwl_rdlock_if" [rwl]);
   All Ptr (fun rwl => All Rtime (fun time =>
      Serves (rt_rwl_rdlock_until rwl time) "rt_rwl_rdlock_until" [rwl; time]));
   All Ptr (fun rwl => All Rtime (fun delay =>
      Serves (rt_rwl_rdlock_timed rwl delay) "rt_rwl_rdlock_timed" [rwl; delay]));
   All Ptr (fun rwl => Serves (rt_rwl_wrlock rwl) "rt_rwl_wrlock" [rwl]);
   All Ptr (fun rwl => Serves (rt_rwl_wrlock_if rwl) "rt_rwl_wrlock_if" [rwl]);
   All Ptr (fun rwl => All Rtime (fun time =>
      Serves (rt_rwl_wrlock_until rwl time) "rt_rwl_wrlock_until" [rwl; time]));
   All Ptr (fun rwl => All Rtime (fun delay =>
      Serves (rt_rwl_wrlock_timed rwl delay) "rt_rwl_wrlock_timed" [rwl; delay]));
   All Ptr (fun rwl => Serves (rt_rwl_unlock rwl) "rt_rwl_unlock" [rwl])].
(** include/rtai_spl.h. *)
Definition spl_contracts : list contract :=
  [AllNames (fun name => Serves (rt_named_spl_init name) "_rt_named_spl_init" [u64 (nam2num name)]);
   All Ptr (fun spl => Serves (rt_named_spl_delete spl) "rt_named_spl_delete" [spl]);
   All Ptr (fun spl => Serves (rt_spl_lock spl) "rt_spl_lock" [spl]);
   All Ptr (fun spl => Serves (rt_spl_lock_if spl) "rt_spl_lock_if" [spl]);
   All Ptr (fun spl => All Rtime (fun delay =>
      If (0 <= delay) (Serves (rt_spl_lock_timed spl delay) "rt_spl_lock_timed" [spl; delay])));
   All Ptr (fun spl => Serves (rt_spl_unlock spl) "rt_spl_unlock" [spl])].
(** include/rtai_mbx.h. *)
Definition mbx_contracts : list contract :=
  [AllNames (fun name => All Int (fun size => All Int (fun type =>
      Serves (rt_typed_named_mbx_init name size type) "_rt_typed_named_mbx_init" [u64 (nam2num name); size; type])));
   All Ptr (fun mbx => Serves (rt_named_mbx_delete mbx) "rt_named_mbx_delete" [mbx]);
   All Ptr (fun mbx => All Ptr (fun msg => All Int (fun msg_size =>
      Serves (rt_mbx_send mbx msg msg_size) "_rt_mbx_send" [mbx; msg; msg_size; 0])));
   All Ptr (fun mbx => All Ptr (fun msg => All Int (fun msg_size =>
      Serves (rt_mbx_send_wp mbx msg msg_size) "_rt_mbx_send_wp" [mbx; msg; msg_size; 0])));
   All Ptr (fun mbx => All Ptr (fun msg => All Int (fun msg_size =>
      Serves (rt_mbx_send_if mbx msg msg_size) "_rt_mbx_send_if" [mbx; msg; msg_size; 0])));
   All Ptr (fun mbx => All Ptr (fun msg => All Int (fun msg_size => All Rtime (fun time =>
      Serves (rt_mbx_send_until mbx msg msg_size time) "_rt_mbx_send_until" [mbx; msg; msg_size; time; 0]))));
   All Ptr (fun mbx => All Ptr (fun msg => All Int (fun msg_size => All Rtime (fun delay =>
      Serves (rt_mbx_send_timed mbx msg msg_size delay) "_rt_mbx_send_timed" [mbx; msg; msg_size; delay; 0]))));
   All Ptr (fun mbx => All Ptr (fun msg => All Int (fun msg_size =>
      Serves (rt_mbx_ovrwr_send mbx msg msg_size) "_rt_mbx_ovrwr_send" [mbx; msg; msg_size; 0])));
   All Ptr (fun mbx => All Ptr (fun msg => All Int (fun msg_size =>
      Serves (rt_mbx_evdrp mbx msg msg_size) "_rt_mbx_evdrp" [mbx; msg; msg_size; 0])));
   All Ptr (fun mbx => All Ptr (fun msg => All Int (fun msg_size =>
      Serves (rt_mbx_receive mbx msg msg_size) "_rt_mbx_receive" [mbx; msg; msg_size; 0])));
   All Ptr (fun mbx => All Ptr (fun msg => All Int (fun msg_size =>
      Serves (rt_mbx_receive_wp mbx msg msg_size) "_rt_mbx_receive_wp" [mbx; msg; msg_size; 0])));
   All Ptr (fun mbx => All Ptr (fun msg => All Int (fun msg_size =>
      Serves (rt_mbx_receive_if mbx msg msg_size) "_rt_mbx_receive_if" [mbx; msg; msg_size; 0])));
   All Ptr (fun mbx => All Ptr (fun msg => All Int (fun msg_size => All Rtime (fun time =>
      Serves (rt_mbx_receive_until mbx msg msg_size time) "_rt_mbx_receive_until" [mbx; msg; msg_size; time; 0]))));
   All Ptr (fun mbx => All Ptr (fun msg => All Int (fun msg_size => All Rtime (fun delay =>
      Serves (rt_mbx_receive_timed mbx msg msg_size delay) "_rt_mbx_receive_timed" [mbx; msg; msg_size; delay; 0]))))].
(** include/rtai_msg.h. *)
Definition msg_contracts : list contract :=
  [All Ptr (fun task => All Ulong (fun msg => Serves (rt_send task msg) "rt_send" [task; msg]));
   All Ptr (fun task => All Ulong (fun msg => Serves (rt_send_if task msg) "rt_send_if" [task; msg]));
   All Ptr (fun task => All Ulong (fun msg => All Rtime (fun time =>
      Serves (rt_send_until task msg time) "rt_send_until" [task; msg; time])));
   All Ptr (fun task => All Ulong (fun msg => All Rtime (fun delay =>
      Serves (rt_send_timed task msg delay) "rt_send_timed" [task; msg; delay])));
   All Ptr (fun task => All Ptr (fun msg => Serves (rt_evdrp task msg) "rt_evdrp" [task; msg]));
   All Ptr (fun task => All Ptr (fun msg => Serves (rt_receive task msg) "rt_receive" [task; msg]));
   All Ptr (fun task => All Ptr (fun msg => Serves (rt_receive_if task msg) "rt_receive_if" [task; msg]));
   All Ptr (fun task => All Ptr (fun msg => All Rtime (fun time =>
      Serves (rt_receive_until task msg time) "rt_receive_until" [task; msg; time])));
   All Ptr (fun task => All Ptr (fun msg => All Rtime (fun delay =>
      Serves (rt_receive_timed task msg delay) "rt_receive_timed" [task; msg; delay])));
   All Ptr (fun task => All Ulong (fun to_do => All Ptr (fun result =>
      Serves (rt_rpc task to_do result) "rt_rpc" [task; to_do; result])));
   All Ptr (fun task => All Ulong (fun to_do => All Ptr (fun result =>
      Serves (rt_rpc_if task to_do result) "rt_rpc_if" [task; to_do; result])));
   All Ptr (fun task => All Ulong (fun to_do => All Ptr (fun result => All Rtime (fun time =>
      Serves (rt_rpc_until task to_do result time) "rt_rpc_until" [task; to_do; result; time]))));
   All Ptr (fun task => All Ulong (fun to_do => All Ptr (fun result => All Rtime (fun delay =>
      Serves (rt_rpc_timed task to_do result delay) "rt_rpc_timed" [task; to_do; result; delay]))));
   All Ptr (fun task => Serves (rt_isrpc task) "rt_isrpc" [task]);
   All Ptr (fun task => All Ulong (fun result => Serves (rt_return task result) "rt_return" [task; result]));
   All Ptr (fun task => All Ptr (fun smsg => All Ptr (fun rmsg => All Int (fun ssize => All Int (fun rsize =>
      Serves (rt_rpcx task smsg rmsg ssize rsize) "rt_rpcx" [task; smsg; rmsg; ssize; rsize])))));
   All Ptr (fun task => All Ptr (fun smsg => All Ptr (fun rmsg => All Int (fun ssize => All Int (fun rsize =>
      Serves (rt_rpcx_if task smsg rmsg ssize rsize) "rt_rpcx_if" [task; smsg; rmsg; ssize; rsize])))));
   All Ptr (fun task => All Ptr (fun smsg => All Ptr (fun rmsg => All Int (fun ssize => All Int (fun rsize => All Rtime (fun time =>
      Serves (rt_rpcx_until task smsg rmsg ssize rsize time) "rt_rpcx_until" [task; smsg; rmsg; ssize; rsize; time]))))));
   All Ptr (fun task => All Ptr (fun smsg => All Ptr (fun rmsg => All Int (fun ssize => All Int (fun rsize => All Rtime (fun delay =>
      Serves (rt_rpcx_timed task smsg rmsg ssize rsize delay) "rt_rpcx_timed" [task; smsg; rmsg; ssize; rsize; delay]))))));
   All Ptr (fun task => All Ptr (fun msg => All Int (fun size =>
      Serves (rt_sendx task msg size) "rt_sendx" [task; msg; size])));
   All Ptr (fun task => All Ptr (fun msg => All Int (fun size =>
      Serves (rt_sendx_if task msg size) "rt_sendx_if" [task; msg; size])));
   All Ptr (fun task => All Ptr (fun msg => All Int (fun size => All Rtime (fun time =>
      Serves (rt_sendx_until task msg size time) "rt_sendx_until" [task; msg; size; time]))));
   All Ptr (fun task => All Ptr (fun msg => All Long (fun size => All Rtime (fun delay =>
      If (in_cty Int size) (Serves (rt_sendx_timed task msg size delay) "rt_sendx_timed" [task; msg; size; delay])))));
   All Ptr (fun task => All Ptr (fun msg => All Int (fun size =>
      Serves (rt_returnx task msg size) "rt_returnx" [task; msg; size])));
   All Ptr (fun task => All Ptr (fun msg => All Int (fun size => All Ptr (fun len =>
      Serves (rt_evdrpx task msg size len) "rt_evdrpx" [task; msg; size; len]))));
   All Ptr (fun task => All Ptr (fun msg => All Int (fun size => All Ptr (fun len =>
      Serves (rt_receivex task msg size len) "rt_receivex" [task; msg; size; len]))));
   All Ptr (fun task => All Ptr (fun msg => All Int (fun size => All Ptr (fun len =>
      Serves (rt_receivex_if task msg size len) "rt_receivex_if" [task; msg; size; len]))));
   All Ptr (fun task => All Ptr (fun msg => All Int (fun size => All Ptr (fun len => All Rtime (fun time =>
      Serves (rt_receivex_until task msg size len time) "rt_receivex_until" [task; msg; size; len; time])))));
   All Ptr (fun task => All Ptr (fun msg => All Int (fun size => All Ptr (fun len => All Rtime (fun delay =>
      Serves (rt_receivex_timed task msg size len delay) "rt_receivex_timed" [task; msg; size; len; delay])))));
   All Ptr (fun proxy => All Ptr (fun msg => All Int (fun nbytes => All Int (fun priority =>
      Serves (rt_proxy_attach proxy msg nbytes priority) "rt_proxy_attach" [proxy; msg; nbytes; priority]))));
   All Ptr (fun proxy => Serves (rt_proxy_detach proxy) "rt_proxy_detach" [proxy]);
   All Ptr (fun proxy => Serves (rt_trigger proxy) "rt_trigger" [proxy]);
   All Int (fun pid => All Ptr (fun smsg => All Ptr (fun rmsg => All Ulong (fun ssize => All Ulong (fun rsize =>
      Serves (rt_Send pid smsg rmsg ssize rsize) "rt_Send" [pid; smsg; rmsg; ssize; rsize])))));
   All Int (fun pid => All Ptr (fun msg => All Ulong (fun maxsize => All Ptr (fun msglen =>
      Serves (rt_Receive pid msg maxsize msglen) "rt_Receive" [pid; msg; maxsize; msglen]))));
   All Int (fun pid => All Ptr (fun msg => All Ulong (fun maxsize => All Ptr (fun msglen => All Rtime (fun delay =>
      Serves (rt_Creceive pid msg maxsize msglen delay) "rt_Creceive" [pid; msg; maxsize; msglen; delay])))));
   All Int (fun pid => All Ptr (fun msg => All Ulong (fun size =>
      Serves (rt_Reply pid msg size) "rt_Reply" [pid; msg; size])));
   All Int (fun pid => All Ptr (fun msg => All Int (fun nbytes => All Int (fun priority =>
      Serves (rt_Proxy_attach pid msg nbytes priority) "rt_Proxy_attach" [pid; msg; nbytes; priority]))));
   All Int (fun pid => Serves (rt_Proxy_detach pid) "rt_Proxy_detach" [pid]);
   All Int (fun pid => Serves (rt_Trigger pid) "rt_Trigger" [pid]);
   All Ptr (fun name => Serves (rt_Alias_attach name) "rt_Name_attach" [name]);
   All Ptr (fun host => All Ptr (fun name => Serves (rt_Name_locate host name) "rt_Name_locate" [host; name]));
   All Int (fun pid => Serves (rt_Name_detach pid) "rt_Name_detach" [pid])].
(** include/rtai_shm.h. *)
Definition shm_contracts : list contract :=
  [All Int (fun size => Serves (rt_halloc size) "rt_halloc" [size]);
   All Ptr (fun addr => Serves (rt_hfree addr) "rt_hfree" [addr]);
   All Ulong (fun name => All Int (fun size => Serves (rt_named_halloc name size) "rt_named_halloc" [name; size]));
   All Ptr (fun addr => Serves (rt_named_hfree addr) "rt_named_hfree" [addr]);
   All Int (fun size => Serves (rt_malloc size) "rt_malloc_usp" [size]);
   All Ptr (fun addr => Serves (rt_free addr) "rt_free_usp" [addr]);
   All Ulong (fun name => All Int (fun size =>
      Serves (rt_named_malloc name size) "rt_named_malloc_usp" [name; size]));
   All Ptr (fun addr => Serves (rt_named_free addr) "rt_named_free_usp" [addr])].
(** include/rtai_signal.h. *)
Definition signal_contracts : list contract :=
  [All Long (fun signal => All Ptr (fun task =>
      Serves (rt_release_signal signal task) "rt_release_signal" [signal; task]));
   All Long (fun signal => All Ptr (fun task =>
      Serves (rt_enable_signal signal task) "rt_enable_signal" [signal; task]));
   All Long (fun signal => All Ptr (fun task =>
      Serves (rt_disable_signal signal task) "rt_disable_signal" [signal; task]));
   All Long (fun signal => All Ptr (fun task =>
      Serves (rt_trigger_signal signal task) "rt_trigger_signal" [signal; task]))].
(** include/rtai_fifos.h. *)
Definition fifo_contracts : list contract :=
  [All Uint (fun fifo => All Int (fun size => Serves (rtf_create fifo size) "rtf_create" [fifo; size]));
   All Uint (fun fifo => Serves (rtf_destroy fifo) "rtf_destroy" [fifo]);
   All Uint (fun fifo => All Ptr (fun buf => All Int (fun count =>
      Serves (rtf_put fifo buf count) "rtf_put_user" [fifo; buf; count])));
   All Uint (fun fifo => All Ptr (fun buf => All Int (fun count =>
      Serves (rtf_put_if fifo buf count) "rtf_put_if_user" [fifo; buf; count])));
   All Uint (fun fifo => All Ptr (fun buf => All Int (fun count =>
      Serves (rtf_get fifo buf count) "rtf_get_user" [fifo; buf; count])));
   All Uint (fun fifo => All Ptr (fun buf => All Int (fun count =>
      Serves (rtf_get_if fifo buf count) "rtf_get_if_user" [fifo; buf; count])));
   All Uint (fun fifo => Serves (rtf_get_avbs fifo) "rtf_get_avbs" [fifo]);
   All Uint (fun fifo => Serves (rtf_get_frbs fifo) "rtf_get_frbs" [fifo]);
   All Uint (fun fifo => Serves (rtf_reset_lxrt fifo) "rtf_reset" [fifo]);
   All Uint (fun fifo => All Int (fun size => Serves (rtf_resize_lxrt fifo size) "rtf_resize" [fifo; size]));
   All Uint (fun fifo => All Int (fun value => Serves (rtf_sem_init_lxrt fifo value) "rtf_sem_init" [fifo; value]));
   All Uint (fun fifo => Serves (rtf_sem_post_lxrt fifo) "rtf_sem_post" [fifo]);
   All Uint (fun fifo => Serves (rtf_sem_trywait_lxrt fifo) "rtf_sem_trywait" [fifo]);
   All Uint (fun fifo => Serves (rtf_sem_destroy_lxrt fifo) "rtf_sem_destroy" [fifo]);
   All Uint (fun fifo => All Ptr (fun buf => All Int (fun count =>
      Serves (rtf_ovrwr_put fifo buf count) "rtf_ovrwr_put_user" [fifo; buf; count])))].
(** Served by the request handler itself. *)
Definition own_contracts : list contract :=
  [All Ulong (fun name => Own (rt_get_adr name) LXRT_GET_ADR [name]);
   All Ptr (fun adr => Own (rt_get_name adr) LXRT_GET_NAME [adr]);
   Own rt_make_soft_real_time MAKE_SOFT_RT [];
   All Ptr (fun rt_task => Own (rt_get_usp_flags rt_task) GET_USP_FLAGS [rt_task]);
   All Ptr (fun rt_task => Own (rt_get_usp_flags_mask rt_task) GET_USP_FLG_MSK [rt_task]);
   All Ptr (fun rt_task => All Ulong (fun flags =>
      Own (rt_set_usp_flags rt_task flags) SET_USP_FLAGS [rt_task; flags]));
   All Ulong (fun flags_mask => Own (rt_set_usp_flags_mask flags_mask) SET_USP_FLG_MSK [flags_mask]);
   All Ptr (fun task => Own (rt_get_linux_tid task) HARD_SOFT_TOGGLER [task]);
   Own rt_agent RT_BUDDY [];
   Own rt_make_hard_real_time MAKE_HARD_RT [];
   Own rt_allow_nonroot_hrt NONROOT_HRT [];
   All Ptr (fun rt_task => Own (rt_is_hard_real_time rt_task) IS_HARD [rt_task]);
   All Ptr (fun task => All Ptr (fun exectime =>
      Own (rt_get_exectime task exectime) GET_EXECTIME [task; exectime]));
   All Ptr (fun time_orig => Own (rt_gettimeorig time_orig) GET_TIMEORIG [time_orig]);
   All Ulong (fun name => All Int (fun priority =>
      Own (ftask_init name priority) LXRT_TASK_INIT [name; priority; 0; 0; 0]));
   All Int (fun klat => All Int (fun ulat => All Int (fun period =>
      Own (rt_sched_latencies klat ulat period) SCHED_LATENCIES [klat; ulat])));
   OwnCalled rt_get_cpu_freq GET_CPU_FREQ [];
   All Ulong (fun name => All Int (fun value => All Int (fun type =>
      If (name <> 0) (Own (rt_typed_sem_init name value type) LXRT_SEM_INIT [name; value; type]))));
   All Ptr (fun sem => Own (rt_sem_delete sem) LXRT_SEM_DELETE [sem]);
   All Ulong (fun name => All Int (fun type => Own (rt_typed_rwl_init name type) LXRT_RWL_INIT [name; type]));
   All Ptr (fun rwl => Own (rt_rwl_delete rwl) LXRT_RWL_DELETE [rwl]);
   All Ulong (fun name => Own (rt_spl_init name) LXRT_SPL_INIT [name]);
   All Ptr (fun spl => Own (rt_spl_delete spl) LXRT_SPL_DELETE [spl]);
   All Ulong (fun name => All Int (fun size => All Int (fun qtype =>
      Own (rt_typed_mbx_init name size qtype) LXRT_MBX_INIT [name; size; qtype])));
   All Ptr (fun mbx => Own (rt_mbx_delete mbx) LXRT_MBX_DELETE [mbx])].
(** Functions whose numbers belong to other services. *)
Definition stray_contracts : list contract :=
  [Strays rt_boom "rt_receive";
   Strays rt_mmgr_stats "rt_receive_timed";
   Strays rt_stomp "rt_rpc";
   All Ptr (fun task => Strays (rt_get_linux_signal task) "rt_evdrp");
   All Ptr (fun task => Strays (rt_get_errno task) "rt_isrpc");
   All Ptr (fun task => All Ptr (fun handler => Strays (rt_set_linux_signal_handler task handler) "rt_return"));
   Strays rt_InitTickQueue "_rt_named_spl_init";
   Strays rt_ReleaseTickQueue "rt_named_spl_delete";
   All Ulong (fun n => Strays (rt_qDynAlloc n) "rt_spl_lock");
   All Int (fun n => Strays (rt_qDynFree n) "rt_spl_lock_if");
   All Ptr (fun q => All Rtime (fun t => Strays (rt_qBlkWait q t) "rt_spl_unlock"));
   All Ptr (fun q => All Rtime (fun t => Strays (rt_qBlkRepeat q t) "rt_typed_mbx_init"));
   All Ptr (fun q => Strays (rt_qBlkSoon q) "rt_mbx_delete");
   All Ptr (fun q => Strays (rt_qBlkDequeue q) "_rt_typed_named_mbx_init");
   All Ptr (fun q => Strays (rt_qBlkCancel q) "rt_named_mbx_delete");
   All Ptr (fun cur => All Ptr (fun nxt => Strays (rt_qBlkBefore cur nxt) "_rt_mbx_send_timed"));
   All Ptr (fun cur => All Ptr (fun prv => Strays (rt_qBlkAfter cur prv) "_rt_mbx_receive"));
   All Ptr (fun q => Strays (rt_qBlkUnhook q) "_rt_mbx_receive_wp");
   All Ptr (fun q => Strays (rt_qBlkRelease q) "_rt_mbx_receive_if");
   All Ptr (fun q => Strays (rt_qBlkComplete q) "_rt_mbx_receive_until");
   Strays rt_qSync "_rt_mbx_send";
   All Int (fun target => All Ptr (fun buf => All Ulong (fun maxlen => All Ptr (fun msglen =>
      Strays (rt_qReceive target buf maxlen msglen) "_rt_mbx_send_wp"))));
   Strays rt_qLoop "_rt_mbx_send_if";
   Strays rt_qStep "_rt_mbx_send_until";
   All Ptr (fun h => Strays (rt_qHookFlush h) "_rt_mbx_receive_timed");
   All Ptr (fun q => All Ptr (fun h => Strays (rt_qBlkAtHead q h) "_rt_mbx_evdrp"));
   All Ptr (fun q => All Ptr (fun h => Strays (rt_qBlkAtTail q h) "_rt_mbx_ovrwr_send"));
   All Ptr (fun h => Strays (rt_qHookRelease h) "rt_send_if");
   All Ptr (fun q => All Rtime (fun t => Strays (rt_qBlkSchedule q t) "rt_send_until"));
   Strays rt_GetTickQueueHook "rt_send_timed";
   Strays rt_vc_reserve "rt_rpc_timed";
   All Int (fun pid => Strays (rt_vc_attach pid) "rt_rpc_if");
   All Int (fun pid => Strays (rt_vc_release pid) "rt_rpc_until")].
(** Functions whose numbers belong to nobody. *)
Definition nowhere_contracts : list contract :=
  [All Uint (fun irq => Nowhere (rt_irq_wait irq));
   All Uint (fun irq => Nowhere (rt_irq_wait_if irq));
   All Uint (fun irq => All Rtime (fun time => Nowhere (rt_irq_wait_until irq time)));
   All Uint (fun irq => All Rtime (fun delay => Nowhere (rt_irq_wait_timed irq delay)));
   All Uint (fun irq => Nowhere (rt_irq_signal irq));
   All Uint (fun irq => All Ptr (fun handler => All Int (fun type => All Int (fun affine2task =>
      Nowhere (rt_request_irq_task irq handler type affine2task)))));
   All Uint (fun irq => Nowhere (rt_release_irq_task irq));
   All Int (fun rtc_freq => All Ptr (fun handler => Nowhere (rt_request_rtc rtc_freq handler)));
   Nowhere rt_release_rtc;
   All Ptr (fun handler => Nowhere (rt_usp_signal_handler handler))].
Definition user_contracts : list contract :=
  task_contracts ++ sem_contracts ++ rwl_contracts ++ spl_contracts ++ mbx_contracts ++ msg_contracts ++ shm_contracts ++ signal_contracts ++ fifo_contracts ++ own_contracts.
Definition stale_contracts : list contract := stray_contracts ++ nowhere_contracts.

(** ** Contracts by computation *)

Lemma conv_u64 t z : conv t (u64 z) = conv t z.
Proof.
  destruct t; try done; unfold conv, wrapu, wraps;
    first [by rewrite (Zplus_mod_idemp_l z) | by rewrite (Z.mod_mod z) | idtac].
  - change (2 ^ 64) with (2 ^ 32 * 2 ^ 32). rewrite (Z.rem_mul_r z), <- Zplus_mod_idemp_l by lia.
    rewrite (Z.mul_comm (2 ^ 32) (_ mod _)), Z_mod_plus_full, Z.mod_mod, Zplus_mod_idemp_l by lia. done.
  - change (2 ^ 64) with (2 ^ 32 * 2 ^ 32). rewrite (Z.rem_mul_r z) by lia.
    rewrite (Z.mul_comm (2 ^ 32) (_ mod _)), Z_mod_plus_full, Z.mod_mod by lia. done.
Qed.
Lemma int_long z : in_cty Int z -> conv Long z = z.
Proof. unfold in_cty, conv. intros <-. pose proof (wraps_range 32 z eq_refl). apply wraps_small; lia. Qed.
Lemma uint_ulong z : in_cty Uint z -> conv Ulong z = z.
Proof. unfold in_cty, conv. intros <-. pose proof (wrapu_range 32 z ltac:(done)). apply wrapu_small; lia. Qed.

(** One argument: its word has its value, and so has the parameter of the same type, or of a wider one. *)
Lemma field_same t z : in_cty t z -> conv t (u64 z) = z.
Proof. by rewrite conv_u64. Qed.
Lemma field_int_long z : in_cty Int z -> conv Long (u64 z) = z.
Proof. rewrite conv_u64. apply int_long. Qed.
Lemma field_uint_ulong z : in_cty Uint z -> conv Ulong (u64 z) = z.
Proof. rewrite conv_u64. apply uint_ulong. Qed.
Lemma field_rtime z : in_cty Rtime z -> 0 <= z -> conv Ulong (u64 z) = z.
Proof.
  rewrite conv_u64. unfold in_cty, conv. intros <- Hz. pose proof (wraps_range 64 z eq_refl). apply wrapu_small; lia.
Qed.
Lemma field_name z : conv Ulong (u64 z) = u64 z.
Proof. apply conv_u64. Qed.
Lemma cons_same {A} (x y : A) l l' : x = y -> l = l' -> x :: l = y :: l'.
Proof. by intros -> ->. Qed.

#[local] Arguments conv : simpl never.
#[local] Arguments wrapu : simpl never.
Ltac received_args :=
  intros; unfold received, fun_arguments, argn;
  cbn [r_arg words fvalue ftype F dummy narrow bits fun_arguments map seq received zip_with default];
  unfold bits; cbn [narrow ftype fvalue F dummy default];
  cbn;
  repeat apply cons_same;
  first [reflexivity | apply field_same; assumption | apply field_int_long; assumption
        | apply field_uint_ulong; assumption | apply field_rtime; assumption | apply field_name].
Ltac contract_holds :=
  cbn [holds]; intros;
  lazymatch goal with
  | |- exists p, own_proto _ = _ /\ _ => eexists; split; [vm_compute; reflexivity|]
  | |- exists p, delivers _ _ _ _ _ => eexists
  end;
  unfold delivers; eexists _, _; split;
  [first [reflexivity|match goal with H : ?x <> 0 |- _ => unfold rt_typed_sem_init; rewrite (proj2 (Z.eqb_neq x 0) H); reflexivity end]|];
  split; [first [by split|eexists; split; [vm_compute; reflexivity|split; [reflexivity|vm_compute; reflexivity]]]|];
  cbn [pparams pret fst snd]; split; [unfold brings; received_args|first [exact I|intros ? ? <-; reflexivity]].
Ltac stray :=
  cbn [holds]; intros; eexists _, _, _; split; [reflexivity|]; split; vm_compute; reflexivity.
Ltac nowhere :=
  cbn [holds]; intros; eexists _, _; split; [reflexivity|]; split; vm_compute; reflexivity.

Ltac each t := repeat first [apply Forall_nil_2 | apply Forall_cons_2; [t|]].
Lemma task_served : Forall holds task_contracts.
Proof. each contract_holds. Qed.
Lemma sem_served : Forall holds sem_contracts.
Proof. each contract_holds. Qed.
Lemma rwl_served : Forall holds rwl_contracts.
Proof. each contract_holds. Qed.
Lemma spl_served : Forall holds spl_contracts.
Proof. each contract_holds. Qed.
Lemma mbx_served : Forall holds mbx_contracts.
Proof. each contract_holds. Qed.
Lemma msg_served : Forall holds msg_contracts.
Proof. each contract_holds. Qed.
Lemma shm_served : Forall holds shm_contracts.
Proof. each contract_holds. Qed.
Lemma signal_served : Forall holds signal_contracts.
Proof. each contract_holds. Qed.
Lemma fifo_served : Forall holds fifo_contracts.
Proof. each contract_holds. Qed.
Lemma own_served : Forall holds own_contracts.
Proof. each contract_holds. Qed.

(** C29. With all modules loaded, every function of the user interface that is one request reaches the
    service of its name (or the part of the request handler that is for it) with exactly the arguments it was called
    with, whatever lay on its stack, and its result comes back.  The lists above name the service and the arguments for
    each of the functions; three need a condition ([If]): the name of a semaphore is not 0 (else a first request asks
    for one), the size of a timed extended message is an [int] although the function takes a [long], and the delay of a
    spinlock is not negative; two get a result that is not the service's ([Called], [OwnCalled]): [rt_task_yield], which
    returns nothing in the kernel, and [rt_get_cpu_freq], which narrows it. *)
Theorem user_functions_served : Forall holds user_contracts.
Proof.
  unfold user_contracts. rewrite !Forall_app.
  eauto 20 using task_served, sem_served, rwl_served, spl_served, mbx_served, msg_served, shm_served, signal_served,
    fifo_served, own_served.
Qed.

(** The functions whose numbers rtai_lxrt.h lists as not recovered yet have their requests served by others: each
    reaches the service named with it ([rt_boom] receives a message, [rt_stomp] makes a remote call, [rt_qDynAlloc]
    takes a spinlock...); and the functions for interrupt tasks, the real time clock and the handlers of signals reach
    no service. *)
Theorem stale_functions_stray : Forall holds stale_contracts.
Proof.
  unfold stale_contracts. rewrite Forall_app. split; [each stray|each nowhere].
Qed.
