(* ===== verification/EntriesFacts.v ===== *)
(** * Loading the modules fills the table

    Whatever the order in which the modules enter their services, every number leads to its service in the end. *)

From Stdlib Require Import String.
From stdpp Require Import countable strings sets.
From S2P Require Import Prelude Lxrt Srq Entries UserFacts.
From stdpp Require Import list.
#[local] Open Scope Z_scope.

Section load.
Context (adr : string -> Z).
Let nihil := adr "nihil"%string.

(** The table after the services of [l] were entered in [tab]. *)
Definition filled (l : list entry) (tab : Z -> rt_fun_entry) (i : Z) : rt_fun_entry :=
  match at_index i l with Some e => fst (native adr e) | None => tab i end.
(** A list of services that can be entered in a table: the numbers are free, in range and differ. *)
Definition enterable (l : list entry) (tab : Z -> rt_fun_entry) : Prop :=
  NoDup (map eindex l) /\
  Forall (fun e => 0 <= eindex e < MAX_LXRT_FUN /\ adr (ename e) <> 0 /\ fun_fun (tab (eindex e)) = nihil) l.

Lemma at_index_app i l l' :
  at_index i (l ++ l') = match at_index i l with Some e => Some e | None => at_index i l' end.
Proof. induction l as [|e l IH]; [done|]. unfold at_index in *. simpl. by destruct (eindex e =? i). Qed.
Lemma at_index_none i l : at_index i l = None <-> i ∉ map eindex l.
Proof.
  induction l as [|e l IH]; simpl; [split; [set_solver|done]|]. unfold at_index in *. simpl.
  destruct (eindex e =? i) eqn:E; zbool; [split; [done|]; set_solver|]. rewrite IH. set_solver.
Qed.
Lemma at_index_perm i l l' : l ≡ₚ l' -> NoDup (map eindex l) -> at_index i l = at_index i l'.
Proof.
  induction 1 as [|x l l' _ IH|x y l|l l' l'' H1 IH1 _ IH2]; simpl; intros Hn; [done| | |].
  - apply NoDup_cons in Hn as [_ Hn]. unfold at_index in *. simpl. by rewrite IH.
  - apply NoDup_cons in Hn as [Hy Hn]. unfold at_index. simpl.
    destruct (eindex x =? i) eqn:E1, (eindex y =? i) eqn:E2; zbool; try done. exfalso. set_solver.
  - rewrite IH1 by done. apply IH2. by rewrite <- H1.
Qed.

Lemma enter_all l : forall tab, enterable l tab -> exists rest tab',
  set_entries_loop nihil (native_list adr l) 0 tab = (0, rest, tab') /\ forall i, tab' i = filled l tab i.
Proof.
  unfold native_list. induction l as [|e l IH]; intros tab [Hn Hl].
  { by eexists _, _. }
  apply NoDup_cons in Hn as [He Hn]. apply Forall_cons in Hl as [(Hi & Ha & Hf) Hl].
  destruct (IH (<[eindex e := fst (native adr e)]> tab)) as (rest & tab' & Hs & Ht).
  { split; [done|]. rewrite Forall_forall in Hl |- *. intros e' He'. destruct (Hl e' He') as (? & ? & ?).
    rewrite fn_lookup_insert_ne; [done|]. intros E. apply He. rewrite E. by apply list_elem_of_fmap_2. }
  exists rest, tab'. split.
  - cbn [map app set_entries_loop native fun_fun fst].
    rewrite (proj2 (Z.eqb_neq _ _) Ha), Hf, Z.eqb_refl, (proj2 (Z.leb_gt _ _) (proj2 Hi)). exact Hs.
  - intros i. rewrite Ht. unfold filled, at_index. simpl. fold (at_index i l).
    destruct (eindex e =? i) eqn:E; zbool.
    + subst i. rewrite (proj2 (at_index_none _ _)) by done. by rewrite fn_lookup_insert.
    + destruct (at_index i l); [done|]. by rewrite fn_lookup_insert_ne.
Qed.
Lemma load_module_filled l tab i : enterable l tab -> load_module adr l tab i = filled l tab i.
Proof.
  intros Hl. destruct (enter_all l tab Hl) as (rest & tab' & Hs & Ht).
  unfold load_module, set_rt_fun_entries. fold nihil. rewrite Hs. simpl. apply Ht.
Qed.

Definition load_modules (ms : list (list entry)) (tab : Z -> rt_fun_entry) : Z -> rt_fun_entry :=
  fold_left (fun tab l => load_module adr l tab) ms tab.
Lemma load_modules_filled ms : forall tab, enterable (concat ms) tab ->
  forall i, load_modules ms tab i = filled (concat ms) tab i.
Proof.
  induction ms as [|l ms IH]; intros tab [Hn Hl] i; [done|]. simpl in *.
  rewrite map_app in Hn. apply NoDup_app in Hn as (Hn1 & Hd & Hn2). apply Forall_app in Hl as [Hl1 Hl2].
  assert (forall j, load_module adr l tab j = filled l tab j) as Hm by (intros j; by apply load_module_filled).
  rewrite IH.
  - unfold filled. rewrite at_index_app. destruct (at_index i l) as [e|] eqn:E.
    + assert (i ∈ map eindex l) as Hi.
      { destruct (decide (i ∈ map eindex l)) as [?|Hi]; [done|]. apply at_index_none in Hi. congruence. }
      rewrite (proj2 (at_index_none i _)) by (by apply Hd). rewrite Hm. unfold filled. by rewrite E.
    + destruct (at_index i (concat ms)); [done|]. rewrite Hm. unfold filled. by rewrite E.
  - split; [done|]. rewrite Forall_forall in Hl2 |- *. intros e He. destruct (Hl2 e He) as (? & ? & Hf).
    split; [done|]. split; [done|]. rewrite Hm. unfold filled.
    rewrite (proj2 (at_index_none _ _)); [done|]. intros Hi. apply (Hd _ Hi). by apply list_elem_of_fmap_2.
Qed.
End load.

Lemma concat_perm {A} (l l' : list (list A)) : l ≡ₚ l' -> concat l ≡ₚ concat l'.
Proof.
  induction 1 as [|x l l' _ IH|x y l|]; simpl; [done|by rewrite IH| |by etrans].
  rewrite !app_assoc. by rewrite (Permutation_app_comm y x).
Qed.
Lemma numbers_differ : NoDup (map eindex (concat modules)).
Proof. apply (bool_decide_unpack _). vm_compute. exact I. Qed.
Lemma numbers_in_range : Forall (fun e => 0 <= eindex e < MAX_LXRT_FUN) (concat modules).
Proof. apply (bool_decide_unpack _). vm_compute. exact I. Qed.

(** Whatever the order in which the five modules are loaded, afterwards the number of each of their services
    leads to the service with its type, and every other number to [nihil]; no list is refused. *)
Theorem modules_loaded adr ms i :
  (forall e, e ∈ concat modules -> adr (ename e) <> 0) -> ms ≡ₚ modules ->
  load_modules adr ms (init_rt_fun_lxrt adr) i =
    match at_index i (concat modules) with
    | Some e => FunEntry (etype e) (adr (ename e))
    | None => FunEntry 1 (adr "nihil"%string)
    end.
Proof.
  intros Ha Hp. pose proof (concat_perm _ _ Hp) as Hc.
  rewrite load_modules_filled.
  - unfold filled. rewrite (at_index_perm i (concat ms) (concat modules) Hc).
    + by destruct (at_index i (concat modules)).
    + rewrite Hc. exact numbers_differ.
  - split; [rewrite Hc; exact numbers_differ|]. rewrite Hc. apply Forall_forall. intros e He.
    pose proof numbers_in_range as Hr. rewrite Forall_forall in Hr. split; [by apply Hr|]. split; [by apply Ha|done].
Qed.

