(* ===== verification/Ucall.v ===== *)
(** * A request from the process to the service and back

    [rtai_lxrt] of include/asm-x86/rtai_lxrt.h is the way of every request of [User]: a Linux call that Linux never sees,
    because RTAI intercepts it ([Intercept]).  When a signal has unblocked the task, the kernel answers
    the first try by a word that asks to repeat it. *)

From S2P Require Import Prelude Resume Kernel Shm Named Sys Intercept User.

Section call.
Context {H : Type} `{Allocator H}.
Context (sizeof_SEM sizeof_RWL sizeof_SPL sizeof_MBX sizeof_RT_TASK sizeof_fun_args : Z).
Context (task_at : Z -> tid) (task_adr : tid -> Z) (irandu : nat -> Z -> Z) (rt_fun_lxrt : Z).
Context (junk : nat -> Z) (pid_of : Z -> Z) (rt_printk : list byte -> Z) (timeofday : kst -> Z * Z) (long_bytes : Z -> list byte).
Context (fuel : nat) (pending moved has_mm : Z -> bool) (toggler : bool) (uargs : Z -> list Z).
Context (rtai_usrq_dispatcher : Z -> Z -> Z) (in_hrt_mode : kst -> bool).

(** [syscall(RTAI_SYSCALL_NR, ...)] with the request, the address of the arguments, that of the result and that of the
    word that asks to repeat. *)
Definition syscall (cur req arg ret rep : Z) (s : ist) : res ist unit :=
  let* (_, s) := lxrt_intercept_syscall sizeof_SEM sizeof_RWL sizeof_SPL sizeof_MBX sizeof_RT_TASK sizeof_fun_args
                   task_at task_adr irandu rt_fun_lxrt junk pid_of rt_printk timeofday long_bytes fuel pending moved
                   has_mm toggler uargs rtai_usrq_dispatcher in_hrt_mode cur
                   (MkRegs RTAI_SYSCALL_NR req arg ret rep 0 0) s in
  Done tt s.
(** [ret] and [rep] are the addresses of the local variables. *)
Definition rtai_lxrt (cur dynx lsize srq arg ret rep : Z) (s : ist) : res ist Z :=
  let s := set_uword (<[rep := 0]> (uword s)) s in
  let* (_, s) := syscall cur (ENCODE_LXRT_REQ dynx srq lsize) arg ret rep s in
  let* (_, s) := (if negb (uword s rep =? 0) then syscall cur (ENCODE_LXRT_REQ dynx srq lsize) arg ret rep s
                  else Done tt s) in
  Done (uword s ret) s.
End call.
