(* ===== verification/UcallFacts.v ===== *)
(** * A request that any process may make is served once, whether or not it has to be repeated. *)

From S2P Require Import Prelude Resume Kernel KernelFacts Lxrt Registry Shm Named Sys SysFacts Intercept User Ucall.

Section call.
Context {H : Type} `{Allocator H}.
Context (sizeof_SEM sizeof_RWL sizeof_SPL sizeof_MBX sizeof_RT_TASK sizeof_fun_args : Z).
Context (task_at : Z -> tid) (task_adr : tid -> Z) (irandu : nat -> Z -> Z) (rt_fun_lxrt : Z).
Context (junk : nat -> Z) (pid_of : Z -> Z) (rt_printk : list byte -> Z) (timeofday : kst -> Z * Z) (long_bytes : Z -> list byte).
Context (fuel : nat) (pending moved has_mm : Z -> bool) (toggler : bool) (uargs : Z -> list Z).
Context (rtai_usrq_dispatcher : Z -> Z -> Z) (in_hrt_mode : kst -> bool).
Implicit Types (s : ist (H := H)) (x : ext (H := H)).

Abbreviation rtai_lxrt := (Ucall.rtai_lxrt sizeof_SEM sizeof_RWL sizeof_SPL sizeof_MBX sizeof_RT_TASK sizeof_fun_args
  task_at task_adr irandu rt_fun_lxrt junk pid_of rt_printk timeofday long_bytes fuel pending moved has_mm toggler uargs
  rtai_usrq_dispatcher in_hrt_mode).
Abbreviation syscall := (Ucall.syscall sizeof_SEM sizeof_RWL sizeof_SPL sizeof_MBX sizeof_RT_TASK sizeof_fun_args
  task_at task_adr irandu rt_fun_lxrt junk pid_of rt_printk timeofday long_bytes fuel pending moved has_mm toggler uargs
  rtai_usrq_dispatcher in_hrt_mode).

(** Nobody is asked to change the mode of the task, hard or soft. *)
Definition calm (t : tid) x : Prop :=
  force_soft (tasks (ker x) t) = 0 /\ 0 <= is_hard (tasks (ker x) t) /\ unblocked (tasks (ker x) t) = 0.
(** The kernel's state when the task's mark of having been unblocked is taken away. *)
Definition clear (t : tid) s : ist := iset set_unblocked t 0 s.
Definition iext s : ext := yext (isys s).

(** The service [f] of a request that needs no task of the caller. *)
Record open_service (s : ist) (cur : Z) (t : tid) (r : request) (arg : Z) (stack : nat -> Z)
    (f : list Z -> ext (H := H) -> res (ext (H := H)) Z) : Prop := {
  os_task : tskext (iker s) cur = Some t;
  os_arg : uargs arg = words stack 0 (r_arg r);
  os_dynx : 0 <= r_dynx r < MAX_FUN_EXT;
  os_srq : 0 <= r_srq r < MAX_LXRT_FUN;
  os_lsize : 0 <= r_lsize r < GT_NR_SYSCALLS;
  os_table : rt_fun_ext (isys s) (r_dynx r) <> 0;
  os_fun : tables (isys s) (rt_fun_ext (isys s) (r_dynx r)) (r_srq r) = MkService 0 f
}.

Lemma calm_check t (y : sys (H := H)) : calm t (yext y) -> check_to_soften_harden fuel pending t y = Done tt y.
Proof.
  intros (Hf & Hh & _). unfold check_to_soften_harden, ytask, yker. rewrite Hf. cbn.
  by rewrite (proj2 (Z.ltb_ge _ _) Hh).
Qed.
Lemma invoke_serves cur t r arg stack f s v x :
  open_service s cur t r arg stack f -> calm t (iext s) ->
  f (fun_arguments junk (words stack 0 (r_arg r))) (iext s) = Done v x -> calm t x ->
  invoke sizeof_SEM sizeof_RWL sizeof_SPL sizeof_MBX sizeof_RT_TASK sizeof_fun_args task_at task_adr
            irandu rt_fun_lxrt junk pid_of rt_printk timeofday long_bytes fuel pending moved has_mm toggler uargs
    cur (lxrt_code r) arg (Some t) s = Done v (set_isys (set_yext x (isys s)) s).
Proof.
  intros Ho Hc Hf Hc'. pose proof Ho as [Ht Ha Hd Hs Hl Htab Hfun].
  destruct (decode_request (r_dynx r) (r_srq r) (r_lsize r)) as [He Hr];
    [done|unfold MAX_LXRT_FUN in *; lia|done|]. injection He as HI HS HN. fold (lxrt_code r) in *.
  unfold invoke, on_sys. rewrite (wrapu_small 32) by lia. unfold rtai_lxrt_invoke.
  rewrite calm_check by done. cbn [rbind within]. unfold handle_lxrt_request. cbv zeta.
  rewrite HI, HS, (proj2 (Z.ltb_lt _ _) (proj2 Hs)), (proj2 (Z.eqb_neq _ _) Htab), Hfun. cbn [s_type s_fun Z.eqb].
  rewrite Ha. unfold in_ext. unfold iext in Hf. rewrite Hf. cbn [within rbind].
  rewrite calm_check by done. cbn [within rbind]. unfold ytask, yker. cbn [yext].
  destruct Hc' as (_ & _ & Hu'). change (yext (set_yext x (isys s))) with x. by rewrite Hu'.
Qed.
(** A task that was unblocked: the mark goes, and the process is asked to call again. *)
Definition unblock_mark (t : tid) x : Prop :=
  force_soft (tasks (ker x) t) = 0 /\ is_hard (tasks (ker x) t) = 0 /\ unblocked (tasks (ker x) t) <> 0.

Lemma syscall_serves cur t r arg stack f ret rep s v x :
  open_service s cur t r arg stack f -> calm t (iext s) ->
  f (fun_arguments junk (words stack 0 (r_arg r))) (iext s) = Done v x -> calm t x ->
  exists s', syscall cur (lxrt_code r) arg ret rep s = Done tt s' /\ iext s' = x /\ uword s' = <[ret := v]> (uword s).
Proof.
  intros Ho Hc Hf Hc'. pose proof Ho as [Ht Ha Hd Hs Hl Htab Hfun].
  destruct (decode_request (r_dynx r) (r_srq r) (r_lsize r)) as [_ Hr];
    [done|unfold MAX_LXRT_FUN in *; lia|done|]. fold (lxrt_code r) in Hr.
  unfold Ucall.syscall, lxrt_intercept_syscall. cbn [LINUX_SYSCALL_NR]. rewrite Z.leb_refl, Ht.
  pose proof Hc as (_ & _ & Hu). unfold iker, yker, itask in *. unfold iext in Hu.
  unfold itask, iker, yker. rewrite Hu. cbn [Z.eqb negb]. unfold serve_request. cbn [REG1 REG2 REG3].
  rewrite (proj2 (Z.ltb_lt _ _)) by (change GT_NR_SYSCALLS with 2048 in Hr; unfold RTAI_NR_SRQS; lia).
  rewrite (invoke_serves cur t r arg stack f s v x) by done. cbn [rbind].
  eexists. split; [reflexivity|]. done.
Qed.
Lemma syscall_repeats cur t req arg ret rep s :
  tskext (iker s) cur = Some t -> unblock_mark t (iext s) ->
  syscall cur req arg ret rep s = Done tt (set_uword (<[rep := 1]> (uword s)) (clear t s)).
Proof.
  intros Ht (_ & Hh & Hu). unfold Ucall.syscall, lxrt_intercept_syscall. cbn [LINUX_SYSCALL_NR]. rewrite Z.leb_refl, Ht.
  unfold itask, iker, yker, iext in *. rewrite (proj2 (Z.eqb_neq _ _) Hu), Hh. done.
Qed.

Lemma clear_calm t s : unblock_mark t (iext s) -> calm t (iext (clear t s)).
Proof.
  intros (Hf & Hh & _). unfold calm, clear, iext in *. cbn. rewrite fn_lookup_insert. cbn.
  split; [exact Hf|]. split; [|done]. change (0 <= is_hard (tasks (ker (yext (isys s))) t)). lia.
Qed.

(** C30. A request any process may make (one of a service that needs no task of the caller) made by a
    process whose task nobody forces to become soft: the service is called once, with the words of the
    structure the process filled, and its result is what the process gets; so it is when the task, in soft real time, had been unblocked by a signal
    before, where the kernel asks the process to repeat the call and takes the mark of the task away. *)
Theorem rtai_lxrt_serves_once cur t r arg stack f ret rep s v x :
  open_service s cur t r arg stack f -> ret <> rep ->
  let s0 := if decide (unblocked (tasks (ker (iext s)) t) = 0) then s else clear t s in
  calm t (iext s) \/ unblock_mark t (iext s) ->
  f (fun_arguments junk (words stack 0 (r_arg r))) (iext s0) = Done v x -> calm t x ->
  exists s', rtai_lxrt cur (r_dynx r) (r_lsize r) (r_srq r) arg ret rep s = Done v s' /\ iext s' = x /\
    forall a, a <> ret -> a <> rep -> uword s' a = uword s a.
Proof.
  intros Ho Hne s0 Hm Hf Hc'. unfold Ucall.rtai_lxrt. fold (lxrt_code r).
  set (s1 := set_uword (<[rep := 0]> (uword s)) s).
  assert (open_service s1 cur t r arg stack f) as Ho1 by (by destruct Ho).
  destruct Hm as [Hc|Hu].
  - assert (s0 = s) as E by (unfold s0; destruct (decide _) as [|Hn]; [done|]; by destruct Hn, Hc as (_ & _ & ?)).
    rewrite E in Hf. destruct (syscall_serves cur t r arg stack f ret rep s1 v x) as (s' & -> & Hx & Hw); [done..|].
    cbn [rbind]. exists s'. split; [|split; [done|]].
    + replace (uword s' rep) with 0; [cbn [Z.eqb negb rbind]; by rewrite Hw, fn_lookup_insert|].
      rewrite Hw, fn_lookup_insert_ne by done. cbn. by rewrite fn_lookup_insert.
    + intros a Ha1 Ha2. rewrite Hw, fn_lookup_insert_ne by done. cbn. by rewrite fn_lookup_insert_ne by done.
  - rewrite (syscall_repeats cur t) by (by destruct Ho1). cbn [rbind].
    set (s2 := set_uword (<[rep := 1]> (uword s1)) (clear t s1)).
    assert (open_service s2 cur t r arg stack f) as Ho2 by (by destruct Ho).
    assert (s0 = clear t s) as E by (unfold s0; destruct (decide _) as [Hn|]; [by destruct Hu as (_ & _ & [])|done]).
    rewrite E in Hf. destruct (syscall_serves cur t r arg stack f ret rep s2 v x) as (s' & Hs & Hx & Hw); try done.
    { by apply clear_calm. }
    exists s'. change (uword s2 rep) with ((<[rep := 1]> (uword s1)) rep). rewrite fn_lookup_insert. cbn [Z.eqb negb].
    rewrite Hs. cbn [rbind]. rewrite Hw, fn_lookup_insert. split; [done|]. split; [done|].
    intros a Ha1 Ha2. rewrite fn_lookup_insert_ne by done. cbn. by rewrite !fn_lookup_insert_ne by done.
Qed.
End call.

(** *** Example: a task that was unblocked asks for the time *)

#[local] Instance one_block : Allocator Z := { halloc := fun size h => Some (h, h + size + 1); hfree := fun _ h => Some h }.
Definition ex_time : service (H := Z) := MkService 0 (fun _ x => Done 12345 x).
Definition ex_kst : kst := set_tskext (<[1 := Some (rt_current idle_kst)]> (tskext idle_kst))
  (tset set_unblocked (rt_current idle_kst) 1 idle_kst).
Definition ex_sys : sys (H := Z) :=
  MkSys (MkExt ex_kst (MkReg (fun _ => empty_entry) 1) 1 (fun _ => 0) (fun _ => None) (fun _ => []))
    (fun _ _ => ex_time) (fun _ => 7) (fun _ => []) (fun _ => (0, 0)) (fun _ => 0) (fun _ => 0) (fun _ => 0)
    (fun _ => (0, 0)) (fun _ => 0) [] (fun _ => false) (0, 0).
Definition ex_ist : ist (H := Z) :=
  MkIst ex_sys (fun _ => Calls.new_list 0 0 0 0 0) (fun _ => 0) (7, 7, fun _ => 0) (fun _ => MkKthread 0 0 0) 0 false [].
Definition ex_request : request := Req 0 8 9 [dummy Ulong].

Lemma rtai_lxrt_serves_once_witness : exists s',
  Ucall.rtai_lxrt 0 0 0 0 0 0 (fun _ => Kernel.Linux 0) (fun _ => 0) (fun _ _ => 0) 7 (fun _ => 0) (fun _ => 0) (fun _ => 0)
    (fun _ => (0, 0)) (fun _ => []) 1 (fun _ => false) (fun _ => false) (fun _ => false) false
    (fun _ => words (fun _ => 0) 0 [dummy Ulong]) (fun _ _ => 0) (fun _ => false) 1 0 8 9 500 600 608 ex_ist
    = Done 12345 s' /\ iext s' = iext (clear (rt_current idle_kst) ex_ist) /\
  forall a, a <> 600 -> a <> 608 -> uword s' a = 0.
Proof.
  apply (rtai_lxrt_serves_once (H := Z) 0 0 0 0 0 0 (fun _ => Kernel.Linux 0) (fun _ => 0) (fun _ _ => 0) 7 (fun _ => 0)
    (fun _ => 0) (fun _ => 0) (fun _ => (0, 0)) (fun _ => []) 1 (fun _ => false) (fun _ => false) (fun _ => false) false
    (fun _ => words (fun _ => 0) 0 [dummy Ulong]) (fun _ _ => 0) (fun _ => false) 1 (rt_current idle_kst) ex_request 500
    (fun _ => 0) (fun _ x => Done 12345 x) 600 608 ex_ist).
  - constructor; try done.
  - done.
  - right. by vm_compute.
  - reflexivity.
  - by vm_compute.
Defined.
