(* ===== verification/FifoUser.v ===== *)
(** * Commands of processes as the FIFO device reads them

    [rtf_ioctl] of src/ipc/fifos/fifos.c takes the number of a command and a word; for the commands that
    bring a structure the word is its address, and the structure is read with the kernel's own declaration of it.  Here
    the commands of [UserFifo] become those of [FifoDev]. *)

From Stdlib Require Strings.Byte.
From S2P Require Import Prelude Resume Kernel Srq User UserFifo FifoDev.

(** A structure with fields of types [ts], read from words that were written with others perhaps. *)
Fixpoint unpack (ts : list cty) (ws : list Z) : list Z :=
  match ts, ws with
  | t :: ts', w :: ws' =>
      if narrow t then
        match ts' with
        | u :: ts'' =>
            if narrow u then conv t w :: conv u (Z.shiftr w 32) :: unpack ts'' ws' else conv t w :: unpack ts' ws'
        | [] => [conv t w]
        end
      else conv t w :: unpack ts' ws'
  | _, _ => []
  end.

Section ioctl.
(** What the process has at an address, what the kernel finds for a buffer, what is in memory a process does not set. *)
Context (ubytes : Z -> Z -> list byte) (mem : option (list byte)) (junk : nat -> Z).

Definition arg_words (a : ioctl_arg) : list Z :=
  match a with Obj (Struct l) => words junk 0 l | _ => [] end.
Definition arg_value (a : ioctl_arg) : Z := match a with Val z => i64 z | _ => 0 end.
(** The bytes of a string up to the 0 that ends it. *)
Fixpoint cstring (l : list Z) : list byte :=
  match l with
  | [] => []
  | z :: l' => if z =? 0 then [] else default Byte.x00 (Byte.of_N (Z.to_N (z mod 256))) :: cstring l'
  end.
Definition arg_name (a : ioctl_arg) : list byte := match a with Obj (Str l) => cstring l | _ => [] end.

(** [struct { char *buf; int count; }], [struct { char *buf; int count, delay; }] and the request for information. *)
Definition read_args (a : ioctl_arg) : Z * Z :=
  match unpack [Ptr; Int] (arg_words a) with [buf; count] => (buf, count) | _ => (0, 0) end.
Definition timed_args (a : ioctl_arg) : Z * Z * Z :=
  match unpack [Ptr; Int; Int] (arg_words a) with [buf; count; delay] => (buf, count, delay) | _ => (0, 0, 0) end.
Definition info_args (a : ioctl_arg) : Z * Z :=
  match unpack [Uint; Uint; Ptr] (arg_words a) with [first; n; _] => (first, n) | _ => (0, 0) end.

Definition TCGETS := 0x5401.
Definition FIONREAD := 0x541B.
(** The switch of [rtf_ioctl].  [SUSPEND_TIMED] is the number of that name in rtai_lxrt.h.  The structure of
    [RTF_NAMED_CREATE] has the size after the name, where the process has something else. *)
Definition command (cmd : Z) (a : ioctl_arg) : fifo_cmd :=
  if cmd =? UserFifo.RESET then FifoDev.RESET
  else if cmd =? UserFifo.RESIZE then FifoDev.RESIZE (i32 (arg_value a)) mem
  else if cmd =? Srq.SUSPEND_TIMED then FifoDev.SUSPEND_TIMED (arg_value a)
  else if cmd =? UserFifo.OPEN_SIZED then FifoDev.OPEN_SIZED (i32 (arg_value a)) mem
  else if cmd =? UserFifo.READ_ALL_AT_ONCE then FifoDev.READ_ALL_AT_ONCE (read_args a).2
  else if cmd =? UserFifo.EAVESDROP then FifoDev.EAVESDROP (read_args a).2
  else if cmd =? UserFifo.READ_TIMED then FifoDev.READ_TIMED (timed_args a).1.2 (timed_args a).2
  else if cmd =? UserFifo.READ_IF then FifoDev.READ_IF (read_args a).2
  else if cmd =? UserFifo.WRITE_TIMED then
    FifoDev.WRITE_TIMED (ubytes (timed_args a).1.1 (timed_args a).1.2) (timed_args a).2
  else if cmd =? UserFifo.WRITE_IF then FifoDev.WRITE_IF (ubytes (timed_args a).1.1 (timed_args a).1.2)
  else if cmd =? UserFifo.OVRWRITE then FifoDev.OVRWRITE (ubytes (read_args a).1 (read_args a).2)
  else if cmd =? UserFifo.RTF_SEM_INIT then FifoDev.RTF_SEM_INIT (i32 (arg_value a))
  else if cmd =? UserFifo.RTF_SEM_WAIT then FifoDev.RTF_SEM_WAIT
  else if cmd =? UserFifo.RTF_SEM_TRYWAIT then FifoDev.RTF_SEM_TRYWAIT
  else if cmd =? UserFifo.RTF_SEM_TIMED_WAIT then FifoDev.RTF_SEM_TIMED_WAIT (arg_value a)
  else if cmd =? UserFifo.RTF_SEM_POST then FifoDev.RTF_SEM_POST
  else if cmd =? UserFifo.RTF_SEM_DESTROY then FifoDev.RTF_SEM_DESTROY
  else if cmd =? UserFifo.SET_ASYNC_SIG then FifoDev.SET_ASYNC_SIG (i32 (arg_value a))
  else if cmd =? FIONREAD then FifoDev.FIONREAD
  else if cmd =? UserFifo.RTF_GET_N_FIFOS then FifoDev.RTF_GET_N_FIFOS
  else if cmd =? UserFifo.RTF_GET_FIFO_INFO then FifoDev.RTF_GET_FIFO_INFO (info_args a).1 (info_args a).2
  else if cmd =? UserFifo.RTF_NAMED_CREATE then FifoDev.RTF_NAMED_CREATE (arg_name a) (i32 (junk 2)) mem
  else if cmd =? UserFifo.RTF_CREATE_NAMED then FifoDev.RTF_CREATE_NAMED (arg_name a) mem
  else if cmd =? UserFifo.RTF_NAME_LOOKUP then FifoDev.RTF_NAME_LOOKUP (arg_name a)
  else if cmd =? TCGETS then FifoDev.TCGETS
  else FifoDev.OtherCmd.
End ioctl.
