(* ===== verification/FifoUserFacts.v ===== *)
(** * What the device makes of the commands of a process. *)

From S2P Require Import Prelude Resume Kernel Fifo FifoDev User UserFifo UserFacts FifoUser.
From stdpp Require Import list.
#[local] Open Scope Z_scope.

(** ** A structure is read as it was written when the types agree *)

Lemma conv_u32_low t a b : narrow t = true -> conv t (u32 a + 2 ^ 32 * b) = conv t a.
Proof.
  intros Ht. destruct t; try discriminate; unfold conv, wraps, wrapu; rewrite (Z.mul_comm (2 ^ 32) b).
  - f_equal. rewrite <- Z.add_assoc, (Z.add_comm (b * _)), Z.add_assoc, Z_mod_plus_full.
    by rewrite Zplus_mod_idemp_l.
  - by rewrite Z_mod_plus_full, Z.mod_mod.
Qed.
Lemma high_word a b : Z.shiftr (u32 a + 2 ^ 32 * b) 32 = b.
Proof.
  pose proof (wrapu_range 32 a ltac:(done)). rewrite Z.shiftr_div_pow2 by lia.
  rewrite (Z.mul_comm (2 ^ 32) b), Z.div_add by lia. rewrite Z.div_small by lia. lia.
Qed.
Lemma conv_u32 t z : narrow t = true -> conv t (u32 z) = conv t z.
Proof. intros Ht. rewrite <- (Z.add_0_r (u32 z)). replace 0 with (2 ^ 32 * 0) by done. by apply conv_u32_low. Qed.

Definition set_field (f : cfield) : Prop := exists v, f = F (ftype f) v /\ in_cty (ftype f) v.
Lemma unpack_words junk l : Forall set_field l -> forall k,
  unpack (map ftype l) (words junk k l) = map (fun f => default 0 (fvalue f)) l.
Proof.
  induction l as [l IH] using (induction_ltof1 _ (@length _)); unfold ltof in IH. intros Hl k.
  destruct l as [|f l]; [done|]. apply Forall_cons in Hl as [(v & -> & Hv) Hl]. cbn [map words unpack F ftype fvalue default].
  destruct (narrow (ftype f)) eqn:Hn.
  - destruct l as [|g l]; cbn [map words unpack].
    { unfold bits. cbn [ftype F fvalue default]. rewrite Hn, conv_u32_low by done. by rewrite Hv. }
    pose proof Hl as Hl0. apply Forall_cons in Hl as [(w & -> & Hw) Hl]. cbn [F ftype fvalue default] in *.
    destruct (narrow (ftype g)) eqn:Hg; cbn [words unpack F ftype fvalue default].
    + unfold bits. cbn [ftype F fvalue default]. rewrite Hn, Hg, conv_u32_low, high_word, conv_u32, Hv, Hw by done.
      rewrite IH; [done|cbn; lia|done].
    + unfold bits. cbn [ftype F fvalue default]. rewrite Hn, Hg, conv_u32_low, conv_u64, Hv, Hw by done.
      rewrite IH; [done|cbn; lia|done].
  - unfold bits. cbn [ftype F fvalue default]. rewrite Hn, conv_u64, Hv. f_equal. apply IH; [cbn; lia|done].
Qed.

(** ** The commands *)

Section commands.
Context (ubytes : Z -> Z -> list byte) (mem : option (list byte)) (junk : nat -> Z).
(** A function that is one command of the device, which reads it as [c]. *)
Definition commands (u : uprog) (fd : Z) (c : fifo_cmd) : Prop :=
  exists cmd a, u = or_errno (Ioctl fd cmd a) /\ command ubytes mem junk cmd a = c.

(** A function that opens a device first, and gives the command to what it has opened. *)
Definition opens_for (u : uprog) (dev : list Z) (perm : Z) (c : fifo_cmd) : Prop :=
  exists cmd a k, u = (let! fd := or_errno (Open dev perm) in
                       if fd <? 0 then URet fd else let! r := or_errno (Ioctl fd cmd a) in k fd r) /\
    command ubytes mem junk cmd a = c.

(** A name: at most 15 bytes, none of them 0. *)
Definition name_ok (name : list Z) : Prop := zlen name <= RTF_NAMELEN /\ Forall (fun z => 0 < z < 256) name.
Definition name_bytes (name : list Z) : list byte := map (fun z => default Byte.x00 (Byte.of_N (Z.to_N z))) name.
Lemma buffer_read name : name_ok name -> arg_name (Obj (Str (name_buffer name))) = name_bytes name.
Proof.
  intros [Hl Hn]. cbn [arg_name]. unfold name_buffer. pose proof (zlen_nonneg name). unfold RTF_NAMELEN in *.
  assert (exists n, Z.to_nat (15 + 1 - zlen name) = S n) as [n ->] by (exists (Z.to_nat (15 - zlen name)); lia).
  clear Hl. induction Hn as [|z l Hz _ IH]; [done|]. cbn [app cstring name_bytes map].
  rewrite (proj2 (Z.eqb_neq z 0)), Z.mod_small by lia. f_equal. apply IH. apply zlen_nonneg.
Qed.

Lemma transfer_read buf count : in_cty Ptr buf -> in_cty Int count -> read_args junk (transfer buf count) = (buf, count).
Proof.
  intros Hb Hc. unfold read_args. cbn [arg_words transfer words F ftype narrow unpack].
  unfold bits. cbn [ftype F fvalue default narrow]. by rewrite !conv_u64, Hb, Hc.
Qed.
(** The longs of the process fill two words of which the kernel reads the first, as two ints. *)
Lemma transfer_timed_read buf count delay : in_cty Ptr buf -> in_cty Int count ->
  timed_args junk (transfer_timed buf count delay) = (buf, count, if count <? 0 then -1 else 0).
Proof.
  intros Hb Hc. unfold timed_args. cbn [arg_words transfer_timed words F ftype narrow unpack].
  unfold bits. cbn [ftype F fvalue default narrow]. rewrite !conv_u64, Hb, Hc. f_equal.
  unfold in_cty, conv in Hc. pose proof (wraps_range 32 count eq_refl) as Hr. rewrite Hc in Hr.
  change (id count) with count. unfold conv. rewrite Z.shiftr_div_pow2 by lia. zcase.
  - assert (u64 count = count + 2 ^ 64) as -> by (symmetry; apply (Z.mod_unique _ _ (-1)); lia).
    replace ((count + 2 ^ 64) / 2 ^ 32) with (2 ^ 32 - 1); [done|].
    apply (Z.div_unique _ _ _ (count + 2 ^ 32)); lia.
  - rewrite wrapu_small by lia. by rewrite Z.div_small by lia.
Qed.

Lemma transfer_if_read buf count : in_cty Ptr buf -> in_cty Int count -> (timed_args junk (transfer buf count)).1 = (buf, count).
Proof.
  intros Hb Hc. unfold timed_args. cbn [arg_words transfer words F ftype narrow unpack].
  unfold bits. cbn [ftype F fvalue default narrow]. by rewrite !conv_u64, Hb, Hc.
Qed.

(** C31. The functions of rtai_fifos.h that give commands to the FIFO device, all of them: for a buffer, a count that is not negative, a size, a delay and a name in
    range the device reads the command as it was meant, with the same count, size, value, name and, for what is
    written, the bytes of the process, but for four: the structure of the
    timed transfers has longs where the kernel declares ints, so it reads a delay of 0 and such a
    transfer never waits; the number of [rtf_suspend_timed] is none the device knows, so it is refused; and for the size
    of [rtf_named_create] it reads what lies after the name in the memory of the process. *)
Theorem fifo_commands_read template dev perm fd buf count size delay name :
  in_cty Ptr buf -> in_cty Int count -> 0 <= count -> in_cty Int size -> in_cty Int delay -> name_ok name ->
  (commands (rtf_reset fd) fd FifoDev.RESET /\ commands (rtf_resize fd size) fd (FifoDev.RESIZE size mem) /\
   commands (rtf_evdrp fd buf count) fd (FifoDev.EAVESDROP count) /\
   commands (rtf_read_all_at_once fd buf count) fd (FifoDev.READ_ALL_AT_ONCE count) /\
   commands (rtf_read_if fd buf count) fd (FifoDev.READ_IF count) /\
   commands (rtf_write_if fd buf count) fd (FifoDev.WRITE_IF (ubytes buf count)) /\
   commands (rtf_overwrite fd buf count) fd (FifoDev.OVRWRITE (ubytes buf count)) /\
   commands (rtf_sem_init fd size) fd (FifoDev.RTF_SEM_INIT size) /\
   commands (rtf_sem_wait fd) fd FifoDev.RTF_SEM_WAIT /\ commands (rtf_sem_trywait fd) fd FifoDev.RTF_SEM_TRYWAIT /\
   commands (rtf_sem_timed_wait fd delay) fd (FifoDev.RTF_SEM_TIMED_WAIT delay) /\
   commands (rtf_sem_post fd) fd FifoDev.RTF_SEM_POST /\ commands (rtf_sem_destroy fd) fd FifoDev.RTF_SEM_DESTROY /\
   commands (rtf_set_async_sig fd size) fd (FifoDev.SET_ASYNC_SIG size)) /\
  (opens_for (rtf_open_sized dev perm size) dev perm (FifoDev.RESIZE size mem) /\
   opens_for (rtf_getfifobyname template name) (rtf_getfifobyminor template 0 16) O_RDONLY (FifoDev.RTF_NAME_LOOKUP (name_bytes name)) /\
   opens_for (rtf_create_named template name) (rtf_getfifobyminor template 0 16) O_RDONLY (FifoDev.RTF_CREATE_NAMED (name_bytes name) mem) /\
   opens_for (rtf_named_create template name size) (rtf_getfifobyminor template 0 16) O_RDONLY
     (FifoDev.RTF_NAMED_CREATE (name_bytes name) (i32 (junk 2)) mem)) /\
  commands (rtf_read_timed fd buf count delay) fd (FifoDev.READ_TIMED count 0) /\
  commands (rtf_write_timed fd buf count delay) fd (FifoDev.WRITE_TIMED (ubytes buf count) 0) /\
  commands (rtf_suspend_timed fd delay) fd OtherCmd /\
  forall fuel hret minor d,
    (exists r d', rtf_ioctl fuel hret minor (FifoDev.READ_TIMED count 0) d = Done r d') /\
    (exists r d', rtf_ioctl fuel hret minor (FifoDev.WRITE_TIMED (ubytes buf count) 0) d = Done r d') /\
    rtf_ioctl fuel hret minor OtherCmd d = Done (- EINVAL, NoReply) d.
Proof.
  intros Hb Hc Hc0 Hs Hd Hnm.
  assert (i32 (i64 size) = size /\ i64 delay = delay) as [Hs' Hd'].
  { unfold in_cty, conv in *. pose proof (wraps_range 32 size eq_refl). pose proof (wraps_range 32 delay eq_refl).
    rewrite !(wraps_small 64) by lia. done. }
  assert (timed_args junk (transfer_timed buf count delay) = (buf, count, 0)) as Ht.
  { rewrite transfer_timed_read by done. by rewrite (proj2 (Z.ltb_ge _ _) Hc0). }
  pose proof (transfer_read buf count Hb Hc) as Hr.
  pose proof (transfer_if_read buf count Hb Hc) as Hi.
  split; [|split; [|split; [|split; [|split]]]]; [repeat split| |..].
  15: { unfold rtf_getfifobyname, rtf_create_named, rtf_named_create, by_name. rewrite (proj2 (Z.ltb_ge _ _) (proj1 Hnm)).
        split; [|split; [|split]]; (eexists _, _, _; split;
          [match goal with |- _ = (let! _ := _ in _) => reflexivity end|]; unfold command; rewrite ?(buffer_read name Hnm); simpl;
          unfold arg_value; by rewrite ?Hs'). }
  all: try (eexists _, _; split; [reflexivity|]; unfold command; rewrite ?Ht, ?Hr, ?Hi; unfold arg_value;
         simpl; by rewrite ?Hs', ?Hd').
  intros fuel hret minor d. split; [|split]; [| |by destruct d]; unfold rtf_ioctl, ioctl_fst; cbn [Z.eqb].
  - destruct (mbx_receive_wp minor count (dfst d)) as [[rest out] s']. destruct (count - rest =? 0); by eexists _, _.
  - destruct (mbx_send_wp minor (ubytes buf count) (dfst d)) as [rest s']. destruct (_ =? 0); by eexists _, _.
Qed.
End commands.

Lemma fifo_commands_read_witness :
  commands (fun _ _ => []) None (fun _ => 7) (rtf_read_timed 3 4096 100 20) 3 (FifoDev.READ_TIMED 100 0) /\
  commands (fun _ _ => []) None (fun _ => 7) (rtf_read_if 3 4096 100) 3 (FifoDev.READ_IF 100) /\
  opens_for (fun _ _ => []) None (fun _ => 7) (rtf_named_create (fun _ => [47; 114]) [65; 66] 1) (rtf_getfifobyminor (fun _ => [47; 114]) 0 16) O_RDONLY
    (FifoDev.RTF_NAMED_CREATE [Byte.x41; Byte.x42] 7 None) /\
  commands (fun _ _ => []) None (fun _ => 7) (rtf_suspend_timed 3 20) 3 FifoDev.OtherCmd.
Proof.
  destruct (fifo_commands_read (fun _ _ => []) None (fun _ => 7) (fun _ => [47; 114]) [] 0 3 4096 100 1 20 [65; 66])
    as (H1 & H2 & H3 & H4 & H5 & _); [done|done|done|done|done|by split; [|repeat constructor]|].
  split; [done|]. split; [by destruct H1 as (? & ? & ? & ? & ? & ?)|]. split; [|done].
  destruct H2 as (_ & _ & _ & H2). exact H2.
Defined.
