(* ===== verification/Lock.v ===== *)
(** * The global lock: include/asm-x86/rtai_hal.h.

    The calls of the kernel run with interrupts off and one processor at a time.
    Here is the lock that makes it so, instruction by instruction: a bit for each processor
    that tells whether it holds the lock, and the spinlock of Linux behind the bits.  The
    memory is sequentially consistent; an interrupt that comes while a
    processor has them on leaves the lock as it was; there may be as many processors as
    the mask has bits. *)

From S2P Require Import Prelude.
From stdpp Require Import list relations.
#[local] Open Scope Z_scope.

(** ** Instructions *)

(** What a processor has still to do in a call; a call returns a word or nothing. *)
Inductive code :=
| Ret (v : option Z)
| Cli (k : code)
| Sti (k : code)
| SaveFlags (k : bool -> code)         (* the interrupt bit of the flags *)
| TestAndSet (k : bool -> code)        (* test_and_set_bit(rtai_cpuid(), &mask) *)
| TestAndClear (k : bool -> code)
| TestBit (k : bool -> code)
| SpinLock (k : code)                  (* waits until the lock is free *)
| SpinUnlock (k : code).

Definition RTAI_IFLAG := 9.
Definition rtai_save_flags_irqbit (k : Z -> code) : code :=
  SaveFlags (fun on => k (if on then Z.shiftl 1 RTAI_IFLAG else 0)).
Definition rtai_save_flags_irqbit_and_cli (k : Z -> code) : code :=
  SaveFlags (fun on => Cli (k (if on then Z.shiftl 1 RTAI_IFLAG else 0))).

Definition __rt_get_global_lock (k : code) : code :=
  TestAndSet (fun was => if was then k else SpinLock k).
Definition __rt_release_global_lock (k : code) : code :=
  TestAndClear (fun was => if was then SpinUnlock k else k).
Definition rt_get_global_lock (k : code) : code := Cli (__rt_get_global_lock k).
Definition rt_release_global_lock (k : code) : code := Cli (__rt_release_global_lock k).
Definition rt_global_cli (k : code) : code := rt_get_global_lock k.
Definition rt_global_sti (k : code) : code := rt_release_global_lock (Sti k).

Definition rt_global_save_flags_and_cli (k : Z -> code) : code :=
  rtai_save_flags_irqbit_and_cli (fun flags =>
    TestAndSet (fun was => if was then k flags else SpinLock (k (Z.lor flags 1)))).
Definition rt_global_save_flags (k : Z -> code) : code :=
  rtai_save_flags_irqbit_and_cli (fun hflags =>
    TestBit (fun held =>
      let flags := if held then hflags else Z.lor hflags 1 in
      if negb (hflags =? 0) then Sti (k flags) else k flags)).
Definition rt_global_restore_flags (flags : Z) (k : code) : code :=
  let was := Z.testbit flags 0 in
  let flags := Z.clearbit flags 0 in
  let k := if negb (flags =? 0) then Sti k else k in
  if was then rt_release_global_lock k else rt_get_global_lock k.

(** ** The machine *)

Inductive call := GetGlobalLock | ReleaseGlobalLock | GlobalCli | GlobalSti
  | SaveFlagsAndCli | SaveFlagsOnly | RestoreFlags (flags : Z)
  | SchedGetLock | SchedReleaseLock.

Definition body (op : call) : code :=
  match op with
  | GetGlobalLock => rt_get_global_lock (Ret None)
  | ReleaseGlobalLock => rt_release_global_lock (Ret None)
  | GlobalCli => rt_global_cli (Ret None)
  | GlobalSti => rt_global_sti (Ret None)
  | SaveFlagsAndCli => rt_global_save_flags_and_cli (fun f => Ret (Some f))
  | SaveFlagsOnly => rt_global_save_flags (fun f => Ret (Some f))
  | RestoreFlags f => rt_global_restore_flags f (Ret None)
  | SchedGetLock => __rt_get_global_lock (Ret None)
  | SchedReleaseLock => __rt_release_global_lock (Ret None)
  end.

(** The two words of rtai_cpu_lock[0], what each processor is doing - with the call it
    is in and its state when it called - its interrupt flag, and the words
    its saves have returned. *)
Record lockst := MkLockst {
  mask : Z; spin : option nat; iflag : nat -> bool;
  doing : nat -> option (code * call * (bool * bool)); saved : nat -> list Z
}.
Definition held (c : nat) (m : lockst) : bool := Z.testbit (mask m) (Z.of_nat c).
(** Interrupts on, and lock held. *)
Definition local (c : nat) (m : lockst) : bool * bool := (iflag m c, held c m).

Definition set_mask v (m : lockst) := MkLockst v (spin m) (iflag m) (doing m) (saved m).
Definition set_spin v (m : lockst) := MkLockst (mask m) v (iflag m) (doing m) (saved m).
Definition set_iflag c v (m : lockst) := MkLockst (mask m) (spin m) (<[c := v]> (iflag m)) (doing m) (saved m).
Definition set_doing c v (m : lockst) := MkLockst (mask m) (spin m) (iflag m) (<[c := v]> (doing m)) (saved m).
Definition set_saved c v (m : lockst) := MkLockst (mask m) (spin m) (iflag m) (doing m) (<[c := v]> (saved m)).

(** One instruction of processor [c]; none while it waits for the spinlock, or has returned. *)
Definition instr (c : nat) (k : code) (m : lockst) : option (code * lockst) :=
  let bit := Z.of_nat c in
  match k with
  | Ret _ => None
  | Cli k => Some (k, set_iflag c false m)
  | Sti k => Some (k, set_iflag c true m)
  | SaveFlags k => Some (k (iflag m c), m)
  | TestAndSet k => Some (k (held c m), set_mask (Z.setbit (mask m) bit) m)
  | TestAndClear k => Some (k (held c m), set_mask (Z.clearbit (mask m) bit) m)
  | TestBit k => Some (k (held c m), m)
  | SpinLock k => match spin m with None => Some (k, set_spin (Some c) m) | Some _ => None end
  | SpinUnlock k => Some (k, set_spin None m)
  end.

(** Flags are restored that the processor has saved; the scheduler's own calls are made with
    interrupts off. *)
Definition may_call (c : nat) (op : call) (m : lockst) : Prop :=
  match op with
  | RestoreFlags f => f ∈ saved m c
  | SchedGetLock | SchedReleaseLock => iflag m c = false
  | _ => True
  end.

Inductive lstep : lockst -> lockst -> Prop :=
| ls_call c op m : doing m c = None -> may_call c op m ->
    lstep m (set_doing c (Some (body op, op, local c m)) m)
| ls_instr c k op st k' m m' : doing m c = Some (k, op, st) -> instr c k m = Some (k', m') ->
    lstep m (set_doing c (Some (k', op, st)) m')
| ls_return c v op st m : doing m c = Some (Ret v, op, st) ->
    lstep m (set_doing c None (match v with Some f => set_saved c (f :: saved m c) m | None => m end)).

(** No processor has called, and interrupts are on or off anywhere. *)
Definition lock_start (m : lockst) : Prop :=
  mask m = 0 /\ spin m = None /\ forall c, doing m c = None /\ saved m c = [].

(** ** What the calls mean *)

(** The word that stands for a state. *)
Definition encode (st : bool * bool) : Z :=
  (if st.1 then 0x200 else 0) + (if st.2 then 0 else 1).
Definition decode (f : Z) : bool * bool := (Z.testbit f RTAI_IFLAG, negb (Z.testbit f 0)).

(** The state after a call, and what it returns. *)
Definition effect (op : call) (st : bool * bool) : (bool * bool) * option Z :=
  match op with
  | GetGlobalLock | GlobalCli => ((false, true), None)
  | ReleaseGlobalLock => ((false, false), None)
  | GlobalSti => ((true, false), None)
  | SaveFlagsAndCli => ((false, true), Some (encode st))
  | SaveFlagsOnly => (st, Some (encode st))
  | RestoreFlags f => (decode f, None)
  | SchedGetLock => ((st.1, true), None)
  | SchedReleaseLock => ((st.1, false), None)
  end.
