(* ===== verification/LockFacts.v ===== *)
(** * The global lock keeps the processors apart.

    Whatever processors call and however their instructions interleave, one holds
    the lock at most, with its interrupts off, nobody waits for a lock it
    holds itself, and every call does what it stands for. *)

From stdpp Require Import list relations.
From S2P Require Import Prelude Lock.
#[local] Open Scope Z_scope.

(** What a processor does from here on by itself, when [mine] tells whether the
    spinlock is its own: it ends as expected, waits for the lock only when it is not its own and
    releases only its own. *)
Fixpoint runs_to (post : (bool * bool) * option Z) (k : code) (on held mine : bool) : Prop :=
  match k with
  | Ret v => mine = held /\ ((on, held), v) = post
  | Cli k => runs_to post k false held mine
  | Sti k => runs_to post k true held mine
  | SaveFlags k => runs_to post (k on) on held mine
  | TestAndSet k => runs_to post (k held) on true mine
  | TestAndClear k => runs_to post (k held) on false mine
  | TestBit k => runs_to post (k held) on held mine
  | SpinLock k => mine = false /\ runs_to post k on held true
  | SpinUnlock k => mine = true /\ runs_to post k on held false
  end.

(** The states between calls, and the words that stand for them. *)
Definition good (st : bool * bool) : Prop := st.2 = true -> st.1 = false.
Definition saved_word (f : Z) : Prop := exists st, good st /\ f = encode st.

Lemma saved_words f : saved_word f -> f = 0 \/ f = 1 \/ f = 0x201.
Proof. intros ([[] []] & Hg & ->); cbn in *; try auto. by specialize (Hg eq_refl). Qed.

Definition callable (op : call) (on : bool) : Prop :=
  match op with
  | RestoreFlags f => saved_word f
  | SchedGetLock | SchedReleaseLock => on = false
  | _ => True
  end.

(** Every call, begun between calls, runs to its effect. *)
Lemma body_runs op on held : good (on, held) -> callable op on ->
  runs_to (effect op (on, held)) (body op) on held held.
Proof.
  intros Hg Hc. destruct op as [| | | | | |f| |]; cbn in Hc.
  7: apply saved_words in Hc as [->|[->| ->]].
  all: destruct on, held; try by specialize (Hg eq_refl).
  all: cbn; repeat split.
Qed.
Lemma effect_good op st : good st -> callable op st.1 -> good (effect op st).1.
Proof.
  destruct st as [on hd]. unfold good. cbn. intros Hg Hc.
  destruct op as [| | | | | |f| |]; cbn in *; try done.
  apply saved_words in Hc as [->|[->| ->]]; by vm_compute.
Qed.
Lemma effect_word op st f : good st -> (effect op st).2 = Some f -> saved_word f.
Proof. intros Hg. destruct op; cbn; try done; intros [= <-]; by exists st. Qed.

(** ** The invariant *)

(** The spinlock is [c]'s. *)
Definition own (c : nat) (m : lockst) : bool := bool_decide (spin m = Some c).

(** Processor [c] is between calls, with the spinlock when its bit says so and then with
    interrupts off, or runs to the effect of its call; its words stand for states. *)
Definition lock_ok (c : nat) (m : lockst) : Prop :=
  Forall saved_word (saved m c) /\
  match doing m c with
  | None => good (local c m) /\ own c m = held c m
  | Some (k, op, st) => good st /\ callable op st.1 /\
      runs_to (effect op st) k (iflag m c) (held c m) (own c m)
  end.

(** [lock_ok c] looks at [c]'s part of the machine only. *)
Definition same_part (c : nat) (m m' : lockst) : Prop :=
  local c m' = local c m /\ own c m' = own c m /\
  doing m' c = doing m c /\ saved m' c = saved m c.
Lemma lock_ok_part c m m' : same_part c m m' -> lock_ok c m -> lock_ok c m'.
Proof.
  unfold same_part, lock_ok, local. intros (Hl & Ho & Hd & Hs). injection Hl as Hi Hh.
  by rewrite Hd, Hs, Ho, Hi, Hh.
Qed.

Lemma own_some c m : own c m = true <-> spin m = Some c.
Proof. apply bool_decide_eq_true. Qed.
Lemma own_taken c d m : c <> d -> own d (set_spin (Some c) m) = false.
Proof. intros H. apply bool_decide_eq_false. cbn. congruence. Qed.
Lemma own_free d m : own d (set_spin None m) = false.
Proof. by apply bool_decide_eq_false. Qed.
Lemma own_other c d m : spin m = Some c -> c <> d -> own d m = false.
Proof. unfold own. intros -> H. apply bool_decide_eq_false. congruence. Qed.
Lemma own_nobody d m : spin m = None -> own d m = false.
Proof. unfold own. intros ->. by apply bool_decide_eq_false. Qed.

Lemma held_setbit c d m : held d (set_mask (Z.setbit (mask m) (Z.of_nat c)) m)
  = (if decide (c = d) then true else held d m).
Proof.
  unfold held. cbn. destruct (decide (c = d)) as [->|H].
  - apply Z.setbit_eq. lia.
  - apply Z.setbit_neq; lia.
Qed.
Lemma held_clearbit c d m : held d (set_mask (Z.clearbit (mask m) (Z.of_nat c)) m)
  = (if decide (c = d) then false else held d m).
Proof.
  unfold held. cbn. destruct (decide (c = d)) as [->|H].
  - apply Z.clearbit_eq.
  - apply Z.clearbit_neq; lia.
Qed.

(** An instruction goes on as [runs_to] says... *)
Lemma instr_runs post c k m k' m' :
  runs_to post k (iflag m c) (held c m) (own c m) -> instr c k m = Some (k', m') ->
  runs_to post k' (iflag m' c) (held c m') (own c m').
Proof.
  destruct k; cbn; intros Hr Hi; try done.
  all: try (destruct (spin m) eqn:Hs in Hi; [done|]).
  all: injection Hi as <- <-; cbn; rewrite ?fn_lookup_insert, ?held_setbit, ?held_clearbit,
    ?decide_True by done; try done.
  - unfold own; cbn. rewrite bool_decide_true by done. apply Hr.
  - rewrite own_free. apply Hr.
Qed.
(** ... and is no affair of another processor's. *)
Lemma instr_part post c d k m k' m' :
  runs_to post k (iflag m c) (held c m) (own c m) -> instr c k m = Some (k', m') ->
  c <> d -> same_part d m m'.
Proof.
  unfold same_part, local. destruct k; cbn; intros Hr Hi Hcd; try done.
  all: try (destruct (spin m) eqn:Hs in Hi; [done|]).
  all: injection Hi as <- <-; cbn;
    rewrite ?fn_lookup_insert_ne, ?held_setbit, ?held_clearbit, ?decide_False by done; try done.
  - by rewrite (own_taken _ _ _ Hcd), (own_nobody _ _ Hs).
  - destruct Hr as [Ho%own_some _]. by rewrite own_free, (own_other _ _ _ Ho Hcd).
Qed.

Lemma instr_keeps c k m k' m' : instr c k m = Some (k', m') ->
  doing m' = doing m /\ saved m' = saved m.
Proof. destruct k; cbn; intros Hi; try destruct (spin m); simplify_eq; done. Qed.

Lemma may_callable c op m : lock_ok c m -> may_call c op m -> callable op (iflag m c).
Proof.
  intros [Hs _] Hm. destruct op; cbn in *; try done.
  by apply (proj1 (Forall_forall _ _) Hs), list_elem_of_In.
Qed.

Lemma lstep_ok m m' : lstep m m' -> (forall c, lock_ok c m) -> forall c, lock_ok c m'.
Proof.
  intros Hst Hok d. pose proof (Hok d) as Hd.
  destruct Hst as [c op m Hn Hm|c k op st k' m m' Hk Hi|c v op st m Hk].
  all: destruct (decide (c = d)) as [<-|Hcd].
  - pose proof (may_callable _ _ _ Hd Hm) as Hc. unfold lock_ok in *. cbn.
    rewrite fn_lookup_insert. rewrite Hn in Hd. destruct Hd as (Hs & Hg & Ho).
    repeat split; [done..|]. change (own c _) with (own c m). rewrite Ho. by apply body_runs.
  - revert Hd. apply lock_ok_part. unfold same_part. cbn. by rewrite fn_lookup_insert_ne.
  - destruct (instr_keeps _ _ _ _ _ Hi) as [_ Hsv].
    unfold lock_ok in *. cbn. rewrite fn_lookup_insert, Hsv. rewrite Hk in Hd.
    destruct Hd as (Hs & Hg & Hc & Hr). repeat split; [done..|].
    exact (instr_runs _ _ _ _ _ _ Hr Hi).
  - pose proof (Hok c) as Hc. unfold lock_ok in Hc. rewrite Hk in Hc.
    destruct Hc as (_ & _ & _ & Hr). revert Hd. apply lock_ok_part.
    destruct (instr_part _ _ _ _ _ _ _ Hr Hi Hcd) as (Hl & Ho & Hdo & Hs).
    unfold same_part. cbn. by rewrite fn_lookup_insert_ne.
  - unfold lock_ok in *. rewrite Hk in Hd. destruct Hd as (Hs & Hg & Hc & Ho & He).
    assert (Hg' : good (local c m)).
    { unfold local. pose proof (effect_good _ _ Hg Hc) as H. by rewrite <- He in H. }
    destruct v as [f|]; cbn; rewrite !fn_lookup_insert; (split; [|by split]); [|done].
    constructor; [|done]. apply (effect_word op st); [done|]. by rewrite <- He.
  - revert Hd. apply lock_ok_part. unfold same_part. destruct v; cbn;
      by rewrite ?fn_lookup_insert_ne.
Qed.

Lemma lock_start_ok m : lock_start m -> forall c, lock_ok c m.
Proof.
  intros (Hm & Hs & Hc) c. destruct (Hc c) as [Hd Hw]. unfold lock_ok, good, local.
  assert (held c m = false) as -> by (unfold held; rewrite Hm; apply Z.testbit_0_l).
  rewrite Hd, Hw, (own_nobody c m Hs). by split.
Qed.
Lemma reach_ok m m' : lock_start m -> rtc lstep m m' -> forall c, lock_ok c m'.
Proof.
  intros Hs Hr. pose proof (lock_start_ok _ Hs) as Hok. clear Hs.
  induction Hr as [|m m1 m' Hst _ IH]; [done|]. apply IH. by apply (lstep_ok m).
Qed.

(** ** Driving the machine *)

(** A move of a processor: it makes a call, or goes on with the one it is in. *)
Definition may_callb (c : nat) (op : call) (m : lockst) : bool :=
  match op with
  | RestoreFlags f => bool_decide (f ∈ saved m c)
  | SchedGetLock | SchedReleaseLock => negb (iflag m c)
  | _ => true
  end.
Definition move (c : nat) (op : option call) (m : lockst) : option lockst :=
  match op, doing m c with
  | Some op, None =>
      if may_callb c op m then Some (set_doing c (Some (body op, op, local c m)) m) else None
  | None, Some (Ret v, _, _) => Some (set_doing c None
      (match v with Some f => set_saved c (f :: saved m c) m | None => m end))
  | None, Some (k, op, st) =>
      match instr c k m with Some (k', m') => Some (set_doing c (Some (k', op, st)) m') | None => None end
  | _, _ => None
  end.
Fixpoint drive (l : list (nat * option call)) (m : lockst) : lockst :=
  match l with
  | [] => m
  | (c, op) :: l => match move c op m with Some m' => drive l m' | None => m end
  end.

Lemma move_lstep c op m m' : move c op m = Some m' -> lstep m m'.
Proof.
  unfold move. destruct op as [op|].
  - destruct (doing m c) eqn:Hd; [done|]. destruct (may_callb c op m) eqn:Hc; [|done].
    intros [= <-]. constructor; [done|]. destruct op; cbn in *; try done.
    + by apply bool_decide_eq_true in Hc.
    + by apply negb_true_iff.
    + by apply negb_true_iff.
  - destruct (doing m c) as [[[k op] st]|] eqn:Hd; [|done].
    destruct k; [intros [= <-]; by econstructor|..].
    all: destruct (instr c _ m) as [[k' m1]|] eqn:Hi; [|done]; intros [= <-]; by econstructor.
Qed.
Lemma drive_reach l m : rtc lstep m (drive l m).
Proof.
  revert m. induction l as [|[c op] l IH]; intros m; cbn; [done|].
  destruct (move c op m) eqn:Hm; [|done]. econstructor; [by eapply move_lstep|]. apply IH.
Qed.

(** ** What is promised *)

(** Not in a call, or done with it. *)
Definition outside (c : nat) (m : lockst) : Prop :=
  doing m c = None \/ exists v op st, doing m c = Some (Ret v, op, st).
(** Waiting for the spinlock. *)
Definition waiting (c : nat) (m : lockst) : Prop :=
  exists k op st, doing m c = Some (SpinLock k, op, st).

Lemma outside_ok c m : lock_ok c m -> outside c m -> good (local c m) /\ own c m = held c m.
Proof.
  intros [_ H] [Hd|(v & op & st & Hd)]; rewrite Hd in H; [done|].
  destruct H as (Hg & Hc & Ho & He). split; [|done].
  unfold local. pose proof (effect_good _ _ Hg Hc) as H. by rewrite <- He in H.
Qed.
Lemma waiting_ok c m : lock_ok c m -> waiting c m -> own c m = false.
Proof. intros [_ H] (k & op & st & Hd). rewrite Hd in H. apply H. Qed.

(** A processor that cannot go on waits for another's lock or has returned. *)
Lemma instr_stuck c k m : instr c k m = None ->
  (exists v, k = Ret v) \/ exists k' d, k = SpinLock k' /\ spin m = Some d.
Proof. destruct k; cbn; try done; [eauto|]. destruct (spin m); [eauto|done]. Qed.

(** C38.  However the processors' calls interleave, two of them never hold the global
    lock: the processor that holds it outside its calls owns the spinlock, its
    interrupts are off, and no other processor outside its calls has its bit
    set. *)
Theorem lock_exclusive m0 m c d :
  lock_start m0 -> rtc lstep m0 m -> outside c m -> held c m = true ->
  spin m = Some c /\ iflag m c = false /\ (outside d m -> held d m = true -> d = c).
Proof.
  intros Hs Hr Hc Hh. pose proof (reach_ok _ _ Hs Hr) as Hok.
  destruct (outside_ok _ _ (Hok c) Hc) as [Hg Ho]. rewrite Hh in Ho. apply own_some in Ho.
  split; [done|]. split; [by apply Hg|]. intros Hd Hhd.
  destruct (outside_ok _ _ (Hok d) Hd) as [_ Hod]. rewrite Hhd in Hod.
  apply own_some in Hod. congruence.
Qed.

(** Processor 0 takes the lock and returns; processor 1 saves its flags and waits for it; then
    processor 0 has all done but the release of the spinlock. *)
Definition all_on : lockst := MkLockst 0 None (fun _ => true) (fun _ => None) (fun _ => []).
Definition go (c n : nat) : list (nat * option call) := repeat (c, None) n.
Definition one_has_it : lockst := drive ((0%nat, Some GlobalCli) :: go 0 4) all_on.
Definition other_waits : lockst := drive ((1%nat, Some SaveFlagsAndCli) :: go 1 3) one_has_it.

Lemma all_on_start : lock_start all_on.
Proof. by repeat split. Qed.
Lemma one_has_it_reach : rtc lstep all_on one_has_it.
Proof. apply drive_reach. Qed.
Lemma other_waits_reach : rtc lstep all_on other_waits.
Proof. etrans; [apply one_has_it_reach|apply drive_reach]. Qed.

Lemma lock_exclusive_witness :
  spin other_waits = Some 0%nat /\ iflag other_waits 0 = false /\
  (outside 1 other_waits -> held 1 other_waits = true -> 1%nat = 0%nat).
Proof.
  apply (lock_exclusive all_on); [apply all_on_start|apply other_waits_reach|by left|reflexivity].
Defined.

(** C39.  A call of the global lock goes on until it has the effect its specification
    gives it, whatever the other processors do meanwhile: its processor has a next
    instruction, or it has returned with the state and the word of [effect],
    or it waits for a spinlock that another processor owns, which is not itself waiting. *)
Theorem lock_calls_serve m0 m c k op st :
  lock_start m0 -> rtc lstep m0 m -> doing m c = Some (k, op, st) ->
  (exists k' m', instr c k m = Some (k', m')) \/
  (exists v, k = Ret v /\ (local c m, v) = effect op st) \/
  (waiting c m /\ exists d, d <> c /\ spin m = Some d /\ ~ waiting d m).
Proof.
  intros Hs Hr Hd. pose proof (reach_ok _ _ Hs Hr) as Hok.
  destruct (instr c k m) as [[k' m']|] eqn:Hi; [by eauto|right].
  destruct (instr_stuck _ _ _ Hi) as [[v ->]|(k' & d & -> & Hsp)].
  - left. exists v. split; [done|]. destruct (Hok c) as [_ H]. rewrite Hd in H. apply H.
  - right. assert (waiting c m) as Hw by (do 3 eexists; apply Hd).
    split; [done|]. exists d. repeat split; [|done|].
    + intros ->. apply (waiting_ok _ _ (Hok c)), bool_decide_eq_false in Hw. done.
    + intros Hwd%(waiting_ok _ _ (Hok d)). by apply bool_decide_eq_false in Hwd.
Qed.

(** The waiter. *)
Lemma lock_calls_serve_witness :
  let k := SpinLock (Ret (Some 0x201)) in
  (exists k' m', instr 1 k other_waits = Some (k', m')) \/
  (exists v, k = Ret v /\ (local 1 other_waits, v) = effect SaveFlagsAndCli (true, false)) \/
  (waiting 1 other_waits /\ exists d, d <> 1%nat /\ spin other_waits = Some d /\ ~ waiting d other_waits).
Proof.
  apply (lock_calls_serve all_on other_waits);
    [apply all_on_start|apply other_waits_reach|reflexivity].
Defined.

(** And its return, once the lock is released. *)
Example waiter_served : let m := drive ((0%nat, Some GlobalSti) :: go 0 5 ++ go 1 2) other_waits in
  local 0 m = (true, false) /\ local 1 m = (false, true) /\ saved m 1 = [0x201].
Proof. by repeat split. Qed.

(** The words stand for the states, so that a restore undoes what came after its save. *)
Lemma decode_encode st : decode (encode st) = st.
Proof. by destruct st as [[] []]. Qed.
Lemma effect_restore st st' : effect (RestoreFlags (encode st)) st' = (st, None).
Proof. cbn. by rewrite decode_encode. Qed.
