(* ===== verification/Tsc.v ===== *)
(** * Synchronisation of the time stamp counters: rtai_hal.c.

    A thread goes from processor to processor and compares the counter it finds there with that of
    the master processor, which answers from an interrupt: the two talk through two words of
    memory.  Here are both sides, access by access; [TscFacts] runs them together.
    The thread is alone, so its spinlock is left out. *)

From S2P Require Import Prelude.
#[local] Open Scope Z_scope.

(** The words [go[MASTER]] and [go[SLAVE]]. *)
Inductive cell := MASTER | SLAVE.

(** What a side has still to do; [A] is what it ends with. *)
Inductive code (A : Type) :=
| Ret (a : A)
| Rdtsc (k : Z -> code A)                 (* rtai_rdtsc() *)
| Store (c : cell) (v : Z) (k : code A)
| WaitSet (c : cell) (k : Z -> code A)    (* reads the word until it is not 0 *)
| WaitClear (c : cell) (k : code A)
| SmpCall (k : bool -> code A)            (* smp_call_function_single(master, sync_master) *)
| OnCpu (i : nat) (k : code A).           (* set_cpus_allowed_ptr(current, cpumask_of(i)) *)
Arguments Ret {A}. Arguments Rdtsc {A}. Arguments Store {A}. Arguments WaitSet {A}.
Arguments WaitClear {A}. Arguments SmpCall {A}. Arguments OnCpu {A}.

Definition NUM_ROUNDS : nat := 64.
Definition NUM_ITERS : nat := 5.

(** ** The master *)

Fixpoint master_loop (n : nat) : code unit :=
  match n with
  | O => Ret tt
  | S n => WaitSet MASTER (fun _ => Store MASTER 0 (Rdtsc (fun t => Store SLAVE t (master_loop n))))
  end.
Definition sync_master : code unit := Store MASTER 0 (master_loop (NUM_ROUNDS * NUM_ITERS)).

(** ** One comparison *)

(** The best exchange so far: best_t0, best_t1, best_tm. *)
Record best := MkBest { best_t0 : Z; best_t1 : Z; best_tm : Z }.
Definition better (t0 t1 tm : Z) (b : best) : best :=
  if u64 (t1 - t0) <? u64 (best_t1 b - best_t0 b) then MkBest t0 t1 tm else b.

Fixpoint delta_loop {A} (n : nat) (tsc_offset : Z) (b : best) (k : best -> code A) : code A :=
  match n with
  | O => k b
  | S n =>
      Rdtsc (fun x => let t0 := u64 (x + tsc_offset) in
      Store MASTER 1 (
      WaitSet SLAVE (fun tm =>
      Store SLAVE 0 (
      Rdtsc (fun y => let t1 := u64 (y + tsc_offset) in
      delta_loop n tsc_offset (better t0 t1 tm b) k)))))
  end.

Definition tcenter (b : best) : Z :=
  let c := u64 (best_t0 b / 2 + best_t1 b / 2) in
  if best_t0 b mod 2 + best_t1 b mod 2 =? 2 then u64 (c + 1) else c.
Definition delta_of (b : best) : Z := i64 (tcenter b - best_tm b).
Definition rt_of (b : best) : Z := i64 (best_t1 b - best_t0 b).

(** The result, the time of the round trip, and when the master answered. *)
Definition get_delta {A} (tsc_offset : Z) (k : Z -> Z -> Z -> code A) : code A :=
  delta_loop NUM_ITERS tsc_offset (MkBest 0 (u64 (-1)) 0)
    (fun b => k (delta_of b) (rt_of b) (i64 (best_tm b - best_t0 b))).

(** ** The rounds *)

(** A round as the diagnostic printout has it: rt, master, diff, lat. *)
Definition diag : Type := Z * Z * Z * Z.
(** The variables of sync_tsc; the rounds that are over, last first. *)
Record sync := MkSync {
  tsc_offset : Z; adjust_latency : Z; done : bool; bound : Z; delta : Z; rt : Z; t : list diag
}.

(** A round: what is done with the comparison. *)
Definition sync_round (i delta rt master : Z) (s : sync) : sync :=
  let locked := delta =? 0 in
  let done := done s || locked in
  let bound := if locked then rt else bound s in
  let lat := if negb done && (0 <? i) then i64 (adjust_latency s - delta) else adjust_latency s in
  let adj := if 0 <? i then i64 (- delta + lat ÷ 4) else i64 (- delta) in
  let ofs := if done then tsc_offset s else i64 (tsc_offset s + adj) in
  MkSync ofs lat done bound delta rt ((rt, master, delta, lat ÷ 4) :: t s).

Fixpoint sync_loop {A} (n : nat) (s : sync) (k : sync -> code A) : code A :=
  match n with
  | O => k s
  | S n => get_delta (tsc_offset s) (fun delta rt master =>
             sync_loop n (sync_round (Z.of_nat (length (t s))) delta rt master s) k)
  end.

(** None: the master could not be called. *)
Definition sync_tsc {A} (offset : Z) (k : option sync -> code A) : code A :=
  Store MASTER 1 (
  SmpCall (fun ok =>
    if ok then
      WaitClear MASTER (
      sync_loop NUM_ROUNDS (MkSync offset 0 false 0 0 0 []) (fun s => k (Some s)))
    else k None)).

(** ** All processors *)

(** rtai_tsc_ofst, with what sync_tsc has found for each processor, last first. *)
Record tsc_state := MkTsc { rtai_tsc_ofst : nat -> Z; log : list (nat * sync) }.

Section thread.
Context (CONFIG_RTAI_MASTER_TSC_CPU num_online_cpus : nat).

Definition synced (i : nat) (r : option sync) (st : tsc_state) : tsc_state :=
  match r with
  | Some s => MkTsc (<[i := tsc_offset s]> (rtai_tsc_ofst st)) ((i, s) :: log st)
  | None => MkTsc (<[i := 0]> (rtai_tsc_ofst st)) (log st)
  end.
Fixpoint kthread_loop (n i : nat) (st : tsc_state) : code tsc_state :=
  match n with
  | O => Ret st
  | S n =>
      if Nat.eqb i CONFIG_RTAI_MASTER_TSC_CPU then kthread_loop n (S i) st
      else OnCpu i (sync_tsc 0 (fun r => kthread_loop n (S i) (synced i r st)))
  end.
Definition kthread_fun (st : tsc_state) : code tsc_state := kthread_loop num_online_cpus 0 st.
End thread.

(** ** Both sides at work *)

Section machine.
(** What a counter shows more than the time, and the last moment looked at. *)
Context (clock : nat -> Z) (horizon : Z) (master_cpu : nat).

Record tscm := MkTscm {
  now : Z; go : cell -> Z; cpu : nat; master : code unit; thread : code tsc_state
}.
#[export] Instance cell_eq_dec : EqDecision cell.
Proof. solve_decision. Defined.

(** An access of a side that runs on processor [i]. *)
Definition access {A} (i : nat) (k : code A) (time : Z) (g : cell -> Z) : option (code A * (cell -> Z)) :=
  match k with
  | Rdtsc k => Some (k (u64 (time + clock i)), g)
  | Store c v k => Some (k, <[c := v]> g)
  | WaitSet c k => if g c =? 0 then None else Some (k (g c), g)
  | WaitClear c k => if g c =? 0 then Some (k, g) else None
  | _ => None
  end.

Inductive act : tscm -> tscm -> Prop :=
| act_thread m k g : access (cpu m) (thread m) (now m) (go m) = Some (k, g) ->
    act m (MkTscm (now m) g (cpu m) (master m) k)
| act_master m k g : access master_cpu (master m) (now m) (go m) = Some (k, g) ->
    act m (MkTscm (now m) g (cpu m) k (thread m))
| act_move m i k : thread m = OnCpu i k -> act m (MkTscm (now m) (go m) i (master m) k)
| act_call m k : thread m = SmpCall k -> master m = Ret tt ->
    act m (MkTscm (now m) (go m) (cpu m) sync_master (k true))
| act_call_fails m k : thread m = SmpCall k ->
    act m (MkTscm (now m) (go m) (cpu m) (master m) (k false)).
(** Time passes, or a side acts. *)
Inductive tstep : tscm -> tscm -> Prop :=
| ts_tick m time : now m <= time <= horizon ->
    tstep m (MkTscm time (go m) (cpu m) (master m) (thread m))
| ts_act m m' : act m m' -> tstep m m'.
End machine.
