(* ===== verification/TscFacts.v ===== *)
(** * What the synchronisation of the counters achieves.

    The exchange of the two sides gives the thread a time of the master that lies between
    two of its own ([inv]); from this the arithmetic of the rounds is followed: each
    comparison errs by half a round trip, and the corrections do not add the errors up. *)

From S2P Require Import Prelude Tsc.
From stdpp Require Import relations.
#[local] Open Scope Z_scope.

Section facts.
Context (clock : nat -> Z) (horizon : Z) (master_cpu : nat).

(** ** The exchange *)

(** Where the thread is: no exchange is open and the master serves [n] more, or has returned;
    the word for the master is set; the master is called; an exchange is asked for at a time;
    its answer is read. *)
Inductive phase := Idle (n : nat) | Ready | Called | Asked (n : nat) (since : Z) | Got (n : nat).

(** What the thread does from here on at any later times, if the master answers with
    a time between the question and the answer. *)
Fixpoint runs {A} (Q : A -> Prop) (k : code A) (p : phase) (i : nat) (time : Z) : Prop :=
  match k, p with
  | Ret a, Idle 0 | Ret a, Ready => Q a
  | Rdtsc k, _ => forall t, time <= t <= horizon -> runs Q (k (u64 (t + clock i))) p i t
  | Store MASTER 1 k, Idle 0 | Store MASTER 1 k, Ready =>
      forall t, time <= t <= horizon -> runs Q k Ready i t
  | Store MASTER 1 k, Idle (S n) => forall t, time <= t <= horizon -> runs Q k (Asked n t) i t
  | SmpCall k, Ready => forall t, time <= t <= horizon -> runs Q (k true) Called i t /\ runs Q (k false) Ready i t
  | WaitClear MASTER k, Called =>
      forall t, time <= t <= horizon -> runs Q k (Idle (NUM_ROUNDS * NUM_ITERS)) i t
  | WaitSet SLAVE k, Asked n since =>
      forall a t, since <= a <= t -> time <= t <= horizon -> runs Q (k (u64 (a + clock master_cpu))) (Got n) i t
  | Store SLAVE 0 k, Got n => forall t, time <= t <= horizon -> runs Q k (Idle n) i t
  | OnCpu j k, Idle 0 | OnCpu j k, Ready => forall t, time <= t <= horizon -> runs Q k p j t
  | _, _ => False
  end.

Lemma runs_later {A} (Q : A -> Prop) k p i time time' :
  time <= time' -> runs Q k p i time -> runs Q k p i time'.
Proof.
  intros Ht. destruct k as [a|k|[] [|[]|] k|[] k|[] k|k|j k], p as [[|n]| | |n since|n];
    cbn; intros H; try done; intros; apply H; lia.
Qed.

(** The master and the two words, phase by phase. *)
Definition answer (n : nat) : code unit := Rdtsc (fun t => Store SLAVE t (master_loop n)).
Inductive serves : phase -> Z -> code unit -> Z -> Z -> Prop :=
| sv_idle n time : serves (Idle n) time (master_loop n) 0 0
| sv_ready time : serves Ready time (Ret tt) 1 0
| sv_called time : serves Called time sync_master 1 0
| sv_awake time : serves Called time (master_loop (NUM_ROUNDS * NUM_ITERS)) 0 0
| sv_asked n since time : 0 <= since <= time -> serves (Asked n since) time (master_loop (S n)) 1 0
| sv_seen n since time : 0 <= since <= time -> serves (Asked n since) time (Store MASTER 0 (answer n)) 1 0
| sv_reads n since time : 0 <= since <= time -> serves (Asked n since) time (answer n) 0 0
| sv_writes n since time a : 0 <= since <= a /\ a <= time ->
    serves (Asked n since) time (Store SLAVE (u64 (a + clock master_cpu)) (master_loop n)) 0 0
| sv_answered n since time a : 0 <= since <= a /\ a <= time ->
    serves (Asked n since) time (master_loop n) 0 (u64 (a + clock master_cpu))
| sv_got n time v : serves (Got n) time (master_loop n) 0 v.
#[local] Hint Constructors serves : core.

Lemma serves_later p time time' k gm gs : time <= time' -> serves p time k gm gs -> serves p time' k gm gs.
Proof. intros Ht. destruct 1; eauto with lia. Qed.

(** Serving a step of the master's goes on with it. *)
Lemma serves_master p time k g k' g' :
  serves p time k (g MASTER) (g SLAVE) -> access clock master_cpu k time g = Some (k', g') ->
  serves p time k' (g' MASTER) (g' SLAVE).
Proof.
  intros Hs Ha. remember (g MASTER) as gm eqn:Em. remember (g SLAVE) as gs eqn:Es.
  destruct Hs; cbn in Ha.
  1,4,9,10: destruct n || idtac; cbn in Ha; rewrite <- ?Em in Ha; try done.
  all: rewrite <- ?Em in Ha; cbn in Ha; try done; injection Ha as <- <-;
    rewrite ?fn_lookup_insert, ?fn_lookup_insert_ne, <- ?Em, <- ?Es by done; eauto with lia.
Qed.

Ltac is_cell c := match c with MASTER => idtac | SLAVE => idtac end.
(** The thread's steps keep what it has ahead and what the master serves. *)
Lemma runs_thread {A} (Q : A -> Prop) k p i time mk g k' g' : 0 <= time <= horizon ->
  runs Q k p i time -> serves p time mk (g MASTER) (g SLAVE) ->
  access clock i k time g = Some (k', g') ->
  exists p', runs Q k' p' i time /\ serves p' time mk (g' MASTER) (g' SLAVE).
Proof.
  intros Ht Hr Hs Ha.
  destruct k as [a|k|[] [|[]|] k|[] k|[] k|k|j k], p as [[|n]| | |n since|n];
    cbn in Hr, Ha; try done.
  all: inversion Hs; subst; clear Hs.
  all: repeat match goal with H : _ = ?g ?c |- _ => is_var g; is_cell c; symmetry in H end.
  all: repeat match goal with H : ?g ?c = _ |- _ => is_cell c; rewrite H in Ha end.
  all: cbn in Ha; repeat (destruct (_ =? 0) in Ha); try done.
  all: injection Ha as <- <-; rewrite ?fn_lookup_insert, ?fn_lookup_insert_ne by done.
  all: repeat match goal with H : ?g ?c = _ |- _ => is_cell c; rewrite ?H; clear H end.
  all: eexists; split; [apply Hr; lia|]; eauto with lia.
Qed.

(** While the thread is not done, one of the two acts. *)
Lemma runs_acts (Q : tsc_state -> Prop) m p : 0 <= now m <= horizon ->
  (forall a, 0 <= a <= horizon -> u64 (a + clock master_cpu) <> 0) ->
  runs Q (thread m) p (cpu m) (now m) -> serves p (now m) (master m) (go m MASTER) (go m SLAVE) ->
  (exists st, thread m = Ret st /\ Q st) \/ exists m', act clock master_cpu m m'.
Proof.
  intros Hn Hc Hr Hs. destruct m as [time g i mk k]; cbn in *.
  destruct k as [a|k|[] [|[]|] k|[] k|[] k|k|j k], p as [[|n]| | |n since|n];
    cbn in Hr; try done; try (left; by eexists); right.
  all: try (eexists; by apply act_thread; cbn).
  all: try (eexists; by eapply act_move); try (eexists; by eapply act_call_fails).
  all: inversion Hs; subst; clear Hs.
  all: repeat match goal with H : _ = ?g ?c |- _ => is_var g; is_cell c; symmetry in H end.
  all: try (eexists; apply act_master; cbn; repeat match goal with H : ?g ?c = _ |- _ => is_cell c; rewrite H; clear H end; reflexivity).
  all: eexists; apply act_thread; cbn; repeat match goal with H : ?g ?c = _ |- _ => is_cell c; rewrite H; clear H end.
  - rewrite (proj2 (Z.eqb_neq _ _)); [reflexivity|]. apply Hc; lia.
  - reflexivity.
Qed.

Section invariant.
Context (Q : tsc_state -> Prop).

Definition inv (m : tscm) : Prop :=
  0 <= now m <= horizon /\
  exists p, runs Q (thread m) p (cpu m) (now m) /\ serves p (now m) (master m) (go m MASTER) (go m SLAVE).

Lemma tstep_inv m m' : tstep clock horizon master_cpu m m' -> inv m -> inv m'.
Proof.
  intros Hst (Hn & p & Hr & Hs). destruct Hst as [m time Ht|m m' Ha].
  - split; [cbn; lia|]. exists p. cbn. split; [eapply runs_later; [|done]; lia|].
    eapply serves_later; [|done]; lia.
  - destruct Ha as [m k g Hk|m k g Hk|m i k Hk|m k Hk Hm|m k Hk]; (split; [done|]); cbn in *.
    + eapply runs_thread; eauto.
    + exists p. split; [done|]. eapply serves_master; eauto.
    + exists p. split; [|done]. rewrite Hk in Hr. destruct p as [[]| | | |]; cbn in Hr; try done; apply Hr; lia.
    + rewrite Hk in Hr. destruct p; try done. exists Called.
      split; [apply Hr; lia|]. inversion Hs. constructor.
    + rewrite Hk in Hr. destruct p; try done. exists Ready.
      split; [apply Hr; lia|done].
Qed.

Lemma tsteps_inv m m' : rtc (tstep clock horizon master_cpu) m m' -> inv m -> inv m'.
Proof. induction 1; eauto using tstep_inv. Qed.
End invariant.

(** ** One comparison *)

(** The counters are far from 0 and from 2^63 all the time. *)
Context (counting : forall i a, 0 <= a <= horizon -> 2 ^ 40 <= a + clock i < 2 ^ 62).

(** What the adjusted counter of a processor shows more than the master's. *)
Definition ahead (i : nat) (ofs : Z) : Z := clock i + ofs - clock master_cpu.
(** The adjusted counter does not wrap. *)
Definition in_range (d : Z) : Prop := forall a, 0 <= a <= horizon -> 0 <= a + clock master_cpu + d < 2 ^ 63.
(** An exchange: a question, the master's answer and the end. *)
Definition exchange (d : Z) (b : best) : Prop :=
  exists t0 tm t1, 0 <= t0 <= tm /\ tm <= t1 <= horizon /\
  b = MkBest (t0 + clock master_cpu + d) (t1 + clock master_cpu + d) (tm + clock master_cpu).

Lemma counter i a : 0 <= a <= horizon -> u64 (a + clock i) = a + clock i.
Proof. intros H%(counting i). apply wrapu_small. lia. Qed.
Lemma adjusted i ofs a : 0 <= a <= horizon -> in_range (ahead i ofs) ->
  u64 (u64 (a + clock i) + ofs) = a + clock master_cpu + ahead i ofs.
Proof.
  intros Ha Hr. pose proof (Hr a Ha). rewrite counter by done. unfold ahead in *.
  rewrite wrapu_small; lia.
Qed.

Lemma better_exchange d t0 tm t1 b :
  in_range d -> 0 <= t0 <= tm -> tm <= t1 <= horizon -> exchange d b \/ b = MkBest 0 (u64 (-1)) 0 ->
  exchange d (better (t0 + clock master_cpu + d) (t1 + clock master_cpu + d) (tm + clock master_cpu) b).
Proof.
  intros Hr H0 H1 Hb. unfold better.
  assert (exchange d (MkBest (t0 + clock master_cpu + d) (t1 + clock master_cpu + d)
    (tm + clock master_cpu))) as Hn by (exists t0, tm, t1; auto).
  pose proof (Hr t0 ltac:(lia)). pose proof (Hr t1 ltac:(lia)).
  destruct Hb as [Hb|Hb]; [by destruct (_ <? _)|].
  rewrite Hb. cbn [best_t1 best_t0]. replace (u64 (u64 (-1) - 0)) with (2 ^ 64 - 1) by reflexivity.
  rewrite wrapu_small by lia. by destruct (Z.ltb_spec (t1 + clock master_cpu + d - (t0 + clock master_cpu + d)) (2 ^ 64 - 1)); [|lia].
Qed.

Lemma delta_loop_runs {A} (Q : A -> Prop) n N i ofs b k time :
  0 <= time <= horizon ->
  (in_range (ahead i ofs) -> exchange (ahead i ofs) b \/ (b = MkBest 0 (u64 (-1)) 0 /\ n <> 0%nat)) ->
  (forall t b', time <= t <= horizon -> (in_range (ahead i ofs) -> exchange (ahead i ofs) b') ->
     runs Q (k b') (Idle N) i t) ->
  runs Q (delta_loop n ofs b k) (Idle (n + N)) i time.
Proof.
  revert b time. induction n as [|n IH]; intros b time Ht Hb Hk.
  - apply Hk; [lia|]. intros Hr. by destruct (Hb Hr) as [|[_ []]].
  - cbn. intros t0 H0 t0' H0' tm t Hm Hm' t' Hm'' t1 H1.
    apply IH; [lia| |intros; apply Hk; [lia|done]].
    intros Hr. left. rewrite !adjusted, counter by (done || lia).
    apply better_exchange; [done|lia|lia|]. destruct (Hb Hr) as [|[-> _]]; auto.
Qed.

(** The comparison errs by half a round trip. *)
Lemma delta_err d b : in_range d -> exchange d b ->
  Z.abs (2 * (delta_of b - d)) <= rt_of b + 1 /\ 0 <= rt_of b.
Proof.
  intros Hr (t0 & tm & t1 & H0 & H1 & ->). unfold delta_of, rt_of, tcenter.
  cbn [best_t0 best_t1 best_tm].
  pose proof (Hr t0 ltac:(lia)). pose proof (Hr t1 ltac:(lia)). pose proof (counting master_cpu tm ltac:(lia)).
  remember (t0 + clock master_cpu + d) as x eqn:Ex. remember (t1 + clock master_cpu + d) as y eqn:Ey.
  remember (tm + clock master_cpu) as z eqn:Ez.
  pose proof (Z.div_mod x 2 ltac:(lia)). pose proof (Z.mod_pos_bound x 2 ltac:(lia)).
  pose proof (Z.div_mod y 2 ltac:(lia)). pose proof (Z.mod_pos_bound y 2 ltac:(lia)).
  rewrite !(wrapu_small 64 (x / 2 + y / 2)) by lia. rewrite (wraps_small 64 (y - x)) by lia.
  destruct (Z.eqb_spec (x mod 2 + y mod 2) 2); rewrite ?wrapu_small by lia; rewrite wraps_small; lia.
Qed.

(** ** The rounds *)

Definition trip (x : diag) : Z := x.1.1.1.
(** Every round trip of the rounds is [R] at most. *)
Definition trips (R : Z) (s : sync) : Prop := R <= 2 ^ 32 /\ Forall (fun x => trip x <= R) (t s).

(** Between rounds: the counter is not yet moved; or it is ahead by the error of the last
    comparison and a quarter of what was corrected in all; or it stays for good. *)
Definition between (i : nat) (s : sync) : Prop := forall R, trips R s ->
  if done s then Z.abs (2 * ahead i (tsc_offset s)) <= bound s + 1 /\ bound s <= R
  else match t s with
  | [] => tsc_offset s = 0 /\ adjust_latency s = 0
  | _ => Z.abs (adjust_latency s) <= 4 * R + 7 /\ 0 <= R /\
      exists e, Z.abs (2 * e) <= R + 1 /\ ahead i (tsc_offset s) = - e + adjust_latency s ÷ 4
  end.

Lemma quot4 z : 4 * Z.abs (z ÷ 4) <= Z.abs z /\ 4 * Z.abs (z - z ÷ 4) <= 3 * Z.abs z + 3.
Proof.
  destruct (Z.le_ge_cases 0 z).
  - rewrite Z.quot_div_nonneg by lia. pose proof (Z.div_mod z 4). pose proof (Z.mod_pos_bound z 4). lia.
  - replace (z ÷ 4) with (- (- z / 4)) by (rewrite <- Z.quot_div_nonneg by lia; rewrite Z.quot_opp_l; lia).
    pose proof (Z.div_mod (- z) 4). pose proof (Z.mod_pos_bound (- z) 4). lia.
Qed.

(** How far the counters are apart before and after. *)
Definition settled (s : sync) (R : Z) : Z := if done s then bound s + 1 else 3 * R + 4.
Lemma between_settled i s R : between i s -> trips R s -> t s <> [] ->
  Z.abs (2 * ahead i (tsc_offset s)) <= settled s R.
Proof.
  unfold settled. intros Hb HR Hn. specialize (Hb R HR). destruct (done s); [apply Hb|].
  destruct (t s); [done|]. destruct Hb as (Ha & _ & e & He & ->).
  pose proof (quot4 (adjust_latency s)). lia.
Qed.
Context (started : 0 <= horizon).
Lemma between_range i s R : between i s -> trips R s -> in_range (ahead i (tsc_offset s)).
Proof.
  intros Hb HR a Ha. pose proof (counting i a Ha). pose proof (counting master_cpu a Ha).
  destruct (decide (done s = false /\ t s = [])) as [[Hd Ht]|Hn].
  - specialize (Hb R HR). rewrite Hd, Ht in Hb. destruct Hb as [-> _]. unfold ahead. lia.
  - assert (Z.abs (2 * ahead i (tsc_offset s)) <= 2 ^ 36).
    { pose proof (proj1 HR). specialize (Hb R HR). destruct (done s); [lia|].
      destruct (t s); [by destruct Hn|]. destruct Hb as (Hl & _ & e & He & ->).
      pose proof (quot4 (adjust_latency s)). lia. }
    lia.
Qed.

(** The correction of a round. *)
Lemma between_round i s b ms : between i s ->
  (in_range (ahead i (tsc_offset s)) -> exchange (ahead i (tsc_offset s)) b) ->
  between i (sync_round (Z.of_nat (length (t s))) (delta_of b) (rt_of b) ms s).
Proof.
  intros Hb He R [HR Ht]. inversion Ht as [|? ? Hrt Ht0]; subst. cbn in Hrt.
  assert (trips R s) as Hs by done. pose proof (between_range _ _ _ Hb Hs) as Hrg.
  destruct (delta_err _ _ Hrg (He Hrg)) as [Hd Hr0]. specialize (Hb R Hs).
  pose proof (counting i 0 ltac:(lia)). pose proof (counting master_cpu 0 ltac:(lia)).
  unfold sync_round. cbn -[Z.of_nat Z.quot Z.mul Z.pow].
  destruct (Z.eqb_spec (delta_of b) 0) as [Hz|Hz].
  { rewrite orb_true_r. rewrite Hz in Hd. split; lia. }
  rewrite orb_false_r. destruct (done s); [done|]. cbn [negb andb].
  destruct (t s) as [|x l] eqn:Hl.
  - destruct Hb as [Ho Ha]. rewrite Ho, Ha in *. unfold ahead in *.
    change (0 <? Z.of_nat (length (A := diag) [])) with false. cbv beta iota.
    rewrite (wraps_small 64 (- delta_of b)) by lia. rewrite wraps_small by lia.
    split; [lia|]. split; [lia|]. exists (delta_of b - (clock i - clock master_cpu)). change (0 ÷ 4) with 0. lia.
  - destruct Hb as (Ha & HR0 & e & Hee & Hah). replace (0 <? _) with true by (symmetry; apply Z.ltb_lt; cbn; lia).
    pose proof (quot4 (adjust_latency s)).
    rewrite (wraps_small 64 (adjust_latency s - delta_of b)) by lia.
    pose proof (quot4 (adjust_latency s - delta_of b)). unfold ahead in *.
    rewrite (wraps_small 64 (- delta_of b + _)) by lia. rewrite wraps_small by lia.
    split; [lia|]. split; [lia|].
    exists (delta_of b - (clock i + tsc_offset s - clock master_cpu)). lia.
Qed.

Lemma sync_loop_runs {A} (Q : A -> Prop) n i s (k : sync -> code A) time :
  0 <= time <= horizon -> between i s -> (t s <> [] \/ n <> 0%nat) ->
  (forall t' s', time <= t' <= horizon -> between i s' -> t s' <> [] -> runs Q (k s') (Idle 0) i t') ->
  runs Q (sync_loop n s k) (Idle (n * NUM_ITERS)) i time.
Proof.
  revert s time. induction n as [|n IH]; intros s time Ht Hb Hn Hk.
  - apply Hk; [lia|done|]. by destruct Hn.
  - apply (delta_loop_runs Q NUM_ITERS (n * NUM_ITERS)); [done|by right|].
    intros t' b Ht' He. apply IH; [lia|by apply between_round|by left|].
    intros; apply Hk; [lia|done..].
Qed.

(** ** All processors *)

Context (num_online_cpus : nat).

(** What the log tells of a processor. *)
Definition entry_ok (ofst : nat -> Z) (x : nat * sync) : Prop :=
  x.1 <> master_cpu /\ ofst x.1 = tsc_offset x.2 /\
  forall R, trips R x.2 -> Z.abs (2 * ahead x.1 (ofst x.1)) <= settled x.2 R.
Definition log_ok (i : nat) (st : tsc_state) : Prop :=
  Forall (fun x => (x.1 < i)%nat /\ entry_ok (rtai_tsc_ofst st) x) (log st).

Lemma entry_ok_other ofst j v x : x.1 <> j -> entry_ok ofst x -> entry_ok (<[j := v]> ofst) x.
Proof. intros Hj. unfold entry_ok. by rewrite fn_lookup_insert_ne. Qed.
Lemma log_ok_other i v st l : log_ok i st -> log st = l ->
  Forall (fun x => (x.1 < S i)%nat /\ entry_ok (<[i := v]> (rtai_tsc_ofst st)) x) l.
Proof.
  intros Hl <-. eapply Forall_impl; [exact Hl|]. intros x [Hx He].
  split; [lia|]. apply entry_ok_other; [lia|done].
Qed.
Lemma log_ok_synced i s st : i <> master_cpu -> between i s -> t s <> [] -> log_ok i st ->
  log_ok (S i) (synced i (Some s) st).
Proof.
  intros Hi Hb Ht Hl. unfold log_ok. cbn. constructor; [|by eapply log_ok_other].
  cbn. split; [lia|]. unfold entry_ok. cbn. rewrite fn_lookup_insert.
  split; [done|]. split; [done|]. intros R HR. by apply between_settled.
Qed.

(** The call of the master, and a move, from where no exchange is open. *)
Lemma runs_call {A} (Q : A -> Prop) p i (k1 k2 : code A) time : p = Idle 0 \/ p = Ready ->
  (forall t1 t2, time <= t1 <= t2 /\ t2 <= horizon ->
    (forall t3, t2 <= t3 <= horizon -> runs Q k1 (Idle (NUM_ROUNDS * NUM_ITERS)) i t3) /\ runs Q k2 Ready i t2) ->
  runs Q (Store MASTER 1 (SmpCall (fun ok => if ok then WaitClear MASTER k1 else k2))) p i time.
Proof. intros [-> | ->] H t1 H1 t2 H2; apply (H t1 t2); lia. Qed.
Lemma runs_move {A} (Q : A -> Prop) p i j (k : code A) time : p = Idle 0 \/ p = Ready ->
  (forall t, time <= t <= horizon -> runs Q k p j t) -> runs Q (OnCpu j k) p i time.
Proof. by intros [-> | ->] H. Qed.

Lemma sync_tsc_runs {A} (Q : A -> Prop) p i (k : option sync -> code A) time :
  0 <= time <= horizon -> p = Idle 0 \/ p = Ready ->
  (forall t', time <= t' <= horizon -> runs Q (k None) Ready i t') ->
  (forall t' s, time <= t' <= horizon -> between i s -> t s <> [] -> runs Q (k (Some s)) (Idle 0) i t') ->
  runs Q (sync_tsc 0 k) p i time.
Proof.
  intros Ht Hp Hn Hk.
  apply runs_call; [done|]. intros t1 t2 H1. split; [|apply Hn; lia].
  intros t3 H3. apply sync_loop_runs; [lia|by intros R _|by right|]. intros; apply Hk; [lia|done..].
Qed.

Lemma kthread_loop_runs n i st p j time :
  0 <= time <= horizon -> p = Idle 0 \/ p = Ready -> log_ok i st ->
  runs (log_ok (i + n)) (kthread_loop master_cpu n i st) p j time.
Proof.
  revert i st p j time. induction n as [|n IH]; intros i st p j time Ht Hp Hl.
  - rewrite Nat.add_0_r. by destruct Hp as [-> | ->].
  - rewrite Nat.add_succ_r. change (S (i + n)) with (S i + n)%nat.
    cbn [kthread_loop]. destruct (Nat.eqb_spec i master_cpu) as [He|He].
    + apply IH; [done|done|]. eapply Forall_impl; [exact Hl|]. intros x [Hx ?]. split; [lia|done].
    + apply runs_move; [done|]. intros t1 H1. apply sync_tsc_runs; [lia|done| |].
      * intros t2 H2. apply IH; [lia|by right|]. by eapply log_ok_other.
      * intros t2 s H2 Hb Hs. apply IH; [lia|by left|]. by apply log_ok_synced.
Qed.

(** The thread is started and nothing else has begun. *)
Definition tsc_start (m : tscm) : Prop :=
  0 <= now m <= horizon /\ go m MASTER = 0 /\ go m SLAVE = 0 /\ master m = Ret tt /\
  exists ofst, thread m = kthread_fun master_cpu num_online_cpus (MkTsc ofst []).

(** C40.  The counters are brought together: whenever the master and the thread answer each
    other, one of the two has something to do until the thread has ended; and then the counter of every
    processor that was compared, with the offset found for it, differs from the
    master's by half a round trip where a comparison gave 0, and otherwise by one and a half of
    the longest: the corrections of the rounds do not pile up.  All counters are from 2^40 to below
    2^62 while this goes on. *)
Theorem tsc_sync_correct m0 m :
  tsc_start m0 -> rtc (tstep clock horizon master_cpu) m0 m ->
  (exists m', act clock master_cpu m m') \/
  exists st, thread m = Ret st /\ Forall (entry_ok (rtai_tsc_ofst st)) (log st).
Proof.
  intros (Hn & Hm & Hs & Hk & ofst & Ht) Hr.
  assert (inv (log_ok (0 + num_online_cpus)) m0) as Hi.
  { split; [done|]. exists (Idle 0). rewrite Ht, Hm, Hs, Hk. split; [|constructor].
    apply kthread_loop_runs; [done|by left|constructor]. }
  destruct (tsteps_inv _ _ _ Hr Hi) as (Hn' & p & Hru & Hse).
  destruct (runs_acts _ _ _ Hn' ltac:(intros a Ha; rewrite counter by done; pose proof (counting master_cpu a Ha); lia) Hru Hse)
    as [(st & Hst & HQ)|]; [right|by left].
  exists st. split; [done|]. eapply Forall_impl; [exact HQ|]. by intros x [_ Hx].
Qed.
End facts.

(** ** A run *)

(** One turn: time passes, then the thread acts, or else the master. *)
Definition turn (clock : nat -> Z) (horizon : Z) (master_cpu : nat) (m : tscm) : option tscm :=
  let time := now m + 7 in
  if horizon <? time then None else
  match access clock (cpu m) (thread m) time (go m) with
  | Some (k, g) => Some (MkTscm time g (cpu m) (master m) k)
  | None =>
    match access clock master_cpu (master m) time (go m) with
    | Some (k, g) => Some (MkTscm time g (cpu m) k (thread m))
    | None =>
      match thread m, master m with
      | OnCpu i k, _ => Some (MkTscm time (go m) i (master m) k)
      | SmpCall k, Ret tt => Some (MkTscm time (go m) (cpu m) sync_master (k true))
      | _, _ => None
      end
    end
  end.
Fixpoint turns (n : nat) clock horizon master_cpu (m : tscm) : tscm :=
  match n with
  | O => m
  | S n => match turn clock horizon master_cpu m with
           | Some m' => turns n clock horizon master_cpu m'
           | None => m
           end
  end.

Lemma turn_tsteps clock horizon master_cpu m m' :
  turn clock horizon master_cpu m = Some m' -> rtc (tstep clock horizon master_cpu) m m'.
Proof.
  unfold turn. destruct (Z.ltb_spec horizon (now m + 7)) as [|Hh]; [done|]. intros Ht.
  eapply rtc_l; [apply (ts_tick _ _ _ _ (now m + 7)); lia|]. eapply rtc_once, ts_act.
  destruct (access clock (cpu m) _ _ _) as [[k g]|] eqn:Ha.
  { injection Ht as <-. by apply (act_thread _ _ (MkTscm _ _ _ _ _)). }
  destruct (access clock master_cpu _ _ _) as [[k g]|] eqn:Hm.
  { injection Ht as <-. by apply (act_master _ _ (MkTscm _ _ _ _ _)). }
  destruct (thread m) eqn:Hth; try done.
  - destruct (master m) as [[]| | | | | |] eqn:Hma; try done. injection Ht as <-.
    by apply (act_call _ _ (MkTscm _ _ _ _ _)).
  - injection Ht as <-. by apply (act_move _ _ (MkTscm _ _ _ _ _)).
Qed.
Lemma turns_tsteps n clock horizon master_cpu m :
  rtc (tstep clock horizon master_cpu) m (turns n clock horizon master_cpu m).
Proof.
  revert m. induction n as [|n IH]; intros m; cbn; [done|].
  destruct (turn _ _ _ m) eqn:Ht; [|done]. etrans; [by eapply turn_tsteps|apply IH].
Qed.

(** Two processors; the counter of the second is 12345 ahead. *)
Definition two_clocks (i : nat) : Z := 2 ^ 41 + match i with 1%nat => 12345 | _ => 0 end.
Definition tsc_m0 : tscm :=
  MkTscm 0 (fun _ => 0) 0 (Ret tt) (kthread_fun 0 2 (MkTsc (fun _ => 0) [])).
Definition tsc_m1 : tscm := turns 4000 two_clocks (2 ^ 30) 0 tsc_m0.

Lemma tsc_sync_correct_witness :
  (exists m', act two_clocks 0 tsc_m1 m') \/
  exists st, thread tsc_m1 = Ret st /\ Forall (entry_ok two_clocks 0 (rtai_tsc_ofst st)) (log st).
Proof.
  apply (tsc_sync_correct two_clocks (2 ^ 30) 0) with (num_online_cpus := 2%nat) (m0 := tsc_m0).
  - intros [|[|i]] a Ha; unfold two_clocks; lia.
  - lia.
  - unfold tsc_start, tsc_m0. cbn [now go master thread]. split; [lia|]. repeat split. by exists (fun _ => 0).
  - apply turns_tsteps.
Defined.
Example tsc_run : match thread tsc_m1 with
  | Ret st => (rtai_tsc_ofst st 1%nat, map (fun x => (x.1, bound x.2, rt x.2)) (log st))
  | _ => (0, [])
  end = (-12345, [(1%nat, 56, 56)]).
Proof. vm_compute. reflexivity. Qed.
