(* ===== verification/RegList.v ===== *)
(** * The registry without hashing: the other registry of api.c.

    The code has the registry twice, and chooses when it is compiled (HASHED_REGISTRY, which is
    defined): by hashing, as [Registry] has it, and as an array that is searched from its first slot, here.
    [RegListFacts] shows that they do the same.  The links of an entry are not used. *)

From S2P Require Import Prelude Registry.
#[local] Open Scope Z_scope.

(** [for (slot = 1; slot <= max_slots; slot++)], up to the first slot that passes the test. *)
Fixpoint scan (n : nat) (found : entry -> bool) (l : Z -> entry) (slot : Z) : option Z :=
  match n with
  | O => None
  | S n => if found (l slot) then Some slot else scan n found l (slot + 1)
  end.
Definition find_slot (found : entry -> bool) (r : registry) : option Z :=
  scan (Z.to_nat (max_slots r)) found (slots r) 1.
Definition named (nm : Z) (e : entry) : bool := name e =? nm.
Definition placed (a : Z) (e : entry) : bool := adr e =? a.

(** The last entry takes the place of the one removed. *)
Definition take_out (slot : Z) (r : registry) : registry :=
  MkReg (if slot <? max_slots r then <[slot := slots r (max_slots r)]> (slots r) else slots r)
    (if 0 <? max_slots r then max_slots r - 1 else max_slots r).

Definition registr (MAX_SLOTS nm a ty lnx : Z) (r : registry) : Z * registry :=
  if max_slots r <? MAX_SLOTS then
    match find_slot (named nm) r with
    | Some _ => (0, r)
    | None =>
        let slot := max_slots r + 1 in
        let e := slots r slot in
        (slot, MkReg (<[slot := MkEntry nm a lnx ty 1 (alink e) (nlink e)]> (slots r)) slot)
    end
  else (0, r).

Definition drg (found : entry -> bool) (r : registry) : Z * registry :=
  match find_slot found r with
  | Some slot => (slot, take_out slot r)
  | None => (0, r)
  end.
Definition drg_on_name (nm : Z) : registry -> Z * registry := drg (named nm).
Definition drg_on_adr (a : Z) : registry -> Z * registry := drg (placed a).

(** An entry that is still counted is passed over. *)
Fixpoint drg_cnt (n : nat) (found : entry -> bool) (slot : Z) (r : registry) : Z * registry :=
  match n with
  | O => (- EFAULT, r)
  | S n =>
      if found (slots r slot) && (0 <? count (slots r slot)) then
        let c := count (slots r slot) - 1 in
        let r := with_slots r (eset (set_count c) slot (slots r)) in
        if c =? 0 then (c, take_out slot r) else drg_cnt n found (slot + 1) r
      else drg_cnt n found (slot + 1) r
  end.
Definition drg_on_name_cnt (nm : Z) (r : registry) : Z * registry :=
  drg_cnt (Z.to_nat (max_slots r)) (named nm) 1 r.
Definition drg_on_adr_cnt (a : Z) (r : registry) : Z * registry :=
  drg_cnt (Z.to_nat (max_slots r)) (placed a) 1 r.

Definition get_adr (nm : Z) (r : registry) : Z :=
  match find_slot (named nm) r with Some slot => adr (slots r slot) | None => 0 end.
Definition get_adr_cnt (nm : Z) (r : registry) : Z * registry :=
  match find_slot (named nm) r with
  | Some slot => (adr (slots r slot),
      with_slots r (eset (fun e => set_count (u16 (count e + 1)) e) slot (slots r)))
  | None => (0, r)
  end.
Definition get_type (nm : Z) (r : registry) : Z :=
  match find_slot (named nm) r with Some slot => type (slots r slot) | None => - EINVAL end.

(** The name of an address; for a null one the next of a row of names, kept in [nameseed]. *)
Definition get_name (nameseed a : Z) (r : registry) : Z * Z :=
  if a =? 0 then
    let nm := u64 (nameseed + 1) in (nm, if nm =? 0xFFFFFFFF then 3518743764 else nm)
  else (match find_slot (placed a) r with Some slot => name (slots r slot) | None => 0 end, nameseed).
(** The argument is the task of the Linux process, null when it has none. *)
Definition is_process_registered (a : Z) (r : registry) : Z :=
  if a =? 0 then 0
  else match find_slot (placed a) r with Some slot => name (slots r slot) | None => 0 end.

Definition rt_get_registry_slot (slot : Z) (r : registry) : option entry :=
  if (0 <? slot) && (slot <=? max_slots r) && negb (name (slots r slot) =? 0)
  then Some (slots r slot) else None.

Definition rt_register (MAX_SLOTS nm a ty lnx : Z) (r : registry) : Z * registry :=
  if negb (get_adr nm r =? 0) then (0, r) else registr MAX_SLOTS nm a ty lnx r.

Definition rt_registry_alloc (vmalloc : bool) : Z + registry :=
  if vmalloc then inr (MkReg (fun _ => empty_entry) 0) else inl (- 12).
