(* ===== verification/RegListFacts.v ===== *)
(** * Both registries are the same table.

    A table from names to address, type and count says what a registry promises. Both
    the hashed registry and the one that is searched from the start implement it. *)

From stdpp Require Import list sets gmap.
From S2P Require Import Prelude Nam2num RegList Registry RegistryFacts.
#[local] Open Scope Z_scope.

(** ** The table *)

Abbreviation table := (gmap Z (Z * Z * Z)).   (* name: address, type, count *)

Inductive request :=
| Register (nm a ty lnx : Z) | GetAdr (nm : Z) | GetAdrCnt (nm : Z) | GetType (nm : Z) | GetName (a : Z)
| DrgName (nm : Z) | DrgNameCnt (nm : Z) | DrgAdr (a : Z) | DrgAdrCnt (a : Z).

Definition adr_name (a : Z) (M : table) : option Z :=
  fst <$> head (filter (fun x => x.2.1.1 = a) (map_to_list M)).
Definition unref (nm : Z) (M : table) : Z * table :=
  match M !! nm with
  | Some (a, ty, c) => if c =? 1 then (1, delete nm M) else (0, <[nm := (a, ty, c - 1)]> M)
  | None => (0, M)
  end.
(** What is told of a request, and the table after. *)
Definition reg_step (q : request) (M : table) : Z * table :=
  match q with
  | Register nm a ty _ => match M !! nm with Some _ => (0, M) | None => (1, <[nm := (a, ty, 1)]> M) end
  | GetAdr nm => (match M !! nm with Some (a, _, _) => a | None => 0 end, M)
  | GetAdrCnt nm => match M !! nm with
                    | Some (a, ty, c) => (a, <[nm := (a, ty, c + 1)]> M) | None => (0, M) end
  | GetType nm => (match M !! nm with Some (_, ty, _) => ty | None => - EINVAL end, M)
  | GetName a => (default 0 (adr_name a M), M)
  | DrgName nm => match M !! nm with Some _ => (1, delete nm M) | None => (0, M) end
  | DrgNameCnt nm => unref nm M
  | DrgAdr a => match adr_name a M with Some nm => (1, delete nm M) | None => (0, M) end
  | DrgAdrCnt a => match adr_name a M with Some nm => unref nm M | None => (0, M) end
  end.

(** What a caller learns: of a registration and a removal whether it was made, of the
    return of a reference whether it was the last. *)
Definition told (q : request) (res : Z) : Z :=
  match q with
  | Register _ _ _ _ | DrgName _ | DrgAdr _ => Z.b2z (0 <? res)
  | DrgNameCnt _ | DrgAdrCnt _ => Z.b2z (res =? 0)
  | _ => res
  end.

(** Names and addresses are not 0 or 1, an address has one name, there is room, references are
    returned that are counted, and not more than 16 bits can count. *)
Definition allowed (room : nat) (q : request) (M : table) : Prop :=
  match q with
  | Register nm a _ _ => 1 < nm /\ 1 < a /\ (size M < room)%nat /\
      map_Forall (fun nm' v => v.1.1 = a -> nm' = nm) M
  | GetAdr nm | GetType nm | DrgName nm => 1 < nm
  | GetAdrCnt nm => 1 < nm /\ match M !! nm with Some (_, _, c) => c + 1 < 2 ^ 16 | None => True end
  | GetName a | DrgAdr a => 1 < a
  | DrgNameCnt nm => is_Some (M !! nm)
  | DrgAdrCnt a => is_Some (adr_name a M)
  end.

#[export] Instance allowed_dec room q M : Decision (allowed room q M).
Proof.
  destruct q as [| |nm| | | | | |]; cbn; try apply _.
  destruct (M !! nm) as [[[a ty] c]|]; apply _.
Defined.

(** The names and addresses are those that can be asked for; one name for each address. *)
Definition sound (M : table) : Prop :=
  map_Forall (fun nm v => 1 < nm /\ 1 < v.1.1 /\ 1 <= v.2 < 2 ^ 16) M /\
  forall nm nm' v v', M !! nm = Some v -> M !! nm' = Some v' -> v.1.1 = v'.1.1 -> nm = nm'.

Lemma adr_name_some M nm v : sound M -> M !! nm = Some v -> adr_name v.1.1 M = Some nm.
Proof.
  intros [_ Hi] Hnm. unfold adr_name.
  set (l := filter _ _). assert ((nm, v) ∈ l) as Hin.
  { apply list_elem_of_filter. split; [done|]. by apply elem_of_map_to_list. }
  destruct l as [|[nm' v'] l'] eqn:El; [by apply elem_of_nil in Hin|]. cbn.
  assert ((nm', v') ∈ l) as [Ha Hm]%list_elem_of_filter by (rewrite El; by left).
  f_equal. cbn in Ha. apply elem_of_map_to_list in Hm. by eapply Hi.
Qed.
Lemma adr_name_spec M a nm : adr_name a M = Some nm -> exists ty c, M !! nm = Some (a, ty, c).
Proof.
  unfold adr_name. set (l := filter _ _). destruct l as [|[nm' [[a' ty] c]] l'] eqn:El; [done|].
  intros [= ->]. assert ((nm, (a', ty, c)) ∈ l) as [Ha Hm]%list_elem_of_filter by (rewrite El; by left).
  cbn in Ha. subst. exists ty, c. by apply elem_of_map_to_list.
Qed.
Lemma adr_name_none M a nm v : sound M -> adr_name a M = None -> M !! nm = Some v -> v.1.1 <> a.
Proof. intros Hs Hn Hm <-. by rewrite (adr_name_some M nm v Hs Hm) in Hn. Qed.

(** The table stays sound. *)
Lemma sound_insert M nm a ty c : sound M -> 1 < nm -> 1 < a -> 1 <= c < 2 ^ 16 ->
  (forall nm' v, M !! nm' = Some v -> v.1.1 = a -> nm' = nm) -> sound (<[nm := (a, ty, c)]> M).
Proof.
  intros [Hf Hi] Hnm Ha Hc Hu. split; [by apply map_Forall_insert_2|].
  intros n1 n2 v1 v2 [[<- <-]|[? H1]]%lookup_insert_Some [[<- <-]|[? H2]]%lookup_insert_Some He; try done.
  - symmetry. by eapply Hu.
  - by eapply Hu.
  - by eapply Hi.
Qed.
Lemma sound_delete M nm : sound M -> sound (delete nm M).
Proof.
  intros [Hf Hi]. split; [by apply map_Forall_delete|].
  intros n1 n2 v1 v2 [_ H1]%lookup_delete_Some [_ H2]%lookup_delete_Some. by apply Hi.
Qed.
Lemma sound_update M nm a ty c c' : sound M -> M !! nm = Some (a, ty, c) -> 1 <= c' < 2 ^ 16 ->
  sound (<[nm := (a, ty, c')]> M).
Proof.
  intros Hs Hm Hc'. pose proof Hs as [Hf Hi]. destruct (Hf _ _ Hm) as (? & ? & _).
  apply sound_insert; try done. intros nm' v Hv Ha. by apply (Hi nm' nm v (a, ty, c)).
Qed.
Lemma sound_unref M nm : sound M -> sound (unref nm M).2.
Proof.
  intros Hs. unfold unref. destruct (M !! nm) as [[[a ty] c]|] eqn:Hm; [|done].
  pose proof (proj1 Hs _ _ Hm) as (_ & _ & Hc). cbn in Hc.
  destruct (Z.eqb_spec c 1); [by apply sound_delete|]. eapply sound_update; [done..|lia].
Qed.
Lemma reg_step_sound room q M : sound M -> allowed room q M -> sound (reg_step q M).2.
Proof.
  intros Hs Ha. destruct q; cbn in *; try done.
  - destruct (M !! nm) eqn:Hm; [done|]. destruct Ha as (? & ? & _ & ?). by apply sound_insert.
  - destruct (M !! nm) as [[[a ty] c]|] eqn:Hm; [|done]. pose proof (proj1 Hs _ _ Hm) as (_ & _ & Hc).
    destruct Ha as [_ Hc']. cbn in Hc. eapply sound_update; [done..|lia].
  - destruct (M !! nm); [by apply sound_delete|done].
  - by apply sound_unref.
  - destruct (adr_name a M); [by apply sound_delete|done].
  - destruct (adr_name a M); [by apply sound_unref|done].
Qed.

(** As many distinct names as slots make a table at least as large. *)
Lemma names_fit (f : Z -> Z) n (M : table) :
  (forall i j, slot n i -> slot n j -> f i = f j -> i = j) ->
  (forall i, slot n i -> is_Some (M !! f i)) -> n <= Z.of_nat (size M).
Proof.
  intros Hinj Hin. destruct (decide (n <= 0)) as [|Hn]; [lia|].
  assert (NoDup (f <$> seqZ 1 n)) as Hnd.
  { apply NoDup_fmap_2_strong; [|apply NoDup_seqZ]. intros x y Hx%elem_of_seqZ Hy%elem_of_seqZ. apply Hinj; lia. }
  assert (list_to_set (f <$> seqZ 1 n) ⊆ dom M) as Hsub.
  { intros x Hx%elem_of_list_to_set. apply list_elem_of_fmap in Hx as (i & -> & Hi%elem_of_seqZ).
    apply elem_of_dom, Hin. lia. }
  apply subseteq_size in Hsub. rewrite size_list_to_set, length_fmap, length_seqZ, size_dom in Hsub by done. lia.
Qed.

(** ** The registry that is searched from the start *)

(** Slot [k] has the entry [v] of the name [nm]. *)
Definition at_slot (l : registry) (k nm : Z) (v : Z * Z * Z) : Prop :=
  slot (max_slots l) k /\ name (slots l k) = nm /\ v = (adr (slots l k), type (slots l k), count (slots l k)).
Definition list_repr (M : table) (l : registry) : Prop :=
  0 <= max_slots l /\
  (forall i j, slot (max_slots l) i -> slot (max_slots l) j -> name (slots l i) = name (slots l j) -> i = j) /\
  forall nm v, M !! nm = Some v <-> exists k, at_slot l k nm v.

Lemma list_repr_at M l k : list_repr M l -> slot (max_slots l) k ->
  M !! name (slots l k) = Some (adr (slots l k), type (slots l k), count (slots l k)).
Proof. intros (_ & _ & H) Hk. apply H. by exists k. Qed.
Lemma list_repr_room M l : list_repr M l -> max_slots l <= Z.of_nat (size M).
Proof.
  intros Hr. apply (names_fit (fun k => name (slots l k))); [apply Hr|].
  intros i Hi. rewrite (list_repr_at M l i) by done. by eexists.
Qed.

Lemma scan_spec n found l k :
  match scan n found l k with
  | Some j => k <= j < k + Z.of_nat n /\ found (l j) = true
  | None => forall j, k <= j < k + Z.of_nat n -> found (l j) = false
  end.
Proof.
  revert k. induction n as [|n IH]; intros k; cbn [scan]; [intros; lia|].
  destruct (found (l k)) eqn:Hf; [split; [lia|done]|]. specialize (IH (k + 1)).
  destruct (scan n found l (k + 1)); [split; [lia|apply IH]|].
  intros j Hj. destruct (decide (j = k)) as [->|]; [done|]. apply IH. lia.
Qed.
Lemma find_slot_spec found l :
  match find_slot found l with
  | Some k => slot (max_slots l) k /\ found (slots l k) = true
  | None => forall k, slot (max_slots l) k -> found (slots l k) = false
  end.
Proof.
  unfold find_slot. pose proof (scan_spec (Z.to_nat (max_slots l)) found (slots l) 1) as H.
  destruct (scan _ _ _ _); [split; [lia|apply H]|]. intros k Hk. apply H. lia.
Qed.

Lemma find_named M l nm : list_repr M l ->
  match M !! nm with
  | Some v => exists k, find_slot (named nm) l = Some k /\ at_slot l k nm v
  | None => find_slot (named nm) l = None
  end.
Proof.
  intros Hr. pose proof (find_slot_spec (named nm) l) as Hf.
  destruct (find_slot (named nm) l) as [k|].
  - destruct Hf as [Hk Hn]. apply Z.eqb_eq in Hn. pose proof (list_repr_at M l k Hr Hk) as Hm.
    rewrite Hn in Hm. rewrite Hm. by exists k.
  - destruct (M !! nm) as [v|] eqn:Hm; [|done]. apply Hr in Hm as (k & Hk & Hn & _).
    specialize (Hf k Hk). by apply Z.eqb_neq in Hf.
Qed.
Lemma find_placed M l a : list_repr M l -> sound M ->
  match adr_name a M with
  | Some nm => exists k ty c, find_slot (placed a) l = Some k /\ at_slot l k nm (a, ty, c)
  | None => find_slot (placed a) l = None
  end.
Proof.
  intros Hr Hs. pose proof (find_slot_spec (placed a) l) as Hf.
  destruct (find_slot (placed a) l) as [k|].
  - destruct Hf as [Hk Hn]. apply Z.eqb_eq in Hn. pose proof (list_repr_at M l k Hr Hk) as Hm.
    pose proof (adr_name_some _ _ _ Hs Hm) as Hx. cbn in Hx. rewrite Hn in Hx. rewrite Hx.
    exists k, (type (slots l k)), (count (slots l k)). unfold at_slot. by rewrite Hn.
  - destruct (adr_name a M) as [nm|] eqn:Hm; [|done]. apply adr_name_spec in Hm as (ty & c & Hm).
    apply Hr in Hm as (k & Hk & _ & [= Ha _ _]). specialize (Hf k Hk). by apply Z.eqb_neq in Hf.
Qed.

(** A slot's entry is the only one of its name, and its address. *)
Lemma at_slot_named M l k nm v : list_repr M l -> at_slot l k nm v ->
  forall j, slot (max_slots l) j -> named nm (slots l j) = true -> j = k.
Proof. intros Hr (Hk & Hn & _) j Hj He%Z.eqb_eq. apply Hr; [done..|congruence]. Qed.
Lemma at_slot_placed M l k nm a ty c : list_repr M l -> sound M -> at_slot l k nm (a, ty, c) ->
  forall j, slot (max_slots l) j -> placed a (slots l j) = true -> j = k.
Proof.
  intros Hr [_ Hs] (Hk & Hn & [= Ha _ _]) j Hj He%Z.eqb_eq. apply Hr; [done..|].
  eapply Hs; [by apply (list_repr_at M l)..|]. cbn. congruence.
Qed.

(** What the operations do to the table. *)
Lemma list_take_out M l k nm v : list_repr M l -> at_slot l k nm v -> list_repr (delete nm M) (take_out k l).
Proof.
  intros Hr Hat. pose proof Hat as (Hk & Hn & _). pose proof Hr as (H0 & Hinj & HM).
  set (n := max_slots l) in *.
  assert (forall i, slot (n - 1) i -> exists i', slot n i' /\ i' <> k /\ slots (take_out k l) i = slots l i' /\
    (i' = n /\ i = k \/ i' = i)) as Hmv.
  { intros i Hi. cbn [take_out slots]. fold n. destruct (Z.ltb_spec k n) as [Hlt|Hge].
    - destruct (decide (i = k)) as [->|Hik].
      + exists n. rewrite fn_lookup_insert. split; [lia|]. split; [lia|auto].
      + exists i. rewrite fn_lookup_insert_ne by done. split; [lia|]. auto.
    - exists i. split; [lia|]. split; [lia|auto]. }
  assert (max_slots (take_out k l) = n - 1) as Hmx.
  { cbn [take_out max_slots]. fold n. destruct (Z.ltb_spec 0 n); lia. }
  unfold list_repr. rewrite Hmx. split; [lia|]. split.
  - intros i j Hi Hj He. destruct (Hmv i Hi) as (i' & Hi' & Hik & Hei & Hci).
    destruct (Hmv j Hj) as (j' & Hj' & Hjk & Hej & Hcj). rewrite Hei, Hej in He.
    specialize (Hinj i' j' Hi' Hj' He). lia.
  - intros nm' v'. rewrite lookup_delete_Some, HM. split.
    + intros (Hne & i & Hi & Hni & Hv).
      assert (i <> k) as Hik by (intros ->; congruence).
      assert (exists i0, slot (n - 1) i0 /\ slots (take_out k l) i0 = slots l i) as (i0 & Hi0 & He).
      { cbn [take_out slots]. fold n. destruct (decide (i = n)) as [->|Hin].
        - exists k. split; [lia|]. destruct (Z.ltb_spec k n); [by rewrite fn_lookup_insert|lia].
        - exists i. split; [lia|]. destruct (_ <? _); [by rewrite fn_lookup_insert_ne|done]. }
      exists i0. unfold at_slot. rewrite Hmx, He. done.
    + intros (i & Hi & Hni & Hv). rewrite Hmx in Hi. destruct (Hmv i Hi) as (i' & Hi' & Hik & He & _).
      rewrite He in Hni, Hv. split; [|by exists i'].
      intros ->. apply Hik, Hinj; [done..|congruence].
Qed.

Lemma list_set_count M l k nm a ty c c' : list_repr M l -> at_slot l k nm (a, ty, c) ->
  list_repr (<[nm := (a, ty, c')]> M) (with_slots l (eset (set_count c') k (slots l))) /\
  at_slot (with_slots l (eset (set_count c') k (slots l))) k nm (a, ty, c').
Proof.
  intros (H0 & Hinj & HM) (Hk & Hn & [= Ha Ht Hc]). set (l' := with_slots l _).
  assert (forall i, name (slots l' i) = name (slots l i)) as Hns by (intros i; by apply (eset_keep name)).
  assert (at_slot l' k nm (a, ty, c')) as Hat.
  { unfold at_slot, l'. cbn. rewrite eset_at. cbn. by rewrite Ha, Ht. }
  assert (forall i, i <> k -> slots l' i = slots l i) as Hother by (intros; by apply eset_other).
  split; [|done]. split; [done|]. split; [intros i j; rewrite !Hns; apply Hinj|].
  intros nm' v'. rewrite lookup_insert_Some, HM. split.
  - intros [[-> <-]|(Hne & i & Hi & Hni & Hv)]; [by exists k|].
    exists i. unfold at_slot. rewrite Hother by (intros ->; congruence). done.
  - intros (i & Hi & Hni & Hv). destruct (decide (i = k)) as [->|Hik].
    + left. destruct Hat as (_ & Hnk & Hvk). split; [congruence|]. by rewrite Hv.
    + right. rewrite (Hother i Hik) in *. split; [|by exists i]. intros ->. apply Hik, Hinj; [done..|congruence].
Qed.

Lemma list_append M l nm a ty lnx : list_repr M l -> M !! nm = None ->
  let s := max_slots l + 1 in
  list_repr (<[nm := (a, ty, 1)]> M) (MkReg (<[s := MkEntry nm a lnx ty 1 (alink (slots l s)) (nlink (slots l s))]> (slots l)) s).
Proof.
  intros (H0 & Hinj & HM) Hno s. set (l' := MkReg _ _).
  assert (forall i, slot (max_slots l) i -> slots l' i = slots l i) as Hold.
  { intros i Hi. apply fn_lookup_insert_ne. unfold s. lia. }
  assert (slots l' s = MkEntry nm a lnx ty 1 (alink (slots l s)) (nlink (slots l s))) as Hnew by apply fn_lookup_insert.
  assert (forall i, slot (max_slots l) i -> name (slots l i) <> nm) as Hfr.
  { intros i Hi He. rewrite <- He in Hno. rewrite (list_repr_at M l i) in Hno by done. done. }
  assert (forall i, slot s i -> i = s \/ slot (max_slots l) i) as Hc by (unfold s; lia).
  split; [cbn; unfold s; lia|]. split.
  - intros i j [->|Hi]%Hc [->|Hj]%Hc; rewrite ?Hnew, ?Hold by done; cbn; intros He; try done.
    + by destruct (Hfr j Hj).
    + by destruct (Hfr i Hi).
    + by apply Hinj.
  - intros nm' v'. rewrite lookup_insert_Some, HM. split.
    + intros [[<- <-]|(Hne & i & Hi & Hni & Hv)].
      * exists s. unfold at_slot. rewrite Hnew. split; [cbn; unfold s; lia|done].
      * exists i. unfold at_slot. rewrite Hold by done. split; [cbn; unfold s; lia|done].
    + intros (i & [->|Hi]%Hc & Hni & Hv).
      * left. rewrite Hnew in *. cbn in *. by subst.
      * right. rewrite Hold in * by done. split; [|by exists i]. intros ->. by apply (Hfr i Hi).
Qed.

(** The pass over the slots that counts one entry down. *)
Lemma drg_cnt_none n found s r : (forall j, s <= j < s + Z.of_nat n -> found (slots r j) = false) ->
  drg_cnt n found s r = (- EFAULT, r).
Proof.
  revert s. induction n as [|n IH]; intros s H; [done|]. cbn [drg_cnt].
  rewrite H by lia. cbn [andb]. apply IH. intros; apply H; lia.
Qed.
Lemma drg_cnt_one n found s r k :
  (forall e c, found (set_count c e) = found e) ->
  s <= k < s + Z.of_nat n -> found (slots r k) = true -> 0 < count (slots r k) ->
  (forall j, s <= j < s + Z.of_nat n -> found (slots r j) = true -> j = k) ->
  let c := count (slots r k) - 1 in
  let r' := with_slots r (eset (set_count c) k (slots r)) in
  drg_cnt n found s r = if c =? 0 then (0, take_out k r') else (- EFAULT, r').
Proof.
  intros Hst Hk Hf Hc Hu c r'. revert s Hk Hu. induction n as [|n IH]; intros s Hk Hu; [lia|]. cbn [drg_cnt].
  destruct (decide (s = k)) as [->|Hs].
  - rewrite Hf. destruct (Z.ltb_spec 0 (count (slots r k))); [|lia]. cbn [andb]. fold c r'.
    destruct (Z.eqb_spec c 0) as [->|Hc0]; [done|]. apply drg_cnt_none. intros j Hj.
    unfold r'. cbn. rewrite eset_other by lia.
    destruct (found (slots r j)) eqn:Hfj; [|done]. specialize (Hu j ltac:(lia) Hfj). lia.
  - destruct (found (slots r s)) eqn:Hfs; [by specialize (Hu s ltac:(lia) Hfs)|]. cbn [andb].
    apply IH; [lia|]. intros; apply Hu; [lia|done].
Qed.

Lemma list_unref M l k nm v found : list_repr M l -> sound M -> at_slot l k nm v ->
  (forall e c, found (set_count c e) = found e) -> found (slots l k) = true ->
  (forall j, slot (max_slots l) j -> found (slots l j) = true -> j = k) ->
  let '(res, l') := drg_cnt (Z.to_nat (max_slots l)) found 1 l in
  Z.b2z (res =? 0) = (unref nm M).1 /\ list_repr (unref nm M).2 l'.
Proof.
  intros Hr Hs Hat Hst Hf Hu. destruct v as [[a ty] c]. pose proof Hat as (Hk & Hn & [= Ha Ht Hc]).
  assert (M !! nm = Some (a, ty, c)) as Hm by (apply Hr; by exists k).
  pose proof (proj1 Hs _ _ Hm) as (_ & _ & Hcr). cbn in Hcr.
  rewrite (drg_cnt_one _ found 1 l k) by (done || lia || (intros; apply Hu; [lia|done])).
  unfold unref. rewrite Hm, <- Hc.
  destruct (list_set_count _ _ _ _ _ _ _ (c - 1) Hr Hat) as [Hr' Hat'].
  destruct (Z.eqb_spec c 1) as [->|Hc1]; [|by rewrite (proj2 (Z.eqb_neq (c - 1) 0)) by lia].
  split; [done|]. cbn [snd]. pose proof (list_take_out _ _ _ _ _ Hr' Hat') as H.
  by rewrite delete_insert_eq in H.
Qed.

Definition unhashed (MAX_SLOTS nameseed : Z) (q : request) (r : registry) : Z * registry :=
  match q with
  | Register nm a ty lnx => RegList.rt_register MAX_SLOTS nm a ty lnx r
  | GetAdr nm => (RegList.get_adr nm r, r)
  | GetAdrCnt nm => RegList.get_adr_cnt nm r
  | GetType nm => (RegList.get_type nm r, r)
  | GetName a => ((RegList.get_name nameseed a r).1, r)
  | DrgName nm => RegList.drg_on_name nm r
  | DrgNameCnt nm => RegList.drg_on_name_cnt nm r
  | DrgAdr a => RegList.drg_on_adr a r
  | DrgAdrCnt a => RegList.drg_on_adr_cnt a r
  end.

(** The registry that is searched from the start refines the table. *)
Lemma list_refines MAX_SLOTS nameseed room q M l : Z.of_nat room <= MAX_SLOTS ->
  list_repr M l -> sound M -> allowed room q M ->
  let '(res, l') := unhashed MAX_SLOTS nameseed q l in
  told q res = (reg_step q M).1 /\ list_repr (reg_step q M).2 l'.
Proof.
  intros Hroom Hr Hs Ha. destruct q as [nm a ty lnx|nm|nm|nm|a|nm|nm|a|a]; cbn in Ha |- *.
  - unfold RegList.rt_register, RegList.registr, RegList.get_adr. pose proof (find_named M l nm Hr) as Hf.
    destruct (M !! nm) as [v|] eqn:Hm.
    + destruct Hf as (k & -> & Hk & Hn & Hv). destruct (proj1 Hs _ _ Hm) as (_ & Hav & _).
      rewrite Hv in Hav. cbn in Hav. rewrite (proj2 (Z.eqb_neq _ 0)) by lia. done.
    + rewrite Hf. pose proof (list_repr_room M l Hr). destruct Hr as [H0 Hr].
      rewrite (proj2 (Z.ltb_lt (max_slots l) MAX_SLOTS)) by lia. cbn [negb Z.eqb].
      split; [by rewrite (proj2 (Z.ltb_lt _ _)) by lia|]. by apply list_append.
  - unfold RegList.get_adr. pose proof (find_named M l nm Hr) as Hf. destruct (M !! nm) as [[[a ty] c]|].
    + by destruct Hf as (k & -> & _ & _ & [= -> _ _]).
    + by rewrite Hf.
  - unfold RegList.get_adr_cnt. pose proof (find_named M l nm Hr) as Hf. destruct (M !! nm) as [[[a ty] c]|] eqn:Hm.
    + destruct Hf as (k & -> & Hat). pose proof Hat as (_ & _ & [= Hak _ Hc]). split; [done|].
      replace (eset (fun e => set_count (u16 (count e + 1)) e) k (slots l)) with (eset (set_count (c + 1)) k (slots l)).
      * by eapply list_set_count.
      * unfold eset. rewrite u16_small; [by rewrite Hc|]. rewrite <- Hc.
        destruct Ha as [_ Ha]. pose proof (proj1 Hs _ _ Hm) as (_ & _ & Hcr). cbn in Hcr. lia.
    + by rewrite Hf.
  - unfold RegList.get_type. pose proof (find_named M l nm Hr) as Hf. destruct (M !! nm) as [[[a ty] c]|].
    + by destruct Hf as (k & -> & _ & _ & [= _ -> _]).
    + by rewrite Hf.
  - unfold RegList.get_name. rewrite (proj2 (Z.eqb_neq a 0)) by lia.
    pose proof (find_placed M l a Hr Hs) as Hf. destruct (adr_name a M) as [nm|].
    + by destruct Hf as (k & ty & c & -> & _ & <- & _).
    + by rewrite Hf.
  - unfold RegList.drg_on_name, drg. pose proof (find_named M l nm Hr) as Hf. destruct (M !! nm) as [v|].
    + destruct Hf as (k & -> & Hat). pose proof Hat as (Hk & _). cbn [told].
      rewrite (proj2 (Z.ltb_lt 0 k)) by lia. split; [done|]. by eapply list_take_out.
    + by rewrite Hf.
  - unfold RegList.drg_on_name_cnt. destruct Ha as [v Hm]. apply Hr in Hm as (k & Hat).
    apply (list_unref M l k nm v); try done; [by apply Z.eqb_eq, Hat|by eapply at_slot_named].
  - unfold RegList.drg_on_adr, drg. pose proof (find_placed M l a Hr Hs) as Hf. destruct (adr_name a M) as [nm|].
    + destruct Hf as (k & ty & c & -> & Hat). pose proof Hat as (Hk & _). cbn [told].
      rewrite (proj2 (Z.ltb_lt 0 k)) by lia. split; [done|]. by eapply list_take_out.
    + by rewrite Hf.
  - unfold RegList.drg_on_adr_cnt. destruct Ha as [nm Hm]. rewrite Hm.
    pose proof (find_placed M l a Hr Hs) as Hf. rewrite Hm in Hf. destruct Hf as (k & ty & c & _ & Hat).
    apply (list_unref M l k nm (a, ty, c)); try done; [|by eapply at_slot_placed].
    destruct Hat as (_ & _ & [= Hak _ _]). by apply Z.eqb_eq.
Qed.

(** ** The hashed registry *)

Definition hash_repr (M : table) (h : registry) : Prop :=
  reg_ok h /\ forall nm a ty c, M !! nm = Some (a, ty, c) <-> held h nm a ty c.

(** What an operation on the name [nm] leaves of a slot: its name unless it was [nm]'s or
    free and is so again, and under another name its type and count. *)
Definition kept (nm : Z) (e e' : entry) : Prop :=
  (name e' = name e \/ ((name e <= 1 \/ name e = nm) /\ (name e' <= 1 \/ name e' = nm))) /\
  (1 < name e -> name e <> nm -> type e' = type e /\ count e' = count e).
Definition kept_slots (nm : Z) (l l' : Z -> entry) : Prop := forall k, kept nm (l k) (l' k).

Lemma kept_refl nm l : kept_slots nm l l.
Proof. intros k. by split; [left|]. Qed.
Lemma kept_eset nm f k l l' : kept_slots nm l l' -> kept nm (l k) (f (l' k)) -> kept_slots nm l (eset f k l').
Proof. intros Hl Hf i. unfold eset, insert, fn_insert. by case_decide; subst. Qed.
(** The fields that matter: an update of others, and one of a slot of [nm]'s. *)
Lemma kept_links nm f k l l' : kept_slots nm l l' ->
  (forall e, name (f e) = name e /\ type (f e) = type e /\ count (f e) = count e) -> kept_slots nm l (eset f k l').
Proof. intros Hl Hf. apply kept_eset; [done|]. destruct (Hf (l' k)) as (En & Et & Ec). unfold kept. rewrite En, Et, Ec. apply Hl. Qed.
Lemma kept_own nm f k l l' : kept_slots nm l l' -> name (l k) <= 1 \/ name (l k) = nm ->
  name (f (l' k)) <= 1 \/ name (f (l' k)) = nm -> kept_slots nm l (eset f k l').
Proof. intros Hl Hk Hf. apply kept_eset; [done|]. split; [by right|]. intros; lia. Qed.

(** What is held under other names after an operation on one. *)
Lemma held_kept nm h h' : reg_ok h -> reg_ok h' -> max_slots h' = max_slots h -> kept_slots nm (slots h) (slots h') ->
  (forall nm' a, nm' <> nm -> binds h' nm' a <-> binds h nm' a) ->
  forall nm' a ty c, nm' <> nm -> held h' nm' a ty c <-> held h nm' a ty c.
Proof.
  intros Hok Hok' Hmx Hk Hb nm' a ty c Hne. split; intros Hh.
  - assert (binds h nm' a) as (i & Hi & H1 & Hn & Ha) by (apply (Hb nm' a Hne); by eapply held_binds).
    destruct Hh as (j & Hj & _ & Hnj & _ & Ht & Hc). destruct (Hk i) as [Hni Hr].
    destruct Hr as [Et Ec]; [lia|congruence|].
    assert (j = i) as ->.
    { apply (reach_unique name (max_slots h') (ro_some _ Hok') (slots h') _ _ (ro_names _ Hok'));
        [done|by rewrite Hmx|..]; destruct Hni; lia. }
    exists i. by rewrite <- Et, <- Ec.
  - assert (binds h' nm' a) as (i & Hi & H1 & Hn & Ha) by (apply (Hb nm' a Hne); by eapply held_binds).
    destruct Hh as (j & Hj & _ & Hnj & _ & Ht & Hc). destruct (Hk j) as [Hnj' Hr].
    destruct Hr as [Et Ec]; [lia|congruence|].
    assert (j = i) as ->.
    { apply (reach_unique name (max_slots h') (ro_some _ Hok') (slots h') _ _ (ro_names _ Hok'));
        [by rewrite Hmx|done|..]; destruct Hnj'; lia. }
    exists i. by rewrite Et, Ec.
Qed.

Lemma kept_ins nm a ty lnx l n inc k l' : name (l k) <= 1 ->
  probe_from (fun e => negb ((NONAME <? name e) && negb (name e =? nm))) l n (hash_fun nm n) = Some k ->
  name (l k) <> nm -> (hash_ins_name nm a ty lnx l n inc).2 = l' -> kept_slots nm l l'.
Proof.
  intros Hf Hp Hn <-. unfold hash_ins_name. rewrite Hp, (proj2 (Z.eqb_neq _ _) Hn).
  set (l1 := eset _ k l). assert (kept_slots nm l l1) as H1.
  { apply kept_own; [apply kept_refl|by left|by right]. }
  unfold hash_ins_adr. destruct (probe_from _ l1 n _) as [j|]; [|done].
  destruct (adr (l1 j) =? a); [done|]. cbn [snd].
  apply kept_links; [|done]. by apply kept_links.
Qed.

Lemma kept_count nm f k l l' : kept_slots nm l l' -> name (l k) = nm -> (forall e, name (f e) = name e) ->
  name (l' k) = nm -> kept_slots nm l (eset f k l').
Proof. intros Hl Hk Hf Hk'. apply kept_own; [done|by right|right]. by rewrite Hf. Qed.

(** The removals keep other names, and tell a slot when they do not count. *)
Lemma rem_name_kept dec nm h a ty c : reg_ok h -> held h nm a ty c ->
  let '(res, h') := rem_name dec nm h in
  max_slots h' = max_slots h /\ kept_slots nm (slots h) (slots h') /\ (dec = 0 -> 0 < res).
Proof.
  intros Hok Hh. destruct (binds_slot h nm a Hok (held_binds _ _ _ _ _ Hh)) as (k & j & Hk & Hj & Hnm & _ & Hn & _).
  unfold rem_name, hash_rem_name.
  destruct (find_spec name (max_slots h) (ro_some h Hok) (slots h) nm (ro_names h Hok) Hnm) as [Hf _]. cbv zeta in Hf.
  rewrite (Hf k Hk Hn), Hn, Z.eqb_refl. clear Hf. destruct (drop_count dec (count (slots h k))) as [rem c'].
  split; [done|]. split; [|intros ->; cbn; lia]. cbn [with_slots slots].
  set (l1 := eset (set_count c') k (slots h)).
  assert (kept_slots nm (slots h) l1) as H1 by (apply kept_count; auto using kept_refl).
  destruct rem; [|done]. assert (kept_slots nm (slots h) (eset (set_name (tomb_name l1 (max_slots h) k)) k l1)) as H2.
  { apply kept_own; [done|by right|left]. cbn. unfold tomb_name. by destruct (_ =? 0). }
  destruct (negb _); [|done]. by apply kept_links.
Qed.
Lemma rem_adr_kept dec nm h a ty c : reg_ok h -> held h nm a ty c ->
  let '(res, h') := rem_adr dec a h in
  max_slots h' = max_slots h /\ kept_slots nm (slots h) (slots h') /\ (dec = 0 -> 0 < res).
Proof.
  intros Hok Hh. destruct (binds_slot h nm a Hok (held_binds _ _ _ _ _ Hh))
    as (k & j & Hk & Hj & Hnm & Ha & Hn & Haj & Hal & Hnl).
  unfold rem_adr, hash_rem_adr.
  destruct (find_spec adr (max_slots h) (ro_some h Hok) (slots h) a (ro_adrs h Hok) Ha) as [Hf _]. cbv zeta in Hf.
  rewrite (Hf j Hj Haj), Haj, Z.eqb_refl, Hnl. clear Hf. destruct (drop_count dec (count (slots h k))) as [rem c'].
  split; [done|]. split; [|intros ->; cbn; lia]. cbn [with_slots slots].
  set (l1 := eset (set_count c') k (slots h)).
  assert (kept_slots nm (slots h) l1) as H1 by (apply kept_count; auto using kept_refl).
  destruct rem; [|done]. apply kept_own; [by apply kept_links|by right|left].
  cbn. unfold tomb_name. by destruct (_ =? 0).
Qed.

Lemma held_unique h nm a ty c a' ty' c' : reg_ok h -> held h nm a ty c -> held h nm a' ty' c' ->
  (a, ty, c) = (a', ty', c').
Proof.
  intros Hok (k & Hk & H1 & Hn & Ha & Ht & Hc) (k' & Hk' & _ & Hn' & Ha' & Ht' & Hc').
  assert (k' = k) as ->; [|congruence].
  apply (reach_unique name (max_slots h) (ro_some h Hok) (slots h) _ _ (ro_names h Hok)); [done..|lia|congruence].
Qed.

(** A table and a registry that have changed at one name. *)
Lemma hash_change M h h' nm (o : option (Z * Z * Z)) :
  hash_repr M h -> reg_ok h' -> max_slots h' = max_slots h -> kept_slots nm (slots h) (slots h') ->
  (forall nm' a, nm' <> nm -> binds h' nm' a <-> binds h nm' a) ->
  match o with Some (a, ty, c) => held h' nm a ty c | None => forall a, ~ binds h' nm a end ->
  hash_repr (partial_alter (fun _ => o) nm M) h'.
Proof.
  intros [Hok HM] Hok' Hmx Hk Hb Ho. split; [done|]. intros nm' a ty c.
  destruct (decide (nm' = nm)) as [->|Hne].
  - rewrite lookup_partial_alter_eq. destruct o as [[[a0 ty0] c0]|].
    + split; [by intros [= <- <- <-]|]. intros Hh. f_equal. by eapply held_unique.
    + split; [done|]. intros Hh%held_binds. by destruct (Ho a).
  - rewrite lookup_partial_alter_ne, HM by done. symmetry. by apply (held_kept nm).
Qed.
(** A removal, as [rem_name_spec] and [rem_adr_spec] have it. *)
Lemma hash_drop M h h' nm a ty c dec res :
  hash_repr M h -> sound M -> M !! nm = Some (a, ty, c) -> reg_ok h' -> max_slots h' = max_slots h ->
  kept_slots nm (slots h) (slots h') -> (dec <> 0 -> res = if c =? 0 then 0 else c - 1) -> (dec = 0 -> 0 < res) ->
  (if (dec =? 0) || (c =? 1) then
    (forall nm' a', binds h' nm' a' <-> binds h nm' a' /\ nm' <> nm) /\ get_adr nm h' = 0
  else (forall nm' a', binds h' nm' a' <-> binds h nm' a') /\ held h' nm a ty res) ->
  (dec = 0 -> 0 < res /\ hash_repr (delete nm M) h') /\
  (dec <> 0 -> Z.b2z (res =? 0) = (unref nm M).1 /\ hash_repr (unref nm M).2 h').
Proof.
  intros Hr Hs Hm Hok' Hmx Hk Hres Hpos Hif. pose proof (proj1 Hs _ _ Hm) as (_ & _ & Hc). cbn in Hc.
  rewrite (proj2 (Z.eqb_neq c 0)) in Hres by lia.
  assert ((dec =? 0) || (c =? 1) = true -> hash_repr (delete nm M) h') as Hdel.
  { intros E. rewrite E in Hif. destruct Hif as [Hb _].
    apply (hash_change M h h' nm None); try done.
    - intros nm' a' Hne. rewrite Hb. tauto.
    - intros a' Hb'. by apply Hb in Hb' as [_ []]. }
  split; intros Hd.
  - split; [auto|]. apply Hdel. by rewrite Hd.
  - rewrite (Hres Hd) in *. unfold unref. rewrite Hm. rewrite (proj2 (Z.eqb_neq dec 0) Hd) in *. cbn [orb] in *.
    destruct (Z.eqb_spec c 1) as [->|Hc1]; [split; [done|by apply Hdel]|].
    rewrite (proj2 (Z.eqb_neq (c - 1) 0)) by lia. split; [done|]. destruct Hif as [Hb Hh].
    by apply (hash_change M h h' nm (Some (a, ty, c - 1))).
Qed.

Definition hashed (irandu : nat -> Z -> Z) (q : request) (r : registry) : Z * registry :=
  match q with
  | Register nm a ty lnx => rt_register nm a ty lnx r
  | GetAdr nm => (get_adr nm r, r)
  | GetAdrCnt nm => get_adr_cnt nm r
  | GetType nm => (get_type nm r, r)
  | GetName a => (get_name irandu a r, r)
  | DrgName nm => drg_on_name nm r
  | DrgNameCnt nm => drg_on_name_cnt nm r
  | DrgAdr a => drg_on_adr a r
  | DrgAdrCnt a => drg_on_adr_cnt a r
  end.

(** What is registered, in the table and in the slots. *)
Lemma binds_held h nm a : binds h nm a -> exists ty c, held h nm a ty c.
Proof. intros (k & ? & ? & ? & ?). by exists (type (slots h k)), (count (slots h k)), k. Qed.
Lemma hash_absent M h nm : hash_repr M h -> M !! nm = None -> forall a, ~ binds h nm a.
Proof. intros [_ HM] Hno a (ty & c & Hh%HM)%binds_held. by rewrite Hh in Hno. Qed.
Lemma hash_adr_absent M h a : hash_repr M h -> sound M -> adr_name a M = None -> forall nm, ~ binds h nm a.
Proof. intros [_ HM] Hs Hno nm (ty & c & Hh%HM)%binds_held. by eapply (adr_name_none _ _ _ _ Hs Hno Hh). Qed.

(** The searches that find nothing. *)
Lemma find_name_none h nm : reg_ok h -> 1 < nm -> (forall a, ~ binds h nm a) ->
  match probe_from (fun e => (name e =? 0) || (name e =? nm)) (slots h) (max_slots h) (hash_fun nm (max_slots h)) with
  | Some k => (name (slots h k) =? nm) = false
  | None => True
  end.
Proof.
  intros Hok Hnm Hno.
  destruct (find_spec name (max_slots h) (ro_some h Hok) (slots h) nm (ro_names h Hok) Hnm) as [_ Hf]. cbv zeta in Hf.
  specialize (Hf ltac:(intros k Hk Hc; eapply Hno; by exists k)).
  destruct (probe_from _ _ _ _); [|done]. destruct Hf as [_ ->]. apply Z.eqb_neq. lia.
Qed.
Lemma find_adr_none h a : reg_ok h -> 1 < a -> (forall nm, ~ binds h nm a) ->
  match probe_from (fun e => (adr e =? 0) || (adr e =? a)) (slots h) (max_slots h) (hash_fun a (max_slots h)) with
  | Some k => (adr (slots h k) =? a) = false
  | None => True
  end.
Proof.
  intros Hok Ha Hno.
  destruct (find_spec adr (max_slots h) (ro_some h Hok) (slots h) a (ro_adrs h Hok) Ha) as [_ Hf]. cbv zeta in Hf.
  assert (forall k, slot (max_slots h) k -> adr (slots h k) <> a) as H0.
  { intros j Hj Hc. destruct (ro_nlink h Hok j Hj) as (K1 & K2 & K3); [lia|].
    eapply Hno. exists (nlink (slots h j)). by rewrite K3. }
  specialize (Hf H0). destruct (probe_from _ _ _ _); [|done]. destruct Hf as [_ ->]. apply Z.eqb_neq. lia.
Qed.

Lemma hash_insert M h nm a ty lnx room : Z.of_nat room <= max_slots h -> hash_repr M h -> sound M ->
  1 < nm -> 1 < a -> (size M < room)%nat -> M !! nm = None -> adr_name a M = None ->
  let '(res, h') := rt_register nm a ty lnx h in
  0 < res /\ hash_repr (<[nm := (a, ty, 1)]> M) h' /\ max_slots h' = max_slots h.
Proof.
  intros Hroom Hr Hs Hnm Ha Hsz Hno1 Hno2. pose proof Hr as [Hok HM].
  pose proof (hash_absent _ _ _ Hr Hno1) as Hn1. pose proof (hash_adr_absent _ _ _ Hr Hs Hno2) as Hn2.
  unfold rt_register, registr. rewrite (get_adr_none h nm Hok Hnm Hn1). cbn [Z.eqb negb].
  destruct (hash_ins_name_new h nm a ty lnx true Hok Hnm Ha Hn1 Hn2)
    as [(k & j & l' & Hk & Hj & Hi & Hins & Hrn & Hra & Hkf & Hjf & Ht & Hc)|[Hfull _]].
  - rewrite Hi. destruct (inserted_ok h nm a k j l' Hok Hnm Ha Hins Hk Hj Hkf Hjf Hrn Hra) as [Hok' Hb].
    split; [lia|]. split; [|done]. apply (hash_change M h (with_slots h l') nm (Some (a, ty, 1))); try done.
    + cbn. unfold hash_ins_name in Hi.
      destruct (probe_from _ (slots h) (max_slots h) (hash_fun nm (max_slots h))) as [k0|] eqn:Hp;
        [|injection Hi; intros; lia].
      pose proof (ins_spec name (max_slots h) (ro_some h Hok) (slots h) nm Hnm) as Hsp. change NONAME with 1 in Hp.
      rewrite Hp in Hsp.
      destruct Hsp as (Hk0 & Hf0 & _).
      { intros i Hi'. split; [by apply (ro_pos h Hok)|]. intros He. eapply Hn1. by exists i. }
      assert (name (slots h k0) <> nm) by lia.
      eapply (kept_ins nm a ty lnx (slots h) (max_slots h) true k0); [done..|].
      unfold hash_ins_name. change NONAME with 1. rewrite Hp. by rewrite Hi.
    + intros nm' a' Hne. rewrite Hb. split; [by intros [?|[? _]]|by left].
    + exists k. cbn. split; [done|]. split; [done|].
      rewrite (in_name _ _ _ _ _ _ Hins), (in_alink _ _ _ _ _ _ Hins), !(decide_True (P := k = k)) by done.
      rewrite (in_adr _ _ _ _ _ _ Hins), decide_True by done. done.
  - exfalso. assert (max_slots h <= Z.of_nat (size M)); [|lia].
    apply (names_fit (fun k => name (slots h k))).
    + intros i i' Hi Hi' He.
      apply (reach_unique name (max_slots h) (ro_some h Hok) (slots h) _ _ (ro_names h Hok)); auto.
    + intros i Hi. destruct (binds_held h (name (slots h i)) (adr (slots h (alink (slots h i))))) as (ty0 & c0 & Hh%HM).
      { exists i. split; [done|]. split; [by apply Hfull|done]. }
      by rewrite Hh.
Qed.

Lemma get_adr_cnt_kept nm h : kept_slots nm (slots h) (slots (get_adr_cnt nm h).2) /\ max_slots (get_adr_cnt nm h).2 = max_slots h.
Proof.
  unfold get_adr_cnt, hash_find_name. destruct (probe_from _ _ _ _) as [k|]; [|split; [apply kept_refl|done]].
  destruct (Z.eqb_spec (name (slots h k)) nm) as [He|]; cbn; (split; [|done]); [|apply kept_refl].
  apply kept_count; auto using kept_refl.
Qed.

(** A removal by name or by address of what is registered. *)
Lemma hash_removed M h nm a ty c dec p : hash_repr M h -> sound M -> M !! nm = Some (a, ty, c) ->
  p = rem_name dec nm h \/ p = rem_adr dec a h ->
  max_slots p.2 = max_slots h /\
  (dec = 0 -> 0 < p.1 /\ hash_repr (delete nm M) p.2) /\
  (dec <> 0 -> Z.b2z (p.1 =? 0) = (unref nm M).1 /\ hash_repr (unref nm M).2 p.2).
Proof.
  intros Hr Hs Hm Hp. pose proof Hr as [Hok HM]. assert (held h nm a ty c) as Hh by (by apply HM).
  pose proof (rem_name_spec dec nm a ty c h Hok Hh) as H1. pose proof (rem_name_kept dec nm h a ty c Hok Hh) as H2.
  pose proof (rem_adr_spec dec nm a ty c h Hok Hh) as H3. pose proof (rem_adr_kept dec nm h a ty c Hok Hh) as H4.
  destruct Hp as [-> | ->].
  - destruct (rem_name dec nm h) as [res h']. destruct H1 as (? & ? & ?), H2 as (Hmx & ? & ?). split; [done|]. by eapply hash_drop.
  - destruct (rem_adr dec a h) as [res h']. destruct H3 as (? & ? & ?), H4 as (Hmx & ? & ?). split; [done|]. by eapply hash_drop.
Qed.

(** The hashed registry refines the table. *)
Lemma hash_refines irandu room q M h : Z.of_nat room <= max_slots h ->
  hash_repr M h -> sound M -> allowed room q M ->
  let '(res, h') := hashed irandu q h in
  told q res = (reg_step q M).1 /\ hash_repr (reg_step q M).2 h' /\ max_slots h' = max_slots h.
Proof.
  intros Hroom Hr Hs Ha. pose proof Hr as [Hok HM]. destruct q as [nm a ty lnx|nm|nm|nm|a|nm|nm|a|a]; cbn in Ha |- *.
  - destruct Ha as (Hnm & Ha & Hsz & Hu). destruct (M !! nm) as [[[a0 ty0] c0]|] eqn:Hm.
    + pose proof (proj1 Hs _ _ Hm) as (_ & Ha0 & _). cbn in Ha0.
      unfold rt_register. rewrite (get_adr_binds h nm a0 Hok) by (by eapply held_binds, HM).
      by rewrite (proj2 (Z.eqb_neq a0 0)) by lia.
    + assert (adr_name a M = None) as Hno.
      { destruct (adr_name a M) as [nm'|] eqn:E; [|done]. apply adr_name_spec in E as (ty' & c' & E).
        rewrite <- (Hu nm' _ E eq_refl) in Hm. by rewrite Hm in E. }
      pose proof (hash_insert M h nm a ty lnx room Hroom Hr Hs Hnm Ha Hsz Hm Hno) as H.
      destruct (rt_register nm a ty lnx h) as [res h']. destruct H as (Hp & H). cbn [told fst snd].
      by rewrite (proj2 (Z.ltb_lt 0 res) Hp).
  - destruct (M !! nm) as [[[a ty] c]|] eqn:Hm.
    + by rewrite (get_adr_binds h nm a Hok) by (by eapply held_binds, HM).
    + by rewrite (get_adr_none h nm Hok Ha (hash_absent _ _ _ Hr Hm)).
  - destruct Ha as [Hnm Hc]. pose proof (get_adr_cnt_kept nm h) as [Hk Hmx]. destruct (M !! nm) as [[[a ty] c]|] eqn:Hm.
    + destruct (get_adr_cnt_held h nm a ty c Hok) as (h' & He & Hok' & Hh & Hb); [by apply HM|].
      rewrite He in *. split; [done|]. split; [|done].
      pose proof (proj1 Hs _ _ Hm) as (_ & _ & Hc0). cbn in Hc0.
      rewrite u16_small in Hh by lia. by apply (hash_change M h h' nm (Some (a, ty, c + 1))).
    + by rewrite (get_adr_cnt_none h nm Hok Hnm (hash_absent _ _ _ Hr Hm)).
  - destruct (M !! nm) as [[[a ty] c]|] eqn:Hm.
    + pose proof (proj1 Hs _ _ Hm) as (_ & Ha0 & _). by rewrite (get_type_held h nm a ty c Hok) by (done || by apply HM).
    + split; [|done]. unfold get_type, hash_find_name.
      pose proof (find_name_none h nm Hok Ha (hash_absent _ _ _ Hr Hm)) as Hf.
      destruct (probe_from _ _ _ _); [by rewrite Hf|done].
  - destruct (adr_name a M) as [nm|] eqn:Hm.
    + apply adr_name_spec in Hm as (ty & c & Hm). by rewrite (get_name_binds irandu h nm a Hok) by (by eapply held_binds, HM).
    + split; [|done]. unfold get_name, hash_find_adr. rewrite (proj2 (Z.eqb_neq a 0)) by lia.
      pose proof (find_adr_none h a Hok Ha (hash_adr_absent _ _ _ Hr Hs Hm)) as Hf.
      destruct (probe_from _ _ _ _); [by rewrite Hf|done].
  - destruct (M !! nm) as [[[a ty] c]|] eqn:Hm.
    + destruct (hash_removed M h nm a ty c 0 (drg_on_name nm h) Hr Hs Hm (or_introl eq_refl)) as (Hmx & Hd & _).
      destruct (drg_on_name nm h) as [res h']. destruct (Hd eq_refl) as [Hp H].
      cbn [told]. by rewrite (proj2 (Z.ltb_lt 0 res) Hp).
    + unfold drg_on_name, rem_name, hash_rem_name.
      pose proof (find_name_none h nm Hok Ha (hash_absent _ _ _ Hr Hm)) as Hf.
      destruct (probe_from _ _ _ _); [rewrite Hf|]; by destruct h.
  - destruct Ha as [[[a ty] c] Hm].
    destruct (hash_removed M h nm a ty c (- EFAULT) (drg_on_name_cnt nm h) Hr Hs Hm (or_introl eq_refl)) as (Hmx & _ & Hd).
    destruct (drg_on_name_cnt nm h) as [res h']. by destruct (Hd ltac:(done)).
  - destruct (adr_name a M) as [nm|] eqn:Hm.
    + apply adr_name_spec in Hm as (ty & c & Hm).
      destruct (hash_removed M h nm a ty c 0 (drg_on_adr a h) Hr Hs Hm (or_intror eq_refl)) as (Hmx & Hd & _).
      destruct (drg_on_adr a h) as [res h']. destruct (Hd eq_refl) as [Hp H].
      cbn [told]. by rewrite (proj2 (Z.ltb_lt 0 res) Hp).
    + unfold drg_on_adr, rem_adr, hash_rem_adr.
      pose proof (find_adr_none h a Hok Ha (hash_adr_absent _ _ _ Hr Hs Hm)) as Hf.
      destruct (probe_from _ _ _ _); [rewrite Hf|]; by destruct h.
  - destruct Ha as [nm Hm]. rewrite Hm. apply adr_name_spec in Hm as (ty & c & Hm).
    destruct (hash_removed M h nm a ty c (- EFAULT) (drg_on_adr_cnt a h) Hr Hs Hm (or_intror eq_refl)) as (Hmx & _ & Hd).
    destruct (drg_on_adr_cnt a h) as [res h']. by destruct (Hd ltac:(done)).
Qed.

(** ** Histories *)

(** What a program is told of its requests, in turn. *)
Fixpoint answers {S} (step : request -> S -> Z * S) (qs : list request) (s : S) : list Z :=
  match qs with
  | [] => []
  | q :: qs => let '(res, s') := step q s in told q res :: answers step qs s'
  end.
Fixpoint table_answers (qs : list request) (M : table) : list Z :=
  match qs with
  | [] => []
  | q :: qs => (reg_step q M).1 :: table_answers qs (reg_step q M).2
  end.
Fixpoint all_allowed (room : nat) (qs : list request) (M : table) : Prop :=
  match qs with
  | [] => True
  | q :: qs => allowed room q M /\ all_allowed room qs (reg_step q M).2
  end.
#[export] Instance all_allowed_dec room qs M : Decision (all_allowed room qs M).
Proof. revert M. induction qs; intros M; cbn; apply _. Defined.

Lemma answers_table {S} (repr : table -> S -> Prop) room step qs M s :
  (forall q M s, repr M s -> sound M -> allowed room q M ->
    let '(res, s') := step q s in told q res = (reg_step q M).1 /\ repr (reg_step q M).2 s') ->
  repr M s -> sound M -> all_allowed room qs M -> answers step qs s = table_answers qs M.
Proof.
  intros Hstep. revert M s. induction qs as [|q qs IH]; intros M s Hr Hs Ha; [done|]. cbn.
  destruct Ha as [Ha Hq]. pose proof (Hstep q M s Hr Hs Ha) as H. destruct (step q s) as [res s'].
  destruct H as [-> Hr']. f_equal. apply IH; [done|by eapply reg_step_sound|done].
Qed.

Lemma sound_empty : sound ∅.
Proof. split; [apply map_Forall_empty|]. intros nm nm' v v' H. by rewrite lookup_empty in H. Qed.
Lemma hash_repr_empty n : 1 <= n < 2 ^ 16 -> hash_repr ∅ (MkReg (fun _ => empty_entry) n).
Proof.
  intros Hn. split.
  - split; cbn; try done; by intros.
  - intros nm a ty c. rewrite lookup_empty. split; [done|]. intros (k & _ & H1 & H2 & _). cbn in H2. lia.
Qed.
Lemma list_repr_empty : list_repr ∅ (MkReg (fun _ => empty_entry) 0).
Proof.
  split; [cbn; lia|]. split; [cbn; lia|]. intros nm v. rewrite lookup_empty.
  split; [done|]. intros (k & Hk & _). cbn in Hk. lia.
Qed.

(** C19.  The two registries do the same: from their allocation on, whatever
    is registered, looked up, counted and removed, by name or by address, both answer as the table
    does - of a registration and a removal whether it was made, of the return of a
    reference whether it was the last - as long as addresses have one name, the table has
    room, and references are returned that were taken. *)
Theorem registries_agree MAX_SLOTS primes h l irandu nameseed room qs :
  Registry.rt_registry_alloc MAX_SLOTS primes true = inr h -> RegList.rt_registry_alloc true = inr l ->
  Z.of_nat room <= MAX_SLOTS -> Z.of_nat room <= max_slots h -> 1 <= max_slots h < 2 ^ 16 ->
  all_allowed room qs ∅ ->
  answers (hashed irandu) qs h = table_answers qs ∅ /\
  answers (unhashed MAX_SLOTS nameseed) qs l = table_answers qs ∅.
Proof.
  intros Hh [= <-] Hr1 Hr2 Hmx Ha. split.
  - apply (answers_table (fun M h' => hash_repr M h' /\ max_slots h' = max_slots h) room);
      [|split; [|done]|apply sound_empty|done].
    + intros q M s [Hr Hs] Hso Hal. rewrite <- Hs in Hr2.
      pose proof (hash_refines irandu room q M s Hr2 Hr Hso Hal) as H.
      destruct (hashed irandu q s). destruct H as (? & ? & ?). rewrite <- Hs. auto.
    + unfold Registry.rt_registry_alloc in Hh. destruct (_ <=? _); [done|]. injection Hh as <-. by apply hash_repr_empty.
  - apply (answers_table list_repr room); [|apply list_repr_empty|apply sound_empty|done].
    intros q M s Hr Hso Hal. by apply (list_refines MAX_SLOTS nameseed room).
Qed.

(** Two objects, one of them used twice. *)
Definition ex_requests : list request :=
  [Register 42 600 1 0; Register 142 700 2 0; Register 42 800 1 0; GetAdrCnt 42; GetName 700; DrgNameCnt 42;
   DrgAdr 700; GetAdr 142; GetType 42; DrgAdrCnt 600; GetAdr 42; DrgName 42].
Definition ex_hashed : registry := MkReg (fun _ => empty_entry) 3.
Definition ex_unhashed : registry := MkReg (fun _ => empty_entry) 0.

Lemma registries_agree_witness :
  answers (hashed (fun _ _ => 0)) ex_requests ex_hashed = table_answers ex_requests ∅ /\
  answers (unhashed 3 0) ex_requests ex_unhashed = table_answers ex_requests ∅.
Proof.
  apply (registries_agree 3 [3; 3] ex_hashed ex_unhashed (fun _ _ => 0) 0 3);
    [done..|cbn; lia|cbn; lia|]. apply (bool_decide_unpack _). by vm_compute.
Defined.

(** A hashed registry without an empty slot takes the return of a name it does not have for
    the last reference to it. *)
Example unknown_last_reference :
  let h := (rt_register 42 600 1 0 (MkReg (fun _ => empty_entry) 1)).2 in
  (drg_on_name_cnt 43 h).1 = 0 /\ (RegList.drg_on_name_cnt 43 ex_unhashed).1 = - EFAULT.
Proof. by vm_compute. Qed.
