(* ===== verification/Domain.v ===== *)
(** * Linux and real time on one processor: include/asm-x86/rtai_hal.h, sched.c.

    While real time runs, Linux is stalled: its stall word, the root status, is put
    aside and comes back when the processor is Linux' again.  Interrupts and the sections of
    the scheduler that do this nest; here are the switches, the dispatcher of the interrupts of
    real time, and what nests in it. *)

From S2P Require Import Prelude Sched Kernel.
From stdpp Require Import list.
#[local] Open Scope Z_scope.

(** ** The switches *)

(** The bit is I-pipe's. *)
Section domain.
Context (IPIPE_STALL_FLAG : Z).

(** rtai_linux_context of the processor, the root status, whether Linux' domain is the current
    one, the interrupt flag, rt_scheduling, how often the scheduler has switched, and for
    each time the pipeline was flushed whether real time had the processor then. *)
Record domst := MkDomst {
  sflags : Z; lflags : Z; root_status : Z; in_root : bool; irqs_on : bool;
  locked : Z; rqsted : Z; scheduled : nat; flushes : list bool
}.
Definition eta_domst (m : domst) : domst :=
  MkDomst (sflags m) (lflags m) (root_status m) (in_root m) (irqs_on m) (locked m) (rqsted m) (scheduled m) (flushes m).
Definition set_sflags := ltac:(setter eta_domst sflags).
Definition set_lflags := ltac:(setter eta_domst lflags).
Definition set_root_status := ltac:(setter eta_domst root_status).
Definition set_in_root := ltac:(setter eta_domst in_root).
Definition set_irqs_on := ltac:(setter eta_domst irqs_on).
Definition set_locked := ltac:(setter eta_domst locked).
Definition set_rqsted := ltac:(setter eta_domst rqsted).
Definition set_scheduled := ltac:(setter eta_domst scheduled).
Definition set_flushes := ltac:(setter eta_domst flushes).

Definition stalled : Z := Z.shiftl 1 IPIPE_STALL_FLAG.
Definition _rt_switch_to_real_time (m : domst) : domst :=
  set_in_root false (set_sflags 1 (set_root_status stalled (set_lflags (root_status m) m))).
Definition rt_switch_to_linux (m : domst) : domst :=
  if negb (sflags m =? 0) then set_sflags 0 (set_root_status (lflags m) (set_in_root true m)) else m.
Definition rt_switch_to_real_time (m : domst) : domst :=
  if sflags m =? 0 then _rt_switch_to_real_time m else m.
Definition rt_save_switch_to_real_time (m : domst) : Z * domst :=
  if sflags m =? 0 then (0, _rt_switch_to_real_time m) else (1, m).
Definition rt_restore_switch_to_linux (saved : Z) (m : domst) : domst :=
  if saved =? 0 then rt_switch_to_linux m
  else if sflags m =? 0 then _rt_switch_to_real_time m else m.

(** ** Interrupts *)

(** [hal_fast_flush_pipeline()]: what Linux has pending is run. *)
Definition hal_fast_flush_pipeline (m : domst) : domst := set_flushes (negb (sflags m =? 0) :: flushes m) m.

(** rt_schedule() where another task should run: a locked scheduler takes note, and otherwise
    there is a switch. *)
Definition schedule (m : domst) : domst :=
  if locked m =? 0 then set_scheduled (S (scheduled m)) m else set_rqsted 1 m.
Definition ISR_SCHED_LOCK (m : domst) : domst :=
  let m := if locked m =? 0 then set_rqsted 0 m else m in set_locked (locked m + 1) m.
Definition ISR_SCHED_UNLOCK (m : domst) : domst :=
  if negb (locked m =? 0) then
    let m := set_locked (locked m - 1) m in
    if (locked m =? 0) && (0 <? rqsted m) then schedule (set_rqsted 0 m) else m
  else m.

(** The dispatcher; [handler] is what the handler of the interrupt does, if it has one.
    [isr_lock] is CONFIG_RTAI_SCHED_ISR_LOCK. *)
Definition rtai_hirq_dispatcher (isr_lock : bool) (handler : option (domst -> domst)) (m : domst) : domst :=
  let out m := hal_fast_flush_pipeline (set_irqs_on true m) in
  match handler with
  | Some handler =>
      let '(saved, m) := rt_save_switch_to_real_time m in
      let m := if isr_lock then ISR_SCHED_LOCK m else m in
      let m := handler m in
      let m := if isr_lock then ISR_SCHED_UNLOCK m else m in
      let m := rt_restore_switch_to_linux saved (set_irqs_on false m) in
      if Z.testbit (root_status m) IPIPE_STALL_FLAG then m else out m
  | None => out m
  end.

(** What may go on in a handler: further interrupts, sections between SAVE_LOCK_LINUX and
    RESTORE_UNLOCK_LINUX, switches that are not undone, changes of the interrupt flag,
    calls of the scheduler where another task should run. *)
Inductive act :=
| Irq (body : list act)
| LockedSection (body : list act)
| LOCK_LINUX | UNLOCK_LINUX | Sti | Cli | Schedule.

Fixpoint run (isr_lock : bool) (a : act) (m : domst) : domst :=
  let run_all := fix run_all (l : list act) (m : domst) :=
    match l with [] => m | a :: l => run_all l (run isr_lock a m) end in
  match a with
  | Irq body => rtai_hirq_dispatcher isr_lock (Some (run_all body)) m
  | LockedSection body =>
      let '(saved, m) := rt_save_switch_to_real_time m in
      rt_restore_switch_to_linux saved (run_all body m)
  | LOCK_LINUX => rt_switch_to_real_time m
  | UNLOCK_LINUX => rt_switch_to_linux m
  | Sti => set_irqs_on true m
  | Cli => set_irqs_on false m
  | Schedule => schedule m
  end.
Definition run_all (isr_lock : bool) (l : list act) (m : domst) : domst :=
  fold_left (fun m a => run isr_lock a m) l m.
End domain.

(** ** Linux' own timer *)

(** Linux asks for its next shot [deltat] nanoseconds from now; the flag tells that the time has come
    already and Linux' timer interrupt is made pending.  Times are unsigned long. *)
Definition _rt_linux_hrt_next_shot (deltat : Z) (s : kst) : bool * kst :=
  let c := cpuid s in
  let deltat := u64 (nano2count (tun s) deltat) in
  let deltas := if setup_time_TIMER_CPUNIT (tun s) + sched_latency (tun s) <? deltat
                then deltat - sched_latency (tun s) else 0 in
  let linux := i64 (tsc s + deltat) in
  let s := times_set set_linux_time c linux s in
  if linux <? intr_time (smp_times s c) then
    if 0 <? deltas then
      (false, set_shot 1 (rt_set_timer_delay (i32 deltas) (times_set set_intr_time c linux s)))
    else (true, times_set set_linux_time c RTAI_TIME_LIMIT s)
  else (false, s).
