(* ===== verification/DomainFacts.v ===== *)
(** * Nested interrupts give Linux back what was its own.

    Whatever nests in an interrupt, the processor is afterwards in the mode it was in, with Linux'
    stall word as it was; Linux' pending work is run in Linux' mode only; and the
    scheduler runs once, at the end, however often it was asked to. *)

From S2P Require Import Prelude Sched Kernel Domain.
From stdpp Require Import list.
#[local] Open Scope Z_scope.

Section facts.
Context (IPIPE_STALL_FLAG : Z) (flag_bit : 0 <= IPIPE_STALL_FLAG).
Implicit Types m : domst.

(** Induction on what nests. *)
Section act_induction.
Context (P : act -> Prop).
Context (HIrq : forall body, Forall P body -> P (Irq body)) (HSec : forall body, Forall P body -> P (LockedSection body))
  (HL : P LOCK_LINUX) (HU : P UNLOCK_LINUX) (HS : P Sti) (HC : P Cli) (HW : P Schedule).
Fixpoint act_nested_ind (a : act) : P a :=
  let all := fix all (l : list act) : Forall P l :=
    match l with [] => Forall_nil_2 P | a :: l => Forall_cons_2 P a l (act_nested_ind a) (all l) end in
  match a with
  | Irq body => HIrq body (all body)
  | LockedSection body => HSec body (all body)
  | LOCK_LINUX => HL | UNLOCK_LINUX => HU | Sti => HS | Cli => HC | Schedule => HW
  end.
End act_induction.

Abbreviation run := (run IPIPE_STALL_FLAG).
Abbreviation run_all := (run_all IPIPE_STALL_FLAG).
Abbreviation stalled := (stalled IPIPE_STALL_FLAG).

Lemma run_irq isr body m : run isr (Irq body) m = rtai_hirq_dispatcher IPIPE_STALL_FLAG isr (Some (run_all isr body)) m.
Proof. done. Qed.
Lemma run_section isr body m : run isr (LockedSection body) m =
  let '(saved, m) := rt_save_switch_to_real_time IPIPE_STALL_FLAG m in
  rt_restore_switch_to_linux IPIPE_STALL_FLAG saved (run_all isr body m).
Proof. done. Qed.

(** ** The mode *)

(** Linux' stall word, wherever it is. *)
Definition linux_status m : Z := if sflags m =? 0 then root_status m else lflags m.
(** In Linux' mode its domain is current; in real time the processor is stalled for it.  The
    pipeline has been flushed in Linux' mode only. *)
Definition mode_ok m : Prop :=
  (sflags m = 0 /\ in_root m = true \/ sflags m = 1 /\ in_root m = false /\ root_status m = stalled) /\
  Forall (fun real_time => real_time = false) (flushes m).
Definition kept m m' : Prop := mode_ok m' /\ linux_status m' = linux_status m.

Lemma stalled_bit : Z.testbit stalled IPIPE_STALL_FLAG = true.
Proof using flag_bit. unfold Domain.stalled. by rewrite Z.shiftl_spec, Z.sub_diag by lia. Qed.

Ltac by_mode := unfold kept, mode_ok, linux_status; intros [[[Hs Hd]|(Hs & Hd & Hr)] Hf];
  rewrite ?Hs; cbn; rewrite ?Hs; cbn; auto 8.
Lemma to_real_time_kept m : mode_ok m -> kept m (rt_switch_to_real_time IPIPE_STALL_FLAG m).
Proof. unfold rt_switch_to_real_time. by_mode. Qed.
Lemma to_linux_kept m : mode_ok m -> kept m (rt_switch_to_linux m).
Proof. unfold rt_switch_to_linux. by_mode. Qed.
Lemma save_kept m : mode_ok m ->
  let '(saved, m') := rt_save_switch_to_real_time IPIPE_STALL_FLAG m in kept m m' /\ saved = sflags m.
Proof. unfold rt_save_switch_to_real_time. by_mode. Qed.
Lemma restore_kept saved m : mode_ok m -> saved = 0 \/ saved = 1 ->
  let m' := rt_restore_switch_to_linux IPIPE_STALL_FLAG saved m in kept m m' /\ sflags m' = saved.
Proof.
  unfold rt_restore_switch_to_linux, rt_switch_to_linux. intros Hm [-> | ->]; revert Hm; by_mode.
Qed.
Lemma kept_trans m1 m2 m3 : kept m1 m2 -> kept m2 m3 -> kept m1 m3.
Proof. unfold kept. intros [? <-] [? ->]. done. Qed.
(** Changes of other fields. *)
Lemma kept_same m m' : sflags m' = sflags m -> lflags m' = lflags m -> root_status m' = root_status m ->
  in_root m' = in_root m -> flushes m' = flushes m -> mode_ok m -> kept m m'.
Proof. unfold kept, mode_ok, linux_status. intros -> -> -> -> ->. done. Qed.
Lemma flush_kept m : mode_ok m -> sflags m = 0 -> kept m (hal_fast_flush_pipeline (set_irqs_on true m)).
Proof.
  intros [Hm Hf] Hs. split; [split; [exact Hm|constructor; [cbn; by rewrite Hs|exact Hf]]|done].
Qed.

Lemma isr_lock_kept (isr : bool) m : mode_ok m -> kept m (if isr then ISR_SCHED_LOCK m else m).
Proof. intros Hm. destruct isr; unfold ISR_SCHED_LOCK; try destruct (locked m =? 0); by apply kept_same. Qed.
Lemma schedule_kept m : mode_ok m -> kept m (schedule m).
Proof. intros Hm. unfold schedule. destruct (locked m =? 0); by apply kept_same. Qed.
Lemma isr_unlock_kept (isr : bool) m : mode_ok m -> kept m (if isr then ISR_SCHED_UNLOCK m else m).
Proof.
  intros Hm. destruct isr; [|by apply kept_same]. unfold ISR_SCHED_UNLOCK. destruct (locked m =? 0); cbn [negb]; [by apply kept_same|].
  destruct (_ && _); [|by apply kept_same].
  assert (kept m (set_rqsted 0 (set_locked (locked m - 1) m))) as K by (by apply kept_same).
  eapply kept_trans; [exact K|]. apply schedule_kept, K.
Qed.

Lemma run_all_kept isr l m : Forall (fun a => forall m, mode_ok m -> kept m (run isr a m)) l -> mode_ok m ->
  kept m (run_all isr l m).
Proof.
  intros Hl. revert m. induction Hl as [|a l Ha _ IH]; intros m Hm; [by apply kept_same|]. cbn.
  pose proof (Ha m Hm) as Hk. eapply kept_trans; [exact Hk|]. apply IH, Hk.
Qed.

(** An interrupt and a section end in the mode they began in. *)
Lemma dispatcher_kept isr handler m : mode_ok m -> (forall m, mode_ok m -> kept m (handler m)) ->
  let m' := rtai_hirq_dispatcher IPIPE_STALL_FLAG isr (Some handler) m in kept m m' /\ sflags m' = sflags m.
Proof using flag_bit.
  intros Hm Hh. unfold rtai_hirq_dispatcher. pose proof (save_kept m Hm) as Hsv.
  destruct (rt_save_switch_to_real_time IPIPE_STALL_FLAG m) as [saved m1]. destruct Hsv as [K1 ->].
  pose proof (isr_lock_kept isr m1 (proj1 K1)) as K2. set (m2 := if isr then _ else m1) in *.
  pose proof (Hh m2 (proj1 K2)) as K3. set (m3 := handler m2) in *.
  pose proof (isr_unlock_kept isr m3 (proj1 K3)) as K4. set (m4 := if isr then _ else m3) in *.
  assert (kept m4 (set_irqs_on false m4)) as K5 by (apply kept_same; try done; apply K4).
  set (m5 := set_irqs_on false m4) in *.
  destruct (restore_kept (sflags m) m5 (proj1 K5)) as [K6 H6].
  { destruct Hm as [[[? _]|[? _]] _]; auto. }
  set (m6 := rt_restore_switch_to_linux _ _ m5) in *.
  assert (kept m m6) as K by eauto 6 using kept_trans.
  destruct (Z.testbit (root_status m6) IPIPE_STALL_FLAG) eqn:Hst; [done|].
  assert (sflags m6 = 0) as H0.
  { destruct (proj1 K) as [[[? _]|(_ & _ & Hr)] _]; [done|]. by rewrite Hr, stalled_bit in Hst. }
  split; [|by cbn]. eapply kept_trans; [exact K|]. apply flush_kept; [apply K|done].
Qed.
Lemma section_kept body m (f : domst -> domst) : mode_ok m -> (forall m, mode_ok m -> kept m (f m)) ->
  f = body ->
  let m' := (let '(saved, m) := rt_save_switch_to_real_time IPIPE_STALL_FLAG m in
             rt_restore_switch_to_linux IPIPE_STALL_FLAG saved (body m)) in kept m m' /\ sflags m' = sflags m.
Proof.
  intros Hm Hf <-. pose proof (save_kept m Hm) as Hsv.
  destruct (rt_save_switch_to_real_time IPIPE_STALL_FLAG m) as [saved m1]. destruct Hsv as [K1 ->].
  pose proof (Hf m1 (proj1 K1)) as K2.
  destruct (restore_kept (sflags m) (f m1) (proj1 K2)) as [K3 H3].
  { destruct Hm as [[[? _]|[? _]] _]; auto. }
  split; [|done]. eapply kept_trans; [exact K1|]. by eapply kept_trans.
Qed.

Lemma run_kept isr a : forall m, mode_ok m -> kept m (run isr a m).
Proof using flag_bit.
  induction a as [body IH|body IH| | | | |] using act_nested_ind; intros m Hm.
  - rewrite run_irq. apply dispatcher_kept; [done|]. intros; by apply run_all_kept.
  - rewrite run_section. eapply (section_kept (run_all isr body)); [done| |reflexivity]. intros; by apply run_all_kept.
  - by apply to_real_time_kept.
  - by apply to_linux_kept.
  - by apply kept_same.
  - by apply kept_same.
  - by apply schedule_kept.
Qed.

(** ** Deferred scheduling *)

(** Whether the scheduler is asked for. *)
Fixpoint asks (a : act) : bool :=
  match a with
  | Irq body | LockedSection body => existsb asks body
  | Schedule => true
  | _ => false
  end.
(** While it is locked the scheduler does not run, but takes note. *)
Definition noted (asked : bool) m m' : Prop :=
  locked m' = locked m /\ scheduled m' = scheduled m /\ rqsted m' = if asked then 1 else rqsted m.

Lemma noted_trans a b m1 m2 m3 : noted a m1 m2 -> noted b m2 m3 -> noted (a || b) m1 m3.
Proof. unfold noted. intros (-> & -> & ->) (-> & -> & ->). by destruct a, b. Qed.
Lemma noted_before b m1 m2 m3 : noted false m1 m2 -> noted b m2 m3 -> noted b m1 m3.
Proof. apply (noted_trans false b). Qed.
Lemma noted_after b m1 m2 m3 : noted b m1 m2 -> noted false m2 m3 -> noted b m1 m3.
Proof. intros H1 H2. pose proof (noted_trans _ _ _ _ _ H1 H2) as H. by rewrite orb_false_r in H. Qed.
Lemma save_noted m : noted false m (rt_save_switch_to_real_time IPIPE_STALL_FLAG m).2.
Proof. unfold rt_save_switch_to_real_time. by destruct (_ =? _). Qed.
Lemma restore_noted saved m : noted false m (rt_restore_switch_to_linux IPIPE_STALL_FLAG saved m).
Proof.
  unfold rt_restore_switch_to_linux, rt_switch_to_linux.
  destruct (saved =? 0), (sflags m =? 0); done.
Qed.
Lemma run_all_noted isr l m :
  Forall (fun a => forall m, 0 < locked m -> noted (asks a) m (run isr a m)) l -> 0 < locked m ->
  noted (existsb asks l) m (run_all isr l m).
Proof.
  intros Hl. revert m. induction Hl as [|a l Ha _ IH]; intros m Hm; [done|].
  pose proof (Ha m Hm) as H1. change (run_all isr (a :: l) m) with (run_all isr l (run isr a m)).
  cbn [existsb]. eapply noted_trans; [exact H1|]. apply IH. by rewrite (proj1 H1).
Qed.
(** The end of a dispatch. *)
Lemma finish_noted saved m :
  let m' := rt_restore_switch_to_linux IPIPE_STALL_FLAG saved (set_irqs_on false m) in
  noted false m (if Z.testbit (root_status m') IPIPE_STALL_FLAG then m' else hal_fast_flush_pipeline (set_irqs_on true m')).
Proof.
  intros m'. assert (noted false m m') as H by apply (restore_noted saved (set_irqs_on false m)).
  by destruct (Z.testbit _ _).
Qed.

Lemma dispatcher_body isr body m :
  let m1 := (rt_save_switch_to_real_time IPIPE_STALL_FLAG m).2 in
  let m2 := if (isr : bool) then ISR_SCHED_LOCK m1 else m1 in
  let m3 := run_all isr body m2 in
  noted false (if isr then ISR_SCHED_UNLOCK m3 else m3) (run isr (Irq body) m).
Proof.
  rewrite run_irq. unfold rtai_hirq_dispatcher.
  destruct (rt_save_switch_to_real_time IPIPE_STALL_FLAG m) as [saved m1]. apply finish_noted.
Qed.

Lemma run_noted a : forall m, 0 < locked m -> noted (asks a) m (run true a m).
Proof.
  induction a as [body IH|body IH| | | | |] using act_nested_ind; intros m Hm; try done.
  - pose proof (dispatcher_body true body m) as Hd. cbv zeta iota in Hd.
    pose proof (save_noted m) as Hs. set (m1 := (rt_save_switch_to_real_time _ m).2) in *.
    assert (locked m1 = locked m /\ scheduled m1 = scheduled m /\ rqsted m1 = rqsted m) as (L1 & S1 & R1) by apply Hs.
    assert (ISR_SCHED_LOCK m1 = set_locked (locked m + 1) m1) as El.
    { unfold ISR_SCHED_LOCK. rewrite L1, (proj2 (Z.eqb_neq (locked m) 0)) by lia. by rewrite L1. }
    rewrite El in Hd. pose proof (run_all_noted true body (set_locked (locked m + 1) m1) IH ltac:(cbn; lia)) as (L3 & S3 & R3).
    set (m3 := run_all true body _) in *. cbn in L3, S3, R3.
    assert (ISR_SCHED_UNLOCK m3 = set_locked (locked m) m3) as Eu.
    { unfold ISR_SCHED_UNLOCK. rewrite L3, (proj2 (Z.eqb_neq (locked m + 1) 0)) by lia. cbn [negb].
      replace (locked m + 1 - 1) with (locked m) by lia. cbn. by rewrite (proj2 (Z.eqb_neq (locked m) 0)) by lia. }
    rewrite Eu in Hd. destruct Hd as (L4 & S4 & R4). unfold noted. cbn in *.
    by rewrite L4, S4, R4, S3, R3, S1, R1.
  - rewrite run_section. pose proof (save_noted m) as Hs.
    destruct (rt_save_switch_to_real_time IPIPE_STALL_FLAG m) as [saved m1]. cbn in Hs.
    eapply noted_before; [exact Hs|]. eapply noted_after; [|apply restore_noted].
    apply run_all_noted; [done|]. by rewrite (proj1 Hs).
  - unfold Domain.run, rt_switch_to_real_time. by destruct (_ =? _).
  - unfold Domain.run, rt_switch_to_linux. by destruct (negb _).
  - unfold Domain.run, schedule. by rewrite (proj2 (Z.eqb_neq (locked m) 0)) by lia.
Qed.

(** Where it is not locked, the interrupt locks it, and runs it at the end. *)
Lemma run_irq_deferred body m : locked m = 0 ->
  locked (run true (Irq body) m) = 0 /\
  scheduled (run true (Irq body) m) = (scheduled m + if existsb asks body then 1 else 0)%nat.
Proof.
  intros H0. pose proof (dispatcher_body true body m) as Hd. cbv zeta iota in Hd.
  pose proof (save_noted m) as (L1 & S1 & _). set (m1 := (rt_save_switch_to_real_time _ m).2) in *.
  assert (ISR_SCHED_LOCK m1 = set_locked 1 (set_rqsted 0 m1)) as El.
  { unfold ISR_SCHED_LOCK. rewrite L1, H0. cbn. by rewrite L1, H0. }
  rewrite El in Hd.
  pose proof (run_all_noted true body (set_locked 1 (set_rqsted 0 m1))) as (L3 & S3 & R3).
  { apply Forall_true. intros a m2. apply run_noted. } { done. }
  set (m3 := run_all true body _) in *. cbn in L3, S3, R3. destruct Hd as (-> & -> & _).
  unfold ISR_SCHED_UNLOCK. rewrite L3. cbn. rewrite R3.
  unfold schedule. change (1 - 1) with 0. destruct (existsb asks body); cbn; (split; [done|]); rewrite S3, S1; lia.
Qed.

(** C9.  An interrupt of real time leaves no trace in what is Linux': whatever nests in its
    handler - interrupts, sections, switches to Linux and back - it ends in the mode in which
    it came, with the same domain and Linux' stall word unchanged; Linux' pending
    work is run only in Linux' mode; and with CONFIG_RTAI_SCHED_ISR_LOCK the
    scheduler runs once, at the end, if anything in the nest has asked for it. *)
Theorem irq_nest_restores isr body m :
  mode_ok m -> let m' := run isr (Irq body) m in
  mode_ok m' /\ sflags m' = sflags m /\ in_root m' = in_root m /\ linux_status m' = linux_status m /\
  (locked m = 0 -> isr = true ->
   locked m' = 0 /\ scheduled m' = (scheduled m + if existsb asks body then 1 else 0)%nat).
Proof using flag_bit.
  intros Hm m'.
  destruct (dispatcher_kept isr (run_all isr body) m Hm) as [[Hm' Hl] Hs].
  { intros m0 H0. apply run_all_kept; [|done]. apply Forall_true. intros a m1. apply run_kept. }
  change (rtai_hirq_dispatcher IPIPE_STALL_FLAG isr (Some (run_all isr body)) m) with m' in *.
  split; [done|]. split; [done|]. split.
  { destruct Hm as [[[? ->]|(? & -> & _)] _], Hm' as [[[? ->]|(? & -> & _)] _]; congruence. }
  split; [done|]. intros H0 ->. by apply run_irq_deferred.
Qed.

(** An interrupt that comes to Linux; in its handler another one, which asks for the
    scheduler, and a section in which Linux has the processor for a while. *)
Definition ex_linux : domst := MkDomst 0 0 4 true true 0 0 0 [].
Definition ex_body : list act := [Sti; Irq [Schedule; UNLOCK_LINUX]; LockedSection [UNLOCK_LINUX; LOCK_LINUX]].
End facts.

Lemma irq_nest_restores_witness :
  let m' := run 0 true (Irq ex_body) ex_linux in
  mode_ok 0 m' /\ sflags m' = 0 /\ in_root m' = true /\ linux_status m' = 4 /\
  (0 = 0 -> true = true -> locked m' = 0 /\ scheduled m' = 1%nat).
Proof.
  apply (irq_nest_restores 0 ltac:(lia) true ex_body ex_linux). split; [by left|constructor].
Defined.

(** ** Linux' own timer *)

(** A shot that Linux asks for is not missed: when it is earlier than the one the timer is set to, the
    timer is set anew, no later than asked for, or its time has come and Linux is told at once. *)
Lemma linux_shot_in_time d s :
  let '(now, s') := _rt_linux_hrt_next_shot d s in
  let dt := u64 (nano2count (tun s) d) in
  dt + tsc s < 2 ^ 63 -> 0 <= tsc s -> 0 <= sched_latency (tun s) -> dt < 2 ^ 31 ->
  0 <= setup_time_TIMER_CPUNIT (tun s) ->
  if now then dt <= setup_time_TIMER_CPUNIT (tun s) + sched_latency (tun s)
  else linux_time (smp_times s' (cpuid s)) = tsc s + dt /\
    (intr_time (smp_times s (cpuid s)) <= tsc s + dt /\ timer_delay s' = timer_delay s \/
     intr_time (smp_times s' (cpuid s)) = tsc s + dt /\
     exists delay, timer_delay s' (cpuid s) = Some delay /\ 0 < delay <= dt).
Proof.
  unfold _rt_linux_hrt_next_shot. cbv zeta. set (dt := u64 (nano2count (tun s) d)).
  pose proof (wrapu_range 64 (nano2count (tun s) d) ltac:(lia)) as Hdt. fold dt in Hdt.
  unfold times_set. cbn [set_smp_times smp_times cpuid tun tsc]. rewrite fn_lookup_insert.
  cbn [set_linux_time intr_time].
  destruct (Z.ltb_spec (i64 (tsc s + dt)) (intr_time (smp_times s (cpuid s)))) as [Hlt|Hge].
  - destruct (Z.ltb_spec (setup_time_TIMER_CPUNIT (tun s) + sched_latency (tun s)) dt) as [Hl|Hl].
    + destruct (Z.ltb_spec 0 (dt - sched_latency (tun s))) as [Hp|Hp]; [|intros; lia].
      intros Hw Ht Hsl Hd Hsu. rewrite wraps_small in * by lia. rewrite (wraps_small 64) by lia.
      unfold rt_set_timer_delay. destruct (Z.eqb_spec (dt - sched_latency (tun s)) 0); [lia|].
      cbn. rewrite !fn_lookup_insert. cbn. split; [done|]. right. split; [done|].
      eexists. split; [done|]. lia.
    + change (0 <? 0) with false. cbv iota. intros; lia.
  - intros Hw Ht Hsl Hd Hsu. rewrite (wraps_small 64) in * by lia.
    cbn. rewrite fn_lookup_insert. cbn. split; [done|]. by left.
Qed.
